(* ===== verification/_CoqProject ===== *)
-Q . S2P
Prelude.v
Errors.v
Storage.v
Db.v
Rely.v
Awaiter.v
UploadState.v
Json.v
Schema.v
Batch.v
Names.v
OperationLogs.v
Numerals.v
Redis.v
ExpiryCache.v
Tokens.v
RedisLaws.v
Auth.v
AccountAdmin.v
Filters.v
Sessions.v
RateLimits.v
AccountGuards.v
FileSystem.v
StorageInventory.v
LocalFileStorage.v
LocalBlobStore.v
DeleteAwaiter.v
LocalPipeline.v
LocalRoundTrip.v
Quota.v
UploadTasks.v
StorageJobs.v
Content.v
JobContract.v
JobAdmin.v
RecoveryLaws.v
ScheduledTasks.v
MultipartJournal.v
Folders.v
Files.v
DeletePlans.v
FolderService.v
Trash.v
TrashMoves.v
TrashTrees.v
TrashLocks.v
FileMutations.v
FileCopies.v
Tree.v
TreeUpdates.v
TreeShape.v
MoveShape.v
Like.v
Shares.v
ShareSaves.v
ShareAccess.v
Reconciliation.v
ReconcileScans.v
Downloads.v
Lifecycle.v
Cleanup.v
StorageJobWorker.v
Accounting.v
BlobCollector.v
TrashBooks.v
TrashRestore.v
ScanRepairs.v
UploadOutcomes.v
UploadService.v
UploadPlans.v
Cancellation.v
Completion.v
CopyBooks.v
SaveBooks.v
