(* ===== verification/Prelude.v ===== *)
(** * Disk: a verification library for the network-drive server

    Disk is a network-drive back end in C++ (Drogon, PostgreSQL, Redis, a local
    or S3 object store) under [src/src/].  A file reaches the drive through an
    upload: the client announces name, size and hash ([InitializeUpload]), sends
    numbered chunks ([RecordChunkIfInProgress]), and asks for completion
    ([CompleteUpload]), which claims a lease on the upload, assembles and
    verifies the chunks outside any transaction, promotes the result to a
    content-addressed blob, and then, in one transaction, charges the account,
    takes a reference to the content, inserts the file and ends the task.
    Uploads are cancelled by their user or expired by a background job; blobs
    nobody refers to are collected by another.  A reconciliation scan compares
    the books (account totals, reference counts) with the rows they summarise.
    Before a handler runs, filters check the token of the request, issued when its user
    logged in, and count it against the rate limits kept in Redis.

    ** The model

    Every handler is translated as a computation of the monad [M S] ([Db.v]): it
    threads the database [S], raises C++ exceptions, calls the object stores and
    consults a schedule, which says for every request to the server what other
    sessions did to the database before it and whether the request works, fails,
    or takes effect with its reply lost.  A SQL statement is a function from the
    database to [option (answer * database)], [None] being a rejected statement
    (constraint violation, integer out of range); [exec] runs it, [Run] is
    [TransactionRunner::Run].  Integers are [Z] with the wrap-around of their C++
    or SQL type written out; a [std::string] is a byte string; a table is a
    [gmap] from primary keys to rows ([Schema.v]).

    ** The files

    - [Prelude.v]: machine integers, byte strings, lemmas and automation on
      lists, maps, tables and [WITH RECURSIVE] queries.
    - [Errors.v]: [src/src/utils/ErrorCode.hpp], the error codes and [Result].
    - [Storage.v]: the interfaces of the staging and blob stores
      ([src/src/storage/UploadStagingStorage.hpp], [IBlobStore.hpp]) as records of
      operations.
    - [Db.v]: [src/src/services/TransactionRunner.hpp]: the session, transactions
      under faults, and the two interfaces the other files are proved against:
      [TxBody] (a body that only touches the session) and [Preserves] (a
      computation that keeps an invariant of the database, given that the other
      sessions keep it).  [runs] describes the run of a body without faults.
      [Rely.v]: [Respects], which also says how the database may change in between,
      for services that act on rows read outside a transaction.
    - [Awaiter.v]: the atomic handshake inside the transaction runner.
    - [Schema.v]: [src/sql/init.sql], the tables, with their [CHECK]s; [Json.v] the
      JSON values of job payloads.
    - [UploadState.v]: [UploadStateMachine.cpp].  [UploadTasks.v]:
      [UploadTaskRepository.cpp], the task rows, their finalize lease and chunks.
    - [Quota.v]: [QuotaService.cpp], with the account it implements as a module of
      its own.
    - [StorageJobs.v]: [StorageJobRepository.cpp], the durable job queue.
      [JobContract.v]: [StorageJobContract.cpp], what the jobs carry.
    - [OperationLogs.v]: the audit trail shared by the services.  [JobAdmin.v]:
      [StorageJobAdminService.cpp] and [StorageRecoveryAdminService.cpp], recovery by
      administrators; [RecoveryLaws.v] says what it changes.  [ScheduledTasks.v]:
      [ScheduledTasks.cpp], the periodic jobs.  [Cleanup.v]: [CleanupService.cpp].
    - [MultipartJournal.v]: [MultipartUploadJournal.cpp], uploads in parts to the
      object store as jobs of that queue.
    - [Content.v]: [ContentService.cpp], references to stored blobs and the gate
      of the collector.
    - [Folders.v]: [FolderRepository.cpp], the folder tree.  [Files.v]:
      [FileRepository.cpp] and the statements of [FileServiceUtils.cpp].
    - [DeletePlans.v]: the plan of a folder deletion and the snapshot of a folder tree
      kept in the trash.  [Trash.v]: [TrashService.cpp] and [TrashQuery.cpp], every
      operation on the trash.  [TrashMoves.v] takes a move to the trash apart,
      [TrashTrees.v] says what it removes and keeps, [TrashLocks.v] that the loop that
      locks its folders ends; [TrashBooks.v] and [TrashRestore.v] show that the trash keeps the books.
    - [FolderService.v]: [FolderService.cpp].  [FileMutations.v] and [FileCopies.v]:
      [FileMutationService.cpp], renaming, moving and deleting, and copying.
      [Tree.v] says what it means for places in a tree to agree, [TreeUpdates.v],
      [TreeShape.v] and [MoveShape.v] that creating, renaming and moving keep it so;
      [CopyBooks.v] that a copy keeps the books.
    - [Like.v]: the [LIKE] operator of SQL.  [Shares.v]: [ShareService.cpp] and
      [ShareAuditService.cpp], shares and their audit trail; [ShareSaves.v]: saving a
      share to the drive.  [ShareAccess.v] says who may open a share and what a share
      hands out, [SaveBooks.v] that saving keeps the books.
    - [Names.v]: [NameValidation.hpp] and the text functions of
      [FileServiceUtils.cpp].  [Batch.v]: [BatchUtils.hpp].
    - [Reconciliation.v] and [ReconcileScans.v]: findings and the scans of accounts,
      contents and stored objects of [StorageReconciliationService.cpp];
      [ScanRepairs.v] says what the scan of contents repairs and misreports.
    - [Numerals.v]: the readers of numbers of the C++ library.  [Downloads.v]:
      [DownloadResponder.cpp] and [DownloadIntegrityService.cpp], range requests and
      the response to a download.
    - [StorageJobWorker.v]: [StorageJobWorker.cpp], the worker of the job queue with its
      handlers; [BlobCollector.v] follows the collector of blobs.
    - [Lifecycle.v]: [UploadLifecycleService.cpp], the handlers that compose all of
      the above.  What they guarantee: [Accounting.v] the books, [UploadOutcomes.v]
      what a completion leaves behind, [Cancellation.v] and [Completion.v] the
      outcome of a cancellation, an expiry and a completion.
    - [UploadService.v]: [UploadService.cpp], the requests of an upload and the cache of
      task metadata; [UploadPlans.v]: every request keeps the plans of the uploads.
    - [FileSystem.v]: what the local stores use of [std::filesystem] and file streams.
      [StorageInventory.v], [LocalFileStorage.v], [LocalBlobStore.v]: [StorageInventory.cpp],
      [LocalFileStorage.cpp] with [AssemblyConcurrencyLimiter.hpp], [LocalBlobStore.cpp];
      [DeleteAwaiter.v] the time-out of a deletion.  [LocalPipeline.v] says what an assembly
      and a promotion leave behind under failures, [LocalRoundTrip.v] that what is uploaded
      is what is read.
    - [Redis.v]: [RedisKeyPrefix.hpp] and [RedisService.cpp], over the part of the Redis server
      they use; [HasRedis] is the interface by which a state contains one, and [RedisLaws.v]
      how its commands behave under interference.
    - [ExpiryCache.v]: the cache of revocations of [TokenService.hpp]; [Tokens.v]:
      [TokenService.cpp].  [Auth.v]: [AuthService.cpp].  [AccountAdmin.v]: the changes to
      accounts of [UserService.cpp] and [AdminService.cpp].  [Filters.v]: [src/src/filters/].
      [Sessions.v], [AccountGuards.v] and [RateLimits.v] say what tokens, accounts and rate
      limits guarantee.
    ** The theorems

    - One transaction: [Run_atomic]; no lost wake-up: [awaiter_resumes_once].
    - One upload task: [state_version_fences], [stale_finalizer_is_fenced],
      [claim_disposition], [claim_sees_every_chunk], [record_chunk_retry].
    - One account: [quota_refines_account] against [Account.spec], the account of the
      documentation, and its one deviation; [reservations_keep_quota],
      [consume_ignores_reservations].
    - The queue: [queue_invariant], [live_lease_is_exclusive], [claim_batch_spec],
      [failure_policy], [enqueue_deduplicates]; its payloads:
      [periodic_jobs_roundtrip], [parsed_jobs_are_built].
    - Uploads in parts: [journal_acts_for_its_owner],
      [abandoned_uploads_are_recovered].
    - The blobs: [decrement_closes_gate], [collector_spares_referenced_blobs],
      [content_scan_schedules_collectors], [trashed_folder_raises_alarm].
    - The worker: [run_accounts_for_every_job], [retry_delay_bounds].  The periodic jobs:
      [periodic_scans_are_seeded_once]; on demand: [cleanup_runs_both].
    - Recovery: [released_lease_fences_its_owner], [replay_revives_one_dead_letter],
      [rebuilt_cleanup_is_queued_once].
    - The whole upload: [uploads_keep_books] (the ledger invariant is kept by every
      handler, under any schedule) and [exact_books_raise_no_alarm] (the scan agrees);
      [complete_uploads_complete], [committed_completion_is_replayed],
      [completion_promotes_the_announced_file], [cancel_outcome], [expire_outcome],
      [chunks_tile_the_file].
    - Chunks: [upload_requests_keep_plans] (geometry, recorded sizes and the cache),
      [claimed_chunks_tile_the_file] (a first claim or a take-over),
      [accepted_chunk_is_recorded], [cache_is_transparent]; [chunk_count_overflows].
    - The local stores: [local_stores_round_trip], [assembly_is_the_concatenation],
      [promotion_publishes_the_assembly]; what goes wrong:
      [interrupted_promotion_poisons_address], [timer_outlives_deletion].
    - The trash: [trash_keeps_books] (the ledger, with the references held by entries
      of the trash, is kept by every operation under any schedule),
      [snapshot_roundtrip] (a snapshot gives the tree back),
      [trash_takes_whole_tree], [trash_loses_nothing], [lock_loop_ends]
      (while other sessions change the tree) and [nested_request_strands_files].
    - The tree: [subtree_is_complete], [breadcrumb_climbs_to_root];
      [drive_keeps_its_shape], [move_keeps_shape] (every path, depth and parent agrees)
      and [stale_target_breaks_shape].  Copies: [copy_settles_its_reservation] and
      [lost_commit_releases_twice].  Text:
      [names_are_utf8], [keyword_normal_form], [extension_follows_last_dot].
    - Shares: [download_stays_inside_the_share], [access_needs_the_password],
      [refusals_look_alike], [share_lifetime]; [saving_keeps_books]; what goes wrong:
      [wildcard_share_leaks], [save_into_missing_folder].
    - Sessions: [tokens_mean_what_they_say] (a token verifies to what it was issued for, for
      its lifetime, and never as another kind), [refresh_token_is_single_use],
      [logout_revokes_access] (through the filter, whatever is cached),
      [barred_accounts_get_no_tokens]; the cache is a map: [indexes_agree].
    - Rate limits: [window_admits_limit] (with the life of the counter, and open on failure).  Administration: [granted_space_is_exact],
      [last_administrator_stays], and [overlapping_demotions_leave_nobody].
    - Downloads: [ranges_mean_what_they_say] (requests are read as RFC 9110 says, but for [bytes=-0]),
      [download_delivers_range] (the bytes asked for, whatever the buffers);
      [empty_file_suffix_range].

    ** Choices

    - Parameters of the model: the object stores, the digest function, the uuid
      generator, the clock of the server and the configuration.  No theorem assumes
      anything of them that is not a hypothesis of its own statement.
    - Transactions are isolated: other sessions act between requests that are
      outside a transaction.  Row locks, advisory locks and [SKIP LOCKED] are then
      without effect and are no-ops.  The program runs under READ COMMITTED, where a
      statement in a transaction sees what others have committed unless a lock keeps them
      out; races inside a transaction that no lock excludes are outside the model.  The loop
      that locks folders is there for such changes and is treated statement by statement
      ([lock_loop_ends]).
    - An update of a folder, a file, a share or a user sets [updated_at] to [NOW()] whatever
      the statement says (the trigger [update_modified_column]); the column of [upload_tasks]
      is left out.  Deleting a file clears the reference of the upload that made it
      ([forget_completed]).
    - [NOW()] is [now] of the database, in microseconds.  Identifiers bound as
      [BIGINT] are taken to be below [2 ^ 63].  Strings are ordered by bytes.  A
      [VARCHAR] limit counts characters, and is modelled on folders, files, uploads and their
      chunks; a [CHAR(32)] holds the hash it is given, not padded.
      [jsonb] gives back the document stored.
    - [Mapper::findOne] answers when exactly one row matches and throws otherwise.
      A recursive query that would not end is a statement that fails.
    - Log lines, metrics, stage timers, log contexts and the pauses of the
      fault-injection tests are left out: they change no state.  So are the
      invalidation of the listing cache in Redis and the [field] and [value] of a
      failed item of a batch.
    - An [unordered_map] is a [gmap]; where the order of iteration can matter
      ([matched_root]) it is a parameter, a function from keys to an order.
      [item_data] of a trash row is never NULL.
    - The cache of upload tasks is shared by all requests of a process: a request is given
      the cache it finds and answers with a list of edits, applied to whatever the cache
      has become.  The steady clock is an argument.  When a request ends in an exception
      its only edit is the removal of an expired entry.
    - The state of Redis is part of the state of a service, with a clock of its own in
      milliseconds; a command or script is one step, which can fail or lose its reply.  jwt-cpp,
      the digest of tokens and the hash of passwords are parameters; what the tokens of jwt-cpp
      promise is the record [JwtLaws], with an implementation.  An operation is given the cache
      of revocations it finds and answers with the entries it upserts.  The clocks are arguments.
    - The date of a periodic scan is computed from the seconds since 1970, as [gmtime_r] does;
      years have four digits until [last_second].
    - The file system is a map from paths to contents; a directory is a prefix of the paths
      below it, so empty directories are not seen and creating one changes nothing.  Every
      call is a step that can fail, with or without its effect, and before which other
      processes may change the tree.  A chunk is read as it was when it was opened; the
      enumeration of an inventory is one step; [copy_file] creates its target and then
      copies.  The theorems on assemblies take the buffer size to be positive.
    - Fuel: [WITH RECURSIVE] is iterated once per row of the user's folders, plus
      one ([with_recursive_total] with [folder_depths] shows that this suffices);
      [chunk_loop] gets one step per element, plus one; [scan] one step per byte;
      [restore_folders] one pass per folder, since a pass that restores none ends it;
      [lock_all_folders] gives [lock_folders] one round per folder, plus one, since every round
      but the last locks a folder more ([lock_loop_ends]); [buffers] and [read_all] take a unit per byte, plus
      one.

    ** Not modelled

    Controllers and data transfer objects (requests and responses around the services), the
    S3 back end, listings, searches and statistics (read-only statements, those of jobs included), the
    request trace filter, the timers and threads of the worker process,
    configuration and the clients; the generated row classes are replaced by the schema. *)

From stdpp Require Export base tactics numbers option list gmap sets strings pretty sorting.
From coqutil Require Export Datatypes.RecordSettersUsingExistingGetters.

#[global] Arguments RecordSettersUsingExistingGetters.const {E} newValue _ /.

#[global] Open Scope Z_scope.

(** ** Machine integers

    C++ integers are [Z] with their wrap-around written out: unsigned types are
    reduced modulo [2^w], [i32] and [i64] are the two's complement readings that
    the [static_cast]s of the source produce. *)

Definition u8 (z : Z) : Z := z mod 2 ^ 8.
Definition u32 (z : Z) : Z := z mod 2 ^ 32.
Definition u64 (z : Z) : Z := z mod 2 ^ 64.
Definition i32 (z : Z) : Z := (z + 2 ^ 31) mod 2 ^ 32 - 2 ^ 31.
Definition i64 (z : Z) : Z := (z + 2 ^ 63) mod 2 ^ 64 - 2 ^ 63.

Definition u32_max : Z := 2 ^ 32 - 1.
Definition u64_max : Z := 2 ^ 64 - 1.

(** SQL integers raise an error when they leave their range: [None] is the
    "integer out of range" error of an [INTEGER] or [BIGINT] column. *)
Definition int4 (z : Z) : option Z :=
  if bool_decide (- 2 ^ 31 <= z < 2 ^ 31) then Some z else None.
Definition bigint (z : Z) : option Z :=
  if bool_decide (- 2 ^ 63 <= z < 2 ^ 63) then Some z else None.

(** ** Strings

    A [std::string] is a Rocq [string]: both are sequences of bytes. *)

Definition bytes_of_string (s : string) : list Z :=
  (λ c, Z.of_nat (Ascii.nat_of_ascii c)) <$> String.list_ascii_of_string s.

Definition strlen (s : string) : Z := Z.of_nat (String.length s).

Definition str_empty (s : string) : bool :=
  match s with EmptyString => true | _ => false end.

(** [char_length]: the characters of a UTF-8 text, that is, the bytes that do not
    continue a character; [varchar n] is the length check of a [VARCHAR(n)]. *)
Definition char_length (s : string) : Z :=
  Z.of_nat (length (List.filter (λ b, negb (Z.land b 0xC0 =? 0x80)) (bytes_of_string s))).

Definition varchar (n : Z) (s : string) : bool := char_length s <=? n.

(** [std::to_string] on an integer. *)
Definition to_string (z : Z) : string := pretty z.

(** ** Row selection

    [find_row P m] is a row of the table [m] that satisfies [P].  It is used
    where a unique constraint of the schema leaves at most one such row. *)

Definition find_row {K V} `{Countable K} (P : K → V → bool) (m : gmap K V)
  : option (K * V) :=
  List.find (λ kv, P kv.1 kv.2) (map_to_list m).

(** [SELECT EXISTS]. *)
Definition exists_row {K V} `{Countable K} (P : K → V → bool) (m : gmap K V) : bool :=
  existsb (λ kv, P kv.1 kv.2) (map_to_list m).

(** [SELECT COUNT]. *)
Definition count_rows {K V} `{Countable K} (P : K → V → bool) (m : gmap K V) : Z :=
  Z.of_nat (length (List.filter (λ kv, P kv.1 kv.2) (map_to_list m))).

(** [SELECT SUM(f)] over the rows that satisfy [P]. *)
Definition sum_rows {K V} `{Countable K} (f : K → V → Z) (m : gmap K V) : Z :=
  map_fold (λ k v acc, f k v + acc) 0 m.

(** [ORDER BY]: insertion sort under the ordering [leb]. *)
Fixpoint insert_by {A} (leb : A → A → bool) (x : A) (l : list A) : list A :=
  match l with
  | [] => [x]
  | y :: l' => if leb x y then x :: l else y :: insert_by leb x l'
  end.

Definition order_by {A} (leb : A → A → bool) (l : list A) : list A :=
  foldr (insert_by leb) [] l.

(** [SELECT ... WHERE P ORDER BY leb]. *)
Definition select_rows {K V} `{Countable K} (P : K → V → bool)
    (leb : K * V → K * V → bool) (m : gmap K V) : list (K * V) :=
  order_by leb (List.filter (λ kv, P kv.1 kv.2) (map_to_list m)).

(** [ORDER BY x, y] from orderings of the two columns. *)
Definition lex_leb (x x' : Z) (tie : bool) : bool := (x <? x') || ((x =? x') && tie).

(** [WITH RECURSIVE ... UNION ALL]: the rows of the frontier, then the rows [step]
    joins to them, until a round adds nothing; [None] when the fuel runs out. *)
Fixpoint with_recursive {A} (fuel : nat) (step : A → list A) (frontier : list A)
  : option (list A) :=
  match frontier, fuel with
  | [], _ => Some []
  | _, O => None
  | _, S fuel => rest ← with_recursive fuel step (frontier ≫= step); Some (frontier ++ rest)
  end.

(** SQL comparison of a nullable timestamp: [NULL] compares to nothing. *)
Definition ts_le (t : option Z) (bound : Z) : bool :=
  match t with Some t => t <=? bound | None => false end.
Definition ts_gt (t : option Z) (bound : Z) : bool :=
  match t with Some t => bound <? t | None => false end.

(** [INTERVAL '1 second'] in the microsecond resolution of [TIMESTAMP]. *)
Definition seconds (n : Z) : Z := n * 1000000.

Definition opt_eqb {A} `{EqDecision A} (x : option A) (y : A) : bool :=
  bool_decide (x = Some y).

(** ** Shared tactics *)

Create HintDb disk.

(** Split every boolean condition the code tests into its two cases. *)
Ltac case_bools :=
  repeat match goal with
  | H : (_ && _)%bool = true |- _ => apply andb_prop in H; destruct H
  | H : negb _ = true |- _ => apply negb_true_iff in H
  | H : negb _ = false |- _ => apply negb_false_iff in H
  | H : (_ || _)%bool = false |- _ => apply orb_false_iff in H; destruct H
  | H : (_ =? _) = true |- _ => apply Z.eqb_eq in H
  | H : (_ =? _) = false |- _ => apply Z.eqb_neq in H
  | H : (_ <? _) = true |- _ => apply Z.ltb_lt in H
  | H : (_ <? _) = false |- _ => apply Z.ltb_ge in H
  | H : (_ <=? _) = true |- _ => apply Z.leb_le in H
  | H : (_ <=? _) = false |- _ => apply Z.leb_gt in H
  | H : bool_decide _ = true |- _ => apply bool_decide_eq_true in H
  | H : bool_decide _ = false |- _ => apply bool_decide_eq_false in H
  | H : String.eqb _ _ = true |- _ => apply String.eqb_eq in H
  | H : String.eqb _ _ = false |- _ => apply String.eqb_neq in H
  end.

(** Case split on the outermost [match] of a hypothesis or of the goal. *)
Ltac split_match :=
  match goal with
  | H : context [ match ?x with _ => _ end ] |- _ => destruct x eqn:?
  | |- context [ match ?x with _ => _ end ] => destruct x eqn:?
  end.

Ltac split_matches := repeat (split_match; simplify_eq/=).

(** ** Lemmas on machine integers *)

Lemma u64_small z : 0 <= z < 2 ^ 64 → u64 z = z.
Proof. intros. by apply Z.mod_small. Qed.

Lemma u32_small z : 0 <= z < 2 ^ 32 → u32 z = z.
Proof. intros. by apply Z.mod_small. Qed.

Lemma u8_small z : 0 <= z < 2 ^ 8 → u8 z = z.
Proof. intros. by apply Z.mod_small. Qed.

Lemma u32_range z : 0 <= u32 z < 2 ^ 32.
Proof. by apply Z.mod_pos_bound. Qed.

Lemma u64_range z : 0 <= u64 z < 2 ^ 64.
Proof. by apply Z.mod_pos_bound. Qed.

Lemma u8_range z : 0 <= u8 z < 2 ^ 8.
Proof. by apply Z.mod_pos_bound. Qed.

Lemma i32_range z : - 2 ^ 31 <= i32 z < 2 ^ 31.
Proof. unfold i32. pose proof (Z.mod_pos_bound (z + 2 ^ 31) (2 ^ 32) eq_refl). lia. Qed.

Lemma i32_small z : - 2 ^ 31 <= z < 2 ^ 31 → i32 z = z.
Proof. intros. unfold i32. rewrite Z.mod_small by lia. lia. Qed.

Lemma i64_small z : - 2 ^ 63 <= z < 2 ^ 63 → i64 z = z.
Proof. intros. unfold i64. rewrite Z.mod_small by lia. lia. Qed.

Lemma bigint_Some z z' : bigint z = Some z' ↔ z' = z ∧ - 2 ^ 63 <= z < 2 ^ 63.
Proof. 
  unfold bigint. case_bool_decide; split; [intros [= <-]; auto | intros [-> ?]; auto | done | tauto].
Qed.

Lemma int4_Some z z' : int4 z = Some z' ↔ z' = z ∧ - 2 ^ 31 <= z < 2 ^ 31.
Proof. 
  unfold int4. case_bool_decide; split; [intros [= <-]; auto | intros [-> ?]; auto | done | tauto].
Qed.

Lemma bigint_ok z : - 2 ^ 63 <= z < 2 ^ 63 → bigint z = Some z.
Proof. intros. by apply bigint_Some. Qed.

Lemma int4_ok z : - 2 ^ 31 <= z < 2 ^ 31 → int4 z = Some z.
Proof. intros. by apply int4_Some. Qed.

(** ** Lemmas on tables *)

Section rows.
Context {K V : Type} `{Countable K}.
Implicit Types (m : gmap K V) (P : K → V → bool).

Lemma find_row_Some P m k v :
  find_row P m = Some (k, v) → m !! k = Some v ∧ P k v = true.
Proof.
  unfold find_row. intros [Hin HP]%List.find_some.
  split; [| exact HP].
  by apply elem_of_map_to_list, list_elem_of_In.
Qed.

Lemma find_row_None P m :
  find_row P m = None ↔ ∀ k v, m !! k = Some v → P k v = false.
Proof.
  unfold find_row. split.
  - intros Hf k v Hk. apply (List.find_none _ _ Hf (k, v)).
    by apply list_elem_of_In, elem_of_map_to_list.
  - intros Hall. destruct (List.find _ _) as [[k v]|] eqn:E; [|done].
    apply List.find_some in E as [Hin HP]. simpl in HP.
    apply list_elem_of_In, elem_of_map_to_list in Hin.
    by rewrite (Hall _ _ Hin) in HP.
Qed.

Lemma exists_row_true P m :
  exists_row P m = true ↔ ∃ k v, m !! k = Some v ∧ P k v = true.
Proof.
  unfold exists_row. rewrite existsb_exists. split.
  - intros ([k v] & Hin & HP). exists k, v. split; [|done].
    by apply elem_of_map_to_list, list_elem_of_In.
  - intros (k & v & Hk & HP). exists (k, v). split; [|done].
    by apply list_elem_of_In, elem_of_map_to_list.
Qed.

Lemma exists_row_false P m :
  exists_row P m = false ↔ ∀ k v, m !! k = Some v → P k v = false.
Proof.
  rewrite <- not_true_iff_false, exists_row_true. split.
  - intros Hn k v Hk. apply not_true_iff_false. naive_solver.
  - intros Hall (k & v & Hk & HP). rewrite (Hall _ _ Hk) in HP. done.
Qed.

(** Sums over a table follow its insertions, updates and deletions. *)
Lemma sum_rows_empty (f : K → V → Z) : sum_rows f ∅ = 0.
Proof. apply map_fold_empty. Qed.

Lemma sum_rows_insert (f : K → V → Z) m k v :
  m !! k = None → sum_rows f (<[k:=v]> m) = f k v + sum_rows f m.
Proof.
  intros Hk. unfold sum_rows. rewrite (map_fold_insert_L _ _ k v m); [done| |done].
  intros. lia.
Qed.

Lemma sum_rows_delete (f : K → V → Z) m k v :
  m !! k = Some v → sum_rows f m = f k v + sum_rows f (delete k m).
Proof.
  intros Hk. rewrite <- sum_rows_insert by apply lookup_delete_eq.
  by rewrite insert_delete_id.
Qed.

Lemma sum_rows_update (f : K → V → Z) m k v v' :
  m !! k = Some v → sum_rows f (<[k:=v']> m) = sum_rows f m - f k v + f k v'.
Proof.
  intros Hk. rewrite <- insert_delete_eq, sum_rows_insert by apply lookup_delete_eq.
  rewrite (sum_rows_delete f m k v Hk). lia.
Qed.

Lemma sum_rows_ext (f g : K → V → Z) m :
  (∀ k v, m !! k = Some v → f k v = g k v) → sum_rows f m = sum_rows g m.
Proof.
  induction m as [|k v m Hk IH] using map_ind; intros Hfg.
  - by rewrite !sum_rows_empty.
  - rewrite !sum_rows_insert by done. f_equal.
    + apply Hfg, lookup_insert_eq.
    + apply IH. intros k' v' Hk'. apply Hfg.
      rewrite lookup_insert_ne; [done | congruence].
Qed.

Lemma sum_rows_fmap {W} (f : K → V → Z) (g : W → V) (m : gmap K W) :
  sum_rows f (g <$> m) = sum_rows (λ k w, f k (g w)) m.
Proof. apply map_fold_fmap. Qed.

Lemma sum_rows_nonneg (f : K → V → Z) m :
  (∀ k v, m !! k = Some v → 0 <= f k v) → 0 <= sum_rows f m.
Proof.
  induction m as [|k v m Hk IH] using map_ind; intros Hf.
  - by rewrite sum_rows_empty.
  - rewrite sum_rows_insert by done.
    assert (0 <= f k v) by apply Hf, lookup_insert_eq.
    assert (0 <= sum_rows f m); [|lia].
    apply IH. intros k' v' Hk'. apply (Hf k').
    rewrite lookup_insert_ne; [done | congruence].
Qed.
End rows.

(** ** Sums over lists *)

Definition zsum (l : list Z) : Z := foldr Z.add 0 l.

Lemma zsum_cons x l : zsum (x :: l) = x + zsum l.
Proof. done. Qed.

Lemma zsum_app l k : zsum (l ++ k) = zsum l + zsum k.
Proof. induction l as [|x l IH]; simpl; [done|]. rewrite IH. lia. Qed.

Lemma zsum_perm l k : l ≡ₚ k → zsum l = zsum k.
Proof. induction 1; simpl; lia. Qed.

Lemma zsum_nonneg l : Forall (Z.le 0) l → 0 <= zsum l.
Proof. induction 1; simpl; lia. Qed.

Lemma zsum_ext {A} (f g : A → Z) l : (∀ x, x ∈ l → f x = g x) → zsum (f <$> l) = zsum (g <$> l).
Proof.
  induction l as [|x l IH]; intros H; [done|]. rewrite !fmap_cons, !zsum_cons.
  rewrite (H x) by (by left). rewrite IH; [done|]. intros y Hy. apply H. by right.
Qed.

Lemma zsum_add {A} (f g : A → Z) l :
  zsum ((λ x, f x + g x) <$> l) = zsum (f <$> l) + zsum (g <$> l).
Proof.
  induction l as [|x l IH]; [done|]. rewrite !fmap_cons, !zsum_cons, IH. lia.
Qed.

Lemma zsum_bind {A B} (f : B → Z) (g : A → list B) l :
  zsum (f <$> (l ≫= g)) = zsum ((λ x, zsum (f <$> g x)) <$> l).
Proof.
  induction l as [|x l IH]; [done|]. rewrite !fmap_cons, zsum_cons.
  change ((x :: l) ≫= g) with (g x ++ (l ≫= g)). rewrite fmap_app, zsum_app, IH. done.
Qed.

(** How often a number occurs. *)
Definition occurrences (x : Z) (l : list Z) : Z := zsum ((λ y, if y =? x then 1 else 0) <$> l).

Lemma occurrences_nonneg x l : 0 <= occurrences x l.
Proof.
  apply zsum_nonneg, Forall_fmap, Forall_forall. intros y _. unfold compose.
  by destruct (y =? x).
Qed.

Lemma occurrences_app x l k : occurrences x (l ++ k) = occurrences x l + occurrences x k.
Proof. unfold occurrences. by rewrite fmap_app, zsum_app. Qed.

(** The sum over a table is the sum over some of its rows and that over the rest. *)
Section split_rows.
Context {K V : Type} `{Countable K}.

Lemma sum_rows_split (f : K → V → Z) (l : list (K * V)) (m m' : gmap K V) :
  NoDup l.*1 → (∀ k v, (k, v) ∈ l → m !! k = Some v) →
  (∀ k, m' !! k = if decide (k ∈ l.*1) then None else m !! k) →
  sum_rows f m = zsum ((λ kv, f kv.1 kv.2) <$> l) + sum_rows f m'.
Proof.
  revert m. induction l as [|[k v] l IH]; intros m Hnd Hl Hm'.
  - assert (m' = m) as ->; [|done]. apply map_eq. intros k. rewrite Hm'.
    by rewrite decide_False by set_solver.
  - rewrite !fmap_cons in *. apply NoDup_cons in Hnd as [Hk Hnd]. rewrite zsum_cons.
    cbn [fst snd] in *. rewrite (sum_rows_delete f m k v) by (apply Hl; by left).
    rewrite (IH (delete k m)); [lia|done|..].
    + intros k' v' Hin. rewrite lookup_delete_ne; [apply Hl; by right|].
      intros ->. apply Hk, list_elem_of_fmap. by exists (k', v').
    + intros k'. rewrite Hm'. destruct (decide (k = k')) as [<-|Hne].
      * rewrite lookup_delete_eq, decide_True by set_solver. by case_decide.
      * rewrite lookup_delete_ne by done. repeat case_decide; set_solver.
Qed.

Lemma sum_rows_ge (f : K → V → Z) (l : list (K * V)) (m : gmap K V) :
  NoDup l.*1 → (∀ k v, (k, v) ∈ l → m !! k = Some v) →
  (∀ k v, m !! k = Some v → 0 <= f k v) → zsum ((λ kv, f kv.1 kv.2) <$> l) <= sum_rows f m.
Proof.
  intros Hnd Hl Hf.
  rewrite (sum_rows_split f l m (filter (λ kv, kv.1 ∉ l.*1) m) Hnd Hl).
  - assert (0 <= sum_rows f (filter (λ kv, kv.1 ∉ l.*1) m)); [|lia].
    apply sum_rows_nonneg. intros k v [? _]%map_lookup_filter_Some. by apply Hf.
  - intros k. case_decide as Hk.
    + apply map_lookup_filter_None. right. intros v _. simpl. tauto.
    + destruct (m !! k) as [v|] eqn:E.
      * apply map_lookup_filter_Some. done.
      * apply map_lookup_filter_None. by left.
Qed.
End split_rows.

(** ** Lemmas on sorting *)

Section order_by.
Context {A : Type} (leb : A → A → bool).

Lemma insert_by_perm x l : insert_by leb x l ≡ₚ x :: l.
Proof.
  induction l as [|y l IH]; simpl; [done|]. case_match; [done|].
  rewrite IH. apply Permutation_swap.
Qed.

Lemma order_by_perm l : order_by leb l ≡ₚ l.
Proof.
  induction l as [|x l IH]; simpl; [done|]. by rewrite insert_by_perm, IH.
Qed.

Lemma elem_of_order_by x l : x ∈ order_by leb l ↔ x ∈ l.
Proof. by rewrite order_by_perm. Qed.

Lemma length_order_by l : length (order_by leb l) = length l.
Proof. by rewrite order_by_perm. Qed.

Context (R : relation A) (HR : ∀ x y, leb x y = true ↔ R x y)
  (Htot : ∀ x y, leb x y = false → R y x).

Lemma insert_by_hd y x l : R y x → HdRel R y l → HdRel R y (insert_by leb x l).
Proof. intros ? Hh. destruct Hh; simpl; [by constructor|]. case_match; by constructor. Qed.

Lemma insert_by_sorted x l : Sorted R l → Sorted R (insert_by leb x l).
Proof.
  induction 1 as [|y l Hs IH Hh]; simpl; [repeat constructor|]. case_match eqn:E.
  - constructor; [by constructor|]. constructor. by apply HR.
  - constructor; [done|]. apply insert_by_hd; [by apply Htot | done].
Qed.

Lemma order_by_sorted l : Sorted R (order_by leb l).
Proof. induction l as [|x l IH]; simpl; [constructor | by apply insert_by_sorted]. Qed.
End order_by.

Lemma elem_of_select_rows {K V} `{Countable K} (P : K → V → bool) leb (m : gmap K V) k v :
  (k, v) ∈ select_rows P leb m ↔ m !! k = Some v ∧ P k v = true.
Proof.
  unfold select_rows. rewrite elem_of_order_by, list_elem_of_In, List.filter_In.
  by rewrite <- list_elem_of_In, elem_of_map_to_list.
Qed.

Lemma select_rows_NoDup {K V} `{Countable K} (P : K → V → bool) leb (m : gmap K V) :
  NoDup (select_rows P leb m).
Proof.
  unfold select_rows. rewrite order_by_perm. apply NoDup_ListNoDup, List.NoDup_filter,
    NoDup_ListNoDup, NoDup_map_to_list.
Qed.

(** A recursive query over finitely many rows [U] along which [m] grows by one. *)
Section recursive.
Context {A : Type} (step : A → list A).

Lemma elem_of_with_recursive fuel fr rows x : with_recursive fuel step fr = Some rows →
  x ∈ rows ↔ ∃ a, a ∈ fr ∧ rtc (λ a b, b ∈ step a) a x.
Proof.
  revert fr rows. induction fuel as [|fuel IH]; intros [|a fr] rows; simpl; try done.
  1,2: intros [= <-]; set_solver.
  intros (rest & H & [= <-])%bind_Some. apply IH in H.
  rewrite app_comm_cons, elem_of_app, H. split.
  - intros [Hx|(b & Hb & Hx)]; [exists x; by split; [|constructor]|].
    change (b ∈ (a :: fr) ≫= step) in Hb. apply list_elem_of_bind in Hb as (c & Hb & Hc).
    exists c. split; [done|]. by eapply rtc_l.
  - intros (b & Hb & Hx). inversion Hx as [|? c ? Hc Hx']; subst; [by left|].
    right. exists c. split; [|done]. change (c ∈ (a :: fr) ≫= step).
    apply list_elem_of_bind. eauto.
Qed.

Context (U : list A) (m : A → Z).
Context (step_in : ∀ a b, a ∈ U → b ∈ step a → b ∈ U).
Context (step_m : ∀ a b, a ∈ U → b ∈ step a → m b = m a + 1).

Lemma with_recursive_total fuel fr :
  (∀ a, a ∈ fr → a ∈ U ∧ ∃ l, NoDup l ∧ (∀ x, x ∈ l → x ∈ U ∧ m x < m a) ∧
     (length U <= length l + fuel)%nat) →
  is_Some (with_recursive fuel step fr).
Proof.
  revert fr. induction fuel as [|fuel IH]; intros [|a fr] Hfr; simpl; eauto.
  - destruct (Hfr a) as (Ha & l & Hnd & Hl & Hlen); [by left|].
    assert (length (a :: l) <= length U)%nat; [|simpl in *; lia].
    apply submseteq_length, NoDup_submseteq.
    + constructor; [|done]. intros Hin. apply Hl in Hin as [_ ?]. lia.
    + intros x [->|Hx]%elem_of_cons; [done|]. by apply Hl.
  - destruct (IH ((a :: fr) ≫= step)) as [rest Hrest].
    + intros b (c & Hb & Hc)%list_elem_of_bind. split; [by eapply step_in; [apply (proj1 (Hfr c Hc))|]|].
      destruct (Hfr c Hc) as (Hcu & l & Hnd & Hl & Hlen).
      pose proof (step_m _ _ Hcu Hb) as Hm. exists (c :: l). split_and!.
      * constructor; [|done]. intros Hin. apply Hl in Hin as [_ ?]. lia.
      * intros x [->|Hx]%elem_of_cons; [split; [done|lia]|].
        apply Hl in Hx as [? ?]. split; [done|lia].
      * simpl. lia.
    + simpl in Hrest. rewrite Hrest. simpl. eauto.
Qed.

Lemma with_recursive_NoDup fuel fr rows k :
  (∀ a, NoDup (step a)) →
  (∀ a b c, a ∈ U → b ∈ U → c ∈ step a → c ∈ step b → a = b) →
  NoDup fr → (∀ a, a ∈ fr → a ∈ U ∧ m a = k) → with_recursive fuel step fr = Some rows →
  NoDup rows ∧ ∀ x, x ∈ rows → k <= m x.
Proof.
  intros Hnd Hinj. revert fr rows k. induction fuel as [|fuel IH]; intros [|a fr] rows k Hfr Hk.
  1,3: intros [= <-]; split; [constructor|by intros x ?%elem_of_nil].
  { done. }
  intros (rest & H & [= <-])%bind_Some. apply (IH _ _ (k + 1)) in H as [Hr Hrk].
  - rewrite app_comm_cons. split.
    + apply NoDup_app. split_and!; [done| |done]. intros x Hx Hx'.
      apply Hk in Hx as [_ Hx]. apply Hrk in Hx'. lia.
    + intros x [Hx|Hx]%elem_of_app; [apply Hk in Hx as [_ Hx]; lia|apply Hrk in Hx; lia].
  - apply NoDup_bind; [|done..]. intros b c x Hb Hc. apply Hinj; [by apply Hk in Hb as []|].
    by apply Hk in Hc as [].
  - intros b (c & Hb & Hc)%list_elem_of_bind. apply Hk in Hc as [Hc <-].
    split; [by eapply step_in|]. by eapply step_m.
Qed.
End recursive.

Lemma Sorted_fmap_rel {A B} (f : A → B) (R : relation B) l :
  Sorted (λ x y, R (f x) (f y)) l → Sorted R (f <$> l).
Proof.
  induction 1 as [|x l Hs IH Hh]; simpl; constructor; [done|].
  destruct Hh; by constructor.
Qed.

Lemma foldr_max_ub (l : list Z) x : x ∈ l → x <= foldr Z.max (-1) l.
Proof.
  induction l as [|y l IH]; [by intros ?%elem_of_nil|].
  intros [->|Hx]%elem_of_cons; simpl; [lia|]. specialize (IH Hx). lia.
Qed.

Lemma seqZ_sorted m n : Sorted Z.le (seqZ m n).
Proof.
  unfold seqZ. generalize (Z.to_nat n) O. intros j.
  induction j as [|j IH]; intros i; simpl; constructor; [apply IH|].
  destruct j; simpl; constructor. lia.
Qed.

(** A sorted list of [n] distinct naturals with maximum [n - 1] is [0 .. n-1]. *)
Lemma initial_segment (l : list Z) n :
  NoDup l → Sorted Z.le l → Forall (Z.le 0) l → Z.of_nat (length l) = n →
  foldr Z.max (-1) l = n - 1 → l = seqZ 0 n.
Proof.
  intros Hnd Hs Hpos Hlen Hmax. apply (Sorted_unique Z.le).
  - done.
  - apply seqZ_sorted.
  - apply submseteq_length_Permutation.
    + apply NoDup_submseteq; [done|]. intros x Hx. apply elem_of_seqZ.
      rewrite Forall_forall in Hpos. specialize (Hpos _ Hx).
      pose proof (foldr_max_ub _ _ Hx). lia.
    + rewrite length_seqZ. lia.
Qed.

#[export] Hint Resolve u32_range u64_range u8_range : disk.
