(* ===== verification/Errors.v ===== *)
(** * Error codes and results

    The error vocabulary of the server ([src/src/utils/ErrorCode.hpp]): the
    enumeration [Code], its integer value, HTTP status and default message, the
    pair [ErrorInfo] and the [Result<T>] type every service returns. *)

From S2P Require Import Prelude.

Local Open Scope string_scope.

(** [enum class Code : std::uint32_t]. *)
Inductive Code :=
  | Success
  | InvalidParameter
  | ValidationFailed
  | ResourceNotFound
  | ResourceConflict
  | TooManyRequests
  | InternalError
  | UsernameExists
  | EmailExists
  | UserNotFound
  | InvalidCredentials
  | AccountLocked
  | AccountDisabled
  | InvalidToken
  | InvalidRefreshToken
  | TokenMissing
  | TokenMalformed
  | TokenExpired
  | TokenWrongType
  | RefreshTokenAlreadyUsed
  | TokenRevoked
  | InvalidFilename
  | StorageQuotaExceeded
  | FileNotFound
  | FolderNotFound
  | FileAlreadyExists
  | UploadTaskNotFound
  | ChunkVerifyFailed
  | FolderAlreadyExists
  | FileReadError
  | UploadTaskCreationDisabled
  | UploadLifecycleFrozen
  | ShareNotFound
  | ShareExpired
  | SharePasswordError
  | ShareAccessDenied
  | RedisOperationFailed
  | RedisKeyNotFound
  | AdminRequired
  | AdminUserNotFound
  | AdminCannotModifySelf
  | AdminCannotDemoteLast
  | AdminShareNotFound
  | AdminInvalidStatus
  | AdminInvalidRole.

#[global] Instance Code_eq_dec : EqDecision Code.
Proof. solve_decision. Defined.

(** [ToInt]: the value of the enumerator. *)
Definition ToInt (c : Code) : Z :=
  match c with
  | Success => 0
  | InvalidParameter => 10001
  | ValidationFailed => 10002
  | ResourceNotFound => 10003
  | ResourceConflict => 10004
  | TooManyRequests => 10005
  | InternalError => 10006
  | UsernameExists => 40001
  | EmailExists => 40002
  | UserNotFound => 40100
  | InvalidCredentials => 40101
  | AccountLocked => 40102
  | AccountDisabled => 40103
  | InvalidToken => 40104
  | InvalidRefreshToken => 40105
  | TokenMissing => 40106
  | TokenMalformed => 40107
  | TokenExpired => 40108
  | TokenWrongType => 40109
  | RefreshTokenAlreadyUsed => 40110
  | TokenRevoked => 40111
  | InvalidFilename => 50001
  | StorageQuotaExceeded => 50004
  | FileNotFound => 50005
  | FolderNotFound => 50006
  | FileAlreadyExists => 50007
  | UploadTaskNotFound => 50008
  | ChunkVerifyFailed => 50009
  | FolderAlreadyExists => 50010
  | FileReadError => 50011
  | UploadTaskCreationDisabled => 50012
  | UploadLifecycleFrozen => 50013
  | ShareNotFound => 60001
  | ShareExpired => 60002
  | SharePasswordError => 60003
  | ShareAccessDenied => 60004
  | RedisOperationFailed => 70002
  | RedisKeyNotFound => 70003
  | AdminRequired => 80001
  | AdminUserNotFound => 80002
  | AdminCannotModifySelf => 80003
  | AdminCannotDemoteLast => 80004
  | AdminShareNotFound => 80005
  | AdminInvalidStatus => 80006
  | AdminInvalidRole => 80007
  end.

(** [GetHttpStatus]: the status map, with its fallback for a code that has
    no entry. *)
Definition GetHttpStatus (c : Code) : Z :=
  match c with
  | Success => 200
  | InvalidParameter | ValidationFailed | UsernameExists | EmailExists
  | InvalidFilename | StorageQuotaExceeded | UploadTaskNotFound
  | ChunkVerifyFailed | ShareExpired | SharePasswordError
  | AdminCannotModifySelf | AdminCannotDemoteLast | AdminInvalidStatus
  | AdminInvalidRole => 400
  | ResourceNotFound | UserNotFound | FileNotFound | FolderNotFound
  | ShareNotFound | RedisKeyNotFound | AdminUserNotFound | AdminShareNotFound => 404
  | ResourceConflict | FileAlreadyExists | FolderAlreadyExists => 409
  | TooManyRequests => 429
  | InternalError | FileReadError | RedisOperationFailed => 500
  | InvalidCredentials | AccountLocked | AccountDisabled | InvalidToken
  | InvalidRefreshToken | TokenMissing | TokenMalformed | TokenExpired
  | TokenWrongType | RefreshTokenAlreadyUsed | TokenRevoked => 401
  | UploadTaskCreationDisabled | UploadLifecycleFrozen => 503
  | ShareAccessDenied | AdminRequired => 403
  end.

(** [GetErrorMessage]: the default message of a code. *)
Definition GetErrorMessage (c : Code) : string :=
  match c with
  | Success => "success"
  | InvalidParameter => "Invalid request parameters"
  | ValidationFailed => "Parameter validation failed"
  | ResourceNotFound => "Resource not found"
  | ResourceConflict => "Resource conflict"
  | TooManyRequests => "Too many requests"
  | InternalError => "Internal server error"
  | UsernameExists => "Username already registered"
  | EmailExists => "Email already registered"
  | UserNotFound => "User not found"
  | InvalidCredentials => "Invalid username or password"
  | AccountLocked => "Account locked, please try again later"
  | AccountDisabled => "Account has been disabled"
  | InvalidToken => "Token invalid or expired"
  | InvalidRefreshToken => "Invalid refresh token"
  | TokenMissing => "Token not provided"
  | TokenMalformed => "Token format error"
  | TokenExpired => "Token expired"
  | TokenWrongType => "Token type error"
  | RefreshTokenAlreadyUsed => "Refresh token already used"
  | TokenRevoked => "Token revoked"
  | InvalidFilename => "Invalid filename"
  | StorageQuotaExceeded => "Insufficient storage space"
  | FileNotFound => "File not found"
  | FolderNotFound => "Folder not found"
  | FileAlreadyExists => "File with same name already exists"
  | UploadTaskNotFound => "Upload task not found or expired"
  | ChunkVerifyFailed => "Chunk verification failed"
  | FolderAlreadyExists => "Folder with same name already exists"
  | FileReadError => "File read failed"
  | UploadTaskCreationDisabled => "New upload task creation is temporarily disabled"
  | UploadLifecycleFrozen => "Upload lifecycle is temporarily frozen for rollback"
  | ShareNotFound => "Share not found"
  | ShareExpired => "Share expired"
  | SharePasswordError => "Share password error"
  | ShareAccessDenied => "Access denied"
  | RedisOperationFailed => "Redis operation failed"
  | RedisKeyNotFound => "Redis key not found"
  | AdminRequired => "Administrator privileges required"
  | AdminUserNotFound => "User not found"
  | AdminCannotModifySelf => "Cannot modify your own account"
  | AdminCannotDemoteLast => "Cannot demote the last administrator"
  | AdminShareNotFound => "Share not found"
  | AdminInvalidStatus => "Invalid user status"
  | AdminInvalidRole => "Invalid role"
  end.

(** [struct ErrorInfo], its constructor from a code alone, and its accessors. *)
Record ErrorInfo := mkErrorInfo { code : Code; message : string }.

Definition err (c : Code) : ErrorInfo :=
  {| code := c; message := GetErrorMessage c |}.

Definition HttpStatus (e : ErrorInfo) : Z := GetHttpStatus (code e).
Definition CodeInt (e : ErrorInfo) : Z := ToInt (code e).

#[global] Instance ErrorInfo_eq_dec : EqDecision ErrorInfo.
Proof. solve_decision. Defined.

(** [Result<T> = std::expected<T, ErrorInfo>]. *)
Inductive Result (A : Type) :=
  | Ok (a : A)
  | Err (e : ErrorInfo).
Arguments Ok {A} a.
Arguments Err {A} e.

#[global] Instance Result_ret : MRet Result := λ A, Ok.
#[global] Instance Result_bind : MBind Result := λ A B f r,
  match r with
  | Ok a => f a
  | Err e => Err e
  end.
#[global] Instance Result_fmap : FMap Result := λ A B f r,
  match r with
  | Ok a => Ok (f a)
  | Err e => Err e
  end.

Definition is_ok {A} (r : Result A) : bool :=
  match r with Ok _ => true | Err _ => false end.

(** A check that either lets the caller go on or returns an error. *)
Definition require (b : bool) (e : ErrorInfo) : Result unit :=
  if b then Ok tt else Err e.

Lemma result_bind_Ok {A B} (r : Result A) (f : A → Result B) b :
  r ≫= f = Ok b ↔ ∃ a, r = Ok a ∧ f a = Ok b.
Proof.
  destruct r; split.
  - intros Hf. exists a. exact (conj eq_refl Hf).
  - by intros (a' & [= <-] & ?).
  - done.
  - by intros (a & ? & ?).
Qed.

Lemma result_bind_Err {A B} (r : Result A) (f : A → Result B) e :
  r ≫= f = Err e ↔ r = Err e ∨ ∃ a, r = Ok a ∧ f a = Err e.
Proof.
  destruct r; split.
  - intros Hf. right. exists a. exact (conj eq_refl Hf).
  - intros [[=] | (a' & [= <-] & Hf)]. exact Hf.
  - intros [= ->]. by left.
  - intros [[= ->] | (a & [=] & _)]. done.
Qed.

Lemma require_Ok b e u : require b e = Ok u ↔ b = true.
Proof. by destruct b, u. Qed.

Lemma require_Err b e e' : require b e = Err e' ↔ b = false ∧ e' = e.
Proof.
  destruct b; simpl; split; [done | by intros [] | by intros [= ->] | by intros [_ ->]].
Qed.
