(* ===== verification/Storage.v ===== *)
(** * Storage interfaces

    The staging and blob stores the upload lifecycle calls
    ([src/src/storage/UploadStagingStorage.hpp], [src/src/storage/IBlobStore.hpp]):
    the values that cross the interface, and the record of operations an
    implementation provides.  What a store answers may depend on every call made
    to it before, so an operation takes the history of calls. *)

From S2P Require Import Prelude Errors.

Local Open Scope string_scope.

(** [enum class UploadStagingBackend]. *)
Inductive UploadStagingBackend := StagingLocal | StagingS3.

#[global] Instance UploadStagingBackend_eq_dec : EqDecision UploadStagingBackend.
Proof. solve_decision. Defined.

(** [ToStorageValue(UploadStagingBackend)]. *)
Definition BackendToStorageValue (backend : UploadStagingBackend) : string :=
  match backend with StagingLocal => "local" | StagingS3 => "s3" end.

Definition ParseUploadStagingBackend (value : string) : option UploadStagingBackend :=
  if String.eqb value "local" then Some StagingLocal
  else if String.eqb value "s3" then Some StagingS3
  else None.

Record UploadStagingSession := mkUploadStagingSession {
  ss_upload_id : string;
  ss_backend : UploadStagingBackend;
  ss_prefix : string
}.

Record UploadStagingChunk := mkUploadStagingChunk {
  sc_chunk_index : Z;
  sc_size_bytes : Z;
  sc_md5_hash : string;
  sc_object_key : string;
  sc_etag : string
}.

Record UploadStagingAssembly := mkUploadStagingAssembly {
  sa_backend : UploadStagingBackend;
  sa_locator : string;
  sa_size_bytes : Z;
  sa_md5_hash : string;
  sa_sha256_hash : string
}.

Record BlobDescriptor := mkBlobDescriptor {
  bd_content_id : Z;
  bd_hash_md5 : string;
  bd_storage_path : string;
  bd_size : Z
}.

Record StorageInventoryObject := mkStorageInventoryObject {
  so_locator : string;
  so_size_bytes : Z
}.

Record StorageInventoryPage := mkStorageInventoryPage {
  ip_objects : list StorageInventoryObject;
  ip_continuation_token : string;
  ip_has_more : bool
}.

(** [class StorageReadStream]: what [Read] answers at a position of the stream when asked
    for a number of bytes; [None] when it throws. *)
Definition StorageReadStream : Type := Z → Z → option string.

Record MultipartUploadDescriptor := mkMultipartUploadDescriptor {
  mp_key : string;
  mp_upload_id : string
}.

(** The calls the modelled services make to the stores. *)
Inductive StorageCall :=
  | CallEnsureUploadSession (session : UploadStagingSession)
  | CallWriteChunk (session : UploadStagingSession) (chunk_index : Z) (md5_hash : string)
  | CallAssembleChunks (session : UploadStagingSession) (state_version : Z)
      (expected_chunk_count : Z) (chunks : list UploadStagingChunk)
  | CallDiscardAssembly (session : UploadStagingSession) (assembly : UploadStagingAssembly)
  | CallCleanupSession (session : UploadStagingSession)
  | CallListStagingObjects (continuation_token : string) (limit : Z)
  | CallPromoteToFinal (assembly : UploadStagingAssembly) (sha256 : string)
  | CallOpenBlobRange (blob : BlobDescriptor) (start length : Z)
  | CallBlobExists (blob : BlobDescriptor)
  | CallGetBlobSize (blob : BlobDescriptor)
  | CallDeleteBlob (storage_path : string)
  | CallListFinalObjects (continuation_token : string) (limit : Z)
  | CallAbortMultipartUpload (descriptor : MultipartUploadDescriptor).

(** [class UploadStagingStorage]: the operations the services use.  The first
    argument is the history of storage calls. *)
Record UploadStagingStorage := {
  EnsureUploadSession : list StorageCall → UploadStagingSession → Result unit;
  WriteChunk : list StorageCall → UploadStagingSession → Z → string → string →
    Result UploadStagingChunk;
  AssembleChunks : list StorageCall → UploadStagingSession → Z → Z →
    list UploadStagingChunk → Result UploadStagingAssembly;
  DiscardAssembly : list StorageCall → UploadStagingSession → UploadStagingAssembly →
    Result unit;
  CleanupSession : list StorageCall → UploadStagingSession → Result unit;
  ListStagingObjects : list StorageCall → string → Z → Result StorageInventoryPage
}.

(** [class IBlobStore]: promotion answers the final path of the blob. *)
Record IBlobStore := {
  PromoteToFinal : list StorageCall → UploadStagingAssembly → string → Result string;
  OpenBlobRangeForRead : list StorageCall → BlobDescriptor → Z → Z → Result StorageReadStream;
  BlobExists : list StorageCall → BlobDescriptor → Result bool;
  GetLocalBlobPathForDownload : BlobDescriptor → option string;
  GetBlobSize : list StorageCall → BlobDescriptor → Result Z;
  DeleteBlob : list StorageCall → string → Result unit;
  ListFinalObjects : list StorageCall → string → Z → Result StorageInventoryPage
}.

(** [class IMultipartUploadCleaner]
    ([src/src/storage/MultipartUploadRecovery.hpp]). *)
Record IMultipartUploadCleaner := {
  AbortMultipartUpload : list StorageCall → MultipartUploadDescriptor → Result unit
}.

Lemma parse_backend_value b : ParseUploadStagingBackend (BackendToStorageValue b) = Some b.
Proof. by destruct b. Qed.

Lemma parse_backend_Some s b :
  ParseUploadStagingBackend s = Some b ↔ s = BackendToStorageValue b.
Proof.
  split; [|intros ->; apply parse_backend_value].
  unfold ParseUploadStagingBackend. intros H.
  repeat (case_match; case_bools; [by simplify_eq|]). done.
Qed.
