(* ===== verification/Db.v ===== *)
(** * The database session and the transaction runner

    Services run SQL statements through a database client that can throw, and
    group them with [TransactionRunner::Run]
    ([src/src/services/TransactionRunner.hpp]).  A service body is a
    computation of the monad [M S]: it threads the database state [S], raises
    C++ exceptions, calls the object stores, and consults a schedule.  The
    schedule is an input: for each request to the server it says what the other
    sessions did to the database since the last one, and what happens to the
    request.  So every theorem about a service holds whatever the connection and
    the other sessions do.  Inside a transaction the other sessions are not
    visible: transactions are taken to be isolated. *)

From S2P Require Import Prelude Errors Storage.

(** Exceptions a service body can throw. *)
Inductive exn :=
  | DbException
  | InvalidArgument (what : string)
  | RuntimeError (what : string).

Inductive outcome (A : Type) :=
  | Ret (a : A)
  | Raise (x : exn).
Arguments Ret {A} a.
Arguments Raise {A} x.

(** What happens to one request sent to the server: it is executed, it fails
    before taking effect, or it takes effect and its reply is lost. *)
Inductive fault := Works | Fails | LostReply.

(** An entry of the schedule: the work of other sessions, then the request. *)
Record Step (S : Type) := mkStep { interference : S → S; fault_of : fault }.
Arguments mkStep {S} interference fault_of.
Arguments interference {S} s.
Arguments fault_of {S} s.

(** A request no other session interferes with. *)
Definition alone {S} (f : fault) : Step S := mkStep id f.

(** The session is in auto-commit mode, or inside a transaction that remembers
    the state at [BEGIN] and whether a statement of it has failed. *)
Inductive TxState (S : Type) :=
  | AutoCommit
  | InTx (snapshot : S) (aborted : bool).
Arguments AutoCommit {S}.
Arguments InTx {S} snapshot aborted.

Record Env (S : Type) := mkEnv {
  db : S;
  schedule : list (Step S);
  tx : TxState S;
  calls : list StorageCall
}.
Arguments mkEnv {S} db schedule tx calls.
Arguments db {S} e : rename.
Arguments schedule {S} e : rename.
Arguments tx {S} e : rename.
Arguments calls {S} e : rename.

Definition M (S A : Type) : Type := Env S → outcome A * Env S.

#[global] Instance M_ret {S} : MRet (M S) := λ A a e, (Ret a, e).
#[global] Instance M_bind {S} : MBind (M S) := λ A B f m e,
  match m e with
  | (Ret a, e') => f a e'
  | (Raise x, e') => (Raise x, e')
  end.

Section operations.
Context {S : Type}.

Definition raise {A} (x : exn) : M S A := λ e, (Raise x, e).

(** [try { m } catch]: [h] returns [None] to let the exception through. *)
Definition catch {A} (m : M S A) (h : exn → option (M S A)) : M S A := λ e,
  match m e with
  | (Raise x, e') => match h x with Some k => k e' | None => (Raise x, e') end
  | r => r
  end.

(** [catch (const std::exception&)]. *)
Definition catch_all {A} (m : M S A) (k : M S A) : M S A := catch m (λ _, Some k).

(** [catch (const drogon::orm::DrogonDbException&)]. *)
Definition catch_db {A} (m : M S A) (k : M S A) : M S A :=
  catch m (λ x, match x with DbException => Some k | _ => None end).

(** The next request: outside a transaction it sees what the other sessions
    did. *)
Definition next_step (e : Env S) : fault * Env S :=
  match schedule e with
  | [] => (Works, e)
  | st :: sch =>
      (fault_of st,
       mkEnv (match tx e with AutoCommit => interference st (db e) | InTx _ _ => db e end)
         sch (tx e) (calls e))
  end.

Definition abort_tx (e : Env S) : Env S :=
  match tx e with
  | AutoCommit => e
  | InTx snap _ => mkEnv (db e) (schedule e) (InTx snap true) (calls e)
  end.

(** One SQL statement.  [q] is [None] when the server rejects the statement (a
    constraint violation, an integer out of range).  After an error inside a
    transaction every further statement of it is rejected. *)
Definition exec {A} (q : S → option (A * S)) : M S A := λ e,
  let '(f, e) := next_step e in
  match tx e, f with
  | InTx _ true, _ => (Raise DbException, e)
  | _, Fails => (Raise DbException, abort_tx e)
  | AutoCommit, LostReply =>
      (Raise DbException,
       match q (db e) with
       | Some (_, s) => mkEnv s (schedule e) (tx e) (calls e)
       | None => e
       end)
  | _, LostReply => (Raise DbException, abort_tx e)
  | _, Works =>
      match q (db e) with
      | Some (a, s) => (Ret a, mkEnv s (schedule e) (tx e) (calls e))
      | None => (Raise DbException, abort_tx e)
      end
  end.

(** A query that does not change the database. *)
Definition query {A} (q : S → A) : M S A := exec (λ s, Some (q s, s)).

(** A call to an object store, which answers from the history of calls. *)
Definition call_storage {A} (c : StorageCall) (answer : list StorageCall → A) : M S A :=
  λ e, (Ret (answer (calls e)), mkEnv (db e) (schedule e) (tx e) (calls e ++ [c])).

(** [rollbackQuietly]: the state returns to the one at [BEGIN]. *)
Definition rollbackQuietly (e : Env S) : Env S :=
  match tx e with
  | AutoCommit => e
  | InTx snap _ => mkEnv snap (schedule e) AutoCommit (calls e)
  end.

(** [Begin]: a transaction starts, unless no connection is available. *)
Definition Begin (e : Env S) : outcome unit * Env S :=
  let '(f, e) := next_step e in
  match f with
  | Works => (Ret tt, mkEnv (db e) (schedule e) (InTx (db e) false) (calls e))
  | _ => (Raise DbException, e)
  end.

(** [Commit]: reports whether the commit callback announced success.  A lost
    reply is a transaction that is durable although the report is negative. *)
Definition Commit (e : Env S) : bool * Env S :=
  let '(f, e) := next_step e in
  match tx e, f with
  | InTx _ false, Works => (true, mkEnv (db e) (schedule e) AutoCommit (calls e))
  | InTx _ false, LostReply => (false, mkEnv (db e) (schedule e) AutoCommit (calls e))
  | _, _ => (false, rollbackQuietly e)
  end.

(** [TransactionRunner::Run] with default error [m_default_error].  The value is
    what the body leaves in the variables it captures. *)
Definition Run {A} (m_default_error : ErrorInfo) (func : M S (Result A))
  : M S (Result A) := λ e,
  match Begin e with
  | (Raise _, e) => (Ret (Err m_default_error), rollbackQuietly e)
  | (Ret _, e) =>
      match func e with
      | (Raise _, e) => (Ret (Err m_default_error), rollbackQuietly e)
      | (Ret (Err er), e) => (Ret (Err er), rollbackQuietly e)
      | (Ret (Ok a), e) =>
          match Commit e with
          | (true, e) => (Ret (Ok a), e)
          | (false, e) => (Ret (Err m_default_error), rollbackQuietly e)
          end
      end
  end.

(** [co_await] of a [Task<Result<A>>] whose error is returned at once. *)
Definition bind_result {A B} (m : M S (Result A)) (k : A → M S (Result B))
  : M S (Result B) :=
  r ← m; match r with Ok a => k a | Err er => mret (Err er) end.

(** [for (x : l) co_await f(x)], stopping at the first error. *)
Fixpoint for_each_result {A} (l : list A) (f : A → M S (Result unit))
  : M S (Result unit) :=
  match l with
  | [] => mret (Ok tt)
  | x :: l => bind_result (f x) (λ _, for_each_result l f)
  end.
End operations.

Notation "'let*' x := m 'in' k" := (bind_result m (λ x, k))
  (at level 10, x pattern, k at level 200).

(** ** Bodies of transactions

    [TxBody m]: inside a transaction, [m] only touches the database through
    statements, its database exceptions come from them, and it calls no object
    store (a rollback could not undo the call).  So once a statement has failed
    the transaction stays aborted, and a run in which none failed is the run of
    the empty schedule. *)

Class TxBody {S A} (m : M S A) : Prop := {
  tx_body_sticky : ∀ s sch snap cs, ∃ o s' sch',
    m (mkEnv s sch (InTx snap true) cs) = (o, mkEnv s' sch' (InTx snap true) cs) ∧
    sch' `suffix_of` sch;
  tx_body_clean : ∀ s sch snap cs, ∃ o s' sch' ab,
    m (mkEnv s sch (InTx snap false) cs) = (o, mkEnv s' sch' (InTx snap ab) cs) ∧
    sch' `suffix_of` sch ∧
    (ab = false → o ≠ Raise DbException ∧
      m (mkEnv s [] (InTx snap false) []) = (o, mkEnv s' [] (InTx snap false) []))
}.

(** [m] run inside a transaction on [s] without any fault. *)
Definition clean {S A} (m : M S A) (s : S) : outcome A * Env S :=
  m (mkEnv s [] (InTx s false) []).

(** The other sessions of a schedule keep [I]. *)
Definition stable {S} (I : S → Prop) (sch : list (Step S)) : Prop :=
  Forall (λ st, ∀ s, I s → I (interference st s)) sch.

(** Outside a transaction [m] preserves the invariant [I], whatever the schedule,
    as long as the other sessions preserve it. *)
Class Preserves {S A} (I : S → Prop) (m : M S A) : Prop :=
  preserves : ∀ e, tx e = AutoCommit → I (db e) → stable I (schedule e) →
    tx (m e).2 = AutoCommit ∧ I (db (m e).2) ∧ stable I (schedule (m e).2).

(** [m] calls no object store. *)
Class Silent {S A} (m : M S A) : Prop := silent : ∀ e, calls (m e).2 = calls e.

(** [m] throws nothing. *)
Definition returns {S A} (m : M S A) : Prop := ∀ e, ∃ a, (m e).1 = Ret a.

(** After the calls [h], [m] makes further calls and ends in a way that [Q] allows,
    whatever the session and the schedule. *)
Definition emits {S A} (h : list StorageCall) (m : M S A)
    (Q : list StorageCall → outcome A → Prop) : Prop :=
  ∀ e, calls e = h → ∃ l, calls (m e).2 = (h ++ l)%list ∧ Q l (m e).1.

(** Splits existentials and conjunctions without unfolding definitions. *)
Ltac exes := repeat match goal with |- ∃ _, _ => eexists | |- _ ∧ _ => split end.

Section tx_body.
Context {S : Type}.
Implicit Types (s snap : S).

#[local] Hint Resolve suffix_nil suffix_app_r suffix_cons_r : core.

Lemma TxBody_outcome {A} (o : outcome A) : o ≠ Raise DbException → TxBody (λ e : Env S, (o, e)).
Proof. intros Ho. split; intros; exes; [reflexivity|done|reflexivity|done|done]. Qed.

#[export] Instance tx_body_ret {A} (a : A) : TxBody (S:=S) (mret a).
Proof. by apply TxBody_outcome. Qed.

#[export] Instance tx_body_raise_arg {A} w : TxBody (S:=S) (A:=A) (raise (InvalidArgument w)).
Proof. by apply TxBody_outcome. Qed.

#[export] Instance tx_body_raise_run {A} w : TxBody (S:=S) (A:=A) (raise (RuntimeError w)).
Proof. by apply TxBody_outcome. Qed.

#[export] Instance tx_body_exec {A} (q : S → option (A * S)) : TxBody (exec q).
Proof.
  split; intros s sch snap cs.
  - unfold exec, next_step. destruct sch; simpl; exes; try reflexivity; by apply suffix_cons_r.
  - unfold exec, next_step.
    destruct sch as [|[? []] sch]; simpl; destruct (q s) as [[a s']|]; simpl;
      exes; try reflexivity; try (by apply suffix_cons_r); intros; split_and?; congruence.
Qed.

#[export] Instance tx_body_query {A} (q : S → A) : TxBody (query q).
Proof. apply tx_body_exec. Qed.

#[export] Instance tx_body_bind {A B} (m : M S A) (f : A → M S B) :
  TxBody m → (∀ a, TxBody (f a)) → TxBody (m ≫= f).
Proof.
  intros Hm Hf. split; intros s sch snap cs; unfold mbind, M_bind.
  - destruct (tx_body_sticky (m:=m) s sch snap cs) as ([a|x] & s1 & sch1 & -> & Hs1).
    + destruct (tx_body_sticky (m:=f a) s1 sch1 snap cs) as (o & s2 & sch2 & -> & Hs2).
      exes; [reflexivity|by etrans].
    + exes; (reflexivity || done).
  - destruct (tx_body_clean (m:=m) s sch snap cs) as ([a|x] & s1 & sch1 & [|] & -> & Hs1 & Hc).
    + destruct (tx_body_sticky (m:=f a) s1 sch1 snap cs) as (o & s2 & sch2 & -> & Hs2).
      exes; [reflexivity|by etrans|done].
    + destruct (Hc eq_refl) as [_ ->].
      destruct (tx_body_clean (m:=f a) s1 sch1 snap cs) as (o & s2 & sch2 & ab & -> & Hs2 & ?).
      exes; [reflexivity|by etrans|naive_solver].
    + exes; (reflexivity || done).
    + destruct (Hc eq_refl) as [? ->]. exes; [reflexivity|done|intros _; split; congruence].
Qed.

#[export] Instance tx_body_catch {A} (m : M S A) (h : exn → option (M S A)) :
  TxBody m → (∀ x k, h x = Some k → TxBody k) → TxBody (catch m h).
Proof.
  intros Hm Hh. split; intros s sch snap cs; unfold catch.
  - destruct (tx_body_sticky (m:=m) s sch snap cs) as ([a|x] & s1 & sch1 & -> & Hs1);
      [exes; (reflexivity || done)|].
    destruct (h x) eqn:Hx; [|exes; (reflexivity || done)].
    destruct (tx_body_sticky (TxBody := Hh _ _ Hx) s1 sch1 snap cs) as (o & s2 & sch2 & -> & Hs2).
    exes; [reflexivity|by etrans].
  - destruct (tx_body_clean (m:=m) s sch snap cs) as ([a|x] & s1 & sch1 & [|] & -> & Hs1 & Hc).
    + exes; (reflexivity || done).
    + destruct (Hc eq_refl) as [_ ->]. exes; (reflexivity || done).
    + destruct (h x) eqn:Hx; [|exes; (reflexivity || done)].
      destruct (tx_body_sticky (TxBody := Hh _ _ Hx) s1 sch1 snap cs)
        as (o & s2 & sch2 & -> & Hs2).
      exes; [reflexivity|by etrans|done].
    + destruct (Hc eq_refl) as [? ->]. destruct (h x) eqn:Hx; [|exes; (reflexivity || done)].
      destruct (tx_body_clean (TxBody := Hh _ _ Hx) s1 sch1 snap cs)
        as (o & s2 & sch2 & ab & -> & Hs2 & ?).
      exes; [reflexivity|by etrans|naive_solver].
Qed.

#[export] Instance tx_body_catch_all {A} (m k : M S A) :
  TxBody m → TxBody k → TxBody (catch_all m k).
Proof. intros. apply tx_body_catch; [done|]. by intros x k' [= <-]. Qed.

#[export] Instance tx_body_catch_db {A} (m k : M S A) :
  TxBody m → TxBody k → TxBody (catch_db m k).
Proof. intros. apply tx_body_catch; [done|]. by intros [] k' [= <-]. Qed.

#[export] Instance tx_body_bind_result {A B} (m : M S (Result A)) (f : A → M S (Result B)) :
  TxBody m → (∀ a, TxBody (f a)) → TxBody (bind_result m f).
Proof. intros. apply tx_body_bind; [done|]. intros []; [done | apply tx_body_ret]. Qed.

#[export] Instance tx_body_for_each {A} (l : list A) (f : A → M S (Result unit)) :
  (∀ x, TxBody (f x)) → TxBody (for_each_result l f).
Proof. intros. induction l; simpl; apply _. Qed.
End tx_body.

(** Proves [TxBody] by the instances, splitting the matches of the body. *)
Ltac solve_tx_body :=
  repeat first
    [ assumption | apply _
    | progress intros
    | apply tx_body_bind | apply tx_body_bind_result
    | apply tx_body_catch_all | apply tx_body_catch_db
    | apply tx_body_for_each
    | match goal with |- TxBody (match ?x with _ => _ end) => destruct x end ].

Lemma exec_works {S A} (q : S → option (A * S)) s a s' cs :
  q s = Some (a, s') →
  exec q (mkEnv s [] AutoCommit cs) = (Ret a, mkEnv s' [] AutoCommit cs).
Proof. intros Hq. unfold exec, next_step. cbn. by rewrite Hq. Qed.

Lemma query_works {S A} (q : S → A) s cs :
  query q (mkEnv s [] AutoCommit cs) = (Ret (q s), mkEnv s [] AutoCommit cs).
Proof. done. Qed.

(** A session whose transaction, if any, has not failed. *)
Definition live {S} (st : TxState S) : Prop := ∀ snap, st ≠ InTx snap true.

Lemma exec_live {S A} (q : S → option (A * S)) s st cs a s' :
  live st → q s = Some (a, s') → exec q (mkEnv s [] st cs) = (Ret a, mkEnv s' [] st cs).
Proof.
  intros Hst Hq. unfold exec, next_step. cbn. rewrite Hq.
  destruct st as [|snap []]; [done| |done]. by destruct (Hst snap).
Qed.

Lemma query_live {S A} (q : S → A) s st cs :
  live st → query q (mkEnv s [] st cs) = (Ret (q s), mkEnv s [] st cs).
Proof. intros Hst. by apply exec_live. Qed.

Lemma bind_Ret {S A B} (m : M S A) (f : A → M S B) e a e' :
  m e = (Ret a, e') → (m ≫= f) e = f a e'.
Proof. intros Hm. unfold mbind, M_bind. by rewrite Hm. Qed.

(** A transaction whose body succeeds is committed. *)
Lemma Run_works {S A} d (func : M S (Result A)) s s' a cs :
  func (mkEnv s [] (InTx s false) cs) = (Ret (Ok a), mkEnv s' [] (InTx s false) cs) →
  Run d func (mkEnv s [] AutoCommit cs) = (Ret (Ok a), mkEnv s' [] AutoCommit cs).
Proof. intros H. unfold Run, Begin, next_step. cbn. by rewrite H. Qed.

Lemma bind_result_Ok {S A B} (m : M S (Result A)) (f : A → M S (Result B)) e a e' :
  m e = (Ret (Ok a), e') → bind_result m f e = f a e'.
Proof. intros Hm. unfold bind_result. by rewrite (bind_Ret _ _ _ _ _ Hm). Qed.

Lemma catch_Ret {S A} (m : M S A) h e a e' : m e = (Ret a, e') → catch m h e = (Ret a, e').
Proof. intros Hm. unfold catch. by rewrite Hm. Qed.

Section run.
Context {S : Type}.
Implicit Types (s : S).

(** The state a request finds outside a transaction. *)
Definition arrive (sch : list (Step S)) s : S :=
  match sch with [] => s | st :: _ => interference st s end.

(** What [Run] does, whatever the schedule: the session is back in auto-commit
    mode, no object store was called, and the database either is the one the
    transaction began on, with an error returned, or is the one the fault-free
    run of the body leads to. *)
Lemma Run_spec {A} d (func : M S (Result A)) s sch cs : TxBody func →
  ∃ o s' sch', Run d func (mkEnv s sch AutoCommit cs) = (Ret o, mkEnv s' sch' AutoCommit cs) ∧
    sch' `suffix_of` sch ∧
    ((s' = arrive sch s ∧ is_ok o = false) ∨
     ∃ a, (o = Ok a ∨ o = Err d) ∧
       clean func (arrive sch s) =
         (Ret (Ok a), mkEnv s' [] (InTx (arrive sch s) false) [])).
Proof.
  intros Hb. set (s0 := arrive sch s).
  assert (∀ sch1, sch1 `suffix_of` sch → ∃ o s' sch',
    match func (mkEnv s0 sch1 (InTx s0 false) cs) with
    | (Raise _, e) => (Ret (Err d), rollbackQuietly e)
    | (Ret (Err er), e) => (Ret (Err er), rollbackQuietly e)
    | (Ret (Ok a), e) => match Commit e with
        | (true, e) => (Ret (Ok a), e)
        | (false, e) => (Ret (Err d), rollbackQuietly e) end
    end = (Ret o, mkEnv s' sch' AutoCommit cs) ∧ sch' `suffix_of` sch ∧
    ((s' = s0 ∧ is_ok o = false) ∨ ∃ a, (o = Ok a ∨ o = Err d) ∧
      clean func s0 = (Ret (Ok a), mkEnv s' [] (InTx s0 false) []))) as Hbody.
  { intros sch1 H1.
    destruct (tx_body_clean (m:=func) s0 sch1 s0 cs) as (o & s' & sch' & ab & -> & H2 & Hc).
    assert (sch' `suffix_of` sch) as H3 by (by etrans).
    destruct o as [[a|er]|x]; [|exes; [reflexivity|done|by left]..].
    assert (∀ f st, sch' = st :: f → f `suffix_of` sch) as H4
      by (intros f st ->; etrans; [|done]; by apply suffix_cons_r).
    unfold Commit, next_step. cbn. destruct sch' as [|[? []] sch']; destruct ab; cbn;
      (exes; [reflexivity | eauto using suffix_nil |]);
      try (left; split; reflexivity);
      (right; exists a; split; [eauto | by destruct (Hc eq_refl)]). }
  unfold Run, Begin, next_step.
  destruct sch as [|[g []] sch]; cbn; [by apply Hbody|apply Hbody; by apply suffix_cons_r| |];
    (exes; [reflexivity | by apply suffix_cons_r | by left]).
Qed.

(** When no reply is lost the answer tells whether the transaction was committed. *)
Lemma Run_definite {A} d (func : M S (Result A)) s sch cs : TxBody func →
  Forall (λ st, fault_of st ≠ LostReply) sch →
  ∃ o s' sch', Run d func (mkEnv s sch AutoCommit cs) = (Ret o, mkEnv s' sch' AutoCommit cs) ∧
    sch' `suffix_of` sch ∧
    match o with
    | Err _ => s' = arrive sch s
    | Ok a => clean func (arrive sch s) =
                (Ret (Ok a), mkEnv s' [] (InTx (arrive sch s) false) [])
    end.
Proof.
  intros Hb Hf. set (s0 := arrive sch s).
  assert (∀ sch1, sch1 `suffix_of` sch → ∃ o s' sch',
    match func (mkEnv s0 sch1 (InTx s0 false) cs) with
    | (Raise _, e) => (Ret (Err d), rollbackQuietly e)
    | (Ret (Err er), e) => (Ret (Err er), rollbackQuietly e)
    | (Ret (Ok a), e) => match Commit e with
        | (true, e) => (Ret (Ok a), e)
        | (false, e) => (Ret (Err d), rollbackQuietly e) end
    end = (Ret o, mkEnv s' sch' AutoCommit cs) ∧ sch' `suffix_of` sch ∧
    match o with
    | Err _ => s' = s0
    | Ok a => clean func s0 = (Ret (Ok a), mkEnv s' [] (InTx s0 false) [])
    end) as Hbody.
  { intros sch1 H1.
    destruct (tx_body_clean (m:=func) s0 sch1 s0 cs) as (o & s' & sch' & ab & -> & H2 & Hc).
    assert (sch' `suffix_of` sch) as H3 by (by etrans).
    destruct o as [[a|er]|x]; [|exes; [reflexivity|done|done]..].
    assert (∀ f st, sch' = st :: f → f `suffix_of` sch) as H4
      by (intros f st ->; etrans; [|done]; by apply suffix_cons_r).
    unfold Commit, next_step. cbn. destruct sch' as [|[g []] sch']; destruct ab; cbn;
      (exes; [reflexivity | eauto using suffix_nil |]); try reflexivity;
      try (by destruct (Hc eq_refl));
      (destruct H3 as [pre E]; rewrite E, Forall_app, Forall_cons in Hf;
       by destruct Hf as (_ & Hn & _); destruct Hn). }
  unfold Run, Begin, next_step.
  destruct sch as [|[g []] sch]; cbn; [by apply Hbody|apply Hbody; by apply suffix_cons_r| |];
    (exes; [reflexivity | by apply suffix_cons_r | done]).
Qed.
End run.

Section preserves.
Context {S : Type} (I : S → Prop).

Lemma stable_suffix sch sch' : sch' `suffix_of` sch → stable I sch → stable I sch'.
Proof. intros [l ->]. unfold stable. by rewrite Forall_app; intros [_ ?]. Qed.

Lemma stable_arrive sch s : I s → stable I sch → I (arrive sch s).
Proof. intros ? [|??]; cbn; auto. Qed.

#[export] Instance preserves_ret {A} (a : A) : Preserves I (mret a).
Proof. by intros e. Qed.

#[export] Instance preserves_raise {A} x : Preserves I (raise (A:=A) x).
Proof. by intros e. Qed.

#[export] Instance preserves_call_storage {A} c (f : list StorageCall → A) :
  Preserves I (call_storage c f).
Proof. by intros e. Qed.

Lemma preserves_exec {A} (q : S → option (A * S)) :
  (∀ s a s', I s → q s = Some (a, s') → I s') → Preserves I (exec q).
Proof.
  intros Hq [s sch t cs] Ht HI Hst. cbn in *. subst. unfold exec, next_step.
  destruct sch as [|[g []] sch]; cbn; [|inversion Hst; subst..];
    match goal with |- context [ q ?t ] => destruct (q t) as [[a s']|] eqn:E | _ => idtac end;
    cbn; eauto.
Qed.

#[export] Instance preserves_query {A} (q : S → A) : Preserves I (query q).
Proof. apply preserves_exec. by intros s a s' ? [= _ <-]. Qed.

#[export] Instance preserves_bind {A B} (m : M S A) (f : A → M S B) :
  Preserves I m → (∀ a, Preserves I (f a)) → Preserves I (m ≫= f).
Proof.
  intros Hm Hf e Ht HI Hst. specialize (Hm e Ht HI Hst). unfold mbind, M_bind.
  destruct (m e) as [[a|x] e']; [|done]. destruct Hm as (?&?&?). by apply Hf.
Qed.

#[export] Instance preserves_catch {A} (m : M S A) (h : exn → option (M S A)) :
  Preserves I m → (∀ x k, h x = Some k → Preserves I k) → Preserves I (catch m h).
Proof.
  intros Hm Hh e Ht HI Hst. specialize (Hm e Ht HI Hst). unfold catch.
  destruct (m e) as [[a|x] e']; [done|].
  destruct Hm as (?&?&?). destruct (h x) eqn:Hx; [|done]. by apply (Hh _ _ Hx).
Qed.

#[export] Instance preserves_catch_all {A} (m k : M S A) :
  Preserves I m → Preserves I k → Preserves I (catch_all m k).
Proof. intros. apply preserves_catch; [done|]. by intros x k' [= <-]. Qed.

#[export] Instance preserves_catch_db {A} (m k : M S A) :
  Preserves I m → Preserves I k → Preserves I (catch_db m k).
Proof. intros. apply preserves_catch; [done|]. by intros [] k' [= <-]. Qed.

#[export] Instance preserves_bind_result {A B} (m : M S (Result A)) (f : A → M S (Result B)) :
  Preserves I m → (∀ a, Preserves I (f a)) → Preserves I (bind_result m f).
Proof. intros. apply preserves_bind; [done|]. intros []; [done | apply preserves_ret]. Qed.

(** The same when the continuation relies on what [m] answers. *)
Lemma preserves_bind_post {A B} (Q : A → Prop) (m : M S A) (f : A → M S B) :
  Preserves I m →
  (∀ e a e', tx e = AutoCommit → I (db e) → stable I (schedule e) → m e = (Ret a, e') → Q a) →
  (∀ a, Q a → Preserves I (f a)) → Preserves I (m ≫= f).
Proof.
  intros Hm HQ Hf e Ht HI Hst. specialize (Hm e Ht HI Hst). unfold mbind, M_bind.
  destruct (m e) as [[a|x] e'] eqn:E; [|done]. destruct Hm as (?&?&?). apply Hf; [|done..].
  by eapply HQ.
Qed.

(** Outside a transaction a query answers from a state the other sessions left. *)
Lemma query_answer {A} (q : S → A) e a e' :
  tx e = AutoCommit → I (db e) → stable I (schedule e) → query q e = (Ret a, e') →
  ∃ s, I s ∧ a = q s.
Proof.
  destruct e as [s sch t cs]. cbn. intros -> HI Hst. unfold query, exec, next_step.
  destruct sch as [|[g []] sch]; cbn; intros H; simplify_eq; eauto.
  inversion Hst; subst. eauto.
Qed.

(** A query answers from the state it finds. *)
Lemma query_sees {A} (q : S → A) s sch cs a e' :
  query q (mkEnv s sch AutoCommit cs) = (Ret a, e') → a = q (arrive sch s).
Proof.
  unfold query, exec, next_step. destruct sch as [|[g []] sch]; cbn; by intros [= <-].
Qed.

Lemma query_finds {A} (q : S → A) s sch cs :
  Forall (λ st, fault_of st = Works) (take 1 sch) →
  query q (mkEnv s sch AutoCommit cs) =
    (Ret (q (arrive sch s)), mkEnv (arrive sch s) (tail sch) AutoCommit cs).
Proof.
  destruct sch as [|[g f] sch]; [done|]. cbn. intros H. inversion H; subst. cbn in *. by subst.
Qed.

(** A transaction preserves what its committed fault-free runs preserve. *)
Lemma preserves_Run {A} d (func : M S (Result A)) : TxBody func →
  (∀ s a s', I s → clean func s = (Ret (Ok a), mkEnv s' [] (InTx s false) []) → I s') →
  Preserves I (Run d func).
Proof.
  intros Hb Hc [s sch t cs] Ht HI Hst. cbn in *. subst.
  destruct (Run_spec d func s sch cs Hb) as (o & s' & sch' & -> & Hs & Ho); cbn.
  split_and!; [done| |by eapply stable_suffix].
  pose proof (stable_arrive _ _ HI Hst). destruct Ho as [[-> _]|(a & _ & Hs')]; eauto.
Qed.
End preserves.

(** Proves [Preserves] by the instances, splitting the matches of the body. *)
Ltac solve_preserves :=
  repeat first
    [ assumption | apply _
    | progress intros
    | apply preserves_bind | apply preserves_bind_result
    | apply preserves_catch_all | apply preserves_catch_db
    | match goal with |- Preserves _ (match ?x with _ => _ end) => destruct x end ].

(** ** Calls to the object stores *)

Section silent.
Context {S : Type}.

#[export] Instance silent_ret {A} (a : A) : Silent (S:=S) (mret a).
Proof. done. Qed.

#[export] Instance silent_raise {A} x : Silent (S:=S) (A:=A) (raise x).
Proof. done. Qed.

#[export] Instance silent_exec {A} (q : S → option (A * S)) : Silent (exec q).
Proof.
  intros [s sch [|snap []] cs]; unfold exec, next_step; destruct sch as [|[g []] sch]; cbn;
    try reflexivity; by case_match; try case_match.
Qed.

#[export] Instance silent_query {A} (q : S → A) : Silent (query q).
Proof. apply silent_exec. Qed.

#[export] Instance silent_bind {A B} (m : M S A) (f : A → M S B) :
  Silent m → (∀ a, Silent (f a)) → Silent (m ≫= f).
Proof.
  intros Hm Hf e. specialize (Hm e). unfold mbind, M_bind.
  destruct (m e) as [[a|x] e']; cbn in *; [|done]. by rewrite Hf.
Qed.

#[export] Instance silent_catch {A} (m : M S A) (h : exn → option (M S A)) :
  Silent m → (∀ x k, h x = Some k → Silent k) → Silent (catch m h).
Proof.
  intros Hm Hh e. specialize (Hm e). unfold catch.
  destruct (m e) as [[a|x] e']; cbn in *; [done|].
  destruct (h x) eqn:Hx; [|done]. by rewrite (Hh _ _ Hx).
Qed.

#[export] Instance silent_catch_all {A} (m k : M S A) :
  Silent m → Silent k → Silent (catch_all m k).
Proof. intros. apply silent_catch; [done|]. by intros x k' [= <-]. Qed.

#[export] Instance silent_catch_db {A} (m k : M S A) :
  Silent m → Silent k → Silent (catch_db m k).
Proof. intros. apply silent_catch; [done|]. by intros [] k' [= <-]. Qed.

#[export] Instance silent_bind_result {A B} (m : M S (Result A)) (f : A → M S (Result B)) :
  Silent m → (∀ a, Silent (f a)) → Silent (bind_result m f).
Proof. intros. apply silent_bind; [done|]. intros []; [done | apply silent_ret]. Qed.

Lemma next_step_calls (e : Env S) : calls (next_step e).2 = calls e.
Proof. unfold next_step. by destruct (schedule e). Qed.

Lemma rollback_calls (e : Env S) : calls (rollbackQuietly e) = calls e.
Proof. unfold rollbackQuietly. by destruct (tx e). Qed.

Lemma commit_calls (e : Env S) : calls (Commit e).2 = calls e.
Proof.
  unfold Commit. pose proof (next_step_calls e) as Hn. destruct (next_step e) as [f e']. cbn in Hn.
  destruct (tx e') as [|snap []] eqn:Ht; cbn; [by rewrite rollback_calls..|].
  destruct f; cbn; by rewrite ?rollback_calls.
Qed.

#[export] Instance silent_Run {A} d (func : M S (Result A)) : TxBody func → Silent (Run d func).
Proof.
  intros Hb e. unfold Run, Begin. pose proof (next_step_calls e) as Hn.
  destruct (next_step e) as [f e']. cbn in Hn. destruct f; cbn; [|by rewrite rollback_calls..].
  destruct (tx_body_clean (m:=func) (db e') (schedule e') (db e') (calls e'))
    as (o & s' & sch' & ab & -> & _).
  destruct o as [[a|er]|x]; cbn; [|done..].
  match goal with |- context [ Commit ?x ] => pose proof (commit_calls x) as Hc;
    destruct (Commit x) as [[] e2] end; cbn in *; by rewrite ?rollback_calls, Hc.
Qed.

Lemma emits_silent {A} h (m : M S A) (Q : list StorageCall → outcome A → Prop) :
  Silent m → (∀ o, Q [] o) → emits h m Q.
Proof. intros Hm HQ e <-. exists []. by rewrite Hm, app_nil_r. Qed.

Lemma emits_ret {A} h (a : A) (Q : list StorageCall → outcome A → Prop) :
  Q [] (Ret a) → emits (S:=S) h (mret a) Q.
Proof. intros HQ e <-. exists []. by rewrite app_nil_r. Qed.

Lemma emits_bind_silent {A B} h (m : M S A) (f : A → M S B) Q :
  Silent m → (∀ a, emits h (f a) Q) → (∀ x, Q [] (Raise x)) → emits h (m ≫= f) Q.
Proof.
  intros Hm Hf HQ e <-. specialize (Hm e). unfold mbind, M_bind.
  destruct (m e) as [[a|x] e'] eqn:E; cbn in *; [by apply Hf|].
  exists []. by rewrite Hm, app_nil_r.
Qed.

Lemma returns_catch_all {A} (m : M S A) (a : A) : returns (catch_all m (mret a)).
Proof. intros e. unfold catch_all, catch. destruct (m e) as [[b|x] e']; cbn; eauto. Qed.

Lemma emits_bind_returns {A B} h (m : M S A) (f : A → M S B) Q :
  Silent m → returns m → (∀ a, emits h (f a) Q) → emits h (m ≫= f) Q.
Proof.
  intros Hm Hr Hf e <-. specialize (Hm e). specialize (Hr e) as [a Ha]. unfold mbind, M_bind.
  destruct (m e) as [[b|x] e']; cbn in *; [by apply Hf|done].
Qed.

Lemma emits_bind_call {A B} h c (answer : list StorageCall → A) (f : A → M S B) Q :
  emits (h ++ [c])%list (f (answer h)) (λ l o, Q (c :: l) o) →
  emits h (call_storage c answer ≫= f) Q.
Proof.
  intros Hf e <-. unfold mbind, M_bind, call_storage. cbn.
  destruct (Hf (mkEnv (db e) (schedule e) (tx e) (calls e ++ [c])) eq_refl) as (l & -> & ?).
  exists (c :: l). by rewrite <- app_assoc.
Qed.

Lemma emits_weaken {A} h (m : M S A) (Q Q' : list StorageCall → outcome A → Prop) :
  emits h m Q → (∀ l o, Q l o → Q' l o) → emits h m Q'.
Proof. intros Hm HQ e He. destruct (Hm e He) as (l & ? & ?). eauto. Qed.
End silent.

(** Proves [Silent] by the instances, splitting the matches of the body. *)
Ltac solve_silent :=
  repeat first
    [ assumption | apply _
    | progress intros
    | apply silent_bind | apply silent_bind_result
    | apply silent_catch_all | apply silent_catch_db
    | match goal with |- Silent (match ?x with _ => _ end) => destruct x end ].

(** ** Fault-free runs inside a transaction

    Inversion lemmas for a clean run: each statement of it succeeded. *)

Section clean.
Context {S : Type}.
Implicit Types (s : S).

(** The run of [m] from [s] with snapshot [snap], an empty schedule and no
    statement failed, returns [a] in state [s']. *)
Definition runs {A} (m : M S A) snap s a s' : Prop :=
  m (mkEnv s [] (InTx snap false) []) = (Ret a, mkEnv s' [] (InTx snap false) []).

Lemma clean_runs {A} (m : M S A) s a s' :
  clean m s = (Ret a, mkEnv s' [] (InTx s false) []) ↔ runs m s s a s'.
Proof. done. Qed.

Lemma runs_ret {A} (a b : A) snap s s' :
  runs (mret a) snap s b s' ↔ b = a ∧ s' = s.
Proof. unfold runs, mret, M_ret. naive_solver. Qed.

Lemma runs_raise {A} x snap s (b : A) s' : runs (raise x) snap s b s' ↔ False.
Proof. unfold runs, raise. naive_solver. Qed.

Lemma runs_exec {A} (q : S → option (A * S)) snap s a s' :
  runs (exec q) snap s a s' ↔ q s = Some (a, s').
Proof.
  unfold runs, exec, next_step. cbn. destruct (q s) as [[b t]|]; naive_solver.
Qed.

Lemma runs_query {A} (q : S → A) snap s a s' :
  runs (query q) snap s a s' ↔ a = q s ∧ s' = s.
Proof. unfold query. rewrite runs_exec. naive_solver. Qed.

Lemma runs_bind {A B} (m : M S A) (f : A → M S B) snap s b s' : TxBody m →
  (∀ a, TxBody (f a)) →
  runs (m ≫= f) snap s b s' ↔ ∃ a t, runs m snap s a t ∧ runs (f a) snap t b s'.
Proof.
  intros Hm Hf. unfold runs, mbind, M_bind. split.
  - destruct (tx_body_clean (m:=m) s [] snap []) as (o & t & sch & ab & Hr & _ & Hc).
    rewrite Hr. destruct o as [a|x]; [|done]. destruct ab.
    + destruct (tx_body_sticky (m:=f a) t sch snap []) as (o & t' & sch' & -> & _). congruence.
    + destruct (Hc eq_refl) as [_ Hc']. rewrite Hr in Hc'. simplify_eq. eauto.
  - intros (a & t & -> & ?). done.
Qed.

Lemma runs_bind_result {A B} (m : M S (Result A)) (f : A → M S (Result B)) snap s b s' :
  TxBody m → (∀ a, TxBody (f a)) →
  runs (bind_result m f) snap s (Ok b) s' ↔
  ∃ a t, runs m snap s (Ok a) t ∧ runs (f a) snap t (Ok b) s'.
Proof.
  intros Hm Hf. unfold bind_result. rewrite runs_bind.
  - split.
    + intros ([a|er] & t & ? & Hr); [eauto|]. by apply runs_ret in Hr as [??].
    + intros (a & t & ? & ?). by exists (Ok a), t.
  - done.
  - intros []; solve_tx_body.
Qed.

(** A handler of database exceptions runs only when a statement failed, so in a
    clean run the guarded code itself returned. *)
Lemma runs_catch_db {A} (m k : M S A) snap s a s' : TxBody m → TxBody k →
  runs (catch_db m k) snap s a s' ↔ runs m snap s a s'.
Proof.
  intros Hm Hk. unfold runs, catch_db, catch.
  destruct (tx_body_clean (m:=m) s [] snap []) as (o & t & sch & ab & -> & _ & Hc).
  destruct o as [b|[]]; [done| |done..]. split; [|done].
  destruct ab; [|by destruct (Hc eq_refl)].
  destruct (tx_body_sticky (m:=k) t sch snap []) as (o & t' & sch' & -> & _). congruence.
Qed.

(** A handler of other exceptions also runs after one the code threw itself. *)
Lemma runs_catch {A} (m : M S A) h snap s a s' :
  TxBody m → (∀ x k, h x = Some k → TxBody k) →
  runs (catch m h) snap s a s' →
  runs m snap s a s' ∨ ∃ x k t, h x = Some k ∧ runs k snap t a s'.
Proof.
  intros Hm Hk. unfold runs, catch.
  destruct (tx_body_clean (m:=m) s [] snap []) as (o & t & sch & ab & Hr & _ & Hc). rewrite Hr.
  destruct o as [b|x]; [by left|]. destruct (h x) as [k|] eqn:Hx; [|done].
  pose proof (Hk _ _ Hx). destruct ab.
  - destruct (tx_body_sticky (m:=k) t sch snap []) as (o & t' & sch' & -> & _). congruence.
  - destruct (Hc eq_refl) as [_ Hc']. rewrite Hr in Hc'. simplify_eq. eauto 10.
Qed.

Lemma runs_catch_all {A} (m k : M S A) snap s a s' : TxBody m → TxBody k →
  runs (catch_all m k) snap s a s' → runs m snap s a s' ∨ ∃ t, runs k snap t a s'.
Proof.
  intros Hm Hk [?|(x & k' & t & [= <-] & ?)]%runs_catch; eauto. by intros x k' [= <-].
Qed.
End clean.

(** Splits a clean run at its first step. *)
Ltac run_bind H x t H1 :=
  (rewrite runs_bind in H by solve_tx_body; destruct H as (x & t & H1 & H)).
Ltac run_bind_result H x t H1 :=
  (rewrite runs_bind_result in H by solve_tx_body; destruct H as (x & t & H1 & H)).

#[export] Hint Resolve preserves_exec : disk.

(** ** Properties *)


