(* ===== verification/Rely.v ===== *)
(** * Relying on the other sessions

    [Preserves] of [Db.v] asks the other sessions to keep an invariant.  Some services
    read rows outside a transaction and act on them later: they also rely on how the
    database may have changed in between.  [Respects R I m] says that [m] keeps the
    invariant [I] and changes the database only along the preorder [R], as long as the
    other sessions do. *)

From S2P Require Import Prelude Errors Storage Db.

Section rely.
Context {S : Type} (R : S → S → Prop) `{!PreOrder R}.
Implicit Types (I : S → Prop) (s : S).

(** The other sessions of a schedule keep [I] and move along [R]. *)
Definition relies I (sch : list (Step S)) : Prop :=
  Forall (λ st, ∀ s, I s → I (interference st s) ∧ R s (interference st s)) sch.

Class Respects {A} I (m : M S A) : Prop :=
  respects : ∀ e, tx e = AutoCommit → I (db e) → relies I (schedule e) →
    tx (m e).2 = AutoCommit ∧ I (db (m e).2) ∧ R (db e) (db (m e).2) ∧
    schedule (m e).2 `suffix_of` schedule e.

(** What [m] answers is related to the database it leaves. *)
Definition yields {A} I (m : M S A) (Q : A → S → Prop) : Prop :=
  ∀ e a e', tx e = AutoCommit → I (db e) → relies I (schedule e) → m e = (Ret a, e') →
    Q a (db e').

(** What stays true along [R]. *)
Definition lasting (P : S → Prop) : Prop := ∀ s s', P s → R s s' → P s'.

Lemma relies_suffix I sch sch' : sch' `suffix_of` sch → relies I sch → relies I sch'.
Proof. intros [pre ->] H. by apply Forall_app in H as [_ ?]. Qed.

Lemma relies_also I (P : S → Prop) sch :
  lasting P → relies I sch → relies (λ s, I s ∧ P s) sch.
Proof.
  intros HP H. eapply Forall_impl; [exact H|]. intros st Hst s [HI HPs].
  destruct (Hst s HI) as [? HR]. split_and!; [done|by eapply HP|done].
Qed.

Lemma arrive_relies I sch s : I s → relies I sch → I (arrive sch s) ∧ R s (arrive sch s).
Proof.
  intros HI H. destruct sch as [|st sch]; simpl; [split; [done|reflexivity]|].
  inversion H; subst. eauto.
Qed.

#[export] Instance respects_ret {A} I (a : A) : Respects I (mret a).
Proof. intros e Ht HI _. by split_and!. Qed.

#[export] Instance respects_raise {A} I x : Respects (A:=A) I (raise x).
Proof. intros e Ht HI _. by split_and!. Qed.

Lemma respects_exec {A} I (q : S → option (A * S)) :
  (∀ s a s', I s → q s = Some (a, s') → I s' ∧ R s s') → Respects I (exec q).
Proof.
  intros Hq [s sch t cs]. cbn. intros -> HI Hst.
  pose proof (arrive_relies I sch s HI Hst) as [HI' HR].
  assert (∀ a s', q (arrive sch s) = Some (a, s') → I s' ∧ R s s') as Hgo.
  { intros a s' E. destruct (Hq _ _ _ HI' E). split; [done|]. by etrans. }
  unfold exec, next_step. destruct sch as [|[g []] sch]; cbn in *;
    repeat case_match; simplify_eq/=; split_and!; eauto using suffix_cons_r;
    try (by destruct (Hgo _ _ eq_refl)); try reflexivity; by apply suffix_cons_r.
Qed.

#[export] Instance respects_query {A} I (q : S → A) : Respects I (query q).
Proof. apply respects_exec. intros s a s' ? [= <- <-]. split; [done|reflexivity]. Qed.

#[export] Instance respects_bind {A B} I (m : M S A) (f : A → M S B) :
  Respects I m → (∀ a, Respects I (f a)) → Respects I (m ≫= f).
Proof.
  intros Hm Hf e Ht HI Hst. specialize (Hm e Ht HI Hst). unfold mbind, M_bind.
  destruct (m e) as [[a|x] e']; [|done]. destruct Hm as (Ht' & HI' & HR & Hs).
  destruct (Hf a e' Ht' HI') as (? & ? & ? & ?); [by eapply relies_suffix|].
  split_and!; [done..|by etrans|by etrans].
Qed.

#[export] Instance respects_catch {A} I (m : M S A) (h : exn → option (M S A)) :
  Respects I m → (∀ x k, h x = Some k → Respects I k) → Respects I (catch m h).
Proof.
  intros Hm Hh e Ht HI Hst. specialize (Hm e Ht HI Hst). unfold catch.
  destruct (m e) as [[a|x] e']; [done|]. destruct (h x) as [k|] eqn:Hx; [|done].
  destruct Hm as (Ht' & HI' & HR & Hs).
  destruct (Hh x k Hx e' Ht' HI') as (? & ? & ? & ?); [by eapply relies_suffix|].
  split_and!; [done..|by etrans|by etrans].
Qed.

#[export] Instance respects_catch_all {A} I (m k : M S A) :
  Respects I m → Respects I k → Respects I (catch_all m k).
Proof. intros. apply respects_catch; [done|]. by intros x k' [= <-]. Qed.

#[export] Instance respects_catch_db {A} I (m k : M S A) :
  Respects I m → Respects I k → Respects I (catch_db m k).
Proof. intros. apply respects_catch; [done|]. by intros [] k' [= <-]. Qed.

#[export] Instance respects_bind_result {A B} I (m : M S (Result A)) (f : A → M S (Result B)) :
  Respects I m → (∀ a, Respects I (f a)) → Respects I (bind_result m f).
Proof. intros. apply respects_bind; [done|]. intros []; [done|apply respects_ret]. Qed.

(** The continuation may rely on what the answer says about the database, when
    the other sessions cannot spoil it. *)
Lemma respects_bind_post {A B} I (Q : A → S → Prop) (m : M S A) (f : A → M S B) :
  Respects I m → yields I m Q → (∀ a, lasting (Q a)) →
  (∀ a, Respects (λ s, I s ∧ Q a s) (f a)) → Respects I (m ≫= f).
Proof.
  intros Hm HQ Hl Hf e Ht HI Hst. specialize (Hm e Ht HI Hst). unfold mbind, M_bind.
  destruct (m e) as [[a|x] e'] eqn:E; [|done]. destruct Hm as (Ht' & HI' & HR & Hs).
  destruct (Hf a e' Ht') as (? & [? ?] & ? & ?).
  { split; [done|]. by eapply HQ. }
  { apply relies_also; [done|]. by eapply relies_suffix. }
  split_and!; [done..|by etrans|by etrans].
Qed.

Lemma yields_exec {A} I (q : S → option (A * S)) (Q : A → S → Prop) :
  (∀ s a s', I s → q s = Some (a, s') → Q a s') → yields I (exec q) Q.
Proof.
  intros HQ [s sch t cs] a e'. cbn. intros -> HI Hst.
  pose proof (arrive_relies I sch s HI Hst) as [HI' _].
  unfold exec, next_step. destruct sch as [|[g []] sch]; cbn in *; intros;
    repeat case_match; simplify_eq/=; by eapply HQ.
Qed.

Lemma yields_raise {A} I x (Q : A → S → Prop) : yields I (raise x) Q.
Proof. by intros e a e' _ _ _ [=]. Qed.

Lemma yields_query {A} I (q : S → A) (Q : A → S → Prop) :
  (∀ s, I s → Q (q s) s) → yields I (query q) Q.
Proof.
  intros HQ [s sch t cs] a e'. cbn. intros -> HI Hst.
  pose proof (arrive_relies I sch s HI Hst) as [HI' _].
  unfold query, exec, next_step. destruct sch as [|[g []] sch]; cbn in *; intros; simplify_eq;
    by apply HQ.
Qed.

Lemma yields_bind {A B} I (m : M S A) (f : A → M S B) (Q : A → S → Prop) (Q' : B → S → Prop) :
  Respects I m → yields I m Q → (∀ a, lasting (Q a)) →
  (∀ a, yields (λ s, I s ∧ Q a s) (f a) Q') → yields I (m ≫= f) Q'.
Proof.
  intros Hm HQ Hl Hf e b e' Ht HI Hst. specialize (Hm e Ht HI Hst). unfold mbind, M_bind.
  destruct (m e) as [[a|x] e1] eqn:E; [|done]. destruct Hm as (Ht' & HI' & HR & Hs).
  apply (Hf a); [done| |apply relies_also; [done|]; by eapply relies_suffix].
  split; [done|]. by eapply HQ.
Qed.

(** Without relying on what the first part answers. *)
Lemma yields_then {A B} I (m : M S A) (f : A → M S B) (Q : B → S → Prop) :
  Respects I m → (∀ a, yields I (f a) Q) → yields I (m ≫= f) Q.
Proof.
  intros Hm Hf e b e' Ht HI Hst. specialize (Hm e Ht HI Hst). unfold mbind, M_bind.
  destruct (m e) as [[a|x] e1]; [|done]. destruct Hm as (Ht' & HI' & _ & Hs).
  apply (Hf a); [done..|]. by eapply relies_suffix.
Qed.

(** What the first part establishes lasts through the second. *)
Lemma yields_both {A B} I (m : M S A) (f : A → M S B) (Q : A → S → Prop) (Q' Q'' : B → S → Prop) :
  Respects I m → yields I m Q → (∀ a, lasting (Q a)) →
  (∀ a, Respects I (f a)) → (∀ a, yields I (f a) Q') →
  (∀ a b s, Q a s → Q' b s → Q'' b s) → yields I (m ≫= f) Q''.
Proof.
  intros Hm HQ Hl Hf HQ' HQ'' e b e' Ht HI Hst. specialize (Hm e Ht HI Hst). unfold mbind, M_bind.
  destruct (m e) as [[a|x] e1] eqn:E; [|done]. destruct Hm as (Ht' & HI' & HR & Hs).
  assert (relies I (schedule e1)) as Hst' by (by eapply relies_suffix).
  intros Hfa. destruct (Hf a e1 Ht' HI' Hst') as (_ & _ & HR' & _). rewrite Hfa in HR'.
  apply (HQ'' a b); [|by apply (HQ' a e1 b e')].
  apply (Hl a (db e1)); [by apply (HQ e a e1)|done].
Qed.

Lemma yields_ret {A} I (a : A) (Q : A → S → Prop) : (∀ s, I s → Q a s) → yields I (mret a) Q.
Proof. intros HQ e b e' _ HI _ [= <- <-]. by apply HQ. Qed.

(** An answer in place of an exception. *)
Lemma yields_catch_ret {A} I (m : M S A) (h : exn → option (M S A)) (a : A) (Q : A → S → Prop) :
  Respects I m → yields I m Q → (∀ x k, h x = Some k → k = mret a) → (∀ s, I s → Q a s) →
  yields I (catch m h) Q.
Proof.
  intros Hm HQ Hh Ha e b e' Ht HI Hst. specialize (Hm e Ht HI Hst). unfold catch.
  destruct (m e) as [[b'|x] e1] eqn:E.
  - intros [= <- <-]. by apply (HQ e _ _ Ht HI Hst).
  - destruct Hm as (_ & HI' & _ & _). destruct (h x) as [k|] eqn:Hx; [|done].
    rewrite (Hh x k Hx). intros [= <- <-]. by apply Ha.
Qed.

Lemma yields_catch_db_ret {A} I (m : M S A) (a : A) (Q : A → S → Prop) :
  Respects I m → yields I m Q → (∀ s, I s → Q a s) → yields I (catch_db m (mret a)) Q.
Proof. intros ? ? ?. apply yields_catch_ret with a; [done..|by intros [] k [= <-]|done]. Qed.

Lemma yields_catch_all_ret {A} I (m : M S A) (a : A) (Q : A → S → Prop) :
  Respects I m → yields I m Q → (∀ s, I s → Q a s) → yields I (catch_all m (mret a)) Q.
Proof. intros ? ? ?. apply yields_catch_ret with a; [done..|by intros x k [= <-]|done]. Qed.

(** Only the answer is changed. *)
Lemma yields_map {A B} I (m : M S A) (f : A → B) (Q : B → S → Prop) :
  yields I m (λ a s, Q (f a) s) → yields I (a ← m; mret (f a)) Q.
Proof.
  intros HQ e b e' Ht HI Hst. unfold mbind, M_bind. destruct (m e) as [[a|x] e1] eqn:E; [|done].
  intros [= <- <-]. by apply (HQ e a e1).
Qed.

Lemma yields_map_result {A B} I (m : M S (Result A)) (f : A → Result B) (Q : Result B → S → Prop) :
  yields I m (λ r s, Q (match r with Ok a => f a | Err e => Err e end) s) →
  yields I (bind_result m (λ a, mret (f a))) Q.
Proof.
  intros HQ e b e' Ht HI Hst. unfold bind_result, mbind, M_bind.
  destruct (m e) as [[[a|er]|x] e1] eqn:E; intros [= <- <-]; exact (HQ e _ e1 Ht HI Hst E).
Qed.

Lemma yields_weaken {A} I (m : M S A) (Q Q' : A → S → Prop) :
  yields I m Q → (∀ a s, Q a s → Q' a s) → yields I m Q'.
Proof. intros HQ H e a e' Ht HI Hst E. apply H. by apply (HQ e a e'). Qed.

(** The same for bodies that return results: an error ends them. *)
Lemma yields_result_then {A B} I (m : M S (Result A)) (f : A → M S (Result B)) (Q : Result B → S → Prop) :
  Respects I m → (∀ a, yields I (f a) Q) → (∀ e s, I s → Q (Err e) s) → yields I (bind_result m f) Q.
Proof. intros Hm Hf He. apply yields_then; [done|]. intros [a|e]; [done|]. apply yields_ret; eauto. Qed.

Lemma yields_refused {A B} I (m : M S (Result A)) (f : A → M S (Result B)) :
  yields I m (λ r _, is_ok r = false) → yields I (bind_result m f) (λ r _, is_ok r = false).
Proof.
  intros HQ e b e' Ht HI Hst. unfold bind_result, mbind, M_bind.
  destruct (m e) as [[[a|er]|x] e1] eqn:E; [|by intros [= <- _]|done].
  by specialize (HQ e _ _ Ht HI Hst E).
Qed.

(** A transaction respects what its committed fault-free runs respect. *)
Lemma respects_Run {A} I d (func : M S (Result A)) : TxBody func →
  (∀ s a s', I s → clean func s = (Ret (Ok a), mkEnv s' [] (InTx s false) []) → I s' ∧ R s s') →
  Respects I (Run d func).
Proof.
  intros Hb Hc [s sch t cs] Ht HI Hst. cbn in *. subst.
  destruct (Run_spec d func s sch cs Hb) as (o & s' & sch' & -> & Hs & Ho); cbn.
  destruct (arrive_relies _ _ _ HI Hst) as [HI' HR].
  destruct Ho as [[-> _]|(a & _ & Hs')]; [by split_and!|].
  destruct (Hc _ _ _ HI' Hs'). split_and!; [done..|by etrans|done].
Qed.
End rely.

(** Relying on an invariant alone. *)
Definition anyhow {S} : S → S → Prop := λ _ _, True.

#[export] Instance anyhow_preorder {S} : PreOrder (anyhow (S:=S)).
Proof. by split. Qed.

(** ** Steps inside and outside transactions

    [Moves R I m] says the same in either mode of the session: inside a transaction the
    other sessions are not seen, and a rollback goes back to where the transaction began.
    When every statement moves along [R], so does a service, its transactions included. *)

Definition same_mode {S} (t t' : TxState S) : Prop :=
  match t, t' with
  | AutoCommit, AutoCommit => True
  | InTx s _, InTx s' _ => s = s'
  | _, _ => False
  end.

Section moves.
Context {S : Type} (R : S → S → Prop) `{!PreOrder R} (I : S → Prop).

Class Moves {A} (m : M S A) : Prop :=
  moves : ∀ e, I (db e) → relies R I (schedule e) →
    same_mode (tx e) (tx (m e).2) ∧ I (db (m e).2) ∧ R (db e) (db (m e).2) ∧
    schedule (m e).2 `suffix_of` schedule e.

Lemma same_mode_refl (t : TxState S) : same_mode t t.
Proof. by destruct t. Qed.

Lemma same_mode_trans (t t' t'' : TxState S) : same_mode t t' → same_mode t' t'' → same_mode t t''.
Proof. destruct t, t', t''; simpl; intuition congruence. Qed.

#[local] Hint Resolve same_mode_refl : core.

Lemma moves_respects {A} (m : M S A) : Moves m → Respects R I m.
Proof.
  intros Hm e Ht HI Hst. destruct (Hm e HI Hst) as (Hmode & ?). rewrite Ht in Hmode.
  split; [|done]. by destruct (tx (m e).2).
Qed.

#[export] Instance moves_ret {A} (a : A) : Moves (mret a).
Proof. intros e HI _. by split_and!. Qed.

#[export] Instance moves_raise {A} x : Moves (A:=A) (raise x).
Proof. intros e HI _. by split_and!. Qed.

#[export] Instance moves_call {A} c (f : list StorageCall → A) : Moves (call_storage c f).
Proof. intros e HI _. by split_and!. Qed.

Lemma moves_exec {A} (q : S → option (A * S)) :
  (∀ s a s', I s → q s = Some (a, s') → I s' ∧ R s s') → Moves (exec q).
Proof.
  intros Hq [s sch t cs]. cbn. intros HI Hst. destruct t as [|snap ab].
  { destruct (respects_exec R I q Hq (mkEnv s sch AutoCommit cs) eq_refl HI Hst) as (E & ? & ? & ?).
    rewrite E. by split_and!. }
  assert (∀ a s', q s = Some (a, s') → I s' ∧ R s s') as Hgo by eauto.
  unfold exec, next_step. destruct sch as [|[g []] sch], ab; cbn;
    repeat case_match; simplify_eq/=; split_and!; eauto using suffix_cons_r;
    try (by destruct (Hgo _ _ eq_refl)); try reflexivity; by apply suffix_cons_r.
Qed.

#[export] Instance moves_query {A} (q : S → A) : Moves (query q).
Proof. apply moves_exec. intros s a s' ? [= <- <-]. split; [done|reflexivity]. Qed.

#[export] Instance moves_bind {A B} (m : M S A) (f : A → M S B) :
  Moves m → (∀ a, Moves (f a)) → Moves (m ≫= f).
Proof.
  intros Hm Hf e HI Hst. specialize (Hm e HI Hst). unfold mbind, M_bind.
  destruct (m e) as [[a|x] e']; [|done]. destruct Hm as (Ht' & HI' & HR & Hs).
  destruct (Hf a e' HI') as (? & ? & ? & ?); [by eapply relies_suffix|].
  split_and!; [by eapply same_mode_trans|done|by etrans|by etrans].
Qed.

#[export] Instance moves_catch {A} (m : M S A) (h : exn → option (M S A)) :
  Moves m → (∀ x k, h x = Some k → Moves k) → Moves (catch m h).
Proof.
  intros Hm Hh e HI Hst. specialize (Hm e HI Hst). unfold catch.
  destruct (m e) as [[a|x] e']; [done|]. destruct (h x) as [k|] eqn:Hx; [|done].
  destruct Hm as (Ht' & HI' & HR & Hs).
  destruct (Hh x k Hx e' HI') as (? & ? & ? & ?); [by eapply relies_suffix|].
  split_and!; [by eapply same_mode_trans|done|by etrans|by etrans].
Qed.

#[export] Instance moves_catch_all {A} (m k : M S A) : Moves m → Moves k → Moves (catch_all m k).
Proof. intros. apply moves_catch; [done|]. by intros x k' [= <-]. Qed.

#[export] Instance moves_catch_db {A} (m k : M S A) : Moves m → Moves k → Moves (catch_db m k).
Proof. intros. apply moves_catch; [done|]. by intros [] k' [= <-]. Qed.

#[export] Instance moves_bind_result {A B} (m : M S (Result A)) (f : A → M S (Result B)) :
  Moves m → (∀ a, Moves (f a)) → Moves (bind_result m f).
Proof. intros. apply moves_bind; [done|]. intros []; [done|apply moves_ret]. Qed.

(** A transaction is opened outside of one. *)
Lemma moves_Run {A} d (func : M S (Result A)) : Moves func → Respects R I (Run d func).
Proof.
  intros Hf [s sch t cs]. cbn. intros -> HI Hst. unfold Run, Begin.
  pose proof (arrive_relies R I sch s HI Hst) as [HI' HR].
  assert (∀ sch1, sch1 `suffix_of` sch → ∃ o e',
    match func (mkEnv (arrive sch s) sch1 (InTx (arrive sch s) false) cs) with
    | (Raise _, e) => (Ret (Err d), rollbackQuietly e)
    | (Ret (Err er), e) => (Ret (Err er), rollbackQuietly e)
    | (Ret (Ok a), e) => match Commit e with
        | (true, e) => (Ret (Ok a), e)
        | (false, e) => (Ret (Err d), rollbackQuietly e) end
    end = (o, e') ∧
    tx e' = AutoCommit ∧ I (db e') ∧ R s (db e') ∧ schedule e' `suffix_of` sch) as Hbody.
  { intros sch1 Hsch1. pose proof (Hf (mkEnv (arrive sch s) sch1 (InTx (arrive sch s) false) cs) HI'
      (relies_suffix _ _ _ _ Hsch1 Hst)) as (Hmode & HI2 & HR2 & Hs2).
    destruct (func _) as [o [s2 sch2 t2 cs2]] eqn:E. cbn in *.
    assert (sch2 `suffix_of` sch) as Hs3 by (by etrans).
    destruct t2 as [|snap ab]; [done|]. subst snap.
    assert (R s s2) as HR3 by (by etrans).
    assert (sch2 = [] ∨ ∃ st sch3, sch2 = st :: sch3 ∧ sch3 `suffix_of` sch) as Hsch2.
    { destruct sch2 as [|st sch3]; [by left|right]. exists st, sch3. split; [done|].
      etrans; [|exact Hs3]. by apply suffix_cons_r. }
    destruct o as [[a|er]|x]; [|by eexists _, _..].
    unfold Commit, next_step. cbn.
    destruct Hsch2 as [->|([g fl] & sch3 & -> & Hs4)]; [destruct ab|destruct fl, ab];
      cbn; eexists _, _; (split; [reflexivity|]); by split_and!. }
  unfold next_step. destruct sch as [|[g []] sch]; cbn in *.
  - destruct (Hbody [] ltac:(done)) as (o & e' & -> & ?). done.
  - destruct (Hbody sch ltac:(by apply suffix_cons_r)) as (o & e' & -> & ?). done.
  - split_and!; [done..|by apply suffix_cons_r].
  - split_and!; [done..|by apply suffix_cons_r].
Qed.
End moves.

#[export] Instance respects_call_storage {S A} (R : S → S → Prop) `{!PreOrder R} I c
  (f : list StorageCall → A) : Respects R I (call_storage c f).
Proof. apply moves_respects. by apply moves_call. Qed.

(** Proves [Moves] by the instances, splitting the matches of the body. *)
Ltac solve_moves :=
  repeat first
    [ assumption | typeclasses eauto
    | progress intros
    | apply moves_bind | apply moves_bind_result
    | apply moves_catch_all | apply moves_catch_db
    | match goal with |- Moves _ _ (match ?x with _ => _ end) => destruct x end ].

Ltac solve_respects :=
  repeat first
    [ assumption | apply _
    | progress intros
    | apply respects_bind | apply respects_bind_result
    | apply respects_catch_all | apply respects_catch_db
    | match goal with |- Respects _ _ (match ?x with _ => _ end) => destruct x end ].
