(* ===== verification/Awaiter.v ===== *)
(** * The transaction awaiters

    [BeginAwaiter] and [CommitAwaiter] of
    [src/src/services/TransactionRunner.hpp] bridge a callback of the database
    client and a coroutine: the callback may run on another thread, or inside
    [await_suspend] itself, before or after the coroutine has suspended.  Both use
    the same three-valued atomic.  The two parties are modelled as programs whose
    atomic actions interleave freely. *)

From S2P Require Import Prelude.

(** The values of [m_state]. *)
Inductive AwaiterState := INITIALIZING | SUSPENDED | COMPLETED.

#[global] Instance AwaiterState_eq_dec : EqDecision AwaiterState.
Proof. solve_decision. Defined.

(** [compare_exchange_strong]: whether it exchanged, the value it read, and the
    value it leaves. *)
Definition compare_exchange_strong (state expected desired : AwaiterState)
  : bool * AwaiterState * AwaiterState :=
  if decide (state = expected) then (true, expected, desired) else (false, state, state).

(** Where the callback is: it has not been called, it has stored the result, it
    has run its compare-exchange and returned. *)
Inductive CallbackPc := CbStore | CbExchange | CbReturned.

(** Where the coroutine is: in [await_suspend] before its compare-exchange, or out
    of it, suspended or not. *)
Inductive SuspendPc := SuspendExchange | Suspended | NotSuspended.

Section awaiter.
Context {A : Type}.

Record Awaiter := mkAwaiter {
  m_state : AwaiterState;
  m_result : option A;
  callback : CallbackPc;
  suspend : SuspendPc;
  resumed : list (option A)
}.

(** [await_resume] hands the stored result to the coroutine: each resumption is
    logged with what it reads. *)
Definition await_resume (a : Awaiter) : Awaiter :=
  mkAwaiter (m_state a) (m_result a) (callback a) (suspend a) (m_result a :: resumed a).

(** The callback: store the result, then exchange, then resume if the coroutine is
    suspended. *)
Definition callback_step (result : A) (a : Awaiter) : option Awaiter :=
  match callback a with
  | CbStore => Some (mkAwaiter (m_state a) (Some result) CbExchange (suspend a) (resumed a))
  | CbExchange =>
      let '(exchanged, expected, state) :=
        compare_exchange_strong (m_state a) INITIALIZING COMPLETED in
      let a := mkAwaiter state (m_result a) CbReturned (suspend a) (resumed a) in
      if exchanged then Some a
      else if decide (expected = SUSPENDED) then Some (await_resume a) else Some a
  | CbReturned => None
  end.

(** The tail of [await_suspend]: returning [false] resumes at once. *)
Definition await_suspend_step (a : Awaiter) : option Awaiter :=
  match suspend a with
  | SuspendExchange =>
      let '(exchanged, _, state) :=
        compare_exchange_strong (m_state a) INITIALIZING SUSPENDED in
      if exchanged then Some (mkAwaiter state (m_result a) (callback a) Suspended (resumed a))
      else Some (await_resume (mkAwaiter state (m_result a) (callback a) NotSuspended (resumed a)))
  | _ => None
  end.

(** Any interleaving of the two parties; [result] is what the client reports. *)
Inductive awaiter_step (result : A) (a : Awaiter) : Awaiter → Prop :=
  | CallbackStep a' : callback_step result a = Some a' → awaiter_step result a a'
  | SuspendStep a' : await_suspend_step a = Some a' → awaiter_step result a a'.

Definition initial_awaiter : Awaiter :=
  mkAwaiter INITIALIZING None CbStore SuspendExchange [].

(** No party can move. *)
Definition awaiter_stuck (result : A) (a : Awaiter) : Prop :=
  callback_step result a = None ∧ await_suspend_step a = None.

(** The states an interleaving can reach. *)
Definition awaiter_inv (result : A) (a : Awaiter) : Prop :=
  match callback a, suspend a with
  | CbStore, SuspendExchange => m_state a = INITIALIZING ∧ resumed a = []
  | CbExchange, SuspendExchange =>
      m_state a = INITIALIZING ∧ m_result a = Some result ∧ resumed a = []
  | CbReturned, SuspendExchange =>
      m_state a = COMPLETED ∧ m_result a = Some result ∧ resumed a = []
  | CbStore, Suspended => m_state a = SUSPENDED ∧ resumed a = []
  | CbExchange, Suspended => m_state a = SUSPENDED ∧ m_result a = Some result ∧ resumed a = []
  | CbReturned, Suspended | CbReturned, NotSuspended => resumed a = [Some result]
  | _, NotSuspended => False
  end.

Lemma awaiter_inv_step result a a' :
  awaiter_inv result a → awaiter_step result a a' → awaiter_inv result a'.
Proof.
  destruct a as [st r cb su log]. unfold awaiter_inv. cbn.
  intros Hinv Hs. destruct Hs as [a' Hs|a' Hs]; unfold callback_step, await_suspend_step,
    compare_exchange_strong in Hs; cbn in Hs; destruct cb, su; try done;
    destruct_and?; subst; cbn in Hs; simplify_eq/=; done.
Qed.

Lemma awaiter_inv_reachable result a :
  rtc (awaiter_step result) initial_awaiter a → awaiter_inv result a.
Proof.
  intros Hr. assert (awaiter_inv result initial_awaiter) as Hi by done. revert Hi.
  induction Hr; eauto using awaiter_inv_step.
Qed.

(** ** Properties *)

(** Whatever the interleaving of the database callback and the suspending
    coroutine, the coroutine is resumed at most once and only with the reported
    result, and when neither party can move it has been resumed: no wake-up is
    lost or duplicated. *)
Lemma awaiter_resumes_once result a :
  rtc (awaiter_step result) initial_awaiter a →
  (resumed a = [] ∨ resumed a = [Some result]) ∧
  (awaiter_stuck result a → resumed a = [Some result]).
Proof.
  intros Hi%awaiter_inv_reachable. destruct a as [st r cb su log].
  unfold awaiter_inv, awaiter_stuck, callback_step, await_suspend_step in *. cbn in *.
  destruct cb, su; destruct_and?; subst; cbn in *; try done; split; auto; by intros [??].
Qed.
End awaiter.

Arguments Awaiter : clear implicits.

Lemma awaiter_resumes_once_witness :
  ∃ a : Awaiter Z, rtc (awaiter_step 5) initial_awaiter a ∧ resumed a = [Some 5].
Proof.
  exists (mkAwaiter SUSPENDED (Some 5) CbReturned Suspended [Some 5]).
  assert (rtc (awaiter_step 5) initial_awaiter
    (mkAwaiter SUSPENDED (Some 5) CbReturned Suspended [Some 5])) as Hr.
  { eapply rtc_l; [by eapply CallbackStep|]. eapply rtc_l; [by eapply SuspendStep|].
    eapply rtc_l; [by eapply CallbackStep|]. apply rtc_refl. }
  split; [exact Hr|]. apply (awaiter_resumes_once 5 _ Hr). done.
Defined.
