(* ===== verification/UploadState.v ===== *)
(** * Upload task state machine

    The pure rules of [src/src/services/UploadStateMachine.cpp]: the states of an
    upload task, their storage values and names, and what a finalize or cancel
    request does in each of them. *)

From S2P Require Import Prelude.

Local Open Scope string_scope.

(** [enum class UploadTaskStatus : int16_t]. *)
Inductive UploadTaskStatus :=
  | InProgress
  | Completed
  | Cancelled
  | Expired
  | Finalizing
  | Failed.

#[global] Instance UploadTaskStatus_eq_dec : EqDecision UploadTaskStatus.
Proof. solve_decision. Defined.

(** [enum class FinalizeRequestAction]. *)
Inductive FinalizeRequestAction :=
  | ClaimLease
  | TakeOverExpiredLease
  | RetryLater
  | ReplayCompleted
  | RejectTerminalFinalize.

(** [enum class CancelRequestAction]. *)
Inductive CancelRequestAction :=
  | Cancel
  | ReplayCancelled
  | RejectConflict
  | RejectTerminalCancel.

(** [ToStorageValue(UploadTaskStatus)]. *)
Definition UploadToStorageValue (status : UploadTaskStatus) : Z :=
  match status with
  | InProgress => 0
  | Completed => 1
  | Cancelled => 2
  | Expired => 3
  | Finalizing => 4
  | Failed => 5
  end.

(** [UploadTaskStatusFromStorage]: a switch on the stored integer. *)
Definition UploadTaskStatusFromStorage (status : Z) : option UploadTaskStatus :=
  (if status =? UploadToStorageValue InProgress then Some InProgress
  else if status =? UploadToStorageValue Completed then Some Completed
  else if status =? UploadToStorageValue Cancelled then Some Cancelled
  else if status =? UploadToStorageValue Expired then Some Expired
  else if status =? UploadToStorageValue Finalizing then Some Finalizing
  else if status =? UploadToStorageValue Failed then Some Failed
  else None)%Z.

(** [UploadTaskStatusName]. *)
Definition UploadTaskStatusName (status : UploadTaskStatus) : string :=
  match status with
  | InProgress => "in_progress"
  | Completed => "completed"
  | Cancelled => "cancelled"
  | Expired => "expired"
  | Finalizing => "finalizing"
  | Failed => "failed"
  end.

(** [IsTerminalStatus]. *)
Definition IsTerminalStatus (status : UploadTaskStatus) : bool :=
  match status with
  | Completed | Cancelled | Expired | Failed => true
  | InProgress | Finalizing => false
  end.

(** [DecideFinalizeRequest]. *)
Definition DecideFinalizeRequest (current_status : Z) (lease_expired : bool)
  : FinalizeRequestAction :=
  match UploadTaskStatusFromStorage current_status with
  | None => RejectTerminalFinalize
  | Some InProgress => ClaimLease
  | Some Finalizing => if lease_expired then TakeOverExpiredLease else RetryLater
  | Some Completed => ReplayCompleted
  | Some (Cancelled | Expired | Failed) => RejectTerminalFinalize
  end.

(** [DecideCancelRequest]. *)
Definition DecideCancelRequest (current_status : Z) : CancelRequestAction :=
  match UploadTaskStatusFromStorage current_status with
  | None => RejectTerminalCancel
  | Some InProgress => Cancel
  | Some Cancelled => ReplayCancelled
  | Some (Finalizing | Completed) => RejectConflict
  | Some (Expired | Failed) => RejectTerminalCancel
  end.

(** ** The state machine as a relation

    The moves the decisions above, together with the expiry of a task that was
    never finalized, allow between two states. *)
Inductive transition : UploadTaskStatus → UploadTaskStatus → Prop :=
  | TrClaim : transition InProgress Finalizing
  | TrTakeOver : transition Finalizing Finalizing
  | TrComplete : transition Finalizing Completed
  | TrCancel : transition InProgress Cancelled
  | TrExpire : transition InProgress Expired.

Lemma from_storage_value st :
  UploadTaskStatusFromStorage (UploadToStorageValue st) = Some st.
Proof. by destruct st. Qed.

Lemma from_storage_Some z st :
  UploadTaskStatusFromStorage z = Some st ↔ z = UploadToStorageValue st.
Proof.
  split; [|intros ->; apply from_storage_value].
  unfold UploadTaskStatusFromStorage. intros Hz.
  repeat (case_match; case_bools; [by simplify_eq|]). done.
Qed.

Lemma UploadToStorageValue_inj st st' :
  UploadToStorageValue st = UploadToStorageValue st' → st = st'.
Proof. by destruct st, st'. Qed.

Lemma transition_not_terminal st st' : transition st st' → IsTerminalStatus st = false.
Proof. by destruct 1. Qed.

Lemma rtc_transition_terminal st st' :
  IsTerminalStatus st = true → rtc transition st st' → st' = st.
Proof.
  intros Ht Hr. inversion Hr as [|? ? ? Hs _]; subst; [done|].
  by rewrite (transition_not_terminal _ _ Hs) in Ht.
Qed.

#[export] Hint Resolve from_storage_value transition_not_terminal : disk.
