(* ===== verification/Json.v ===== *)
(** * JSON values

    The data model of the JSON documents the server stores and receives, and the
    type tests of [Json::Value] the source relies on.  A real number is a finite
    double: an integer mantissa times a power of two. *)

From S2P Require Import Prelude.

Inductive json :=
  | JNull
  | JBool (b : bool)
  | JInt (z : Z)
  | JReal (mantissa exponent : Z)
  | JString (s : string)
  | JArray (l : list json)
  | JObject (fields : list (string * json)).

(** The integer a number denotes, when it denotes one. *)
Definition json_integral (j : json) : option Z :=
  match j with
  | JInt z => Some z
  | JReal m e =>
      if 0 <=? e then Some (m * 2 ^ e)
      else if m mod 2 ^ (- e) =? 0 then Some (m / 2 ^ (- e)) else None
  | _ => None
  end.

Definition isString (j : json) : bool :=
  match j with JString _ => true | _ => false end.

Definition isUInt64 (j : json) : bool :=
  match json_integral j with
  | Some z => (0 <=? z) && (z <=? u64_max)
  | None => false
  end.

Definition asString (j : json) : string :=
  match j with JString s => s | _ => "" end.

Definition asUInt64 (j : json) : Z :=
  match json_integral j with Some z => z | None => 0 end.

Definition isObject (j : json) : bool :=
  match j with JObject _ => true | _ => false end.

(** Number of members of an object or elements of an array. *)
Definition json_size (j : json) : Z :=
  match j with
  | JObject fs => Z.of_nat (length fs)
  | JArray l => Z.of_nat (length l)
  | _ => 0
  end.

(** [json[key]]: the member, or [null]. *)
Definition json_get (j : json) (key : string) : json :=
  match j with
  | JObject fs =>
      match List.find (λ kv, String.eqb kv.1 key) fs with
      | Some (_, v) => v
      | None => JNull
      end
  | _ => JNull
  end.

(** ** Conversions of jsoncpp

    [Json::Value::find], [get] and the [as...] conversions throw a logic error on a
    value of the wrong type: [None]. *)

(** [find]: only objects and [null] have members. *)
Definition json_find (j : json) (key : string) : option (option json) :=
  match j with
  | JObject fs => Some (snd <$> List.find (λ kv, String.eqb kv.1 key) fs)
  | JNull => Some None
  | _ => None
  end.

(** [get(key, default)]. *)
Definition json_member (j : json) (key : string) (default_value : json) : option json :=
  default default_value <$> json_find j key.

Definition json_isMember (j : json) (key : string) : option bool :=
  (λ m : option json, match m with Some _ => true | None => false end) <$> json_find j key.

(** The integer part of a real number. *)
Definition real_truncated (m e : Z) : Z := if 0 <=? e then m * 2 ^ e else Z.quot m (2 ^ (- e)).

(** [asUInt] and [asUInt64] for the largest value [max]. *)
Definition json_to_unsigned (max : Z) (j : json) : option Z :=
  match j with
  | JNull => Some 0
  | JBool b => Some (Z.b2z b)
  | JInt z => if (0 <=? z) && (z <=? max) then Some z else None
  | JReal m e =>
      let z := real_truncated m e in
      if (0 <=? m) && (z <=? max) then Some z else None
  | _ => None
  end.
Definition json_asUInt64 : json → option Z := json_to_unsigned u64_max.
Definition json_asUInt : json → option Z := json_to_unsigned u32_max.

Definition json_asBool (j : json) : option bool :=
  match j with
  | JNull => Some false
  | JBool b => Some b
  | JInt z => Some (negb (z =? 0))
  | JReal m _ => Some (negb (m =? 0))
  | _ => None
  end.

(** [asString]; [real_text] is the text jsoncpp gives a real number. *)
Definition json_asString (real_text : Z → Z → string) (j : json) : option string :=
  match j with
  | JNull => Some ""%string
  | JString s => Some s
  | JBool b => Some (if b then "true" else "false")%string
  | JInt z => Some (to_string z)
  | JReal m e => Some (real_text m e)
  | _ => None
  end.

Definition isArray (j : json) : bool := match j with JArray _ => true | _ => false end.

(** The elements an iteration over a value visits. *)
Definition json_elements (j : json) : list json :=
  match j with JArray l => l | JObject fs => fs.*2 | _ => [] end.
