(* ===== verification/Schema.v ===== *)
(** * The database schema

    The tables of [src/sql/init.sql] the modelled services read and write, as
    finite maps from primary keys to rows, with the sequences that hand out
    primary keys and the clock [NOW()] reads (in microseconds).  A nullable
    column is an [option].  Columns no modelled statement reads are left out.
    [trash.item_data] is never [NULL] in the rows the server writes. *)

From S2P Require Import Prelude UploadState Json.

(** [users]. *)
Record UserRow := mkUserRow {
  u_storage_quota : Z;
  u_storage_used : Z;
  u_storage_reserved : Z
}.

(** [file_contents]. *)
Record ContentRow := mkContentRow {
  c_hash_md5 : string;
  c_hash_sha256 : string;
  c_size : Z;
  c_storage_path : string;
  c_mime_type : string;
  c_ref_count : Z
}.

(** [folders]. *)
Record FolderRow := mkFolderRow {
  d_user_id : Z;
  d_parent_id : Z;
  d_name : string;
  d_path : string;
  d_depth : Z;
  d_item_count : Z;
  d_created_at : Z;
  d_updated_at : Z
}.

(** [files]. *)
Record FileRow := mkFileRow {
  f_user_id : Z;
  f_content_id : Z;
  f_folder_id : Z;
  f_name : string;
  f_extension : string;
  f_size : Z;
  f_mime_type : string;
  f_path : string;
  f_is_favorite : Z;
  f_download_count : Z;
  f_created_at : Z;
  f_updated_at : Z
}.

(** [upload_tasks]. *)
Record UploadTaskRow := mkUploadTaskRow {
  t_user_id : Z;
  t_folder_id : Z;
  t_filename : string;
  t_file_size : Z;
  t_file_hash : string;
  t_chunk_size : Z;
  t_total_chunks : Z;
  t_reserved_bytes : Z;
  t_temp_path : string;
  t_staging_backend : string;
  t_staging_prefix : option string;
  t_status : Z;
  t_state_version : Z;
  t_lease_owner : option string;
  t_lease_expires_at : option Z;
  t_finalize_attempts : Z;
  t_last_error_code : option Z;
  t_last_error_at : option Z;
  t_completed_file_id : option Z;
  t_expires_at : Z;
  t_finalized_at : option Z;
  t_fail_reason : option string;
  t_created_at : Z
}.

(** [upload_task_chunks], keyed by [(task_id, chunk_index)]. *)
Record ChunkRow := mkChunkRow {
  k_size_bytes : option Z;
  k_hash_md5 : option string;
  k_object_key : option string;
  k_etag : option string;
  k_uploaded_at : Z
}.

(** [storage_jobs]. *)
Record JobRow := mkJobRow {
  j_job_type : string;
  j_aggregate_id : string;
  j_dedupe_key : string;
  j_payload : json;
  j_status : Z;
  j_attempts : Z;
  j_max_attempts : Z;
  j_available_at : Z;
  j_locked_by : option string;
  j_locked_until : option Z;
  j_last_error : option string;
  j_completed_at : option Z;
  j_created_at : Z
}.

(** [storage_reconciliation_findings], keyed by [(finding_type, resource_id)]. *)
Record FindingRow := mkFindingRow {
  g_resource_locator : option string;
  g_severity : Z;
  g_resolution_strategy : string;
  g_details : json;
  g_occurrences : Z;
  g_first_seen_at : Z;
  g_last_seen_at : Z;
  g_resolved_at : option Z
}.

(** [trash]. *)
Record TrashRow := mkTrashRow {
  x_user_id : Z;
  x_item_type : string;
  x_item_id : Z;
  x_item_name : string;
  x_item_size : Z;
  x_content_id : option Z;
  x_original_folder_id : Z;
  x_original_path : string;
  x_item_data : json;
  x_deleted_at : Z;
  x_expires_at : Z
}.

(** [shares]. *)
Record ShareRow := mkShareRow {
  s_share_code : string;
  s_user_id : Z;
  s_password_hash : option string;
  s_permission : string;
  s_view_count : Z;
  s_download_count : Z;
  s_status : Z;
  s_expires_at : option Z;
  s_created_at : Z;
  s_updated_at : Z
}.

(** [share_files]. *)
Record ShareFileRow := mkShareFileRow {
  sf_share_id : Z;
  sf_item_type : string;
  sf_item_id : Z;
  sf_created_at : Z
}.

(** [operation_logs]; rows are only added. *)
Record OperationLogRow := mkOperationLogRow {
  o_user_id : option Z;
  o_action : string;
  o_target_type : option string;
  o_target_id : option Z;
  o_target_name : option string;
  o_details : option json;
  o_ip_address : string;
  o_user_agent : option string;
  o_created_at : Z
}.

Record Database := mkDatabase {
  users : gmap Z UserRow;
  file_contents : gmap Z ContentRow;
  folders : gmap Z FolderRow;
  files : gmap Z FileRow;
  upload_tasks : gmap string UploadTaskRow;
  upload_task_chunks : gmap (string * Z) ChunkRow;
  storage_jobs : gmap Z JobRow;
  storage_reconciliation_findings : gmap (string * string) FindingRow;
  trash : gmap Z TrashRow;
  shares : gmap Z ShareRow;
  share_files : gmap Z ShareFileRow;
  operation_logs : list OperationLogRow;
  folders_id_seq : Z;
  file_contents_id_seq : Z;
  files_id_seq : Z;
  storage_jobs_id_seq : Z;
  trash_id_seq : Z;
  shares_id_seq : Z;
  share_files_id_seq : Z;
  now : Z
}.

(** The database after the schema was created, at time [t]. *)
Definition empty_db (t : Z) : Database := mkDatabase ∅ ∅ ∅ ∅ ∅ ∅ ∅ ∅ ∅ ∅ ∅ [] 1 1 1 1 1 1 1 t.

(** The [CHECK] constraints of [upload_tasks]. *)
Definition check_upload_task (t : UploadTaskRow) : bool :=
  (0 <=? t_status t) && (t_status t <=? 5) &&
  ((t_staging_backend t =? "local") || (t_staging_backend t =? "s3"))%string &&
  (0 <=? t_reserved_bytes t) && (0 <=? t_state_version t) &&
  (0 <=? t_finalize_attempts t) &&
  (negb (t_staging_backend t =? "s3")%string ||
   match t_staging_prefix t with Some _ => true | None => false end) &&
  (if t_status t =? 4
   then match t_lease_owner t, t_lease_expires_at t with
        | Some _, Some _ => true | _, _ => false end
   else match t_lease_owner t, t_lease_expires_at t with
        | None, None => true | _, _ => false end) &&
  match t_completed_file_id t with Some _ => t_status t =? 1 | None => true end.

(** The [CHECK] constraints of [storage_jobs]. *)
Definition check_storage_job (j : JobRow) : bool :=
  (0 <=? j_status j) && (j_status j <=? 4) &&
  (0 <=? j_attempts j) && (0 <? j_max_attempts j) &&
  (if j_status j =? 1
   then match j_locked_by j, j_locked_until j with
        | Some _, Some _ => true | _, _ => false end
   else match j_locked_by j, j_locked_until j with
        | None, None => true | _, _ => false end).

(** The unique constraint [uk_storage_jobs_dedupe_key]. *)
Definition find_job_by_dedupe_key (key : string) (d : Database) : option (Z * JobRow) :=
  find_row (λ _ j, (j_dedupe_key j =? key)%string) (storage_jobs d).

(** The unique constraint [uk_file_contents_hash]. *)
Definition find_content_by_hashes (md5 sha256 : string) (d : Database)
  : option (Z * ContentRow) :=
  find_row (λ _ c, (c_hash_md5 c =? md5) && (c_hash_sha256 c =? sha256))%string
    (file_contents d).

(** Unique and foreign key constraints the statements rely on, as invariants. *)
Definition unique_dedupe_keys (d : Database) : Prop :=
  ∀ i i' j j', storage_jobs d !! i = Some j → storage_jobs d !! i' = Some j' →
    j_dedupe_key j = j_dedupe_key j' → i = i'.

Definition fresh_job_ids (d : Database) : Prop :=
  ∀ i j, storage_jobs d !! i = Some j → i < storage_jobs_id_seq d.
