(* ===== verification/Batch.v ===== *)
(** * Batches of rows

    [src/src/utils/BatchUtils.hpp]: long lists of identifiers are split into batches,
    and a batch becomes the [IN] clause of a statement. *)

From S2P Require Import Prelude.

Definition DEFAULT_BATCH_CHUNK_SIZE : nat := 500.

(** The loop of [Chunk] from index [i]; [None] when the fuel runs out. *)
Fixpoint chunk_loop {T} (fuel : nat) (items : list T) (chunk_size i : nat)
  : option (list (list T)) :=
  match fuel with
  | O => None
  | S fuel =>
      if Nat.ltb i (length items) then
        let last := Nat.min (i + chunk_size) (length items) in
        chunks ← chunk_loop fuel items chunk_size (i + chunk_size);
        Some (take (last - i) (drop i items) :: chunks)
      else Some []
  end.

(** Each turn advances by [chunk_size]: the length and one more turn are enough. *)
Definition Chunk {T} (items : list T) (chunk_size : nat) : option (list (list T)) :=
  chunk_loop (S (length items)) items chunk_size 0.

(** [Chunk] with its default size. *)
Definition Chunks {T} (items : list T) : list (list T) :=
  default [] (Chunk items DEFAULT_BATCH_CHUNK_SIZE).

Open Scope string_scope.

Fixpoint placeholders_loop (n : nat) (index : Z) : string :=
  match n with
  | O => ""
  | S n => ",$" ++ to_string (u64 index) ++ placeholders_loop n (index + 1)
  end.

Definition BuildInPlaceholders (count : nat) (start_index : Z) : string :=
  match count with
  | O => ""
  | S n => "$" ++ to_string start_index ++ placeholders_loop n (start_index + 1)
  end.

Fixpoint in_clause_loop (i : nat) (ids : list Z) : string :=
  match ids with
  | [] => ""
  | id :: ids => (if Nat.ltb 0 i then "," else "") ++ to_string id ++ in_clause_loop (S i) ids
  end.

Definition BuildSafeNumericInClause (ids : list Z) : string :=
  match ids with [] => "" | _ => in_clause_loop 0 ids end.

(** ** Lemmas *)

Lemma chunk_loop_spec {T} (items : list T) size fuel i : (0 < size)%nat →
  (length items - i < fuel)%nat → ∃ chunks,
    chunk_loop fuel items size i = Some chunks ∧
    concat chunks = drop i items ∧
    Forall (λ c, (1 <= length c <= size)%nat) chunks ∧
    ∀ k c, chunks !! k = Some c → c = take size (drop (i + k * size) items).
Proof.
  intros Hs. revert i. induction fuel as [|fuel IH]; intros i Hf; [lia|]. simpl.
  destruct (Nat.ltb_spec i (length items)) as [Hi|Hi].
  - destruct (IH (i + size)%nat) as (chunks & -> & Hc & HF & Hk); [lia|]. simpl.
    assert (take (Nat.min (i + size) (length items) - i) (drop i items) =
            take size (drop i items)) as ->.
    { destruct (decide (i + size <= length items)%nat).
      - by replace (Nat.min (i + size) (length items) - i)%nat with size by lia.
      - rewrite !take_ge; [done|rewrite length_drop; lia..]. }
    eexists. split; [done|]. split_and!.
    + simpl. by rewrite Hc, <- drop_drop, take_drop.
    + constructor; [rewrite length_take, length_drop; lia|done].
    + intros [|k] c; simpl; [intros [= <-]; by rewrite Nat.add_0_r|].
      intros E. rewrite (Hk _ _ E). do 2 f_equal. lia.
  - exists []. by rewrite drop_ge.
Qed.

Lemma chunk_loop_stuck {T} (items : list T) fuel :
  items ≠ [] → chunk_loop fuel items 0 0 = None.
Proof.
  intros Hne. induction fuel as [|fuel IH]; [done|]. simpl.
  destruct items; [done|]. simpl. by rewrite IH.
Qed.

Lemma Chunks_concat {T} (items : list T) : concat (Chunks items) = items.
Proof.
  unfold Chunks, Chunk.
  destruct (chunk_loop_spec items DEFAULT_BATCH_CHUNK_SIZE (S (length items)) 0)
    as (chunks & -> & H & _); [unfold DEFAULT_BATCH_CHUNK_SIZE; lia|lia|done].
Qed.

Definition comma : Ascii.ascii := Ascii.ascii_of_nat 44.

Definition is_digit (c : Ascii.ascii) : Prop := (48 <= Ascii.nat_of_ascii c <= 57)%nat.

(** The pieces of a text between its commas. *)
Fixpoint split_commas (s : string) : list string :=
  match s with
  | EmptyString => [""]
  | String a s =>
      if Ascii.eqb a comma then "" :: split_commas s
      else match split_commas s with
           | p :: ps => String a p :: ps
           | [] => [String a ""]
           end
  end.

Definition all_chars (P : Ascii.ascii → Prop) (s : string) : Prop :=
  Forall P (String.list_ascii_of_string s).

Lemma list_ascii_app s t : String.list_ascii_of_string (s ++ t) =
  (String.list_ascii_of_string s ++ String.list_ascii_of_string t)%list.
Proof. induction s as [|a s IH]; [done|]. exact (f_equal (cons a) IH). Qed.

Lemma pretty_N_digits n s : all_chars is_digit s → all_chars is_digit (pretty_N_go n s).
Proof.
  revert s. induction (N.lt_wf_0 n) as [n _ IH]. intros s Hs.
  destruct (decide (0 < n)%N); [|replace n with 0%N by lia; by rewrite pretty_N_go_0].
  rewrite pretty_N_go_step by done. apply IH; [apply N.div_lt; lia|].
  constructor; [|done]. unfold pretty_N_char, is_digit.
  pose proof (N.mod_upper_bound n 10). repeat case_match; vm_compute; lia.
Qed.

Lemma to_string_digits z : (0 <= z)%Z → all_chars is_digit (to_string z).
Proof.
  intros Hz. unfold to_string, pretty, pretty_Z. destruct z as [|p|p]; [|..|lia].
  - repeat constructor; vm_compute; lia.
  - apply pretty_N_digits. constructor.
Qed.

Lemma split_commas_app s t : all_chars is_digit s → split_commas (s ++ t) =
  match split_commas t with p :: ps => (s ++ p) :: ps | [] => [s] end.
Proof.
  intros Hs. assert (∀ t, split_commas t ≠ []) as Hne.
  { intros [|a u]; simpl; [done|]. repeat case_match; done. }
  induction s as [|a s IH]; [simpl; by destruct (split_commas t) eqn:E; [edestruct Hne|]|].
  apply Forall_cons in Hs as [Ha Hs].
  change (String a s ++ t) with (String a (s ++ t)). cbn [split_commas].
  destruct (Ascii.eqb_spec a comma) as [->|_]; [vm_compute in Ha; lia|].
  rewrite IH by done. by destruct (split_commas t) eqn:E; [edestruct Hne|].
Qed.

Lemma in_clause_split ids i : Forall (Z.le 0) ids → ids ≠ [] →
  split_commas (in_clause_loop i ids) =
  ((if Nat.ltb 0 i then [""] else []) ++ (to_string <$> ids))%list.
Proof.
  intros H. revert i. induction H as [|z ids Hz H IH]; intros i Hne; [done|].
  assert (split_commas (to_string z ++ in_clause_loop (S i) ids) = to_string <$> z :: ids) as E.
  { rewrite split_commas_app by by apply to_string_digits.
    destruct ids as [|z' ids]; [simpl|rewrite IH by done; simpl]; f_equal.
    - by induction (to_string z) as [|a s IHs]; [|exact (f_equal (String a) IHs)].
    - by induction (to_string z) as [|a s IHs]; [|exact (f_equal (String a) IHs)]. }
  cbn [in_clause_loop]. destruct (Nat.ltb 0 i); [exact (f_equal (cons "") E)|exact E].
Qed.

Lemma in_clause_chars ids i : Forall (Z.le 0) ids →
  all_chars (λ c, is_digit c ∨ c = comma) (in_clause_loop i ids).
Proof.
  intros H. revert i. induction H as [|z ids Hz H IH]; intros i; [constructor|].
  simpl. unfold all_chars. rewrite !list_ascii_app. apply Forall_app; split.
  - destruct (Nat.ltb 0 i); [|constructor]. constructor; [by right|constructor].
  - apply Forall_app; split; [|apply IH].
    eapply Forall_impl; [by apply to_string_digits|]. by left.
Qed.

(** ** Properties *)

(** Splitting a list into batches terminates for every positive batch size; the
    batches concatenate to the list, the [k]-th one is the [k]-th segment of that
    size, and none is empty or too long.  With batch size zero the loop of the code
    never ends on a list that is not empty. *)
Lemma chunk_partitions {T} (items : list T) size :
  ((0 < size)%nat → ∃ chunks, Chunk items size = Some chunks ∧ concat chunks = items ∧
     Forall (λ c, (1 <= length c <= size)%nat) chunks ∧
     ∀ k c, chunks !! k = Some c → c = take size (drop (k * size) items)) ∧
  (items ≠ [] → ∀ fuel, chunk_loop fuel items 0 0 = None).
Proof.
  split; [|intros ? fuel; by apply chunk_loop_stuck].
  intros Hs. destruct (chunk_loop_spec items size (S (length items)) 0)
    as (chunks & H & Hc & HF & Hk); [done|lia|]. by exists chunks.
Qed.

Lemma chunk_partitions_witness :
  ∃ chunks, Chunk [1; 2; 3; 4; 5; 6; 7; 8; 9; 10]%Z 3 = Some chunks ∧
    chunks !! 3%nat = Some [10%Z].
Proof.
  destruct (proj1 (chunk_partitions [1; 2; 3; 4; 5; 6; 7; 8; 9; 10]%Z 3)) as (c & Hc & _);
    [lia|]. exists c. split; [done|]. vm_compute in Hc. by injection Hc as <-.
Defined.

(** The text spliced into a statement for a list of identifiers contains only
    digits and commas, and reading it back at the commas gives exactly the decimal
    numerals of the identifiers, in order. *)
Lemma in_clause_lists_ids ids : Forall (Z.le 0) ids → ids ≠ [] →
  all_chars (λ c, is_digit c ∨ c = comma) (BuildSafeNumericInClause ids) ∧
  split_commas (BuildSafeNumericInClause ids) = to_string <$> ids.
Proof.
  intros H Hne. unfold BuildSafeNumericInClause. destruct ids as [|z ids]; [done|].
  split; [by apply in_clause_chars|]. by rewrite in_clause_split.
Qed.

Lemma in_clause_lists_ids_witness :
  split_commas (BuildSafeNumericInClause [12; 0; 345]%Z) = ["12"; "0"; "345"].
Proof.
  destruct (in_clause_lists_ids [12; 0; 345]%Z) as [_ ->];
    [repeat constructor; lia|done|reflexivity].
Defined.
