(* ===== verification/Names.v ===== *)
(** * Names, paths and search keywords

    [src/src/utils/NameValidation.hpp]: which byte strings are acceptable names.
    [src/src/services/FileServiceUtils.cpp]: extensions, paths, search keywords and
    the deterministic [ORDER BY] clause of the listings. *)

From S2P Require Import Prelude.

(** ** UTF-8 validation *)

(** The payload bits of a lead byte and the number of continuation bytes. *)
Definition lead_byte (lead : Z) : option (Z * nat) :=
  if lead <=? 0x7F then Some (lead, 0%nat)
  else if (0xC2 <=? lead) && (lead <=? 0xDF) then Some (Z.land lead 0x1F, 1%nat)
  else if (0xE0 <=? lead) && (lead <=? 0xEF) then Some (Z.land lead 0x0F, 2%nat)
  else if (0xF0 <=? lead) && (lead <=? 0xF4) then Some (Z.land lead 0x07, 3%nat)
  else None.

(** The loop over the continuation bytes. *)
Fixpoint continuations (l : list Z) (code_point : Z) : option Z :=
  match l with
  | [] => Some code_point
  | c :: l =>
      if negb (Z.land c 0xC0 =? 0x80) then None
      else continuations l (Z.lor (Z.shiftl code_point 6) (Z.land c 0x3F))
  end.

(** The tests on a decoded code point. *)
Definition rejected (sequence_length : nat) (code_point : Z) : bool :=
  (Nat.eqb sequence_length 2 && (code_point <? 0x80)) ||
  (Nat.eqb sequence_length 3 && (code_point <? 0x800)) ||
  (Nat.eqb sequence_length 4 && (code_point <? 0x10000)) ||
  (((0xD800 <=? code_point) && (code_point <=? 0xDFFF)) || (0x10FFFF <? code_point)) ||
  ((code_point <=? 0x1F) || ((0x7F <=? code_point) && (code_point <=? 0x9F))).

(** The outer loop on the bytes from [index] on.  Each turn consumes at least one
    byte, so fuel of one more than the length is enough. *)
Fixpoint scan (fuel : nat) (value : list Z) : bool :=
  match fuel, value with
  | O, _ => false
  | S _, [] => true
  | S fuel, lead :: rest =>
      match lead_byte lead with
      | None => false
      | Some (code_point, extra) =>
          if Nat.ltb (length rest) extra then false
          else match continuations (take extra rest) code_point with
               | None => false
               | Some code_point =>
                   if rejected (S extra) code_point then false
                   else scan fuel (drop extra rest)
               end
      end
  end.

Definition IsValidUtf8WithoutControlChars (value : string) : bool :=
  let bytes := bytes_of_string value in scan (S (length bytes)) bytes.

(** The bytes of [/ \ : * ? ], the double quote, [< > |]. *)
Definition FORBIDDEN_CHARS : list Z := [47; 92; 58; 42; 63; 34; 60; 62; 124].

Definition HasForbiddenDriveItemChars (value : string) : bool :=
  existsb (λ byte, (byte <=? 0x1F) || bool_decide (byte ∈ FORBIDDEN_CHARS))
    (bytes_of_string value).

(** ** Extensions and paths *)

Open Scope string_scope.

(** [std::string::rfind] of one character. *)
Fixpoint rfind (c : Ascii.ascii) (s : string) : option nat :=
  match s with
  | EmptyString => None
  | String a s =>
      match rfind c s with
      | Some n => Some (S n)
      | None => if Ascii.eqb a c then Some O else None
      end
  end.

(** [std::string::substr(pos)]. *)
Fixpoint substr (pos : nat) (s : string) : string :=
  match pos, s with
  | O, _ => s
  | S n, String _ s => substr n s
  | S _, EmptyString => EmptyString
  end.

Definition dot : Ascii.ascii := Ascii.ascii_of_nat 46.
Definition space : Ascii.ascii := Ascii.ascii_of_nat 32.

Definition ExtractFileExtension (filename : string) : string :=
  match rfind dot filename with
  | None => ""
  | Some pos =>
      if Nat.eqb pos (String.length filename - 1) then "" else substr (pos + 1) filename
  end.

Definition BuildFilePath (folder_path filename : string) : string :=
  if String.eqb folder_path "/" then "/" ++ filename else folder_path ++ filename.

Definition BuildFolderPath (parent_path name : string) : string :=
  if String.eqb parent_path "/" then "/" ++ name ++ "/" else parent_path ++ name ++ "/".

(** ** Search keywords

    Text under construction is kept as the list of its characters, last first. *)

(** The loop of [NormalizeFulltextKeyword]. *)
Fixpoint normalize_loop (keyword : list Ascii.ascii) (previous_is_space : bool)
    (normalized : list Ascii.ascii) : list Ascii.ascii :=
  match keyword with
  | [] => normalized
  | ch :: keyword =>
      if Ascii.eqb ch space then
        normalize_loop keyword true
          (if negb previous_is_space then space :: normalized else normalized)
      else normalize_loop keyword false (ch :: normalized)
  end.

(** [pop_back] when the text ends with a space. *)
Definition pop_space (normalized : list Ascii.ascii) : list Ascii.ascii :=
  match normalized with
  | c :: l => if Ascii.eqb c space then l else normalized
  | [] => []
  end.

Definition NormalizeFulltextKeyword (keyword : string) : string :=
  String.string_of_list_ascii
    (rev (pop_space (normalize_loop (String.list_ascii_of_string keyword) true []))).

Definition is_ascii_alnum (c : Ascii.ascii) : bool :=
  let n := Z.of_nat (Ascii.nat_of_ascii c) in
  (((48 <=? n) && (n <=? 57)) || ((65 <=? n) && (n <=? 90)) || ((97 <=? n) && (n <=? 122)))%Z.

Definition IsFulltextEligible (keyword : string) : bool :=
  let normalized := String.list_ascii_of_string (NormalizeFulltextKeyword keyword) in
  if Nat.ltb (length normalized) 3 then false
  else if existsb (λ ch, (127 <? Z.of_nat (Ascii.nat_of_ascii ch))%Z ||
                         (negb (is_ascii_alnum ch) && negb (Ascii.eqb ch space))) normalized
  then false
  else existsb (λ ch, negb (Ascii.eqb ch space)) normalized.

Definition BuildDeterministicOrderByClause (primary_column direction : string)
    (include_type : bool) (prefix : string) : string :=
  let QualifyColumn column := if str_empty prefix then column else prefix ++ column in
  QualifyColumn primary_column ++ " " ++ direction ++
  (if negb (String.eqb primary_column "name")
   then ", " ++ QualifyColumn "name" ++ " " ++ direction else "") ++
  (if include_type then ", " ++ QualifyColumn "type" ++ " " ++ direction else "") ++
  ", " ++ QualifyColumn "id" ++ " " ++ direction.

(** ** Lemmas: UTF-8 *)

Local Close Scope string_scope.

(** The reference encoder of a code point. *)
Definition utf8_encode (cp : Z) : list Z :=
  if cp <? 0x80 then [cp]
  else if cp <? 0x800 then [0xC0 + cp / 64; 0x80 + cp mod 64]
  else if cp <? 0x10000 then [0xE0 + cp / 4096; 0x80 + cp / 64 mod 64; 0x80 + cp mod 64]
  else [0xF0 + cp / 262144; 0x80 + cp / 4096 mod 64; 0x80 + cp / 64 mod 64; 0x80 + cp mod 64].

(** The characters a name may contain: no control characters, no surrogates. *)
Definition name_char (cp : Z) : Prop :=
  0x20 <= cp <= 0x10FFFF ∧ ¬ (0x7F <= cp <= 0x9F) ∧ ¬ (0xD800 <= cp <= 0xDFFF).

Definition is_byte (b : Z) : Prop := 0 <= b < 256.

Lemma bytes_of_string_byte s : Forall is_byte (bytes_of_string s).
Proof.
  unfold bytes_of_string. apply Forall_fmap, Forall_true. intros c. unfold compose, is_byte.
  pose proof (Ascii.nat_ascii_bounded c). lia.
Qed.

Lemma continuation_step cp c : 0 <= cp →
  Z.lor (Z.shiftl cp 6) (Z.land c 0x3F) = cp * 64 + c mod 64.
Proof.
  intros Hcp. change 0x3F with (Z.ones 6). rewrite Z.land_ones by lia.
  change 64 with (2 ^ 6). rewrite <- Z.shiftl_mul_pow2 by lia.
  assert (Z.land (Z.shiftl cp 6) (c mod 2 ^ 6) = 0) as H0;
    [|rewrite <- Z.add_lor_land, H0; lia].
  apply Z.bits_inj'. intros n Hn. rewrite Z.land_spec, Z.bits_0.
  destruct (decide (n < 6)).
  - by rewrite Z.shiftl_spec_low.
  - by rewrite Z.mod_pow2_bits_high, andb_false_r by lia.
Qed.

Lemma continuation_byte c : is_byte c →
  (Z.land c 0xC0 =? 0x80) = ((0x80 <=? c) && (c <=? 0xBF)).
Proof.
  intros Hc.
  assert (forallb (λ c, Bool.eqb (Z.land c 0xC0 =? 0x80) ((0x80 <=? c) && (c <=? 0xBF)))
    (seqZ 0 256) = true) as H by (vm_compute; reflexivity).
  rewrite List.forallb_forall in H. apply Bool.eqb_prop, H, list_elem_of_In, elem_of_seqZ.
  unfold is_byte in Hc. lia.
Qed.

Lemma land_ones_mod x k : 0 <= k → Z.land x (Z.ones k) = x mod 2 ^ k.
Proof. apply Z.land_ones. Qed.

(** The continuation bytes of a code point, most significant first. *)
Lemma continuations_cons c l cp cp' : is_byte c → 0 <= cp →
  continuations (c :: l) cp = Some cp' ↔
  (0x80 <= c <= 0xBF ∧ continuations l (cp * 64 + c mod 64) = Some cp').
Proof.
  intros Hc Hcp. simpl. rewrite continuation_byte, continuation_step by done.
  destruct (_ && _) eqn:E; simpl; [case_bools; naive_solver|].
  split; [done|]. intros [? _]. apply andb_false_iff in E as [|]; case_bools; lia.
Qed.

Lemma rejected_false n cp : rejected n cp = false ↔
  name_char cp ∧ (n = 2%nat → 0x80 <= cp) ∧ (n = 3%nat → 0x800 <= cp) ∧
  (n = 4%nat → 0x10000 <= cp).
Proof.
  unfold rejected, name_char. rewrite !orb_false_iff, !andb_false_iff, !Nat.eqb_neq, !Z.ltb_ge,
    !Z.leb_gt. lia.
Qed.

Lemma lead_byte_spec b : is_byte b →
  (b <= 0x7F ∧ lead_byte b = Some (b, 0%nat)) ∨
  (0xC2 <= b <= 0xDF ∧ lead_byte b = Some (b - 0xC0, 1%nat)) ∨
  (0xE0 <= b <= 0xEF ∧ lead_byte b = Some (b - 0xE0, 2%nat)) ∨
  (0xF0 <= b <= 0xF4 ∧ lead_byte b = Some (b - 0xF0, 3%nat)) ∨
  ((0x80 <= b <= 0xC1 ∨ 0xF5 <= b) ∧ lead_byte b = None).
Proof.
  intros Hb. unfold lead_byte, is_byte in *.
  change 0x1F with (Z.ones 5). change 0x0F with (Z.ones 4). change 0x07 with (Z.ones 3).
  rewrite !land_ones_mod by lia.
  repeat match goal with
  | |- context [?x <=? ?y] => destruct (Z.leb_spec x y); simpl
  end; try lia; [left | right; left | do 2 right; left | do 3 right; left | do 4 right..];
    (split; [lia|]); try done; do 2 f_equal; Z.to_euclidean_division_equations; lia.
Qed.

Lemma continuation_mod c : 0x80 <= c <= 0xBF → c mod 64 = c - 0x80.
Proof. intros. Z.to_euclidean_division_equations. lia. Qed.

(** The four shapes of an encoding. *)
Lemma utf8_encode_spec cp v : 0 <= cp <= 0x10FFFF →
  v = utf8_encode cp ↔
  (cp < 0x80 ∧ v = [cp]) ∨
  (0x80 <= cp < 0x800 ∧ ∃ b c, v = [b; c] ∧ 0x80 <= c <= 0xBF ∧
     cp = (b - 0xC0) * 64 + (c - 0x80)) ∨
  (0x800 <= cp < 0x10000 ∧ ∃ b c d, v = [b; c; d] ∧ 0x80 <= c <= 0xBF ∧ 0x80 <= d <= 0xBF ∧
     cp = ((b - 0xE0) * 64 + (c - 0x80)) * 64 + (d - 0x80)) ∨
  (0x10000 <= cp ∧ ∃ b c d e, v = [b; c; d; e] ∧ 0x80 <= c <= 0xBF ∧ 0x80 <= d <= 0xBF ∧
     0x80 <= e <= 0xBF ∧
     cp = (((b - 0xF0) * 64 + (c - 0x80)) * 64 + (d - 0x80)) * 64 + (e - 0x80)).
Proof.
  intros Hcp. unfold utf8_encode.
  destruct (Z.ltb_spec cp 0x80); [|destruct (Z.ltb_spec cp 0x800);
    [|destruct (Z.ltb_spec cp 0x10000)]]; split.
  - by left.
  - intros [[_ ?]|[[? _]|[[? _]|[? _]]]]; [done|lia..].
  - intros ->. right; left. split; [lia|]. do 2 eexists. split_and!; [done|..];
      Z.to_euclidean_division_equations; lia.
  - intros [[? _]|[(_ & b & c & -> & ? & ->)|[[? _]|[? _]]]]; try lia.
    repeat f_equal; Z.to_euclidean_division_equations; lia.
  - intros ->. right; right; left. split; [lia|]. do 3 eexists. split_and!; [done|..];
      Z.to_euclidean_division_equations; lia.
  - intros [[? _]|[[? _]|[(_ & b & c & d & -> & ? & ? & ->)|[? _]]]]; try lia.
    repeat f_equal; Z.to_euclidean_division_equations; lia.
  - intros ->. do 3 right. split; [lia|]. do 4 eexists. split_and!; [done|..];
      Z.to_euclidean_division_equations; lia.
  - intros [[? _]|[[? _]|[[? _]|(_ & b & c & d & e & -> & ? & ? & ? & ->)]]]; try lia.
    repeat f_equal; Z.to_euclidean_division_equations; lia.
Qed.

(** One turn of the loop, on what the lead byte announced. *)
Definition turn (fuel : nat) (cp : Z) (extra : nat) (rest : list Z) : bool :=
  if Nat.ltb (length rest) extra then false
  else match continuations (take extra rest) cp with
       | None => false
       | Some code_point =>
           if rejected (S extra) code_point then false else scan fuel (drop extra rest)
       end.

Lemma turn_true fuel cp extra rest :
  turn fuel cp extra rest = true ↔ ∃ cs cp' rest', rest = cs ++ rest' ∧ length cs = extra ∧
    continuations cs cp = Some cp' ∧ rejected (S extra) cp' = false ∧ scan fuel rest' = true.
Proof.
  unfold turn. split.
  - destruct (Nat.ltb_spec (length rest) extra); [done|].
    destruct (continuations _ _) eqn:Hc; [|done]. destruct (rejected _ _) eqn:Hr; [done|].
    intros Hs. exists (take extra rest), z, (drop extra rest).
    rewrite take_drop, length_take. split_and!; [done|lia|done..].
  - intros (cs & cp' & rest' & -> & <- & Hc & Hr & Hs).
    rewrite length_app, (proj2 (Nat.ltb_ge _ _)) by lia.
    by rewrite take_app_length, drop_app_length, Hc, Hr.
Qed.

Ltac byte_list :=
  repeat match goal with
  | H : Forall is_byte (_ :: _) |- _ => apply Forall_cons in H as [? H]
  | H : Forall is_byte (_ ++ _) |- _ => apply Forall_app in H as [? H]
  | H : length _ = O |- _ => apply nil_length_inv in H; subst
  | H : length ?l = S _ |- _ => destruct l; [discriminate H | injection H as H]
  end.

(** The continuation bytes [cs] extend [cp] to [cp']. *)
Lemma continuations_1 c cp cp' : is_byte c → 0 <= cp →
  continuations [c] cp = Some cp' ↔ 0x80 <= c <= 0xBF ∧ cp' = cp * 64 + (c - 0x80).
Proof.
  intros Hc Hcp. rewrite continuations_cons by done. simpl.
  split; intros [? H]; (split; [done|]).
  - injection H as <-. by rewrite continuation_mod.
  - by rewrite H, continuation_mod.
Qed.

Lemma continuations_more c l cp cp' : is_byte c → 0 <= cp →
  continuations (c :: l) cp = Some cp' ↔
  0x80 <= c <= 0xBF ∧ continuations l (cp * 64 + (c - 0x80)) = Some cp'.
Proof.
  intros Hc Hcp. rewrite continuations_cons by done.
  split; intros [? H]; (split; [done|]); [|by rewrite continuation_mod].
  by rewrite continuation_mod in H.
Qed.

(** A turn consumes exactly the encoding of one allowed character. *)
Lemma turn_encode fuel b v : is_byte b → Forall is_byte v →
  scan (S fuel) (b :: v) = true →
  ∃ cp rest, name_char cp ∧ b :: v = utf8_encode cp ++ rest ∧ scan fuel rest = true.
Proof.
  intros Hb Hv. cbn [scan].
  destruct (lead_byte_spec b Hb) as [[? ->]|[[? ->]|[[? ->]|[[? ->]|[? ->]]]]];
    [..|done]; intros (cs & cp & rest & -> & Hl & Hc & Hr & Hs)%turn_true;
    apply rejected_false in Hr as (Hn & ? & ? & ?); exists cp, rest;
    (split_and!; [done| |done]); rewrite app_comm_cons; f_equal;
    (apply utf8_encode_spec; [unfold name_char in Hn; lia|]); byte_list.
  - injection Hc as <-. left. unfold name_char in *. split; [|done]. lia.
  - apply continuations_1 in Hc as [? ->]; [|done|lia]. right; left.
    split; [lia|]. eauto 10.
  - apply continuations_more in Hc as [? Hc]; [|done|lia].
    apply continuations_1 in Hc as [? ->]; [|done|lia]. right; right; left.
    split; [lia|]. eauto 10.
  - apply continuations_more in Hc as [? Hc]; [|done|lia].
    apply continuations_more in Hc as [? Hc]; [|done|lia].
    apply continuations_1 in Hc as [? ->]; [|done|lia]. right; right; right.
    split; [lia|]. eauto 10.
Qed.

Lemma encode_turn fuel cp rest : name_char cp → scan fuel rest = true →
  scan (S fuel) (utf8_encode cp ++ rest) = true.
Proof.
  intros Hn Hs.
  assert (0 <= cp <= 0x10FFFF) as Hcp by (unfold name_char in Hn; lia).
  destruct (proj1 (utf8_encode_spec cp _ Hcp) eq_refl)
    as [[? ->]|[(? & b & c & -> & ? & E)|[(? & b & c & d & -> & ? & ? & E)|
        (? & b & c & d & e & -> & ? & ? & ? & E)]]];
    [pose proof (lead_byte_spec cp) as Hlead|pose proof (lead_byte_spec b) as Hlead..];
    (destruct Hlead as [[? Hl]|[[? Hl]|[[? Hl]|[[? Hl]|[? Hl]]]]];
      [unfold is_byte; lia|try (exfalso; lia)..]);
    cbn [scan app]; rewrite Hl; apply turn_true.
  - exists [], cp, rest. split_and!; try done. apply rejected_false. split; [done|lia].
  - exists [c], cp, rest. split_and!; try done; [|apply rejected_false; split; [done|lia]].
    apply continuations_1; unfold is_byte; lia.
  - exists [c; d], cp, rest. split_and!; try done; [|apply rejected_false; split; [done|lia]].
    apply continuations_more; [unfold is_byte; lia..|]. split; [lia|].
    apply continuations_1; unfold is_byte; lia.
  - exists [c; d; e], cp, rest. split_and!; try done; [|apply rejected_false; split; [done|lia]].
    do 2 (apply continuations_more; [unfold is_byte; lia..|]; split; [lia|]).
    apply continuations_1; unfold is_byte; lia.
Qed.

Lemma utf8_encode_nonempty cp : utf8_encode cp ≠ [].
Proof. unfold utf8_encode. by repeat case_match. Qed.

Lemma scan_spec fuel v : Forall is_byte v → (length v < fuel)%nat →
  scan fuel v = true ↔ ∃ cps, Forall name_char cps ∧ v = cps ≫= utf8_encode.
Proof.
  revert v. induction fuel as [|fuel IH]; intros v Hv Hlen; [lia|]. split.
  - destruct v as [|b v]; [by exists []|]. apply Forall_cons in Hv as [Hb Hv].
    intros (cp & rest & Hcp & E & Hs)%turn_encode; [|done..].
    assert (Forall is_byte rest ∧ (length rest < fuel)%nat) as [Hr Hl].
    { split.
      - assert (Forall is_byte (b :: v)) as HF by (by constructor).
        rewrite E in HF. by apply Forall_app in HF as [_ ?].
      - apply (f_equal length) in E. rewrite length_app in E.
        pose proof (utf8_encode_nonempty cp). destruct (utf8_encode cp); simpl in *; [done|lia]. }
    apply IH in Hs as (cps & Hcps & ->); [|done..].
    exists (cp :: cps). split; [by constructor|done].
  - intros (cps & Hcps & ->). destruct Hcps as [|cp cps Hcp Hcps]; [done|].
    simpl in *. apply Forall_app in Hv as [_ Hv]. apply encode_turn; [done|].
    rewrite length_app in Hlen. pose proof (utf8_encode_nonempty cp).
    apply IH; [done| |by eauto]. destruct (utf8_encode cp); simpl in *; [done|lia].
Qed.

(** ** Lemmas: extensions *)

Open Scope string_scope.

Definition no_dot (s : string) : Prop := rfind dot s = None.

Lemma rfind_app c s t n : rfind c t = Some n → rfind c (s ++ t) = Some (String.length s + n)%nat.
Proof. intros H. induction s as [|a s IH]; simpl; [done|]. by rewrite IH. Qed.

Lemma rfind_last c s : rfind c s = None → rfind c (String c s) = Some O.
Proof. intros H. simpl. by rewrite H, Ascii.eqb_refl. Qed.

Lemma rfind_split c s n : rfind c s = Some n →
  ∃ u t, s = u ++ String c t ∧ String.length u = n ∧ rfind c t = None.
Proof.
  revert n. induction s as [|a s IH]; intros n; [done|]. simpl.
  destruct (rfind c s) as [m|] eqn:E.
  - intros [= <-]. destruct (IH m eq_refl) as (u & t & -> & <- & Ht).
    by exists (String a u), t.
  - destruct (Ascii.eqb a c) eqn:Ha; [|done]. intros [= <-].
    apply Ascii.eqb_eq in Ha as ->. by exists "", s.
Qed.

Lemma substr_app u t : substr (String.length u) (u ++ t) = t.
Proof. by induction u. Qed.

Lemma string_app_assoc (s t r : string) : (s +:+ t) +:+ r = s +:+ (t +:+ r).
Proof. induction s as [|c s IH]; [done|]. exact (f_equal (String c) IH). Qed.

Lemma string_app_nil (s : string) : s +:+ "" = s.
Proof. induction s as [|c s IH]; [done|]. exact (f_equal (String c) IH). Qed.

Lemma string_app_cancel (s t r : string) : s +:+ t = s +:+ r → t = r.
Proof.
  induction s as [|c s IH]; [done|]. intros E. apply IH.
  exact (f_equal (λ x, match x with String _ y => y | _ => x end) E).
Qed.

Lemma length_string_app (u t : string) :
  String.length (u ++ t) = (String.length u + String.length t)%nat.
Proof. induction u as [|a u IH]; simpl; [done|]. by rewrite IH. Qed.

Lemma strlen_app a b : strlen (a ++ b) = strlen a + strlen b.
Proof. unfold strlen. rewrite length_string_app. lia. Qed.

Lemma strlen_prefix n s : strlen (String.substring 0 n s) <= Z.of_nat n.
Proof.
  unfold strlen. revert n. induction s as [|c s IH]; intros [|n]; simpl; try lia.
  specialize (IH n). lia.
Qed.

Lemma substring_full s : String.substring 0 (String.length s) s = s.
Proof. induction s as [|c s IH]; [done|]. cbn. by rewrite IH. Qed.

Lemma substring_longer n s : (String.length s <= n)%nat → String.substring 0 n s = s.
Proof.
  revert n. induction s as [|c s IH]; intros [|n] H; cbn in *; try lia; [done..|].
  rewrite IH by lia. done.
Qed.

Lemma substring_split body a b c :
  String.substring a (b + c) body =
  String.substring a b body +:+ String.substring (a + b) c body.
Proof.
  revert a b c. induction body as [|x body IH]; intros a b c; [by destruct a, b, c|].
  destruct a as [|a]; [|apply (IH a b c)].
  destruct b as [|b]; [by destruct c|]. exact (f_equal (String x) (IH 0%nat b c)).
Qed.

Lemma substring_nil m body : String.substring m 0 body = ""%string.
Proof. revert m. induction body as [|c body IH]; intros [|m]; [done..|apply IH]. Qed.

Lemma strlen_substring a n body : (a + n <= String.length body)%nat →
  String.length (String.substring a n body) = n.
Proof.
  revert a n. induction body as [|x body IH]; intros [|a] [|n] H; simpl in *; try lia; try done.
  - by rewrite IH by lia.
  - by rewrite (IH a 0%nat) by lia.
  - by rewrite (IH a (S n)) by lia.
Qed.

Lemma length_substring a n body :
  String.length (String.substring a n body) = Nat.min n (String.length body - a).
Proof.
  revert a n. induction body as [|x body IH]; intros [|a] [|n]; simpl; try lia;
    rewrite ?IH; try lia; by destruct (String.length body - a)%nat.
Qed.

Lemma substring_min a n body :
  String.substring a (Nat.min n (String.length body - a)) body = String.substring a n body.
Proof.
  revert a n. induction body as [|x body IH]; intros [|a] [|n]; simpl; try done; try apply IH.
  - specialize (IH 0%nat n). rewrite Nat.sub_0_r in IH. by rewrite IH.
  - by rewrite <- (IH a (S n)).
Qed.

Lemma string_app_cons u a t : u ++ String a t = (u ++ String a "") ++ t.
Proof. induction u as [|b u IH]; [done|]. exact (f_equal (String b) IH). Qed.

Lemma extension_split u t : no_dot t →
  ExtractFileExtension (u ++ String dot t) = t.
Proof.
  intros Ht. unfold ExtractFileExtension.
  rewrite (rfind_app _ _ _ _ (rfind_last _ _ Ht)), length_string_app, Nat.add_0_r. simpl.
  destruct (Nat.eqb_spec (String.length u) (String.length u + S (String.length t) - 1)).
  - destruct t; [done|]. simpl in *. lia.
  - pose proof (substr_app (u ++ String dot "") t) as H. rewrite length_string_app in H.
    by rewrite string_app_cons.
Qed.

(** ** Lemmas: keywords *)

(** A word: at least one character, no space. *)
Definition word (w : list Ascii.ascii) : Prop := w ≠ [] ∧ Forall (λ c, c ≠ space) w.

Fixpoint join (ws : list (list Ascii.ascii)) : list Ascii.ascii :=
  match ws with
  | [] => []
  | [w] => w
  | w :: ws => (w ++ space :: join ws)%list
  end.

(** [spread ws k]: the text [k] is the words [ws], separated and surrounded by
    any number of spaces. *)
Inductive spread : list (list Ascii.ascii) → list Ascii.ascii → Prop :=
  | spread_nil n : spread [] (replicate n space)
  | spread_last n w m : word w → spread [w] (replicate n space ++ w ++ replicate m space)%list
  | spread_cons n w ws k : word w → spread ws k →
      spread (w :: ws) (replicate n space ++ w ++ space :: k)%list.

Lemma spread_exists k : ∃ ws, spread ws k.
Proof.
  induction k as [|c k (ws & H)]; [exists []; apply (spread_nil 0)|].
  destruct (decide (c = space)) as [->|Hc].
  - exists ws. destruct H as [n|n w m Hw|n w ws k Hw H].
    + apply (spread_nil (S n)).
    + by apply (spread_last (S n)).
    + by apply (spread_cons (S n)).
  - assert (word [c]) as Hc1 by (split; [done|by constructor]).
    assert (∀ w, word w → word (c :: w)) as Hcw by (intros w []; split; [done|by constructor]).
    destruct H as [n|[|n] w m Hw|[|n] w ws k Hw H].
    + exists [[c]]. by apply (spread_last 0 [c] n).
    + exists [c :: w]. apply (spread_last 0 (c :: w)), Hcw, Hw.
    + exists [[c]; w]. apply (spread_cons 0 [c]); [done|]. by apply spread_last.
    + exists ((c :: w) :: ws). apply (spread_cons 0 (c :: w)); [|done]. apply Hcw, Hw.
    + exists ([c] :: w :: ws). apply (spread_cons 0 [c]); [done|]. by apply spread_cons.
Qed.

Lemma normalize_spaces n k acc :
  normalize_loop (replicate n space ++ k) true acc = normalize_loop k true acc.
Proof. by induction n. Qed.

Lemma normalize_word w k p acc : word w →
  normalize_loop (w ++ k) p acc = normalize_loop k false (rev w ++ acc).
Proof.
  intros [Hne Hw]. revert p acc Hne. induction Hw as [|c w Hc Hw IH]; intros p acc Hne; [done|].
  simpl. destruct (Ascii.eqb_spec c space); [done|].
  destruct w as [|c' w]; [done|]. rewrite IH by done. by rewrite <- app_assoc.
Qed.

Lemma pop_space_word w acc : word w → pop_space (rev w ++ acc) = (rev w ++ acc)%list.
Proof.
  intros [Hne Hw]. destruct w as [|c w _] using rev_ind; [done|].
  rewrite rev_app_distr. simpl. apply Forall_app in Hw as [_ Hw]. inversion Hw; subst.
  by destruct (Ascii.eqb_spec c space).
Qed.

Lemma normalize_spread ws k acc : spread ws k →
  pop_space (normalize_loop k true acc) =
  match ws with [] => pop_space acc | _ => (rev (join ws) ++ acc)%list end.
Proof.
  intros H. revert acc. induction H as [n|n w m Hw|n w ws k Hw H IH]; intros acc.
  - by rewrite <- (app_nil_r (replicate n space)), normalize_spaces.
  - rewrite normalize_spaces, normalize_word by done. destruct m as [|m]; simpl.
    + by apply pop_space_word.
    + by rewrite <- (app_nil_r (replicate m space)), normalize_spaces.
  - rewrite normalize_spaces, normalize_word by done. simpl. rewrite IH.
    destruct ws; simpl; [done|]. rewrite rev_app_distr. simpl. by rewrite <- !app_assoc.
Qed.

Lemma spread_join ws k : spread ws k → spread ws (join ws).
Proof.
  induction 1 as [n|n w m Hw|n w [|w' ws] k Hw H IH].
  - apply (spread_nil 0).
  - pose proof (spread_last 0 w 0 Hw) as H. simpl in H. by rewrite app_nil_r in H.
  - pose proof (spread_last 0 w 0 Hw) as H'. simpl in H'. by rewrite app_nil_r in H'.
  - by apply (spread_cons 0).
Qed.

Lemma normalize_join ws k : spread ws (String.list_ascii_of_string k) →
  String.list_ascii_of_string (NormalizeFulltextKeyword k) = join ws.
Proof.
  intros H. unfold NormalizeFulltextKeyword.
  rewrite String.list_ascii_of_string_of_list_ascii, (normalize_spread _ _ [] H).
  destruct ws; [done|]. by rewrite app_nil_r, rev_involutive.
Qed.

(** ** Properties *)

(** A name is accepted exactly when it is the UTF-8 encoding of Unicode
    characters that are neither control characters nor surrogates: overlong forms,
    stray and missing continuation bytes and code points above U+10FFFF are refused,
    and nothing else is. *)
Lemma names_are_utf8 value :
  IsValidUtf8WithoutControlChars value = true ↔
  ∃ cps, Forall name_char cps ∧ bytes_of_string value = cps ≫= utf8_encode.
Proof. apply scan_spec; [apply bytes_of_string_byte|lia]. Qed.

(** The extension of a file name is what follows its last dot: a name with
    nothing after it, or without a dot, has none, and every extension found is a
    dot-free suffix after a dot. *)
Lemma extension_follows_last_dot filename e :
  ExtractFileExtension filename = e ↔
  (e = "" ∧ no_dot filename) ∨
  (no_dot e ∧ ∃ stem, filename = stem ++ "." ++ e).
Proof.
  split.
  - intros <-. destruct (rfind dot filename) as [n|] eqn:E.
    + right. apply rfind_split in E as (u & t & -> & _ & Ht).
      rewrite extension_split by done. split; [done|]. by exists u.
    + left. split; [|done]. unfold ExtractFileExtension. by rewrite E.
  - intros [[-> H]|[He (u & ->)]].
    + unfold ExtractFileExtension. by rewrite H.
    + by apply extension_split.
Qed.

(** Normalizing a search keyword keeps its words in order and puts exactly one
    space between them, whatever spaces separated and surrounded them; normalizing
    again changes nothing. *)
Lemma keyword_normal_form keyword :
  (∃ ws, spread ws (String.list_ascii_of_string keyword)) ∧
  (∀ ws, spread ws (String.list_ascii_of_string keyword) →
     String.list_ascii_of_string (NormalizeFulltextKeyword keyword) = join ws) ∧
  NormalizeFulltextKeyword (NormalizeFulltextKeyword keyword) = NormalizeFulltextKeyword keyword.
Proof.
  split; [apply spread_exists|]. split; [by intros ws; apply normalize_join|].
  destruct (spread_exists (String.list_ascii_of_string keyword)) as [ws H].
  pose proof (normalize_join _ _ H) as Hn.
  rewrite <- (String.string_of_list_ascii_of_string (NormalizeFulltextKeyword keyword)) at 2.
  rewrite <- (String.string_of_list_ascii_of_string (NormalizeFulltextKeyword _)) at 1.
  f_equal. rewrite Hn. apply normalize_join. rewrite Hn. by eapply spread_join.
Qed.

Lemma keyword_normal_form_witness :
  String.list_ascii_of_string (NormalizeFulltextKeyword "  big   report ") =
  String.list_ascii_of_string "big report".
Proof.
  apply (proj1 (proj2 (keyword_normal_form "  big   report ")) [String.list_ascii_of_string "big";
    String.list_ascii_of_string "report"]).
  apply (spread_cons 2 (String.list_ascii_of_string "big"));
    [split; [done|repeat constructor; done]|].
  apply (spread_last 2 (String.list_ascii_of_string "report") 1).
  split; [done|repeat constructor; done].
Defined.
