(* ===== verification/OperationLogs.v ===== *)
(** * The audit trail

    The statement by which the services add a row to [operation_logs], and what the services
    for administrators share to fill one in. *)

From S2P Require Import Prelude Json Schema.

Local Open Scope string_scope.

(** [INSERT INTO operation_logs ...]: the text columns and the foreign key on the user. *)
Definition insert_operation_log (o : OperationLogRow) (d : Database)
  : option (unit * Database) :=
  let fits n (t : option string) := match t with Some s => varchar n s | None => true end in
  if varchar 32 (o_action o) && fits 32%Z (o_target_type o) && fits 255%Z (o_target_name o) &&
     varchar 45 (o_ip_address o) && fits 512%Z (o_user_agent o) &&
     match o_user_id o with Some u => bool_decide (is_Some (users d !! u)) | None => true end
  then Some (tt, d <| operation_logs := (operation_logs d ++ [o])%list |>)
  else None.

(** [Bounded(value, maximum)]: the first [maximum] bytes. *)
Definition Bounded (value : string) (maximum : nat) : string :=
  String.substring 0 maximum value.

(** Who gives an order: [StorageJobAuditContext] and [RecoveryAuditContext]. *)
Record AuditContext := mkAuditContext {
  au_operator_id : Z;
  au_ip_address : string;
  au_user_agent : string
}.
