(* ===== verification/Numerals.v ===== *)
(** * Numbers in texts

    How the C++ standard library reads numbers ([std::stoull], [std::stoi],
    [std::from_chars]), on which the parsing of requests rests, and that they read back
    what [std::to_string] prints. *)

From Stdlib Require Import Ascii.
From S2P Require Import Prelude Errors Storage Db Schema Json Names.

Local Open Scope string_scope.

Definition is_space (c : ascii) : bool :=
  let n := Z.of_nat (nat_of_ascii c) in ((n =? 32) || ((9 <=? n) && (n <=? 13)))%Z.

Definition digit_of (c : ascii) : option Z :=
  let n := Z.of_nat (nat_of_ascii c) in
  if ((48 <=? n) && (n <=? 57))%Z then Some (n - 48)%Z else None.

Fixpoint skip_spaces (s : string) : string :=
  match s with
  | String c s' => if is_space c then skip_spaces s' else s
  | EmptyString => s
  end.

(** The number at the start of a text, after the value [acc] of the digits before, and the
    text behind it. *)
Fixpoint leading_digits (acc : option Z) (s : string) : option (Z * string) :=
  match s with
  | String c s' =>
      match digit_of c with
      | Some d => leading_digits (Some (default 0 acc * 10 + d)%Z) s'
      | None => n ← acc; Some (n, s)
      end
  | EmptyString => n ← acc; Some (n, s)
  end.

(** The blanks, the sign and the digits a [strto...] function reads: the sign, the
    magnitude and the text behind. *)
Definition read_number (s : string) : option (bool * Z * string) :=
  let s := skip_spaces s in
  let '(negative, digits) :=
    match s with
    | String "-" s' => (true, s')
    | String "+" s' => (false, s')
    | _ => (false, s)
    end in
  '(n, rest) ← leading_digits None digits; Some (negative, n, rest).

(** [std::stoull(s, &pos)]: the number, wrapped around when it has a minus sign, and the
    text behind it.  It throws ([None]) when there is no digit or when the magnitude is out
    of range. *)
Definition stoull_pos (s : string) : option (Z * string) :=
  '(negative, n, rest) ← read_number s;
  if (u64_max <? n)%Z then None else Some (if negative : bool then u64 (- n) else n, rest).

Definition stoull (s : string) : option Z := fst <$> stoull_pos s.

(** [std::stoi(s, &pos)]. *)
Definition stoi_pos (s : string) : option (Z * string) :=
  '(negative, n, rest) ← read_number s;
  z ← int4 (if negative : bool then - n else n);
  Some (z, rest).

(** [std::from_chars] on an unsigned 64-bit integer: digits only. *)
Definition from_chars_u64 (s : string) : option (Z * string) :=
  '(n, rest) ← leading_digits None s;
  if (u64_max <? n)%Z then None else Some (n, rest).

(** ** Numbers, printed and read *)

Local Close Scope string_scope.
Local Open Scope Z_scope.

Definition digit (c : ascii) : bool := bool_decide (is_Some (digit_of c)).

Fixpoint all_digits (s : string) : bool :=
  match s with EmptyString => true | String c s => digit c && all_digits s end.

Lemma all_digits_app s t : all_digits (s +:+ t) = all_digits s && all_digits t.
Proof.
  induction s as [|c s IH]; [done|]. change (String c s +:+ t) with (String c (s +:+ t)).
  cbn [all_digits]. by rewrite IH, andb_assoc.
Qed.

Lemma pretty_char_digit (x : N) : (x < 10)%N → digit_of (pretty_N_char x) = Some (Z.of_N x).
Proof.
  intros Hx. assert (x = 0 ∨ x = 1 ∨ x = 2 ∨ x = 3 ∨ x = 4 ∨ x = 5 ∨ x = 6 ∨ x = 7 ∨ x = 8 ∨ x = 9)%N
    as H by lia.
  by repeat destruct H as [->|H]; [..|subst].
Qed.

(** The digits of a number, printed in front of a text. *)
Lemma pretty_go_digits (x : N) s : (0 < x)%N → ∃ p k,
  pretty_N_go x s = (p +:+ s)%string ∧ all_digits p = true ∧ p ≠ ""%string ∧
  ∀ acc, leading_digits acc (pretty_N_go x s) =
    leading_digits (Some (default 0 acc * 10 ^ Z.of_nat k + Z.of_N x)) s.
Proof.
  revert s. induction (N.lt_wf_0 x) as [x _ IH]; intros s Hx.
  rewrite pretty_N_go_step by done. set (c := pretty_N_char (x `mod` 10)).
  assert (digit_of c = Some (Z.of_N (x `mod` 10)%N)) as Hc
    by (apply pretty_char_digit, N.mod_lt; done).
  assert (digit c = true) as Hd by (by apply bool_decide_eq_true_2; rewrite Hc).
  pose proof (N.div_mod x 10 ltac:(lia)) as Hdm.
  destruct (decide (x `div` 10 = 0)%N) as [E|E].
  - rewrite E, pretty_N_go_0. exists (String c ""), 1%nat. split_and!; [done| |done|].
    + by cbn [all_digits]; rewrite Hd.
    + intros acc. cbn [leading_digits]. rewrite Hc. do 2 f_equal.
      change (10 ^ Z.of_nat 1) with 10. lia.
  - destruct (IH (x `div` 10)%N) with (s := String c s) as (p & k & Hp & Hall & Hne & Hacc);
      [by apply N.div_lt|by apply N.neq_0_lt_0|].
    exists (p +:+ String c "")%string, (S k). rewrite Hp. split_and!.
    + apply string_app_cons.
    + by rewrite all_digits_app, Hall; cbn [all_digits]; rewrite Hd.
    + by destruct p.
    + intros acc. rewrite <- Hp, Hacc. cbn [leading_digits]. rewrite Hc. do 2 f_equal.
      match goal with |- context [default 0 (Some ?a)] => change (default 0 (Some a)) with a end.
      rewrite Nat2Z.inj_succ, Z.pow_succ_r by lia.
      assert (Z.of_N x = 10 * Z.of_N (x `div` 10) + Z.of_N (x `mod` 10)) as -> by lia. ring.
Qed.

Lemma to_string_reads n : 0 <= n → all_digits (to_string n) = true ∧ to_string n ≠ ""%string ∧
  leading_digits None (to_string n) = Some (n, ""%string).
Proof.
  intros Hn. destruct n as [|p|]; [done| |lia].
  destruct (pretty_go_digits (Npos p) "" ltac:(lia)) as (q & k & Hq & Hall & Hne & Hacc).
  assert (to_string (Z.pos p) = pretty_N_go (Npos p) "") as -> by done.
  split_and!.
  - by rewrite Hq, all_digits_app, Hall.
  - rewrite Hq. by destruct q.
  - by rewrite (Hacc None).
Qed.

Lemma skip_digits s : all_digits s = true → s ≠ ""%string → skip_spaces s = s.
Proof.
  destruct s as [|c s]; [done|]. cbn [all_digits skip_spaces]. intros [Hc _]%andb_true_iff _.
  unfold digit, digit_of in Hc. unfold is_space. case_bools.
  destruct (_ && _) eqn:E in Hc; [|by destruct Hc]. case_bools.
  repeat rewrite (proj2 (Z.eqb_neq _ _)) by lia. rewrite (proj2 (Z.leb_gt _ 13)) by lia.
  by rewrite andb_false_r.
Qed.

(** What [std::to_string] prints, the readers read back. *)
Lemma read_number_to_string n : 0 <= n → read_number (to_string n) = Some (false, n, ""%string).
Proof.
  intros Hn. destruct (to_string_reads n Hn) as (Hd & Hne & Hr). unfold read_number.
  rewrite skip_digits by done. destruct (to_string n) as [|c s]; [done|].
  cbn [all_digits] in Hd. apply andb_true_iff in Hd as [Hc _].
  assert (c ≠ "-"%char ∧ c ≠ "+"%char) as [H1 H2] by (split; intros ->; vm_compute in Hc; done).
  destruct c as [[] [] [] [] [] [] [] []]; try (by rewrite Hr); done.
Qed.

Lemma stoull_to_string n : 0 <= n <= u64_max → stoull_pos (to_string n) = Some (n, ""%string).
Proof.
  intros Hn. unfold stoull_pos. rewrite read_number_to_string by lia. cbn.
  by rewrite (proj2 (Z.ltb_ge _ _)) by lia.
Qed.

Lemma leading_digits_nonneg acc s n rest : leading_digits acc s = Some (n, rest) →
  0 <= default 0 acc → 0 <= n.
Proof.
  revert acc. induction s as [|c s IH]; intros acc; cbn [leading_digits].
  - destruct acc; simpl; [|done]. by intros [= <- _].
  - destruct (digit_of c) as [d|] eqn:Hd.
    + intros H Ha. apply (IH _ H). cbn. unfold digit_of in Hd. case_match; [|done].
      injection Hd as <-. case_bools. lia.
    + destruct acc; simpl; [|done]. by intros [= <- _].
Qed.

Lemma stoull_range s n rest : stoull_pos s = Some (n, rest) → 0 <= n <= u64_max.
Proof.
  unfold stoull_pos. destruct (read_number s) as [[[neg m] r]|] eqn:E; [|done]. cbn.
  destruct (Z.ltb_spec u64_max m); [done|]. intros [= <- _].
  assert (0 <= m).
  { unfold read_number in E.
    match type of E with (let '(_, _) := ?p in _) = _ => destruct p as [sg ds] end.
    apply bind_Some in E as ([n0 r0] & Hl & E). injection E as _ -> _.
    by apply leading_digits_nonneg in Hl. }
  unfold u64_max, u64 in *. destruct neg; [|lia]. pose proof (Z.mod_pos_bound (- m) (2 ^ 64)). lia.
Qed.
