(* ===== verification/Redis.v ===== *)
(** * Redis

    The keys of [src/src/utils/RedisKeyPrefix.hpp], what the services use of the Redis server,
    and [src/src/services/RedisService.cpp].  The server is a map from keys to texts that can
    expire; its state is part of the state of a service, through the interface [HasRedis]. *)

From Stdlib Require Import Ascii.
From S2P Require Import Prelude Errors Storage Db Numerals.

Local Open Scope string_scope.

(** ** Addresses *)

Fixpoint find_char (c : ascii) (s : string) : option nat :=
  match s with
  | EmptyString => None
  | String a s => if Ascii.eqb a c then Some O else S <$> find_char c s
  end.

Fixpoint count_char (c : ascii) (s : string) : Z :=
  match s with
  | EmptyString => 0
  | String a s => (if Ascii.eqb a c then 1 else 0) + count_char c s
  end%Z.

(** The address without its port. *)
Definition ExtractIPOnly (ip_address : string) : string :=
  let after_brackets :=
    if (1 <? count_char ":"%char ip_address)%Z then ip_address
    else match find_char ":"%char ip_address with
         | Some colon_pos => String.substring 0 colon_pos ip_address
         | None => ip_address
         end in
  match ip_address with
  | String c rest =>
      if Ascii.eqb c "["%char then
        match find_char "]"%char ip_address with
        | Some closing_bracket => String.substring 1 (closing_bracket - 1) ip_address
        | None => after_brackets
        end
      else after_brackets
  | EmptyString => after_brackets
  end.

Definition BuildSharePasswordRateLimitKey (share_code ip_address : string) : string :=
  "rate:share_password" ++ ":" ++ share_code ++ ":" ++ ExtractIPOnly ip_address.

Definition BuildRefreshTokenKey (user_id : Z) : string :=
  "refresh_token" ++ ":" ++ to_string user_id.

Definition BuildAccessTokenBlacklistKey (jti : string) : string :=
  "access_token_blacklist" ++ ":" ++ jti.

Definition BuildLoginRateLimitKey (ip_address : string) : string :=
  "rate:login" ++ ":" ++ ExtractIPOnly ip_address.

Definition BuildShareTokenBlacklistKey (token_hash : string) : string :=
  "share_token_blacklist" ++ ":" ++ token_hash.

Definition BuildShareAccessRateLimitKey (ip_address : string) (window_timestamp : Z) : string :=
  "rate:share_access" ++ ":" ++ ExtractIPOnly ip_address ++ ":" ++ to_string window_timestamp.

Definition BuildShareBrowseRateLimitKey (jti : string) (window_timestamp : Z) : string :=
  "rate:share_browse" ++ ":" ++ jti ++ ":" ++ to_string window_timestamp.

Definition BuildShareDownloadRateLimitKey (jti : string) (window_timestamp : Z) : string :=
  "rate:share_download" ++ ":" ++ jti ++ ":" ++ to_string window_timestamp.

Definition BuildApiRateLimitKey (user_id window_timestamp : Z) : string :=
  "rate:api" ++ ":" ++ to_string user_id ++ ":" ++ to_string window_timestamp.

Definition BuildUploadRateLimitKey (user_id window_timestamp : Z) : string :=
  "rate:upload" ++ ":" ++ to_string user_id ++ ":" ++ to_string window_timestamp.

(** ** The server *)

(** A text and the time at which it expires, in milliseconds. *)
Record RedisEntry := mkRedisEntry {
  re_value : string;
  re_expires_at : option Z
}.

Record Redis := mkRedis {
  rd_time : Z;
  rd_keys : gmap string RedisEntry
}.

Local Close Scope string_scope.

Definition entry_live (time : Z) (e : RedisEntry) : bool :=
  match re_expires_at e with None => true | Some t => time <? t end.

(** [GET]. *)
Definition redis_get (key : string) (r : Redis) : option string :=
  match rd_keys r !! key with
  | Some e => if entry_live (rd_time r) e then Some (re_value e) else None
  | None => None
  end.

Definition redis_put (key : string) (e : RedisEntry) (r : Redis) : Redis :=
  mkRedis (rd_time r) (<[key := e]> (rd_keys r)).

(** [SET key value EX seconds] and [SETEX]. *)
Definition redis_set_ex (key value : string) (seconds : Z) (r : Redis) : Redis :=
  redis_put key (mkRedisEntry value (Some (rd_time r + seconds * 1000))) r.

Definition redis_del (key : string) (r : Redis) : Redis :=
  mkRedis (rd_time r) (delete key (rd_keys r)).

(** The integer a text stands for, written the way Redis writes it. *)
Definition redis_integer (value : string) : option Z :=
  match read_number value with
  | Some (negative, n, _) =>
      let z := if negative : bool then - n else n in
      if bool_decide (to_string z = value) then bigint z else None
  | None => None
  end.

(** [INCR]: [None] when the text is no integer or the sum leaves 64 bits.  The time at which
    the key expires stays. *)
Definition redis_incr (key : string) (r : Redis) : option (Z * Redis) :=
  match redis_get key r with
  | None => Some (1, redis_put key (mkRedisEntry (to_string 1) None) r)
  | Some value =>
      n ← redis_integer value; m ← bigint (n + 1);
      Some (m, redis_put key
        (mkRedisEntry (to_string m) (rd_keys r !! key ≫= re_expires_at)) r)
  end.

(** [EXPIRE] on a key that is there. *)
Definition redis_expire (key : string) (seconds : Z) (r : Redis) : Redis :=
  match redis_get key r with
  | None => r
  | Some value => redis_set_ex key value seconds r
  end.

(** ** The service *)

(** A state with a Redis server in it. *)
Class HasRedis (S : Type) := {
  redis_of : S → Redis;
  with_redis : Redis → S → S;
  redis_of_with r s : redis_of (with_redis r s) = r;
  with_redis_of s : with_redis (redis_of s) s = s;
  with_redis_twice r r' s : with_redis r (with_redis r' s) = with_redis r s
}.

#[global] Program Instance redis_redis : HasRedis Redis :=
  {| redis_of r := r; with_redis r _ := r |}.
Solve Obligations with done.

Section service.
Context {S : Type} `{HasRedis S}.

Definition redis_failed : ErrorInfo := err RedisOperationFailed.

(** A command or script: atomic, and an error of the server is an exception. *)
Definition redis_call {A} (q : Redis → option (A * Redis)) : M S (Result A) :=
  catch_all
    (a ← exec (λ s, '(a, r) ← q (redis_of s); Some (a, with_redis r s)); mret (Ok a))
    (mret (Err redis_failed)).

Definition RedisSet (key value : string) (ttl : Z) : M S (Result unit) :=
  redis_call (λ r, Some (tt,
    if 0 <? ttl then redis_set_ex key value ttl r
    else redis_put key (mkRedisEntry value None) r)).

Definition RedisGet (key : string) : M S (Result string) :=
  let* value := redis_call (λ r, Some (redis_get key r, r)) in
  mret (match (value : option string) with
        | None => Err (err RedisKeyNotFound)
        | Some value => Ok value
        end).

Definition RedisDelete (key : string) : M S (Result unit) :=
  redis_call (λ r, Some (tt, redis_del key r)).

Definition RedisExists (key : string) : M S (Result bool) :=
  redis_call (λ r, Some (bool_decide (is_Some (redis_get key r)), r)).

Definition RedisIncr (key : string) : M S (Result Z) := redis_call (redis_incr key).

(** The script of [CompareAndSwap]. *)
Definition cas_script (key expected new_value : string) (ttl : Z) (r : Redis) : bool * Redis :=
  if bool_decide (redis_get key r = Some expected)
  then (true, redis_set_ex key new_value ttl r) else (false, r).

Definition CompareAndSwap (key expected new_value : string) (ttl : Z) : M S (Result bool) :=
  redis_call (λ r, Some (cas_script key expected new_value ttl r)).

(** The script of [IncrWithExpire]. *)
Definition rate_limit_script (key : string) (ttl : Z) (r : Redis) : option (Z * Redis) :=
  '(count, r) ← redis_incr key r;
  Some (count, if count =? 1 then redis_expire key ttl r else r).

Definition IncrWithExpire (key : string) (ttl : Z) : M S (Result Z) :=
  redis_call (rate_limit_script key ttl).
End service.
