(* ===== verification/ExpiryCache.v ===== *)
(** * The cache of revocations

    [ExpiryCache] of [src/src/services/TokenService.hpp]: a hash map from keys to entries and a
    multimap from the times at which they expire to the keys.  An entry is the time at which it
    expires; an element of the multimap is told by its time and its key. *)

From S2P Require Import Prelude.

Module ExpiryCache.

Record t := mk {
  m_by_key : gmap string Z;
  m_by_expiry : list (Z * string)
}.

Definition empty : t := mk ∅ [].

(** [multimap::emplace]: after the elements with the same key. *)
Fixpoint emplace (x : Z * string) (l : list (Z * string)) : list (Z * string) :=
  match l with
  | [] => [x]
  | y :: l' => if y.1 <=? x.1 then y :: emplace x l' else x :: l
  end.

(** [multimap::erase] of the element an iterator points to. *)
Fixpoint erase_at (x : Z * string) (l : list (Z * string)) : list (Z * string) :=
  match l with
  | [] => []
  | y :: l' => if decide (y = x) then l' else y :: erase_at x l'
  end.

Definition Upsert (key : string) (expires_at : Z) (c : t) : t :=
  let c := match m_by_key c !! key with
           | Some old => mk (delete key (m_by_key c)) (erase_at (old, key) (m_by_expiry c))
           | None => c
           end in
  mk (<[key := expires_at]> (m_by_key c)) (emplace (expires_at, key) (m_by_expiry c)).

Definition Find (key : string) (now : Z) (c : t) : option Z :=
  match m_by_key c !! key with
  | None => None
  | Some expires_at => if expires_at <=? now then None else Some expires_at
  end.

Definition Erase (key : string) (c : t) : bool * t :=
  match m_by_key c !! key with
  | None => (false, c)
  | Some expires_at =>
      (true, mk (delete key (m_by_key c)) (erase_at (expires_at, key) (m_by_expiry c)))
  end.

(** The loop of [EvictExpired] over the multimap. *)
Fixpoint evict_loop (now : Z) (by_key : gmap string Z) (by_expiry : list (Z * string)) (evicted : Z)
  : Z * t :=
  match by_expiry with
  | [] => (evicted, mk by_key [])
  | (expires_at, key) :: rest =>
      if expires_at <=? now then evict_loop now (delete key by_key) rest (evicted + 1)
      else (evicted, mk by_key by_expiry)
  end.

Definition EvictExpired (now : Z) (c : t) : Z * t :=
  evict_loop now (m_by_key c) (m_by_expiry c) 0.

Definition Clear (c : t) : t := empty.

Definition Size (c : t) : Z := Z.of_nat (size (m_by_key c)).

(** ** The two indexes *)

(** The entries in the form of the multimap. *)
Definition swap (kv : string * Z) : Z * string := (kv.2, kv.1).

Definition agree (c : t) : Prop :=
  StronglySorted Z.le (m_by_expiry c).*1 ∧ m_by_expiry c ≡ₚ swap <$> map_to_list (m_by_key c).

Lemma emplace_perm x l : emplace x l ≡ₚ x :: l.
Proof.
  induction l as [|y l IH]; cbn; [done|]. destruct (y.1 <=? x.1); [|done].
  rewrite IH. apply Permutation_swap.
Qed.

Lemma emplace_sorted x l : StronglySorted Z.le l.*1 → StronglySorted Z.le (emplace x l).*1.
Proof.
  induction l as [|y l IH]; cbn; [by repeat constructor|]. intros Hs.
  apply StronglySorted_inv in Hs as [Hs Hy].
  destruct (Z.leb_spec y.1 x.1); cbn.
  - constructor; [by apply IH|]. rewrite (emplace_perm x l). cbn. by constructor.
  - constructor; [by constructor|]. constructor; [lia|].
    eapply Forall_impl; [exact Hy|]. intros z. cbn. lia.
Qed.

Lemma erase_at_perm x l : x ∈ l → x :: erase_at x l ≡ₚ l.
Proof.
  induction l as [|y l IH]; [set_solver|]. intros Hx. cbn. destruct (decide (y = x)) as [->|]; [done|].
  rewrite Permutation_swap, IH; [done|]. set_solver.
Qed.

Lemma erase_at_sublist x l : erase_at x l `sublist_of` l.
Proof.
  induction l as [|y l IH]; cbn; [done|]. destruct (decide (y = x)); [by constructor|].
  by constructor.
Qed.

Lemma sorted_sublist l k : StronglySorted Z.le k.*1 → l `sublist_of` k →
  StronglySorted Z.le (l : list (Z * string)).*1.
Proof.
  intros Hs Hl. induction Hl as [|x l k Hl IH|x l k Hl IH]; cbn in *; [constructor|..];
    apply StronglySorted_inv in Hs as [Hs Hx]; [|auto].
  constructor; [auto|]. rewrite Forall_forall in *. intros z Hz. apply Hx.
  apply list_elem_of_fmap in Hz as (y & -> & Hy). apply list_elem_of_fmap. exists y. split; [done|].
  by apply (sublist_subseteq _ _ Hl).
Qed.

Lemma agree_empty : agree empty.
Proof. split; cbn; [constructor|]. by rewrite map_to_list_empty. Qed.

(** Taking an entry out of both indexes. *)
Lemma agree_remove key old c : agree c → m_by_key c !! key = Some old →
  agree (mk (delete key (m_by_key c)) (erase_at (old, key) (m_by_expiry c))).
Proof.
  intros [Hs Hp] Hk. assert (m_by_expiry c ≡ₚ (old, key) :: (swap <$> map_to_list (delete key (m_by_key c))))
    as Hc by (rewrite Hp, <- (map_to_list_delete (m_by_key c) key old Hk); done).
  split; cbn; [by eapply sorted_sublist, erase_at_sublist|].
  apply (Permutation_cons_inv (a := (old, key))). rewrite <- Hc. apply erase_at_perm.
  rewrite Hc. set_solver.
Qed.

Lemma agree_insert key expires_at c : agree c → m_by_key c !! key = None →
  agree (mk (<[key := expires_at]> (m_by_key c)) (emplace (expires_at, key) (m_by_expiry c))).
Proof.
  intros [Hs Hp] Hk. split; cbn; [by apply emplace_sorted|].
  rewrite emplace_perm, Hp, map_to_list_insert by done. done.
Qed.

Lemma Upsert_agree key expires_at c : agree c → agree (Upsert key expires_at c).
Proof.
  intros Hc. unfold Upsert. destruct (m_by_key c !! key) as [old|] eqn:Hk.
  - apply (agree_insert key expires_at (mk _ _)); [by apply agree_remove|]. cbn. apply lookup_delete_eq.
  - by apply agree_insert.
Qed.

Lemma Upsert_by_key key expires_at c :
  m_by_key (Upsert key expires_at c) = <[key := expires_at]> (m_by_key c).
Proof. unfold Upsert. destruct (m_by_key c !! key); cbn; [by rewrite insert_delete_eq|done]. Qed.

Lemma Erase_agree key c : agree c → agree (Erase key c).2.
Proof.
  intros Hc. unfold Erase. destruct (m_by_key c !! key) eqn:Hk; [|done]. by apply agree_remove.
Qed.

(** The loop removes the entries that have expired, and counts them. *)
Lemma evict_loop_spec now l : ∀ by_key n, agree (mk by_key l) →
  let '(evicted, c) := evict_loop now by_key l n in
  agree c ∧ m_by_key c = filter (λ kv, now < kv.2) by_key ∧
  evicted = n + (Z.of_nat (size by_key) - Z.of_nat (size (m_by_key c))).
Proof.
  induction l as [|[t key] l IH]; intros by_key n Hc; cbn [evict_loop].
  - destruct Hc as [_ Hp]. cbn in Hp. symmetry in Hp. apply Permutation_nil_r, fmap_nil_inv in Hp.
    apply map_to_list_empty_iff in Hp as ->. split_and!; [apply agree_empty|done|cbn; lia].
  - destruct Hc as [Hs Hp]. cbn in Hs, Hp. apply StronglySorted_inv in Hs as [Hs Ht].
    assert (by_key !! key = Some t) as Hk.
    { apply elem_of_map_to_list. assert ((t, key) ∈ swap <$> map_to_list by_key) as Hin
        by (rewrite <- Hp; set_solver).
      apply list_elem_of_fmap in Hin as ([k v] & [= -> ->] & Hin). done. }
    destruct (Z.leb_spec t now) as [Hle|Hgt].
    + assert (agree (mk (delete key by_key) l)) as Hc'.
      { split; cbn; [done|]. apply (Permutation_cons_inv (a := (t, key))). rewrite Hp.
        by rewrite <- (map_to_list_delete by_key key t Hk). }
      specialize (IH (delete key by_key) (n + 1) Hc').
      destruct (evict_loop now (delete key by_key) l (n + 1)) as [evicted c].
      destruct IH as (Hagree & Hkeys & ->). split_and!; [done| |].
      * rewrite Hkeys. apply map_eq. intros k. rewrite !map_lookup_filter.
        destruct (decide (k = key)) as [->|]; [|by rewrite lookup_delete_ne].
        rewrite lookup_delete_eq, Hk. cbn. rewrite option_guard_False; [done|lia].
      * pose proof (map_size_delete_Some key by_key (mk_is_Some _ _ Hk)) as Hsz.
        assert (size by_key ≠ 0)%nat by (intros ->%map_size_empty_inv; done). lia.
    + split_and!; [by split; [constructor|]| |cbn; lia].
      symmetry. apply map_filter_id. intros k v Hkv%elem_of_map_to_list. cbn.
      assert ((v, k) ∈ (t, key) :: l) as Hin.
      { rewrite Hp. apply list_elem_of_fmap. by exists (k, v). }
      apply elem_of_cons in Hin as [[= -> ->]|Hin]; [done|].
      rewrite Forall_forall in Ht. assert (t <= v); [|lia]. apply Ht.
      apply list_elem_of_fmap. by exists (v, k).
Qed.

(** C16: the two indexes of the cache of revocations tell the same story.  Starting empty,
    after any sequence of operations the multimap holds exactly the entries of the hash map,
    in the order of the times at which they expire; looking up, inserting and erasing act on
    the hash map as on a plain map; and an eviction removes exactly the entries that have
    expired by then, and answers how many they were, although it only walks a prefix of the
    multimap. *)
Theorem indexes_agree c : agree c →
  agree empty ∧
  (∀ key expires_at, agree (Upsert key expires_at c) ∧
     ∀ key' now, Find key' now (Upsert key expires_at c) =
       if decide (key' = key) then (if expires_at <=? now then None else Some expires_at)
       else Find key' now c) ∧
  (∀ key, agree (Erase key c).2 ∧ ((Erase key c).1 = true ↔ is_Some (m_by_key c !! key)) ∧
     m_by_key (Erase key c).2 = delete key (m_by_key c)) ∧
  (∀ now, agree (EvictExpired now c).2 ∧
     m_by_key (EvictExpired now c).2 = filter (λ kv, now < kv.2) (m_by_key c) ∧
     (EvictExpired now c).1 = Size c - Size (EvictExpired now c).2 ∧
     ∀ key later, now <= later → Find key later (EvictExpired now c).2 = Find key later c).
Proof.
  intros Hc. split_and!; [apply agree_empty|..].
  - intros key expires_at. split; [by apply Upsert_agree|]. intros key' now. unfold Find.
    rewrite Upsert_by_key. destruct (decide (key' = key)) as [->|];
      [by rewrite lookup_insert_eq|by rewrite lookup_insert_ne].
  - intros key. split; [by apply Erase_agree|]. unfold Erase.
    destruct (m_by_key c !! key) eqn:Hk; cbn.
    + split; [split; eauto|done].
    + split; [split; [done|by intros [? ?]]|by rewrite delete_id].
  - intros now. destruct c as [bk be]. pose proof (evict_loop_spec now be bk 0) as He.
    unfold EvictExpired, Size. cbn [m_by_key m_by_expiry].
    destruct (evict_loop now bk be 0) as [evicted c']. cbn [fst snd].
    destruct (He Hc) as (Ha & Hk & ->). split_and!; [done|done|lia|].
    intros key later Hle. unfold Find. rewrite Hk, map_lookup_filter. cbn.
    destruct (bk !! key) as [v|]; [|done]. cbn. destruct (decide (now < v)) as [Hlt|Hge].
    + by rewrite option_guard_True.
    + rewrite option_guard_False by done. destruct (Z.leb_spec v later); [done|lia].
Qed.

Lemma indexes_agree_witness :
  let c := Upsert "a" 5 (Upsert "b" 3 (Upsert "a" 2 empty)) in
  m_by_expiry c = [(3, "b"%string); (5, "a"%string)] ∧
  (EvictExpired 4 c).1 = 1 ∧ Find "a" 4 (EvictExpired 4 c).2 = Some 5.
Proof.
  set (c := Upsert "a" 5 (Upsert "b" 3 (Upsert "a" 2 empty))). split; [reflexivity|].
  split; [vm_compute; reflexivity|].
  destruct (indexes_agree c) as (_ & _ & _ & H).
  - unfold c. apply Upsert_agree, Upsert_agree, Upsert_agree, agree_empty.
  - destruct (H 4) as (_ & _ & _ & Hf). rewrite (Hf "a"%string 4); [vm_compute; reflexivity|lia].
Defined.

End ExpiryCache.
