(* ===== verification/Tokens.v ===== *)
(** * Tokens

    [src/src/services/TokenService.cpp]: access, refresh and share tokens, the store of refresh
    tokens in Redis and the revocation of access tokens.  Signing, decoding and verifying a JWT
    and the digest of a token are parameters.  The cache of revocations is shared by all
    requests of a process: an operation is given the cache it finds and answers with the
    entries it upserts. *)

From S2P Require Import Prelude Errors Storage Db Json Numerals Redis ExpiryCache.

Local Open Scope string_scope.

(** ** Claims *)

(** A decoded token: the registered claims and the others. *)
Record Jwt := mkJwt {
  jwt_issuer : string;
  jwt_subject : string;
  jwt_claims : list (string * json);
  jwt_issued_at : Z;
  jwt_expires_at : Z
}.

(** What [jwt::verifier::verify] throws. *)
Inductive verification_error := TokenExpiredError | OtherVerificationError.

(** [has_payload_claim], [get_payload_claim], which throws when there is none, and the typed
    readings, which throw on another type. *)
Definition get_payload_claim (name : string) (decoded : Jwt) : option json :=
  snd <$> List.find (λ kv, kv.1 =? name) (jwt_claims decoded).

Definition has_payload_claim (name : string) (decoded : Jwt) : bool :=
  bool_decide (is_Some (get_payload_claim name decoded)).

Definition as_string (j : json) : option string :=
  match j with JString s => Some s | _ => None end.

Definition as_integer (j : json) : option Z :=
  match j with JInt z => Some z | _ => None end.

Definition string_claim (name : string) (decoded : Jwt) : option string :=
  get_payload_claim name decoded ≫= as_string.

(** An integer claim that may be missing. *)
Definition optional_claim (name : string) (missing : Z) (decoded : Jwt) : option Z :=
  match get_payload_claim name decoded with
  | None => Some missing
  | Some j => i32 <$> as_integer j
  end.

Record AccessTokenClaims := mkAccessTokenClaims {
  at_user_id : Z;
  at_username : string;
  at_jti : string;
  at_role : Z;
  at_status : Z
}.

Record ShareTokenScope := mkShareTokenScope {
  ss_share_id : string;
  ss_permission : string
}.

Record ShareTokenClaims := mkShareTokenClaims {
  sh_share_code : string;
  sh_share_id : Z;
  sh_jti : string;
  sh_scope : ShareTokenScope
}.

Definition REFRESH_TOKEN_TTL : Z := 604800.
Definition ACCESS_TOKEN_TTL : Z := 7200.
Definition GetAccessTokenExpireSeconds : Z := 7200.
Definition GetRefreshTokenExpireSeconds : Z := 604800.
Definition GetShareTokenExpireSeconds : Z := 3600.

Definition IsValidSharePermission (permission : string) : bool :=
  (permission =? "view") || (permission =? "download").

Definition access_claims (user_id : Z) (username : string) (role status now : Z) (jti : string)
  : Jwt :=
  mkJwt "disk" (to_string user_id)
    [("username", JString username); ("type", JString "access"); ("jti", JString jti);
     ("role", JInt role); ("status", JInt status)]
    now (now + GetAccessTokenExpireSeconds).

Definition refresh_claims (user_id now : Z) (jti : string) : Jwt :=
  mkJwt "disk" (to_string user_id)
    [("type", JString "refresh"); ("jti", JString jti)]
    now (now + GetRefreshTokenExpireSeconds).

Definition share_claims (share_code : string) (share_id : Z) (permission : string) (now : Z)
    (jti : string) : Jwt :=
  mkJwt "disk_share" (to_string share_id)
    [("share_code", JString share_code); ("type", JString "share"); ("jti", JString jti);
     ("scope", JObject [("share_id", JString share_code); ("permission", JString permission)])]
    now (now + GetShareTokenExpireSeconds).

Section tokens.
(** Signing with a secret; the claims of a token, unless it is malformed; the check of a token
    with a secret, for an issuer, at a time; the digest of a token in hexadecimal. *)
Context (jwt_sign : string → Jwt → string) (jwt_decode : string → option Jwt)
  (jwt_verify : string → string → Z → string → option verification_error)
  (HashToken : string → Result string) (m_jwt_secret : string).

Definition GenerateTokens (user_id : Z) (username : string) (role status now : Z)
    (access_jti refresh_jti : string) : string * string :=
  (jwt_sign m_jwt_secret (access_claims user_id username role status now access_jti),
   jwt_sign m_jwt_secret (refresh_claims user_id now refresh_jti)).

(** The checks all verifications begin with: the type of the token, unless it is refused. *)
Definition verified_claims (jwt_secret issuer token : string) (now : Z) (rejected : Code)
  : Result (Jwt * string) :=
  match jwt_decode token with
  | None => Err (err TokenMalformed)
  | Some decoded =>
      match jwt_verify jwt_secret issuer now token with
      | Some TokenExpiredError => Err (err TokenExpired)
      | Some OtherVerificationError => Err (err rejected)
      | None =>
          match string_claim "type" decoded with
          | None => Err (err TokenMalformed)
          | Some type => Ok (decoded, type)
          end
      end
  end.

Definition VerifyAccessToken (token : string) (now : Z) : Result AccessTokenClaims :=
  '(decoded, type) ← verified_claims m_jwt_secret "disk" token now InvalidToken;
  if negb (type =? "access") then Err (err TokenWrongType)
  else
    default (Err (err TokenMalformed))
      (username ← string_claim "username" decoded;
       jti ← string_claim "jti" decoded;
       user_id ← stoull (jwt_subject decoded);
       role ← optional_claim "role" 0%Z decoded;
       status ← optional_claim "status" 1%Z decoded;
       Some (Ok (mkAccessTokenClaims user_id username jti role status))).

Definition VerifyRefreshToken (token : string) (now : Z) : Result (Z * string) :=
  '(decoded, type) ← verified_claims m_jwt_secret "disk" token now InvalidRefreshToken;
  if negb (type =? "refresh") then Err (err TokenWrongType)
  else
    default (Err (err TokenMalformed))
      (jti ← string_claim "jti" decoded;
       user_id ← stoull (jwt_subject decoded);
       Some (Ok (user_id, jti))).

Definition ExtractJti (token : string) : Result string :=
  default (Err (err TokenMalformed))
    (decoded ← jwt_decode token; jti ← string_claim "jti" decoded; Some (Ok jti)).

Definition GenerateShareToken (jwt_secret share_code : string) (share_id : Z) (permission : string)
    (now : Z) (jti : string) : Result string :=
  if negb (IsValidSharePermission permission) then
    Err (mkErrorInfo InvalidParameter "Invalid share permission")
  else Ok (jwt_sign jwt_secret (share_claims share_code share_id permission now jti)).

(** The whole of a text as a number. *)
Definition stoull_all (s : string) : option Z :=
  '(n, rest) ← stoull_pos s; if str_empty rest then Some n else None.

Definition scope_of (share_code : string) (scope : json) : option ShareTokenScope :=
  if negb (isObject scope) then None
  else
  scope_share_id ← as_string (json_get scope "share_id");
  scope_permission ← as_string (json_get scope "permission");
  if negb (scope_share_id =? share_code) || negb (IsValidSharePermission scope_permission)
  then None else Some (mkShareTokenScope scope_share_id scope_permission).

Definition VerifyShareToken (jwt_secret token : string) (now : Z) : Result ShareTokenClaims :=
  if str_empty token then Err (mkErrorInfo TokenMalformed "Token is empty")
  else
  '(decoded, type) ← verified_claims jwt_secret "disk_share" token now TokenMalformed;
  if negb (type =? "share") then Err (err TokenWrongType)
  else
    default (Err (err TokenMalformed))
      (share_code ← string_claim "share_code" decoded;
       jti ← string_claim "jti" decoded;
       share_id ← stoull_all (jwt_subject decoded);
       if str_empty share_code || str_empty jti || (share_id =? 0)%Z then None
       else
       scope ← get_payload_claim "scope" decoded ≫= scope_of share_code;
       Some (Ok (mkShareTokenClaims share_code share_id jti scope))).

(** ** Redis *)

Section redis.
Context {S : Type} `{HasRedis S}.

Definition StoreRefreshToken (user_id : Z) (refresh_token : string) : M S (Result unit) :=
  match HashToken refresh_token with
  | Err e => mret (Err e)
  | Ok hash => RedisSet (BuildRefreshTokenKey user_id) hash REFRESH_TOKEN_TTL
  end.

Definition RefreshRefreshToken (user_id : Z) (old_token new_token : string) : M S (Result unit) :=
  match HashToken old_token, HashToken new_token with
  | Err e, _ | Ok _, Err e => mret (Err e)
  | Ok old_hash, Ok new_hash =>
      let* swapped := CompareAndSwap (BuildRefreshTokenKey user_id) old_hash new_hash
        REFRESH_TOKEN_TTL in
      mret (if (swapped : bool) then Ok tt else Err (err RefreshTokenAlreadyUsed))
  end.

Definition RevokeRefreshToken (user_id : Z) : M S (Result unit) :=
  RedisDelete (BuildRefreshTokenKey user_id).

(** The entries to upsert: keys with the times at which they expire. *)
Definition CacheEdits : Type := list (string * Z).

Definition upserts (edits : CacheEdits) (cache : ExpiryCache.t) : ExpiryCache.t :=
  fold_left (λ c kv, ExpiryCache.Upsert kv.1 kv.2 c) edits cache.

(** [steady] is the steady clock, in seconds. *)
Definition InvalidateAccessToken (token : string) (steady : Z) : M S (Result unit * CacheEdits) :=
  match ExtractJti token with
  | Err e => mret (Err e, [])
  | Ok jti =>
      result ← RedisSet (BuildAccessTokenBlacklistKey jti) "1" ACCESS_TOKEN_TTL;
      mret (match (result : Result unit) with
            | Err e => (Err e, [])
            | Ok _ => (Ok tt, [(jti, (steady + GetAccessTokenExpireSeconds)%Z)])
            end)
  end.

(** [IsAccessTokenRevoked] and [IsShareTokenRevoked]: first the cache, then Redis. *)
Definition is_revoked (cache : ExpiryCache.t) (id key : string) (steady ttl : Z)
  : M S (Result bool * CacheEdits) :=
  match ExpiryCache.Find id steady cache with
  | Some _ => mret (Ok true, [])
  | None =>
      revoked ← RedisExists key;
      mret (match (revoked : Result bool) with
            | Err e => (Err e, [])
            | Ok true => (Ok true, [(id, (steady + ttl)%Z)])
            | Ok false => (Ok false, [])
            end)
  end.

Definition IsAccessTokenRevoked (cache : ExpiryCache.t) (jti : string) (steady : Z)
  : M S (Result bool * CacheEdits) :=
  is_revoked cache jti (BuildAccessTokenBlacklistKey jti) steady GetAccessTokenExpireSeconds.

Definition IsShareTokenRevoked (cache : ExpiryCache.t) (token_hash : string) (steady : Z)
  : M S (Result bool * CacheEdits) :=
  is_revoked cache token_hash (BuildShareTokenBlacklistKey token_hash) steady
    GetShareTokenExpireSeconds.

Definition VerifyShareTokenWithRedis (cache : ExpiryCache.t) (token : string) (now steady : Z)
  : M S (Result ShareTokenClaims * CacheEdits) :=
  match VerifyShareToken m_jwt_secret token now, HashToken token with
  | Err e, _ | Ok _, Err e => mret (Err e, [])
  | Ok claims, Ok token_hash =>
      '(revoked, edits) ← IsShareTokenRevoked cache token_hash steady;
      mret (match (revoked : Result bool) with
            | Err e => (Err e, edits)
            | Ok true => (Err (err TokenRevoked), edits)
            | Ok false => (Ok claims, edits)
            end)
  end.
End redis.
End tokens.
