(* ===== verification/RedisLaws.v ===== *)
(** * Commands of Redis under interference

    How the commands of [Redis.v] keep an invariant of the state and what they answer, and the
    entries of the server. *)

From S2P Require Import Prelude Errors Storage Db Rely Numerals Redis.

Section laws.
Context {S : Type} `{HasRedis S} (R : S → S → Prop) `{!PreOrder R}.

Lemma respects_redis_exec {A} I (q : Redis → option (A * Redis)) :
  (∀ s a r, I s → q (redis_of s) = Some (a, r) → I (with_redis r s) ∧ R s (with_redis r s)) →
  Respects R I (exec (λ s, '(a, r) ← q (redis_of s); Some (a, with_redis r s))).
Proof.
  intros Hq. apply respects_exec; [done|]. intros s a s' HI E.
  apply bind_Some in E as ([b r] & E & [= <- <-]). eauto.
Qed.

Lemma respects_redis_call {A} I (q : Redis → option (A * Redis)) :
  (∀ s a r, I s → q (redis_of s) = Some (a, r) → I (with_redis r s) ∧ R s (with_redis r s)) →
  Respects R I (redis_call q).
Proof.
  intros Hq. pose proof (respects_redis_exec I q Hq). unfold redis_call. apply _.
Qed.

Lemma yields_redis_call {A} I (q : Redis → option (A * Redis)) (Q : Result A → S → Prop) :
  (∀ s a r, I s → q (redis_of s) = Some (a, r) → I (with_redis r s) ∧ R s (with_redis r s)) →
  (∀ s a r, I s → q (redis_of s) = Some (a, r) → Q (Ok a) (with_redis r s)) →
  (∀ s, I s → Q (Err redis_failed) s) → yields R I (redis_call q) Q.
Proof.
  intros Hr Hq He. pose proof (respects_redis_exec I q Hr).
  apply yields_catch_all_ret; [apply _| |done]. apply yields_map, yields_exec; [done|].
  intros s a s' HI E. apply bind_Some in E as ([b r] & E & [= <- <-]). eauto.
Qed.
End laws.

(** ** Entries *)

Lemma redis_get_put key e r :
  redis_get key (redis_put key e r) = if entry_live (rd_time r) e then Some (re_value e) else None.
Proof. unfold redis_get, redis_put. cbn. by rewrite lookup_insert_eq. Qed.

Lemma redis_get_set_ex key value seconds r : 0 < seconds →
  redis_get key (redis_set_ex key value seconds r) = Some value.
Proof.
  intros Hs. unfold redis_set_ex. rewrite redis_get_put. unfold entry_live. cbn.
  destruct (Z.ltb_spec (rd_time r) (rd_time r + seconds * 1000)); [done|lia].
Qed.

(** The scripts set one key. *)
Lemma cas_script_get key expected new_value ttl r : 0 < ttl →
  redis_get key (cas_script key expected new_value ttl r).2 =
    if (cas_script key expected new_value ttl r).1 then Some new_value else redis_get key r.
Proof.
  intros Ht. unfold cas_script. destruct (bool_decide _); cbn; [by apply redis_get_set_ex|done].
Qed.
