(* ===== verification/Auth.v ===== *)
(** * Accounts and sessions

    [src/src/services/AuthService.cpp]: registering, logging in, refreshing a session and
    logging out, over the rows of [users] with the columns that matter here, the audit trail
    and Redis. *)

From S2P Require Import Prelude Errors Storage Db Json Schema Redis ExpiryCache Tokens.

Local Open Scope string_scope.

(** ** The state *)

(** A row of [users] ([drogon_model::disk::Users]). *)
Record Users := mkUsers {
  us_username : string;
  us_email : string;
  us_password_hash : string;
  us_nickname : option string;
  us_avatar : option string;
  us_storage_quota : Z;
  us_storage_used : Z;
  us_storage_reserved : Z;
  us_status : Z;
  us_role : Z;
  us_login_attempts : Z;
  us_locked_until : option Z;
  us_last_login_at : option Z;
  us_last_login_ip : option string;
  us_created_at : Z;
  us_updated_at : Z
}.

Record AuthState := mkAuthState {
  au_users : gmap Z Users;
  au_users_id_seq : Z;
  au_logs : list OperationLogRow;
  au_now : Z;
  au_redis : Redis
}.

#[global] Program Instance AuthState_redis : HasRedis AuthState :=
  {| redis_of := au_redis; with_redis r s := s <| au_redis := r |> |}.
Solve Obligations with by intros; repeat match goal with s : AuthState |- _ => destruct s end.

Definition ACCOUNT_STATUS_DISABLED : Z := 0.
Definition ACCOUNT_STATUS_ACTIVE : Z := 1.
Definition ACCOUNT_STATUS_LOCKED : Z := 2.
Definition LOGIN_FAILURE_LIMIT : Z := 5.
Definition DEFAULT_STORAGE_QUOTA : Z := 10737418240.

Definition minutes : Z := (60 * 1000000)%Z.

(** ** Statements *)

Definition count_matching (username email : string) (s : AuthState) : Z * Z :=
  (count_rows (λ _ u, us_username u =? username) (au_users s),
   count_rows (λ _ u, us_email u =? email) (au_users s)).

(** The constraints of the columns that take texts. *)
Definition users_row_ok (u : Users) : bool :=
  (varchar 32 (us_username u) && varchar 128 (us_email u) && varchar 255 (us_password_hash u) &&
   varchar 64 (default "" (us_nickname u)) && varchar 512 (default "" (us_avatar u)) &&
   varchar 45 (default "" (us_last_login_ip u)))%bool.

(** [INSERT ... RETURNING *]. *)
Definition insert_user (u : Users) (s : AuthState) : option ((Z * Users) * AuthState) :=
  if negb (users_row_ok u) ||
     exists_row (λ _ v, (us_username v =? us_username u) || (us_email v =? us_email u)) (au_users s)
  then None
  else
    let id := au_users_id_seq s in
    Some ((id, u), s <| au_users := <[id := u]> (au_users s) |> <| au_users_id_seq := (id + 1)%Z |>).

(** [UPDATE ... WHERE id = ...] by a mapper, with the trigger of the table: the number of rows
    changed. *)
Definition update_user (user_id : Z) (f : Users → Users) (s : AuthState) : option (Z * AuthState) :=
  match au_users s !! user_id with
  | None => Some (0%Z, s)
  | Some u =>
      let u := (f u) <| us_updated_at := au_now s |> in
      if users_row_ok u then Some (1%Z, s <| au_users := <[user_id := u]> (au_users s) |>)
      else None
  end.

(** [username = $1 OR email = $1 LIMIT 1]. *)
Definition select_account (account : string) (s : AuthState) : option (Z * Users) :=
  find_row (λ _ u, (us_username u =? account) || (us_email u =? account)) (au_users s).

Definition locked_past (u : Users) (now : Z) : bool :=
  match us_locked_until u with Some t => (t <=? now)%Z | None => false end.

Definition locked_ahead (u : Users) (now : Z) : bool :=
  match us_locked_until u with Some t => (now <? t)%Z | None => false end.

(** [(status = 2 AND locked_until IS NULL) OR COALESCE(locked_until > NOW(), FALSE)]. *)
Definition account_locked (u : Users) (now : Z) : bool :=
  (us_status u =? ACCOUNT_STATUS_LOCKED)%Z && bool_decide (us_locked_until u = None) ||
  locked_ahead u now.

(** The condition under which a login, or a failure, is recorded. *)
Definition account_open (u : Users) (now : Z) : bool :=
  (us_status u =? ACCOUNT_STATUS_ACTIVE)%Z &&
    (bool_decide (us_locked_until u = None) || locked_past u now) ||
  (us_status u =? ACCOUNT_STATUS_LOCKED)%Z && locked_past u now.

(** The update of a successful login; the answer tells whether a row was changed. *)
Definition login_statement (user_id : Z) (client_ip : string) (s : AuthState)
  : option (bool * AuthState) :=
  match au_users s !! user_id with
  | Some u =>
      if account_open u (au_now s) then
        if varchar 45 client_ip then
          Some (true, s <| au_users := <[user_id :=
            u <| us_status := ACCOUNT_STATUS_ACTIVE |> <| us_login_attempts := 0%Z |>
              <| us_locked_until := None |> <| us_last_login_at := Some (au_now s) |>
              <| us_last_login_ip := Some client_ip |> <| us_updated_at := au_now s |>]>
            (au_users s) |>)
        else None
      else Some (false, s)
  | None => Some (false, s)
  end.

(** The attempts after one more failure. *)
Definition next_attempts (u : Users) (now : Z) : Z :=
  if locked_past u now then 1%Z else (us_login_attempts u + 1)%Z.

(** The update of a failed login; the answer, when a row was changed, tells whether the
    account is locked. *)
Definition failure_statement (user_id : Z) (s : AuthState) : option (option bool * AuthState) :=
  match au_users s !! user_id with
  | Some u =>
      if account_open u (au_now s) then
        attempts ← int4 (next_attempts u (au_now s));
        let locked_until := if (LOGIN_FAILURE_LIMIT <=? attempts)%Z
                            then Some (au_now s + 15 * minutes)%Z else None in
        let u := u <| us_status := ACCOUNT_STATUS_ACTIVE |> <| us_login_attempts := attempts |>
                   <| us_locked_until := locked_until |> <| us_updated_at := au_now s |> in
        Some (Some (locked_ahead u (au_now s)), s <| au_users := <[user_id := u]> (au_users s) |>)
      else Some (None, s)
  | None => Some (None, s)
  end.

Definition insert_log (o : OperationLogRow) (s : AuthState) : option (unit * AuthState) :=
  if varchar 32 (o_action o) && varchar 45 (o_ip_address o) &&
     bool_decide (is_Some (o_user_id o ≫= λ u, au_users s !! u))
  then Some (tt, s <| au_logs := (au_logs s ++ [o])%list |>) else None.

(** ** Requests and responses *)

Record RegisterRequest := mkRegisterRequest {
  rq_username : string;
  rq_email : string;
  rq_password : string
}.

Record RegisterResponse := mkRegisterResponse {
  rr_id : Z;
  rr_username : string;
  rr_email : string;
  rr_nickname : string;
  rr_storage_quota : Z;
  rr_storage_used : Z;
  rr_created_at : string
}.

Record LoginRequest := mkLoginRequest {
  lq_account : string;
  lq_password : string
}.

Record LoginResponse := mkLoginResponse {
  lr_access_token : string;
  lr_refresh_token : string;
  lr_token_type : string;
  lr_expires_in : Z;
  lr_user : RegisterResponse
}.

Record RefreshTokenResponse := mkRefreshTokenResponse {
  rf_access_token : string;
  rf_refresh_token : string;
  rf_expires_in : Z
}.

(** ** The service *)

Section service.
(** The tokens and their digest, as in [Tokens.v]; the hash of a password with its salt and its
    check; the text of a date. *)
Context (jwt_sign : string → Jwt → string) (jwt_decode : string → option Jwt)
  (jwt_verify : string → string → Z → string → option verification_error)
  (HashToken : string → Result string) (m_jwt_secret : string)
  (HashPassword : string → Result string) (VerifyPassword : string → string → bool)
  (toDbStringLocal : Z → string).

Definition UserToResponse (id : Z) (user : Users) : RegisterResponse :=
  mkRegisterResponse id (us_username user) (us_email user)
    (default (us_username user) (us_nickname user)) (us_storage_quota user) (us_storage_used user)
    (toDbStringLocal (us_created_at user)).

Definition RegistrationFailed : ErrorInfo :=
  mkErrorInfo InternalError "Registration failed, please try again later".

(** The row of a new account; [created_at] and [updated_at] are defaults of the table. *)
Definition new_user (request : RegisterRequest) (password_hash : string) (now : Z) : Users :=
  mkUsers (rq_username request) (rq_email request) password_hash (Some (rq_username request)) None
    DEFAULT_STORAGE_QUOTA 0 0 ACCOUNT_STATUS_ACTIVE 0 0 None None None now now.

Definition insert_account (request : RegisterRequest) (password_hash : string)
  : M AuthState (Result RegisterResponse) :=
  catch_db
    ('(id, user) ← exec (λ s, insert_user (new_user request password_hash (au_now s)) s);
     mret (Ok (UserToResponse id user)))
    (mret (Err RegistrationFailed)).

Definition Register (request : RegisterRequest) : M AuthState (Result RegisterResponse) :=
  let* _ := catch_db
    ('(username_count, email_count) ← query (count_matching (rq_username request) (rq_email request));
     mret (if (0 <? username_count)%Z then Err (err UsernameExists)
           else if (0 <? email_count)%Z then Err (err EmailExists) else Ok tt))
    (mret (Err RegistrationFailed)) in
  match HashPassword (rq_password request) with
  | Err e => mret (Err e)
  | Ok password_hash => insert_account request password_hash
  end.

Definition FindUser (account : string) : M AuthState (Result (Z * Users)) :=
  catch_db
    (user ← query (select_account account);
     mret (match (user : option (Z * Users)) with
           | None => Err (err UserNotFound)
           | Some user => Ok user
           end))
    (mret (Err (err UserNotFound))).

Definition AccessCheckFailed : ErrorInfo :=
  mkErrorInfo InternalError "Failed to validate account status".

Definition ValidateAccountAccess (user_id : Z) : M AuthState (Result unit) :=
  catch_db
    (row ← query (λ s, (λ u, (us_status u, account_locked u (au_now s))) <$> au_users s !! user_id);
     mret (match (row : option (Z * bool)) with
           | None => Err (err UserNotFound)
           | Some (status, locked) =>
               if (status =? ACCOUNT_STATUS_DISABLED)%Z then Err (err AccountDisabled)
               else if locked then Err (err AccountLocked) else Ok tt
           end))
    (mret (Err AccessCheckFailed)).

Definition LoginStateFailed : ErrorInfo :=
  mkErrorInfo InternalError "Failed to update login state".

Definition UpdateLoginInfo (user_id : Z) (client_ip : string) : M AuthState (Result unit) :=
  catch_db
    (updated ← exec (login_statement user_id client_ip);
     if negb (updated : bool) then
       let* _ := ValidateAccountAccess user_id in mret (Err LoginStateFailed)
     else
       _ ← RedisDelete (BuildLoginRateLimitKey client_ip);
       mret (Ok tt))
    (mret (Err LoginStateFailed)).

Definition IncrementLoginAttempts (user_id : Z) : M AuthState (Result unit) :=
  catch_db
    (_ ← exec (failure_statement user_id); mret (Ok tt))
    (mret (Err (mkErrorInfo InternalError "Failed to record login attempt"))).

(** [now] is the clock of the tokens, in seconds. *)
Definition issue (user : Z * Users) (now : Z) (access_jti refresh_jti : string) : string * string :=
  GenerateTokens jwt_sign m_jwt_secret user.1 (us_username user.2) (us_role user.2)
    ACCOUNT_STATUS_ACTIVE now access_jti refresh_jti.

(** What follows the limit on logins by address. *)
Definition login_account (request : LoginRequest) (client_ip : string) (now : Z)
    (access_jti refresh_jti : string) : M AuthState (Result LoginResponse) :=
  let* user := FindUser (lq_account request) in
  let* _ := ValidateAccountAccess user.1 in
  if negb (VerifyPassword (lq_password request) (us_password_hash user.2)) then
    let* _ := IncrementLoginAttempts user.1 in
    mret (Err (err InvalidCredentials))
  else
    let* _ := UpdateLoginInfo user.1 client_ip in
    let (access_token, refresh_token) := issue user now access_jti refresh_jti in
    _ ← StoreRefreshToken HashToken user.1 refresh_token;
    mret (Ok (mkLoginResponse access_token refresh_token "Bearer" GetAccessTokenExpireSeconds
      (UserToResponse user.1 user.2))).

Definition TooManyLogins : ErrorInfo :=
  mkErrorInfo TooManyRequests "Too many login attempts, please try again in 5 minutes".

Definition Login (request : LoginRequest) (ip_address : string) (now : Z)
    (access_jti refresh_jti : string) : M AuthState (Result LoginResponse) :=
  let client_ip := ExtractIPOnly ip_address in
  incr_result ← IncrWithExpire (BuildLoginRateLimitKey client_ip) 300;
  match (incr_result : Result Z) with
  | Ok count =>
      if (5 <? count)%Z then mret (Err TooManyLogins)
      else login_account request client_ip now access_jti refresh_jti
  | Err _ => login_account request client_ip now access_jti refresh_jti
  end.

(** [mapper.findOne]: exactly one row, or an exception. *)
Definition find_one (user_id : Z) : M AuthState Users :=
  user ← query (λ s, au_users s !! user_id);
  match (user : option Users) with None => raise DbException | Some user => mret user end.

Definition RefreshTokens (refresh_token : string) (now : Z) (access_jti refresh_jti : string)
  : M AuthState (Result RefreshTokenResponse) :=
  match VerifyRefreshToken jwt_decode jwt_verify m_jwt_secret refresh_token now with
  | Err e => mret (Err e)
  | Ok (user_id, _) =>
      catch_db
        (user ← find_one user_id;
         let* _ := ValidateAccountAccess user_id in
         let (access_token, new_refresh_token) := issue (user_id, user) now access_jti refresh_jti in
         let* _ := RefreshRefreshToken HashToken user_id refresh_token new_refresh_token in
         mret (Ok (mkRefreshTokenResponse access_token new_refresh_token
           GetAccessTokenExpireSeconds)))
        (mret (Err (err UserNotFound)))
  end.

Definition logout_log (user_id : Z) (client_ip : string) (date : Z) : OperationLogRow :=
  mkOperationLogRow (Some user_id) "logout" (Some "user") (Some 0%Z) None
    (Some (JObject [("message", JString "User logged out")])) client_ip None date.

(** [steady] is the steady clock in seconds, [date] the clock of the audit trail. *)
Definition Logout (user_id : Z) (access_token ip_address : string) (steady date : Z)
  : M AuthState (Result unit * CacheEdits) :=
  let client_ip := ExtractIPOnly ip_address in
  '(invalidated, edits) ← InvalidateAccessToken jwt_decode access_token steady;
  match (invalidated : Result unit) with
  | Err _ => mret (Err (mkErrorInfo InternalError "Logout failed, please try again later"), edits)
  | Ok _ =>
      _ ← RevokeRefreshToken user_id;
      _ ← catch_db (exec (insert_log (logout_log user_id client_ip date))) (mret tt);
      mret (Ok tt, edits)
  end.
End service.
