(* ===== verification/AccountAdmin.v ===== *)
(** * Changes to accounts

    The operations of [src/src/services/UserService.cpp] and
    [src/src/services/AdminService.cpp] that change a row of [users]: the password and profile
    of a user, and what an administrator does to the account of another. *)

From S2P Require Import Prelude Errors Storage Db Json Schema Redis Auth.

Local Open Scope string_scope.

(** [findOne] by identifier, then a continuation; a missing row is [UnexpectedRows]. *)
Definition with_user {A} (user_id : Z) (missing : ErrorInfo) (k : Users → M AuthState (Result A))
  : M AuthState (Result A) :=
  user ← query (λ s, au_users s !! user_id);
  match (user : option Users) with None => mret (Err missing) | Some user => k user end.

(** [mapper.update]: the columns that were set are written. *)
Definition mapper_update (user_id : Z) (f : Users → Users) : M AuthState Z :=
  exec (update_user user_id f).

Section user.
Context (HashPassword : string → Result string) (VerifyPassword : string → string → bool)
  (toDbStringLocal : Z → string).

Record UserProfileResponse := mkUserProfileResponse {
  up_id : Z;
  up_username : string;
  up_email : string;
  up_nickname : string;
  up_avatar : string;
  up_storage_quota : Z;
  up_storage_used : Z;
  up_file_count : Z;
  up_folder_count : Z;
  up_created_at : string;
  up_updated_at : string
}.

Definition ChangePassword (user_id : Z) (old_password new_password : string)
  : M AuthState (Result unit) :=
  catch_db
    (with_user user_id (err UserNotFound) (λ user,
       if negb (VerifyPassword old_password (us_password_hash user)) then
         mret (Err (mkErrorInfo InvalidCredentials "Old password is incorrect"))
       else if old_password =? new_password then
         mret (Err (mkErrorInfo ValidationFailed "New password cannot be the same as old password"))
       else
       match HashPassword new_password with
       | Err _ => mret (Err (mkErrorInfo InternalError
                    "Password encryption failed, please try again later"))
       | Ok password_hash =>
           _ ← mapper_update user_id (λ u, u <| us_password_hash := password_hash |>);
           mret (Ok tt)
       end))
    (mret (Err (mkErrorInfo InternalError "Failed to change password, please try again later"))).

(** The columns a profile sets. *)
Definition set_profile (nickname avatar : option string) (u : Users) : Users :=
  let u := match nickname with Some n => u <| us_nickname := Some n |> | None => u end in
  match avatar with Some a => u <| us_avatar := Some a |> | None => u end.

(** An update that sets no column is not a statement. *)
Definition update_profile_row (user_id : Z) (nickname avatar : option string) (s : AuthState)
  : option (Z * AuthState) :=
  match nickname, avatar with
  | None, None => None
  | _, _ => update_user user_id (set_profile nickname avatar) s
  end.

Definition ProfileUpdateFailed : ErrorInfo :=
  mkErrorInfo InternalError "Failed to update user profile, please try again later".

Definition UpdateProfile (user_id : Z) (nickname avatar : option string)
  : M AuthState (Result UserProfileResponse) :=
  catch_db
    (with_user user_id (err UserNotFound) (λ user,
       let user := set_profile nickname avatar user in
       _ ← exec (update_profile_row user_id nickname avatar);
       mret (Ok (mkUserProfileResponse user_id (us_username user) (us_email user)
         (default "" (us_nickname user)) (default "" (us_avatar user))
         (us_storage_quota user) (us_storage_used user) 0 0
         (toDbStringLocal (us_created_at user)) (toDbStringLocal (us_updated_at user))))))
    (mret (Err ProfileUpdateFailed)).
End user.

(** ** Administrators *)

Section admin.
(** The fields that correlate a log entry with its request; the text of a date. *)
Context (correlation : list (string * json)) (toDbStringLocal : Z → string).

Definition LogOperation (operator_id : Z) (action target_type : string) (target_id : Z)
    (target_name : string) (details : list (string * json)) : M AuthState unit :=
  catch_db
    (exec (λ s, insert_log (mkOperationLogRow (Some operator_id) action (Some target_type)
       (Some target_id) (Some target_name) (Some (JObject (details ++ correlation)%list)) "system"
       None (au_now s)) s))
    (mret tt).

(** [static_cast<int8_t>]. *)
Definition i8 (z : Z) : Z := ((z + 2 ^ 7) mod 2 ^ 8 - 2 ^ 7)%Z.

Definition ChangeUserStatus (target_id status operator_id : Z) : M AuthState (Result unit) :=
  if (target_id =? operator_id)%Z then mret (Err (err AdminCannotModifySelf))
  else
  catch_db
    (with_user target_id (err AdminUserNotFound) (λ user,
       _ ← mapper_update target_id (λ u, u <| us_status := i8 status |> <| us_login_attempts := 0%Z |>
                                           <| us_locked_until := None |>);
       _ ← LogOperation operator_id "admin.user.status_change" "user" target_id (us_username user)
             [("target_id", JInt target_id); ("status", JInt status)];
       mret (Ok tt)))
    (mret (Err (mkErrorInfo InternalError "Failed to change user status"))).

Definition count_admins (s : AuthState) : Z := count_rows (λ _ u, (us_role u =? 1)%Z) (au_users s).

(** The check that the last administrator is not demoted. *)
Definition may_demote (role : Z) (user : Users) : M AuthState (Result unit) :=
  if (role =? 0)%Z && (us_role user =? 1)%Z then
    catch_db
      (admin_count ← query count_admins;
       mret (if (admin_count <=? 1)%Z then Err (err AdminCannotDemoteLast) else Ok tt))
      (mret (Err (mkErrorInfo InternalError "Failed to verify admin count")))
  else mret (Ok tt).

Definition ChangeUserRole (target_id role operator_id : Z) : M AuthState (Result unit) :=
  if (target_id =? operator_id)%Z then mret (Err (err AdminCannotModifySelf))
  else
  catch_db
    (with_user target_id (err AdminUserNotFound) (λ user,
       let* _ := may_demote role user in
       _ ← mapper_update target_id (λ u, u <| us_role := i8 role |>);
       _ ← LogOperation operator_id "admin.user.role_change" "user" target_id (us_username user)
             [("target_id", JInt target_id); ("role", JInt role)];
       mret (Ok tt)))
    (mret (Err (mkErrorInfo InternalError "Failed to change user role"))).

Record UserDetailResponse := mkUserDetailResponse {
  ud_id : Z;
  ud_username : string;
  ud_email : string;
  ud_nickname : string;
  ud_avatar : string;
  ud_role : Z;
  ud_status : Z;
  ud_storage_quota : Z;
  ud_storage_used : Z;
  ud_storage_reserved : Z;
  ud_created_at : string;
  ud_last_login_at : string
}.

Definition user_detail (id storage_quota : Z) (user : Users) : UserDetailResponse :=
  mkUserDetailResponse id (us_username user) (us_email user) (default "" (us_nickname user))
    (default "" (us_avatar user)) (us_role user) (us_status user) storage_quota
    (us_storage_used user) (us_storage_reserved user) (toDbStringLocal (us_created_at user))
    (from_option toDbStringLocal "" (us_last_login_at user)).

Definition bytes_per_g : Z := (1024 * 1024 * 1024)%Z.

Definition SpaceTooLarge : ErrorInfo := mkErrorInfo ValidationFailed "Available space is too large".

(** The quota that leaves the space asked for, in 64-bit unsigned arithmetic with the checks of
    the source. *)
Definition new_quota (user : Users) (available_space_g : Z) : Result Z :=
  let storage_used := u64 (us_storage_used user) in
  let storage_reserved := u64 (us_storage_reserved user) in
  if (u64_max / bytes_per_g <? available_space_g)%Z then Err SpaceTooLarge
  else
    let available_space_bytes := u64 (available_space_g * bytes_per_g) in
    if (u64_max - storage_reserved <? storage_used)%Z ||
       (u64_max - available_space_bytes <? u64 (storage_used + storage_reserved))%Z
    then Err SpaceTooLarge
    else Ok (u64 (u64 (storage_used + storage_reserved) + available_space_bytes)).

Definition ChangeUserAvailableSpace (target_id available_space_g operator_id : Z)
  : M AuthState (Result UserDetailResponse) :=
  if (target_id =? operator_id)%Z then mret (Err (err AdminCannotModifySelf))
  else
  catch_db
    (with_user target_id (err AdminUserNotFound) (λ user,
       match new_quota user available_space_g with
       | Err e => mret (Err e)
       | Ok new_storage_quota =>
           _ ← mapper_update target_id (λ u, u <| us_storage_quota := i64 new_storage_quota |>);
           _ ← LogOperation operator_id "admin.user.available_space_set" "user" target_id
                 (us_username user)
                 [("target_id", JInt target_id); ("available_space_g", JInt available_space_g);
                  ("old_storage_quota", JInt (u64 (us_storage_quota user)));
                  ("new_storage_quota", JInt new_storage_quota);
                  ("storage_used", JInt (u64 (us_storage_used user)));
                  ("storage_reserved", JInt (u64 (us_storage_reserved user)))];
           mret (Ok (user_detail target_id new_storage_quota user))
       end))
    (mret (Err (mkErrorInfo InternalError "Failed to change user available space"))).

Definition SoftDeleteUser (target_id operator_id : Z) : M AuthState (Result unit) :=
  if (target_id =? operator_id)%Z then mret (Err (err AdminCannotModifySelf))
  else
  catch_db
    (with_user target_id (err AdminUserNotFound) (λ user,
       _ ← mapper_update target_id (λ u, u <| us_status := 0%Z |>);
       _ ← LogOperation operator_id "admin.user.soft_delete" "user" target_id (us_username user)
             [("target_id", JInt target_id); ("username", JString (us_username user))];
       mret (Ok tt)))
    (mret (Err (mkErrorInfo InternalError "Failed to soft delete user"))).
End admin.
