(* ===== verification/Filters.v ===== *)
(** * Request filters

    [src/src/filters/]: what a request passes before it reaches its handler.  [JwtAuthFilter],
    [ShareAuthFilter] and [AdminAuthFilter] say who is asking; the rate limits count requests
    per fixed window in Redis.  A filter answers [None] to let the request on, or the response
    that ends it. *)

From S2P Require Import Prelude Errors Storage Db Json Redis ExpiryCache Tokens.

Local Open Scope string_scope.

(** ** Requests *)

(** What [JwtAuthFilter] and [ShareAuthFilter] leave in the attributes of a request. *)
Record UserAttributes := mkUserAttributes {
  ua_user_id : Z;
  ua_username : string;
  ua_role : Z;
  ua_status : Z
}.

Record ShareAttributes := mkShareAttributes {
  sa_share_code : string;
  sa_share_id : Z;
  sa_share_token_jti : string
}.

Record HttpRequest := mkHttpRequest {
  hq_path : string;
  hq_header : string → string;
  hq_client_ip : string;
  hq_user : option UserAttributes;
  hq_share : option ShareAttributes
}.

(** An error response and the headers added to it. *)
Record Refusal := mkRefusal {
  rf_error : ErrorInfo;
  rf_headers : list (string * string)
}.

Definition refuse (e : ErrorInfo) : option Refusal := Some (mkRefusal e []).

Definition starts_with (path prefix : string) : bool := String.prefix prefix path.

(** ** Who is asking *)

Definition IsPublicPath (path : string) : bool :=
  (path =? "/api/auth/register") || (path =? "/api/auth/login") || (path =? "/api/auth/refresh") ||
  (path =? "/api/health") || (path =? "/api/health/live") || (path =? "/api/health/ready") ||
  (path =? "/metrics") || starts_with path "/api/share/access/" ||
  starts_with path "/api/share/browse/" || starts_with path "/api/share/download/".

Definition RequiresDownloadScope (path : string) : bool :=
  starts_with path "/api/share/download/" || starts_with path "/api/share/save/".

Section auth.
Context (jwt_decode : string → option Jwt)
  (jwt_verify : string → string → Z → string → option verification_error)
  (HashToken : string → Result string) (m_jwt_secret : string).
Context {S : Type} `{HasRedis S}.

(** The token after [Bearer ]. *)
Definition bearer_token (auth_header : string) : Result string :=
  if str_empty auth_header then Err (err TokenMissing)
  else if negb (starts_with auth_header "Bearer ") then Err (err TokenMalformed)
  else Ok (String.substring 7 (String.length auth_header) auth_header).

(** [now] is the clock of the tokens and [steady] the steady clock, in seconds. *)
Definition JwtAuthFilter (cache : ExpiryCache.t) (request : HttpRequest) (now steady : Z)
  : M S (option Refusal * HttpRequest * CacheEdits) :=
  if IsPublicPath (hq_path request) then mret (None, request, [])
  else
  match token ← bearer_token (hq_header request "Authorization");
        VerifyAccessToken jwt_decode jwt_verify m_jwt_secret token now with
  | Err e => mret (refuse e, request, [])
  | Ok claims =>
      '(revoked, edits) ← IsAccessTokenRevoked cache (at_jti claims) steady;
      mret (match (revoked : Result bool) with
            | Err e => (refuse (err (code e)), request, edits)
            | Ok true => (refuse (err TokenRevoked), request, edits)
            | Ok false =>
                (None, request <| hq_user := Some (mkUserAttributes (at_user_id claims)
                   (at_username claims) (at_role claims) (at_status claims)) |>, edits)
            end)
  end.

(** The codes a refused share token is answered with. *)
Definition share_refusal (c : Code) : Code :=
  match c with
  | TokenExpired => TokenExpired
  | TokenRevoked => TokenRevoked
  | RedisOperationFailed => RedisOperationFailed
  | _ => TokenMalformed
  end.

Definition ShareAuthFilter (cache : ExpiryCache.t) (request : HttpRequest) (now steady : Z)
  : M S (option Refusal * HttpRequest * CacheEdits) :=
  let share_token := hq_header request "X-Share-Token" in
  if str_empty share_token then mret (refuse (err TokenMissing), request, [])
  else
    '(verified, edits) ← VerifyShareTokenWithRedis jwt_decode jwt_verify HashToken m_jwt_secret
       cache share_token now steady;
    mret (match (verified : Result ShareTokenClaims) with
          | Err e => (refuse (err (share_refusal (code e))), request, edits)
          | Ok claims =>
              if RequiresDownloadScope (hq_path request) &&
                 negb (ss_permission (sh_scope claims) =? "download")
              then (refuse (err ShareAccessDenied), request, edits)
              else
                (None, request <| hq_share := Some (mkShareAttributes (sh_share_code claims)
                   (sh_share_id claims) (sh_jti claims)) |>, edits)
          end).
End auth.

(** An attribute that is missing is read as a default value. *)
Definition AdminAuthFilter (request : HttpRequest) : option Refusal :=
  if negb (starts_with (hq_path request) "/api/admin/") then None
  else
    let user := default (mkUserAttributes 0 "" 0 0) (hq_user request) in
    if negb (ua_role user =? 1)%Z then refuse (err AdminRequired)
    else if negb (ua_status user =? 1)%Z then refuse (err AdminRequired) else None.

(** ** Rate limits *)

Definition GetFixedWindowStart (window_seconds now : Z) : Z :=
  (Z.quot now window_seconds * window_seconds)%Z.

Definition GetFixedWindowReset (window window_seconds : Z) : Z := (window + window_seconds)%Z.

Definition BuildRateLimitExceededResponse (limit reset_time now : Z) (include_retry_after : bool)
  : Refusal :=
  mkRefusal (err TooManyRequests)
    ([("X-RateLimit-Limit", to_string limit); ("X-RateLimit-Remaining", "0");
      ("X-RateLimit-Reset", to_string reset_time)] ++
     if include_retry_after then [("Retry-After", to_string (Z.max 1 (reset_time - now)))] else [])%list.

(** A setting that is not positive stands for its default. *)
Definition configured (value default_value : Z) : Z :=
  if (0 <? value)%Z then value else default_value.

(** The settings of one limit: requests per window, and the length of the window. *)
Record RateLimit := mkRateLimit {
  rl_limit : Z;
  rl_window_seconds : Z
}.

Section limits.
Context {S : Type} `{HasRedis S}.

Definition CheckFixedWindowLimit (key : string) (window_seconds : Z) : M S (Result Z) :=
  IncrWithExpire key window_seconds.

(** The tail all the filters share: count, and compare with the limit.  A failure of the counter
    lets the request on.  [now] and [later] are two readings of the clock, in seconds. *)
Definition limited (key : Z → string) (l : RateLimit) (include_retry_after : bool) (now later : Z)
  : M S (option Refusal) :=
  let window := GetFixedWindowStart (rl_window_seconds l) now in
  incr_result ← CheckFixedWindowLimit (key window) (rl_window_seconds l);
  mret (match (incr_result : Result Z) with
        | Err _ => None
        | Ok current_count =>
            if (rl_limit l <? current_count)%Z then
              Some (BuildRateLimitExceededResponse (rl_limit l)
                (GetFixedWindowReset window (rl_window_seconds l)) later include_retry_after)
            else None
        end).

(** The filters that count per user. *)
Definition user_limited (prefix : string) (key : Z → Z → string) (l : RateLimit)
    (include_retry_after : bool) (request : HttpRequest) (now later : Z) : M S (option Refusal) :=
  if negb (starts_with (hq_path request) prefix) then mret None
  else
  match hq_user request with
  | None => mret None
  | Some user => limited (key (ua_user_id user)) l include_retry_after now later
  end.

Definition api_limit : RateLimit := mkRateLimit 100 60.

Definition RateLimitFilter (request : HttpRequest) (now later : Z) : M S (option Refusal) :=
  user_limited "" BuildApiRateLimitKey api_limit false request now later.

Definition UploadRateLimitFilter (configured_limit configured_window : Z) (request : HttpRequest)
    (now later : Z) : M S (option Refusal) :=
  user_limited "" BuildUploadRateLimitKey
    (mkRateLimit (configured configured_limit 60) (configured configured_window 60)) true
    request now later.

Definition DownloadRateLimitFilter (configured_limit configured_window : Z) (request : HttpRequest)
    (now later : Z) : M S (option Refusal) :=
  user_limited "/api/file/download/"
    (λ user_id window, "rate:download:" ++ to_string user_id ++ ":" ++ to_string window)
    (mkRateLimit (configured configured_limit 60) (configured configured_window 60)) true
    request now later.

Definition FolderRateLimitFilter (configured_limit configured_window : Z) (request : HttpRequest)
    (now later : Z) : M S (option Refusal) :=
  user_limited "/api/folder/"
    (λ user_id window, "rate:folder:" ++ to_string user_id ++ ":" ++ to_string window)
    (mkRateLimit (configured configured_limit 100) (configured configured_window 60)) true
    request now later.

Definition AdminRateLimitFilter (configured_limit configured_window : Z) (request : HttpRequest)
    (now later : Z) : M S (option Refusal) :=
  user_limited "/api/admin/"
    (λ user_id window, "rate:admin:" ++ to_string user_id ++ ":" ++ to_string window)
    (mkRateLimit (configured configured_limit 30) (configured configured_window 60)) true
    request now later.

Definition RegisterRateLimitFilter (configured_limit configured_window : Z) (request : HttpRequest)
    (now later : Z) : M S (option Refusal) :=
  if negb (hq_path request =? "/api/auth/register") then mret None
  else
    limited (λ window, "rate:register:" ++ hq_client_ip request ++ ":" ++ to_string window)
      (mkRateLimit (configured configured_limit 5) (configured configured_window 300)) true
      now later.

Definition ShareAccessRateLimitFilter (configured_limit configured_window : Z)
    (request : HttpRequest) (now later : Z) : M S (option Refusal) :=
  if negb (starts_with (hq_path request) "/api/share/access/") then mret None
  else
    limited (BuildShareAccessRateLimitKey (hq_client_ip request))
      (mkRateLimit (configured configured_limit 30) (configured configured_window 60)) true
      now later.

Inductive ShareOperation := Browse | Download.

Definition ResolveOperation (path : string) : option ShareOperation :=
  if starts_with path "/api/share/browse/" then Some Browse
  else if starts_with path "/api/share/download/" || starts_with path "/api/share/save/"
  then Some Download else None.

(** [limits] gives the configured limit and window of an operation. *)
Definition ShareOperationRateLimitFilter (limits : ShareOperation → Z * Z) (request : HttpRequest)
    (now later : Z) : M S (option Refusal) :=
  match ResolveOperation (hq_path request), hq_share request with
  | Some operation, Some share =>
      let jti := sa_share_token_jti share in
      if str_empty jti then mret None
      else
      let key := match operation with
                 | Browse => BuildShareBrowseRateLimitKey jti
                 | Download => BuildShareDownloadRateLimitKey jti
                 end in
      let default_limit := match operation with Browse => 60%Z | Download => 10%Z end in
      limited key
        (mkRateLimit (configured (limits operation).1 default_limit)
                     (configured (limits operation).2 60)) true now later
  | _, _ => mret None
  end.
End limits.
