(* ===== verification/Sessions.v ===== *)
(** * What sessions guarantee

    Tokens mean what they say, a refresh token works once, and a session that has ended stays
    ended. *)

From S2P Require Import Prelude Errors Storage Db Rely Json Numerals Redis RedisLaws ExpiryCache.
From S2P Require Import Tokens Auth Filters.

(** ** Tokens *)

Section jwt.
Context (jwt_sign : string → Jwt → string) (jwt_decode : string → option Jwt)
  (jwt_verify : string → string → Z → string → option verification_error)
  (m_jwt_secret : string).

(** What the documentation of jwt-cpp says of the tokens the server signs. *)
Record JwtLaws : Prop := mkJwtLaws {
  jwt_decode_sign secret j : jwt_decode (jwt_sign secret j) = Some j;
  jwt_sign_nonempty secret j : jwt_sign secret j ≠ ""%string;
  jwt_verify_valid secret now j : jwt_issued_at j <= now <= jwt_expires_at j →
    jwt_verify secret (jwt_issuer j) now (jwt_sign secret j) = None;
  jwt_verify_expired secret now j : jwt_expires_at j < now →
    jwt_verify secret (jwt_issuer j) now (jwt_sign secret j) = Some TokenExpiredError;
  jwt_verify_issuer secret issuer now j : issuer ≠ jwt_issuer j →
    jwt_verify secret issuer now (jwt_sign secret j) ≠ None
}.

Context (laws : JwtLaws).

#[local] Notation verify_access := (VerifyAccessToken jwt_decode jwt_verify m_jwt_secret).
#[local] Notation verify_refresh := (VerifyRefreshToken jwt_decode jwt_verify m_jwt_secret).
#[local] Notation verify_share := (VerifyShareToken jwt_decode jwt_verify m_jwt_secret).

(** The first checks on a token that was signed. *)
Lemma verified_valid j type now rejected : jwt_issued_at j <= now <= jwt_expires_at j →
  string_claim "type" j = Some type →
  verified_claims jwt_decode jwt_verify m_jwt_secret (jwt_issuer j) (jwt_sign m_jwt_secret j) now
    rejected = Ok (j, type).
Proof.
  intros Hnow Ht. unfold verified_claims. rewrite (jwt_decode_sign laws), (jwt_verify_valid laws) by done.
  by rewrite Ht.
Qed.

Lemma verified_expired j now rejected : jwt_expires_at j < now →
  verified_claims jwt_decode jwt_verify m_jwt_secret (jwt_issuer j) (jwt_sign m_jwt_secret j) now
    rejected = Err (err TokenExpired).
Proof.
  intros Hnow. unfold verified_claims. by rewrite (jwt_decode_sign laws), (jwt_verify_expired laws).
Qed.

Lemma verified_issuer j issuer now rejected : issuer ≠ jwt_issuer j →
  is_ok (verified_claims jwt_decode jwt_verify m_jwt_secret issuer (jwt_sign m_jwt_secret j) now
    rejected) = false.
Proof.
  intros Hi. unfold verified_claims. rewrite (jwt_decode_sign laws).
  pose proof (jwt_verify_issuer laws m_jwt_secret issuer now j Hi) as Hv.
  by destruct (jwt_verify _ _ _ _) as [[]|].
Qed.

Lemma bind_refused {A B} (r : Result A) (f : A → Result B) : is_ok r = false → is_ok (r ≫= f) = false.
Proof. by destruct r. Qed.

Lemma stoull_of_to_string n : 0 <= n <= u64_max → stoull (to_string n) = Some n.
Proof. intros Hn. unfold stoull. by rewrite stoull_to_string. Qed.

(** C11: tokens mean what they say.  As long as it lives, an access token verifies to exactly
    the user, name, role, status and identifier it was issued for, a refresh token to its user
    and identifier, a share token to its share and permission; past their lifetime (two hours,
    seven days, one hour) they are refused as expired; and no token is ever accepted as one of
    another kind. *)
Theorem tokens_mean_what_they_say user_id username role status now access_jti refresh_jti
    share_code share_id permission share_jti :
  0 <= user_id <= u64_max → - 2 ^ 31 <= role < 2 ^ 31 → - 2 ^ 31 <= status < 2 ^ 31 →
  0 < share_id <= u64_max → share_code ≠ ""%string → share_jti ≠ ""%string →
  IsValidSharePermission permission = true →
  let '(access, refresh) :=
    GenerateTokens jwt_sign m_jwt_secret user_id username role status now access_jti refresh_jti in
  ∃ share, GenerateShareToken jwt_sign m_jwt_secret share_code share_id permission now share_jti =
    Ok share ∧
  (∀ t, now <= t <= now + 7200 →
     verify_access access t = Ok (mkAccessTokenClaims user_id username access_jti role status)) ∧
  (∀ t, now <= t <= now + 604800 → verify_refresh refresh t = Ok (user_id, refresh_jti)) ∧
  (∀ t, now <= t <= now + 3600 →
     verify_share share t = Ok (mkShareTokenClaims share_code share_id share_jti
       (mkShareTokenScope share_code permission))) ∧
  (∀ t, now + 7200 < t → verify_access access t = Err (err TokenExpired)) ∧
  (∀ t, now + 604800 < t → verify_refresh refresh t = Err (err TokenExpired)) ∧
  (∀ t, now + 3600 < t → verify_share share t = Err (err TokenExpired)) ∧
  (∀ t, now <= t → is_ok (verify_access refresh t) = false ∧ is_ok (verify_refresh access t) = false ∧
     is_ok (verify_access share t) = false ∧ is_ok (verify_refresh share t) = false ∧
     is_ok (verify_share access t) = false ∧ is_ok (verify_share refresh t) = false).
Proof.
  intros Hu Hr Hs Hid Hcode Hjti Hperm. cbn [GenerateTokens].
  set (access := access_claims user_id username role status now access_jti).
  set (refresh := refresh_claims user_id now refresh_jti).
  set (share := share_claims share_code share_id permission now share_jti).
  assert (∀ j, str_empty (jwt_sign m_jwt_secret j) = false) as Hne.
  { intros j. pose proof (jwt_sign_nonempty laws m_jwt_secret j). by destruct (jwt_sign _ _). }
  exists (jwt_sign m_jwt_secret share). split_and!.
  - unfold GenerateShareToken. by rewrite Hperm.
  - intros t Ht. unfold VerifyAccessToken.
    rewrite (verified_valid access "access") by (done || exact Ht). cbn.
    by rewrite stoull_of_to_string, !i32_small by done.
  - intros t Ht. unfold VerifyRefreshToken.
    rewrite (verified_valid refresh "refresh") by (done || exact Ht). cbn.
    by rewrite stoull_of_to_string.
  - intros t Ht. unfold VerifyShareToken. rewrite Hne.
    rewrite (verified_valid share "share") by (done || exact Ht). cbn.
    unfold stoull_all. rewrite stoull_to_string by lia. cbn.
    assert (str_empty share_code = false) as -> by (by destruct share_code).
    assert (str_empty share_jti = false) as -> by (by destruct share_jti).
    destruct (Z.eqb_spec share_id 0); [lia|]. cbn. unfold scope_of. cbn.
    by rewrite String.eqb_refl, Hperm.
  - intros t Ht. unfold VerifyAccessToken. by rewrite (verified_expired access).
  - intros t Ht. unfold VerifyRefreshToken. by rewrite (verified_expired refresh).
  - intros t Ht. unfold VerifyShareToken. by rewrite Hne, (verified_expired share).
  - intros t Ht. unfold VerifyAccessToken, VerifyRefreshToken, VerifyShareToken. rewrite !Hne.
    split_and!; try (by apply bind_refused, verified_issuer).
    + destruct (Z.le_gt_cases t (now + 604800)).
      * by rewrite (verified_valid refresh "refresh").
      * rewrite (verified_expired refresh); [done|cbn; unfold GetRefreshTokenExpireSeconds; lia].
    + destruct (Z.le_gt_cases t (now + 7200)).
      * by rewrite (verified_valid access "access").
      * rewrite (verified_expired access); [done|cbn; unfold GetAccessTokenExpireSeconds; lia].
Qed.
End jwt.

(** *** An implementation of the laws

    A token is a number that encodes the secret and the claims. *)

Definition leaf : Type := bool + Z + (Z * Z) + string.

Fixpoint json_tree (j : json) : gen_tree leaf :=
  match j with
  | JNull => GenNode 0 []
  | JBool b => GenLeaf (inl (inl (inl b)))
  | JInt z => GenLeaf (inl (inl (inr z)))
  | JReal m e => GenLeaf (inl (inr (m, e)))
  | JString s => GenLeaf (inr s)
  | JArray l => GenNode 1 (map json_tree l)
  | JObject fields => GenNode 2 (map (λ kv, GenNode 3 [GenLeaf (inr kv.1); json_tree kv.2]) fields)
  end.

Fixpoint tree_json (t : gen_tree leaf) : json :=
  match t with
  | GenLeaf (inl (inl (inl b))) => JBool b
  | GenLeaf (inl (inl (inr z))) => JInt z
  | GenLeaf (inl (inr (m, e))) => JReal m e
  | GenLeaf (inr s) => JString s
  | GenNode 1 l => JArray (map tree_json l)
  | GenNode 2 l => JObject (map (λ t, match t with
                                      | GenNode _ [GenLeaf (inr k); v] => (k, tree_json v)
                                      | _ => (""%string, JNull)
                                      end) l)
  | GenNode _ _ => JNull
  end.

Lemma tree_json_tree : ∀ j, tree_json (json_tree j) = j.
Proof.
  fix IH 1. intros [|b|z|m e|s|l|fields]; cbn; [done..| |].
  - f_equal. induction l as [|j l IHl]; cbn; [done|]. by rewrite IH, IHl.
  - f_equal. induction fields as [|[k v] fields IHf]; cbn; [done|]. by rewrite IH, IHf.
Qed.

Definition encoded_token (secret : string) (j : Jwt) : positive :=
  encode (secret, jwt_issuer j, jwt_subject j, json_tree (JObject (jwt_claims j)),
          jwt_issued_at j, jwt_expires_at j).

Definition decoded_token (n : positive) : option (string * Jwt) :=
  '(secret, issuer, subject, claims, issued_at, expires_at) ←
    decode (A := string * string * string * gen_tree leaf * Z * Z) n;
  match tree_json claims with
  | JObject fields => Some (secret, mkJwt issuer subject fields issued_at expires_at)
  | _ => None
  end.

Definition example_sign (secret : string) (j : Jwt) : string :=
  to_string (Z.pos (encoded_token secret j)).

Definition example_open (token : string) : option (string * Jwt) :=
  match read_number token with
  | Some (false, Zpos n, _) => decoded_token n
  | _ => None
  end.

Definition example_decode (token : string) : option Jwt := snd <$> example_open token.

Definition example_verify (secret issuer : string) (now : Z) (token : string)
  : option verification_error :=
  match example_open token with
  | None => Some OtherVerificationError
  | Some (signer, j) =>
      if negb (String.eqb signer secret) || negb (String.eqb (jwt_issuer j) issuer)
      then Some OtherVerificationError
      else if jwt_expires_at j <? now then Some TokenExpiredError
      else if now <? jwt_issued_at j then Some OtherVerificationError else None
  end.

Lemma example_open_sign secret j : example_open (example_sign secret j) = Some (secret, j).
Proof.
  unfold example_open, example_sign. rewrite read_number_to_string by done.
  unfold decoded_token, encoded_token. rewrite decode_encode. cbn [mbind option_bind].
  rewrite tree_json_tree. by destruct j.
Qed.

Lemma example_laws : JwtLaws example_sign example_decode example_verify.
Proof.
  split; intros; unfold example_decode, example_verify; rewrite ?example_open_sign; try done.
  - unfold example_sign. by apply to_string_reads.
  - rewrite !String.eqb_refl. cbn. destruct (Z.ltb_spec (jwt_expires_at j) now); [lia|].
    destruct (Z.ltb_spec now (jwt_issued_at j)); [lia|done].
  - rewrite !String.eqb_refl. cbn. by destruct (Z.ltb_spec (jwt_expires_at j) now); [|lia].
  - rewrite String.eqb_refl. cbn. destruct (String.eqb_spec (jwt_issuer j) issuer); [by subst|done].
Qed.

Lemma tokens_mean_what_they_say_witness :
  let verify_access := VerifyAccessToken example_decode example_verify "secret" in
  ∃ access, verify_access access 1000 = Ok (mkAccessTokenClaims 7 "ada" "a-1" 1 1) ∧
    verify_access access 8000 = Err (err TokenExpired).
Proof.
  cbv zeta.
  destruct (tokens_mean_what_they_say example_sign example_decode example_verify "secret"
    example_laws 7 "ada" 1 1 500 "a-1" "r-1" "code" 3 "view" "s-1") as (share & _ & H1 & _ & _ & H2 & _);
    [split; discriminate|split; [discriminate|reflexivity]|split; [discriminate|reflexivity]|
     split; [reflexivity|discriminate]|discriminate|discriminate|reflexivity|].
  eexists. split; [apply H1; split; discriminate|apply H2; reflexivity].
Defined.

(** ** Refresh tokens *)

Section refresh.
Context (jwt_sign : string → Jwt → string) (jwt_decode : string → option Jwt)
  (jwt_verify : string → string → Z → string → option verification_error)
  (HashToken : string → Result string) (m_jwt_secret : string).

#[local] Notation refresh_tokens :=
  (RefreshTokens jwt_sign jwt_decode jwt_verify HashToken m_jwt_secret).
#[local] Notation verify_refresh := (VerifyRefreshToken jwt_decode jwt_verify m_jwt_secret).

(** The digest of a token is not the one stored for the user. *)
Definition spent (user_id : Z) (hash : string) (s : AuthState) : Prop :=
  redis_get (BuildRefreshTokenKey user_id) (redis_of s) ≠ Some hash.

#[local] Instance respects_find_one I user_id : Respects anyhow I (find_one user_id).
Proof. apply respects_bind; [done|apply _|]. intros [u|]; apply _. Qed.

#[local] Instance respects_validate I user_id : Respects anyhow I (ValidateAccountAccess user_id).
Proof. apply respects_catch_db; [done| |apply _]. apply respects_bind; [done|apply _|]. intros ?. apply _. Qed.

(** What a rotation leaves, from any state. *)
Lemma rotation_spends user_id old_token new_token hash :
  HashToken old_token = Ok hash → HashToken new_token ≠ Ok hash →
  yields anyhow (λ _, True) (RefreshRefreshToken HashToken user_id old_token new_token)
    (λ r s, is_ok r = true → spent user_id hash s).
Proof.
  intros Hold Hnew. unfold RefreshRefreshToken. rewrite Hold.
  destruct (HashToken new_token) as [new_hash|e]; [|by apply yields_ret].
  unfold bind_result. apply (yields_map_result _ _ _ (λ swapped : bool,
    if swapped then Ok tt else Err (err RefreshTokenAlreadyUsed))).
  apply yields_redis_call; [done|done| |done]. intros s swapped r _ [= Hb].
  pose proof (cas_script_get (BuildRefreshTokenKey user_id) hash new_hash REFRESH_TOKEN_TTL
    (au_redis s) eq_refl) as Hc. rewrite Hb in Hc. cbn in Hc.
  unfold spent. rewrite redis_of_with. destruct swapped; cbn; [|done]. intros _. rewrite Hc. congruence.
Qed.

(** A spent token is not swapped. *)
Lemma rotation_refused user_id old_token new_token hash : HashToken old_token = Ok hash →
  yields anyhow (spent user_id hash) (RefreshRefreshToken HashToken user_id old_token new_token)
    (λ r _, is_ok r = false).
Proof.
  intros Hold. unfold RefreshRefreshToken. rewrite Hold.
  destruct (HashToken new_token) as [new_hash|e]; [|by apply yields_ret].
  unfold bind_result. apply (yields_map_result _ _ _ (λ swapped : bool,
    if swapped then Ok tt else Err (err RefreshTokenAlreadyUsed))).
  assert (∀ s swapped r, spent user_id hash s → Some (cas_script (BuildRefreshTokenKey user_id) hash
    new_hash REFRESH_TOKEN_TTL (redis_of s)) = Some (swapped, r) → swapped = false ∧ r = redis_of s) as Hcas.
  { intros s swapped r Hs [= Hb]. unfold cas_script in Hb.
    rewrite bool_decide_eq_false_2 in Hb by done. by injection Hb as <- <-. }
  apply yields_redis_call; [done|..|done].
  - intros s swapped r Hs Hb. destruct (Hcas s swapped r Hs Hb) as [_ ->]. by rewrite with_redis_of.
  - intros s swapped r Hs Hb. by destruct (Hcas s swapped r Hs Hb) as [-> _].
Qed.

(** The database part of a refresh, with a rotation that is known. *)
Lemma refresh_yields token t a r user_id jti I (Q : Result RefreshTokenResponse → AuthState → Prop) :
  verify_refresh token t = Ok (user_id, jti) →
  (∀ e s, I s → Q (Err e) s) →
  (∀ user, let new_token := (issue jwt_sign m_jwt_secret (user_id, user) t a r).2 in
     yields anyhow I (bind_result (RefreshRefreshToken HashToken user_id token new_token)
       (λ _, mret (Ok (mkRefreshTokenResponse (issue jwt_sign m_jwt_secret (user_id, user) t a r).1
          new_token GetAccessTokenExpireSeconds)))) Q) →
  (∀ user, Respects anyhow I (RefreshRefreshToken (S:=AuthState) HashToken user_id token
     (issue jwt_sign m_jwt_secret (user_id, user) t a r).2)) →
  yields anyhow I (refresh_tokens token t a r) Q.
Proof.
  intros Hv He Hq Hr. unfold RefreshTokens. rewrite Hv. apply yields_catch_db_ret; [| |eauto].
  - apply _.
  - apply yields_then; [apply _|]. intros user.
    apply yields_result_then; [apply _| |done]. intros _. apply Hq.
Qed.

Lemma respects_rotation I user_id old_token new_token :
  (∀ s old_hash new_hash r b, I s → HashToken old_token = Ok old_hash →
     cas_script (BuildRefreshTokenKey user_id) old_hash new_hash REFRESH_TOKEN_TTL (redis_of s) = (b, r) →
     I (with_redis r s)) →
  Respects anyhow I (RefreshRefreshToken (S:=AuthState) HashToken user_id old_token new_token).
Proof.
  intros HI. unfold RefreshRefreshToken. destruct (HashToken old_token) as [old_hash|]; [|apply _].
  destruct (HashToken new_token) as [new_hash|]; [|apply _].
  assert (Respects anyhow I (CompareAndSwap (S:=AuthState) (BuildRefreshTokenKey user_id) old_hash new_hash
    REFRESH_TOKEN_TTL)); [|apply _].
  apply respects_redis_call; [apply _|]. intros s b r Hs [= Hb]. split; [|done]. by eapply HI.
Qed.

Lemma verify_refresh_user token t t' x y :
  verify_refresh token t = Ok x → verify_refresh token t' = Ok y → x = y.
Proof.
  unfold VerifyRefreshToken, verified_claims. destruct (jwt_decode token) as [j|]; [|done].
  destruct (jwt_verify _ _ t token) as [[]|]; [done..|].
  destruct (jwt_verify _ _ t' token) as [[]|]; [done..|].
  destruct (string_claim "type" j) as [type|]; [|done]. cbn. destruct (negb _); [done|].
  intros H1 H2. rewrite H1 in H2. by injection H2.
Qed.

(** C12: a refresh token works once.  When a refresh is answered with new tokens, the digest
    Redis keeps for the user is no longer the one of the token that was used; and from then
    on, whatever fails and whatever other sessions do short of storing that very token again,
    no refresh with it is ever answered with tokens, before or after it would have expired. *)
Theorem refresh_token_is_single_use token hash t a r user_id jti e result e1 :
  HashToken token = Ok hash → (∀ x, HashToken x = Ok hash → x = token) →
  verify_refresh token t = Ok (user_id, jti) →
  (∀ user, (issue jwt_sign m_jwt_secret (user_id, user) t a r).2 ≠ token) →
  tx e = AutoCommit → refresh_tokens token t a r e = (Ret (Ok result), e1) →
  spent user_id hash (db e1) ∧
  ∀ e2 t' a' r' result' e3, tx e2 = AutoCommit → spent user_id hash (db e2) →
    stable (spent user_id hash) (schedule e2) →
    refresh_tokens token t' a' r' e2 ≠ (Ret (Ok result'), e3).
Proof.
  intros Hhash Hinj Hv Hfresh Ht Hrun. split.
  - assert (yields anyhow (λ _, True) (refresh_tokens token t a r)
      (λ r s, is_ok r = true → spent user_id hash s)) as Hy.
    { eapply refresh_yields; [done|done| |intros user; by apply respects_rotation].
      intros user. apply (yields_map_result _ _ _ (λ _ : unit, Ok _)).
      eapply yields_weaken; [apply rotation_spends; [done|]|by intros [] s].
      intros H. by eapply Hfresh, Hinj. }
    apply (Hy e (Ok result) e1); [done|done| |done|done]. by apply Forall_true.
  - intros e2 t' a' r' result' e3 Ht2 Hs2 Hst2 Hrun2.
    assert (yields anyhow (spent user_id hash) (refresh_tokens token t' a' r')
      (λ r _, is_ok r = false)) as Hy.
    { destruct (verify_refresh token t') as [[user_id' jti']|er] eqn:Hv'.
      - pose proof (verify_refresh_user _ _ _ _ _ Hv Hv') as [= <- <-].
        eapply refresh_yields; [done|done|..].
        + intros user. by apply yields_refused, rotation_refused.
        + intros user. apply respects_rotation. intros s old_hash new_hash rd b Hs Hold Hb.
          unfold cas_script in Hb. rewrite bool_decide_eq_false_2 in Hb by congruence.
          assert (rd = redis_of s) as -> by congruence. by rewrite with_redis_of.
      - unfold RefreshTokens. rewrite Hv'. by apply yields_ret. }
    assert (is_ok (Ok result') = false); [|done]. apply (Hy e2 (Ok result') e3); [done|done| |done].
    eapply Forall_impl; [exact Hst2|]. intros st Hstep s Hs. split; [by apply Hstep|done].
Qed.
End refresh.

Definition example_user : Users :=
  mkUsers "ada" "ada@example.org" "hash" None None 100 0 0 1 0 0 None None None 0 0.

Definition example_state : AuthState :=
  mkAuthState {[7 := example_user]} 8 [] 0
    (mkRedis 0 {["refresh_token:7" := mkRedisEntry "old" (Some 1000)]})%string.

Definition example_refresh (e : Env AuthState) : outcome (Result RefreshTokenResponse) * Env AuthState :=
  RefreshTokens (λ _ _, "fresh") (λ _, Some (refresh_claims 7 0 "j")) (λ _ _ _ _, None) Ok "secret"
    "old" 5 "a" "r" e.

Lemma refresh_token_is_single_use_witness :
  let e1 := snd (example_refresh (mkEnv example_state [] AutoCommit [])) in
  fst (example_refresh (mkEnv example_state [] AutoCommit [])) =
    Ret (Ok (mkRefreshTokenResponse "fresh" "fresh" 7200)) ∧
  ∀ result e3, example_refresh (mkEnv (db e1) [] AutoCommit []) ≠ (Ret (Ok result), e3).
Proof.
  cbv zeta. split; [vm_compute; reflexivity|].
  destruct (refresh_token_is_single_use (λ _ _, "fresh"%string) (λ _, Some (refresh_claims 7 0 "j"))
    (λ _ _ _ _, None) Ok "secret" "old" "old" 5 "a" "r" 7 "j" (mkEnv example_state [] AutoCommit [])
    (mkRefreshTokenResponse "fresh" "fresh" 7200)
    (snd (example_refresh (mkEnv example_state [] AutoCommit [])))) as [Hspent Hlater].
  - reflexivity.
  - intros x E. injection E. trivial.
  - vm_compute. reflexivity.
  - discriminate.
  - reflexivity.
  - vm_compute. reflexivity.
  - intros result e3. apply Hlater; [reflexivity|exact Hspent|constructor].
Defined.

(** ** Logging out *)

Section logout.
Context (jwt_decode : string → option Jwt)
  (jwt_verify : string → string → Z → string → option verification_error)
  (m_jwt_secret : string) (jti : string).

(** The black list keeps the token until [deadline], in the time of Redis. *)
Definition blacklisted (deadline : Z) (r : Redis) : Prop := ∃ value t,
  rd_keys r !! BuildAccessTokenBlacklistKey jti = Some (mkRedisEntry value (Some t)) ∧ deadline <= t.

(** The other sessions let time go on and leave the entry alone. *)
Definition keeps_entry (deadline : Z) {S} `{HasRedis S} (s s' : S) : Prop :=
  rd_time (redis_of s) <= rd_time (redis_of s') ∧
  (blacklisted deadline (redis_of s) → blacklisted deadline (redis_of s')).

#[local] Instance keeps_entry_preorder deadline {S} `{HasRedis S} :
  PreOrder (keeps_entry deadline (S:=S)).
Proof.
  split; [done|]. intros s1 s2 s3 [H1 H2] [H3 H4]. split; [lia|eauto].
Qed.

Lemma blacklisted_get deadline r : blacklisted deadline r → rd_time r < deadline →
  redis_get (BuildAccessTokenBlacklistKey jti) r ≠ None.
Proof.
  intros (value & t & Hk & Ht) Hnow. unfold redis_get. rewrite Hk. unfold entry_live. cbn.
  destruct (Z.ltb_spec (rd_time r) t); [done|lia].
Qed.

(** Black-listing a token. *)
Definition started (start : Z) (s : AuthState) : Prop := start <= rd_time (redis_of s).
Definition listed (deadline : Z) (b : bool) (s : AuthState) : Prop :=
  b = true → blacklisted deadline (redis_of s).

Lemma set_listed start : let deadline := start + ACCESS_TOKEN_TTL * 1000 in
  ∀ s, started start s →
  let s' := with_redis (redis_set_ex (BuildAccessTokenBlacklistKey jti) "1" ACCESS_TOKEN_TTL
    (redis_of s)) s in
  started start s' ∧ keeps_entry deadline s s' ∧ blacklisted deadline (redis_of s').
Proof.
  intros deadline s Hs s'.
  assert (blacklisted deadline (redis_of s')) as Hb.
  { exists "1"%string, (rd_time (redis_of s) + ACCESS_TOKEN_TTL * 1000).
    split; [apply lookup_insert_eq|]. unfold deadline, started in *. lia. }
  split_and!; [done|split; [done|done]|done].
Qed.

Lemma invalidate_spec token steady start : let deadline := start + ACCESS_TOKEN_TTL * 1000 in
  ExtractJti jwt_decode token = Ok jti →
  Respects (keeps_entry deadline) (started start) (InvalidateAccessToken jwt_decode token steady) ∧
  yields (keeps_entry deadline) (started start) (InvalidateAccessToken jwt_decode token steady)
    (λ r, listed deadline (is_ok r.1)).
Proof.
  intros deadline Hj. unfold InvalidateAccessToken. rewrite Hj.
  assert (∀ s a r, started start s → Some (tt, redis_set_ex (BuildAccessTokenBlacklistKey jti) "1"
    ACCESS_TOKEN_TTL (redis_of s)) = Some (a, r) → started start (with_redis r s) ∧
    keeps_entry deadline s (with_redis r s) ∧ blacklisted deadline (redis_of (with_redis r s))) as Hset.
  { intros s a r Hs [= _ <-]. by apply set_listed. }
  assert (Respects (keeps_entry deadline) (started start) (RedisSet (S:=AuthState)
    (BuildAccessTokenBlacklistKey jti) "1" ACCESS_TOKEN_TTL)) as Hr.
  { apply respects_redis_call; [apply _|]. intros s a r Hs Hb. by destruct (Hset s a r Hs Hb) as (? & ? & _). }
  split; [apply _|].
  apply yields_map. eapply yields_weaken;
    [apply (yields_redis_call _ _ _ (λ r, listed deadline (is_ok r)))|by intros [] s].
  - intros s a r Hs Hb. by destruct (Hset s a r Hs Hb) as (? & ? & _).
  - intros s a r Hs Hb _. by destruct (Hset s a r Hs Hb) as (_ & _ & ?).
  - done.
Qed.

Lemma revoke_keeps deadline start user_id : let I s := started start s ∧ listed deadline true s in
  Respects (keeps_entry deadline) I (RevokeRefreshToken (S:=AuthState) user_id).
Proof.
  intros I. apply respects_redis_call; [apply _|]. intros s a r [Hs Hl] [= _ <-].
  assert (blacklisted deadline (redis_of (with_redis (redis_del (BuildRefreshTokenKey user_id)
    (redis_of s)) s))) as Hb.
  { destruct (Hl eq_refl) as (value & t & Hk & Ht). exists value, t. split; [|done].
    rewrite redis_of_with. cbn. by rewrite lookup_delete_ne. }
  split; [split; [done|by intros _]|split; [done|done]].
Qed.

Lemma insert_log_keeps deadline start o : let I s := started start s ∧ listed deadline true s in
  Respects (keeps_entry deadline) I (exec (insert_log o)).
Proof.
  intros I. apply respects_exec; [apply _|]. intros s a s' HI. unfold insert_log.
  case_match; [|done]. intros [= _ <-]. split; [exact HI|by split].
Qed.

(** What logging out leaves. *)
Lemma logout_lists token user_id ip_address steady date start :
  let deadline := start + ACCESS_TOKEN_TTL * 1000 in
  ExtractJti jwt_decode token = Ok jti →
  yields (keeps_entry deadline) (started start) (Logout jwt_decode user_id token ip_address steady date)
    (λ r, listed deadline (is_ok r.1)).
Proof.
  intros deadline Hj. destruct (invalidate_spec token steady start Hj) as [Hr Hy]. unfold Logout.
  eapply yields_bind; [apply _|exact Hy| |].
  - intros a s s' Hl [_ Hk] Ha. by apply Hk, Hl.
  - intros [[[]|er] edits]; [|by apply yields_ret].
    pose proof (revoke_keeps deadline start user_id).
    pose proof (insert_log_keeps deadline start (logout_log user_id (ExtractIPOnly ip_address) date)).
    apply yields_then; [apply _|]. intros _. apply yields_then; [apply _|]. intros _.
    apply yields_ret. by intros s [_ Hl].
Qed.

Lemma redis_exists_blacklisted deadline :
  let I (s : AuthState) := blacklisted deadline (redis_of s) ∧ rd_time (redis_of s) < deadline in
  Respects anyhow I (RedisExists (BuildAccessTokenBlacklistKey jti)) ∧
  yields anyhow I (RedisExists (BuildAccessTokenBlacklistKey jti)) (λ r _, r ≠ Ok false).
Proof.
  intros I. split.
  - apply respects_redis_call; [apply _|]. intros s a r HI [= _ <-]. by destruct s.
  - apply yields_redis_call; [apply _|..|done].
    + intros s a r HI [= _ <-]. by destruct s.
    + intros s a r [Hb Hn] [= <- _]. pose proof (blacklisted_get _ _ Hb Hn) as Hg.
      rewrite bool_decide_eq_true_2; [done|]. by apply not_eq_None_Some.
Qed.

Lemma verified_jti token now claims : ExtractJti jwt_decode token = Ok jti →
  VerifyAccessToken jwt_decode jwt_verify m_jwt_secret token now = Ok claims → at_jti claims = jti.
Proof.
  unfold ExtractJti, VerifyAccessToken, verified_claims.
  destruct (jwt_decode token) as [j|]; [|done]. cbn.
  destruct (string_claim "jti" j) as [jti'|] eqn:Hj; [|done]. cbn. intros [= <-].
  destruct (jwt_verify _ _ _ _) as [[]|]; [done..|].
  destruct (string_claim "type" j); [|done]. cbn. destruct (negb _); [done|].
  destruct (string_claim "username" j); [|done]. cbn. rewrite Hj. cbn.
  destruct (stoull _); [|done]. cbn. destruct (optional_claim "role" _ j); [|done]. cbn.
  destruct (optional_claim "status" _ j); [|done]. by intros [= <-].
Qed.

Lemma revoked_blacklisted deadline cache steady :
  let I (s : AuthState) := blacklisted deadline (redis_of s) ∧ rd_time (redis_of s) < deadline in
  Respects anyhow I (IsAccessTokenRevoked cache jti steady) ∧
  yields anyhow I (IsAccessTokenRevoked cache jti steady) (λ r _, r.1 ≠ Ok false).
Proof.
  intros I. destruct (redis_exists_blacklisted deadline) as [Hr Hy].
  unfold IsAccessTokenRevoked, is_revoked.
  destruct (ExpiryCache.Find _ _ _); [split; [apply _|by apply yields_ret]|].
  split; [apply respects_bind; [apply _|exact Hr|]; intros ?; apply _|].
  apply yields_map. eapply yields_weaken; [exact Hy|by intros [[]|] s].
Qed.

(** A token on the black list is turned away. *)
Lemma blacklisted_refused deadline token cache request now steady :
  ExtractJti jwt_decode token = Ok jti → bearer_token (hq_header request "Authorization") = Ok token →
  IsPublicPath (hq_path request) = false →
  yields anyhow (λ s : AuthState, blacklisted deadline (redis_of s) ∧ rd_time (redis_of s) < deadline)
    (JwtAuthFilter jwt_decode jwt_verify m_jwt_secret cache request now steady)
    (λ r _, r.1.1 ≠ None).
Proof.
  intros Hj Hb Hp. unfold JwtAuthFilter. rewrite Hp, Hb. cbn.
  destruct (VerifyAccessToken _ _ _ token now) as [claims|er] eqn:Hv; [|by apply yields_ret].
  rewrite (verified_jti _ _ _ Hj Hv).
  destruct (revoked_blacklisted deadline cache steady) as [Hr Hy].
  eapply yields_bind; [apply _|exact Hy|by intros a s s'|].
  intros [[[]|] edits]; apply yields_ret; cbn; [done| |done]. by intros s [_ ?].
Qed.

(** C13: logging out ends a session at once.  When a logout is answered with success, the
    token it was made with is on the black list for the two hours a token lives; and as long
    as the other sessions leave that entry alone, every request that carries the token is
    turned away before it reaches its handler, in every process, whatever its cache of
    revocations holds and whatever fails on the way. *)
Theorem logout_revokes_access token user_id ip_address steady date e result edits e1 :
  let deadline := rd_time (redis_of (db e)) + ACCESS_TOKEN_TTL * 1000 in
  ExtractJti jwt_decode token = Ok jti →
  tx e = AutoCommit → Forall (λ st, ∀ s, keeps_entry deadline s (interference st s)) (schedule e) →
  Logout jwt_decode user_id token ip_address steady date e = (Ret (Ok result, edits), e1) →
  blacklisted deadline (redis_of (db e1)) ∧
  ∀ e2 cache request now steady' refusal request' edits' e3,
    tx e2 = AutoCommit → blacklisted deadline (redis_of (db e2)) → rd_time (redis_of (db e2)) < deadline →
    stable (λ s, blacklisted deadline (redis_of s) ∧ rd_time (redis_of s) < deadline) (schedule e2) →
    bearer_token (hq_header request "Authorization") = Ok token → IsPublicPath (hq_path request) = false →
    JwtAuthFilter jwt_decode jwt_verify m_jwt_secret cache request now steady' e2 =
      (Ret (refusal, request', edits'), e3) → refusal ≠ None.
Proof.
  intros deadline Hj Ht Hst Hrun. split.
  - eapply (logout_lists token user_id ip_address steady date (rd_time (redis_of (db e))) Hj e);
      [done|unfold started; lia| |exact Hrun|done].
    eapply Forall_impl; [exact Hst|]. intros st Hk s Hs. specialize (Hk s).
    split; [|done]. destruct Hk. unfold started in *. lia.
  - intros e2 cache request now steady' refusal request' edits' e3 Ht2 Hb Hn Hst2 Hh Hp Hrun2.
    apply (blacklisted_refused deadline token cache request now steady' Hj Hh Hp e2
      (refusal, request', edits') e3 Ht2 (conj Hb Hn));
      [|exact Hrun2].
    eapply Forall_impl; [exact Hst2|]. intros st Hk s Hs. split; [by apply Hk|done].
Qed.
End logout.

Definition example_logout (e : Env AuthState) : outcome (Result unit * CacheEdits) * Env AuthState :=
  Logout (λ _, Some (access_claims 7 "ada" 1 1 0 "a-1")) 7 "token" "10.0.0.1:4711" 50 60 e.

Definition example_request : HttpRequest :=
  mkHttpRequest "/api/file/list" (λ name, if String.eqb name "Authorization" then "Bearer token" else "")
    "10.0.0.1" None None.

Definition example_filter (e : Env AuthState)
  : outcome (option Refusal * HttpRequest * CacheEdits) * Env AuthState :=
  JwtAuthFilter (λ _, Some (access_claims 7 "ada" 1 1 0 "a-1")) (λ _ _ _ _, None) "secret"
    ExpiryCache.empty example_request 100 100 e.

Lemma logout_revokes_access_witness :
  fst (example_logout (mkEnv example_state [] AutoCommit [])) = Ret (Ok tt, [("a-1"%string, 7250)]) ∧
  let e2 := mkEnv (db (snd (example_logout (mkEnv example_state [] AutoCommit [])))) [] AutoCommit [] in
  ∀ refusal request edits e3, example_filter e2 = (Ret (refusal, request, edits), e3) → refusal ≠ None.
Proof.
  split; [vm_compute; reflexivity|]. cbv zeta.
  destruct (logout_revokes_access (λ _, Some (access_claims 7 "ada" 1 1 0 "a-1")) (λ _ _ _ _, None)
    "secret" "a-1" "token" 7 "10.0.0.1:4711" 50 60 (mkEnv example_state [] AutoCommit []) tt
    [("a-1"%string, 7250)] (snd (example_logout (mkEnv example_state [] AutoCommit []))))
    as [Hlisted Hlater].
  - reflexivity.
  - reflexivity.
  - constructor.
  - vm_compute. reflexivity.
  - intros refusal request edits e3. apply Hlater.
    + reflexivity.
    + exact Hlisted.
    + vm_compute. reflexivity.
    + constructor.
    + reflexivity.
    + reflexivity.
Defined.
