(* ===== verification/RateLimits.v ===== *)
(** * What a rate limit admits

    The counters of [Filters.v] over a window: the first requests pass, the others are
    refused, whatever the moments at which they arrive. *)

From S2P Require Import Prelude Errors Storage Db Numerals Redis RedisLaws Filters.

(** ** Counting *)

Lemma redis_integer_to_string n : 0 <= n < 2 ^ 63 → redis_integer (to_string n) = Some n.
Proof.
  intros Hn. unfold redis_integer. rewrite read_number_to_string by lia.
  cbn zeta. rewrite bool_decide_eq_true_2; [|done]. apply bigint_ok. lia.
Qed.

Lemma redis_get_live key e r : rd_keys r !! key = Some e → entry_live (rd_time r) e = true →
  redis_get key r = Some (re_value e).
Proof. unfold redis_get. intros -> ->. done. Qed.

(** The first request of a window. *)
Lemma script_starts key ttl r : 0 < ttl → redis_get key r = None →
  ∃ r', rate_limit_script key ttl r = Some (1, r') ∧
    rd_keys r' !! key = Some (mkRedisEntry (to_string 1) (Some (rd_time r + ttl * 1000))).
Proof.
  intros Ht Hk. unfold rate_limit_script, redis_incr. rewrite Hk. cbn.
  eexists; split; [done|]. unfold redis_expire. rewrite redis_get_put. cbn.
  by rewrite lookup_insert_eq.
Qed.

(** The others. *)
Lemma script_counts key ttl r c deadline :
  rd_keys r !! key = Some (mkRedisEntry (to_string c) (Some deadline)) → rd_time r < deadline →
  1 <= c < 2 ^ 63 - 1 →
  ∃ r', rate_limit_script key ttl r = Some (c + 1, r') ∧
    rd_keys r' !! key = Some (mkRedisEntry (to_string (c + 1)) (Some deadline)).
Proof.
  intros Hk Hd Hc. unfold rate_limit_script, redis_incr.
  rewrite (redis_get_live _ _ _ Hk) by (unfold entry_live; cbn; destruct (Z.ltb_spec (rd_time r) deadline); lia).
  cbn. rewrite redis_integer_to_string by lia. cbn. rewrite bigint_ok by lia. cbn.
  rewrite (proj2 (Z.eqb_neq _ _)) by lia. eexists; split; [done|]. rewrite Hk. cbn. by rewrite lookup_insert_eq.
Qed.

(** ** Requests in a window *)

(** A request: the time of Redis when it is counted, and the clocks of the server. *)
Record Arrival := mkArrival {
  ar_time : Z;
  ar_now : Z;
  ar_later : Z
}.

Definition at_time (t : Z) (r : Redis) : Redis := mkRedis t (rd_keys r).

Definition let_on (o : outcome (option Refusal)) : bool :=
  match o with Ret None => true | _ => false end.

(** Which of the requests are let on, and the counters they leave. *)
Fixpoint admitted (key : Z → string) (l : RateLimit) (retry : bool) (arrivals : list Arrival)
    (r : Redis) : list bool * Redis :=
  match arrivals with
  | [] => ([], r)
  | a :: rest =>
      match limited key l retry (ar_now a) (ar_later a)
              (mkEnv (at_time (ar_time a) r) [] AutoCommit []) with
      | (o, e) =>
          let '(answers, r') := admitted key l retry rest (db e) in
          (let_on o :: answers, r')
      end
  end.

Section window.
Context (key : Z → string) (l : RateLimit) (retry : bool) (w deadline : Z).

(** The request arrives in window [w], before the counter expires. *)
Definition in_window (a : Arrival) : Prop :=
  GetFixedWindowStart (rl_window_seconds l) (ar_now a) = w ∧ ar_time a < deadline.

Lemma limited_run now later r r' c : GetFixedWindowStart (rl_window_seconds l) now = w →
  rate_limit_script (key w) (rl_window_seconds l) r = Some (c, r') →
  ∃ o, limited key l retry now later (mkEnv r [] AutoCommit []) = (Ret o, mkEnv r' [] AutoCommit []) ∧
    let_on (Ret o) = (c <=? rl_limit l).
Proof.
  intros Hw Hs. unfold limited, CheckFixedWindowLimit, IncrWithExpire, redis_call, exec, catch_all, catch,
    mbind, M_bind, mret, M_ret. rewrite Hw. cbn. rewrite Hs. cbn.
  eexists; split; [done|]. rewrite Z.leb_antisym. by destruct (rl_limit l <? c).
Qed.

Definition counter (c : Z) : RedisEntry := mkRedisEntry (to_string c) (Some deadline).

Lemma admitted_counts arrivals : ∀ r c, 1 <= c → c + Z.of_nat (length arrivals) < 2 ^ 63 →
  rd_keys r !! key w = Some (counter c) → Forall in_window arrivals →
  ∃ r', admitted key l retry arrivals r =
      ((λ n, c + Z.of_nat n <=? rl_limit l) <$> seq 1 (length arrivals), r') ∧
    rd_keys r' !! key w = Some (counter (c + Z.of_nat (length arrivals))).
Proof.
  induction arrivals as [|a rest IH]; intros r c Hc Hn Hk Hin.
  { exists r. split; [done|]. by rewrite Z.add_0_r. }
  inversion_clear Hin as [|? ? [Hw Ht] Hrest]. cbn [length] in Hn.
  destruct (script_counts (key w) (rl_window_seconds l) (at_time (ar_time a) r) c deadline) as (r' & Hs & Hk');
    [done|done|lia|].
  cbn [admitted]. destruct (limited_run (ar_now a) (ar_later a) _ _ _ Hw Hs) as (o & -> & ->). cbn [db].
  destruct (IH r' (c + 1)) as (r2 & -> & Hk2); [lia|lia|done|done|].
  exists r2. split.
  - cbn [length seq fmap list_fmap]. do 2 f_equal.
    rewrite <-(fmap_S_seq 1), <-list_fmap_compose. apply list_fmap_ext. intros _ n _. cbn. f_equal. lia.
  - rewrite Hk2. do 2 f_equal. cbn [length]. lia.
Qed.
End window.

Lemma counts_prefix limit n : 0 <= limit →
  (λ k, Z.of_nat k <=? limit) <$> seq 1 n =
    replicate (n `min` Z.to_nat limit) true ++ replicate (n - Z.to_nat limit) false.
Proof.
  intros Hl. apply list_eq. intros i. rewrite list_lookup_fmap.
  destruct (decide (i < n)%nat) as [Hi|Hi].
  - rewrite lookup_seq_lt by done. cbn.
    destruct (decide (i < Z.to_nat limit)%nat) as [Hil|Hil].
    + rewrite lookup_app_l by (rewrite length_replicate; lia). rewrite lookup_replicate_2 by lia.
      f_equal. apply Z.leb_le. lia.
    + rewrite lookup_app_r by (rewrite length_replicate; lia). rewrite length_replicate.
      rewrite lookup_replicate_2 by lia. f_equal. apply Z.leb_gt. lia.
  - rewrite lookup_seq_ge by lia. cbn. symmetry. apply lookup_ge_None.
    rewrite length_app, !length_replicate. lia.
Qed.

(** A request that arrives in the window that starts at [start] by the clock of the server, while
    the clock of Redis, in milliseconds, runs with it at a constant distance. *)
Definition arrives_in (l : RateLimit) (start distance : Z) (a : Arrival) : Prop :=
  start <= ar_now a < start + rl_window_seconds l ∧
  0 <= ar_time a - distance - ar_now a * 1000 < 1000.

Lemma window_of window_seconds k now : 0 < window_seconds → 0 <= k →
  k * window_seconds <= now < k * window_seconds + window_seconds →
  GetFixedWindowStart window_seconds now = k * window_seconds.
Proof.
  intros Hw Hk Hn. unfold GetFixedWindowStart.
  rewrite Z.quot_div_nonneg by nia. f_equal. symmetry. apply (Z.div_unique _ _ _ (now - k * window_seconds)); lia.
Qed.

(** The counter of a window cannot expire before the window is over. *)
Lemma arrives_before_deadline l k distance first a : 0 < rl_window_seconds l → 0 <= k →
  arrives_in l (k * rl_window_seconds l) distance first →
  arrives_in l (k * rl_window_seconds l) distance a →
  in_window l (k * rl_window_seconds l) (ar_time first + rl_window_seconds l * 1000) a.
Proof. intros Hw Hk [H1 H2] [H3 H4]. split; [by apply window_of|lia]. Qed.

(** C15: a rate limit admits as many requests per window as it says.  Take any requests of one
    fixed window of the clock of the servers, spread over it and over the processes that share
    the counter, and let the clock of Redis run with that clock at any constant distance.  As
    long as Redis answers, the first [rl_limit] requests are let on and every later one is
    refused.  What keeps them counted is the life of the counter: it ends exactly one window
    after the first request, whatever came later; until then it holds the number of requests,
    and from then on it is gone, so that no later window inherits it.  A request that Redis does
    not answer is let on. *)
Theorem window_admits_limit key l retry k distance first rest r :
  0 <= rl_limit l → 0 < rl_window_seconds l → 0 <= k → Z.of_nat (length rest) < 2 ^ 62 →
  let start := k * rl_window_seconds l in
  redis_get (key start) (at_time (ar_time first) r) = None →
  Forall (arrives_in l start distance) (first :: rest) →
  let n := length (first :: rest) in
  let deadline := ar_time first + rl_window_seconds l * 1000 in
  (∃ r', admitted key l retry (first :: rest) r =
      (replicate (n `min` Z.to_nat (rl_limit l)) true ++ replicate (n - Z.to_nat (rl_limit l)) false, r') ∧
    (∀ a, arrives_in l start distance a → ar_time a < deadline) ∧
    ∀ time, redis_get (key start) (at_time time r') =
      if time <? deadline then Some (to_string (Z.of_nat n)) else None) ∧
  ∀ now later s, fst (limited key l retry now later (mkEnv s [alone Fails] AutoCommit [])) = Ret None.
Proof.
  intros Hl Hw Hk0 Hn start Hk Hin n deadline. split; [|done].
  inversion_clear Hin as [|? ? Hfirst Hrest].
  assert (∀ a, arrives_in l start distance a → in_window l start deadline a) as Hwin
    by (intros a; by apply arrives_before_deadline).
  destruct (Hwin first Hfirst) as [Hw1 _].
  destruct (script_starts (key start) (rl_window_seconds l) (at_time (ar_time first) r) Hw Hk) as (r1 & Hs & Hk1).
  rewrite <-counts_prefix by done. cbn [admitted].
  destruct (limited_run key l retry start (ar_now first) (ar_later first) _ _ _ Hw1 Hs) as (o & -> & ->). cbn [db].
  destruct (admitted_counts key l retry start deadline rest r1 1) as (r2 & -> & Hk2);
    [lia|lia|exact Hk1|by eapply Forall_impl|].
  exists r2. split; [|split].
  - unfold n. cbn [length seq fmap list_fmap]. do 2 f_equal.
    rewrite <-(fmap_S_seq 1), <-list_fmap_compose. apply list_fmap_ext. intros _ i _. cbn. f_equal. lia.
  - intros a Ha. apply (Hwin a Ha).
  - intros time. unfold redis_get, at_time. cbn. rewrite Hk2. unfold entry_live, counter. cbn.
    unfold n. cbn [length]. replace (1 + Z.of_nat (length rest)) with (Z.of_nat (S (length rest))) by lia. done.
Qed.

Lemma window_admits_limit_witness :
  fst (admitted (λ w, BuildApiRateLimitKey 7 w) (mkRateLimit 2 60) false
    [mkArrival 1000 1 1; mkArrival 2000 2 2; mkArrival 59500 59 60] (mkRedis 0 ∅)) = [true; true; false].
Proof.
  destruct (window_admits_limit (λ w, BuildApiRateLimitKey 7 w) (mkRateLimit 2 60) false 0 0
    (mkArrival 1000 1 1) [mkArrival 2000 2 2; mkArrival 59500 59 60] (mkRedis 0 ∅)) as [(r' & H & _) _].
  - discriminate.
  - reflexivity.
  - discriminate.
  - reflexivity.
  - reflexivity.
  - constructor; [by split|]. constructor; [by split|]. constructor; [by split|]. constructor.
  - rewrite H. reflexivity.
Defined.
