(* ===== verification/AccountGuards.v ===== *)
(** * What guards the accounts

    A barred account gets no tokens; granting space is exact while the quota fits its column;
    the last administrator stays, unless two demotions overlap. *)

From S2P Require Import Prelude Errors Storage Db Rely Json Schema Redis RedisLaws.
From S2P Require Import ExpiryCache Tokens Auth AccountAdmin.

(** ** Barred accounts *)

Section barred.
Context (jwt_sign : string → Jwt → string) (jwt_decode : string → option Jwt)
  (jwt_verify : string → string → Z → string → option verification_error)
  (HashToken : string → Result string) (m_jwt_secret : string)
  (VerifyPassword : string → string → bool) (toDbStringLocal : Z → string) (user_id : Z).

(** The account is disabled or locked. *)
Definition barred (s : AuthState) : Prop := ∀ u, au_users s !! user_id = Some u →
  us_status u = ACCOUNT_STATUS_DISABLED ∨ account_locked u (au_now s) = true.

#[local] Notation respects_barred := (Respects anyhow barred).

Lemma barred_closed s u : barred s → au_users s !! user_id = Some u → account_open u (au_now s) = false.
Proof.
  intros Hb Hu. specialize (Hb u Hu). unfold account_open, account_locked, locked_past, locked_ahead,
    ACCOUNT_STATUS_ACTIVE, ACCOUNT_STATUS_LOCKED, ACCOUNT_STATUS_DISABLED in *.
  destruct (Z.eqb_spec (us_status u) 1), (Z.eqb_spec (us_status u) 2); try lia; cbn in *; try done;
    destruct Hb as [Hb|Hb]; try lia; destruct (us_locked_until u) as [t|]; cbn in *; try done;
    destruct (Z.ltb_spec (au_now s) t), (Z.leb_spec t (au_now s)); done || lia.
Qed.

Lemma barred_other s id u : id ≠ user_id → barred s →
  barred (s <| au_users := <[id := u]> (au_users s) |>).
Proof. intros Hid Hb v. cbn. rewrite lookup_insert_ne by done. apply Hb. Qed.

#[local] Instance barred_redis_call {A} (q : Redis → option (A * Redis)) :
  respects_barred (redis_call q).
Proof. apply respects_redis_call; [apply _|]. intros s a r Hb _. done. Qed.

#[local] Instance barred_login_statement id ip : respects_barred (exec (login_statement id ip)).
Proof.
  apply respects_exec; [apply _|]. intros s a s' Hb. unfold login_statement.
  destruct (au_users s !! id) as [u|] eqn:Hu; [|by intros [= _ <-]].
  destruct (account_open u (au_now s)) eqn:Ho; [|by intros [= _ <-]].
  destruct (varchar 45 ip); [|done]. intros [= _ <-]. split; [|done].
  apply barred_other; [|done]. intros ->. by rewrite (barred_closed s u) in Ho.
Qed.

#[local] Instance barred_failure_statement id : respects_barred (exec (failure_statement id)).
Proof.
  apply respects_exec; [apply _|]. intros s a s' Hb. unfold failure_statement.
  destruct (au_users s !! id) as [u|] eqn:Hu; [|by intros [= _ <-]].
  destruct (account_open u (au_now s)) eqn:Ho; [|by intros [= _ <-]].
  destruct (int4 _) as [n|]; [|done]. intros [= _ <-]. split; [|done].
  apply barred_other; [|done]. intros ->. by rewrite (barred_closed s u) in Ho.
Qed.

#[local] Instance barred_validate id : respects_barred (ValidateAccountAccess id).
Proof. unfold ValidateAccountAccess. solve_respects. Qed.

#[local] Instance barred_find account : respects_barred (FindUser account).
Proof. unfold FindUser. solve_respects. Qed.

#[local] Instance barred_update_login id ip : respects_barred (UpdateLoginInfo id ip).
Proof. unfold UpdateLoginInfo, RedisDelete. solve_respects. Qed.

#[local] Instance barred_increment id : respects_barred (IncrementLoginAttempts id).
Proof. unfold IncrementLoginAttempts. solve_respects. Qed.

#[local] Instance barred_store id token : respects_barred (StoreRefreshToken HashToken (S:=AuthState) id token).
Proof. unfold StoreRefreshToken, RedisSet. solve_respects. Qed.

#[local] Instance barred_rotate id old new :
  respects_barred (RefreshRefreshToken HashToken (S:=AuthState) id old new).
Proof. unfold RefreshRefreshToken, CompareAndSwap. solve_respects. Qed.

Lemma barred_refused : yields anyhow barred (ValidateAccountAccess user_id) (λ r _, is_ok r = false).
Proof.
  unfold ValidateAccountAccess. apply yields_catch_db_ret; [apply _| |done].
  apply yields_map. apply yields_query; [apply _|]. intros s Hb.
  destruct (au_users s !! user_id) as [u|] eqn:Hu; cbn; [|done].
  destruct (Hb u Hu) as [->| ->]; [done|]. by destruct (_ =? _).
Qed.

Lemma login_account_barred request ip now a r :
  yields anyhow barred (login_account jwt_sign HashToken m_jwt_secret VerifyPassword toDbStringLocal
    request ip now a r) (λ r _, ∀ response, r = Ok response → rr_id (lr_user response) ≠ user_id).
Proof.
  unfold login_account. apply yields_result_then; [apply _| |done]. intros [id u]. cbn.
  destruct (decide (id = user_id)) as [->|Hid].
  { eapply yields_weaken; [apply yields_refused, barred_refused|]. by intros [] s. }
  apply yields_result_then; [apply _| |done]. intros _. destruct (negb _).
  { apply yields_result_then; [apply _| |done]. intros _. by apply yields_ret. }
  apply yields_result_then; [apply _| |done]. intros _.
  apply yields_then; [apply _|]. intros _. apply yields_ret. by intros s _ response [= <-].
Qed.

Lemma login_barred request ip now a r : let login := Login jwt_sign HashToken m_jwt_secret VerifyPassword
    toDbStringLocal request ip now a r in
  respects_barred login ∧
  yields anyhow barred login (λ r _, ∀ response, r = Ok response → rr_id (lr_user response) ≠ user_id).
Proof.
  intros login. assert (respects_barred (login_account jwt_sign HashToken m_jwt_secret VerifyPassword
    toDbStringLocal request (ExtractIPOnly ip) now a r)) as Hr by (unfold login_account; solve_respects).
  pose proof (login_account_barred request (ExtractIPOnly ip) now a r) as Hy.
  unfold login, Login, IncrWithExpire. split; [solve_respects|].
  apply yields_then; [apply _|]. intros [count|er]; [|done].
  destruct (5 <? count); [by apply yields_ret|done].
Qed.

Lemma refresh_barred token now jti a r :
  VerifyRefreshToken jwt_decode jwt_verify m_jwt_secret token now = Ok (user_id, jti) →
  let refresh := RefreshTokens jwt_sign jwt_decode jwt_verify HashToken m_jwt_secret token now a r in
  respects_barred refresh ∧ yields anyhow barred refresh (λ r _, is_ok r = false).
Proof.
  intros Hv refresh. unfold refresh, RefreshTokens, find_one. rewrite Hv. split; [solve_respects|].
  apply yields_catch_db_ret; [solve_respects| |done].
  apply yields_then; [solve_respects|]. intros user. by apply yields_refused, barred_refused.
Qed.

(** C14: a barred account gets no tokens.  As long as an account is disabled or locked, no login
    is answered with tokens of that user, by name or by mail address, with the right password
    or a wrong one, and no refresh token of that user is exchanged for new ones, whatever
    fails on the way; nor does a login or a refresh lift the bar. *)
Theorem barred_accounts_get_no_tokens e :
  tx e = AutoCommit → barred (db e) → stable barred (schedule e) →
  (∀ request ip now a r result e1,
     Login jwt_sign HashToken m_jwt_secret VerifyPassword toDbStringLocal request ip now a r e =
       (result, e1) →
     barred (db e1) ∧ ∀ response, result = Ret (Ok response) → rr_id (lr_user response) ≠ user_id) ∧
  (∀ token now jti a r result e1,
     VerifyRefreshToken jwt_decode jwt_verify m_jwt_secret token now = Ok (user_id, jti) →
     RefreshTokens jwt_sign jwt_decode jwt_verify HashToken m_jwt_secret token now a r e =
       (result, e1) →
     barred (db e1) ∧ ∀ response, result ≠ Ret (Ok response)).
Proof.
  intros Ht Hb Hst.
  assert (relies anyhow barred (schedule e)) as Hrel.
  { eapply Forall_impl; [exact Hst|]. intros st Hk s Hs. split; [by apply Hk|done]. }
  split.
  - intros request ip now a r result e1 Hrun.
    destruct (login_barred request ip now a r) as [Hr Hy].
    pose proof (Hr e Ht Hb Hrel) as (_ & Hb1 & _). rewrite Hrun in Hb1. split; [done|].
    intros response ->. by apply (Hy e (Ok response) e1).
  - intros token now jti a r result e1 Hv Hrun.
    destruct (refresh_barred token now jti a r Hv) as [Hr Hy].
    pose proof (Hr e Ht Hb Hrel) as (_ & Hb1 & _). rewrite Hrun in Hb1. split; [done|].
    intros response ->. by specialize (Hy e (Ok response) e1 Ht Hb Hrel Hrun).
Qed.
End barred.

Definition locked_state : AuthState :=
  mkAuthState {[7 := mkUsers "ada" "ada@example.org" "hash" None None 100 0 0 2 0 5
    (Some 900) None None 0 0]} 8 [] 100 (mkRedis 0 ∅).

Definition locked_login : outcome (Result LoginResponse) * Env AuthState :=
  Login (λ _ _, "t"%string) Ok "secret" (λ _ _, true) to_string (mkLoginRequest "ada" "hunter2")
    "10.0.0.1" 100 "a" "r" (mkEnv locked_state [] AutoCommit []).

Lemma barred_accounts_get_no_tokens_witness :
  fst locked_login = Ret (Err (err AccountLocked)) ∧ barred 7 (db (snd locked_login)) ∧
  ∀ response, fst locked_login = Ret (Ok response) → rr_id (lr_user response) ≠ 7.
Proof.
  split; [vm_compute; reflexivity|].
  assert (barred 7 locked_state) as Hb.
  { intros u Hu. right. injection Hu as <-. reflexivity. }
  destruct (barred_accounts_get_no_tokens (λ _ _, "t"%string) (λ _, None) (λ _ _ _ _, None) Ok "secret"
    (λ _ _, true) to_string 7 (mkEnv locked_state [] AutoCommit []) eq_refl Hb (Forall_nil_2 _))
    as [Hlogin _].
  exact (Hlogin _ _ _ _ _ _ _ (surjective_pairing locked_login)).
Defined.

(** ** Administrators *)

Section admin.
Context (correlation : list (string * json)) (toDbStringLocal : Z → string).

Definition alone (s : AuthState) : Env AuthState := mkEnv s [] AutoCommit [].

(** An entry of the audit trail does not touch the accounts. *)
Lemma log_keeps_users operator action type target name details s :
  ∃ s', LogOperation correlation operator action type target name details (alone s) = (Ret tt, alone s') ∧
    au_users s' = au_users s.
Proof.
  unfold LogOperation, catch_db, catch, exec, alone. cbn. unfold insert_log.
  destruct (_ && _); cbn; by eexists.
Qed.

(** The row an update leaves. *)
Definition touched (f : Users → Users) (s : AuthState) (u : Users) : Users :=
  (f u) <| us_updated_at := au_now s |>.

(** What the operations of an administrator share: find the user, change the row, log it. *)
Lemma change_run {A} target f s u operator action name details (r : Result A) :
  au_users s !! target = Some u → users_row_ok (touched f s u) = true →
  ∃ s', (_ ← mapper_update target f;
         _ ← LogOperation correlation operator action "user" target name details;
         mret r) (alone s) = (Ret r, alone s') ∧
    au_users s' = <[target := touched f s u]> (au_users s).
Proof.
  intros Hu Hok. set (s1 := s <| au_users := <[target := touched f s u]> (au_users s) |>).
  assert (mapper_update target f (alone s) = (Ret 1, alone s1)) as Hm.
  { unfold mapper_update, exec, alone, next_step. cbn [tx schedule db]. unfold update_user. rewrite Hu.
    cbv zeta. fold (touched f s u). by rewrite Hok. }
  destruct (log_keeps_users operator action "user" target name details s1) as (s' & Hl & Hs').
  exists s'. unfold mbind, M_bind. by rewrite Hm, Hl.
Qed.

Lemma with_user_run {A} target missing (k : Users → M AuthState (Result A)) s u :
  au_users s !! target = Some u → with_user target missing k (alone s) = k u (alone s).
Proof. intros Hu. unfold with_user, query, exec, mbind, M_bind, alone. cbn. by rewrite Hu. Qed.

Lemma new_quota_exact u g : 0 <= us_storage_used u < 2 ^ 63 → 0 <= us_storage_reserved u < 2 ^ 63 →
  0 <= g <= u64_max →
  let needed := us_storage_used u + us_storage_reserved u + g * 2 ^ 30 in
  new_quota u g = if needed <? 2 ^ 64 then Ok needed else Err SpaceTooLarge.
Proof.
  intros Hu Hr Hg needed. unfold new_quota, bytes_per_g, u64_max in *. change (1024 * 1024 * 1024) with (2 ^ 30).
  rewrite (u64_small (us_storage_used u)), (u64_small (us_storage_reserved u)) by lia.
  destruct (Z.ltb_spec ((2 ^ 64 - 1) / 2 ^ 30) g).
  - destruct (Z.ltb_spec needed (2 ^ 64)); [|done]. exfalso. unfold needed in *.
    change ((2 ^ 64 - 1) / 2 ^ 30) with (2 ^ 34 - 1) in *. lia.
  - change ((2 ^ 64 - 1) / 2 ^ 30) with (2 ^ 34 - 1) in *.
    rewrite (u64_small (g * 2 ^ 30)), (u64_small (us_storage_used u + us_storage_reserved u)) by lia.
    destruct (Z.ltb_spec (2 ^ 64 - 1 - us_storage_reserved u) (us_storage_used u)); [lia|]. cbn [orb].
    destruct (Z.ltb_spec (2 ^ 64 - 1 - g * 2 ^ 30) (us_storage_used u + us_storage_reserved u)),
      (Z.ltb_spec needed (2 ^ 64)); unfold needed in *; try lia; [done|].
    by rewrite u64_small by lia.
Qed.

(** Space is granted exactly, as long as the quota fits its column.  Without interference
    an administrator who grants [g] gigabytes leaves the user a quota that exceeds what is used
    and reserved by exactly that much; a sum that leaves 64 bits is refused and changes no
    account; but from 2^63 bytes on the answer announces the sum and the column, a signed
    64-bit integer, takes a negative quota. *)
Lemma granted_space_is_exact target g operator s u :
  target ≠ operator → au_users s !! target = Some u → users_row_ok u = true →
  0 <= us_storage_used u < 2 ^ 63 → 0 <= us_storage_reserved u < 2 ^ 63 → 0 <= g <= u64_max →
  let needed := us_storage_used u + us_storage_reserved u + g * 2 ^ 30 in
  let (result, e1) :=
    ChangeUserAvailableSpace correlation toDbStringLocal target g operator (alone s) in
  (needed < 2 ^ 64 → result = Ret (Ok (user_detail toDbStringLocal target needed u)) ∧
     ∃ u', au_users (db e1) !! target = Some u' ∧ us_storage_used u' = us_storage_used u ∧
       us_storage_reserved u' = us_storage_reserved u ∧
       us_storage_quota u' = (if needed <? 2 ^ 63 then needed else needed - 2 ^ 64)) ∧
  (2 ^ 64 <= needed → result = Ret (Err SpaceTooLarge) ∧ au_users (db e1) = au_users s).
Proof.
  intros Hto Hu Hok Hused Hres Hg needed. unfold ChangeUserAvailableSpace, catch_db, catch.
  rewrite (proj2 (Z.eqb_neq _ _)), (with_user_run _ _ _ _ _ Hu) by done.
  rewrite new_quota_exact by done. fold needed.
  destruct (Z.ltb_spec needed (2 ^ 64)) as [Hn|Hn]; [|by split; [lia|]].
  edestruct (change_run (A:=UserDetailResponse)) as (s' & -> & Hs'); [exact Hu|exact Hok|].
  split; [|lia]. intros _. split; [done|]. cbn [db alone]. rewrite Hs', lookup_insert_eq.
  eexists; split; [done|]. split_and!; [done..|]. cbn.
  destruct (Z.ltb_spec needed (2 ^ 63)); unfold i64.
  - rewrite Z.mod_small; lia.
  - replace (needed + 2 ^ 63) with (needed - 2 ^ 63 + 1 * 2 ^ 64) by lia.
    rewrite Z.mod_add, Z.mod_small; lia.
Qed.

(** Somebody administers. *)
Definition administered (s : AuthState) : Prop := ∃ id u, au_users s !! id = Some u ∧ us_role u = 1.

Lemma another_row {V} (P : Z → V → bool) (m : gmap Z V) k : 1 < count_rows P m →
  ∃ k' v, k' ≠ k ∧ m !! k' = Some v ∧ P k' v = true.
Proof.
  unfold count_rows. intros Hc.
  assert (NoDup (map_to_list m).*1) as Hnd by apply NoDup_fst_map_to_list.
  assert (∀ kv, kv ∈ map_to_list m → m !! kv.1 = Some kv.2) as Hin.
  { intros [a b]. apply elem_of_map_to_list. }
  induction (map_to_list m) as [|[a b] l IH]; cbn in *; [lia|].
  inversion_clear Hnd as [|? ? Ha Hnd'].
  destruct (P a b) eqn:Hp.
  - destruct (decide (a = k)) as [->|Hak].
    + destruct (List.filter (λ kv, P kv.1 kv.2) l) as [|[a' b'] l'] eqn:Hf; cbn in Hc; [lia|].
      assert (List.In (a', b') (List.filter (λ kv, P kv.1 kv.2) l)) as [Hl Hp']%List.filter_In
        by (rewrite Hf; by left).
      exists a', b'. split_and!; [|apply (Hin (a', b'))|done].
      * intros ->. apply Ha. apply list_elem_of_fmap. exists (k, b'). split; [done|].
        by apply list_elem_of_In.
      * apply elem_of_cons. right. by apply list_elem_of_In.
    + exists a, b. split_and!; [done|apply (Hin (a, b)); by left|done].
  - apply IH; [lia|done|]. intros kv Hkv. apply Hin. by right.
Qed.

Lemma may_demote_run role u s : ∃ r, may_demote role u (alone s) = (Ret r, alone s) ∧
  (r = Ok tt → role = 0 → us_role u = 1 → 1 < count_rows (λ _ u, us_role u =? 1) (au_users s)).
Proof.
  unfold may_demote. destruct (Z.eqb_spec role 0), (Z.eqb_spec (us_role u) 1); cbn [andb];
    try (eexists; split; [done|lia]).
  unfold catch_db, catch, query, exec, mbind, M_bind, alone. cbn. eexists; split; [done|].
  unfold count_admins. by destruct (Z.leb_spec (count_rows (λ _ u, us_role u =? 1) (au_users s)) 1).
Qed.

(** The last administrator stays.  A change of role that nothing interferes with never
    leaves the system without an administrator. *)
Lemma last_administrator_stays target role operator s :
  role = 0 ∨ role = 1 → administered s →
  (∀ u, au_users s !! target = Some u → users_row_ok u = true) →
  administered (db (ChangeUserRole correlation target role operator (alone s)).2).
Proof.
  intros Hrole Ha Hok. unfold ChangeUserRole, catch_db, catch.
  destruct (target =? operator); [done|].
  destruct (au_users s !! target) as [u|] eqn:Hu.
  2: { unfold with_user, query, exec, mbind, M_bind, alone. cbn. by rewrite Hu. }
  rewrite (with_user_run _ _ _ _ _ Hu).
  destruct (may_demote_run role u s) as (r & Hd & Hr). unfold bind_result.
  unfold mbind at 1, M_bind at 1. rewrite Hd. destruct r as [[]|er]; [|done].
  edestruct (change_run (A:=unit)) as (s' & -> & Hs'); [exact Hu|exact (Hok u eq_refl)|]. cbn [db alone snd].
  destruct Hrole as [->| ->].
  - destruct Ha as (id & v & Hv & Hva). destruct (decide (id = target)) as [->|Hid].
    + simplify_eq. destruct (another_row (λ _ u, us_role u =? 1) (au_users s) target) as (k & w & Hk & Hw & Hwa).
      { by apply Hr. }
      exists k, w. rewrite Hs', lookup_insert_ne by done. split; [done|]. by apply Z.eqb_eq.
    + exists id, v. by rewrite Hs', lookup_insert_ne.
  - exists target. eexists. rewrite Hs', lookup_insert_eq. by split.
Qed.
End admin.

Definition example_account (name : string) (role : Z) : Users :=
  mkUsers name (name +:+ "@example.org") "hash" None None 100 30 20 1 role 0 None None None 0 0.

Definition two_administrators : AuthState :=
  mkAuthState {[1 := example_account "ada" 1; 2 := example_account "bob" 1]} 3 [] 0 (mkRedis 0 ∅).

Lemma granted_space_is_exact_witness :
  let run g := ChangeUserAvailableSpace [] to_string 2 g 1 (alone two_administrators) in
  (∃ u, au_users (db (run 10).2) !! 2 = Some u ∧ us_storage_quota u = 50 + 10 * 2 ^ 30) ∧
  (∃ u, au_users (db (run (2 ^ 33)).2) !! 2 = Some u ∧ us_storage_quota u < 0).
Proof.
  split.
  - destruct (granted_space_is_exact [] to_string 2 10 1 two_administrators (example_account "bob" 1))
      as [H _]; [discriminate|reflexivity|reflexivity|split; [discriminate|reflexivity]|
        split; [discriminate|reflexivity]|split; [discriminate|vm_compute; discriminate]|].
    destruct (H eq_refl) as (_ & u & Hu & _ & _ & Hq). exists u. split; [exact Hu|exact Hq].
  - destruct (granted_space_is_exact [] to_string 2 (2 ^ 33) 1 two_administrators (example_account "bob" 1))
      as [H _]; [discriminate|reflexivity|reflexivity|split; [discriminate|reflexivity]|
        split; [discriminate|reflexivity]|split; [discriminate|vm_compute; discriminate]|].
    destruct (H eq_refl) as (_ & u & Hu & _ & _ & Hq). exists u. split; [exact Hu|].
    rewrite Hq. reflexivity.
Defined.

Lemma last_administrator_stays_witness :
  administered (db (ChangeUserRole [] 2 0 1 (alone two_administrators)).2).
Proof.
  apply (last_administrator_stays [] 2 0 1 two_administrators (or_introl eq_refl)).
  - exists 1, (example_account "ada" 1). split; reflexivity.
  - intros u Hu. injection Hu as <-. reflexivity.
Defined.

(** The count of administrators is not locked: two administrators who demote each other at the
    same time are both told that it worked, and nobody is left to undo it. *)
Definition overlapping_demotions : outcome (Result unit) * Env AuthState :=
  let other s := db (ChangeUserRole [] 1 0 2 (alone s)).2 in
  ChangeUserRole [] 2 0 1
    (mkEnv two_administrators [mkStep id Works; mkStep id Works; mkStep other Works] AutoCommit []).

Lemma overlapping_demotions_leave_nobody : count_admins two_administrators = 2 ∧
  fst (ChangeUserRole [] 1 0 2 (alone two_administrators)) = Ret (Ok tt) ∧
  fst overlapping_demotions = Ret (Ok tt) ∧ count_admins (db (snd overlapping_demotions)) = 0.
Proof. by vm_compute. Qed.
