(* ===== verification/FileSystem.v ===== *)
(** * The file system

    What the local object stores use of [std::filesystem] and the file streams.  The file
    system is a map from paths to contents; directories are the prefixes of the files below
    them.  An operation is a step of the monad of [Db.v]: before it the other processes may
    have changed the tree, and it works, fails, or takes effect and still reports an error. *)

From Stdlib Require Import Ascii.
From S2P Require Import Prelude Errors Storage Db Names.

Local Open Scope string_scope.

Notation FileSystem := (gmap string string).

(** A call with an [std::error_code]: [None] when it is set. *)
Definition fs_op {A} (q : FileSystem → option (A * FileSystem)) : M FileSystem (option A) :=
  catch_all (r ← exec q; mret (Some r)) (mret None).

(** [if (ec) return error]. *)
Definition or_fail {A B} (m : M FileSystem (option A)) (e : ErrorInfo)
    (k : A → M FileSystem (Result B)) : M FileSystem (Result B) :=
  r ← m; match (r : option A) with None => mret (Err e) | Some a => k a end.

(** ** Paths *)

(** [operator/] of two parts, the first not ending in a slash, the second relative. *)
Definition path_join (a b : string) : string := a ++ "/" ++ b.

Definition is_below (dir path : string) : bool := String.prefix (dir ++ "/") path.

(** The components of a path. *)
Fixpoint split_path (current : string) (path : string) : list string :=
  match path with
  | EmptyString => [current]
  | String "/" path => current :: split_path "" path
  | String c path => split_path (current ++ String c "") path
  end.

Definition components (path : string) : list string := split_path "" path.

Definition is_absolute (path : string) : bool := String.prefix "/" path.

Fixpoint join_path (l : list string) : string :=
  match l with [] => "" | [c] => c | c :: l => c ++ "/" ++ join_path l end.

(** One component of the normal form; the components so far are in reverse. *)
Definition normal_step (absolute : bool) (stack : list string) (c : string) : list string :=
  if (c =? "") || (c =? ".") then stack
  else if c =? ".." then
    match stack with
    | [] => if absolute then [] else [".."]
    | top :: rest => if top =? ".." then ".." :: stack else rest
    end
  else c :: stack.

(** [lexically_normal().generic_string()]. *)
Definition lexically_normal (path : string) : string :=
  let absolute := is_absolute path in
  let stack := fold_left (normal_step absolute) (components path) [] in
  let last := List.last (components path) "" in
  let slash := match stack with
               | [] => false
               | top :: _ => ((last =? "") || (last =? ".") || (last =? "..")) && negb (top =? "..")
               end in
  let normal := (if absolute then "/" else "") ++ join_path (rev stack) ++
                (if slash then "/" else "") in
  if str_empty normal && negb (str_empty path) then "." else normal.

(** ** The library *)

Definition is_directory (path : string) (s : FileSystem) : bool :=
  exists_row (λ p _, is_below path p) s.

Definition path_exists (path : string) (s : FileSystem) : bool :=
  bool_decide (is_Some (s !! path)) || is_directory path s.

Definition create_directories (path : string) : M FileSystem (option unit) :=
  fs_op (λ s, Some (tt, s)).

Definition fs_exists (path : string) : M FileSystem (option bool) :=
  fs_op (λ s, Some (path_exists path s, s)).

Definition fs_is_directory (path : string) : M FileSystem (option bool) :=
  fs_op (λ s, Some (is_directory path s, s)).

Definition fs_file_size (path : string) : M FileSystem (option Z) :=
  fs_op (λ s, c ← s !! path; Some (strlen c, s)).

(** A whole file read through a stream. *)
Definition fs_read (path : string) : M FileSystem (option string) :=
  fs_op (λ s, c ← s !! path; Some (c, s)).

(** The state of an open stream is checked. *)
Definition fs_check : M FileSystem (option unit) := fs_op (λ s, Some (tt, s)).

(** [std::ofstream] with truncation. *)
Definition open_truncated (path : string) : M FileSystem (option unit) :=
  fs_op (λ s, Some (tt, <[path := ""]> s)).

(** Writing at a position of an open file, which may have been removed since. *)
Definition overwrite (content : string) (offset : Z) (data : string) : string :=
  String.substring 0 (Z.to_nat offset) content ++ data ++
  String.substring (Z.to_nat (offset + strlen data)) (String.length content) content.

Definition write_at (path : string) (offset : Z) (data : string) : M FileSystem (option unit) :=
  fs_op (λ s, Some (tt, alter (λ c, overwrite c offset data) path s)).

Definition fs_remove (path : string) : M FileSystem (option unit) :=
  fs_op (λ s, Some (tt, delete path s)).

Definition fs_remove_all (path : string) : M FileSystem (option unit) :=
  fs_op (λ s, Some (tt, filter (λ kv, kv.1 ≠ path ∧ is_below path kv.1 = false) s)).

(** [rename] replaces its target. *)
Definition fs_rename (from to : string) : M FileSystem (option unit) :=
  fs_op (λ s, c ← s !! from; Some (tt, <[to := c]> (delete from s))).

(** [copy_file] without options: it creates its target, which must not exist, and then
    copies; [false] when the target is there. *)
Definition copy_file (from to : string) : M FileSystem (option bool) :=
  created ← fs_op (λ s, if path_exists to s then Some (false, s)
                        else _ ← s !! from; Some (true, <[to := ""]> s));
  match (created : option bool) with
  | Some true =>
      fs_op (λ s, Some (true, match s !! from with
                              | Some c => alter (λ _, c) to s
                              | None => s
                              end))
  | r => mret r
  end.

Local Close Scope string_scope.

(** ** Lemmas *)

(** What the other processes leave alone. *)
Definition spares (path : string) (sch : list (Step FileSystem)) : Prop :=
  Forall (λ st, ∀ s : FileSystem, interference st s !! path = s !! path) sch.

Lemma spares_suffix path sch sch' : sch' `suffix_of` sch → spares path sch → spares path sch'.
Proof. intros [pre ->] H. by apply Forall_app in H as [_ ?]. Qed.

(** Outside transactions, the mode of the file system. *)
Definition plain (e : Env FileSystem) : Prop := tx e = AutoCommit.

(** One operation, seen from a set of paths the others spare. *)
Lemma fs_op_run {A} (q : FileSystem → option (A * FileSystem)) e r e' :
  plain e → fs_op q e = (r, e') →
  plain e' ∧ schedule e' `suffix_of` schedule e ∧ calls e' = calls e ∧
  ∃ s, (∀ path, spares path (schedule e) → s !! path = db e !! path) ∧
    ((r = Ret None ∧ (db e' = s ∨ ∃ a, q s = Some (a, db e'))) ∨
     ∃ a, r = Ret (Some a) ∧ q s = Some (a, db e')).
Proof.
  destruct e as [s sch t cs]. unfold plain. cbn. intros ->.
  unfold fs_op, catch_all, catch, mbind, M_bind, mret, M_ret, exec, next_step.
  destruct sch as [|[g fl] sch]; cbn.
  - destruct (q s) as [[a s']|] eqn:E; intros [= <- <-]; cbn;
      (split_and!; [done|done|done|]); exists s; split; eauto.
  - assert (∀ path, spares path (mkStep g fl :: sch) → g s !! path = s !! path) as Hg.
    { intros path H. inversion H; subst. eauto. }
    destruct fl; cbn; destruct (q (g s)) as [[a s']|] eqn:E; intros [= <- <-]; cbn;
      (split_and!; [done|by apply suffix_cons_r|done|]); exists (g s); split; eauto.
Qed.

(** An operation that does not touch a path the others spare. *)
Lemma fs_op_spares {A} (q : FileSystem → option (A * FileSystem)) path e r e' :
  plain e → spares path (schedule e) → fs_op q e = (r, e') →
  (∀ s a s', q s = Some (a, s') → s' !! path = s !! path) →
  plain e' ∧ spares path (schedule e') ∧ db e' !! path = db e !! path ∧ ∃ o, r = Ret o.
Proof.
  intros Hp Hs H Hq. destruct (fs_op_run q e r e' Hp H) as (? & Hsuf & _ & s & Hsame & Ho).
  split_and!; [done|by eapply spares_suffix| |].
  - rewrite <- (Hsame path Hs). destruct Ho as [[_ [->|[a E]]]|(a & _ & E)]; [done|..]; by eapply Hq.
  - destruct Ho as [[-> _]|(a & -> & _)]; eauto.
Qed.

Lemma or_fail_Ok {A B} (m : M FileSystem (option A)) e0 (k : A → M FileSystem (Result B)) e b e' :
  or_fail m e0 k e = (Ret (Ok b), e') →
  ∃ a e1, m e = (Ret (Some a), e1) ∧ k a e1 = (Ret (Ok b), e').
Proof.
  unfold or_fail, mbind, M_bind. destruct (m e) as [[[a|]|x] e1]; [|done..]. eauto.
Qed.
