(* ===== verification/StorageInventory.v ===== *)
(** * The inventory of a local store

    [src/src/storage/StorageInventory.cpp]: the files below a directory, listed in pages.
    The enumeration of the directory is taken to be one step. *)

From S2P Require Import Prelude Errors Storage Db Names FileSystem.

Local Open Scope string_scope.

Definition kMaxStorageInventoryPageSize : Z := 1000.

Inductive LocalInventoryLocator := RelativeToRoot | IncludeRoot.

Definition IsSafeContinuationToken (token : string) : bool :=
  str_empty token ||
  (negb (is_absolute token) && (lexically_normal token =? token) &&
   negb (existsb (λ c, c =? "..") (components token))).

(** The path of a file relative to a directory above it. *)
Definition relative_path (root path : string) : string :=
  String.substring (String.length root + 1) (String.length path) path.

(** The files below a directory with their sizes, in the order of their names. *)
Definition inventory_entries (root : string) (s : FileSystem) : list (string * Z) :=
  (λ kv, (relative_path root kv.1, strlen kv.2)) <$>
    select_rows (λ p _, is_below root p) (λ a b, String.leb a.1 b.1) s.

(** [upper_bound] on the sorted entries. *)
Definition entries_after (token : string) (entries : list (string * Z)) : list (string * Z) :=
  List.filter (λ kv, String.ltb token kv.1) entries.

Definition inventory_locator (root : string) (mode : LocalInventoryLocator) (name : string) : string :=
  match mode with IncludeRoot => path_join root name | RelativeToRoot => name end.

Definition inventory_page (root token : string) (limit : Z) (mode : LocalInventoryLocator)
    (entries : list (string * Z)) : StorageInventoryPage :=
  let rest := entries_after token entries in
  let shown := take (Z.to_nat limit) rest in
  let has_more := (limit <? Z.of_nat (length rest))%Z in
  mkStorageInventoryPage
    ((λ kv, mkStorageInventoryObject (inventory_locator root mode kv.1) kv.2) <$> shown)
    (if has_more then default "" (fst <$> last shown) else "") has_more.

Definition ListLocalStorageInventory (root continuation_token : string) (limit : Z)
    (locator_mode : LocalInventoryLocator) : M FileSystem (Result StorageInventoryPage) :=
  if str_empty root || (limit =? 0)%Z || (kMaxStorageInventoryPageSize <? limit)%Z ||
     negb (IsSafeContinuationToken continuation_token)
  then mret (Err (mkErrorInfo ValidationFailed "Invalid local storage inventory request"))
  else
  or_fail (fs_exists root) (mkErrorInfo InternalError "Failed to inspect local inventory root")
    (λ found : bool,
      if negb found then mret (Ok (mkStorageInventoryPage [] "" false))
      else
      or_fail (fs_is_directory root)
        (mkErrorInfo InternalError "Local inventory root is not a directory") (λ directory : bool,
          if negb directory then
            mret (Err (mkErrorInfo InternalError "Local inventory root is not a directory"))
          else
          or_fail (fs_op (λ s, Some (inventory_entries root s, s)))
            (mkErrorInfo InternalError "Failed to enumerate local storage inventory") (λ entries,
              mret (Ok (inventory_page root continuation_token limit locator_mode entries))))).
