(* ===== verification/LocalFileStorage.v ===== *)
(** * The local staging store

    [src/src/storage/LocalFileStorage.cpp] with the limit on concurrent assemblies of
    [AssemblyConcurrencyLimiter.hpp]: chunks as immutable files named by their hash, and
    their assembly into one file.  A safe session is one whose identifier is a single path
    component. *)

From Stdlib Require Import Ascii.
From S2P Require Import Prelude Errors Storage Db Names FileSystem StorageInventory.

Local Open Scope string_scope.

(** ** The limit on concurrent assemblies *)

Record AssemblyConcurrencyLimiter := mkAssemblyConcurrencyLimiter {
  al_max_concurrent : Z;
  al_running : Z
}.

Definition DEFAULT_MAX_CONCURRENT : Z := 4.

(** The constructor. *)
Definition new_limiter (configured_max : Z) : AssemblyConcurrencyLimiter :=
  mkAssemblyConcurrencyLimiter
    (if (configured_max =? 0)%Z then DEFAULT_MAX_CONCURRENT else configured_max) 0.

(** The guard of a slot, when there is one. *)
Definition TryAcquire (limiter : AssemblyConcurrencyLimiter) : option AssemblyConcurrencyLimiter :=
  if (al_max_concurrent limiter <=? al_running limiter)%Z then None
  else Some (limiter <| al_running := (al_running limiter + 1)%Z |>).

(** A guard gives its slot back when it is destroyed. *)
Definition Release (limiter : AssemblyConcurrencyLimiter) : AssemblyConcurrencyLimiter :=
  if (0 <? al_running limiter)%Z then limiter <| al_running := (al_running limiter - 1)%Z |>
  else limiter.

(** ** Identities *)

Definition is_safe_character (c : ascii) : bool :=
  let n := Z.of_nat (nat_of_ascii c) in
  ((97 <=? n) && (n <=? 122) || (65 <=? n) && (n <=? 90) || (48 <=? n) && (n <=? 57) ||
   (n =? 45) || (n =? 95))%Z.

Definition is_lower_hex_character (c : ascii) : bool :=
  let n := Z.of_nat (nat_of_ascii c) in
  ((48 <=? n) && (n <=? 57) || (97 <=? n) && (n <=? 102))%Z.

Definition IsSafeObjectComponent (value : string) : bool :=
  negb (str_empty value) && forallb is_safe_character (String.list_ascii_of_string value).

Definition IsLowerHexMd5 (value : string) : bool :=
  (strlen value =? 32)%Z && forallb is_lower_hex_character (String.list_ascii_of_string value).

Definition GetChunkObjectKey (upload_id : string) (chunk_index : Z) (md5_hash : string) : string :=
  path_join (path_join upload_id "chunks") (to_string chunk_index ++ "-" ++ md5_hash ++ ".part").

Definition ValidateLocalSession (session : UploadStagingSession) : Result unit :=
  if negb (bool_decide (ss_backend session = StagingLocal)) ||
     negb (IsSafeObjectComponent (ss_upload_id session)) || str_empty (ss_prefix session)
  then Err (mkErrorInfo ValidationFailed "Invalid local upload staging session")
  else Ok tt.

Record UploadStagingObjectHead := mkUploadStagingObjectHead {
  oh_exists : bool;
  oh_size_bytes : option Z;
  oh_etag : option string
}.

Definition InvalidIdentity : ErrorInfo :=
  mkErrorInfo ValidationFailed "Invalid upload staging object identity".

Definition internal_error (what : string) : ErrorInfo := mkErrorInfo InternalError what.
Definition verify_failed (what : string) : ErrorInfo := mkErrorInfo ChunkVerifyFailed what.

(** ** The store *)

Section staging.
(** The digests in lower-case hexadecimal, and the configuration. *)
Context (HashMd5 HashSha256 : string → string).
Context (GetTempUploadPath : string) (GetAssembleBufferSizeBytes : Z).

Definition GetTempDirPath (upload_id : string) : string := path_join GetTempUploadPath upload_id.

Definition GetAssembleFilePath (upload_id : string) : string :=
  path_join GetTempUploadPath (upload_id ++ ".tmp").

Definition ResolveChunkFilePath (upload_id : string) (chunk : UploadStagingChunk) : Result string :=
  if negb (IsSafeObjectComponent upload_id) then Err InvalidIdentity
  else if str_empty (sc_object_key chunk) then
    Ok (path_join (GetTempDirPath upload_id) (to_string (sc_chunk_index chunk) ++ ".chunk"))
  else if negb (IsLowerHexMd5 (sc_md5_hash chunk)) then
    Err (verify_failed "Invalid staging chunk hash metadata")
  else
    let expected_key := GetChunkObjectKey upload_id (sc_chunk_index chunk) (sc_md5_hash chunk) in
    if negb (sc_object_key chunk =? expected_key) then
      Err (verify_failed "Staging chunk object key mismatch")
    else Ok (path_join GetTempUploadPath expected_key).

Definition EnsureUploadSession (session : UploadStagingSession) : M FileSystem (Result unit) :=
  match ValidateLocalSession session with
  | Err e => mret (Err e)
  | Ok _ =>
      or_fail (create_directories (GetTempDirPath (ss_upload_id session)))
        (internal_error "Failed to create temp upload directory") (λ _, mret (Ok tt))
  end.

Definition VerifyExistingObject (chunk_path chunk_data md5_hash : string)
  : M FileSystem (Result unit) :=
  or_fail (fs_file_size chunk_path) (verify_failed "Staging chunk size mismatch") (λ existing_size,
    if negb (existing_size =? strlen chunk_data)%Z then
      mret (Err (verify_failed "Staging chunk size mismatch"))
    else
    or_fail (fs_read chunk_path) (verify_failed "Staging chunk hash mismatch") (λ existing,
      mret (if HashMd5 existing =? md5_hash then Ok tt
            else Err (verify_failed "Staging chunk hash mismatch")))).

(** The task of [WriteChunk] that runs in the queue of the store. *)
Definition publish_chunk (chunk_dir chunk_path writing_path md5_hash chunk_data : string)
  : M FileSystem (Result unit) :=
  or_fail (create_directories chunk_dir)
    (internal_error "Failed to create temp upload directory") (λ _,
  or_fail (fs_exists chunk_path) (internal_error "Failed to inspect staging chunk") (λ chunk_exists,
    if (chunk_exists : bool) then VerifyExistingObject chunk_path chunk_data md5_hash
    else
    or_fail (open_truncated writing_path) (internal_error "Failed to open chunk file") (λ _,
      written ← write_at writing_path 0 chunk_data;
      match (written : option unit) with
      | None =>
          _ ← fs_remove writing_path;
          mret (Err (internal_error "Failed to write chunk file"))
      | Some _ =>
          renamed ← fs_rename writing_path chunk_path;
          match (renamed : option unit) with
          | Some _ => mret (Ok tt)
          | None =>
              found ← fs_exists chunk_path;
              match (found : option bool) with
              | Some true =>
                  verify_result ← VerifyExistingObject chunk_path chunk_data md5_hash;
                  _ ← fs_remove writing_path;
                  mret verify_result
              | _ =>
                  _ ← fs_remove writing_path;
                  mret (Err (internal_error "Failed to publish immutable staging chunk"))
              end
          end
      end))).

(** [uuid] names the file that is written before it is published. *)
Definition WriteChunk (session : UploadStagingSession) (chunk_index : Z)
    (md5_hash data uuid : string) : M FileSystem (Result UploadStagingChunk) :=
  if negb (is_ok (ValidateLocalSession session)) || negb (IsLowerHexMd5 md5_hash) then
    mret (Err InvalidIdentity)
  else
  let chunk_dir := path_join GetTempUploadPath (path_join (ss_upload_id session) "chunks") in
  let object_key := GetChunkObjectKey (ss_upload_id session) chunk_index md5_hash in
  let chunk_path := path_join GetTempUploadPath object_key in
  let writing_path := chunk_path ++ ".writing-" ++ uuid in
  let* _ := publish_chunk chunk_dir chunk_path writing_path md5_hash data in
  mret (Ok (mkUploadStagingChunk chunk_index (strlen data) md5_hash object_key "")).

Definition HeadChunkObject (session : UploadStagingSession) (chunk : UploadStagingChunk)
  : M FileSystem (Result UploadStagingObjectHead) :=
  match ValidateLocalSession session, ResolveChunkFilePath (ss_upload_id session) chunk with
  | Err e, _ | Ok _, Err e => mret (Err e)
  | Ok _, Ok path =>
      or_fail (fs_exists path) (mkErrorInfo FileReadError "Failed to inspect staging chunk")
        (λ found : bool,
          if negb found then mret (Ok (mkUploadStagingObjectHead false None None))
          else
          or_fail (fs_file_size path)
            (mkErrorInfo FileReadError "Failed to inspect staging chunk size")
            (λ size_bytes, mret (Ok (mkUploadStagingObjectHead true (Some size_bytes) None))))
  end.

(** ** Assembling *)

(** The chunks of an assembly with their paths: one descriptor per position. *)
Fixpoint resolve_chunks (upload_id : string) (position : Z) (chunks : list UploadStagingChunk)
  : Result (list (UploadStagingChunk * string)) :=
  match chunks with
  | [] => Ok []
  | chunk :: chunks =>
      if negb (sc_chunk_index chunk =? position)%Z then
        Err (verify_failed "Upload chunk indices are not contiguous")
      else
      match ResolveChunkFilePath upload_id chunk, resolve_chunks upload_id (position + 1) chunks with
      | Err e, _ | Ok _, Err e => Err e
      | Ok path, Ok resolved => Ok ((chunk, path) :: resolved)
      end
  end.

(** What a stream is read in: full buffers and a rest.  One unit of fuel per byte. *)
Fixpoint buffers (fuel : nat) (size : nat) (data : string) : list string :=
  match fuel with
  | O => []
  | S fuel =>
      if (String.length data <? size)%nat then (if str_empty data then [] else [data])
      else String.substring 0 size data ::
           buffers fuel size (String.substring size (String.length data) data)
  end.

Definition read_buffers (data : string) : list string :=
  buffers (S (String.length data)) (Z.to_nat GetAssembleBufferSizeBytes) data.

(** Writing to a stream: once a write has failed the stream stays bad.  The answer is the
    position and whether the stream is good. *)
Fixpoint write_buffers (path : string) (offset : Z) (good : bool) (l : list string)
  : M FileSystem (Z * bool) :=
  match l with
  | [] => mret (offset, good)
  | data :: l =>
      written ← (if good then write_at path offset data else mret None);
      write_buffers path (offset + strlen data) (bool_decide (is_Some (written : option unit))) l
  end.

(** Whether the bytes read agree with the descriptor of the chunk. *)
Definition chunk_matches (chunk : UploadStagingChunk) (data : string) : bool :=
  ((sc_size_bytes chunk =? 0) || (sc_size_bytes chunk =? strlen data))%Z &&
  (str_empty (sc_md5_hash chunk) || (sc_md5_hash chunk =? HashMd5 data)).

Definition fail_assembly {A} (assembled_path : string) (e : ErrorInfo) : M FileSystem (Result A) :=
  _ ← fs_remove assembled_path; mret (Err e).

(** The loop over the chunks: [content] is what has been read so far.  A chunk is read as it
    was when it was opened. *)
Fixpoint assemble_loop (assembled_path : string) (offset : Z) (good : bool) (content : string)
    (resolved : list (UploadStagingChunk * string)) : M FileSystem (Result (string * bool)) :=
  match resolved with
  | [] => mret (Ok (content, good))
  | (chunk, chunk_path) :: resolved =>
      opened ← fs_read chunk_path;
      match (opened : option string) with
      | None => fail_assembly assembled_path (verify_failed "Staging chunk object is missing")
      | Some data =>
          '(offset, good) ← write_buffers assembled_path offset good (read_buffers data);
          at_end ← fs_check;
          match (at_end : option unit) with
          | None =>
              fail_assembly assembled_path (internal_error "Failed to read chunk for assembling")
          | Some _ =>
              if negb (chunk_matches chunk data) then
                fail_assembly assembled_path (verify_failed "Staging chunk metadata mismatch")
              else assemble_loop assembled_path offset good (content ++ data) resolved
          end
      end
  end.

(** The task of [AssembleChunks] that runs in the queue of assemblies. *)
Definition assemble_file (assembled_path : string) (resolved : list (UploadStagingChunk * string))
  : M FileSystem (Result UploadStagingAssembly) :=
  or_fail (create_directories GetTempUploadPath)
    (internal_error "Failed to prepare assemble directory") (λ _,
  or_fail (open_truncated assembled_path)
    (internal_error "Failed to create assembled temp file") (λ _,
    let* (content, good) := assemble_loop assembled_path 0 true "" resolved in
    (closed ← fs_check;
     if negb (good : bool) || bool_decide ((closed : option unit) = None) then
       fail_assembly assembled_path (internal_error "Failed to write assembled temp file")
     else
       mret (Ok (mkUploadStagingAssembly StagingLocal assembled_path (u64 (strlen content))
                   (HashMd5 content) (HashSha256 content)))))).

Definition AssembleChunks (limiter : AssemblyConcurrencyLimiter) (session : UploadStagingSession)
    (state_version expected_chunk_count : Z) (chunks : list UploadStagingChunk)
  : M FileSystem (Result UploadStagingAssembly) :=
  match ValidateLocalSession session with
  | Err e => mret (Err e)
  | Ok _ =>
      if negb (Z.of_nat (length chunks) =? expected_chunk_count)%Z then
        mret (Err (verify_failed "Upload chunk descriptor count mismatch"))
      else
      match resolve_chunks (ss_upload_id session) 0 chunks with
      | Err e => mret (Err e)
      | Ok resolved_chunks =>
          match TryAcquire limiter with
          | None => mret (Err (mkErrorInfo TooManyRequests
                      "Too many concurrent assembly operations, please retry later"))
          | Some _ =>
              assemble_file (GetAssembleFilePath (ss_upload_id session)) resolved_chunks
          end
      end
  end.

Definition DiscardAssembly (session : UploadStagingSession) (assembly : UploadStagingAssembly)
  : M FileSystem (Result unit) :=
  match ValidateLocalSession session with
  | Err e => mret (Err e)
  | Ok _ =>
      let expected_path := GetAssembleFilePath (ss_upload_id session) in
      if negb (bool_decide (sa_backend assembly = StagingLocal)) || str_empty (sa_locator assembly)
      then mret (Err (internal_error "Local staging requires a local assembly object"))
      else if negb (lexically_normal (sa_locator assembly) =? lexically_normal expected_path)
      then mret (Err (internal_error "Assembled temp file path mismatch"))
      else
      or_fail (fs_exists expected_path) (internal_error "Failed to check assembled temp file")
        (λ found : bool,
          if negb found then mret (Ok tt)
          else
          or_fail (fs_remove expected_path)
            (internal_error "Failed to discard assembled temp file") (λ _, mret (Ok tt)))
  end.

Definition CleanupSession (session : UploadStagingSession) : M FileSystem (Result unit) :=
  match ValidateLocalSession session with
  | Err e => mret (Err e)
  | Ok _ =>
      or_fail (fs_remove_all (GetTempDirPath (ss_upload_id session)))
        (internal_error "Failed to cleanup temp directory") (λ _,
      or_fail (fs_remove (GetAssembleFilePath (ss_upload_id session)))
        (internal_error "Failed to cleanup assembled temp file") (λ _, mret (Ok tt)))
  end.

Definition ListStagingObjects (continuation_token : string) (limit : Z)
  : M FileSystem (Result StorageInventoryPage) :=
  ListLocalStorageInventory GetTempUploadPath continuation_token limit RelativeToRoot.
End staging.
