(* ===== verification/LocalBlobStore.v ===== *)
(** * The local blob store

    [src/src/storage/LocalBlobStore.cpp]: final blobs as files named by the SHA-256 of
    their content. *)

From Stdlib Require Import Ascii.
From S2P Require Import Prelude Errors Storage Db Names FileSystem StorageInventory.
From S2P Require Import LocalFileStorage.

Local Open Scope string_scope.

(** ** The stream of a file *)

(** [LocalFileReadStream]: the bytes of the file that are still ahead, the number of bytes
    that may still be read, and whether the stream is open. *)
Record LocalFileReadStream := mkLocalFileReadStream {
  rs_ahead : string;
  rs_remaining : Z;
  rs_open : bool
}.

Definition Close (stream : LocalFileReadStream) : LocalFileReadStream :=
  stream <| rs_open := false |>.

(** [Read] with a buffer. *)
Definition Read (stream : LocalFileReadStream) (length : Z) : string * LocalFileReadStream :=
  if negb (rs_open stream) || (rs_remaining stream =? 0)%Z then ("", stream)
  else
    let read_size := Z.min length (Z.min (rs_remaining stream) u64_max) in
    let data := String.substring 0 (Z.to_nat read_size) (rs_ahead stream) in
    if str_empty data then ("", Close (stream <| rs_remaining := 0%Z |>))
    else
      let stream := mkLocalFileReadStream
        (String.substring (String.length data) (String.length (rs_ahead stream)) (rs_ahead stream))
        (rs_remaining stream - strlen data) (rs_open stream) in
      (data, if (rs_remaining stream =? 0)%Z then Close stream else stream).

(** ** The store *)

Definition IsSha256Hash (value : string) : bool :=
  (strlen value =? 64)%Z && forallb is_lower_hex_character (String.list_ascii_of_string value).

Record BlobPromoteResult := mkBlobPromoteResult {
  pr_path : string;
  pr_created : bool
}.

Section blobs.
Context (HashSha256 : string → string) (GetStorageBasePath : string).

Definition VerifyExistingLocalBlob (final_path : string) (expected_size : Z)
    (expected_sha256 : string) : M FileSystem (Result unit) :=
  or_fail (fs_file_size final_path) (verify_failed "Existing local final blob size mismatch")
    (λ size,
      if negb (size =? expected_size)%Z then
        mret (Err (verify_failed "Existing local final blob size mismatch"))
      else
      or_fail (fs_read final_path) (verify_failed "Existing local final blob hash mismatch")
        (λ content,
          mret (if HashSha256 content =? expected_sha256 then Ok tt
                else Err (verify_failed "Existing local final blob hash mismatch")))).

Definition final_path (sha256_hash : string) : string :=
  path_join (path_join (path_join GetStorageBasePath "sha256")
    (String.substring 0 2 sha256_hash)) (sha256_hash ++ ".bin").

Definition existing_blob (path : string) (expected_size : Z) (sha256_hash : string)
  : M FileSystem (Result BlobPromoteResult) :=
  let* _ := VerifyExistingLocalBlob path expected_size sha256_hash in
  mret (Ok (mkBlobPromoteResult path false)).

(** The task of [PromoteToFinal] that runs in the queue of the store. *)
Definition promote_file (temp_path path : string) (expected_size : Z) (sha256_hash : string)
  : M FileSystem (Result BlobPromoteResult) :=
  or_fail (create_directories (path_join (path_join GetStorageBasePath "sha256")
             (String.substring 0 2 sha256_hash)))
    (internal_error "Failed to create final storage directory") (λ _,
  or_fail (fs_exists path) (internal_error "Failed to inspect final storage path") (λ found : bool,
    if found then existing_blob path expected_size sha256_hash
    else
    or_fail (fs_file_size temp_path) (verify_failed "Local assembled blob size mismatch")
      (λ source_size,
        if negb (source_size =? expected_size)%Z then
          mret (Err (verify_failed "Local assembled blob size mismatch"))
        else
        or_fail (copy_file temp_path path)
          (internal_error "Failed to copy file to final storage path") (λ created : bool,
            if created then mret (Ok (mkBlobPromoteResult path true))
            else existing_blob path expected_size sha256_hash)))).

Definition PromoteToFinal (assembly : UploadStagingAssembly) (sha256_hash : string)
  : M FileSystem (Result BlobPromoteResult) :=
  if negb (bool_decide (sa_backend assembly = StagingLocal)) || str_empty (sa_locator assembly) then
    mret (Err (internal_error "Local blob store requires a local staging object"))
  else if negb (IsSha256Hash sha256_hash) || negb (sa_sha256_hash assembly =? sha256_hash) then
    mret (Err (mkErrorInfo ValidationFailed "Invalid SHA-256 hash for local blob promotion"))
  else promote_file (sa_locator assembly) (final_path sha256_hash) (sa_size_bytes assembly)
         sha256_hash.

Definition OpenBlobRangeForRead (blob : BlobDescriptor) (start length : Z)
  : M FileSystem (Result LocalFileReadStream) :=
  if str_empty (bd_storage_path blob) then
    mret (Err (mkErrorInfo FileReadError "Blob storage path is empty"))
  else if (2 ^ 63 - 1 <? start)%Z then
    mret (Err (mkErrorInfo ValidationFailed "Invalid request range"))
  else
  or_fail (fs_read (bd_storage_path blob))
    (mkErrorInfo FileReadError "Failed to open file for reading") (λ content,
  or_fail fs_check (mkErrorInfo FileReadError "Failed to seek blob for reading") (λ _,
    mret (Ok (mkLocalFileReadStream
      (String.substring (Z.to_nat start) (String.length content) content) length true)))).

Definition DeleteTimedOut : ErrorInfo := internal_error "Delete operation timed out".

(** The task of [DeleteBlob] that runs in the queue of the store. *)
Definition delete_path (storage_path : string) : M FileSystem (Result unit) :=
  or_fail (fs_exists storage_path) (internal_error "Failed to check blob path") (λ found : bool,
    if negb found then mret (Ok tt)
    else
    or_fail (fs_is_directory storage_path) (internal_error "Failed to inspect blob path")
      (λ directory : bool,
        or_fail (if directory then fs_remove_all storage_path else fs_remove storage_path)
          (internal_error "Failed to delete blob path") (λ _, mret (Ok tt)))).

(** [timed_out] tells whether the timer fires before the task is done: the caller is answered
    while the task goes on. *)
Definition DeleteBlob (timed_out : bool) (storage_path : string) : M FileSystem (Result unit) :=
  r ← delete_path storage_path;
  mret (if timed_out then Err DeleteTimedOut else r).

Definition BlobExists (blob : BlobDescriptor) : M FileSystem (Result bool) :=
  if str_empty (bd_storage_path blob) then
    mret (Err (mkErrorInfo FileReadError "Blob storage path is empty"))
  else or_fail (fs_exists (bd_storage_path blob))
         (internal_error "Failed to check blob existence") (λ found, mret (Ok found)).

Definition GetLocalBlobPathForDownload (blob : BlobDescriptor) : option string :=
  if str_empty (bd_storage_path blob) then None else Some (bd_storage_path blob).

(** A missing file is told from other failures. *)
Definition GetBlobSize (blob : BlobDescriptor) : M FileSystem (Result Z) :=
  or_fail (fs_op (λ s, Some (s !! bd_storage_path blob, s)))
    (mkErrorInfo FileReadError "Failed to read blob size") (λ content : option string,
      mret (match content with
            | None => Err (mkErrorInfo FileNotFound "Local blob not found")
            | Some c => Ok (strlen c)
            end)).

Definition ListFinalObjects (continuation_token : string) (limit : Z)
  : M FileSystem (Result StorageInventoryPage) :=
  ListLocalStorageInventory GetStorageBasePath continuation_token limit IncludeRoot.
End blobs.
