(* ===== verification/DeleteAwaiter.v ===== *)
(** * The awaiter of a deletion

    [ConcurrentQueueAwaiterWithTimeout] of [src/src/storage/LocalBlobStore.cpp], on which
    [DeleteBlob] waits: a task in the queue of the store and a timer of the event loop race
    for one atomic flag; the winner leaves its value and queues the resumption of the
    coroutine.  The awaiter is a temporary of the coroutine: it dies when the coroutine goes
    on, while the task and the timer still hold a pointer to it. *)

From S2P Require Import Prelude.

(** The task: it has not ended, it has ended, it has won the exchange, it has left its value,
    it is done. *)
Inductive TaskPc := TaskRuns | TaskExchanges | TaskSets | TaskResumes | TaskDone.

(** The timer: armed, or in its callback after the exchange. *)
Inductive TimerPc := TimerArmed | TimerSets | TimerResumes | TimerDone.

(** What the coroutine is resumed with: the result of the task, or the time-out. *)
Inductive Answer (A : Type) := TaskResult (a : A) | TimedOut.
Arguments TaskResult {A} a.
Arguments TimedOut {A}.

Section deletion.
Context {A : Type}.

(** [alive] tells whether the awaiter still exists; [dead_reads] counts the accesses to it
    after its end. *)
Record DeleteAwaiter := mkDeleteAwaiter {
  m_completed : bool;
  m_value : option (Answer A);
  task : TaskPc;
  timer : TimerPc;
  queued : bool;
  resumptions : list (option (Answer A));
  alive : bool;
  dead_reads : nat
}.

(** Without an event loop no timer is armed. *)
Definition start_deletion (has_loop : bool) : DeleteAwaiter :=
  mkDeleteAwaiter false None TaskRuns (if has_loop then TimerArmed else TimerDone) false [] true 0.

(** An access to a member. *)
Definition touch (w : DeleteAwaiter) : DeleteAwaiter :=
  if alive w then w else w <| dead_reads := S (dead_reads w) |>.

(** [m_completed.compare_exchange_strong(expected, true)] from [false]. *)
Definition take_flag (w : DeleteAwaiter) : bool * DeleteAwaiter :=
  (negb (m_completed w), (touch w) <| m_completed := true |>).

Definition set_value (v : Answer A) (w : DeleteAwaiter) : DeleteAwaiter :=
  (touch w) <| m_value := Some v |>.

(** [Resume]: the resumption is put into the queue of the loop. *)
Definition queue_resume (w : DeleteAwaiter) : DeleteAwaiter :=
  (touch w) <| queued := true |>.

(** The coroutine goes on with the value it finds, and the awaiter is destroyed. *)
Definition resume_step (w : DeleteAwaiter) : option DeleteAwaiter :=
  if queued w then
    Some ((touch w) <| queued := false |> <| resumptions := m_value w :: resumptions w |>
            <| alive := false |>)
  else None.

(** The lambda that runs in the queue of the store. *)
Definition task_step (result : A) (w : DeleteAwaiter) : option DeleteAwaiter :=
  match task w with
  | TaskRuns => Some ((touch w) <| task := TaskExchanges |>)
  | TaskExchanges =>
      let '(won, w) := take_flag w in
      Some (w <| task := if won then TaskSets else TaskDone |>)
  | TaskSets => Some ((set_value (TaskResult result) w) <| task := TaskResumes |>)
  | TaskResumes => Some ((queue_resume w) <| task := TaskDone |>)
  | TaskDone => None
  end.

(** The lambda of [runAfter]. *)
Definition timer_step (w : DeleteAwaiter) : option DeleteAwaiter :=
  match timer w with
  | TimerArmed =>
      let '(won, w) := take_flag w in
      Some (w <| timer := if won then TimerSets else TimerDone |>)
  | TimerSets => Some ((set_value TimedOut w) <| timer := TimerResumes |>)
  | TimerResumes => Some ((queue_resume w) <| timer := TimerDone |>)
  | TimerDone => None
  end.

Inductive delete_step (result : A) (w : DeleteAwaiter) : DeleteAwaiter → Prop :=
  | TaskStep w' : task_step result w = Some w' → delete_step result w w'
  | TimerStep w' : timer_step w = Some w' → delete_step result w w'
  | ResumeStep w' : resume_step w = Some w' → delete_step result w w'.

(** ** The race *)

(** What is reachable: nobody has won; the task, or the timer, has won and is about to leave
    its value; or a value [v] is there and the resumption is queued or done. *)
Inductive delete_inv (result : A) : DeleteAwaiter → Prop :=
  | Racing v ta ti n : ta ∈ [TaskRuns; TaskExchanges] → ti ∈ [TimerArmed; TimerDone] →
      delete_inv result (mkDeleteAwaiter false v ta ti false [] true n)
  | TaskWins v ti n : ti ∈ [TimerArmed; TimerDone] →
      delete_inv result (mkDeleteAwaiter true v TaskSets ti false [] true n)
  | TaskLeaves ti n : ti ∈ [TimerArmed; TimerDone] →
      delete_inv result
        (mkDeleteAwaiter true (Some (TaskResult result)) TaskResumes ti false [] true n)
  | TaskWon ti q n : ti ∈ [TimerArmed; TimerDone] →
      delete_inv result (mkDeleteAwaiter true (Some (TaskResult result)) TaskDone ti q
        (if q then [] else [Some (TaskResult result)]) q n)
  | TimerWins v ta n : ta ∈ [TaskRuns; TaskExchanges; TaskDone] →
      delete_inv result (mkDeleteAwaiter true v ta TimerSets false [] true n)
  | TimerLeaves ta n : ta ∈ [TaskRuns; TaskExchanges; TaskDone] →
      delete_inv result (mkDeleteAwaiter true (Some TimedOut) ta TimerResumes false [] true n)
  | TimerWon ta q n : ta ∈ [TaskRuns; TaskExchanges; TaskDone] →
      delete_inv result (mkDeleteAwaiter true (Some TimedOut) ta TimerDone q
        (if q then [] else [Some TimedOut]) q n).

Lemma delete_inv_start result has_loop : delete_inv result (start_deletion has_loop).
Proof. apply Racing; destruct has_loop; set_solver. Qed.

(** The case analysis of the lemmas below. *)
Ltac cases_of_in H :=
  rewrite ?elem_of_cons, ?elem_of_nil in H; destruct_or?; subst; try done.

Lemma delete_inv_step result w w' : delete_inv result w → delete_step result w w' → delete_inv result w'.
Proof.
  intros Hinv Hs; destruct Hinv as [v ta ti n Ha Hi|v ti n Hi|ti n Hi|ti q n Hi|v ta n Ha|ta n Ha|ta q n Ha];
    try cases_of_in Ha; try cases_of_in Hi; try destruct q;
    destruct Hs as [w' Hs|w' Hs|w' Hs]; cbn in Hs; simplify_eq/=;
    first [ by apply Racing; set_solver | by apply TaskWins; set_solver
          | by apply TaskLeaves; set_solver | by apply (TaskWon result _ true); set_solver
          | by apply (TaskWon result _ false); set_solver
          | by apply TimerWins; set_solver | by apply TimerLeaves; set_solver
          | by apply (TimerWon result _ true); set_solver
          | by apply (TimerWon result _ false); set_solver ].
Qed.

Lemma delete_inv_reachable result has_loop w :
  rtc (delete_step result) (start_deletion has_loop) w → delete_inv result w.
Proof.
  intros Hr. pose proof (delete_inv_start result has_loop) as Hi. revert Hi.
  induction Hr; eauto using delete_inv_step.
Qed.

(** Nobody can move. *)
Definition delete_stuck (result : A) (w : DeleteAwaiter) : Prop :=
  task_step result w = None ∧ timer_step w = None ∧ resume_step w = None.

(** Whatever the interleaving, the coroutine is resumed once, with the result of the task or
    with the time-out. *)
Lemma deletion_answers_once result has_loop w :
  rtc (delete_step result) (start_deletion has_loop) w →
  (resumptions w = [] ∨ ∃ v, (v = TimedOut ∨ v = TaskResult result) ∧ resumptions w = [Some v]) ∧
  (delete_stuck result w → ∃ v, resumptions w = [Some v]).
Proof.
  intros Hinv%delete_inv_reachable. split.
  - destruct Hinv as [| | |ti [] n|v ta n|ta n|ta [] n]; cbn; eauto.
  - intros (H1 & H2 & H3). unfold resume_step in H3.
    destruct Hinv as [v ta ti n Ha|v ti n|ti n|ti [] n|v ta n|ta n|ta [] n]; cbn in *;
      try discriminate; eauto.
    cases_of_in Ha.
Qed.

(** Once the coroutine has gone on, the party that lost reads the awaiter that is gone. *)
Lemma loser_reads_dead_awaiter result has_loop w w' :
  rtc (delete_step result) (start_deletion has_loop) w → resumptions w ≠ [] → delete_step result w w' →
  dead_reads w' = S (dead_reads w).
Proof.
  intros Hinv%delete_inv_reachable Hres Hs.
  destruct Hinv as [v ta ti n Ha Hi|v ti n Hi|ti n Hi|ti [] n Hi|v ta n Ha|ta n Ha|ta [] n Ha];
    cbn in Hres; try done; try cases_of_in Ha; try cases_of_in Hi;
    destruct Hs as [w' Hs|w' Hs|w' Hs]; cbn in Hs; by simplify_eq/=.
Qed.

(** Every deletion that is answered in time leaves its timer armed, and the timer fires. *)
Lemma timer_outlives_deletion result :
  ∃ w, rtc (delete_step result) (start_deletion true) w ∧ resumptions w = [Some (TaskResult result)] ∧
    dead_reads w = O ∧ ∃ w', timer_step w = Some w' ∧ dead_reads w' = 1%nat.
Proof.
  exists (mkDeleteAwaiter true (Some (TaskResult result)) TaskDone TimerArmed false
    [Some (TaskResult result)] false 0). split; [|by split_and!; eauto].
  do 4 (eapply rtc_l; [by eapply TaskStep|]). eapply rtc_l; [by eapply ResumeStep|]. done.
Qed.
End deletion.
