(* ===== verification/LocalPipeline.v ===== *)
(** * What the local stores keep

    The bytes of an upload on their way through the local stores: chunks are written,
    assembled, promoted to a final blob and read. *)

From Stdlib Require Import Ascii.
From S2P Require Import Prelude Errors Storage Db Names FileSystem StorageInventory.
From S2P Require Import LocalFileStorage LocalBlobStore.

(** ** Strings *)

Fixpoint concat_strings (l : list string) : string :=
  match l with [] => ""%string | s :: l => s +:+ concat_strings l end.

Lemma substring_app_left a b : String.substring 0 (String.length a) (a +:+ b) = a.
Proof.
  induction a as [|x a IH]; [by destruct b|]. exact (f_equal (String x) IH).
Qed.

Lemma substring_past n m s : (String.length s <= n)%nat → String.substring n m s = ""%string.
Proof.
  revert n. induction s as [|c s IH]; intros [|n] H; simpl in *; try lia;
    [by destruct m|by destruct m|]. apply IH. lia.
Qed.

Lemma strlen_nat s : Z.to_nat (strlen s) = String.length s.
Proof. unfold strlen. lia. Qed.

(** Writing at the end of a file appends. *)
Lemma overwrite_end acc data : overwrite acc (strlen acc) data = acc +:+ data.
Proof.
  unfold overwrite. rewrite strlen_nat, substring_full, (substring_past (Z.to_nat _)).
  - by rewrite string_app_nil.
  - unfold strlen. lia.
Qed.

(** The buffers of a text make it up. *)
Lemma buffers_concat fuel size data : (0 < size)%nat → (String.length data < fuel)%nat →
  concat_strings (buffers fuel size data) = data.
Proof.
  intros Hs. revert data. induction fuel as [|fuel IH]; intros data Hf; [lia|]. cbn [buffers].
  destruct (Nat.ltb_spec (String.length data) size) as [Hlt|Hge].
  - destruct data as [|c data]; [done|]. cbn. by rewrite string_app_nil.
  - cbn [concat_strings]. rewrite IH.
    + pose proof (substring_split data 0 size (String.length data - size)) as E. simpl in E.
      replace (size + (String.length data - size))%nat with (String.length data) in E by lia.
      rewrite substring_full in E. rewrite E at 4. f_equal.
      rewrite <- (substring_min size (String.length data)). f_equal. lia.
    + rewrite length_substring. lia.
Qed.

(** ** Assembling *)

Section assembling.
Context (HashMd5 HashSha256 : string → string) (temp : string) (buffer_size : Z).
Hypothesis Hbuffer : 0 < buffer_size.

Lemma read_buffers_concat data : concat_strings (read_buffers buffer_size data) = data.
Proof. apply buffers_concat; lia. Qed.

Lemma write_at_run path offset data e r e' : plain e → spares path (schedule e) →
  write_at path offset data e = (r, e') →
  plain e' ∧ spares path (schedule e') ∧ ∃ o, r = Ret o ∧
    (is_Some o → db e' !! path = (λ c, overwrite c offset data) <$> db e !! path).
Proof.
  intros Hp Hs H. destruct (fs_op_run _ _ _ _ Hp H) as (? & Hsuf & _ & s & Hsame & Ho).
  split_and!; [done|by eapply spares_suffix|].
  destruct Ho as [[-> _]|(a & -> & Hq)]; [exists None; split; [done|by intros []]|].
  exists (Some a). split; [done|]. intros _. injection Hq as _ <-.
  by rewrite lookup_alter_eq, (Hsame path Hs).
Qed.

(** The file under assembly holds what has been written, while the stream is good. *)
Definition holds_prefix (path : string) (good : bool) (offset : Z) (content : string)
    (s : FileSystem) : Prop :=
  good = true → s !! path = Some content ∧ offset = strlen content.

Lemma write_buffers_run path l : ∀ offset good content e r e',
  plain e → spares path (schedule e) → holds_prefix path good offset content (db e) →
  write_buffers path offset good l e = (r, e') →
  plain e' ∧ spares path (schedule e') ∧ ∃ offset' good', r = Ret (offset', good') ∧
    holds_prefix path good' offset' (content +:+ concat_strings l) (db e') ∧
    (good' = true → good = true).
Proof.
  induction l as [|data l IH]; intros offset good content e r e' Hp Hs Hh.
  - cbn. intros [= <- <-]. split_and!; [done|done|]. exists offset, good.
    rewrite string_app_nil. done.
  - cbn [write_buffers]. unfold mbind at 1, M_bind at 1. destruct good.
    + destruct (write_at path offset data e) as [ro e1] eqn:Ew.
      destruct (write_at_run _ _ _ _ _ _ Hp Hs Ew) as (Hp1 & Hs1 & o & -> & Ho).
      intros H. assert (holds_prefix path (bool_decide (is_Some o)) (offset + strlen data)
        (content +:+ data) (db e1)) as Hh1.
      { intros Hsome%bool_decide_eq_true_1. destruct (Hh eq_refl) as [Hc ->].
        rewrite Ho, Hc by done. cbn. by rewrite overwrite_end, strlen_app. }
      destruct (IH _ _ _ _ _ _ Hp1 Hs1 Hh1 H) as (? & ? & off' & good' & -> & Hh' & _).
      split_and!; [done..|]. exists off', good'. split; [done|]. split; [|done].
      cbn. by rewrite <- string_app_assoc.
    + intros H. cbn in H.
      destruct (IH (offset + strlen data) false content _ _ _ Hp Hs ltac:(done) H)
        as (? & ? & off' & good' & -> & _ & Hgood).
      split_and!; [done..|]. exists off', good'. split; [done|]. split; [|done].
      intros ->. by discriminate Hgood.
Qed.

(** An operation on another path, or one that changes nothing. *)
Lemma fs_read_run path path' e r e' : plain e → spares path' (schedule e) →
  fs_read path e = (r, e') → plain e' ∧ spares path' (schedule e') ∧
  db e' !! path' = db e !! path' ∧ ∃ o, r = Ret o.
Proof.
  intros Hp Hs H. eapply (fs_op_spares _ path' _ _ _ Hp Hs H).
  intros s a s' Hq. by apply bind_Some in Hq as (c & _ & [= _ <-]).
Qed.

Lemma fs_check_run path e r e' : plain e → spares path (schedule e) →
  fs_check e = (r, e') → plain e' ∧ spares path (schedule e') ∧
  db e' !! path = db e !! path ∧ ∃ o, r = Ret o.
Proof. intros Hp Hs H. eapply (fs_op_spares _ path _ _ _ Hp Hs H). by intros s a s' [= _ <-]. Qed.

(** ** What an object held

    [had e path data]: an object at [path] holds [data] at some moment from [e] on, that is,
    [data] has every property that the content of [path] has in [e] and that the other
    processes keep. *)
Definition content_has (K : string → Prop) (path : string) (s : FileSystem) : Prop :=
  ∀ c, s !! path = Some c → K c.

Definition keeps_content (K : string → Prop) (path : string) (e : Env FileSystem) : Prop :=
  content_has K path (db e) ∧
  Forall (λ st, ∀ s, content_has K path s → content_has K path (interference st s)) (schedule e).

Definition had (e : Env FileSystem) (path data : string) : Prop :=
  ∀ K : string → Prop, keeps_content K path e → K data.

(** What [path] holds from [e'] on, it holds from [e] on. *)
Definition passes (path : string) (e e' : Env FileSystem) : Prop :=
  ∀ K, keeps_content K path e → keeps_content K path e'.

Lemma passes_trans path e1 e2 e3 : passes path e1 e2 → passes path e2 e3 → passes path e1 e3.
Proof. intros H1 H2 K HK. by apply H2, H1. Qed.

Lemma had_passes path e e' data : passes path e e' → had e' path data → had e path data.
Proof. intros Hp Hh K HK. by apply Hh, Hp. Qed.

(** A path the others spare holds what it held at first. *)
Lemma had_spared path e data c : spares path (schedule e) → db e !! path = Some c →
  had e path data → data = c.
Proof.
  intros Hs Hc Hh. apply (Hh (λ x, x = c)). split.
  - intros x Hx. congruence.
  - eapply Forall_impl; [exact Hs|]. intros st Hst s Hk x. rewrite Hst. apply Hk.
Qed.

Lemma fs_op_passes {A} (q : FileSystem → option (A * FileSystem)) path e r e' :
  plain e → fs_op q e = (r, e') → (∀ s a s', q s = Some (a, s') → s' !! path = s !! path) →
  passes path e e' ∧ ∀ a, r = Ret (Some a) → ∃ s, q s = Some (a, db e') ∧
    ∀ K, keeps_content K path e → content_has K path s.
Proof.
  destruct e as [s sch t cs]. unfold plain, passes, keeps_content. cbn. intros ->.
  unfold fs_op, catch_all, catch, mbind, M_bind, mret, M_ret, exec, next_step. intros H Hq.
  assert (∀ K s a s', q s = Some (a, s') → content_has K path s → content_has K path s') as Hc.
  { intros K s1 a s2 E HK c. rewrite (Hq _ _ _ E). apply HK. }
  destruct sch as [|[g fl] sch]; cbn in H.
  - destruct (q s) as [[a s']|] eqn:E; injection H as <- <-; cbn; split.
    + intros K [HK ?]. split; [by eapply Hc|done].
    + intros a' [= <-]. exists s. split; [done|]. by intros K [HK _].
    + done.
    + done.
  - assert (∀ K, content_has K path s ∧ Forall (λ st, ∀ s, content_has K path s →
      content_has K path (interference st s)) (mkStep g fl :: sch) →
      content_has K path (g s) ∧ Forall (λ st, ∀ s, content_has K path s →
      content_has K path (interference st s)) sch) as Hg.
    { intros K [HK HF]. inversion_clear HF as [|? ? H1 H2]. split; [by apply H1|done]. }
    destruct fl; cbn in H; destruct (q (g s)) as [[a s']|] eqn:E; injection H as <- <-; cbn;
      (split; [|intros a'; try done]).
    all: try (intros K HK%Hg; destruct HK as [HK ?]; split; [first [exact HK | by eapply Hc]|done]).
    intros [= <-]. exists (g s). split; [done|]. intros K HK. by apply Hg.
Qed.

(** What is read was there. *)
Lemma fs_read_had path e data e' : plain e → fs_read path e = (Ret (Some data), e') → had e path data.
Proof.
  intros Hp H. destruct (fs_op_passes _ path _ _ _ Hp H) as [_ Hr].
  { intros s a s' Hq. by apply bind_Some in Hq as (c & _ & [= _ <-]). }
  destruct (Hr _ eq_refl) as (s & Hq & HK). apply bind_Some in Hq as (c & Hc & [= -> _]).
  intros K HK'. exact (HK K HK' _ Hc).
Qed.

Lemma fs_read_passes path path' e r e' : plain e → fs_read path' e = (r, e') → passes path e e'.
Proof.
  intros Hp H. apply (fs_op_passes _ path _ _ _ Hp H).
  intros s a s' Hq. by apply bind_Some in Hq as (c & _ & [= _ <-]).
Qed.

Lemma fs_check_passes path e r e' : plain e → fs_check e = (r, e') → passes path e e'.
Proof. intros Hp H. apply (fs_op_passes _ path _ _ _ Hp H). by intros s a s' [= _ <-]. Qed.

Lemma write_buffers_passes path path' l : path ≠ path' → ∀ offset good e r e', plain e →
  write_buffers path offset good l e = (r, e') → passes path' e e'.
Proof.
  intros Hne. induction l as [|data l IH]; intros offset good e r e' Hp.
  - cbn. intros [= _ <-]. intros K HK. exact HK.
  - cbn [write_buffers]. unfold mbind at 1, M_bind at 1. destruct good.
    + destruct (write_at path offset data e) as [ro e1] eqn:Ew.
      destruct (fs_op_run _ _ _ _ Hp Ew) as (Hp1 & _ & _ & s & _ & Ho).
      assert (passes path' e e1) as H1.
      { apply (fs_op_passes _ path' _ _ _ Hp Ew). intros s1 a s2 [= _ <-].
        by rewrite lookup_alter_ne. }
      destruct ro as [o|x]; [|by destruct Ho as [[[=] _]|(? & [=] & _)]].
      intros H. eapply passes_trans; [exact H1|by eapply IH].
    + intros H. cbn in H. by eapply IH.
Qed.

(** ** The loop *)

Lemma fail_assembly_Ok {A} path e0 e (a : A) e' : fail_assembly path e0 e ≠ (Ret (Ok a), e').
Proof. unfold fail_assembly, mbind, M_bind. by destruct (fs_remove path e) as [[?|?] ?]. Qed.

Lemma assemble_loop_Ok path resolved : ∀ offset good content e content' good' e',
  plain e → spares path (schedule e) → holds_prefix path good offset content (db e) →
  assemble_loop HashMd5 buffer_size path offset good content resolved e =
    (Ret (Ok (content', good')), e') →
  plain e' ∧ spares path (schedule e') ∧
  (good' = true → db e' !! path = Some content') ∧
  ∃ datas, content' = content +:+ concat_strings datas ∧
    Forall2 (λ cp data, chunk_matches HashMd5 cp.1 data = true ∧
      (cp.2 ≠ path → had e cp.2 data)) resolved datas.
Proof.
  induction resolved as [|[chunk chunk_path] resolved IH];
    intros offset good content e content' good' e' Hp Hs Hh H; cbn [assemble_loop] in H.
  - injection H as <- <- <-. split_and!; [done..|by intros [? _]%Hh|].
    exists []. by rewrite string_app_nil.
  - unfold mbind at 1, M_bind at 1 in H.
    destruct (fs_read chunk_path e) as [ro e1] eqn:Er.
    destruct (fs_read_run _ path _ _ _ Hp Hs Er) as (Hp1 & Hs1 & Hsame & [data|] & ->);
      [|by apply fail_assembly_Ok in H].
    unfold mbind at 1, M_bind at 1 in H.
    destruct (write_buffers path offset good _ e1) as [rw e2] eqn:Ew.
    assert (holds_prefix path good offset content (db e1)) as Hh1
      by (unfold holds_prefix; by rewrite Hsame).
    destruct (write_buffers_run _ _ _ _ _ _ _ _ Hp1 Hs1 Hh1 Ew)
      as (Hp2 & Hs2 & off' & gd' & -> & Hh2 & _).
    rewrite read_buffers_concat in Hh2. unfold mbind at 1, M_bind at 1 in H.
    destruct (fs_check e2) as [rc e3] eqn:Ec.
    destruct (fs_check_run path _ _ _ Hp2 Hs2 Ec) as (Hp3 & Hs3 & Hsame3 & [u|] & ->);
      [|by apply fail_assembly_Ok in H].
    destruct (chunk_matches HashMd5 chunk data) eqn:Hm; cbn in H; [|by apply fail_assembly_Ok in H].
    assert (holds_prefix path gd' off' (content +:+ data) (db e3)) as Hh3
      by (unfold holds_prefix; by rewrite Hsame3).
    destruct (IH _ _ _ _ _ _ _ Hp3 Hs3 Hh3 H) as (? & ? & ? & datas & -> & Hall).
    split_and!; [done..|]. exists (data :: datas). split; [cbn; by rewrite string_app_assoc|].
    constructor.
    + split; [done|]. intros _. by eapply fs_read_had.
    + eapply Forall2_impl; [exact Hall|]. intros cp data' [? Hhad]. split; [done|]. intros Hne.
      assert (path ≠ cp.2) as Hne' by congruence. eapply had_passes; [|by apply Hhad].
      eapply passes_trans; [exact (fs_read_passes cp.2 _ _ _ _ Hp Er)|].
      eapply passes_trans; [exact (write_buffers_passes _ _ _ Hne' _ _ _ _ _ Hp1 Ew)|].
      exact (fs_check_passes cp.2 _ _ _ Hp2 Ec).
Qed.

Lemma fs_op_plain {A} (q : FileSystem → option (A * FileSystem)) path e r e' :
  plain e → spares path (schedule e) → fs_op q e = (r, e') → plain e' ∧ spares path (schedule e').
Proof.
  intros Hp Hs H. destruct (fs_op_run q e r e' Hp H) as (? & Hsuf & _).
  split; [done|by eapply spares_suffix].
Qed.

Lemma assemble_file_Ok path resolved e a e' : plain e → spares path (schedule e) →
  assemble_file HashMd5 HashSha256 temp buffer_size path resolved e = (Ret (Ok a), e') →
  ∃ datas, Forall2 (λ cp data, chunk_matches HashMd5 cp.1 data = true ∧
      (cp.2 ≠ path → had e cp.2 data)) resolved datas ∧
    a = mkUploadStagingAssembly StagingLocal path (u64 (strlen (concat_strings datas)))
          (HashMd5 (concat_strings datas)) (HashSha256 (concat_strings datas)) ∧
    db e' !! path = Some (concat_strings datas).
Proof.
  intros Hp Hs H. unfold assemble_file in H.
  apply or_fail_Ok in H as (u & e1 & H1 & H). destruct (fs_op_plain _ _ _ _ _ Hp Hs H1) as [Hp1 Hs1].
  apply or_fail_Ok in H as (u2 & e2 & H2 & H). destruct (fs_op_plain _ _ _ _ _ Hp1 Hs1 H2) as [Hp2 Hs2].
  assert (holds_prefix path true 0 "" (db e2)) as Hh2.
  { intros _. split; [|done]. destruct (fs_op_run _ _ _ _ Hp1 H2) as (_ & _ & _ & s & _ & Ho).
    destruct Ho as [[[=] _]|(a0 & _ & [= _ <-])]. apply lookup_insert_eq. }
  unfold bind_result, mbind at 1, M_bind at 1 in H.
  destruct (assemble_loop _ _ _ _ _ _ _ e2) as [[[[content good]|er]|x] e3] eqn:El; [|done..].
  destruct (assemble_loop_Ok _ _ _ _ _ _ _ _ _ Hp2 Hs2 Hh2 El) as (Hp3 & Hs3 & Hfile & datas & -> & Hall).
  unfold mbind at 1, M_bind at 1 in H. destruct (fs_check e3) as [rc e4] eqn:Ec.
  destruct (fs_check_run path _ _ _ Hp3 Hs3 Ec) as (_ & _ & Hsame & closed & ->).
  destruct (negb good || _) eqn:Hg; [by apply fail_assembly_Ok in H|].
  injection H as <- <-. apply orb_false_iff in Hg as [Hg _]. apply negb_false_iff in Hg.
  exists datas. split_and!; [|done|rewrite Hsame; by apply Hfile].
  eapply Forall2_impl; [exact Hall|]. intros cp data [? Hhad]. split; [done|]. intros Hne.
  eapply had_passes; [|by apply Hhad]. eapply passes_trans.
  - apply (fs_op_passes _ cp.2 _ _ _ Hp H1). by intros s a0 s' [= _ <-].
  - apply (fs_op_passes _ cp.2 _ _ _ Hp1 H2). intros s a0 s' [= _ <-].
    by rewrite lookup_insert_ne.
Qed.

Lemma resolve_chunks_Ok id chunks : ∀ position resolved,
  resolve_chunks temp id position chunks = Ok resolved →
  fst <$> resolved = chunks ∧
  sc_chunk_index <$> chunks = seqZ position (Z.of_nat (length chunks)) ∧
  Forall (λ cp, ResolveChunkFilePath temp id cp.1 = Ok cp.2) resolved.
Proof.
  induction chunks as [|chunk chunks IH]; intros position resolved; cbn [resolve_chunks].
  - intros [= <-]. by repeat split.
  - destruct (Z.eqb_spec (sc_chunk_index chunk) position) as [<-|]; [|done]. cbn [negb].
    destruct (ResolveChunkFilePath _ _ _) eqn:Er; [|done].
    destruct (resolve_chunks _ _ _ chunks) as [rest|] eqn:E; [|done]. intros [= <-].
    apply IH in E as (<- & E & Hall). split_and!; [done| |by constructor].
    rewrite seqZ_cons by (simpl; lia).
    rewrite fmap_cons, E. do 2 f_equal; cbn [length]; lia.
Qed.

(** Chunks lie in a directory of the upload, the file under assembly beside it. *)
Lemma chunk_path_apart id chunk path :
  ResolveChunkFilePath temp id chunk = Ok path → path ≠ GetAssembleFilePath temp id.
Proof.
  assert (∀ rest, temp +:+ "/" +:+ id +:+ "/" +:+ rest ≠ GetAssembleFilePath temp id) as Hne.
  { intros rest E. unfold GetAssembleFilePath, path_join in E.
    apply string_app_cancel, string_app_cancel, string_app_cancel in E. done. }
  unfold ResolveChunkFilePath, GetTempDirPath, GetChunkObjectKey, path_join.
  repeat case_match; try done; intros [= <-]; rewrite ?string_app_assoc; apply Hne.
Qed.

(** A chunk with full metadata determines its data, up to a collision of the digest. *)
Lemma chunk_matches_data chunk data given : chunk_matches HashMd5 chunk data = true →
  sc_md5_hash chunk = HashMd5 given → sc_size_bytes chunk = strlen given →
  HashMd5 given ≠ "" %string → 0 < strlen given →
  (∀ x, HashMd5 x = HashMd5 given → strlen x = strlen given → x = given) → data = given.
Proof.
  intros [Hs Hh]%andb_true_iff Eh Es Hne Hpos Hcol. rewrite Eh in Hh. rewrite Es in Hs. apply Hcol.
  - apply orb_true_iff in Hh as [Hh|Hh]; [by destruct (HashMd5 given)|]. by case_bools.
  - apply orb_true_iff in Hs as [Hs|Hs]; case_bools; [lia|done].
Qed.

(** C9: an assembled upload is its chunks, one after the other.  Whatever fails, and
    whatever other processes do to the tree as long as they leave the file under assembly
    alone: when an assembly is answered with success, that file holds the concatenation of
    what was read from the objects of the chunks, at the paths their descriptors name, in the
    order of their indices 0, 1, ...; each of these texts is a content its object had while the
    assembly ran, and the one it had at first if nobody touched it.  The size of the file and
    both digests are the ones reported, and every chunk agreed with the size and hash of its
    descriptor.  If the descriptors carry the sizes and hashes of data a client sent, and
    the digest has no collision with that data, the file is that data. *)
Theorem assembly_is_the_concatenation limiter session v n chunks e a e' :
  let id := ss_upload_id session in
  let path := GetAssembleFilePath temp id in
  tx e = AutoCommit → spares path (schedule e) →
  AssembleChunks HashMd5 HashSha256 temp buffer_size limiter session v n chunks e =
    (Ret (Ok a), e') →
  sc_chunk_index <$> chunks = seqZ 0 n ∧ ∃ datas,
    Forall2 (λ chunk data, chunk_matches HashMd5 chunk data = true ∧
      ∃ chunk_path, ResolveChunkFilePath temp id chunk = Ok chunk_path ∧ had e chunk_path data ∧
        ∀ c, spares chunk_path (schedule e) → db e !! chunk_path = Some c → data = c) chunks datas ∧
    let file := concat_strings datas in
    a = mkUploadStagingAssembly StagingLocal path (u64 (strlen file)) (HashMd5 file)
          (HashSha256 file) ∧
    db e' !! path = Some file ∧
    ∀ sent, Forall2 (λ chunk data, sc_md5_hash chunk = HashMd5 data ∧
        sc_size_bytes chunk = strlen data ∧ HashMd5 data ≠ ""%string ∧ 0 < strlen data ∧
        ∀ x, HashMd5 x = HashMd5 data → strlen x = strlen data → x = data) chunks sent →
      file = concat_strings sent.
Proof.
  intros id path Ht Hs H. unfold AssembleChunks in H. destruct (ValidateLocalSession session); [|done].
  destruct (Z.eqb_spec (Z.of_nat (length chunks)) n) as [<-|]; [|done]. cbn [negb] in H.
  destruct (resolve_chunks _ _ _ chunks) as [resolved|] eqn:Er; [|done].
  destruct (TryAcquire limiter); [|done].
  apply resolve_chunks_Ok in Er as (<- & Hidx & Hpaths).
  destruct (assemble_file_Ok _ _ _ _ _ Ht Hs H) as (datas & Hall & -> & Hfile).
  split; [done|]. exists datas. split; [|split; [done|]; split; [done|]].
  - apply Forall2_fmap_l. clear -Hall Hpaths. induction Hall as [|cp data l datas [Hm Hhad] _ IH]; [done|].
    inversion_clear Hpaths as [|? ? Hp Hrest]. constructor; [|by apply IH]. split; [done|].
    specialize (Hhad (chunk_path_apart _ _ _ Hp)). exists cp.2. split_and!; [done|done|].
    intros c Hsp Hc. by eapply had_spared.
  - intros sent Hsent%Forall2_fmap_l. f_equal. clear -Hall Hsent. revert sent Hsent.
    induction Hall as [|cp data l datas [Hm _] _ IH]; intros sent Hsent; inversion Hsent; subst; [done|].
    f_equal; [|by apply IH]. naive_solver eauto using chunk_matches_data.
Qed.
End assembling.

(** ** Promoting *)

(** An operation that only looks. *)
Lemma fs_look {A} (q : FileSystem → option (A * FileSystem)) e r e' :
  plain e → (∀ s a s', q s = Some (a, s') → s' = s) → fs_op q e = (r, e') →
  plain e' ∧ (∀ p, spares p (schedule e) → spares p (schedule e') ∧ db e' !! p = db e !! p) ∧
  (r = Ret None ∨ ∃ a, r = Ret (Some a) ∧ q (db e') = Some (a, db e')).
Proof.
  intros Hp Hq H. destruct (fs_op_run _ _ _ _ Hp H) as (? & Hsuf & _ & s & Hsame & Ho).
  assert (db e' = s) as Hs.
  { destruct Ho as [[_ [->|[a E]]]|(a & _ & E)]; [done|by apply Hq in E..]. }
  split_and!; [done| |].
  - intros p Hsp. split; [by eapply spares_suffix|]. rewrite Hs. by apply Hsame.
  - destruct Ho as [[-> _]|(a & -> & E)]; [by left|right]. exists a. by rewrite Hs in *.
Qed.

Ltac only_looks :=
  let H := fresh in intros ? ? ? H; simpl in H;
  repeat (apply bind_Some in H as (? & _ & H)); by simplify_eq/=.

Section promoting.
Context (HashSha256 : string → string) (base : string).

(** What an operation leaves of two paths: the state of both, and what the others spare. *)
Definition kept_pair (p q : string) (e e' : Env FileSystem) : Prop :=
  plain e' ∧ (spares p (schedule e) → spares q (schedule e) →
    spares p (schedule e') ∧ spares q (schedule e') ∧
    db e' !! p = db e !! p ∧ db e' !! q = db e !! q).

Lemma kept_pair_trans p q e1 e2 e3 : kept_pair p q e1 e2 → kept_pair p q e2 e3 → kept_pair p q e1 e3.
Proof.
  intros [_ H1] [Hp3 H2]. split; [done|]. intros Hp Hq. destruct (H1 Hp Hq) as (? & ? & <- & <-). eauto.
Qed.

Lemma kept_pair_refl p q e : plain e → kept_pair p q e e.
Proof. done. Qed.

Lemma look_kept {A} (q : FileSystem → option (A * FileSystem)) p1 p2 e r e' :
  plain e → (∀ s a s', q s = Some (a, s') → s' = s) → fs_op q e = (r, e') →
  kept_pair p1 p2 e e' ∧
  (r = Ret None ∨ ∃ a, r = Ret (Some a) ∧ q (db e') = Some (a, db e')).
Proof.
  intros Hp Hq H. destruct (fs_look q e r e' Hp Hq H) as (? & Hk & Ho). split; [|done].
  split; [done|]. intros H1 H2. destruct (Hk p1 H1), (Hk p2 H2). done.
Qed.

Lemma look_file_size path p1 p2 e r e' : plain e → fs_file_size path e = (r, e') →
  kept_pair p1 p2 e e' ∧
  (r = Ret None ∨ ∃ c, db e' !! path = Some c ∧ r = Ret (Some (strlen c))).
Proof.
  intros Hp H. eapply look_kept in H as [Hk Ho]; [|done|only_looks]. split; [exact Hk|].
  destruct Ho as [->|(a & -> & Hq)]; [by left|right].
  apply bind_Some in Hq as (c & Hc & [= <-]). by exists c.
Qed.

Lemma look_read path p1 p2 e r e' : plain e → fs_read path e = (r, e') →
  kept_pair p1 p2 e e' ∧ (r = Ret None ∨ ∃ c, db e' !! path = Some c ∧ r = Ret (Some c)).
Proof.
  intros Hp H. eapply look_kept in H as [Hk Ho]; [|done|only_looks]. split; [exact Hk|].
  destruct Ho as [->|(a & -> & Hq)]; [by left|right].
  apply bind_Some in Hq as (c & Hc & [= <-]). by exists c.
Qed.

Lemma look_exists path p1 p2 e r e' : plain e → fs_exists path e = (r, e') →
  kept_pair p1 p2 e e' ∧ (r = Ret None ∨ r = Ret (Some (path_exists path (db e')))).
Proof.
  intros Hp H. eapply look_kept in H as [Hk Ho]; [|done|only_looks]. split; [exact Hk|].
  destruct Ho as [->|(a & -> & [= <-])]; [by left|by right].
Qed.

Lemma look_directories path p1 p2 e r e' : plain e → create_directories path e = (r, e') →
  kept_pair p1 p2 e e' ∧ (r = Ret None ∨ r = Ret (Some tt)).
Proof.
  intros Hp H. eapply look_kept in H as [Hk Ho]; [|done|only_looks]. split; [exact Hk|].
  destruct Ho as [->|([] & -> & _)]; [by left|by right].
Qed.

(** Verifying the blob at a path. *)
Lemma existing_blob_run path p size h e r e' : plain e →
  existing_blob HashSha256 path size h e = (r, e') →
  kept_pair path p e e' ∧ ∃ o, r = Ret o ∧ ∀ b, o = Ok b → b = mkBlobPromoteResult path false ∧
    (spares path (schedule e) → spares p (schedule e) → ∃ c, db e !! path = Some c ∧
       strlen c = size ∧ HashSha256 c = h).
Proof.
  intros Hp. unfold existing_blob, VerifyExistingLocalBlob, bind_result, or_fail, mbind, M_bind, mret, M_ret.
  destruct (fs_file_size path e) as [r1 e1] eqn:E1.
  destruct (look_file_size _ path p _ _ _ Hp E1) as [Hk1 [->|(c1 & Hc1 & ->)]].
  { intros [= <- <-]. split; [done|]. by eexists. }
  destruct (Z.eqb_spec (strlen c1) size) as [<-|]; cbn [negb];
    [|intros [= <- <-]; split; [done|]; by eexists].
  destruct (fs_read path e1) as [r2 e2] eqn:E2.
  destruct (look_read _ path p _ _ _ (proj1 Hk1) E2) as [Hk2 [->|(c & Hc & ->)]].
  { intros [= <- <-]. split; [by eapply kept_pair_trans|]. by eexists. }
  pose proof (kept_pair_trans _ _ _ _ _ Hk1 Hk2) as Hk.
  destruct (String.eqb_spec (HashSha256 c) h) as [<-|]; intros [= <- <-]; (split; [done|]); [|by eexists].
  eexists. split; [done|]. intros b [= <-]. split; [done|]. intros Hs1 Hs2.
  destruct Hk1 as [_ Hk1], Hk2 as [_ Hk2]. destruct (Hk1 Hs1 Hs2) as (Hs1' & Hs2' & Eq1 & _).
  destruct (Hk2 Hs1' Hs2') as (_ & _ & Eq2 & _).
  exists c. rewrite <- Eq1, <- Eq2. split_and!; [done| |done]. congruence.
Qed.

(** A copy never changes a target that is there. *)
Lemma copy_file_run from to e r e' : plain e → from ≠ to →
  spares from (schedule e) → spares to (schedule e) → copy_file from to e = (r, e') →
  plain e' ∧ spares from (schedule e') ∧ spares to (schedule e') ∧
  db e' !! from = db e !! from ∧ (∀ c, db e !! to = Some c → db e' !! to = Some c) ∧
  ∃ o, r = Ret o ∧
    (o = Some true → db e !! to = None ∧ ∃ c, db e !! from = Some c ∧ db e' !! to = Some c).
Proof.
  intros Hp Hne Hf Ht. unfold copy_file, mbind at 1, M_bind at 1.
  set (q := λ s : FileSystem, if path_exists to s then Some (false, s)
                  else _ ← s !! from; Some (true, <[to := ""%string]> s)).
  change (fs_op _ e) with (fs_op q e). destruct (fs_op q e) as [r1 e1] eqn:E1.
  destruct (fs_op_run _ _ _ _ Hp E1) as (Hp1 & Hsuf1 & _ & s & Hsame & Ho).
  pose proof (spares_suffix _ _ _ Hsuf1 Hf) as Hf1. pose proof (spares_suffix _ _ _ Hsuf1 Ht) as Ht1.
  assert (∀ b s', q s = Some (b, s') → s' !! from = db e !! from ∧
    (∀ c, db e !! to = Some c → s' !! to = Some c) ∧
    (b = true → db e !! to = None ∧ is_Some (db e !! from) ∧ s' !! to = Some ""%string)) as Hq.
  { intros b s' E. unfold q in E. rewrite <- (Hsame from Hf), <- (Hsame to Ht).
    destruct (path_exists to s) eqn:Ex; [by simplify_eq|].
    apply bind_Some in E as (c & Hc & [= <- <-]). unfold path_exists in Ex.
    apply orb_false_iff in Ex as [Ex _]. apply bool_decide_eq_false_1 in Ex.
    assert (s !! to = None) as Hnone by (destruct (s !! to); [by destruct Ex|done]).
    rewrite lookup_insert_ne, lookup_insert_eq by done. rewrite Hnone, Hc. by split_and!. }
  assert (db e1 !! from = db e !! from ∧ (∀ c, db e !! to = Some c → db e1 !! to = Some c)) as [Ff1 Ft1].
  { destruct Ho as [[_ [->|[a E]]]|(a & _ & E)]; [|by apply Hq in E as (? & ? & _)..].
    rewrite (Hsame from Hf). split; [done|]. intros c. by rewrite (Hsame to Ht). }
  assert ((r1 = Ret None ∨ r1 = Ret (Some false)) ∨
    (r1 = Ret (Some true) ∧ db e !! to = None ∧ is_Some (db e !! from) ∧
      db e1 !! to = Some ""%string)) as [Hr|(-> & Hto & Hfrom & Hto1)].
  { destruct Ho as [[-> _]|([] & -> & E)]; [by left; left| |by left; right].
    right. apply Hq in E as (_ & _ & E). by destruct (E eq_refl). }
  { destruct Hr as [->| ->]; intros [= <- <-]; (split_and!; [done..|]); by eexists. }
  intros E2. destruct (fs_op_run _ _ _ _ Hp1 E2) as (Hp2 & Hsuf2 & _ & s2 & Hsame2 & Ho2).
  assert (∀ a s', Some (true, match s2 !! from with Some c => alter (λ _, c) to s2 | None => s2 end)
    = Some (a, s') → s' !! from = s2 !! from) as Hfrom2.
  { intros a s' [= _ <-]. destruct (s2 !! from) eqn:E; [|done]. by rewrite lookup_alter_ne. }
  split_and!; [done|by eapply spares_suffix|by eapply spares_suffix| | |].
  - rewrite <- Ff1, <- (Hsame2 from Hf1). destruct Ho2 as [[_ [->|[a E]]]|(a & _ & E)];
      [done|by eapply Hfrom2..].
  - intros c. by rewrite Hto.
  - destruct Ho2 as [[-> _]|(a & -> & E)]; [by eexists|]. eexists. split; [done|]. intros _.
    split; [done|]. destruct Hfrom as [c Hc]. exists c. split; [done|].
    assert (s2 !! from = Some c) as Es2 by (by rewrite (Hsame2 from Hf1), Ff1).
    rewrite Es2 in E. injection E as _ <-. rewrite lookup_alter_eq.
    by rewrite (Hsame2 to Ht1), Hto1.
Qed.

(** What a promotion from [temp] to [path] does, when others leave both alone. *)
Definition published (temp path : string) (size : Z) (h : string) (e e' : Env FileSystem)
    (o : Result BlobPromoteResult) : Prop :=
  (∀ c, db e !! path = Some c → db e' !! path = Some c) ∧ db e' !! temp = db e !! temp ∧
  ∀ p, o = Ok p → pr_path p = path ∧ ∃ c, db e' !! path = Some c ∧ strlen c = size ∧
    (if pr_created p then db e !! path = None ∧ db e !! temp = Some c else HashSha256 c = h).

Lemma existing_published temp path size h e r e' : plain e →
  spares temp (schedule e) → spares path (schedule e) →
  existing_blob HashSha256 path size h e = (r, e') →
  ∃ o, r = Ret o ∧ published temp path size h e e' o.
Proof.
  intros Hp Ht Hf H. destruct (existing_blob_run path temp _ _ _ _ _ Hp H) as [[_ Hk] (o & -> & Ho)].
  destruct (Hk Hf Ht) as (_ & _ & Ef & Et). exists o. split; [done|]. split_and!; [by rewrite Ef|done|].
  intros p Hop. destruct (Ho p Hop) as [-> Hc]. destruct (Hc Hf Ht) as (c & Hc' & Hl & Hh).
  split; [done|]. exists c. by rewrite Ef.
Qed.

(** Looking first changes nothing. *)
Lemma published_after temp path size h e e1 e' o :
  db e1 !! path = db e !! path → db e1 !! temp = db e !! temp →
  published temp path size h e1 e' o → published temp path size h e e' o.
Proof. unfold published. by intros -> ->. Qed.

Lemma published_error temp path size h e e' er :
  db e' !! path = db e !! path → db e' !! temp = db e !! temp →
  published temp path size h e e' (Err er).
Proof. unfold published. by intros -> ->. Qed.

Lemma promote_file_run temp path size h e r e' : plain e → temp ≠ path →
  spares temp (schedule e) → spares path (schedule e) →
  promote_file HashSha256 base temp path size h e = (r, e') →
  ∃ o, r = Ret o ∧ published temp path size h e e' o.
Proof.
  intros Hp Hne Ht Hf. unfold promote_file, or_fail at 1, mbind at 1, M_bind at 1.
  destruct (create_directories _ e) as [r1 e1] eqn:E1.
  destruct (look_directories _ path temp _ _ _ Hp E1) as [[Hp1 Hk1] Hr1].
  destruct (Hk1 Hf Ht) as (Hf1 & Ht1 & Ef1 & Et1).
  destruct Hr1 as [->| ->]; [intros [= <- <-]; eexists; by split; [|apply published_error]|].
  unfold or_fail at 1, mbind at 1, M_bind at 1. destruct (fs_exists path e1) as [r2 e2] eqn:E2.
  destruct (look_exists _ path temp _ _ _ Hp1 E2) as [[Hp2 Hk2] Hr2].
  destruct (Hk2 Hf1 Ht1) as (Hf2 & Ht2 & Ef2 & Et2). rewrite Ef1 in Ef2. rewrite Et1 in Et2.
  destruct Hr2 as [->| ->]; [intros [= <- <-]; eexists; by split; [|apply published_error]|].
  destruct (path_exists path (db e2)).
  { intros H. destruct (existing_published temp _ _ _ _ _ _ Hp2 Ht2 Hf2 H) as (o & -> & Ho).
    exists o. split; [done|]. by eapply published_after. }
  unfold or_fail at 1, mbind at 1, M_bind at 1. destruct (fs_file_size temp e2) as [r3 e3] eqn:E3.
  destruct (look_file_size _ path temp _ _ _ Hp2 E3) as [[Hp3 Hk3] Hr3].
  destruct (Hk3 Hf2 Ht2) as (Hf3 & Ht3 & Ef3 & Et3). rewrite Ef2 in Ef3. rewrite Et2 in Et3.
  destruct Hr3 as [->|(c & Hc & ->)]; [intros [= <- <-]; eexists; by split; [|apply published_error]|].
  destruct (Z.eqb_spec (strlen c) size) as [<-|]; cbn [negb];
    [|intros [= <- <-]; eexists; by split; [|apply published_error]].
  unfold or_fail at 1, mbind at 1, M_bind at 1. destruct (copy_file temp path e3) as [r4 e4] eqn:E4.
  destruct (copy_file_run _ _ _ _ _ Hp3 Hne Ht3 Hf3 E4) as (Hp4 & Ht4 & Hf4 & Et4 & Hkeep & o & -> & Ho).
  rewrite Et3 in Et4. rewrite Ef3 in Hkeep, Ho. rewrite Et3 in Ho, Hc.
  destruct o as [[]|].
  - intros [= <- <-]. eexists. split; [done|]. split_and!; [done|done|]. intros p [= <-].
    split; [done|]. destruct (Ho eq_refl) as (Hnone & c' & Hc' & Hp'). exists c'.
    rewrite Hc' in Hc. injection Hc as ->. by split_and!.
  - intros H. destruct (existing_published temp _ _ _ _ _ _ Hp4 Ht4 Hf4 H) as (o & -> & Ho1).
    exists o. split; [done|]. destruct Ho1 as (H1 & H2 & H3). split_and!.
    + intros c' Hc'. by apply H1, Hkeep.
    + by rewrite H2.
    + intros p Hop. destruct (H3 p Hop) as (? & c' & ? & ? & Hcase). split; [done|].
      exists c'. split_and!; [done..|]. destruct (pr_created p); [|done].
      destruct Hcase as [Hnone Htemp]. rewrite <- Et4. split; [|done].
      destruct (db e !! path) as [c0|] eqn:E0; [|done]. by rewrite (Hkeep c0 eq_refl) in Hnone.
  - intros [= <- <-]. eexists. split; [done|]. by split_and!.
Qed.

(** C10: a promotion publishes the assembled file.  Whatever fails, as long as other
    processes leave the assembled file and the final path alone: a promotion never changes
    a blob that is already there, and answers; when it answers with success, the path it
    reports is the one of that content address and holds a file of the announced size that
    is the assembled file if it was created, and has the announced SHA-256 if it was there.
    So when the assembled file has the digest that was reported for it, the blob has it. *)
Theorem promotion_publishes_the_assembly assembly h e r e' :
  let path := final_path base h in let temp := sa_locator assembly in
  tx e = AutoCommit → temp ≠ path → spares temp (schedule e) → spares path (schedule e) →
  PromoteToFinal HashSha256 base assembly h e = (r, e') →
  (∀ c, db e !! path = Some c → db e' !! path = Some c) ∧ db e' !! temp = db e !! temp ∧
  ∃ o, r = Ret o ∧ ∀ p, o = Ok p →
    pr_path p = path ∧ ∃ c, db e' !! path = Some c ∧ strlen c = sa_size_bytes assembly ∧
    (if pr_created p then db e !! path = None ∧ db e !! temp = Some c else HashSha256 c = h) ∧
    ((∀ c0, db e !! temp = Some c0 → HashSha256 c0 = sa_sha256_hash assembly) →
     HashSha256 c = h).
Proof.
  intros path temp Hp Hne Ht Hf. unfold PromoteToFinal.
  destruct (negb _ || _); [intros [= <- <-]; split_and!; [done..|eexists; by split; [|intros p [=]]]|].
  destruct (negb (IsSha256Hash h) || _) eqn:Hh;
    [intros [= <- <-]; split_and!; [done..|eexists; by split; [|intros p [=]]]|].
  apply orb_false_iff in Hh as [_ Hh]. case_bools.
  intros H. destruct (promote_file_run _ _ _ _ _ _ _ Hp Hne Ht Hf H) as (o & -> & H1 & H2 & H3).
  split_and!; [done|done|]. exists o. split; [done|]. intros p Hop.
  destruct (H3 p Hop) as (? & c & ? & ? & Hcase). split; [done|]. exists c.
  split; [done|]. split; [done|]. split; [exact Hcase|].
  intros Hsha. destruct (pr_created p); [|done]. rewrite <- Hh. apply Hsha, Hcase.
Qed.

(** ** A broken promotion *)

(** Nothing can be promoted to a path that holds a file of another size. *)
Lemma promote_poisoned assembly h content e r e' : let path := final_path base h in
  plain e → sa_locator assembly ≠ path → spares path (schedule e) →
  spares (sa_locator assembly) (schedule e) → db e !! path = Some content →
  strlen content ≠ sa_size_bytes assembly →
  PromoteToFinal HashSha256 base assembly h e = (r, e') →
  (∀ p, r ≠ Ret (Ok p)) ∧ db e' !! path = Some content.
Proof.
  intros path Hp Hne Hf Ht Hc Hsize. unfold PromoteToFinal.
  destruct (negb _ || _); [by intros [= <- <-]|]. destruct (negb (IsSha256Hash h) || _); [by intros [= <- <-]|].
  intros H. destruct (promote_file_run _ _ _ _ _ _ _ Hp Hne Ht Hf H) as (o & -> & H1 & _ & H3).
  split; [|by apply H1]. intros p [= ->]. destruct (H3 p eq_refl) as (_ & c & Hc' & Hs & _).
  specialize (H1 _ Hc). congruence.
Qed.

(** An interrupted promotion poisons its content address.  When the copy of a
    promotion fails after it has created its target, the failed request leaves an empty (or
    partial) file at the final path and does not remove it; from then on, for as long as
    nobody removes it by hand, every promotion of that content fails: the blob is there, it
    does not have the announced size, and the store never writes over a blob.  No later
    upload of the content can complete. *)
Lemma interrupted_promotion_poisons_address assembly h e : let path := final_path base h in
  tx e = AutoCommit → 0 < sa_size_bytes assembly →
  schedule e = [alone Works; alone Works; alone Works; alone Works; alone Fails] →
  IsSha256Hash h = true → sa_sha256_hash assembly = h → sa_backend assembly = StagingLocal →
  sa_locator assembly ≠ ""%string → sa_locator assembly ≠ path → path_exists path (db e) = false →
  (∃ c, db e !! sa_locator assembly = Some c ∧ strlen c = sa_size_bytes assembly) →
  ∃ e1, PromoteToFinal HashSha256 base assembly h e = (Ret (Err (internal_error
      "Failed to copy file to final storage path")), e1) ∧
    db e1 !! path = Some ""%string ∧
    ∀ assembly' e2 r e3, tx e2 = AutoCommit → sa_locator assembly' ≠ path →
      0 < sa_size_bytes assembly' → db e2 !! path = Some ""%string →
      spares path (schedule e2) → spares (sa_locator assembly') (schedule e2) →
      PromoteToFinal HashSha256 base assembly' h e2 = (r, e3) →
      (∀ p, r ≠ Ret (Ok p)) ∧ db e3 !! path = Some ""%string.
Proof.
  intros path Hp Hsize Hsch Hh Hsha Hback Hloc Hne Hex (c & Hc & Hlen).
  destruct e as [s sch t cs]. cbn in *. subst sch t.
  eexists. split; [|split].
  - unfold PromoteToFinal. rewrite Hback, Hsha, Hh, String.eqb_refl.
    rewrite bool_decide_eq_true_2 by done.
    assert (str_empty (sa_locator assembly) = false) as -> by (by destruct (sa_locator assembly)).
    cbn [negb orb].
    unfold promote_file, create_directories, fs_exists, fs_file_size, copy_file, or_fail, fs_op,
      catch_all, catch, mbind, M_bind, mret, M_ret, exec, next_step. cbn.
    fold path. rewrite Hex. cbn. rewrite Hc. cbn. rewrite Hlen, Z.eqb_refl. cbn. rewrite Hex, Hc. cbn.
    reflexivity.
  - cbn. apply lookup_insert_eq.
  - intros assembly' e2 r e3 Hp2 Hne2 Hsize2 Hpoison Hf2 Ht2. apply promote_poisoned; try done.
    unfold strlen. simpl. lia.
Qed.
End promoting.

(** ** Examples *)

(** Digests for the examples: the text itself, padded. *)
Definition zeros (n : nat) : string := String.string_of_list_ascii (repeat "0"%char n).
Definition example_md5 (s : string) : string := s +:+ zeros 30.
Definition example_sha256 (s : string) : string := s +:+ zeros 60.

Lemma app_cancel a b z : a +:+ z = b +:+ z → strlen a = strlen b → a = b.
Proof.
  intros E H. rewrite <- (substring_app_left a z), <- (substring_app_left b z), E.
  f_equal. unfold strlen in H. lia.
Qed.

Definition example_session : UploadStagingSession := mkUploadStagingSession "u1" StagingLocal "u1/".

Definition example_chunk (i : Z) (data : string) : UploadStagingChunk :=
  mkUploadStagingChunk i (strlen data) (example_md5 data)
    (GetChunkObjectKey "u1" i (example_md5 data)) "".

Definition example_tree : FileSystem :=
  <[path_join "tmp" (GetChunkObjectKey "u1" 0 (example_md5 "ab")) := "ab"%string]>
  {[path_join "tmp" (GetChunkObjectKey "u1" 1 (example_md5 "cd")) := "cd"%string]}.

Definition example_assembly : UploadStagingAssembly :=
  mkUploadStagingAssembly StagingLocal "tmp/u1.tmp" 4 (example_md5 "abcd") (example_sha256 "abcd").

Lemma example_spares path : path ≠ "other"%string →
  spares path [mkStep (λ s : FileSystem, <["other" := "x"]> s)%string Works].
Proof. intros H. apply Forall_singleton. intros s. apply lookup_insert_ne. congruence. Qed.

Definition example_env : Env FileSystem :=
  mkEnv example_tree [mkStep (λ s : FileSystem, <["other" := "x"]> s)%string Works] AutoCommit [].

Definition example_chunks : list UploadStagingChunk := [example_chunk 0 "ab"; example_chunk 1 "cd"].

Definition example_run : outcome (Result UploadStagingAssembly) * Env FileSystem :=
  AssembleChunks example_md5 example_sha256 "tmp" 1 (new_limiter 0) example_session 1 2
    example_chunks example_env.

Lemma assembly_is_the_concatenation_witness :
  fst example_run = Ret (Ok example_assembly) ∧ ∃ file : string,
    db (snd example_run) !! "tmp/u1.tmp"%string = Some file ∧ file = "abcd"%string.
Proof.
  split; [vm_compute; reflexivity|].
  destruct (assembly_is_the_concatenation example_md5 example_sha256 "tmp" 1 eq_refl (new_limiter 0)
    example_session 1 2 example_chunks example_env example_assembly (snd example_run))
    as (_ & datas & _ & _ & Hfile & Hsent).
  - reflexivity.
  - apply example_spares. discriminate.
  - vm_compute. reflexivity.
  - exists (concat_strings datas). split; [exact Hfile|].
    apply (Hsent ["ab"; "cd"]%string).
    do 2 (apply Forall2_cons; split;
      [split_and!; [reflexivity|reflexivity|discriminate|reflexivity|
        intros x E L; exact (app_cancel x _ _ E L)]|]).
    apply Forall2_nil. exact I.
Defined.

Definition example_hash : string := example_sha256 "abcd".

Definition example_promotion (sch : list (Step FileSystem)) (s : FileSystem)
  : outcome (Result BlobPromoteResult) * Env FileSystem :=
  PromoteToFinal example_sha256 "store" example_assembly example_hash (mkEnv s sch AutoCommit []).

Definition assembled_tree : FileSystem := {["tmp/u1.tmp" := "abcd"]}%string.

Lemma promotion_publishes_the_assembly_witness :
  ∃ p, fst (example_promotion [] assembled_tree) = Ret (Ok p) ∧ pr_created p = true ∧
  ∃ c, db (snd (example_promotion [] assembled_tree)) !! final_path "store" example_hash = Some c ∧
    strlen c = 4.
Proof.
  assert (fst (example_promotion [] assembled_tree) =
    Ret (Ok (mkBlobPromoteResult (final_path "store" example_hash) true))) as E
    by (vm_compute; reflexivity).
  eexists. split; [exact E|]. split; [reflexivity|].
  destruct (promotion_publishes_the_assembly example_sha256 "store" example_assembly example_hash
    (mkEnv assembled_tree [] AutoCommit []) (fst (example_promotion [] assembled_tree))
    (snd (example_promotion [] assembled_tree))) as (_ & _ & o & Ho & Hp).
  - reflexivity.
  - discriminate.
  - constructor.
  - constructor.
  - exact (surjective_pairing (example_promotion [] assembled_tree)).
  - rewrite E in Ho. injection Ho as Ho. destruct (Hp _ (eq_sym Ho)) as (_ & c & Hc & Hs & _).
    exists c. split; [exact Hc|exact Hs].
Defined.

Lemma interrupted_promotion_poisons_address_witness :
  let failing := [alone Works; alone Works; alone Works; alone Works; alone Fails] in
  fst (example_promotion failing assembled_tree) =
    Ret (Err (internal_error "Failed to copy file to final storage path")) ∧
  ∀ p, fst (example_promotion [] (db (snd (example_promotion failing assembled_tree)))) ≠ Ret (Ok p).
Proof.
  set (failing := [alone Works; alone Works; alone Works; alone Works; alone Fails]). cbv zeta.
  destruct (interrupted_promotion_poisons_address example_sha256 "store" example_assembly example_hash
    (mkEnv assembled_tree failing AutoCommit [])) as (e1 & H1 & H2 & H3);
    [reflexivity|reflexivity|reflexivity|vm_compute; reflexivity|reflexivity|reflexivity|
     discriminate|discriminate|vm_compute; reflexivity| |].
  - exists "abcd"%string. split; reflexivity.
  - change (example_promotion failing assembled_tree = (Ret (Err (internal_error
      "Failed to copy file to final storage path")), e1)) in H1. rewrite H1. cbn [fst snd].
    split; [reflexivity|].
    destruct (H3 example_assembly (mkEnv (db e1) [] AutoCommit []) _ _ eq_refl
      ltac:(discriminate) eq_refl H2 ltac:(constructor) ltac:(constructor)
      (surjective_pairing (example_promotion [] (db e1)))) as [H4 _]. exact H4.
Defined.
