(* ===== verification/LocalRoundTrip.v ===== *)
(** * A file through the local stores

    When nothing fails, a file that is uploaded chunk by chunk to the local stores, assembled
    and promoted is read back byte for byte. *)

From Stdlib Require Import Ascii.
From S2P Require Import Prelude Errors Storage Db Names Numerals FileSystem StorageInventory.
From S2P Require Import LocalFileStorage LocalBlobStore LocalPipeline.

(** ** Strings as lists of characters *)

Notation chars := String.list_ascii_of_string.

Lemma chars_app a b : chars (a +:+ b) = (chars a ++ chars b)%list.
Proof. induction a as [|c a IH]; [done|]. exact (f_equal (cons c) IH). Qed.

Lemma chars_inj a b : chars a = chars b → a = b.
Proof.
  intros H. rewrite <- (String.string_of_list_ascii_of_string a), H.
  apply String.string_of_list_ascii_of_string.
Qed.

Ltac solve_string :=
  apply chars_inj; rewrite !chars_app; rewrite <- ?app_assoc; simpl; rewrite <- ?app_assoc; reflexivity.

(** The text before the first occurrence of a character. *)
Lemma split_at (c : ascii) a b x y : c ∉ a → c ∉ b → (a ++ c :: x = b ++ c :: y)%list → a = b ∧ x = y.
Proof.
  revert b. induction a as [|d a IH]; intros [|d' b] Ha Hb H; simplify_eq/=; [done|set_solver..|].
  destruct (IH b) as [-> ->]; set_solver.
Qed.

Lemma prefix_app a b : String.prefix a (a +:+ b) = true.
Proof. induction a as [|c a IH]; [by destruct b|]. simpl. by destruct (ascii_dec c c). Qed.

Lemma prefix_split a b : String.prefix a b = true → ∃ c, b = a +:+ c.
Proof.
  revert b. induction a as [|x a IH]; intros [|y b] H; simpl in H; [by eexists..|done|].
  destruct (ascii_dec x y) as [->|]; [|done]. destruct (IH _ H) as [c ->]. by exists c.
Qed.

(** ** The paths of a session *)

Definition no_slash (s : string) : Prop := "/"%char ∉ chars s.

Definition chunk_name (i : Z) (md5 : string) : string := to_string i +:+ "-" +:+ md5 +:+ ".part".

Lemma digits_chars s c : all_digits s = true → c ∈ chars s → digit c = true.
Proof.
  induction s as [|d s IH]; cbn; [set_solver|]. intros [Hd Hs]%andb_true_iff [->|H]%elem_of_cons; auto.
Qed.

Lemma to_string_chars i c : 0 <= i → c ∈ chars (to_string i) → digit c = true.
Proof. intros Hi. apply digits_chars. by apply to_string_reads. Qed.

Lemma hex_chars s c : IsLowerHexMd5 s = true → c ∈ chars s → is_lower_hex_character c = true.
Proof.
  unfold IsLowerHexMd5. intros [_ H]%andb_true_iff Hc. rewrite forallb_forall in H.
  apply H. by apply list_elem_of_In.
Qed.

Lemma chunk_name_no_slash i md5 : 0 <= i → IsLowerHexMd5 md5 = true → no_slash (chunk_name i md5).
Proof.
  intros Hi Hm. unfold no_slash, chunk_name. rewrite !chars_app. intros H.
  repeat (apply elem_of_app in H as [H|H]).
  - by apply to_string_chars in H.
  - set_solver.
  - by apply (hex_chars _ _ Hm) in H.
  - set_solver.
Qed.

(** The index and what follows can be read off the name. *)
Lemma name_split i j x y : 0 <= i → 0 <= j →
  to_string i +:+ "-" +:+ x = to_string j +:+ "-" +:+ y → i = j ∧ x = y.
Proof.
  intros Hi Hj H%(f_equal chars). rewrite !chars_app in H.
  apply (split_at "-"%char) in H as [H1 H2].
  - split; [|by apply chars_inj]. apply chars_inj in H1. by apply (inj pretty).
  - intros Hc. by apply to_string_chars in Hc.
  - intros Hc. by apply to_string_chars in Hc.
Qed.

Lemma chunk_name_inj i j m m' : 0 <= i → 0 <= j → chunk_name i m = chunk_name j m' → i = j.
Proof. intros Hi Hj H. by apply name_split in H as [-> _]. Qed.

(** The name of a file that is being written is not the name of a chunk. *)
Lemma writing_name_fresh i j m m' uuid : 0 <= i → 0 <= j → IsLowerHexMd5 m = true →
  IsLowerHexMd5 m' = true → chunk_name i m +:+ ".writing-" +:+ uuid ≠ chunk_name j m'.
Proof.
  intros Hi Hj Hm Hm' H. unfold chunk_name in H. rewrite !string_app_assoc in H.
  apply name_split in H as [_ H]; [|done..]. apply (f_equal strlen) in H.
  rewrite !strlen_app in H. unfold IsLowerHexMd5 in *. case_bools.
  change (strlen ".writing-") with 9 in H. assert (0 <= strlen uuid) by (unfold strlen; lia). lia.
Qed.

(** ** Runs without failures *)

(** The environment of a process that is alone and that nothing fails. *)
Definition quiet (s : FileSystem) : Env FileSystem := mkEnv s [] AutoCommit [].

Lemma fs_op_quiet {A} (q : FileSystem → option (A * FileSystem)) s a s' :
  q s = Some (a, s') → fs_op q (quiet s) = (Ret (Some a), quiet s').
Proof.
  intros H. unfold fs_op, catch_all, catch, mbind, M_bind, mret, M_ret, exec, next_step, quiet.
  cbn. by rewrite H.
Qed.

Lemma or_fail_quiet {A B} (q : FileSystem → option (A * FileSystem)) er
    (k : A → M FileSystem (Result B)) s a s' :
  q s = Some (a, s') → or_fail (fs_op q) er k (quiet s) = k a (quiet s').
Proof. intros H. unfold or_fail, mbind, M_bind. by rewrite (fs_op_quiet q s a s' H). Qed.

Section quiet.
Context (HashMd5 HashSha256 : string → string) (temp base : string) (buffer_size : Z).
Hypothesis Hbuffer : 0 < buffer_size.
Hypothesis md5_hex : ∀ s, IsLowerHexMd5 (HashMd5 s) = true.
Hypothesis sha256_hex : ∀ s, IsSha256Hash (HashSha256 s) = true.
Context (session : UploadStagingSession).
Hypothesis Hsession : ValidateLocalSession session = Ok tt.

#[local] Notation upload_id := (ss_upload_id session).

Definition chunk_path (i : Z) (md5 : string) : string :=
  path_join temp (GetChunkObjectKey upload_id i md5).

Lemma chunk_path_eq i md5 :
  chunk_path i md5 = (temp +:+ "/" +:+ upload_id +:+ "/chunks/") +:+ chunk_name i md5.
Proof.
  unfold chunk_path, GetChunkObjectKey, path_join, chunk_name. by rewrite !string_app_assoc.
Qed.

Lemma chunk_below i md5 rest :
  is_below (path_join temp upload_id) (chunk_path i md5 +:+ rest) = true.
Proof.
  rewrite chunk_path_eq. unfold is_below, path_join.
  replace (_ +:+ rest) with (((temp +:+ "/" +:+ upload_id) +:+ "/") +:+
    ("chunks/" +:+ chunk_name i md5 +:+ rest)) by solve_string. apply prefix_app.
Qed.

(** The file under assembly is not one of the chunks. *)
Lemma assembled_not_chunk i md5 rest :
  chunk_path i md5 +:+ rest ≠ GetAssembleFilePath temp upload_id.
Proof.
  rewrite chunk_path_eq. unfold GetAssembleFilePath, path_join. rewrite !string_app_assoc.
  intros H. by do 3 apply string_app_cancel in H.
Qed.

Lemma chunk_path_inj i j m m' : 0 <= i → 0 <= j → chunk_path i m = chunk_path j m' → i = j.
Proof. rewrite !chunk_path_eq. intros Hi Hj H%string_app_cancel. by apply chunk_name_inj in H. Qed.

Lemma writing_path_fresh i j m m' uuid : 0 <= i → 0 <= j → IsLowerHexMd5 m = true →
  IsLowerHexMd5 m' = true → chunk_path i m +:+ ".writing-" +:+ uuid ≠ chunk_path j m'.
Proof.
  rewrite !chunk_path_eq, string_app_assoc. intros Hi Hj Hm Hm' H%string_app_cancel.
  by apply (writing_name_fresh i j m m' uuid) in H.
Qed.

(** No chunk lies below the path of another. *)
Lemma chunk_not_below i j m m' : 0 <= j → IsLowerHexMd5 m' = true →
  is_below (chunk_path i m) (chunk_path j m') = false.
Proof.
  intros Hj Hm. apply not_true_iff_false. intros [c H]%prefix_split. rewrite !chunk_path_eq in H.
  rewrite !string_app_assoc in H. do 4 apply string_app_cancel in H.
  apply (chunk_name_no_slash j m' Hj Hm). rewrite H, !chars_app. set_solver.
Qed.

(** ** Writing the chunks *)

(** What is below the directory of the session: chunks with smaller indices. *)
Definition only_chunks (i : Z) (s : FileSystem) : Prop := ∀ p c, s !! p = Some c →
  is_below (path_join temp upload_id) p = true →
  ∃ j m, 0 <= j < i ∧ IsLowerHexMd5 m = true ∧ p = chunk_path j m.

Lemma path_exists_false p s : path_exists p s = false ↔
  s !! p = None ∧ ∀ p' c, s !! p' = Some c → is_below p p' = false.
Proof.
  unfold path_exists, is_directory. rewrite orb_false_iff, bool_decide_eq_false, eq_None_not_Some.
  rewrite exists_row_false. naive_solver.
Qed.

Lemma chunk_absent i m s : 0 <= i → only_chunks i s → path_exists (chunk_path i m) s = false.
Proof.
  intros Hi Hs. apply path_exists_false. split.
  - apply eq_None_not_Some. intros [c Hc]. destruct (Hs _ _ Hc) as (j & m' & Hj & _ & E).
    + rewrite <- (string_app_nil (chunk_path i m)). apply chunk_below.
    + apply chunk_path_inj in E; lia.
  - intros p c Hc. apply not_true_iff_false. intros H.
    destruct (Hs _ _ Hc) as (j & m' & Hj & Hm & ->).
    + apply prefix_split in H as [x ->]. rewrite string_app_assoc. apply chunk_below.
    + by rewrite chunk_not_below in H by (done || lia).
Qed.

Lemma writing_absent i m uuid s : 0 <= i → IsLowerHexMd5 m = true → only_chunks i s →
  s !! (chunk_path i m +:+ ".writing-" +:+ uuid) = None.
Proof.
  intros Hi Hm Hs. apply eq_None_not_Some. intros [c Hc].
  destruct (Hs _ _ Hc) as (j & m' & Hj & Hm' & E); [apply chunk_below|].
  apply writing_path_fresh in E; done || lia.
Qed.

Lemma only_chunks_insert i m data s : 0 <= i → IsLowerHexMd5 m = true → only_chunks i s →
  only_chunks (i + 1) (<[chunk_path i m := data]> s).
Proof.
  intros Hi Hm Hs p c. rewrite lookup_insert_Some. intros [[<- _]|[_ Hc]] Hb.
  - exists i, m. by split_and!; [lia..| |].
  - destruct (Hs _ _ Hc Hb) as (j & m' & Hj & ? & ->). exists j, m'. by split_and!; [lia..| |].
Qed.

Definition described (i : Z) (data : string) : UploadStagingChunk :=
  mkUploadStagingChunk i (strlen data) (HashMd5 data)
    (GetChunkObjectKey upload_id i (HashMd5 data)) "".

Lemma overwrite_empty data : overwrite "" 0 data = data.
Proof. exact (overwrite_end "" data). Qed.

Lemma write_chunk_quiet i data uuid s : 0 <= i → only_chunks i s →
  WriteChunk HashMd5 temp session i (HashMd5 data) data uuid (quiet s) =
    (Ret (Ok (described i data)), quiet (<[chunk_path i (HashMd5 data) := data]> s)).
Proof.
  intros Hi Hs. unfold WriteChunk. rewrite Hsession, md5_hex. cbn [is_ok negb orb].
  fold (chunk_path i (HashMd5 data)). set (path := chunk_path i (HashMd5 data)).
  set (writing := path +:+ ".writing-" +:+ uuid).
  assert (s !! writing = None) as Hw by (apply writing_absent; auto).
  assert (path_exists path s = false) as Hex by (by apply chunk_absent).
  assert (writing ≠ path) as Hne by (apply writing_path_fresh; auto).
  unfold bind_result, mbind at 1, M_bind at 1, publish_chunk,
    create_directories, fs_exists, open_truncated, write_at, fs_rename.
  erewrite or_fail_quiet by reflexivity.
  erewrite or_fail_quiet by (cbn; rewrite Hex; reflexivity).
  cbv beta iota. erewrite or_fail_quiet by reflexivity. cbv beta. unfold mbind, M_bind.
  erewrite (fs_op_quiet _ _ tt) by reflexivity.
  erewrite (fs_op_quiet _ _ tt) by (cbn; rewrite lookup_alter_eq, lookup_insert_eq; reflexivity).
  cbn. unfold described. do 2 f_equal. rewrite overwrite_empty, alter_insert_eq, delete_insert_eq.
  by rewrite delete_id.
Qed.

Fixpoint write_chunks (i : Z) (l : list (string * string)) : M FileSystem (Result (list UploadStagingChunk)) :=
  match l with
  | [] => mret (Ok [])
  | (data, uuid) :: l =>
      let* chunk := WriteChunk HashMd5 temp session i (HashMd5 data) data uuid in
      let* chunks := write_chunks (i + 1) l in
      mret (Ok (chunk :: chunks))
  end.

(** The descriptors of the chunks and the tree that holds them. *)
Fixpoint descriptors (i : Z) (datas : list string) : list UploadStagingChunk :=
  match datas with [] => [] | data :: datas => described i data :: descriptors (i + 1) datas end.

Fixpoint written (i : Z) (datas : list string) (s : FileSystem) : FileSystem :=
  match datas with
  | [] => s
  | data :: datas => written (i + 1) datas (<[chunk_path i (HashMd5 data) := data]> s)
  end.

Lemma write_chunks_quiet l : ∀ i s, 0 <= i → only_chunks i s →
  write_chunks i l (quiet s) = (Ret (Ok (descriptors i l.*1)), quiet (written i l.*1 s)).
Proof.
  induction l as [|[data uuid] l IH]; intros i s Hi Hs; [done|].
  cbn [write_chunks]. unfold bind_result, mbind, M_bind. rewrite write_chunk_quiet by done.
  rewrite IH; [done|lia|]. by apply only_chunks_insert.
Qed.

Lemma written_others datas : ∀ i s p, (∀ j m, i <= j → p ≠ chunk_path j m) →
  written i datas s !! p = s !! p.
Proof.
  induction datas as [|data datas IH]; intros i s p H; [done|]. cbn.
  rewrite IH by (intros; apply H; lia). apply lookup_insert_ne. intros E. by eapply H.
Qed.

Lemma written_below datas : ∀ i s p c, 0 <= i → written i datas s !! p = Some c →
  s !! p = Some c ∨ ∃ j m, 0 <= j ∧ p = chunk_path j m.
Proof.
  induction datas as [|data datas IH]; intros i s p c Hi H; cbn in H; [by left|].
  apply IH in H as [H|H]; [|by right|lia]. apply lookup_insert_Some in H as [[<- _]|[_ H]]; [|by left].
  right. by eexists _, _.
Qed.

(** What a chunk resolves to. *)
Lemma resolve_described i data : IsSafeObjectComponent upload_id = true →
  ResolveChunkFilePath temp upload_id (described i data) = Ok (chunk_path i (HashMd5 data)).
Proof.
  intros Hsafe. unfold ResolveChunkFilePath. rewrite Hsafe. cbn [negb described sc_object_key sc_md5_hash sc_chunk_index].
  assert (str_empty (GetChunkObjectKey upload_id i (HashMd5 data)) = false) as ->.
  { unfold GetChunkObjectKey, path_join. by destruct upload_id. }
  by rewrite md5_hex, String.eqb_refl.
Qed.

Fixpoint resolved (i : Z) (datas : list string) : list (UploadStagingChunk * string) :=
  match datas with
  | [] => []
  | data :: datas => (described i data, chunk_path i (HashMd5 data)) :: resolved (i + 1) datas
  end.

Lemma resolve_chunks_quiet datas : ∀ i, IsSafeObjectComponent upload_id = true →
  resolve_chunks temp upload_id i (descriptors i datas) = Ok (resolved i datas).
Proof.
  induction datas as [|data datas IH]; intros i Hsafe; [done|]. cbn [descriptors resolve_chunks].
  rewrite Z.eqb_refl, resolve_described, IH by done. done.
Qed.

(** ** Assembling them *)

Lemma write_buffers_quiet path l : ∀ offset s, ∃ offset' s',
  write_buffers path offset true l (quiet s) = (Ret (offset', true), quiet s') ∧
  (∀ p, p ≠ path → s' !! p = s !! p) ∧ (is_Some (s !! path) → is_Some (s' !! path)).
Proof.
  induction l as [|data l IH]; intros offset s; [by eexists _, _|].
  cbn [write_buffers]. unfold mbind, M_bind, write_at. erewrite fs_op_quiet by reflexivity.
  cbn [bool_decide]. rewrite bool_decide_eq_true_2 by by eexists.
  destruct (IH (offset + strlen data) (alter (λ c, overwrite c offset data) path s))
    as (o & s' & -> & H & Hs).
  exists o, s'. split_and!; [done| |].
  - intros p Hp. by rewrite H, lookup_alter_ne.
  - intros Hsome. apply Hs. by rewrite lookup_alter_eq, fmap_is_Some.
Qed.

Lemma chunk_matches_described i data : chunk_matches HashMd5 (described i data) data = true.
Proof.
  unfold chunk_matches, described. cbn. rewrite Z.eqb_refl, String.eqb_refl.
  by rewrite !orb_true_r.
Qed.

(** A chunk that is there to be assembled. *)
Definition present (path : string) (s : FileSystem) (cp : UploadStagingChunk * string)
    (data : string) : Prop :=
  cp.2 ≠ path ∧ s !! cp.2 = Some data ∧ chunk_matches HashMd5 cp.1 data = true.

Lemma present_same path s s' cp data : (∀ p, p ≠ path → s' !! p = s !! p) →
  present path s cp data → present path s' cp data.
Proof. intros Hs (? & ? & ?). split_and!; [done| |done]. by rewrite Hs. Qed.

Lemma assemble_loop_quiet path l : ∀ datas offset content s, Forall2 (present path s) l datas →
  ∃ s', assemble_loop HashMd5 buffer_size path offset true content l (quiet s) =
    (Ret (Ok (content +:+ concat_strings datas, true)), quiet s') ∧ (∀ p, p ≠ path → s' !! p = s !! p).
Proof.
  induction l as [|[chunk p] l IH]; intros datas offset content s Hl.
  - apply Forall2_nil_inv_l in Hl as ->. exists s. by rewrite string_app_nil.
  - apply Forall2_cons_inv_l in Hl as (data & datas' & (Hne & Hdata & Hm) & Hl & ->).
    cbn in Hne, Hdata, Hm.
    cbn [assemble_loop]. unfold mbind at 1, M_bind at 1, fs_read.
    erewrite fs_op_quiet by (rewrite Hdata; reflexivity). unfold mbind at 1, M_bind at 1.
    destruct (write_buffers_quiet path (read_buffers buffer_size data) offset s)
      as (offset' & s1 & -> & Hsame & _). unfold mbind at 1, M_bind at 1, fs_check.
    erewrite fs_op_quiet by reflexivity. rewrite Hm. cbn [negb].
    destruct (IH datas' offset' (content +:+ data) s1) as (s2 & -> & Hs2).
    + eapply Forall2_impl; [exact Hl|]. intros cp d. by apply present_same.
    + exists s2. cbn [concat_strings]. rewrite string_app_assoc. split; [done|].
      intros q Hq. by rewrite Hs2, Hsame.
Qed.

Definition assembly_of (path file : string) : UploadStagingAssembly :=
  mkUploadStagingAssembly StagingLocal path (u64 (strlen file)) (HashMd5 file) (HashSha256 file).

Lemma assemble_file_quiet path l datas s : Forall2 (present path s) l datas →
  let file := concat_strings datas in
  ∃ s', assemble_file HashMd5 HashSha256 temp buffer_size path l (quiet s) =
    (Ret (Ok (assembly_of path file)), quiet s') ∧ s' !! path = Some file ∧
    (∀ p, p ≠ path → s' !! p = s !! p).
Proof.
  intros Hl file. set (s1 := <[path := ""%string]> s : FileSystem).
  destruct (assemble_loop_quiet path l datas 0 "" s1) as (s2 & Hloop & Hs2).
  { eapply Forall2_impl; [exact Hl|]. intros cp d. apply present_same. intros p Hp.
    by apply lookup_insert_ne. }
  assert (∀ p, p ≠ path → s2 !! p = s !! p) as Hsame.
  { intros p Hp. rewrite Hs2 by done. by apply lookup_insert_ne. }
  assert (holds_prefix path true 0 "" s1) as Hh by (intros _; split; [apply lookup_insert_eq|done]).
  destruct (assemble_loop_Ok HashMd5 buffer_size Hbuffer path l 0 true "" (quiet s1) _ _ _ eq_refl
    ltac:(constructor) Hh Hloop) as (_ & _ & Hfile & _).
  exists s2. split; [|split; [by apply Hfile|done]].
  unfold assemble_file, create_directories, open_truncated. erewrite or_fail_quiet by reflexivity.
  erewrite or_fail_quiet by reflexivity. unfold bind_result, mbind at 1, M_bind at 1.
  fold s1. rewrite Hloop. unfold mbind at 1, M_bind at 1, fs_check.
  by erewrite fs_op_quiet by reflexivity.
Qed.

Lemma present_chunks path datas : (∀ j m, path ≠ chunk_path j m) → ∀ i s, 0 <= i →
  Forall2 (present path (written i datas s)) (resolved i datas) datas.
Proof.
  intros Hpath. induction datas as [|data datas IH]; intros i s Hi; [constructor|].
  cbn [resolved written]. constructor; [|apply IH; lia]. split_and!; cbn.
  - intros E. by eapply Hpath.
  - rewrite written_others; [apply lookup_insert_eq|].
    intros j m Hj E. apply chunk_path_inj in E; lia.
  - apply chunk_matches_described.
Qed.

(** ** Promoting and reading *)

Lemma chars_substring n m s : chars (String.substring n m s) = take m (drop n (chars s)).
Proof.
  revert n m. induction s as [|c s IH]; intros [|n] [|m]; cbn; by rewrite ?IH, ?drop_0.
Qed.

(** A stream read to its end with a buffer of some size. *)
Fixpoint read_all (fuel : nat) (size : Z) (stream : LocalFileReadStream) : string :=
  match fuel with
  | O => ""
  | S fuel =>
      let '(data, stream) := Read stream size in
      if str_empty data then "" else data +:+ read_all fuel size stream
  end.

Lemma str_empty_true s : str_empty s = true ↔ s = ""%string.
Proof. by destruct s. Qed.

Lemma length_chars s : length (chars s) = String.length s.
Proof. induction s; simpl; congruence. Qed.

Lemma read_all_remaining fuel size : ∀ ahead remaining, 0 < size → 0 <= remaining <= u64_max →
  (String.length ahead < fuel)%nat →
  read_all fuel size (mkLocalFileReadStream ahead remaining true) =
    String.substring 0 (Z.to_nat remaining) ahead.
Proof.
  induction fuel as [|fuel IH]; intros ahead remaining Hsize Hrem Hfuel; [lia|].
  cbn [read_all]. unfold Read. cbn [rs_open rs_remaining rs_ahead negb orb].
  destruct (Z.eqb_spec remaining 0) as [->|Hne]; [by destruct ahead|].
  set (n := Z.to_nat (Z.min size (Z.min remaining u64_max))). set (data := String.substring 0 n ahead).
  destruct (str_empty data) eqn:He.
  - apply str_empty_true in He. cbn [str_empty]. destruct ahead as [|c ahead]; [by destruct (Z.to_nat remaining)|].
    exfalso. unfold data, n in He. destruct (Z.to_nat _) eqn:E in He; [lia|done].
  - assert (chars data = take n (chars ahead)) as Hd by (unfold data; by rewrite chars_substring, drop_0).
    assert (String.length data = (n `min` String.length ahead)%nat) as Hl
      by (by rewrite <- !length_chars, Hd, length_take).
    assert (0 < String.length data)%nat as Hpos by (destruct data; [done|simpl; lia]).
    set (rest := String.substring (String.length data) (String.length ahead) ahead).
    assert (chars ahead = (chars data ++ chars rest)%list) as Ha.
    { unfold rest. rewrite chars_substring, Hd, Hl, (take_ge (drop _ _))
        by (rewrite length_drop, length_chars; lia).
      rewrite <- (take_drop n (chars ahead)) at 1. f_equal.
      destruct (decide (n <= String.length ahead)%nat); [by rewrite Nat.min_l|].
      rewrite !drop_ge; [done|rewrite length_chars; lia..]. }
    assert (String.substring 0 (Z.to_nat remaining) ahead =
      data +:+ String.substring 0 (Z.to_nat (remaining - strlen data)) rest) as ->.
    { apply chars_inj. rewrite chars_app, !chars_substring, !drop_0, Ha, take_app, length_chars.
      rewrite take_ge by (rewrite length_chars; unfold n in Hl; lia). do 2 f_equal. unfold strlen. lia. }
    cbn [rs_remaining]. assert (strlen data <= remaining) by (unfold strlen, n in *; lia).
    destruct (Z.eqb_spec (remaining - strlen data) 0) as [->|]; cbv iota zeta; rewrite He; f_equal.
    + destruct fuel; [by destruct rest|]. by destruct rest.
    + apply IH; [done|unfold strlen in *; lia|]. assert (String.length rest < String.length ahead)%nat; [|lia].
      rewrite <- !length_chars, Ha, length_app, !length_chars. lia.
Qed.

Lemma promote_quiet temp_path file s : let h := HashSha256 file in
  temp_path ≠ ""%string → strlen file <= u64_max → s !! temp_path = Some file →
  path_exists (final_path base h) s = false → temp_path ≠ final_path base h →
  PromoteToFinal HashSha256 base (assembly_of temp_path file) h (quiet s) =
    (Ret (Ok (mkBlobPromoteResult (final_path base h) true)),
     quiet (<[final_path base h := file]> s)).
Proof.
  intros h Htemp Hlen Hs Hex Hne. unfold PromoteToFinal. cbn [assembly_of sa_backend sa_locator sa_sha256_hash sa_size_bytes].
  rewrite bool_decide_eq_true_2 by done. rewrite (sha256_hex file : IsSha256Hash h = true), String.eqb_refl.
  assert (str_empty temp_path = false) as -> by (by destruct temp_path). cbn [negb orb].
  unfold promote_file, create_directories, fs_exists, fs_file_size, copy_file.
  erewrite or_fail_quiet by reflexivity. erewrite or_fail_quiet by reflexivity. cbv beta. rewrite Hex.
  erewrite or_fail_quiet by (rewrite Hs; reflexivity). cbv beta.
  assert (u64 (strlen file) = strlen file) as -> by (apply u64_small; unfold u64_max in Hlen; unfold strlen in *; lia).
  rewrite Z.eqb_refl. cbn [negb]. unfold or_fail, mbind, M_bind.
  erewrite fs_op_quiet by (rewrite Hex, Hs; reflexivity). cbv beta iota.
  erewrite fs_op_quiet by reflexivity. cbn. rewrite lookup_insert_ne, Hs, alter_insert_eq by done. done.
Qed.

(** ** The round trip *)

(** What the upload service and the lifecycle ask the stores for. *)
Definition upload_file (limiter : AssemblyConcurrencyLimiter) (state_version : Z)
    (l : list (string * string)) : M FileSystem (Result BlobPromoteResult) :=
  let* chunks := write_chunks 0 l in
  let* assembly := AssembleChunks HashMd5 HashSha256 temp buffer_size limiter session state_version
    (Z.of_nat (length chunks)) chunks in
  PromoteToFinal HashSha256 base assembly (sa_sha256_hash assembly).

Lemma assemble_chunks_quiet limiter v datas s : is_Some (TryAcquire limiter) →
  only_chunks 0 s →
  let file := concat_strings datas in let path := GetAssembleFilePath temp upload_id in
  ∃ s', AssembleChunks HashMd5 HashSha256 temp buffer_size limiter session v
      (Z.of_nat (length (descriptors 0 datas))) (descriptors 0 datas) (quiet (written 0 datas s)) =
    (Ret (Ok (assembly_of path file)), quiet s') ∧ s' !! path = Some file ∧
    (∀ p, p ≠ path → s' !! p = written 0 datas s !! p).
Proof.
  intros [l Hl] Hs file path. pose proof Hsession as Hv. unfold ValidateLocalSession in Hv.
  destruct (negb _ || _ || _) eqn:E in Hv; [done|]. apply orb_false_iff in E as [E _].
  apply orb_false_iff in E as [_ E]. apply negb_false_iff in E.
  unfold AssembleChunks. rewrite Hsession, Z.eqb_refl, resolve_chunks_quiet, Hl by done. cbn [negb].
  apply assemble_file_quiet, present_chunks; [|done]. intros j m H. symmetry in H.
  apply (assembled_not_chunk j m ""). by rewrite string_app_nil.
Qed.

(** C8: the local stores give back what they were given.  Let the two directories of the
    deployment be apart, the digests of the form the stores demand, a slot of the limiter free,
    the directory of the session empty, and no file at the final path of the whole.  A file
    of at most 2^64 - 1 bytes that the session uploads in any number of chunks is, when nothing
    fails, assembled and promoted under the SHA-256 of the whole, and every range of the blob
    that is then opened is read, through a buffer of any size but 0, as exactly those bytes of
    the file. *)
Theorem local_stores_round_trip limiter v l s start len size :
  let datas := l.*1 in let file := concat_strings datas in
  let path := final_path base (HashSha256 file) in
  is_Some (TryAcquire limiter) →
  (∀ p c, s !! p = Some c → is_below (path_join temp upload_id) p = false) →
  (∀ p, is_below temp p = true → p ≠ path ∧ is_below path p = false) →
  path_exists path s = false → strlen file <= u64_max →
  0 <= start < 2 ^ 63 → 0 <= len <= u64_max → 0 < size →
  ∃ s' stream, upload_file limiter v l (quiet s) = (Ret (Ok (mkBlobPromoteResult path true)), quiet s') ∧
    (∀ id md5, OpenBlobRangeForRead (mkBlobDescriptor id md5 path (strlen file)) start len (quiet s') =
      (Ret (Ok stream), quiet s')) ∧
    read_all (S (String.length file)) size stream =
      String.substring (Z.to_nat start) (Z.to_nat len) file.
Proof.
  intros datas file path Hlim Hfresh Hapart Hex Hfile Hstart Hlen Hsize.
  assert (only_chunks 0 s) as Hs by (intros p c Hc; by rewrite (Hfresh p c Hc)).
  set (assembled := GetAssembleFilePath temp upload_id).
  destruct (assemble_chunks_quiet limiter v datas s Hlim Hs) as (s1 & Ha & Hs1 & Hsame).
  fold assembled file in Ha, Hs1, Hsame.
  assert (is_below temp assembled = true) as Hbelow.
  { unfold is_below, assembled, GetAssembleFilePath, path_join. rewrite <- string_app_assoc. apply prefix_app. }
  assert (∀ j m, is_below temp (chunk_path j m) = true) as Hchunk.
  { intros j m. unfold is_below, chunk_path, path_join at 1. rewrite <- string_app_assoc. apply prefix_app. }
  assert (path_exists path s1 = false) as Hex1.
  { apply path_exists_false in Hex as [Hnone Hdir]. apply path_exists_false. split.
    - rewrite Hsame by (intros E; by destruct (Hapart _ Hbelow)).
      rewrite written_others; [done|]. intros j m _ ->. by destruct (Hapart _ (Hchunk j m)).
    - intros p c Hc. destruct (decide (p = assembled)) as [->|Hp]; [by apply Hapart|].
      rewrite Hsame in Hc by done. apply written_below in Hc as [Hc|(j & m & _ & ->)];
        [by eapply Hdir|by apply Hapart|lia]. }
  pose proof (promote_quiet assembled file s1 ltac:(by unfold assembled, GetAssembleFilePath, path_join;
    destruct temp) Hfile Hs1 Hex1 ltac:(by apply Hapart)) as Hp.
  eexists _, (mkLocalFileReadStream (String.substring (Z.to_nat start) (String.length file) file) len true).
  split; [|split].
  - unfold upload_file, bind_result, mbind, M_bind. rewrite write_chunks_quiet by done.
    fold datas. rewrite Ha. exact Hp.
  - intros id md5. unfold OpenBlobRangeForRead, fs_read, fs_check. cbn [bd_storage_path].
    assert (str_empty path = false) as -> by (unfold path, final_path, path_join; by destruct base).
    destruct (Z.ltb_spec (2 ^ 63 - 1) start); [lia|].
    erewrite or_fail_quiet by (rewrite lookup_insert_eq; reflexivity).
    by erewrite or_fail_quiet by reflexivity.
  - rewrite read_all_remaining; [|done|done|].
    + apply chars_inj. rewrite !chars_substring, drop_0.
      rewrite (take_ge (drop _ _)); [done|]. rewrite length_drop, length_chars. lia.
    + rewrite <- !length_chars, chars_substring, length_take, length_drop. lia.
Qed.
End quiet.

(** ** An example *)

(** Digests that only see whether the length is even. *)
Definition parity_digest (n : nat) (s : string) : string :=
  String.string_of_list_ascii (repeat (if Nat.even (String.length s) then "0" else "1")%char n).

Lemma parity_md5 s : IsLowerHexMd5 (parity_digest 32 s) = true.
Proof. unfold parity_digest. by destruct (Nat.even _). Qed.

Lemma parity_sha256 s : IsSha256Hash (parity_digest 64 s) = true.
Proof. unfold parity_digest. by destruct (Nat.even _). Qed.

Definition example_upload : list (string * string) := [("abc", "u1"); ("de", "u2")]%string.

Definition example_path : string := final_path "store" (parity_digest 64 "abcde").

Lemma example_apart p : is_below "tmp" p = true → p ≠ example_path ∧ is_below example_path p = false.
Proof.
  intros [x ->]%prefix_split. split; [by intros [=]|]. apply not_true_iff_false.
  by intros [y [=]]%prefix_split.
Qed.

Lemma local_stores_round_trip_witness : ∃ s' stream,
  upload_file (parity_digest 32) (parity_digest 64) "tmp" "store" 2 example_session (new_limiter 0) 1
    example_upload (quiet {["other" := "x"]}%string) =
    (Ret (Ok (mkBlobPromoteResult example_path true)), quiet s') ∧
  (∀ id md5, OpenBlobRangeForRead (mkBlobDescriptor id md5 example_path 5) 1 3 (quiet s') =
    (Ret (Ok stream), quiet s')) ∧
  read_all 6 2 stream = "bcd"%string.
Proof.
  apply (local_stores_round_trip (parity_digest 32) (parity_digest 64) "tmp" "store" 2 eq_refl
    parity_md5 parity_sha256 example_session eq_refl (new_limiter 0) 1 example_upload
    {["other" := "x"]}%string 1 3 2).
  - eexists. reflexivity.
  - intros p c. rewrite lookup_singleton_Some. intros [<- _]. reflexivity.
  - exact example_apart.
  - vm_compute. reflexivity.
  - discriminate.
  - split; [discriminate|reflexivity].
  - split; discriminate.
  - reflexivity.
Defined.
