(* ===== verification/Quota.v ===== *)
(** * Storage quota accounting

    [src/src/services/QuotaService.cpp]: five conditional updates of a user's
    [storage_used] and [storage_reserved].  Each is one SQL statement guarded in
    its [WHERE] clause; the number of rows it changed tells the service whether
    the guard held. *)

From S2P Require Import Prelude Errors Db Schema.

Local Open Scope string_scope.

(** [UPDATE users SET ... WHERE id = user AND guard]: returns the number of rows
    updated.  [guard] and [set] are [None] on a BIGINT overflow. *)
Definition update_user (user : Z) (guard : UserRow → option bool)
    (set : UserRow → option UserRow) (d : Database) : option (Z * Database) :=
  match users d !! user with
  | None => Some (0, d)
  | Some u =>
      g ← guard u;
      if (g : bool) then u' ← set u; Some (1, d <| users := <[user := u']> (users d) |>)%Z
      else Some (0%Z, d)
  end.

Definition bigint_add (x y : Z) : option Z := bigint (x + y).
Definition bigint_sub (x y : Z) : option Z := bigint (x - y).

(** The result of a guarded update. *)
Definition affected_or (rejected : ErrorInfo) (rows : Z) : Result unit :=
  if (rows =? 0)%Z then Err rejected else Ok tt.

(** The statement, the error when no row matched, and the error when the
    database failed: the shape all the operations share. *)
Definition guarded_update (rejected failed : ErrorInfo)
    (q : Database → option (Z * Database)) : M Database (Result unit) :=
  catch_db (rows ← exec q; mret (affected_or rejected rows)) (mret (Err failed)).

Definition ReserveStorage (user_id bytes : Z) : M Database (Result unit) :=
  if (bytes =? 0)%Z then mret (Ok tt)
  else guarded_update (err StorageQuotaExceeded)
    (mkErrorInfo InternalError "Failed to reserve storage quota")
    (update_user user_id
      (λ u, s ← bigint_add (u_storage_used u) (u_storage_reserved u);
            t ← bigint_add s bytes; Some (t <=? u_storage_quota u)%Z)
      (λ u, r ← bigint_add (u_storage_reserved u) bytes;
            Some (u <| u_storage_reserved := r |>))).

Definition ReleaseReservedStorageChecked (user_id bytes : Z)
  : M Database (Result unit) :=
  if (bytes =? 0)%Z then mret (Ok tt)
  else guarded_update
    (mkErrorInfo InternalError "Failed to release reserved quota")
    (mkErrorInfo InternalError "Failed to release reserved quota")
    (update_user user_id
      (λ u, Some (bytes <=? u_storage_reserved u)%Z)
      (λ u, r ← bigint_sub (u_storage_reserved u) bytes;
            Some (u <| u_storage_reserved := r |>))).

Definition CommitReservedToUsed (user_id bytes : Z) : M Database (Result unit) :=
  if (bytes =? 0)%Z then mret (Ok tt)
  else guarded_update
    (mkErrorInfo InternalError "Failed to transfer reserved quota to used")
    (mkErrorInfo InternalError "Failed to transfer reserved quota to used")
    (update_user user_id
      (λ u, Some (bytes <=? u_storage_reserved u)%Z)
      (λ u, r ← bigint_sub (u_storage_reserved u) bytes;
            v ← bigint_add (u_storage_used u) bytes;
            Some (u <| u_storage_reserved := r |> <| u_storage_used := v |>))).

Definition ConsumeUsedStorage (user_id bytes : Z) : M Database (Result unit) :=
  if (bytes =? 0)%Z then mret (Ok tt)
  else guarded_update (err StorageQuotaExceeded)
    (mkErrorInfo InternalError "Failed to reserve storage quota")
    (update_user user_id
      (λ u, t ← bigint_add (u_storage_used u) bytes;
            Some (t <=? u_storage_quota u)%Z)
      (λ u, v ← bigint_add (u_storage_used u) bytes;
            Some (u <| u_storage_used := v |>))).

Definition AdjustUsedStorageChecked (user_id delta : Z) : M Database (Result unit) :=
  if (delta =? 0)%Z then mret (Ok tt)
  else if (0 <? delta)%Z then
    guarded_update (err StorageQuotaExceeded)
      (mkErrorInfo InternalError "Failed to update storage usage")
      (update_user user_id
        (λ u, t ← bigint_add (u_storage_used u) delta;
              Some (t <=? u_storage_quota u)%Z)
        (λ u, v ← bigint_add (u_storage_used u) delta;
              Some (u <| u_storage_used := v |>)))
  else
    guarded_update (mkErrorInfo InternalError "Failed to update storage usage")
      (mkErrorInfo InternalError "Failed to update storage usage")
      (update_user user_id (λ _, Some true)
        (λ u, v ← bigint_add (u_storage_used u) delta;
              Some (u <| u_storage_used := Z.max v 0 |>))).

(** ** The account of a user

    The abstract specification [spec] is the documentation of the database (section 4.3.1
    of docs/design/03): what is available to an operation is the quota minus the used and
    the reserved bytes.  [apply] is what the five statements make of one account; where
    the two differ is [overdraws].  Both are over unbounded integers and without the
    database around the account; [None] is an operation that is refused. *)
Module Account.

Inductive op := Reserve (n : Z) | Release (n : Z) | CommitRes (n : Z) | Consume (n : Z)
  | Adjust (delta : Z).

(** The number of bytes an operation moves. *)
Definition amount (o : op) : Z :=
  match o with
  | Reserve n | Release n | CommitRes n | Consume n => n
  | Adjust delta => Z.abs delta
  end.

Definition move (a : UserRow) (dused dreserved : Z) : UserRow :=
  a <| u_storage_used := u_storage_used a + dused |>
    <| u_storage_reserved := u_storage_reserved a + dreserved |>.

Definition apply (o : op) (a : UserRow) : option UserRow :=
  if (amount o =? 0)%Z then Some a else
  match o with
  | Reserve n =>
      if (u_storage_used a + u_storage_reserved a + n <=? u_storage_quota a)%Z
      then Some (move a 0 n) else None
  | Release n => if (n <=? u_storage_reserved a)%Z then Some (move a 0 (- n)) else None
  | CommitRes n => if (n <=? u_storage_reserved a)%Z then Some (move a n (- n)) else None
  | Consume n =>
      if (u_storage_used a + n <=? u_storage_quota a)%Z then Some (move a n 0) else None
  | Adjust delta =>
      if (delta <? 0)%Z then Some (a <| u_storage_used := Z.max (u_storage_used a + delta) 0 |>)
      else if (u_storage_used a + delta <=? u_storage_quota a)%Z then Some (move a delta 0)
      else None
  end.

(** What an operation may still take. *)
Definition available (a : UserRow) : Z :=
  u_storage_quota a - u_storage_used a - u_storage_reserved a.

(** An operation that takes space needs it available; what is released or committed must
    have been reserved; used bytes never fall below zero. *)
Definition spec (o : op) (a : UserRow) : option UserRow :=
  if (amount o =? 0)%Z then Some a else
  match o with
  | Reserve n => if (n <=? available a)%Z then Some (move a 0 n) else None
  | Release n => if (n <=? u_storage_reserved a)%Z then Some (move a 0 (- n)) else None
  | CommitRes n => if (n <=? u_storage_reserved a)%Z then Some (move a n (- n)) else None
  | Consume n => if (n <=? available a)%Z then Some (move a n 0) else None
  | Adjust delta =>
      if (delta <? 0)%Z then Some (a <| u_storage_used := Z.max (u_storage_used a + delta) 0 |>)
      else if (delta <=? available a)%Z then Some (move a delta 0) else None
  end.

(** The used bytes grow into what is reserved. *)
Definition overdraws (o : op) (a : UserRow) : bool :=
  match o with
  | Consume n | Adjust n =>
      ((0 <? n) && (available a <? n) && (n <=? u_storage_quota a - u_storage_used a))%Z
  | _ => false
  end.

(** The service call that performs an operation. *)
Definition run (o : op) (user : Z) : M Database (Result unit) :=
  match o with
  | Reserve n => ReserveStorage user n
  | Release n => ReleaseReservedStorageChecked user n
  | CommitRes n => CommitReservedToUsed user n
  | Consume n => ConsumeUsedStorage user n
  | Adjust delta => AdjustUsedStorageChecked user delta
  end.

(** The error the service reports when it refuses an operation. *)
Definition refusal (o : op) : ErrorInfo :=
  match o with
  | Reserve _ | Consume _ => err StorageQuotaExceeded
  | Release _ => mkErrorInfo InternalError "Failed to release reserved quota"
  | CommitRes _ => mkErrorInfo InternalError "Failed to transfer reserved quota to used"
  | Adjust delta =>
      if (0 <? delta)%Z then err StorageQuotaExceeded
      else mkErrorInfo InternalError "Failed to update storage usage"
  end.

(** What the service answers. *)
Definition answer (o : op) (r : option UserRow) : Result unit :=
  match r with Some _ => Ok tt | None => Err (refusal o) end.

(** Amounts that stay clear of the bounds of BIGINT. *)
Definition sane (a : UserRow) : Prop :=
  0 <= u_storage_used a < 2 ^ 61 ∧ 0 <= u_storage_reserved a < 2 ^ 61 ∧
  0 <= u_storage_quota a < 2 ^ 61.

(** The account never promises more than the quota. *)
Definition within_quota (a : UserRow) : Prop :=
  0 <= u_storage_used a ∧ 0 <= u_storage_reserved a ∧
  u_storage_used a + u_storage_reserved a <= u_storage_quota a.

End Account.

Definition put_account (user : Z) (a : UserRow) (d : Database) : Database :=
  d <| users := <[user := a]> (users d) |>.

(** ** Lemmas *)

Lemma update_user_Some user guard set d rows d' :
  update_user user guard set d = Some (rows, d') →
  (rows = 0 ∧ d' = d)%Z ∨
  ∃ u u', users d !! user = Some u ∧ guard u = Some true ∧ set u = Some u' ∧
    rows = 1%Z ∧ d' = put_account user u' d.
Proof.
  unfold update_user. destruct (users d !! user) as [u|] eqn:Hu; [|naive_solver].
  destruct (guard u) as [[]|] eqn:Hg; simpl; [|naive_solver|done].
  destruct (set u) as [u'|] eqn:Hs; simpl; [|done]. intros [= <- <-]. right. eauto 10.
Qed.

#[export] Instance tx_body_guarded_update rej fl q : TxBody (guarded_update rej fl q).
Proof. unfold guarded_update. solve_tx_body. Qed.

#[export] Instance tx_body_account o user : TxBody (Account.run o user).
Proof. destruct o; simpl; unfold ReserveStorage, ReleaseReservedStorageChecked,
  CommitReservedToUsed, ConsumeUsedStorage, AdjustUsedStorageChecked; solve_tx_body. Qed.

Lemma runs_guarded_update rej fl q snap s s' :
  runs (guarded_update rej fl q) snap s (Ok tt) s' ↔
  ∃ rows, q s = Some (rows, s') ∧ rows ≠ 0%Z.
Proof.
  unfold guarded_update. rewrite runs_catch_db, runs_bind by solve_tx_body.
  setoid_rewrite runs_exec. setoid_rewrite runs_ret. unfold affected_or. split.
  - intros (rows & t & Hq & Hr & ->). exists rows. case_match; case_bools; naive_solver.
  - intros (rows & Hq & Hr). exists rows, s'. split; [done|]. split; [|done].
    case_match; case_bools; naive_solver.
Qed.

(** The statement of an operation and the errors of its call, for an operation
    that moves at least one byte. *)
Ltac unfold_account :=
  unfold ReserveStorage, ReleaseReservedStorageChecked, CommitReservedToUsed,
    ConsumeUsedStorage, AdjustUsedStorageChecked, bigint_add, bigint_sub.

Lemma UserRow_ext u u' :
  u_storage_quota u = u_storage_quota u' → u_storage_used u = u_storage_used u' →
  u_storage_reserved u = u_storage_reserved u' → u = u'.
Proof. destruct u, u'; cbn. by intros -> -> ->. Qed.

Lemma put_account_eq user u u' s : u = u' →
  Some (1%Z, s <| users := <[user := u]> (users s) |>) = Some (1%Z, put_account user u' s).
Proof. by intros ->. Qed.

(** A successful operation inside a transaction applies the account operation
    to the user's row and to nothing else. *)
Lemma runs_account o user snap s s' :
  runs (Account.run o user) snap s (Ok tt) s' →
  (Account.amount o = 0%Z ∧ s' = s) ∨
  ∃ u u', users s !! user = Some u ∧ Account.apply o u = Some u' ∧
    s' = put_account user u' s.
Proof.
  assert (∀ g st rej fl, runs (guarded_update rej fl (update_user user g st)) snap s (Ok tt) s' →
    ∃ u u', users s !! user = Some u ∧ g u = Some true ∧ st u = Some u' ∧
      s' = put_account user u' s) as Hgu.
  { intros g st rej fl (rows & [[-> ->]|(u & u' & Hu & Hg & Hs & -> & ->)]%update_user_Some & Hr)
      %runs_guarded_update; [done|]. eauto 10. }
  unfold Account.apply.
  destruct o as [n|n|n|n|n]; simpl; unfold_account;
    (destruct (n =? 0)%Z eqn:Hn; [intros [_ ->]%runs_ret; left; case_bools; subst; done|]).
  5: destruct (0 <? n)%Z eqn:Hpos.
  all: intros (u & u' & Hu & Hg & Hs & ->)%Hgu; clear Hgu; right; exists u, u';
    split; [done|]; split; [|done];
    repeat match goal with
    | H : _ ≫= _ = Some _ |- _ => apply bind_Some in H as (? & [-> ?]%bigint_Some & H)
    end; simplify_eq/=; rewrite ?Hg; case_bools.
  1-4: f_equal; apply UserRow_ext; cbn; lia.
  - rewrite (proj2 (Z.eqb_neq (Z.abs n) 0)) by lia.
    rewrite (proj2 (Z.ltb_ge n 0)) by lia.
    f_equal. apply UserRow_ext; cbn; lia.
  - rewrite (proj2 (Z.eqb_neq (Z.abs n) 0)) by lia.
    by rewrite (proj2 (Z.ltb_lt n 0)) by lia.
Qed.

(** The statement of an operation that moves at least one byte is the account
    operation on the user's row, as long as no sum leaves BIGINT. *)
Lemma account_statement o user s u :
  users s !! user = Some u → Account.sane u → (0 < Account.amount o < 2 ^ 61)%Z →
  ∃ fl q, Account.run o user = guarded_update (Account.refusal o) fl q ∧
    q s = Some (match Account.apply o u with
                | Some u' => (1%Z, put_account user u' s)
                | None => (0%Z, s)
                end).
Proof.
  intros Hu (Hused & Hres & Hquota) Hn.
  assert (∀ z, (- 2 ^ 62 <= z < 2 ^ 63)%Z → bigint z = Some z) as Hb.
  { intros z Hz. apply bigint_Some. lia. }
  unfold Account.apply. rewrite (proj2 (Z.eqb_neq _ 0)) by lia.
  destruct o as [n|n|n|n|n]; cbn in *; unfold_account.
  1-4: rewrite (proj2 (Z.eqb_neq n 0)) by lia; eexists _, _; (split; [reflexivity|]);
    unfold update_user; rewrite Hu; cbn; repeat (rewrite Hb by lia; cbn);
    destruct (_ <=? _)%Z eqn:Hc; rewrite ?Hc; case_bools; try done; repeat (rewrite Hb by lia; cbn);
    apply put_account_eq, UserRow_ext; cbn; lia.
  rewrite (proj2 (Z.eqb_neq n 0)) by lia.
  destruct (0 <? n)%Z eqn:Hpos; case_bools.
  - rewrite (proj2 (Z.ltb_ge n 0)) by lia. eexists _, _; (split; [reflexivity|]);
    unfold update_user; rewrite Hu; cbn; repeat (rewrite Hb by lia; cbn);
    destruct (_ <=? _)%Z eqn:Hc; rewrite ?Hc; case_bools; try done;
    apply put_account_eq, UserRow_ext; cbn; lia.
  - rewrite (proj2 (Z.ltb_lt n 0)) by lia. eexists _, _; (split; [reflexivity|]);
    unfold update_user; rewrite Hu; cbn; by repeat (rewrite Hb by lia; cbn).
Qed.

(** What a guarded update does under any schedule. *)
Lemma guarded_update_any rej fl q s sch cs rows t : q (arrive sch s) = Some (rows, t) →
  ∃ ans st, guarded_update rej fl q (mkEnv s sch AutoCommit cs) =
              (Ret ans, mkEnv st (tail sch) AutoCommit cs) ∧
    ((ans = affected_or rej rows ∧ st = t) ∨
     (ans = Err fl ∧ (st = arrive sch s ∨ st = t))).
Proof.
  intros Hq. unfold guarded_update, catch_db, catch, mbind, M_bind, exec, next_step.
  destruct sch as [|[g []] sch]; cbn in *; rewrite ?Hq; cbn; eexists _, _;
    (split; [reflexivity|]); naive_solver.
Qed.

(** The same without faults, in whatever transaction state. *)
Lemma guarded_update_works rej fl q s rows t st cs :
  (∀ snap, st ≠ InTx snap true) → q s = Some (rows, t) →
  guarded_update rej fl q (mkEnv s [] st cs) = (Ret (affected_or rej rows), mkEnv t [] st cs).
Proof.
  intros Hst Hq. unfold guarded_update, catch_db, catch, mbind, M_bind, exec, next_step.
  cbn. rewrite Hq. destruct st as [|snap []]; [done| |done]. by destruct (Hst snap).
Qed.

Definition account_effect (o : Account.op) (user : Z) (u : UserRow) (s : Database) : Database :=
  match Account.apply o u with Some u' => put_account user u' s | None => s end.

Lemma account_run_works o user s u st cs :
  (∀ snap, st ≠ InTx snap true) →
  users s !! user = Some u → Account.sane u → (0 < Account.amount o < 2 ^ 61)%Z →
  Account.run o user (mkEnv s [] st cs) =
    (Ret (Account.answer o (Account.apply o u)), mkEnv (account_effect o user u s) [] st cs).
Proof.
  intros Hst Hu Hs Hn. destruct (account_statement o user s u Hu Hs Hn) as (fl & q & -> & Hq).
  unfold account_effect. destruct (Account.apply o u) as [u'|];
    by rewrite (guarded_update_works _ _ _ _ _ _ st) by done.
Qed.

Lemma put_account_lookup user u d i v :
  users (put_account user u d) !! i = Some v →
  (i = user ∧ v = u) ∨ (i ≠ user ∧ users d !! i = Some v).
Proof. cbn. destruct (decide (i = user)) as [->|];
  [rewrite lookup_insert_eq | rewrite lookup_insert_ne by done]; naive_solver. Qed.

(** A guarded update preserves what its statement preserves. *)
Lemma preserves_guarded_update (I : Database → Prop) rej fl q :
  (∀ s rows s', I s → q s = Some (rows, s') → I s') →
  Preserves I (guarded_update rej fl q).
Proof.
  intros Hq. unfold guarded_update. apply preserves_catch_db; [|apply _].
  apply preserves_bind; [by apply preserves_exec|apply _].
Qed.

Lemma preserves_account_update (P : UserRow → Prop) user guard set rej fl :
  (∀ u u', P u → guard u = Some true → set u = Some u' → P u') →
  Preserves (λ d, ∀ i u, users d !! i = Some u → P u)
    (guarded_update rej fl (update_user user guard set)).
Proof.
  intros HP. apply preserves_guarded_update.
  intros s rows s' HI [[-> ->]|(u & u' & Hu & Hg & Hs & -> & ->)]%update_user_Some; [done|].
  intros i v [[-> ->]|[_ Hv]]%put_account_lookup; eauto.
Qed.

(** Every account keeps its promise. *)
Definition accounts_within_quota (d : Database) : Prop :=
  ∀ i u, users d !! i = Some u → Account.within_quota u.

(** A history of quota operations, each with its user. *)
Fixpoint run_history (l : list (Account.op * Z)) : M Database unit :=
  match l with
  | [] => mret tt
  | (o, user) :: l => _ ← Account.run o user; run_history l
  end.

(** The operations of an upload with chunks: reserve, then release or commit. *)
Definition reservation_op (o : Account.op) : bool :=
  match o with
  | Account.Reserve n | Account.Release n | Account.CommitRes n => (0 <=? n)%Z
  | _ => false
  end.

Lemma preserves_reservation_op o user :
  reservation_op o = true → Preserves accounts_within_quota (Account.run o user).
Proof.
  destruct o as [n|n|n|n|n]; simpl; intros Hn; case_bools; try done; unfold_account;
    (case_match; [apply _|]); apply preserves_account_update; unfold Account.within_quota;
    intros u u' (? & ? & ?) Hg Hs;
    repeat match goal with
    | H : _ ≫= _ = Some _ |- _ => apply bind_Some in H as (? & [-> ?]%bigint_Some & H)
    end; simplify_eq/=; case_bools; cbn; lia.
Qed.

(** ** Properties *)

(** The statements and the documentation. *)
Lemma account_apply_spec o u : (0 < Account.amount o)%Z → (0 <= u_storage_reserved u)%Z →
  Account.apply o u =
    if Account.overdraws o u then Some (Account.move u (Account.amount o) 0) else Account.spec o u.
Proof.
  intros Hn Hr. unfold Account.apply, Account.spec, Account.overdraws, Account.available.
  rewrite (proj2 (Z.eqb_neq _ 0)) by lia. destruct o as [n|n|n|n|n]; cbn [Account.amount] in *;
    repeat case_match; case_bools; try done; try lia.
  all: rewrite ?Z.abs_eq by lia; done.
Qed.

(** C24: the quota service implements the documented account, but for one deviation.  The
    documentation gives an operation that takes space what the quota leaves after the used and
    the reserved bytes.  For a user whose three totals are at least 0 and below 2^61 and an
    amount of at least one byte and below 2^61: each operation, run as one auto-committed
    statement, answers and updates the user's row exactly as [Account.spec] says, except that
    a charge of used bytes which the reservations leave no room for, but the quota alone does,
    is refused by the documentation and carried out by the service.  When the database fails
    the row is either untouched or updated that way, and success is reported only when it was.
    The row is the one the statement finds, after whatever other sessions did. *)
Theorem quota_refines_account o user s sch cs u :
  users (arrive sch s) !! user = Some u → Account.sane u →
  (0 < Account.amount o < 2 ^ 61)%Z →
  let s0 := arrive sch s in
  let specified := if Account.overdraws o u then Some (Account.move u (Account.amount o) 0)
                   else Account.spec o u in
  let s1 := match specified with Some u' => put_account user u' s0 | None => s0 end in
  (Account.overdraws o u = true → Account.spec o u = None) ∧
  Account.run o user (mkEnv s0 [] AutoCommit cs) =
    (Ret (Account.answer o specified), mkEnv s1 [] AutoCommit cs) ∧
  ∃ ans st, Account.run o user (mkEnv s sch AutoCommit cs) =
      (Ret ans, mkEnv st (tail sch) AutoCommit cs) ∧ (st = s0 ∨ st = s1) ∧
    (is_ok ans = true → specified ≠ None ∧ st = s1).
Proof.
  intros Hu Hs Hn s0 specified s1. split.
  { unfold Account.overdraws, Account.spec. rewrite (proj2 (Z.eqb_neq _ 0)) by lia.
    destruct o; try done; intros; case_bools; repeat case_match; case_bools; (done || lia). }
  assert (Account.apply o u = specified) as Happ by (apply account_apply_spec; [lia | apply Hs]).
  unfold s1. rewrite <- Happ. change (match Account.apply o u with Some u' => put_account user u' s0
    | None => s0 end) with (account_effect o user u s0).
  split; [by apply account_run_works|].
  destruct (account_statement o user s0 u Hu Hs Hn) as (fl & q & -> & Hq).
  unfold account_effect. destruct (Account.apply o u) as [u'|];
    destruct (guarded_update_any (Account.refusal o) fl q s sch cs _ _ Hq)
      as (ans & st & -> & [[-> ->]|[-> Hc]]); naive_solver.
Qed.

Lemma quota_refines_account_witness :
  let s := put_account 7 (mkUserRow 100 20 10) (empty_db 0) in
  Account.run (Account.Reserve 60) 7 (mkEnv s [] AutoCommit []) =
    (Ret (Ok tt), mkEnv (put_account 7 (mkUserRow 100 20 70) s) [] AutoCommit []).
Proof.
  intros s.
  destruct (quota_refines_account (Account.Reserve 60) 7 s [] [] (mkUserRow 100 20 10))
    as (_ & H & _); [reflexivity|by vm_compute|by vm_compute|exact H].
Defined.

(** Over any history of reservations, releases and commits, whatever the
    database does to the connection and as long as other sessions keep the same
    promise, no account comes to use and promise more
    than its quota. *)
Lemma reservations_keep_quota l user e :
  Forall (λ ou, reservation_op ou.1 = true) l →
  tx e = AutoCommit → accounts_within_quota (db e) →
  stable accounts_within_quota (schedule e) →
  accounts_within_quota (db (run_history l e).2) ∧
  ∀ u, users (db (run_history l e).2) !! user = Some u →
    u_storage_used u <= u_storage_quota u.
Proof.
  intros Hl Ht He Hsch.
  assert (Preserves accounts_within_quota (run_history l)) as Hp.
  { induction Hl as [|[o i] l Ho _ IH]; cbn; [apply _|].
    apply preserves_bind; [by apply preserves_reservation_op | done]. }
  destruct (Hp e Ht He Hsch) as (_ & Hd & _). split; [done|].
  intros u Hu. destruct (Hd _ _ Hu) as (? & ? & ?). lia.
Qed.

Lemma reservations_keep_quota_witness :
  let e := mkEnv (put_account 7 (mkUserRow 100 20 0) (empty_db 0))
             [alone Works; alone LostReply] AutoCommit [] in
  let l := [(Account.Reserve 60, 7); (Account.CommitRes 50, 7); (Account.Release 10, 7)]%Z in
  users (db (run_history l e).2) !! 7 = Some (mkUserRow 100 70 0) ∧
  accounts_within_quota (db (run_history l e).2).
Proof.
  intros e l. split; [reflexivity|]. apply (reservations_keep_quota l 7 e).
  - by repeat constructor.
  - reflexivity.
  - intros i u [[-> ->]|[_ Hu]]%put_account_lookup; [by vm_compute|].
    cbn in Hu. by rewrite lookup_empty in Hu.
  - constructor; [by intros ?|]. constructor; [by intros ?|constructor].
Defined.

(** The instant-upload charge [ConsumeUsedStorage] tests the quota against
    the used bytes alone.  An account whose free space is reserved for a running
    upload accepts it, and the later commit of the reservation, which is not
    refused, leaves the account using more than its quota. *)
Lemma consume_ignores_reservations s user u n :
  users s !! user = Some u → Account.sane u → (0 < n < 2 ^ 60)%Z →
  (0 < u_storage_reserved u)%Z →
  (u_storage_used u + n <= u_storage_quota u < u_storage_used u + n + u_storage_reserved u)%Z →
  let history := [(Account.Consume n, user); (Account.CommitRes (u_storage_reserved u), user)] in
  let s' := db (run_history history (mkEnv s [] AutoCommit [])).2 in
  ∃ u', users s' !! user = Some u' ∧ (u_storage_quota u' < u_storage_used u')%Z.
Proof.
  intros Hu Hs Hn Hpos Hq history s'. pose proof Hs as (Hus & Hre & Hqu).
  set (u1 := Account.move u n 0). set (u2 := Account.move u1 (u_storage_reserved u) (- u_storage_reserved u)).
  assert (Account.apply (Account.Consume n) u = Some u1) as H1.
  { unfold Account.apply, Account.amount.
    by rewrite (proj2 (Z.eqb_neq n 0)), (proj2 (Z.leb_le _ _)) by lia. }
  assert (Account.apply (Account.CommitRes (u_storage_reserved u)) u1 = Some u2) as H2.
  { unfold Account.apply, Account.amount.
    by rewrite (proj2 (Z.eqb_neq _ 0)), (proj2 (Z.leb_le _ _)) by (cbn; lia). }
  exists u2. split; [|cbn; lia].
  unfold s', history. cbn [run_history]. unfold mbind at 1, M_bind.
  rewrite (account_run_works _ _ _ u) by (done || cbn; lia).
  unfold account_effect. rewrite H1. unfold mbind at 1, M_bind.
  rewrite (account_run_works _ _ _ u1).
  - unfold account_effect. rewrite H2. cbn. by rewrite lookup_insert_eq.
  - done.
  - cbn. by rewrite lookup_insert_eq.
  - unfold Account.sane. cbn. lia.
  - cbn. lia.
Qed.

Lemma consume_ignores_reservations_witness :
  ∃ u', users (db (run_history [(Account.Consume 100, 7); (Account.CommitRes 60, 7)]%Z
          (mkEnv (put_account 7 (mkUserRow 100 0 60) (empty_db 0)) [] AutoCommit [])).2) !! 7 = Some u' ∧
    (u_storage_quota u' < u_storage_used u')%Z.
Proof.
  apply (consume_ignores_reservations (put_account 7 (mkUserRow 100 0 60) (empty_db 0)) 7
    (mkUserRow 100 0 60) 100); [reflexivity | by vm_compute | lia | by vm_compute | by vm_compute].
Defined.
