(* ===== verification/UploadTasks.v ===== *)
(** * The upload task repository

    [src/src/services/UploadTaskRepository.cpp]: the SQL statements on
    [upload_tasks] and [upload_task_chunks], each a pure statement (its effect on
    the tables) and the repository method that executes it.  The compare-and-set
    statements carry the finalize lease: owner, deadline and [state_version]. *)

From S2P Require Import Prelude Errors Storage Db UploadState Json Schema.

Local Open Scope string_scope.

(** ** Data *)

Record UploadTaskCleanupRecord := mkUploadTaskCleanupRecord {
  cr_id : string;
  cr_user_id : Z;
  cr_reserved_bytes : Z;
  cr_staging_session : UploadStagingSession
}.

(** [CancelledUploadTaskRecord] and [ExpiredUploadTransitionRecord] are this pair. *)
Record TransitionRecord := mkTransitionRecord {
  tr_cleanup : UploadTaskCleanupRecord;
  tr_state_version : Z
}.

Record UploadTaskCancellationState := mkUploadTaskCancellationState {
  cs_status : Z;
  cs_state_version : Z;
  cs_task_expired : bool
}.

Inductive FinalizeClaimDisposition :=
  | Acquired
  | IncompleteChunks
  | LeaseHeld
  | CompletedReplay
  | Terminal
  | NotFound.

Record FinalizeClaimResult := mkFinalizeClaimResult {
  fc_disposition : FinalizeClaimDisposition;
  fc_state_version : Z;
  fc_completed_file_id : option Z
}.

Inductive ChunkRecordDisposition :=
  | Accepted
  | TaskRejected
  | MetadataConflict.

(** The fields of [UploadTasks] that [Create] stores. *)
Record NewUploadTask := mkNewUploadTask {
  nt_id : string;
  nt_user_id : Z;
  nt_folder_id : Z;
  nt_filename : string;
  nt_file_size : Z;
  nt_file_hash : string;
  nt_chunk_size : Z;
  nt_total_chunks : Z;
  nt_reserved_bytes : Z;
  nt_temp_path : string;
  nt_status : Z
}.

Definition kMaxLeaseOwnerLength : Z := 128.

Definition ValidateLeaseArguments (lease_owner : string) (lease_duration_seconds : Z)
  : M Database unit :=
  if str_empty lease_owner || (kMaxLeaseOwnerLength <? strlen lease_owner)%Z then
    raise (InvalidArgument "Finalize lease owner must contain 1 to 128 characters")
  else if (lease_duration_seconds =? 0)%Z then
    raise (InvalidArgument "Finalize lease duration must be positive")
  else mret tt.

(** ** Statements *)

(** [UPDATE upload_tasks SET ... WHERE id = id AND guard RETURNING *]. *)
Definition update_task (id : string) (guard : UploadTaskRow → bool)
    (set : UploadTaskRow → option UploadTaskRow) (d : Database)
  : option (option UploadTaskRow * Database) :=
  match upload_tasks d !! id with
  | None => Some (None, d)
  | Some t =>
      if guard t then
        t' ← set t;
        if check_upload_task t'
        then Some (Some t', d <| upload_tasks := <[id := t']> (upload_tasks d) |>)
        else None
      else Some (None, d)
  end.

(** [NOW() + (n::integer * INTERVAL '1 second')]. *)
Definition now_plus (n : Z) (d : Database) : Z := (now d + seconds (i32 n))%Z.

Definition is_status (st : UploadTaskStatus) (t : UploadTaskRow) : bool :=
  (t_status t =? UploadToStorageValue st)%Z.

Definition next_version (t : UploadTaskRow) : option Z := bigint (t_state_version t + 1).

(** The indices of the recorded chunks of a task, in order. *)
Definition chunk_rows (id : string) (d : Database) : list ((string * Z) * ChunkRow) :=
  select_rows (λ k _, k.1 =? id) (λ a b, a.1.2 <=? b.1.2)%Z (upload_task_chunks d).

Definition chunk_indices (id : string) (d : Database) : list Z :=
  (λ kv, kv.1.2) <$> chunk_rows id d.

(** [COUNT( * ) = n AND COALESCE(MAX(chunk_index), -1) = n - 1]. *)
Definition chunks_complete (id : string) (n : Z) (d : Database) : bool :=
  (Z.of_nat (length (chunk_indices id d)) =? n)%Z &&
  (foldr Z.max (-1) (chunk_indices id d) =? n - 1)%Z.

Definition claim_statement (upload_id : string) (user_id : Z) (lease_owner : string)
    (lease_duration_seconds : Z) (d : Database) : option (option UploadTaskRow * Database) :=
  update_task upload_id
    (λ t, (t_user_id t =? user_id)%Z &&
      ((is_status InProgress t && (now d <=? t_expires_at t)%Z &&
        chunks_complete upload_id (t_total_chunks t) d) ||
       (is_status Finalizing t && ts_le (t_lease_expires_at t) (now d))))
    (λ t, v ← next_version t; n ← int4 (t_finalize_attempts t + 1);
      Some (t <| t_status := UploadToStorageValue Finalizing |>
              <| t_lease_owner := Some lease_owner |>
              <| t_lease_expires_at := Some (now_plus lease_duration_seconds d) |>
              <| t_state_version := v |>
              <| t_finalize_attempts := n |>
              <| t_last_error_code := None |>
              <| t_last_error_at := None |>)) d.

(** The lease guard of the statements a finalizer runs. *)
Definition lease_owned (user_id : Z) (lease_owner : string) (expected_state_version : Z)
    (now : Z) (t : UploadTaskRow) : bool :=
  (t_user_id t =? user_id)%Z && is_status Finalizing t &&
  opt_eqb (t_lease_owner t) lease_owner &&
  (t_state_version t =? expected_state_version)%Z && ts_gt (t_lease_expires_at t) now.

Definition renew_statement (upload_id : string) (user_id : Z) (lease_owner : string)
    (expected_state_version lease_duration_seconds : Z) (d : Database)
  : option (option UploadTaskRow * Database) :=
  update_task upload_id (lease_owned user_id lease_owner expected_state_version (now d))
    (λ t, v ← next_version t;
      Some (t <| t_lease_expires_at := Some (now_plus lease_duration_seconds d) |>
              <| t_state_version := v |>)) d.

Definition complete_statement (upload_id : string) (user_id : Z) (lease_owner : string)
    (expected_state_version completed_file_id : Z) (d : Database)
  : option (option UploadTaskRow * Database) :=
  update_task upload_id (lease_owned user_id lease_owner expected_state_version (now d))
    (λ t, v ← next_version t;
      Some (t <| t_status := UploadToStorageValue Completed |>
              <| t_completed_file_id := Some completed_file_id |>
              <| t_finalized_at := Some (now d) |>
              <| t_lease_owner := None |>
              <| t_lease_expires_at := None |>
              <| t_state_version := v |>)) d.

Definition record_error_statement (upload_id : string) (user_id : Z) (lease_owner : string)
    (expected_state_version error_code : Z) (d : Database)
  : option (option UploadTaskRow * Database) :=
  update_task upload_id (lease_owned user_id lease_owner expected_state_version (now d))
    (λ t, Some (t <| t_last_error_code := Some error_code |>
                  <| t_last_error_at := Some (now d) |>)) d.

Definition finish_unclaimed (st : UploadTaskStatus) (fail_reason : string) (d : Database)
    (t : UploadTaskRow) : option UploadTaskRow :=
  v ← next_version t;
  Some (t <| t_status := UploadToStorageValue st |>
          <| t_finalized_at := Some (now d) |>
          <| t_fail_reason := Some fail_reason |>
          <| t_state_version := v |>).

Definition cancel_statement (upload_id : string) (user_id : Z) (fail_reason : string)
    (d : Database) : option (option UploadTaskRow * Database) :=
  update_task upload_id
    (λ t, (t_user_id t =? user_id)%Z && is_status InProgress t && (now d <=? t_expires_at t)%Z)
    (finish_unclaimed Cancelled fail_reason d) d.

Definition expire_statement (upload_id : string) (fail_reason : string) (d : Database)
  : option (option UploadTaskRow * Database) :=
  update_task upload_id (λ t, is_status InProgress t && (t_expires_at t <? now d)%Z)
    (finish_unclaimed Expired fail_reason d) d.

(** [NULLIF(s, '')]. *)
Definition nullif_empty (s : string) : option string := if str_empty s then None else Some s.

(** [COALESCE(x, y)] of two nullable columns. *)
Definition coalesce {A} (x y : option A) : option A :=
  match x with Some _ => x | None => y end.

(** [x IS NULL OR x = y], where [y] may be null. *)
Definition null_or_eq {A} `{EqDecision A} (x y : option A) : bool :=
  match x, y with
  | None, _ => true
  | Some x, Some y => bool_decide (x = y)
  | Some _, None => false
  end.

Definition is_lower_hex (c : Ascii.ascii) : bool :=
  let n := Z.of_nat (Ascii.nat_of_ascii c) in
  ((48 <=? n) && (n <=? 57) || (97 <=? n) && (n <=? 102))%Z.

(** The length of a nullable [VARCHAR(n)]. *)
Definition varchar_or_null (n : Z) (s : option string) : bool :=
  match s with Some s => varchar n s | None => true end.

(** The [CHECK] constraints of [upload_task_chunks] and the lengths of its texts. *)
Definition check_chunk (chunk_index : Z) (k : ChunkRow) : bool :=
  (0 <=? chunk_index)%Z &&
  match k_size_bytes k with Some n => (0 <? n)%Z | None => true end &&
  match k_hash_md5 k with
  | Some h => (strlen h =? 32)%Z && forallb is_lower_hex (String.list_ascii_of_string h)
  | None => true
  end &&
  varchar_or_null 1024 (k_object_key k) && varchar_or_null 256 (k_etag k).

(** Whether the recorded descriptor [k] agrees with the reported one [x]. *)
Definition chunk_compatible (k x : ChunkRow) : bool :=
  null_or_eq (k_size_bytes k) (k_size_bytes x) &&
  null_or_eq (k_hash_md5 k) (k_hash_md5 x) &&
  null_or_eq (k_object_key k) (k_object_key x) &&
  match k_etag x with None => true | Some _ => null_or_eq (k_etag k) (k_etag x) end.

Definition chunk_merge (k x : ChunkRow) : ChunkRow :=
  k <| k_size_bytes ::= λ v, coalesce v (k_size_bytes x) |>
    <| k_hash_md5 ::= λ v, coalesce v (k_hash_md5 x) |>
    <| k_object_key ::= λ v, coalesce v (k_object_key x) |>
    <| k_etag ::= λ v, coalesce v (k_etag x) |>.

Definition put_chunk (upload_id : string) (i : Z) (k : ChunkRow) (d : Database) : Database :=
  d <| upload_task_chunks := <[(upload_id, i) := k]> (upload_task_chunks d) |>.

(** The statement answers [(task_eligible, chunk_compatible)]. *)
Definition record_chunk_statement (upload_id : string) (user_id chunk_index : Z) (x : ChunkRow)
    (d : Database) : option ((bool * bool) * Database) :=
  match upload_tasks d !! upload_id with
  | Some t =>
      if (t_user_id t =? user_id)%Z && is_status InProgress t && (now d <=? t_expires_at t)%Z then
        match upload_task_chunks d !! (upload_id, chunk_index) with
        | None =>
            if check_chunk chunk_index x
            then Some ((true, true), put_chunk upload_id chunk_index x d)
            else None
        | Some k =>
            if negb (check_chunk chunk_index x) then None
            else if chunk_compatible k x
            then Some ((true, true), put_chunk upload_id chunk_index (chunk_merge k x) d)
            else Some ((true, false), d)
        end
      else Some ((false, false), d)
  | None => Some ((false, false), d)
  end.

Definition delete_chunks_statement (upload_id : string) (d : Database)
  : option (unit * Database) :=
  Some (tt, d <| upload_task_chunks :=
                   filter (λ kv, kv.1.1 ≠ upload_id) (upload_task_chunks d) |>).

(** The lengths of the text columns a new task fills. *)
Definition task_texts_fit (id : string) (t : UploadTaskRow) : bool :=
  varchar 64 id && varchar 255 (t_filename t) && varchar 32 (t_file_hash t) &&
  varchar 512 (t_temp_path t) && varchar_or_null 1024 (t_staging_prefix t).

Definition create_statement (task : NewUploadTask) (session : UploadStagingSession)
    (expiry_seconds : Z) (d : Database) : option (UploadTaskRow * Database) :=
  match upload_tasks d !! nt_id task, users d !! nt_user_id task with
  | None, Some _ =>
      let t := mkUploadTaskRow (nt_user_id task) (nt_folder_id task) (nt_filename task)
        (nt_file_size task) (nt_file_hash task) (nt_chunk_size task) (nt_total_chunks task)
        (nt_reserved_bytes task) (nt_temp_path task)
        (BackendToStorageValue (ss_backend session)) (Some (ss_prefix session))
        (nt_status task) 0 None None 0 None None None (now_plus expiry_seconds d) None None
        (now d) in
      if check_upload_task t && task_texts_fit (nt_id task) t
      then Some (t, d <| upload_tasks := <[nt_id task := t]> (upload_tasks d) |>)
      else None
  | _, _ => None
  end.

(** ** Methods *)

(** [COALESCE(staging_prefix, temp_path)]. *)
Definition staging_prefix_of (t : UploadTaskRow) : string :=
  default (t_temp_path t) (t_staging_prefix t).

Definition ToUploadTaskCleanupRecord (id : string) (t : UploadTaskRow)
  : M Database UploadTaskCleanupRecord :=
  match ParseUploadStagingBackend (t_staging_backend t) with
  | None => raise (RuntimeError "Upload task contains an unsupported staging backend")
  | Some backend =>
      mret (mkUploadTaskCleanupRecord id (t_user_id t) (t_reserved_bytes t)
              (mkUploadStagingSession id backend (staging_prefix_of t)))
  end.

Definition FindByIdForUser (upload_id : string) (user_id : Z)
  : M Database (option UploadTaskRow) :=
  catch_db
    (query (λ d : Database, t ← upload_tasks d !! upload_id;
                 if (t_user_id t =? user_id)%Z then Some t else None))
    (mret None).

Definition FindUnexpiredByIdForUser (upload_id : string) (user_id : Z)
  : M Database (option UploadTaskRow) :=
  query (λ d : Database, t ← upload_tasks d !! upload_id;
              if (t_user_id t =? user_id)%Z && (now d <=? t_expires_at t)%Z
              then Some t else None).

Definition active_task (user_id : Z) (file_hash : string) (t : UploadTaskRow) : bool :=
  (t_user_id t =? user_id)%Z && (t_file_hash t =? file_hash) &&
  (is_status InProgress t || is_status Finalizing t).

Definition FindActiveByUserAndHash (user_id : Z) (file_hash : string)
  : M Database (option (string * UploadTaskRow)) :=
  query (λ d : Database, head (select_rows (λ _, active_task user_id file_hash)
    (λ a b, lex_leb (t_created_at a.2) (t_created_at b.2) (String.leb a.1 b.1))
    (upload_tasks d))).

(** The advisory lock orders concurrent initializations; it changes no table. *)
Definition AcquireUploadInitLock (user_id : Z) (file_hash : string) : M Database unit :=
  query (λ _, tt).

Definition Create (task : NewUploadTask) (staging_session : UploadStagingSession)
    (expiry_seconds : Z) : M Database UploadTaskRow :=
  if negb (ss_upload_id staging_session =? nt_id task) then
    raise (InvalidArgument "Staging session upload ID must match upload task ID")
  else if str_empty (ss_prefix staging_session) then
    raise (InvalidArgument "Staging session prefix must not be empty")
  else exec (create_statement task staging_session expiry_seconds).

Definition FindStagingSessionForUser (upload_id : string) (user_id : Z)
  : M Database (option UploadStagingSession) :=
  r ← query (λ d : Database, t ← upload_tasks d !! upload_id;
                  if (t_user_id t =? user_id)%Z then Some t else None);
  match r with
  | None => mret None
  | Some t =>
      match ParseUploadStagingBackend (t_staging_backend t) with
      | None => raise (RuntimeError "Upload task contains an unsupported staging backend")
      | Some backend => mret (Some (mkUploadStagingSession upload_id backend (staging_prefix_of t)))
      end
  end.

(** The task, whether its lease and whether the task itself has expired. *)
Definition current_statement (upload_id : string) (user_id : Z) (d : Database)
  : option (UploadTaskRow * bool * bool) :=
  t ← upload_tasks d !! upload_id;
  if (t_user_id t =? user_id)%Z
  then Some (t, ts_le (t_lease_expires_at t) (now d), (t_expires_at t <? now d)%Z)
  else None.

Definition ClaimFinalizeLease (upload_id : string) (user_id : Z) (lease_owner : string)
    (lease_duration_seconds : Z) : M Database FinalizeClaimResult :=
  _ ← ValidateLeaseArguments lease_owner lease_duration_seconds;
  claimed ← exec (claim_statement upload_id user_id lease_owner lease_duration_seconds);
  match claimed with
  | Some t => mret (mkFinalizeClaimResult Acquired (t_state_version t) None)
  | None =>
      current ← query (current_statement upload_id user_id);
      match (current : option (UploadTaskRow * bool * bool)) with
      | None => mret (mkFinalizeClaimResult NotFound 0 None)
      | Some (t, lease_expired, task_expired) =>
          let disposition :=
            match DecideFinalizeRequest (t_status t) lease_expired with
            | ClaimLease => if task_expired then Terminal else IncompleteChunks
            | TakeOverExpiredLease | RetryLater => LeaseHeld
            | ReplayCompleted => CompletedReplay
            | RejectTerminalFinalize => Terminal
            end in
          mret (mkFinalizeClaimResult disposition (t_state_version t) (t_completed_file_id t))
      end
  end.

Definition RenewFinalizeLease (upload_id : string) (user_id : Z) (lease_owner : string)
    (expected_state_version lease_duration_seconds : Z) : M Database (option Z) :=
  _ ← ValidateLeaseArguments lease_owner lease_duration_seconds;
  r ← exec (renew_statement upload_id user_id lease_owner expected_state_version
              lease_duration_seconds);
  mret (t_state_version <$> r).

Definition affected (r : option UploadTaskRow) : bool :=
  match r with Some _ => true | None => false end.

Definition MarkCompletedIfLeaseOwned (upload_id : string) (user_id : Z) (lease_owner : string)
    (expected_state_version completed_file_id : Z) : M Database bool :=
  r ← exec (complete_statement upload_id user_id lease_owner expected_state_version
              completed_file_id);
  mret (affected r).

Definition RecordFinalizeErrorIfLeaseOwned (upload_id : string) (user_id : Z)
    (lease_owner : string) (expected_state_version error_code : Z) : M Database bool :=
  r ← exec (record_error_statement upload_id user_id lease_owner expected_state_version
              error_code);
  mret (affected r).

Definition transition_record (upload_id : string) (r : option UploadTaskRow)
  : M Database (option TransitionRecord) :=
  match r with
  | None => mret None
  | Some t =>
      cleanup ← ToUploadTaskCleanupRecord upload_id t;
      mret (Some (mkTransitionRecord cleanup (t_state_version t)))
  end.

Definition MarkCancelledIfInProgressReturning (upload_id : string) (user_id : Z)
    (fail_reason : string) : M Database (option TransitionRecord) :=
  r ← exec (cancel_statement upload_id user_id fail_reason);
  transition_record upload_id r.

Definition FindCancellationStateByIdForUser (upload_id : string) (user_id : Z)
  : M Database (option UploadTaskCancellationState) :=
  query (λ d : Database, t ← upload_tasks d !! upload_id;
    if (t_user_id t =? user_id)%Z
    then Some (mkUploadTaskCancellationState (t_status t) (t_state_version t)
                 (t_expires_at t <? now d)%Z)
    else None).

Definition MarkExpiredIfInProgressReturning (upload_id : string) (fail_reason : string)
  : M Database (option TransitionRecord) :=
  r ← exec (expire_statement upload_id fail_reason);
  transition_record upload_id r.

Definition RecordChunkIfInProgress (upload_id : string) (user_id chunk_index size_bytes : Z)
    (hash_md5 object_key etag : string) : M Database ChunkRecordDisposition :=
  r ← exec (λ d, record_chunk_statement upload_id user_id (i32 chunk_index)
    (mkChunkRow (Some (i64 size_bytes)) (Some hash_md5) (nullif_empty object_key)
       (nullif_empty etag) (now d)) d);
  mret (if negb r.1 then TaskRejected else if negb r.2 then MetadataConflict else Accepted).

Definition ListChunksForAssembly (upload_id : string) : M Database (list UploadStagingChunk) :=
  query (λ d : Database,
    (λ kv, mkUploadStagingChunk (u32 kv.1.2) (default 0%Z (k_size_bytes kv.2))
             (default "" (k_hash_md5 kv.2)) (default "" (k_object_key kv.2))
             (default "" (k_etag kv.2))) <$> chunk_rows upload_id d).

Definition ListUploadedChunkIndices (upload_id : string) : M Database (list Z) :=
  query (λ d : Database, u32 <$> chunk_indices upload_id d).

Definition DeleteChunks (upload_id : string) : M Database unit :=
  exec (delete_chunks_statement upload_id).

(** Evaluates a fallible conversion on each row, as the loop of the code does. *)
Fixpoint map_rows {A B} (f : A → M Database B) (l : list A) : M Database (list B) :=
  match l with
  | [] => mret []
  | x :: l => y ← f x; ys ← map_rows f l; mret (y :: ys)
  end.

Definition FindExpiredInProgressBatch (limit : Z)
  : M Database (list UploadTaskCleanupRecord) :=
  rows ← query (λ d : Database, take (Z.to_nat limit)
    (select_rows (λ _ t, is_status InProgress t && (t_expires_at t <? now d)%Z)
      (λ a b, lex_leb (t_expires_at a.2) (t_expires_at b.2) (String.leb a.1 b.1))
      (upload_tasks d)));
  map_rows (λ kv, ToUploadTaskCleanupRecord kv.1 kv.2) rows.

(** ** Histories

    The statements any number of servers issue on the two tables, and the clock:
    one step of the shared database. *)
Inductive task_statement :=
  | SCreate (task : NewUploadTask) (session : UploadStagingSession) (expiry_seconds : Z)
  | SClaim (upload_id : string) (user_id : Z) (lease_owner : string) (duration : Z)
  | SRenew (upload_id : string) (user_id : Z) (lease_owner : string) (version duration : Z)
  | SComplete (upload_id : string) (user_id : Z) (lease_owner : string) (version file_id : Z)
  | SRecordError (upload_id : string) (user_id : Z) (lease_owner : string)
      (version error_code : Z)
  | SCancel (upload_id : string) (user_id : Z) (fail_reason : string)
  | SExpire (upload_id : string) (fail_reason : string)
  | SRecordChunk (upload_id : string) (user_id chunk_index : Z) (x : ChunkRow)
  | SDeleteChunks (upload_id : string).

(** The statement executed, its answer forgotten. *)
Definition execute (st : task_statement) (d : Database) : option Database :=
  match st with
  | SCreate task session n => snd <$> create_statement task session n d
  | SClaim id u o n => snd <$> claim_statement id u o n d
  | SRenew id u o v n => snd <$> renew_statement id u o v n d
  | SComplete id u o v f => snd <$> complete_statement id u o v f d
  | SRecordError id u o v c => snd <$> record_error_statement id u o v c d
  | SCancel id u r => snd <$> cancel_statement id u r d
  | SExpire id r => snd <$> expire_statement id r d
  | SRecordChunk id u i x => snd <$> record_chunk_statement id u i x d
  | SDeleteChunks id => snd <$> delete_chunks_statement id d
  end.

Inductive task_step (d : Database) : Database → Prop :=
  | StepStatement st d' : execute st d = Some d' → task_step d d'
  | StepClock t : now d <= t → task_step d (d <| now := t |>).

(** Columns no statement changes after the task was created. *)
Definition same_identity (t t' : UploadTaskRow) : Prop :=
  t_user_id t' = t_user_id t ∧ t_folder_id t' = t_folder_id t ∧
  t_filename t' = t_filename t ∧ t_file_size t' = t_file_size t ∧
  t_file_hash t' = t_file_hash t ∧ t_chunk_size t' = t_chunk_size t ∧
  t_total_chunks t' = t_total_chunks t ∧ t_reserved_bytes t' = t_reserved_bytes t ∧
  t_staging_backend t' = t_staging_backend t ∧ staging_prefix_of t' = staging_prefix_of t ∧
  t_expires_at t' = t_expires_at t ∧ t_created_at t' = t_created_at t.

(** The columns [state_version] protects. *)
Definition same_state (t t' : UploadTaskRow) : Prop :=
  t_state_version t' = t_state_version t ∧ t_status t' = t_status t ∧
  t_lease_owner t' = t_lease_owner t ∧ t_lease_expires_at t' = t_lease_expires_at t ∧
  t_finalize_attempts t' = t_finalize_attempts t ∧
  t_completed_file_id t' = t_completed_file_id t ∧ t_finalized_at t' = t_finalized_at t ∧
  t_fail_reason t' = t_fail_reason t.

(** What a step does to one task. *)
Inductive evolves (t t' : UploadTaskRow) : Prop :=
  | EvStay : same_state t t' → evolves t t'
  | EvMove st st' :
      t_status t = UploadToStorageValue st → t_status t' = UploadToStorageValue st' →
      transition st st' → t_state_version t' = (t_state_version t + 1)%Z → evolves t t'.

(** ** Lemmas *)

Definition put_task (id : string) (t : UploadTaskRow) (d : Database) : Database :=
  d <| upload_tasks := <[id := t]> (upload_tasks d) |>.

Lemma update_task_Some id guard set d r d' :
  update_task id guard set d = Some (r, d') →
  (r = None ∧ d' = d) ∨
  ∃ t t', upload_tasks d !! id = Some t ∧ guard t = true ∧ set t = Some t' ∧
    check_upload_task t' = true ∧ r = Some t' ∧ d' = put_task id t' d.
Proof.
  unfold update_task. destruct (upload_tasks d !! id) as [t|] eqn:Ht; [|naive_solver].
  destruct (guard t) eqn:Hg; [|naive_solver].
  destruct (set t) as [t'|] eqn:Hs; simpl; [|done].
  destruct (check_upload_task t') eqn:Hc; [|done]. intros [= <- <-]. right. eauto 10.
Qed.

Lemma put_task_lookup id t d i :
  upload_tasks (put_task id t d) !! i = if decide (i = id) then Some t else upload_tasks d !! i.
Proof. cbn. case_decide; [subst; apply lookup_insert_eq | by rewrite lookup_insert_ne]. Qed.

Lemma is_status_true st t : is_status st t = true ↔ t_status t = UploadToStorageValue st.
Proof. apply Z.eqb_eq. Qed.

Lemma same_state_refl t : same_state t t.
Proof. by repeat split. Qed.

#[global] Instance same_state_trans : Transitive same_state.
Proof. intros x y z (?&?&?&?&?&?&?&?) (?&?&?&?&?&?&?&?). repeat split; congruence. Qed.

#[global] Instance same_identity_trans : Transitive same_identity.
Proof.
  intros x y z (?&?&?&?&?&?&?&?&?&?&?&?) (?&?&?&?&?&?&?&?&?&?&?&?). repeat split; congruence.
Qed.

Lemma lease_owned_true u o v n t :
  lease_owned u o v n t = true ↔
  t_user_id t = u ∧ t_status t = UploadToStorageValue Finalizing ∧ t_lease_owner t = Some o ∧
  t_state_version t = v ∧ ts_gt (t_lease_expires_at t) n = true.
Proof.
  unfold lease_owned, opt_eqb. rewrite !andb_true_iff, is_status_true, !Z.eqb_eq,
    bool_decide_eq_true. tauto.
Qed.

Ltac inv_set :=
  cbv beta in *;
  repeat match goal with
  | H : _ ≫= _ = Some _ |- _ => apply bind_Some in H as (? & ? & H)
  | H : next_version _ = Some _ |- _ => apply bigint_Some in H as [-> ?]
  | H : int4 _ = Some _ |- _ => apply int4_Some in H as [-> ?]
  end; simplify_eq/=.

(** An update of the repository moves its row along the state machine. *)
Definition sound_update (guard : UploadTaskRow → bool)
    (set : UploadTaskRow → option UploadTaskRow) : Prop :=
  ∀ t t', guard t = true → set t = Some t' → same_identity t t' ∧ evolves t t'.

Lemma sound_update_evolves id guard set d r d' i t :
  sound_update guard set → update_task id guard set d = Some (r, d') →
  upload_tasks d !! i = Some t →
  ∃ t', upload_tasks d' !! i = Some t' ∧ same_identity t t' ∧ evolves t t'.
Proof.
  intros Hsound [[_ ->]|(t0 & t' & Ht0 & Hg & Hs & _ & _ & ->)]%update_task_Some Ht.
  - exists t. split; [done|]. split; [by repeat split|]. apply EvStay, same_state_refl.
  - rewrite put_task_lookup. case_decide; subst.
    + simplify_eq. exists t'. split; [done|]. by apply Hsound.
    + exists t. split; [done|]. split; [by repeat split|]. apply EvStay, same_state_refl.
Qed.

Lemma sound_claim u o n id d : sound_update
  (λ t, (t_user_id t =? u)%Z &&
      ((is_status InProgress t && (now d <=? t_expires_at t)%Z &&
        chunks_complete id (t_total_chunks t) d) ||
       (is_status Finalizing t && ts_le (t_lease_expires_at t) (now d))))
  (λ t, v ← next_version t; k ← int4 (t_finalize_attempts t + 1);
      Some (t <| t_status := UploadToStorageValue Finalizing |>
              <| t_lease_owner := Some o |>
              <| t_lease_expires_at := Some (now_plus n d) |>
              <| t_state_version := v |>
              <| t_finalize_attempts := k |>
              <| t_last_error_code := None |>
              <| t_last_error_at := None |>)).
Proof.
  intros t t' Hg Hs. inv_set. split; [by repeat split|].
  apply andb_true_iff in Hg as [_ [Hg|Hg]%orb_true_iff];
    rewrite !andb_true_iff, is_status_true in Hg.
  - apply (EvMove _ _ InProgress Finalizing); [apply Hg|done|constructor|done].
  - apply (EvMove _ _ Finalizing Finalizing); [apply Hg|done|constructor|done].
Qed.

Lemma sound_lease_owned u o v n set :
  (∀ t t', t_status t = UploadToStorageValue Finalizing → set t = Some t' →
     same_identity t t' ∧ evolves t t') →
  sound_update (lease_owned u o v n) set.
Proof. intros Hset t t' (_ & Ht & _)%lease_owned_true. by apply Hset. Qed.

Lemma sound_finish st reason d guard :
  transition InProgress st →
  (∀ t, guard t = true → t_status t = UploadToStorageValue InProgress) →
  sound_update guard (finish_unclaimed st reason d).
Proof.
  intros Htr Hg t t' Ht%Hg Hs. unfold finish_unclaimed in Hs. inv_set.
  split; [by repeat split|].
  by apply (EvMove _ _ InProgress st).
Qed.

(** One step keeps every task, its identity, and moves its state along the state
    machine, counting the move in [state_version]. *)
Lemma task_step_evolves d d' i t :
  task_step d d' → upload_tasks d !! i = Some t →
  ∃ t', upload_tasks d' !! i = Some t' ∧ same_identity t t' ∧ evolves t t'.
Proof.
  assert (∀ t, same_identity t t ∧ evolves t t) as Hrefl.
  { intros t0. split; [by repeat split|]. apply EvStay, same_state_refl. }
  destruct 1 as [st d' He|n Hn]; intros Ht; [|by exists t].
  destruct st; unfold execute in He; apply fmap_Some in He as ([r d1] & He & ->);
    cbn [snd].
  - unfold create_statement in He. destruct (upload_tasks d !! nt_id task) eqn:Hid; [done|].
    repeat case_match; simplify_eq/=. exists t. rewrite lookup_insert_ne; [done|congruence].
  - eapply sound_update_evolves; [apply sound_claim|exact He|done].
  - eapply sound_update_evolves; [apply sound_lease_owned|exact He|done].
    intros ? ? ? Hs. inv_set. split; [by repeat split|].
    by apply (EvMove _ _ Finalizing Finalizing); [..|constructor|].
  - eapply sound_update_evolves; [apply sound_lease_owned|exact He|done].
    intros ? ? ? Hs. inv_set. split; [by repeat split|].
    by apply (EvMove _ _ Finalizing Completed); [..|constructor|].
  - eapply sound_update_evolves; [apply sound_lease_owned|exact He|done].
    intros ? ? ? Hs. inv_set. split; [by repeat split|]. by apply EvStay.
  - eapply sound_update_evolves; [|exact He|done]. apply sound_finish; [constructor|].
    intros t0 Hg. case_bools. by apply is_status_true.
  - eapply sound_update_evolves; [|exact He|done]. apply sound_finish; [constructor|].
    intros t0 Hg. case_bools. by apply is_status_true.
  - exists t. split; [|done]. unfold record_chunk_statement in He.
    by repeat case_match; simplify_eq/=.
  - unfold delete_chunks_statement in He. simplify_eq/=. by exists t.
Qed.

Lemma task_steps_evolve (d d' : Database) i t :
  rtc task_step d d' → upload_tasks d !! i = Some t →
  ∃ t', upload_tasks d' !! i = Some t' ∧ same_identity t t' ∧
    (t_state_version t <= t_state_version t')%Z ∧
    (t_state_version t' = t_state_version t → same_state t t') ∧
    (∀ st, t_status t = UploadToStorageValue st → ∃ st', t_status t' = UploadToStorageValue st' ∧
       rtc transition st st' ∧ (IsTerminalStatus st = true → same_state t t')).
Proof.
  intros Hr. revert t. induction Hr as [d|d d1 d2 Hs Hr IH]; intros t Ht.
  - exists t. pose proof (same_state_refl t). split_and!; [done|by repeat split|lia|done|].
    intros st ?. by exists st.
  - destruct (task_step_evolves _ _ _ _ Hs Ht) as (t1 & Ht1 & Hi1 & He1).
    destruct (IH t1 Ht1) as (t2 & Ht2 & Hi2 & Hv2 & Hsame & Hst).
    exists t2. split; [done|]. split; [by etrans|].
    destruct He1 as [He|st0 st1 Hst0 Hst1 Htr Hv].
    + pose proof He as (Hv & Hstatus & _). split_and!; [lia| |].
      * intros Heq. etrans; [done|]. apply Hsame. lia.
      * intros st Hst'. destruct (Hst st) as (st' & ? & ? & Hterm); [congruence|].
        exists st'. split_and!; [done..|]. intros. etrans; [done|]. by apply Hterm.
    + split_and!; [lia|lia|]. intros st Hst'.
      rewrite Hst0 in Hst'. apply UploadToStorageValue_inj in Hst' as <-.
      destruct (Hst st1 Hst1) as (st' & ? & ? & _). exists st'. split_and!; [done| |].
      * by econstructor.
      * rewrite (transition_not_terminal _ _ Htr). done.
Qed.

(** The [CHECK] constraints as a proposition. *)
Lemma check_upload_task_true t :
  check_upload_task t = true ↔
  (0 <= t_status t <= 5)%Z ∧ (t_staging_backend t = "local" ∨ t_staging_backend t = "s3") ∧
  (0 <= t_reserved_bytes t)%Z ∧ (0 <= t_state_version t)%Z ∧ (0 <= t_finalize_attempts t)%Z ∧
  (t_staging_backend t = "s3" → t_staging_prefix t ≠ None) ∧
  (t_status t = 4%Z → t_lease_owner t ≠ None ∧ t_lease_expires_at t ≠ None) ∧
  (t_status t ≠ 4%Z → t_lease_owner t = None ∧ t_lease_expires_at t = None) ∧
  (t_completed_file_id t ≠ None → t_status t = 1%Z).
Proof.
  unfold check_upload_task. rewrite !andb_true_iff, !orb_true_iff, negb_true_iff, !Z.leb_le,
    !String.eqb_eq, String.eqb_neq.
  destruct (Z.eqb_spec (t_status t) 4) as [E|E], (t_lease_owner t), (t_lease_expires_at t),
    (t_staging_prefix t), (t_completed_file_id t); rewrite ?Z.eqb_eq; 
    (split; [intros ((((((((?&?)&?)&?)&?)&?)&Hp)&?)&?) | intros (?&?&?&?&?&Hp&Hl&Hn&Hc)]);
    try done;
    repeat match goal with
    | H : _ = _ → _ ∧ _ |- _ => destruct H; [done|]
    | H : _ ≠ _ → _ ∧ _ |- _ => destruct H; [done|]
    end; split_and?; try done; try lia; try naive_solver;
    try (destruct (decide (t_staging_backend t = "s3")); naive_solver).
Qed.

Lemma update_task_skip id guard set d :
  (∀ t, upload_tasks d !! id = Some t → guard t = false) →
  update_task id guard set d = Some (None, d).
Proof. intros Hg. unfold update_task. case_match; [|done]. by rewrite (Hg _ eq_refl). Qed.

(** A statement with a version older than the task's does nothing. *)
Lemma lease_owned_stale id u o v set d t :
  upload_tasks d !! id = Some t → (v < t_state_version t)%Z →
  update_task id (lease_owned u o v (now d)) set d = Some (None, d).
Proof.
  intros Ht Hv. apply update_task_skip. intros t' Ht'. simplify_eq.
  apply not_true_iff_false. rewrite lease_owned_true. lia.
Qed.

Lemma claim_statement_Some id u o n d t' d' :
  claim_statement id u o n d = Some (Some t', d') →
  ∃ t, upload_tasks d !! id = Some t ∧ t_user_id t = u ∧ d' = put_task id t' d ∧
    t_state_version t' = (t_state_version t + 1)%Z ∧
    t_status t' = UploadToStorageValue Finalizing ∧ t_lease_owner t' = Some o ∧
    t_lease_expires_at t' = Some (now_plus n d) ∧
    ((t_status t = UploadToStorageValue InProgress ∧ (now d <= t_expires_at t)%Z ∧
      chunks_complete id (t_total_chunks t) d = true) ∨
     (t_status t = UploadToStorageValue Finalizing ∧
      ts_le (t_lease_expires_at t) (now d) = true)).
Proof.
  intros [[[=] _]|(t & t0 & Ht & Hg & Hs & _ & [= ->] & ->)]%update_task_Some.
  exists t. inv_set. split_and!; try done.
  - case_bools. done.
  - apply andb_true_iff in Hg as [_ [Hg|Hg]%orb_true_iff];
      rewrite !andb_true_iff, ?Z.leb_le, is_status_true in Hg; tauto.
Qed.

Lemma chunk_indices_elem id i d :
  i ∈ chunk_indices id d ↔ is_Some (upload_task_chunks d !! (id, i)).
Proof.
  unfold chunk_indices, chunk_rows. rewrite list_elem_of_fmap. split.
  - intros ([[id' i'] k] & -> & Hk). apply elem_of_select_rows in Hk as [Hk Hid].
    case_bools. cbn in *. subst. eauto.
  - intros [k Hk]. exists ((id, i), k). split; [done|]. apply elem_of_select_rows.
    by rewrite String.eqb_refl.
Qed.

Lemma chunk_indices_NoDup id d : NoDup (chunk_indices id d).
Proof.
  unfold chunk_indices, chunk_rows. apply NoDup_fmap_2_strong; [|apply select_rows_NoDup].
  intros [[id1 i1] k1] [[id2 i2] k2] [H1 E1]%elem_of_select_rows
    [H2 E2]%elem_of_select_rows [= ->]. case_bools. cbn in *. subst. by simplify_eq.
Qed.

Lemma chunk_indices_sorted id d : Sorted Z.le (chunk_indices id d).
Proof.
  unfold chunk_indices, chunk_rows, select_rows. apply Sorted_fmap_rel, order_by_sorted.
  - intros x y. apply Z.leb_le.
  - intros x y Hxy. case_bools. lia.
Qed.

(** The constraint [ck_upload_task_chunks_index]. *)
Definition chunk_indices_valid (d : Database) : Prop :=
  ∀ id i k, upload_task_chunks d !! (id, i) = Some k → check_chunk i k = true.

Lemma chunks_complete_indices id n d :
  chunk_indices_valid d → chunks_complete id n d = true → chunk_indices id d = seqZ 0 n.
Proof.
  intros Hv Hc. unfold chunks_complete in Hc. case_bools. apply initial_segment; [..|done|done].
  - apply chunk_indices_NoDup.
  - apply chunk_indices_sorted.
  - apply Forall_forall. intros i [k Hk]%chunk_indices_elem. specialize (Hv _ _ _ Hk).
    unfold check_chunk in Hv. by case_bools.
Qed.

(** The specification of a claim: its disposition from the row, the clock and the
    recorded chunks. *)
Definition claim_spec (id : string) (user_id : Z) (d : Database) : FinalizeClaimDisposition :=
  match upload_tasks d !! id with
  | None => NotFound
  | Some t =>
      if negb (t_user_id t =? user_id)%Z then NotFound else
      match UploadTaskStatusFromStorage (t_status t) with
      | Some InProgress =>
          if (t_expires_at t <? now d)%Z then Terminal
          else if chunks_complete id (t_total_chunks t) d then Acquired else IncompleteChunks
      | Some Finalizing => if ts_le (t_lease_expires_at t) (now d) then Acquired else LeaseHeld
      | Some Completed => CompletedReplay
      | _ => Terminal
      end
  end.

Definition valid_lease_args (lease_owner : string) (duration : Z) : Prop :=
  lease_owner ≠ "" ∧ (strlen lease_owner <= kMaxLeaseOwnerLength)%Z ∧ (duration ≠ 0)%Z.

(** Counters that can still be incremented. *)
Definition counters_room (t : UploadTaskRow) : Prop :=
  (t_state_version t < 2 ^ 63 - 1)%Z ∧ (t_finalize_attempts t < 2 ^ 31 - 1)%Z.

Lemma ValidateLeaseArguments_valid o n e :
  valid_lease_args o n → ValidateLeaseArguments o n e = (Ret tt, e).
Proof.
  intros (Ho & Hl & Hn). unfold ValidateLeaseArguments.
  destruct o; [done|]. simpl str_empty. rewrite (proj2 (Z.ltb_ge _ _)) by done.
  rewrite (proj2 (Z.eqb_neq _ _)) by done. done.
Qed.

Lemma update_task_total id guard set d t t' :
  upload_tasks d !! id = Some t →
  (guard t = true → set t = Some t' ∧ check_upload_task t' = true) →
  update_task id guard set d =
    Some (if guard t then (Some t', put_task id t' d) else (None, d)).
Proof.
  intros Ht Hg. unfold update_task. rewrite Ht. destruct (guard t); [|done].
  destruct (Hg eq_refl) as [-> Hc]. simpl. by rewrite Hc.
Qed.

Definition claim_guard (id : string) (u : Z) (d : Database) (t : UploadTaskRow) : bool :=
  (t_user_id t =? u)%Z &&
  ((is_status InProgress t && (now d <=? t_expires_at t)%Z &&
    chunks_complete id (t_total_chunks t) d) ||
   (is_status Finalizing t && ts_le (t_lease_expires_at t) (now d))).

Lemma claim_guard_spec id u d t :
  upload_tasks d !! id = Some t → claim_guard id u d t = true ↔ claim_spec id u d = Acquired.
Proof.
  intros Ht. unfold claim_spec, claim_guard, is_status. rewrite Ht.
  destruct (t_user_id t =? u)%Z; simpl; [|done].
  destruct (UploadTaskStatusFromStorage (t_status t)) as [st|] eqn:Hst.
  - apply from_storage_Some in Hst. rewrite Hst, Z.ltb_antisym.
    by destruct st, (now d <=? t_expires_at t)%Z, (chunks_complete id (t_total_chunks t) d),
      (ts_le (t_lease_expires_at t) (now d)).
  - rewrite orb_true_iff, !andb_true_iff, !Z.eqb_eq. split; [|done].
    by intros [[[Hs _] _]|[Hs _]]; rewrite Hs in Hst.
Qed.

(** The update a claim makes violates no constraint. *)
Lemma claim_update_valid o n d t :
  check_upload_task t = true → counters_room t →
  t_status t = UploadToStorageValue InProgress ∨ t_status t = UploadToStorageValue Finalizing →
  ∃ t', (v ← next_version t; k ← int4 (t_finalize_attempts t + 1);
         Some (t <| t_status := UploadToStorageValue Finalizing |>
                 <| t_lease_owner := Some o |>
                 <| t_lease_expires_at := Some (now_plus n d) |>
                 <| t_state_version := v |>
                 <| t_finalize_attempts := k |>
                 <| t_last_error_code := None |>
                 <| t_last_error_at := None |>)) = Some t' ∧ check_upload_task t' = true.
Proof.
  intros (? & ? & ? & ? & ? & ? & _ & _ & Hcf)%check_upload_task_true [Hv Ha] Hst.
  unfold next_version. rewrite bigint_ok, int4_ok by lia. simpl. eexists. split; [done|].
  apply check_upload_task_true. cbn. split_and!; try done; try lia.
  intros Hne%Hcf. rewrite Hne in Hst. by destruct Hst.
Qed.

Lemma claim_statement_total id u o n d :
  (∀ t, upload_tasks d !! id = Some t → check_upload_task t = true ∧ counters_room t) →
  ∃ r d', claim_statement id u o n d = Some (r, d') ∧
    (affected r = true ↔ claim_spec id u d = Acquired) ∧ (affected r = false → d' = d).
Proof.
  intros Hd. destruct (upload_tasks d !! id) as [t|] eqn:Ht.
  - destruct (Hd t eq_refl) as [Hc Hroom].
    pose proof (claim_guard_spec id u d t Ht) as Hg.
    destruct (claim_guard id u d t) eqn:Hguard.
    + assert (t_status t = UploadToStorageValue InProgress ∨
        t_status t = UploadToStorageValue Finalizing) as Hst.
      { unfold claim_guard in Hguard. rewrite andb_true_iff, orb_true_iff, !andb_true_iff,
          !is_status_true in Hguard. tauto. }
      destruct (claim_update_valid o n d t Hc Hroom Hst) as (t' & Hset & Hc').
      exists (Some t'), (put_task id t' d). split; [|naive_solver].
      unfold claim_statement. rewrite (update_task_total _ _ _ _ _ _ Ht (λ _, conj Hset Hc')).
      unfold claim_guard in Hguard. by rewrite Hguard.
    + exists None, d. split; [|naive_solver]. apply update_task_skip. intros t0 Ht0.
      rewrite Ht in Ht0. by simplify_eq.
  - exists None, d. unfold claim_statement, claim_spec. rewrite update_task_skip by congruence.
    by rewrite Ht.
Qed.

(** ** Chunk records *)

Lemma put_chunk_twice id i k k' d : put_chunk id i k (put_chunk id i k' d) = put_chunk id i k d.
Proof. unfold put_chunk. cbn. by rewrite insert_insert_eq. Qed.

Lemma put_chunk_lookup id i k d : upload_task_chunks (put_chunk id i k d) !! (id, i) = Some k.
Proof. apply lookup_insert_eq. Qed.

Lemma null_or_eq_true {A} `{EqDecision A} (x y : option A) :
  null_or_eq x y = true ↔ x = None ∨ (x = y ∧ y ≠ None).
Proof.
  destruct x, y; simpl; rewrite ?bool_decide_eq_true; naive_solver.
Qed.

(** A merged descriptor agrees with the report it was merged with, and merging
    that report again changes nothing. *)
Lemma chunk_merge_compatible k x :
  chunk_compatible k x = true →
  chunk_compatible (chunk_merge k x) x = true ∧ chunk_merge (chunk_merge k x) x = chunk_merge k x ∧
  (is_Some (k_size_bytes x) → k_size_bytes (chunk_merge k x) = k_size_bytes x) ∧
  (is_Some (k_hash_md5 x) → k_hash_md5 (chunk_merge k x) = k_hash_md5 x).
Proof.
  destruct k as [s1 h1 o1 e1 u1], x as [s2 h2 o2 e2 u2]. unfold chunk_compatible, chunk_merge. cbn.
  destruct s1, s2, h1, h2, o1, o2, e1, e2; cbn; rewrite ?andb_true_r; intros Hc; case_bools;
    try discriminate; subst; rewrite ?bool_decide_eq_true_2 by done; split_and!; try done;
    naive_solver.
Qed.

Lemma chunk_self_compatible x : chunk_compatible x x = true ∧ chunk_merge x x = x.
Proof.
  destruct x as [[] [] [] [] ?]; unfold chunk_compatible; cbn;
    by rewrite ?bool_decide_eq_true_2 by done.
Qed.

Definition chunk_accepting (id : string) (u : Z) (d : Database) : bool :=
  match upload_tasks d !! id with
  | Some t => (t_user_id t =? u)%Z && is_status InProgress t && (now d <=? t_expires_at t)%Z
  | None => false
  end.

Lemma record_chunk_on_recorded id u i x k d :
  chunk_accepting id u d = true → upload_task_chunks d !! (id, i) = Some k →
  check_chunk i x = true →
  record_chunk_statement id u i x d =
    Some (if chunk_compatible k x then ((true, true), put_chunk id i (chunk_merge k x) d)
          else ((true, false), d)).
Proof.
  unfold chunk_accepting, record_chunk_statement. destruct (upload_tasks d !! id); [|done].
  intros -> -> ->. simpl. by case_match.
Qed.

(** After an accepted record the descriptor [k] is stored, and a repetition of the
    same report finds nothing left to change. *)
Lemma record_chunk_accepted id u i x d d1 :
  record_chunk_statement id u i x d = Some ((true, true), d1) →
  ∃ k, d1 = put_chunk id i k d ∧ check_chunk i x = true ∧ chunk_accepting id u d = true ∧
    chunk_compatible k x = true ∧ chunk_merge k x = k ∧
    (is_Some (k_size_bytes x) → k_size_bytes k = k_size_bytes x) ∧
    (is_Some (k_hash_md5 x) → k_hash_md5 k = k_hash_md5 x).
Proof.
  unfold record_chunk_statement, chunk_accepting.
  destruct (upload_tasks d !! id) as [t|]; [|done]. destruct (_ && _ && _); [|done].
  destruct (upload_task_chunks d !! (id, i)) as [k|]; destruct (check_chunk i x); simpl; try done.
  - destruct (chunk_compatible k x) eqn:Hk; [|done]. intros [= <-].
    destruct (chunk_merge_compatible k x Hk) as (? & ? & ? & ?). by exists (chunk_merge k x).
  - intros [= <-]. destruct (chunk_self_compatible x). by exists x.
Qed.

(** ** Properties *)

(** [state_version] is a fencing token.  Over any history of statements by any
    number of servers, and clock ticks, a task is never lost or given another
    identity, its version never decreases, its status moves along the state
    machine, and as long as the version is the same nothing about its state,
    lease or result has changed.  A terminal task never changes again. *)
Lemma state_version_fences (d d' : Database) id t :
  rtc task_step d d' → upload_tasks d !! id = Some t →
  ∃ t', upload_tasks d' !! id = Some t' ∧ same_identity t t' ∧
    (t_state_version t <= t_state_version t')%Z ∧
    (t_state_version t' = t_state_version t → same_state t t') ∧
    (∀ st, UploadTaskStatusFromStorage (t_status t) = Some st →
       ∃ st', UploadTaskStatusFromStorage (t_status t') = Some st' ∧ rtc transition st st' ∧
         (IsTerminalStatus st = true → same_state t t')).
Proof.
  intros Hr Ht. destruct (task_steps_evolve _ _ _ _ Hr Ht) as (t' & ? & ? & ? & ? & Hst).
  exists t'. split_and!; [done..|]. intros st Hs%from_storage_Some.
  destruct (Hst st Hs) as (st' & ?%from_storage_Some & ? & ?). eauto.
Qed.

(** C22: a finalizer that lost its lease cannot act.  Once another server has
    claimed the task, a renewal, a completion or an error record that carries a
    version seen before that claim changes nothing, at any later time. *)
Theorem stale_finalizer_is_fenced d1 d2 d3 id u u' a b n t1 t2 v :
  upload_tasks d1 !! id = Some t1 → (v <= t_state_version t1)%Z →
  claim_statement id u' b n d1 = Some (Some t2, d2) → rtc task_step d2 d3 →
  (∀ k, renew_statement id u a v k d3 = Some (None, d3)) ∧
  (∀ file, complete_statement id u a v file d3 = Some (None, d3)) ∧
  (∀ c, record_error_statement id u a v c d3 = Some (None, d3)).
Proof.
  intros Ht1 Hv Hclaim Hr.
  destruct (claim_statement_Some _ _ _ _ _ _ _ Hclaim) as (t & Ht & _ & -> & Hv2 & _).
  simplify_eq. destruct (task_steps_evolve _ _ id t2 Hr) as (t3 & Ht3 & _ & Hv3 & _).
  { rewrite put_task_lookup. by rewrite decide_True. }
  split_and!; intros; apply (lease_owned_stale _ _ _ _ _ _ t3); (done || lia).
Qed.

(** The disposition of a finalize claim is the one the state machine, the
    deadlines and the recorded chunks prescribe; the claim violates no constraint of
    the schema, and it changes the database only when it acquires the lease. *)
Lemma claim_disposition id u o n d cs :
  valid_lease_args o n →
  (∀ t, upload_tasks d !! id = Some t → check_upload_task t = true ∧ counters_room t) →
  ∃ r d', ClaimFinalizeLease id u o n (mkEnv d [] AutoCommit cs) =
      (Ret r, mkEnv d' [] AutoCommit cs) ∧
    fc_disposition r = claim_spec id u d ∧ (fc_disposition r ≠ Acquired → d' = d).
Proof.
  intros Hargs Hd. unfold ClaimFinalizeLease.
  rewrite (bind_Ret _ _ _ _ _ (ValidateLeaseArguments_valid o n _ Hargs)).
  destruct (claim_statement_total id u o n d Hd) as (r & d' & Hq & Hacq & Hsame).
  rewrite (bind_Ret _ _ _ _ _ (exec_works _ _ _ _ cs Hq)). destruct r as [t'|].
  - eexists _, d'. split; [reflexivity|]. simpl. split; [|done]. symmetry. by apply Hacq.
  - rewrite (Hsame eq_refl) in *. clear d' Hsame Hq.
    rewrite (bind_Ret _ _ _ _ _ (query_works _ d cs)).
    unfold current_statement. revert Hacq. unfold claim_spec.
    destruct (upload_tasks d !! id) as [t|]; simpl; intros Hacq;
      [|eexists _, _; split; [reflexivity|done]].
    destruct (t_user_id t =? u)%Z; simpl in *; [|eexists _, _; split; [reflexivity|done]].
    eexists _, _. split; [reflexivity|]. split; [|done]. simpl. unfold DecideFinalizeRequest.
    destruct (UploadTaskStatusFromStorage (t_status t)) as [[]|]; try done;
      repeat (case_match; try done); naive_solver.
Qed.

(** A claim that takes an unfinished upload to finalization has every chunk:
    the list the assembler reads is indexed [0, 1, ..., total_chunks - 1], in
    order and without a repetition. *)
Lemma claim_sees_every_chunk id u o n d t t' d' :
  chunk_indices_valid d → upload_tasks d !! id = Some t →
  UploadTaskStatusFromStorage (t_status t) = Some InProgress →
  claim_statement id u o n d = Some (Some t', d') →
  chunk_indices id d' = seqZ 0 (t_total_chunks t).
Proof.
  intros Hv Ht Hst%from_storage_Some Hc.
  destruct (claim_statement_Some _ _ _ _ _ _ _ Hc)
    as (t0 & Ht0 & _ & -> & _ & _ & _ & _ & [(_ & _ & Hcomp)|[Hst' _]]); simplify_eq.
  - by apply chunks_complete_indices in Hcomp.
  - rewrite Hst in Hst'. by apply UploadToStorageValue_inj in Hst'.
Qed.

(** Recording a chunk is idempotent and write-once.  After an accepted record
    the stored descriptor has the reported size and hash; the same report again
    is accepted and changes nothing; a report of another size or hash is a
    conflict and changes nothing. *)
Lemma record_chunk_retry id u i sz h key tag d d1 cs :
  RecordChunkIfInProgress id u i sz h key tag (mkEnv d [] AutoCommit cs) =
    (Ret Accepted, mkEnv d1 [] AutoCommit cs) →
  (∃ k, upload_task_chunks d1 !! (id, i32 i) = Some k ∧
     k_size_bytes k = Some (i64 sz) ∧ k_hash_md5 k = Some h) ∧
  RecordChunkIfInProgress id u i sz h key tag (mkEnv d1 [] AutoCommit cs) =
    (Ret Accepted, mkEnv d1 [] AutoCommit cs) ∧
  (∀ sz' h' key' tag', i64 sz' ≠ i64 sz ∨ h' ≠ h →
     check_chunk (i32 i) (mkChunkRow (Some (i64 sz')) (Some h') (nullif_empty key')
       (nullif_empty tag') 0) = true →
     RecordChunkIfInProgress id u i sz' h' key' tag' (mkEnv d1 [] AutoCommit cs) =
       (Ret MetadataConflict, mkEnv d1 [] AutoCommit cs)).
Proof.
  unfold RecordChunkIfInProgress, mbind, M_bind, exec, next_step. cbn.
  set (x := mkChunkRow _ _ _ _ _).
  destruct (record_chunk_statement id u (i32 i) x d) as [[[ok compat] s]|] eqn:Hq; [|done].
  destruct ok, compat; cbn; try (intros [=]; done). intros [= <-].
  destruct (record_chunk_accepted _ _ _ _ _ _ Hq)
    as (k & -> & Hck & Hacc & Hkx & Hmerge & Hsz & Hh).
  assert (chunk_accepting id u (put_chunk id (i32 i) k d) = true) as Hacc' by done.
  pose proof (put_chunk_lookup id (i32 i) k d) as Hlook.
  assert (k_size_bytes k = Some (i64 sz)) as Hks by (by apply Hsz).
  assert (k_hash_md5 k = Some h) as Hkh by (by apply Hh).
  split_and!.
  - eauto.
  - change (now (put_chunk id (i32 i) k d)) with (now d). fold x.
    rewrite (record_chunk_on_recorded _ _ _ _ _ _ Hacc' Hlook Hck), Hkx, Hmerge. cbn.
    by rewrite put_chunk_twice.
  - intros sz' h' key' tag' Hne Hck'.
    match goal with |- context [record_chunk_statement _ _ _ ?y _] =>
      rewrite (record_chunk_on_recorded _ _ _ y _ _ Hacc' Hlook Hck') end.
    assert (∀ y, k_size_bytes y = Some (i64 sz') → k_hash_md5 y = Some h' →
      chunk_compatible k y = false) as ->; [|done..].
    intros y Hy1 Hy2. unfold chunk_compatible. rewrite Hks, Hkh, Hy1, Hy2. simpl.
    destruct Hne; [rewrite (bool_decide_eq_false_2 (i64 sz = i64 sz')) by congruence|
      rewrite (bool_decide_eq_false_2 (h = h')), andb_false_r by congruence]; done.
Qed.

(** ** Witnesses *)

Definition example_task : UploadTaskRow :=
  mkUploadTaskRow 7 0 "a.bin" 10 "5d41402abc4b2a76b9719d911017c592" 4 3 10 "up-1" "local"
    (Some "up-1") 0 0 None None 0 None None None 5000 None None 0.

Definition example_chunk (n : Z) : ChunkRow :=
  mkChunkRow (Some n) (Some "5d41402abc4b2a76b9719d911017c592") None None 50.

(** A task of three chunks, all of them recorded. *)
Definition example_db : Database :=
  (empty_db 100) <| users := {[7%Z := mkUserRow 100 0 10]} |>
    <| upload_tasks := {["up-1" := example_task]} |>
    <| upload_task_chunks := {[ ("up-1", 0%Z) := example_chunk 4; ("up-1", 1%Z) := example_chunk 4;
                                ("up-1", 2%Z) := example_chunk 2 ]} |>.

(** The database after a statement, and after the clock moved. *)
Definition after (st : task_statement) (d : Database) : Database := default d (execute st d).

(** Whether a statement updated a row. *)
Definition updated (r : option (option UploadTaskRow * Database)) : bool :=
  match r with Some (Some _, _) => true | _ => false end.

Lemma updated_true r :
  updated r = true → ∃ t d, r = Some (Some t, d).
Proof. destruct r as [[[t|] d]|]; by eauto. Qed.

Lemma after_step st d :
  match execute st d with Some _ => true | None => false end = true → task_step d (after st d).
Proof. intros H. apply (StepStatement _ st). unfold after. by destruct (execute st d). Qed.

Definition example_claimed : Database := after (SClaim "up-1" 7 "server-a" 30) example_db.

Lemma state_version_fences_witness :
  let d' := after (SCancel "up-1" 7 "cancelled") example_db in
  ∃ t', upload_tasks d' !! "up-1" = Some t' ∧ t_status t' = 2%Z ∧ t_state_version t' = 1%Z ∧
    (t_state_version example_task <= t_state_version t')%Z.
Proof.
  intros d'.
  destruct (state_version_fences example_db d' "up-1" example_task) as (t' & Ht' & _ & Hv & _).
  - apply rtc_once, after_step. by vm_compute.
  - by vm_compute.
  - exists t'. split; [done|]. vm_compute in Ht'. injection Ht' as <-. by vm_compute.
Defined.

(** Server A claims; its lease runs out; server B takes over; A comes back. *)
Lemma stale_finalizer_is_fenced_witness :
  let d1 := example_claimed <| now := 100000000%Z |> in
  ∃ t2 d2, claim_statement "up-1" 7 "server-b" 30 d1 = Some (Some t2, d2) ∧
    complete_statement "up-1" 7 "server-a" 1 99 d2 = Some (None, d2).
Proof.
  intros d1. destruct (updated_true (claim_statement "up-1" 7 "server-b" 30 d1))
    as (t2 & d2 & Hc); [by vm_compute|].
  exists t2, d2. split; [done|].
  destruct (upload_tasks d1 !! "up-1") as [t1|] eqn:Ht1; [|by vm_compute in Ht1].
  apply (stale_finalizer_is_fenced d1 d2 d2 "up-1" 7 7 "server-a" "server-b" 30 t1 t2 1);
    [done| |done|apply rtc_refl].
  clear Hc. vm_compute in Ht1. injection Ht1 as <-. by vm_compute.
Defined.

Lemma claim_disposition_witness :
  ∃ r d', ClaimFinalizeLease "up-1" 7 "server-b" 30 (mkEnv example_claimed [] AutoCommit []) =
      (Ret r, mkEnv d' [] AutoCommit []) ∧ fc_disposition r = LeaseHeld ∧ d' = example_claimed.
Proof.
  destruct (claim_disposition "up-1" 7 "server-b" 30 example_claimed [])
    as (r & d' & Hr & Hd & Hsame).
  - by vm_compute.
  - intros t Ht. vm_compute in Ht. injection Ht as <-. by vm_compute.
  - exists r, d'. split; [done|]. assert (fc_disposition r = LeaseHeld) as Hl.
    { rewrite Hd. by vm_compute. }
    split; [done|]. apply Hsame. by rewrite Hl.
Defined.

Lemma example_chunks_valid : chunk_indices_valid example_db.
Proof.
  intros id i k Hk. unfold example_db in Hk. cbn in Hk.
  apply lookup_insert_Some in Hk as [[[= <- <-] <-]|[_ Hk]]; [by vm_compute|].
  apply lookup_insert_Some in Hk as [[[= <- <-] <-]|[_ Hk]]; [by vm_compute|].
  apply lookup_singleton_Some in Hk as [[= <- <-] <-]. by vm_compute.
Qed.

Lemma claim_sees_every_chunk_witness : chunk_indices "up-1" example_claimed = [0; 1; 2]%Z.
Proof.
  destruct (updated_true (claim_statement "up-1" 7 "server-a" 30 example_db))
    as (t' & d' & Hc); [by vm_compute|].
  assert (example_claimed = d') as ->.
  { unfold example_claimed, after, execute. by rewrite Hc. }
  apply (claim_sees_every_chunk "up-1" 7 "server-a" 30 example_db example_task t' d');
    [apply example_chunks_valid|by vm_compute|by vm_compute|done].
Defined.

Lemma record_chunk_retry_witness :
  let d := example_db <| upload_task_chunks := ∅ |> in
  let report sz e := RecordChunkIfInProgress "up-1" 7 1 sz "5d41402abc4b2a76b9719d911017c592" "" "" e in
  ∃ d1, report 4%Z (mkEnv d [] AutoCommit []) = (Ret Accepted, mkEnv d1 [] AutoCommit []) ∧
    report 3%Z (mkEnv d1 [] AutoCommit []) = (Ret MetadataConflict, mkEnv d1 [] AutoCommit []).
Proof.
  intros d report.
  set (d1 := put_chunk "up-1" 1
    (mkChunkRow (Some 4%Z) (Some "5d41402abc4b2a76b9719d911017c592") None None 100) d).
  assert (report 4%Z (mkEnv d [] AutoCommit []) = (Ret Accepted, mkEnv d1 [] AutoCommit []))
    as Hr by reflexivity.
  exists d1. split; [exact Hr|].
  apply (record_chunk_retry "up-1" 7 1 4 "5d41402abc4b2a76b9719d911017c592" "" "" d d1 [] Hr);
    [by left|reflexivity].
Defined.
