(* ===== verification/StorageJobs.v ===== *)
(** * The durable storage job queue

    [src/src/services/StorageJobRepository.cpp]: jobs are deduplicated by key,
    claimed in batches under a lease, retried a bounded number of times and
    dead-lettered.  Each SQL statement is a pure statement; each method executes
    its statements through the session. *)

From S2P Require Import Prelude Errors Storage Db UploadState Json Schema.

Local Open Scope string_scope.

(** ** Data *)

(** [enum class StorageJobStatus : int16_t]. *)
Inductive StorageJobStatus := Pending | Running | Retry | Succeeded | DeadLetter.

#[global] Instance StorageJobStatus_eq_dec : EqDecision StorageJobStatus.
Proof. solve_decision. Defined.

(** [ToStorageValue(StorageJobStatus)]. *)
Definition JobToStorageValue (status : StorageJobStatus) : Z :=
  match status with
  | Pending => 0 | Running => 1 | Retry => 2 | Succeeded => 3 | DeadLetter => 4
  end.

(** [ParseStorageJobStatus(int16_t)]. *)
Definition ParseStorageJobStatus (value : Z) : option StorageJobStatus :=
  (if value =? JobToStorageValue Pending then Some Pending
   else if value =? JobToStorageValue Running then Some Running
   else if value =? JobToStorageValue Retry then Some Retry
   else if value =? JobToStorageValue Succeeded then Some Succeeded
   else if value =? JobToStorageValue DeadLetter then Some DeadLetter
   else None)%Z.

Definition StorageJobStatusName (status : StorageJobStatus) : string :=
  match status with
  | Pending => "pending"
  | Running => "running"
  | Retry => "retry"
  | Succeeded => "succeeded"
  | DeadLetter => "dead_letter"
  end.

(** [ParseStorageJobStatus(std::string_view)]: the first status with that name. *)
Definition ParseStorageJobStatusName (value : string) : option StorageJobStatus :=
  List.find (λ status, String.eqb (StorageJobStatusName status) value)
    [Pending; Running; Retry; Succeeded; DeadLetter].

Definition kStagingCleanupJobType : string := "staging_cleanup".
Definition kMultipartAbortJobType : string := "multipart_abort".
Definition kBlobGcJobType : string := "blob_gc".
Definition kExpireUploadsJobType : string := "expire_uploads".
Definition kExpireTrashJobType : string := "expire_trash".
Definition kStorageReconcileJobType : string := "storage_reconcile".

Definition IsKnownStorageJobType (value : string) : bool :=
  existsb (String.eqb value)
    [kStagingCleanupJobType; kMultipartAbortJobType; kBlobGcJobType; kExpireUploadsJobType;
     kExpireTrashJobType; kStorageReconcileJobType].

Record NewStorageJob := mkNewStorageJob {
  nj_job_type : string;
  nj_aggregate_id : string;
  nj_dedupe_key : string;
  nj_payload : json;
  nj_max_attempts : Z
}.

(** The default of [max_attempts]. *)
Definition kDefaultMaxAttempts : Z := 8.

Record StorageJob := mkStorageJob {
  sj_id : Z;
  sj_job_type : string;
  sj_aggregate_id : string;
  sj_dedupe_key : string;
  sj_payload : json;
  sj_status : StorageJobStatus;
  sj_attempts : Z;
  sj_max_attempts : Z;
  sj_locked_by : string;
  sj_lease_takeover : bool
}.

Inductive BlobGcReferenceGate := Allowed | Blocked.

Definition kMaxJobTypeLength : Z := 64.
Definition kMaxAggregateIdLength : Z := 128.
Definition kMaxDedupeKeyLength : Z := 255.
Definition kMaxInstanceIdLength : Z := 128.
Definition kMaxErrorLength : nat := 2048.
Definition kMaxClaimBatchSize : Z := 1000.

(** ** Validation *)

Definition ValidateBoundedValue (value : string) (maximum_length : Z) (field_name : string)
  : M Database unit :=
  if str_empty value || (maximum_length <? strlen value)%Z then
    raise (InvalidArgument
      (field_name ++ " must contain 1 to " ++ to_string maximum_length ++ " characters"))
  else mret tt.

Definition ValidateNewJob (job : NewStorageJob) : M Database unit :=
  _ ← ValidateBoundedValue (nj_job_type job) kMaxJobTypeLength "Storage job type";
  _ ← ValidateBoundedValue (nj_aggregate_id job) kMaxAggregateIdLength
        "Storage job aggregate ID";
  _ ← ValidateBoundedValue (nj_dedupe_key job) kMaxDedupeKeyLength "Storage job dedupe key";
  if (nj_max_attempts job =? 0)%Z
  then raise (InvalidArgument "Storage job max attempts must be positive")
  else mret tt.

Definition ValidateJobLeaseArguments (instance_id : string) (lease_duration_seconds : Z)
  : M Database unit :=
  _ ← ValidateBoundedValue instance_id kMaxInstanceIdLength "Storage job instance ID";
  if (lease_duration_seconds =? 0)%Z
  then raise (InvalidArgument "Storage job lease duration must be positive")
  else mret tt.

(** ** Statements *)

(** [NOW() + (n::integer * INTERVAL '1 second')]. *)
Definition job_deadline (n : Z) (d : Database) : Z := (now d + seconds (i32 n))%Z.

Definition put_job (id : Z) (j : JobRow) (d : Database) : Database :=
  d <| storage_jobs := <[id := j]> (storage_jobs d) |>.

(** [nextval('storage_jobs_id_seq')], drawn even when the insert conflicts. *)
Definition next_job_id (d : Database) : Database :=
  d <| storage_jobs_id_seq := (storage_jobs_id_seq d + 1)%Z |>.

Definition new_job_row (job : NewStorageJob) (d : Database) : JobRow :=
  mkJobRow (nj_job_type job) (nj_aggregate_id job) (nj_dedupe_key job) (nj_payload job)
    (JobToStorageValue Pending) 0 (i32 (nj_max_attempts job)) (now d) None None None None (now d).

(** [INSERT ... ON CONFLICT (dedupe_key) DO ... RETURNING id].  [on_conflict] is the
    update of the conflicting row, if its [WHERE] clause accepts it. *)
Definition insert_job (row : JobRow) (on_conflict : JobRow → option JobRow) (d : Database)
  : option (option Z * Database) :=
  if negb (check_storage_job row) then None
  else match find_job_by_dedupe_key (j_dedupe_key row) d with
  | None =>
      Some (Some (storage_jobs_id_seq d), next_job_id (put_job (storage_jobs_id_seq d) row d))
  | Some (id, j) =>
      match on_conflict j with
      | None => Some (None, next_job_id d)
      | Some j' =>
          if check_storage_job j' then Some (Some id, next_job_id (put_job id j' d)) else None
      end
  end.

Definition enqueue_statement (job : NewStorageJob) (d : Database)
  : option (option Z * Database) :=
  insert_job (new_job_row job d) (λ _, None) d.

(** The [DO UPDATE SET] of a succeeded job of the same aggregate. *)
Definition rearm (row j : JobRow) : option JobRow :=
  if (j_status j =? JobToStorageValue Succeeded)%Z && (j_job_type j =? j_job_type row) &&
     (j_aggregate_id j =? j_aggregate_id row)
  then Some (row <| j_created_at := j_created_at j |>) else None.

Definition rearm_statement (job : NewStorageJob) (d : Database)
  : option (option Z * Database) :=
  insert_job (new_job_row job d) (rearm (new_job_row job d)) d.

(** [UPDATE storage_jobs SET ... WHERE guard] over the whole table. *)
Definition update_jobs (guard : JobRow → bool) (set : JobRow → JobRow) (d : Database)
  : option (unit * Database) :=
  let table := (λ j, if guard j then set j else j) <$> storage_jobs d in
  if exists_row (λ _ j, guard j && negb (check_storage_job (set j))) (storage_jobs d)
  then None else Some (tt, d <| storage_jobs := table |>).

(** [UPDATE storage_jobs SET ... WHERE id = id AND guard RETURNING *]. *)
Definition update_job (id : Z) (guard : JobRow → bool) (set : JobRow → option JobRow)
    (d : Database) : option (option JobRow * Database) :=
  match storage_jobs d !! id with
  | None => Some (None, d)
  | Some j =>
      if guard j then
        j' ← set j;
        if check_storage_job j' then Some (Some j', put_job id j' d) else None
      else Some (None, d)
  end.

Definition job_is (status : StorageJobStatus) (j : JobRow) : bool :=
  (j_status j =? JobToStorageValue status)%Z.

Definition exhausted (now : Z) (j : JobRow) : bool :=
  (j_max_attempts j <=? j_attempts j)%Z &&
  (job_is Pending j || job_is Retry j || (job_is Running j && ts_le (j_locked_until j) now)).

Definition bury (j : JobRow) : JobRow :=
  j <| j_status := JobToStorageValue DeadLetter |> <| j_locked_by := None |>
    <| j_locked_until := None |>
    <| j_last_error := Some (default "Worker lease expired after final attempt"
                               (j_last_error j)) |>.

Definition dead_letter_statement (d : Database) : option (unit * Database) :=
  update_jobs (exhausted (now d)) bury d.

(** The [WHERE] clause of the candidates. *)
Definition ready (now : Z) (j : JobRow) : bool :=
  (j_attempts j <? j_max_attempts j)%Z &&
  (((job_is Pending j || job_is Retry j) && (j_available_at j <=? now)%Z) ||
   (job_is Running j && ts_le (j_locked_until j) now)).

(** [COALESCE(locked_until, available_at)]. *)
Definition ready_since (j : JobRow) : Z := default (j_available_at j) (j_locked_until j).

Definition candidates (limit : Z) (d : Database) : list (Z * JobRow) :=
  take (Z.to_nat limit)
    (select_rows (λ _, ready (now d))
      (λ a b, lex_leb (ready_since a.2) (ready_since b.2) (a.1 <=? b.1)%Z) (storage_jobs d)).

Definition claim_row (instance_id : string) (locked_until : Z) (j : JobRow) : option JobRow :=
  n ← int4 (j_attempts j + 1);
  Some (j <| j_status := JobToStorageValue Running |> <| j_attempts := n |>
          <| j_locked_by := Some instance_id |> <| j_locked_until := Some locked_until |>).

(** The update of the candidates, each returned with whether it was running. *)
Fixpoint claim_rows (instance_id : string) (locked_until : Z) (l : list (Z * JobRow))
    (d : Database) : option (list (Z * JobRow * bool) * Database) :=
  match l with
  | [] => Some ([], d)
  | (id, j) :: l =>
      j' ← claim_row instance_id locked_until j;
      if check_storage_job j' then
        '(rows, d') ← claim_rows instance_id locked_until l (put_job id j' d);
        Some ((id, j', job_is Running j) :: rows, d')
      else None
  end.

Definition claim_batch_statement (instance_id : string) (limit lease_duration_seconds : Z)
    (d : Database) : option (list (Z * JobRow * bool) * Database) :=
  claim_rows instance_id (job_deadline lease_duration_seconds d) (candidates limit d) d.

(** The guard of the statements a worker runs on its own job. *)
Definition held_by (instance_id : string) (j : JobRow) : bool :=
  job_is Running j && opt_eqb (j_locked_by j) instance_id.

Definition renew_job_statement (job_id : Z) (instance_id : string) (duration : Z)
    (d : Database) : option (option JobRow * Database) :=
  update_job job_id (λ j, held_by instance_id j && ts_gt (j_locked_until j) (now d))
    (λ j, Some (j <| j_locked_until := Some (job_deadline duration d) |>)) d.

Definition succeed_statement (job_id : Z) (instance_id : string) (d : Database)
  : option (option JobRow * Database) :=
  update_job job_id (held_by instance_id)
    (λ j, Some (j <| j_status := JobToStorageValue Succeeded |> <| j_locked_by := None |>
                  <| j_locked_until := None |> <| j_last_error := None |>
                  <| j_completed_at := Some (now d) |>)) d.

(** The row after a failure: retried later, or dead-lettered. *)
Definition fail_row (error : string) (retryable : bool) (retry_delay_seconds : Z)
    (d : Database) (j : JobRow) : JobRow :=
  let again := retryable && (j_attempts j <? j_max_attempts j)%Z in
  j <| j_status := JobToStorageValue (if again then Retry else DeadLetter) |>
    <| j_available_at := if again then job_deadline retry_delay_seconds d
                         else j_available_at j |>
    <| j_locked_by := None |> <| j_locked_until := None |> <| j_last_error := Some error |>.

Definition fail_statement (job_id : Z) (instance_id error : string) (retryable : bool)
    (retry_delay_seconds : Z) (d : Database) : option (option JobRow * Database) :=
  update_job job_id (held_by instance_id)
    (λ j, Some (fail_row error retryable retry_delay_seconds d j)) d.

(** ** Methods *)

Definition Enqueue (job : NewStorageJob) : M Database bool :=
  _ ← ValidateNewJob job;
  r ← exec (enqueue_statement job);
  mret (bool_decide (is_Some r)).

Definition EnqueueOrRearmSucceeded (job : NewStorageJob) : M Database bool :=
  _ ← ValidateNewJob job;
  r ← exec (rearm_statement job);
  match (r : option Z) with
  | Some _ => mret true
  | None =>
      existing ← query (find_job_by_dedupe_key (nj_dedupe_key job));
      match (existing : option (Z * JobRow)) with
      | None => raise (RuntimeError "Storage job conflict disappeared during enqueue")
      | Some (_, j) =>
          if negb (j_job_type j =? nj_job_type job) ||
             negb (j_aggregate_id j =? nj_aggregate_id job)
          then raise (RuntimeError "Storage job dedupe key is owned by another aggregate")
          else mret false
      end
  end.

Definition blob_gc_dedupe_key (content_id : Z) : string := "blob-gc:" ++ to_string content_id.

Definition CheckBlobGcReferenceGate (content_id : Z) : M Database BlobGcReferenceGate :=
  result ← query (find_job_by_dedupe_key (blob_gc_dedupe_key content_id));
  match (result : option (Z * JobRow)) with
  | None => mret Allowed
  | Some (_, row) =>
      if negb (j_job_type row =? kBlobGcJobType) ||
         negb (j_aggregate_id row =? to_string content_id)
      then raise (RuntimeError "Blob GC dedupe key is owned by an incompatible storage job")
      else match ParseStorageJobStatus (j_status row) with
      | None => raise (RuntimeError "Blob GC job contains an invalid status")
      | Some status => mret (if decide (status = Succeeded) then Allowed else Blocked)
      end
  end.

Definition ToStorageJob (row : Z * JobRow * bool) : M Database StorageJob :=
  let '(id, j, takeover) := row in
  match ParseStorageJobStatus (j_status j) with
  | None => raise (RuntimeError "Storage job contains an invalid status")
  | Some status =>
      mret (mkStorageJob id (j_job_type j) (j_aggregate_id j) (j_dedupe_key j) (j_payload j)
              status (j_attempts j) (j_max_attempts j) (default "" (j_locked_by j)) takeover)
  end.

Fixpoint to_storage_jobs (rows : list (Z * JobRow * bool)) : M Database (list StorageJob) :=
  match rows with
  | [] => mret []
  | row :: rows => job ← ToStorageJob row; jobs ← to_storage_jobs rows; mret (job :: jobs)
  end.

Definition ClaimReadyBatch (instance_id : string) (limit lease_duration_seconds : Z)
  : M Database (list StorageJob) :=
  _ ← ValidateJobLeaseArguments instance_id lease_duration_seconds;
  if (limit =? 0)%Z then mret []
  else
    let bounded_limit := Z.min limit kMaxClaimBatchSize in
    _ ← exec dead_letter_statement;
    rows ← exec (claim_batch_statement instance_id bounded_limit lease_duration_seconds);
    to_storage_jobs rows.

Definition RenewLease (job_id : Z) (instance_id : string) (lease_duration_seconds : Z)
  : M Database bool :=
  _ ← ValidateJobLeaseArguments instance_id lease_duration_seconds;
  r ← exec (renew_job_statement job_id instance_id lease_duration_seconds);
  mret (bool_decide (is_Some r)).

Definition MarkSucceeded (job_id : Z) (instance_id : string) : M Database bool :=
  _ ← ValidateBoundedValue instance_id kMaxInstanceIdLength "Storage job instance ID";
  r ← exec (succeed_statement job_id instance_id);
  mret (bool_decide (is_Some r)).

Definition MarkFailed (job_id : Z) (instance_id error : string) (retryable : bool)
    (retry_delay_seconds : Z) : M Database (option StorageJobStatus) :=
  _ ← ValidateBoundedValue instance_id kMaxInstanceIdLength "Storage job instance ID";
  r ← exec (fail_statement job_id instance_id (String.substring 0 kMaxErrorLength error)
              retryable retry_delay_seconds);
  mret (j ← (r : option JobRow); ParseStorageJobStatus (j_status j)).

(** ** Histories *)

(** The statements any number of servers issue on the queue. *)
Inductive job_statement :=
  | JEnqueue (job : NewStorageJob)
  | JRearm (job : NewStorageJob)
  | JDeadLetter
  | JClaim (instance_id : string) (limit duration : Z)
  | JRenew (job_id : Z) (instance_id : string) (duration : Z)
  | JSucceed (job_id : Z) (instance_id : string)
  | JFail (job_id : Z) (instance_id error : string) (retryable : bool) (delay : Z).

Definition execute_job (st : job_statement) (d : Database) : option Database :=
  match st with
  | JEnqueue job => snd <$> enqueue_statement job d
  | JRearm job => snd <$> rearm_statement job d
  | JDeadLetter => snd <$> dead_letter_statement d
  | JClaim instance_id limit n => snd <$> claim_batch_statement instance_id limit n d
  | JRenew id instance_id n => snd <$> renew_job_statement id instance_id n d
  | JSucceed id instance_id => snd <$> succeed_statement id instance_id d
  | JFail id instance_id error again n => snd <$> fail_statement id instance_id error again n d
  end.

(** The instance on whose lease a statement acts. *)
Definition acts_for (st : job_statement) : option string :=
  match st with
  | JRenew _ instance_id _ | JSucceed _ instance_id | JFail _ instance_id _ _ _ =>
      Some instance_id
  | _ => None
  end.

(** The moves of a job between its states. *)
Inductive job_transition : StorageJobStatus → StorageJobStatus → Prop :=
  | JtClaim : job_transition Pending Running
  | JtRetry : job_transition Retry Running
  | JtTakeOver : job_transition Running Running
  | JtSucceed : job_transition Running Succeeded
  | JtFail : job_transition Running Retry
  | JtBuryRunning : job_transition Running DeadLetter
  | JtBuryPending : job_transition Pending DeadLetter
  | JtBuryRetry : job_transition Retry DeadLetter
  | JtRearm : job_transition Succeeded Pending.

(** ** Lemmas *)

Lemma parse_job_status_value st : ParseStorageJobStatus (JobToStorageValue st) = Some st.
Proof. by destruct st. Qed.

Lemma parse_job_status_Some z st :
  ParseStorageJobStatus z = Some st ↔ z = JobToStorageValue st.
Proof.
  split; [|intros ->; apply parse_job_status_value].
  unfold ParseStorageJobStatus. intros Hz. repeat (case_match; case_bools; [by simplify_eq|]). done.
Qed.

Lemma JobToStorageValue_inj st st' : JobToStorageValue st = JobToStorageValue st' → st = st'.
Proof. by destruct st, st'. Qed.

Lemma job_is_true st j : job_is st j = true ↔ j_status j = JobToStorageValue st.
Proof. apply Z.eqb_eq. Qed.

Lemma job_is_other st st' j :
  j_status j = JobToStorageValue st → st ≠ st' → job_is st' j = false.
Proof.
  intros Hj Hne. apply not_true_iff_false. rewrite job_is_true, Hj.
  intros ?%JobToStorageValue_inj. done.
Qed.

Lemma held_by_true w j :
  held_by w j = true ↔ j_status j = JobToStorageValue Running ∧ j_locked_by j = Some w.
Proof. unfold held_by, opt_eqb. by rewrite andb_true_iff, job_is_true, bool_decide_eq_true. Qed.

Lemma put_job_lookup id j d i :
  storage_jobs (put_job id j d) !! i = if decide (i = id) then Some j else storage_jobs d !! i.
Proof. cbn. case_decide; [subst; apply lookup_insert_eq | by rewrite lookup_insert_ne]. Qed.

Lemma update_job_Some id guard set d r d' :
  update_job id guard set d = Some (r, d') →
  (r = None ∧ d' = d) ∨
  ∃ j j', storage_jobs d !! id = Some j ∧ guard j = true ∧ set j = Some j' ∧
    check_storage_job j' = true ∧ r = Some j' ∧ d' = put_job id j' d.
Proof.
  unfold update_job. destruct (storage_jobs d !! id) as [j|] eqn:Hj; [|naive_solver].
  destruct (guard j) eqn:Hg; [|naive_solver].
  destruct (set j) as [j'|] eqn:Hs; simpl; [|done].
  destruct (check_storage_job j') eqn:Hc; [|done]. intros [= <- <-]. right. eauto 10.
Qed.

Lemma insert_job_Some row on_conflict d r d' :
  insert_job row on_conflict d = Some (r, d') →
  check_storage_job row = true ∧
  ((find_job_by_dedupe_key (j_dedupe_key row) d = None ∧ r = Some (storage_jobs_id_seq d) ∧
    d' = next_job_id (put_job (storage_jobs_id_seq d) row d)) ∨
   (∃ id j, find_job_by_dedupe_key (j_dedupe_key row) d = Some (id, j) ∧
     ((on_conflict j = None ∧ r = None ∧ d' = next_job_id d) ∨
      ∃ j', on_conflict j = Some j' ∧ check_storage_job j' = true ∧ r = Some id ∧
        d' = next_job_id (put_job id j' d)))).
Proof.
  unfold insert_job. destruct (check_storage_job row); simpl; [|done].
  destruct (find_job_by_dedupe_key _ d) as [[id j]|]; [|intros [= <- <-]; auto].
  destruct (on_conflict j) as [j'|] eqn:Ho; [|intros [= <- <-]; eauto 10].
  destruct (check_storage_job j') eqn:Hc; [|done]. intros [= <- <-]. eauto 15.
Qed.

Lemma find_job_Some key d id j :
  find_job_by_dedupe_key key d = Some (id, j) → storage_jobs d !! id = Some j ∧
    j_dedupe_key j = key.
Proof. intros [Hj Hk]%find_row_Some. split; [done|]. by apply String.eqb_eq in Hk. Qed.

Lemma find_job_None key d :
  find_job_by_dedupe_key key d = None ↔
  ∀ id j, storage_jobs d !! id = Some j → j_dedupe_key j ≠ key.
Proof.
  unfold find_job_by_dedupe_key. rewrite find_row_None.
  split; intros H id j Hj; specialize (H id j Hj); by apply String.eqb_neq.
Qed.

Lemma update_jobs_Some guard set d d' :
  update_jobs guard set d = Some (tt, d') →
  d' = d <| storage_jobs := (λ j, if guard j then set j else j) <$> storage_jobs d |> ∧
  ∀ i j, storage_jobs d !! i = Some j → guard j = true → check_storage_job (set j) = true.
Proof.
  unfold update_jobs. destruct (exists_row _ _) eqn:He; [done|]. intros [= <-]. split; [done|].
  intros i j Hj Hg. rewrite exists_row_false in He. specialize (He i j Hj). simpl in He.
  rewrite Hg in He. by apply negb_false_iff in He.
Qed.

(** The row of a claimed job. *)
Definition claimed (instance_id : string) (locked_until : Z) (j : JobRow) : JobRow :=
  j <| j_status := JobToStorageValue Running |> <| j_attempts := (j_attempts j + 1)%Z |>
    <| j_locked_by := Some instance_id |> <| j_locked_until := Some locked_until |>.

Lemma claim_row_Some w t j j' : claim_row w t j = Some j' → j' = claimed w t j.
Proof. unfold claim_row. by intros (n & [-> _]%int4_Some & [= <-])%bind_Some. Qed.

Lemma claim_rows_Some w t l d rows d' :
  NoDup l.*1 → claim_rows w t l d = Some (rows, d') →
  rows = (λ kv, (kv.1, claimed w t kv.2, job_is Running kv.2)) <$> l ∧
  (∀ i j, (i, j) ∈ l → storage_jobs d' !! i = Some (claimed w t j)) ∧
  (∀ i, i ∉ l.*1 → storage_jobs d' !! i = storage_jobs d !! i) ∧
  Forall (λ kv, check_storage_job (claimed w t kv.2) = true) l ∧
  d' = d <| storage_jobs := storage_jobs d' |>.
Proof.
  revert d rows d'. induction l as [|[i j] l IH]; intros d rows d' Hnd; simpl.
  - intros [= <- <-]. split_and!; [done|by intros ?? ?%elem_of_nil|done|done|by destruct d].
  - apply NoDup_cons in Hnd as [Hi Hnd].
    intros (j' & ->%claim_row_Some & H)%bind_Some.
    destruct (check_storage_job (claimed w t j)) eqn:Hc; [|done].
    apply bind_Some in H as ([rows1 d1] & Hrec & [= <- <-]).
    destruct (IH _ _ _ Hnd Hrec) as (-> & Hin & Hout & Hall & Hd1). split_and!.
    + done.
    + intros i' j' [[= -> ->]|Hl]%elem_of_cons; [|by apply Hin].
      rewrite Hout by done. rewrite put_job_lookup. by rewrite decide_True.
    + intros i' [Hne Hni]%not_elem_of_cons. rewrite Hout by done.
      rewrite put_job_lookup. by rewrite decide_False.
    + by constructor.
    + rewrite Hd1. by destruct d.
Qed.

Lemma candidates_elem limit d i j :
  (i, j) ∈ candidates limit d → storage_jobs d !! i = Some j ∧ ready (now d) j = true.
Proof.
  unfold candidates. intros Hin. apply elem_of_take in Hin as (n & Hn & _).
  apply list_elem_of_lookup_2 in Hn. by apply elem_of_select_rows in Hn.
Qed.

Lemma candidates_NoDup limit d : NoDup (candidates limit d).*1.
Proof.
  assert (NoDup (candidates limit d)) as Hnd.
  { unfold candidates. eapply sublist_NoDup; [apply select_rows_NoDup | apply sublist_take]. }
  apply NoDup_fmap_2_strong; [|done].
  intros [i j] [i' j'] [Hi _]%candidates_elem [Hi' _]%candidates_elem. simpl. intros ->.
  by simplify_eq.
Qed.

(** ** The invariant of the queue *)

Definition job_ok (j : JobRow) : Prop :=
  check_storage_job j = true ∧ (j_attempts j <= j_max_attempts j < 2 ^ 31)%Z.

Definition queue_ok (d : Database) : Prop :=
  unique_dedupe_keys d ∧ fresh_job_ids d ∧
  ∀ i j, storage_jobs d !! i = Some j → job_ok j.

(** In a well-formed queue a job is found under its key. *)
Lemma find_job_unique d i j :
  queue_ok d → storage_jobs d !! i = Some j →
  find_job_by_dedupe_key (j_dedupe_key j) d = Some (i, j).
Proof.
  intros (Hu & _ & _) Hj.
  destruct (find_job_by_dedupe_key (j_dedupe_key j) d) as [[i' j']|] eqn:Hf.
  - apply find_job_Some in Hf as [Hj' Hk].
    assert (i' = i) as -> by (by eapply Hu). congruence.
  - rewrite find_job_None in Hf. by destruct (Hf i j Hj).
Qed.

(** The [CHECK] constraints as a proposition. *)
Lemma check_storage_job_true j :
  check_storage_job j = true ↔
  (0 <= j_status j <= 4)%Z ∧ (0 <= j_attempts j)%Z ∧ (0 < j_max_attempts j)%Z ∧
  (j_status j = 1%Z → j_locked_by j ≠ None ∧ j_locked_until j ≠ None) ∧
  (j_status j ≠ 1%Z → j_locked_by j = None ∧ j_locked_until j = None).
Proof.
  unfold check_storage_job. rewrite !andb_true_iff, !Z.leb_le, Z.ltb_lt.
  destruct (Z.eqb_spec (j_status j) 1) as [E|E], (j_locked_by j), (j_locked_until j);
    split; intros H; destruct_and?; split_and?; try done; try lia;
    try (intros; done); naive_solver.
Qed.

(** A job put under its own key keeps the queue well-formed. *)
Lemma queue_ok_put d i j j' :
  queue_ok d → storage_jobs d !! i = Some j → j_dedupe_key j' = j_dedupe_key j → job_ok j' →
  queue_ok (put_job i j' d).
Proof.
  intros (Hu & Hf & Hok) Hj Hk Hj'. split_and!.
  - intros i1 i2 j1 j2. rewrite !put_job_lookup. intros H1 H2 Heq.
    repeat case_decide; subst; simplify_eq; try done; eapply Hu; eauto; congruence.
  - intros i1 j1. rewrite put_job_lookup. case_decide; [subst; intros _; by eapply Hf|].
    apply Hf.
  - intros i1 j1. rewrite put_job_lookup. case_decide; [by intros [= <-]|]. apply Hok.
Qed.

Lemma queue_ok_next d : queue_ok d → queue_ok (next_job_id d).
Proof. intros (Hu & Hf & Hok). split_and!; [done| |done]. intros i j Hj. cbn. 
  specialize (Hf i j Hj). lia. Qed.

Lemma queue_ok_insert d j :
  queue_ok d → find_job_by_dedupe_key (j_dedupe_key j) d = None → job_ok j →
  queue_ok (next_job_id (put_job (storage_jobs_id_seq d) j d)).
Proof.
  intros (Hu & Hf & Hok) Hnone Hj. rewrite find_job_None in Hnone. split_and!.
  - intros i1 i2 j1 j2. cbn -[put_job]. rewrite !put_job_lookup. intros H1 H2 Heq.
    repeat case_decide; subst; simplify_eq; try done; try (exfalso; by eapply Hnone).
    by eapply Hu.
  - intros i1 j1. cbn -[put_job]. rewrite put_job_lookup. case_decide; [subst; cbn; lia|].
    intros H1. cbn. specialize (Hf i1 j1 H1). lia.
  - intros i1 j1. cbn -[put_job]. rewrite put_job_lookup. case_decide; [by intros [= <-]|].
    apply Hok.
Qed.

Lemma empty_queue_ok t : queue_ok (empty_db t).
Proof.
  split_and!; intros i; intros; cbn in *; by rewrite lookup_empty in *.
Qed.

Lemma new_job_ok job d : check_storage_job (new_job_row job d) = true → job_ok (new_job_row job d).
Proof.
  intros Hc. split; [done|]. apply check_storage_job_true in Hc. cbn in *.
  pose proof (i32_range (nj_max_attempts job)). lia.
Qed.

Lemma rearm_Some row j j' : rearm row j = Some j' → j' = row <| j_created_at := j_created_at j |>.
Proof. unfold rearm. by case_match; intros [= <-]. Qed.

Lemma queue_ok_update_job id guard set d r d' :
  (∀ j j', set j = Some j' → check_storage_job j' = true → job_ok j →
     j_dedupe_key j' = j_dedupe_key j ∧ (j_attempts j' <= j_max_attempts j' < 2 ^ 31)%Z) →
  queue_ok d → update_job id guard set d = Some (r, d') → queue_ok d'.
Proof.
  intros Hset Hd [[_ ->]|(j & j' & Hj & _ & Hs & Hc & _ & ->)]%update_job_Some; [done|].
  destruct Hd as (?&?&Hok). destruct (Hset _ _ Hs Hc (Hok _ _ Hj)). by eapply queue_ok_put.
Qed.

Lemma queue_ok_update_jobs guard set d d' :
  (∀ j, j_dedupe_key (set j) = j_dedupe_key j ∧ j_attempts (set j) = j_attempts j ∧
     j_max_attempts (set j) = j_max_attempts j) →
  queue_ok d → update_jobs guard set d = Some (tt, d') → queue_ok d'.
Proof.
  intros Hset (Hu & Hf & Hok) [-> Hc]%update_jobs_Some.
  set (f := λ j, if guard j then set j else j).
  assert (∀ j, j_dedupe_key (f j) = j_dedupe_key j) as Hkey.
  { intros j. unfold f. case_match; [apply Hset | done]. }
  split_and!.
  - intros i1 i2 j1 j2. cbn. rewrite !lookup_fmap.
    intros (j1' & H1 & ->)%fmap_Some (j2' & H2 & ->)%fmap_Some Heq.
    rewrite !Hkey in Heq. by eapply Hu.
  - intros i1 j1. cbn. rewrite lookup_fmap. intros (j1' & H1 & _)%fmap_Some. by eapply Hf.
  - intros i1 j1. cbn. rewrite lookup_fmap. intros (j1' & H1 & ->)%fmap_Some.
    unfold f. destruct (guard j1') eqn:Hg; [|by eapply Hok]. destruct (Hset j1') as (_ & Ha & Hm).
    split; [by eapply Hc|]. rewrite Ha, Hm. by apply (Hok _ _ H1).
Qed.

Lemma queue_ok_claim w limit n d rows d' :
  queue_ok d → claim_batch_statement w limit n d = Some (rows, d') → queue_ok d'.
Proof.
  intros Hd H.
  destruct (claim_rows_Some _ _ _ _ _ _ (candidates_NoDup limit d) H)
    as (_ & Hin & Hout & Hall & ->). clear H.
  destruct Hd as (Hu & Hf & Hok). set (m := storage_jobs d') in *.
  assert (∀ i j', m !! i = Some j' → ∃ j, storage_jobs d !! i = Some j ∧
    j_dedupe_key j' = j_dedupe_key j ∧ job_ok j') as Hrow.
  { intros i j' Hj'. destruct (decide (i ∈ (candidates limit d).*1)) as [Hi|Hi].
    - apply list_elem_of_fmap in Hi as ([i0 j] & -> & Hij). cbn in *.
      rewrite (Hin _ _ Hij) in Hj'. simplify_eq.
      destruct (candidates_elem _ _ _ _ Hij) as [Hj Hr]. exists j. split_and!; [done..|].
      split; [by apply (proj1 (Forall_forall _ _) Hall (i0, j))|].
      cbn. unfold ready in Hr. case_bools. pose proof (Hok _ _ Hj) as [_ ?]. lia.
    - rewrite (Hout _ Hi) in Hj'. exists j'. split_and!; [done..|]. by eapply Hok. }
  split_and!.
  - intros i1 i2 j1 j2 (j1' & H1 & Hk1 & _)%Hrow (j2' & H2 & Hk2 & _)%Hrow Heq.
    eapply Hu; [done..|]. congruence.
  - intros i1 j1 (j1' & H1 & _)%Hrow. by eapply Hf.
  - intros i1 j1 (_ & _ & _ & H1)%Hrow. done.
Qed.

(** Every statement keeps the queue well-formed. *)
Lemma execute_job_queue_ok st d d' : queue_ok d → execute_job st d = Some d' → queue_ok d'.
Proof.
  intros Hd He. destruct st; unfold execute_job in He; apply fmap_Some in He as ([r d1] & He & ->);
    cbn [snd].
  - destruct (insert_job_Some _ _ _ _ _ He)
      as [Hc [(Hn & _ & ->)|(id & j & Hj & [(_ & _ & ->)|(j' & [=] & _)])]].
    + apply queue_ok_insert; [done..|]. by apply new_job_ok.
    + by apply queue_ok_next.
  - destruct (insert_job_Some _ _ _ _ _ He)
      as [Hc [(Hn & _ & ->)|(id & j & Hj & [(_ & _ & ->)|(j' & ->%rearm_Some & _ & _ & ->)])]].
    + apply queue_ok_insert; [done..|]. by apply new_job_ok.
    + by apply queue_ok_next.
    + apply find_job_Some in Hj as [Hj Hk].
      by eapply queue_ok_next, queue_ok_put, new_job_ok.
  - destruct r. eapply queue_ok_update_jobs; [|done|exact He]. done.
  - by eapply queue_ok_claim.
  - eapply queue_ok_update_job; [|done|exact He]. by intros j j' [= <-] _ [_ ?].
  - eapply queue_ok_update_job; [|done|exact He]. by intros j j' [= <-] _ [_ ?].
  - eapply queue_ok_update_job; [|done|exact He]. by intros j j' [= <-] _ [_ ?].
Qed.

(** ** Calls *)

Inductive queue_call :=
  | QEnqueue (job : NewStorageJob)
  | QRearm (job : NewStorageJob)
  | QGate (content_id : Z)
  | QClaim (instance_id : string) (limit duration : Z)
  | QRenew (job_id : Z) (instance_id : string) (duration : Z)
  | QSucceed (job_id : Z) (instance_id : string)
  | QFail (job_id : Z) (instance_id error : string) (retryable : bool) (delay : Z).

(** The method called, its answer and its exceptions left to the caller. *)
Definition run_call (c : queue_call) : M Database unit :=
  match c with
  | QEnqueue job => _ ← Enqueue job; mret tt
  | QRearm job => _ ← EnqueueOrRearmSucceeded job; mret tt
  | QGate content_id => _ ← CheckBlobGcReferenceGate content_id; mret tt
  | QClaim w limit n => _ ← ClaimReadyBatch w limit n; mret tt
  | QRenew id w n => _ ← RenewLease id w n; mret tt
  | QSucceed id w => _ ← MarkSucceeded id w; mret tt
  | QFail id w error again n => _ ← MarkFailed id w error again n; mret tt
  end.

Definition run_calls (cs : list queue_call) : M Database unit :=
  foldr (λ c m, _ ← catch_all (run_call c) (mret tt); m) (mret tt) cs.

Lemma preserves_statement {A} (st : job_statement) (q : Database → option (A * Database)) :
  (∀ d, snd <$> q d = execute_job st d) → Preserves queue_ok (exec q).
Proof.
  intros Hq. apply preserves_exec. intros s a s' Hs Ha.
  apply (execute_job_queue_ok st s s' Hs). by rewrite <- Hq, Ha.
Qed.

#[export] Instance preserves_ValidateBoundedValue I v n f :
  Preserves I (ValidateBoundedValue v n f).
Proof. unfold ValidateBoundedValue. solve_preserves. Qed.

#[export] Instance preserves_ValidateNewJob I job : Preserves I (ValidateNewJob job).
Proof. unfold ValidateNewJob. solve_preserves. Qed.

#[export] Instance preserves_ValidateJobLease I w n : Preserves I (ValidateJobLeaseArguments w n).
Proof. unfold ValidateJobLeaseArguments. solve_preserves. Qed.

#[export] Instance preserves_to_storage_jobs I rows : Preserves I (to_storage_jobs rows).
Proof.
  induction rows as [|[[]] rows IH]; simpl; [apply _|]. unfold ToStorageJob. solve_preserves.
Qed.

#[export] Instance tx_body_ValidateNewJob job : TxBody (ValidateNewJob job).
Proof. unfold ValidateNewJob, ValidateBoundedValue. solve_tx_body. Qed.

#[export] Instance tx_body_Enqueue job : TxBody (Enqueue job).
Proof. unfold Enqueue. solve_tx_body. Qed.

#[export] Instance tx_body_EnqueueOrRearm job : TxBody (EnqueueOrRearmSucceeded job).
Proof. unfold EnqueueOrRearmSucceeded. solve_tx_body. Qed.

#[export] Instance tx_body_CheckGate id : TxBody (CheckBlobGcReferenceGate id).
Proof. unfold CheckBlobGcReferenceGate. solve_tx_body. Qed.

Lemma preserves_run_call c : Preserves queue_ok (run_call c).
Proof.
  destruct c; simpl; apply preserves_bind; try apply _; unfold Enqueue, EnqueueOrRearmSucceeded,
    CheckBlobGcReferenceGate, ClaimReadyBatch, RenewLease, MarkSucceeded, MarkFailed;
    (repeat (apply preserves_bind; [apply _|intros])); try (solve_preserves; fail).
  - apply preserves_bind; [by apply (preserves_statement (JEnqueue job))|apply _].
  - apply preserves_bind; [by apply (preserves_statement (JRearm job))|solve_preserves].
  - case_match; [apply _|]. apply preserves_bind; [|intros []; apply preserves_bind; [|apply _]].
    + by apply (preserves_statement JDeadLetter).
    + by apply (preserves_statement (JClaim instance_id (Z.min limit kMaxClaimBatchSize) duration)).
  - apply preserves_bind; [by apply (preserves_statement (JRenew job_id instance_id duration))|apply _].
  - apply preserves_bind; [by apply (preserves_statement (JSucceed job_id instance_id))|apply _].
  - apply preserves_bind; [|apply _].
    by apply (preserves_statement (JFail job_id instance_id
      (String.substring 0 kMaxErrorLength error) retryable delay)).
Qed.

(** ** Fault-free runs *)

Definition valid_new_job (job : NewStorageJob) : Prop :=
  (nj_job_type job ≠ "" ∧ strlen (nj_job_type job) <= kMaxJobTypeLength ∧
   nj_aggregate_id job ≠ "" ∧ strlen (nj_aggregate_id job) <= kMaxAggregateIdLength ∧
   nj_dedupe_key job ≠ "" ∧ strlen (nj_dedupe_key job) <= kMaxDedupeKeyLength ∧
   0 < nj_max_attempts job < 2 ^ 31)%Z.

Lemma ValidateBoundedValue_valid v n f e :
  v ≠ "" → (strlen v <= n)%Z → ValidateBoundedValue v n f e = (Ret tt, e).
Proof.
  intros Hv Hn. unfold ValidateBoundedValue. destruct v; [done|]. simpl str_empty.
  by rewrite (proj2 (Z.ltb_ge _ _)) by done.
Qed.

Lemma ValidateNewJob_valid job e : valid_new_job job → ValidateNewJob job e = (Ret tt, e).
Proof.
  intros (?&?&?&?&?&?&?&?). unfold ValidateNewJob, mbind, M_bind.
  rewrite !ValidateBoundedValue_valid by done.
  by rewrite (proj2 (Z.eqb_neq _ _)) by lia.
Qed.

Lemma new_job_check job d : valid_new_job job → check_storage_job (new_job_row job d) = true.
Proof.
  intros (?&?&?&?&?&?&?&?). apply check_storage_job_true. cbn. rewrite i32_small by lia.
  split_and!; (done || lia).
Qed.

(** The sweep before a claim, and the claim, violate no constraint. *)
Lemma enqueue_statement_total job d : valid_new_job job →
  ∃ r d', enqueue_statement job d = Some (r, d') ∧
    (is_Some r ↔ find_job_by_dedupe_key (nj_dedupe_key job) d = None).
Proof.
  intros Hjob. unfold enqueue_statement, insert_job. rewrite (new_job_check job d Hjob). simpl.
  change (j_dedupe_key (new_job_row job d)) with (nj_dedupe_key job).
  destruct (find_job_by_dedupe_key _ d) as [[i j]|]; eexists _, _; (split; [reflexivity|]); split;
    (done || by intros [??]).
Qed.

(** Once enqueued, a job has the key. *)
Lemma enqueue_statement_finds job d r d' : enqueue_statement job d = Some (r, d') →
  ∃ i j, find_job_by_dedupe_key (nj_dedupe_key job) d' = Some (i, j).
Proof.
  intros Hq. destruct (find_job_by_dedupe_key (nj_dedupe_key job) d') as [[i j]|] eqn:Hf; [eauto|].
  exfalso. rewrite find_job_None in Hf.
  destruct (insert_job_Some _ _ _ _ _ Hq)
    as [_ [(_ & _ & ->)|(i & j & [Hj Hk]%find_job_Some & [(_ & _ & ->)|(j' & [=] & _)])]].
  - eapply (Hf (storage_jobs_id_seq d) (new_job_row job d)); [|done].
    cbn -[put_job]. by rewrite put_job_lookup, decide_True.
  - by eapply (Hf i j).
Qed.

Lemma bury_check j : job_ok j → check_storage_job (bury j) = true.
Proof.
  intros [(?&?&?&?&?)%check_storage_job_true ?]. apply check_storage_job_true. cbn.
  split_and!; (done || lia).
Qed.

Lemma claimed_check w t j : job_ok j → check_storage_job (claimed w t j) = true.
Proof.
  intros [(?&?&?&?&?)%check_storage_job_true ?]. apply check_storage_job_true. cbn.
  split_and!; (done || lia).
Qed.

Definition swept (d : Database) : Database :=
  d <| storage_jobs := (λ j, if exhausted (now d) j then bury j else j) <$> storage_jobs d |>.

Lemma dead_letter_total d : queue_ok d → dead_letter_statement d = Some (tt, swept d).
Proof.
  intros (_ & _ & Hok). unfold dead_letter_statement, update_jobs.
  rewrite (proj2 (exists_row_false _ _)); [done|]. intros i j Hj. apply andb_false_iff. right.
  by rewrite bury_check by (by eapply Hok).
Qed.

Lemma swept_lookup d i :
  storage_jobs (swept d) !! i =
    (λ j, if exhausted (now d) j then bury j else j) <$> (storage_jobs d !! i).
Proof. apply lookup_fmap. Qed.

Lemma exhausted_not_ready n j : exhausted n j = true → ready n j = false ∧ ready n (bury j) = false.
Proof.
  unfold exhausted, ready. intros H. apply andb_true_iff in H as [H%Z.leb_le _]. cbn.
  by rewrite (proj2 (Z.ltb_ge _ _)) by lia.
Qed.

(** Sweeping neither adds nor removes a ready job. *)
Lemma swept_ready d i j :
  storage_jobs (swept d) !! i = Some j ∧ ready (now d) j = true ↔
  storage_jobs d !! i = Some j ∧ ready (now d) j = true.
Proof.
  rewrite swept_lookup. split.
  - intros [(j0 & Hj0 & ->)%fmap_Some Hr]. destruct (exhausted (now d) j0) eqn:He; [|done].
    apply exhausted_not_ready in He as [_ He]. congruence.
  - intros [-> Hr]. simpl. destruct (exhausted (now d) j) eqn:He; [|done].
    apply exhausted_not_ready in He as [He _]. congruence.
Qed.

Lemma claim_rows_total w t l d :
  Forall (λ kv, job_ok kv.2 ∧ (j_attempts kv.2 < j_max_attempts kv.2)%Z) l →
  ∃ rows d', claim_rows w t l d = Some (rows, d').
Proof.
  intros Hl. revert d. induction Hl as [|[i j] l [Hok Hlt] _ IH]; intros d; simpl; [by eexists _, _|].
  cbn in Hok, Hlt. pose proof (claimed_check w t j Hok) as Hc.
  destruct Hok as [(_&?&_)%check_storage_job_true ?].
  assert (claim_row w t j = Some (claimed w t j)) as ->.
  { unfold claim_row. by rewrite int4_ok by lia. }
  simpl. rewrite Hc. destruct (IH (put_job i (claimed w t j) d)) as (rows & d' & ->). simpl. by eexists _, _.
Qed.

Lemma to_storage_jobs_claimed w t l e :
  to_storage_jobs ((λ kv, (kv.1, claimed w t kv.2, job_is Running kv.2)) <$> l) e =
    (Ret ((λ kv, mkStorageJob kv.1 (j_job_type kv.2) (j_aggregate_id kv.2) (j_dedupe_key kv.2)
            (j_payload kv.2) Running (j_attempts kv.2 + 1)%Z (j_max_attempts kv.2) w
            (job_is Running kv.2)) <$> l), e).
Proof.
  induction l as [|[i j] l IH]; [done|]. rewrite !fmap_cons. cbn [to_storage_jobs].
  eapply eq_trans; [eapply bind_Ret; reflexivity|].
  eapply eq_trans; [eapply bind_Ret, IH|]. reflexivity.
Qed.

Lemma candidates_all limit d i j :
  (Z.of_nat (length (candidates limit d)) < limit)%Z →
  storage_jobs d !! i = Some j → ready (now d) j = true → (i, j) ∈ candidates limit d.
Proof.
  unfold candidates. rewrite length_take. intros Hlen Hj Hr.
  rewrite take_ge by lia. by apply elem_of_select_rows.
Qed.

(** ** Properties *)

(** C25: the queue stays well-formed under any sequence of calls, database faults
    and well-behaved other sessions: at most one job per dedupe key, identifiers
    not reused, every [CHECK] constraint, and no job attempted more often than its
    limit. *)
Theorem queue_invariant cs : Preserves queue_ok (run_calls cs).
Proof.
  induction cs as [|c cs IH]; simpl; [apply _|].
  apply preserves_bind; [|done]. apply preserves_catch_all; [apply preserves_run_call | apply _].
Qed.

(** A live lease is exclusive.  While a worker's lease on a job has not run
    out, no claim, sweep, enqueue or re-arm, and no renewal, success or failure
    report of another worker, changes the job. *)
Lemma live_lease_is_exclusive st d d' i j w t :
  queue_ok d → storage_jobs d !! i = Some j →
  ParseStorageJobStatus (j_status j) = Some Running → j_locked_by j = Some w →
  j_locked_until j = Some t → (now d < t)%Z → acts_for st ≠ Some w →
  execute_job st d = Some d' → storage_jobs d' !! i = Some j.
Proof.
  intros (Hu & Hf & Hok) Hj Hst%parse_job_status_Some Hby Hun Hlive Hacts He.
  assert (ts_le (j_locked_until j) (now d) = false) as Hle.
  { rewrite Hun. simpl. by apply Z.leb_gt. }
  assert (job_is Pending j = false ∧ job_is Retry j = false ∧ job_is Succeeded j = false)
    as (Hp & Hr & Hs) by (split_and!; by eapply job_is_other).
  assert (∀ v id guard set r d1, v ≠ w → (∀ j, guard j = true → held_by v j = true) →
    update_job id guard set d = Some (r, d1) → storage_jobs d1 !! i = Some j) as Hother.
  { intros v id guard set r d1 Hv Hg
      [[_ ->]|(j0 & j1 & Hj0 & [_ Hg0]%Hg%held_by_true & _ & _ & _ & ->)]%update_job_Some; [done|].
    rewrite put_job_lookup. case_decide; [|done]. subst. simplify_eq. }
  destruct st; unfold execute_job in He; apply fmap_Some in He as ([r d1] & He & ->);
    cbn [snd]; cbn [acts_for] in Hacts.
  - destruct (insert_job_Some _ _ _ _ _ He)
      as [Hc [(Hn & _ & ->)|(id & j0 & Hj0 & [(_ & _ & ->)|(j' & [=] & _)])]]; [|done].
    cbn -[put_job]. rewrite put_job_lookup. case_decide; [|done]. subst.
    specialize (Hf _ _ Hj). lia.
  - destruct (insert_job_Some _ _ _ _ _ He)
      as [Hc [(Hn & _ & ->)|(id & j0 & Hj0 & [(_ & _ & ->)|(j' & Hre & _ & _ & ->)])]]; [|done|].
    + cbn -[put_job]. rewrite put_job_lookup. case_decide; [|done]. subst.
      specialize (Hf _ _ Hj). lia.
    + apply find_job_Some in Hj0 as [Hj0 _]. cbn -[put_job]. rewrite put_job_lookup.
      case_decide; [|done]. subst. simplify_eq. unfold rearm in Hre.
      unfold job_is in Hs. by rewrite Hs in Hre.
  - destruct r. apply update_jobs_Some in He as [-> _]. cbn. rewrite lookup_fmap, Hj. simpl.
    unfold exhausted. by rewrite Hp, Hr, Hle, !andb_false_r.
  - destruct (claim_rows_Some _ _ _ _ _ _ (candidates_NoDup limit d) He) as (_ & _ & Hout & _).
    rewrite Hout; [done|]. intros ([i0 j0] & -> & Hin)%list_elem_of_fmap.
    apply candidates_elem in Hin as [Hj0 Hready]. cbn in *. simplify_eq.
    unfold ready in Hready. by rewrite Hp, Hr, Hle, !andb_false_r in Hready.
  - apply (Hother instance_id) in He; [done|congruence|]. intros j0 Hg. by case_bools.
  - apply (Hother instance_id) in He; [done|congruence|done].
  - apply (Hother instance_id) in He; [done|congruence|done].
Qed.

(** Enqueueing deduplicates by key.  A valid job is inserted, pending and
    unattempted, exactly when no job has its key, and the answer says so; an
    existing job is left as it is. *)
Lemma enqueue_deduplicates job d cs :
  valid_new_job job → queue_ok d →
  ∃ d', Enqueue job (mkEnv d [] AutoCommit cs) =
      (Ret (bool_decide (find_job_by_dedupe_key (nj_dedupe_key job) d = None)),
       mkEnv d' [] AutoCommit cs) ∧
    (∀ i j, storage_jobs d !! i = Some j → storage_jobs d' !! i = Some j) ∧
    (∃ i j, find_job_by_dedupe_key (nj_dedupe_key job) d' = Some (i, j) ∧
       (find_job_by_dedupe_key (nj_dedupe_key job) d = None → j = new_job_row job d)) ∧
    queue_ok d'.
Proof.
  intros Hjob Hd. unfold Enqueue.
  rewrite (bind_Ret _ _ _ _ _ (ValidateNewJob_valid job _ Hjob)).
  destruct (enqueue_statement_total job d Hjob) as (r & d' & Hq & Hr).
  rewrite (bind_Ret _ _ _ _ _ (exec_works _ _ _ _ cs Hq)). exists d'.
  assert (queue_ok d') as Hd'.
  { apply (execute_job_queue_ok (JEnqueue job) d); [done|]. unfold execute_job. by rewrite Hq. }
  split; [by rewrite (bool_decide_ext _ _ Hr)|].
  destruct Hd as (Hu & Hf & Hok). pose proof Hd' as (Hu' & _ & _).
  destruct (insert_job_Some _ _ _ _ _ Hq)
    as [_ [(Hn & _ & ->)|(i & j & Hj & [(_ & _ & ->)|(j' & [=] & _)])]].
  - split; [|split; [|done]].
    + intros i j Hj. cbn -[put_job]. rewrite put_job_lookup. case_decide; [|done]. subst.
      specialize (Hf _ _ Hj). lia.
    + set (i := storage_jobs_id_seq d). set (j := new_job_row job d).
      assert (storage_jobs (next_job_id (put_job i j d)) !! i = Some j) as Hij.
      { cbn -[put_job]. rewrite put_job_lookup. by rewrite decide_True. }
      destruct (find_job_by_dedupe_key (nj_dedupe_key job) (next_job_id (put_job i j d)))
        as [[i' j']|] eqn:Hfind.
      * exists i', j'. split; [done|]. intros _. apply find_job_Some in Hfind as [Hj' Hk].
        assert (i' = i) as -> by (eapply Hu'; [exact Hj'|exact Hij|done]). congruence.
      * rewrite find_job_None in Hfind. exfalso. by eapply Hfind.
  - split; [done|split; [|done]]. exists i, j. split; [done|]. intros Hnone.
    change (j_dedupe_key (new_job_row job d)) with (nj_dedupe_key job) in Hj. congruence.
Qed.

(** What a worker gets from [ClaimReadyBatch].  It gets at most the bounded
    limit of distinct jobs, and every ready one when there are fewer; each of them
    was ready (due, or abandoned by its lease holder, with attempts left), is now
    running under this worker's lease and has used one more of its attempts.  Jobs
    with no attempts left whose lease is over are dead-lettered, and every other job
    is left alone. *)
Lemma claim_batch_spec w limit n d cs :
  queue_ok d → w ≠ "" → (strlen w <= kMaxInstanceIdLength)%Z → (n ≠ 0)%Z → (0 < limit)%Z →
  let bound := Z.min limit kMaxClaimBatchSize in
  ∃ jobs d', ClaimReadyBatch w limit n (mkEnv d [] AutoCommit cs) =
      (Ret jobs, mkEnv d' [] AutoCommit cs) ∧
    (Z.of_nat (length jobs) <= bound)%Z ∧ NoDup (sj_id <$> jobs) ∧
    (∀ job, job ∈ jobs → ∃ j, storage_jobs d !! sj_id job = Some j ∧ ready (now d) j = true ∧
       storage_jobs d' !! sj_id job = Some (claimed w (job_deadline n d) j) ∧
       sj_status job = Running ∧ sj_attempts job = (j_attempts j + 1)%Z ∧
       (sj_attempts job <= sj_max_attempts job)%Z ∧ sj_locked_by job = w) ∧
    ((Z.of_nat (length jobs) < bound)%Z → ∀ i j, storage_jobs d !! i = Some j →
       ready (now d) j = true → i ∈ sj_id <$> jobs) ∧
    (∀ i j, storage_jobs d !! i = Some j → i ∉ sj_id <$> jobs →
       storage_jobs d' !! i = Some (if exhausted (now d) j then bury j else j)).
Proof.
  intros Hd Hw Hlen Hn Hlimit bound. unfold ClaimReadyBatch, ValidateJobLeaseArguments.
  rewrite (bind_Ret _ _ _ tt (mkEnv d [] AutoCommit cs)); [|unfold mbind, M_bind;
    rewrite ValidateBoundedValue_valid by done; by rewrite (proj2 (Z.eqb_neq _ _)) by done].
  rewrite (proj2 (Z.eqb_neq limit 0)) by lia. cbv zeta. fold bound.
  rewrite (bind_Ret _ _ _ _ _ (exec_works _ _ _ _ cs (dead_letter_total d Hd))).
  set (l := candidates bound (swept d)).
  assert (∀ i j, (i, j) ∈ l → storage_jobs d !! i = Some j ∧ ready (now d) j = true) as Hl.
  { intros i j Hin%candidates_elem. by apply swept_ready. }
  assert (Forall (λ kv, job_ok kv.2 ∧ (j_attempts kv.2 < j_max_attempts kv.2)%Z) l) as Hall.
  { apply Forall_forall. intros [i j] [Hj Hr]%Hl. destruct Hd as (_ & _ & Hok).
    split; [by eapply Hok|]. unfold ready in Hr. by case_bools. }
  destruct (claim_rows_total w (job_deadline n (swept d)) l (swept d) Hall)
    as (rows & d' & Hq).
  rewrite (bind_Ret _ _ _ _ _ (exec_works (claim_batch_statement w bound n) _ _ _ cs Hq)).
  destruct (claim_rows_Some _ _ _ _ _ _ (candidates_NoDup bound (swept d)) Hq)
    as (-> & Hin & Hout & _). rewrite to_storage_jobs_claimed.
  eexists _, d'. split; [reflexivity|]. rewrite length_fmap, <- list_fmap_compose.
  change (sj_id ∘ _) with (fst : Z * JobRow → Z). split_and!.
  - unfold l, candidates. rewrite length_take. unfold bound, kMaxClaimBatchSize in *. lia.
  - apply candidates_NoDup.
  - intros job ([i j] & -> & Hij)%list_elem_of_fmap. destruct (Hl _ _ Hij) as [Hj Hr].
    exists j. cbn. split_and!; try done; [by apply Hin|].
    unfold ready in Hr. case_bools. lia.
  - intros Hshort i j Hj Hr. apply list_elem_of_fmap. exists (i, j). split; [done|].
    by apply candidates_all; [| |done]; [done|apply swept_ready].
  - intros i j Hj Hi. rewrite Hout by done. by rewrite swept_lookup, Hj.
Qed.

(** A failure report of the worker that holds the job retries it after the
    delay while attempts are left and the failure is retryable, and dead-letters it
    otherwise; the lease is given up in both cases.  A report on a job the worker
    does not hold changes nothing. *)
Lemma failure_policy id w error again n d cs :
  queue_ok d → w ≠ "" → (strlen w <= kMaxInstanceIdLength)%Z →
  ∃ r d', MarkFailed id w error again n (mkEnv d [] AutoCommit cs) =
      (Ret r, mkEnv d' [] AutoCommit cs) ∧
    match storage_jobs d !! id with
    | Some j =>
        if held_by w j then
          let retried := again && (j_attempts j <? j_max_attempts j)%Z in
          r = Some (if retried then Retry else DeadLetter) ∧
          ∃ j', d' = put_job id j' d ∧ ParseStorageJobStatus (j_status j') = r ∧
            j_locked_by j' = None ∧ j_attempts j' = j_attempts j ∧
            (retried = true → j_available_at j' = job_deadline n d) ∧ job_ok j'
        else r = None ∧ d' = d
    | None => r = None ∧ d' = d
    end.
Proof.
  intros (_ & _ & Hok) Hw Hlen. unfold MarkFailed.
  rewrite (bind_Ret _ _ _ tt (mkEnv d [] AutoCommit cs))
    by (by rewrite ValidateBoundedValue_valid).
  set (err := String.substring _ _ _).
  destruct (storage_jobs d !! id) as [j|] eqn:Hj; [destruct (held_by w j) eqn:Hh|].
  - set (j' := fail_row err again n d j). destruct (Hok _ _ Hj) as [(?&?&?&?&?)%check_storage_job_true ?].
    assert (check_storage_job j' = true) as Hc.
    { apply check_storage_job_true. unfold j', fail_row. cbn.
      destruct (again && _); cbn; split_and!; (done || lia). }
    assert (fail_statement id w err again n d = Some (Some j', put_job id j' d)) as Hq.
    { unfold fail_statement, update_job. rewrite Hj, Hh. simpl. fold j'. by rewrite Hc. }
    rewrite (bind_Ret _ _ _ _ _ (exec_works _ _ _ _ cs Hq)).
    eexists _, _. split; [reflexivity|]. simpl mbind.
    assert (ParseStorageJobStatus (j_status j') =
      Some (if again && (j_attempts j <? j_max_attempts j)%Z then Retry else DeadLetter)) as Hst
      by apply parse_job_status_value.
    split; [done|]. exists j'. split_and!; try done.
    unfold j', fail_row. cbn. by intros ->.
  - assert (fail_statement id w err again n d = Some (None, d)) as Hq.
    { unfold fail_statement, update_job. by rewrite Hj, Hh. }
    rewrite (bind_Ret _ _ _ _ _ (exec_works _ _ _ _ cs Hq)). by eexists _, _.
  - assert (fail_statement id w err again n d = Some (None, d)) as Hq.
    { unfold fail_statement, update_job. by rewrite Hj. }
    rewrite (bind_Ret _ _ _ _ _ (exec_works _ _ _ _ cs Hq)). by eexists _, _.
Qed.

(** ** Witnesses *)

Definition example_running : JobRow :=
  mkJobRow "blob_gc" "5" "blob-gc:5" (JObject []) 1 1 8 0 (Some "worker-a") (Some 500%Z) None None 0.
Definition example_pending : JobRow :=
  mkJobRow "staging_cleanup" "up-1" "staging-cleanup:up-1" (JObject []) 0 0 8 0 None None None None 0.

(** A job running under a lease until 500 and a job due, at time 100. *)
Definition example_queue : Database :=
  (empty_db 100) <| storage_jobs := {[1%Z := example_running; 2%Z := example_pending]} |>
    <| storage_jobs_id_seq := 3%Z |>.

Lemma example_queue_lookup i j :
  storage_jobs example_queue !! i = Some j →
  (i = 1%Z ∧ j = example_running) ∨ (i = 2%Z ∧ j = example_pending).
Proof.
  cbn. intros [[<- <-]|[_ [<- <-]%lookup_singleton_Some]]%lookup_insert_Some; auto.
Qed.

Lemma example_queue_ok : queue_ok example_queue.
Proof.
  split_and!.
  - intros i i' j j' [[-> ->]|[-> ->]]%example_queue_lookup [[-> ->]|[-> ->]]%example_queue_lookup;
      done.
  - intros i j [[-> _]|[-> _]]%example_queue_lookup; by vm_compute.
  - intros i j [[_ ->]|[_ ->]]%example_queue_lookup; by vm_compute.
Qed.

Definition example_job : NewStorageJob :=
  mkNewStorageJob "staging_cleanup" "up-1" "staging-cleanup:up-1" (JObject []) 8.

Lemma live_lease_is_exclusive_witness :
  ∃ d', execute_job (JClaim "worker-b" 10 30) example_queue = Some d' ∧
    storage_jobs d' !! 1%Z = Some example_running.
Proof.
  destruct (execute_job (JClaim "worker-b" 10 30) example_queue) as [d'|] eqn:He.
  - exists d'. split; [done|].
    apply (live_lease_is_exclusive (JClaim "worker-b" 10 30) example_queue d' 1 example_running
      "worker-a" 500); try reflexivity; [apply example_queue_ok|done|exact He].
  - assert (bool_decide (is_Some (execute_job (JClaim "worker-b" 10 30) example_queue)) = true)
      as Hb by (vm_compute; reflexivity). by rewrite He in Hb.
Defined.

Lemma example_job_valid : valid_new_job example_job.
Proof. repeat split; by vm_compute. Qed.

Lemma enqueue_deduplicates_witness :
  ∃ d', Enqueue example_job (mkEnv example_queue [] AutoCommit []) =
    (Ret false, mkEnv d' [] AutoCommit []) ∧ queue_ok d'.
Proof.
  destruct (enqueue_deduplicates example_job example_queue [] example_job_valid example_queue_ok)
    as (d' & He & _ & _ & Hd'). exists d'. split; [exact He | exact Hd'].
Defined.

Lemma claim_batch_spec_witness :
  ∃ jobs d', ClaimReadyBatch "worker-b" 10 30 (mkEnv example_queue [] AutoCommit []) =
      (Ret jobs, mkEnv d' [] AutoCommit []) ∧ 2%Z ∈ sj_id <$> jobs.
Proof.
  destruct (claim_batch_spec "worker-b" 10 30 example_queue [])
    as (jobs & d' & He & _ & _ & Hjobs & Hall & _);
    [apply example_queue_ok|done|by vm_compute|done|done|].
  exists jobs, d'. split; [exact He|].
  destruct (decide (Z.of_nat (length jobs) < 10)%Z) as [Hlt|Hge].
  - by apply (Hall Hlt 2%Z example_pending).
  - exfalso. revert Hge.
    assert (match (ClaimReadyBatch "worker-b" 10 30 (mkEnv example_queue [] AutoCommit [])).1 with
            | Ret jobs => (length jobs <? 10)%nat | Raise _ => false end = true) as Hb
      by (vm_compute; reflexivity).
    rewrite He in Hb. simpl in Hb. apply Nat.ltb_lt in Hb. lia.
Defined.

Lemma failure_policy_witness :
  ∃ r d', MarkFailed 1 "worker-a" "timeout" true 60 (mkEnv example_queue [] AutoCommit []) =
      (Ret r, mkEnv d' [] AutoCommit []) ∧ r = Some Retry.
Proof.
  destruct (failure_policy 1 "worker-a" "timeout" true 60 example_queue [])
    as (r & d' & He & Hr); [apply example_queue_ok|done|by vm_compute|].
  exists r, d'. split; [exact He|]. exact (proj1 Hr).
Defined.
