(* ===== verification/Content.v ===== *)
(** * File contents and their references

    [src/src/services/ContentService.cpp]: stored blobs are shared by the files and
    trash entries that refer to them.  The service finds a content, takes and gives
    back references, and schedules the garbage collection of a blob nobody refers to
    any more; the job queue doubles as the gate that keeps a doomed blob from being
    referenced again. *)

From S2P Require Import Prelude Errors Storage Db UploadState Json Schema StorageJobs.

Local Open Scope string_scope.

(** ** Data *)

Record ContentMetadata := mkContentMetadata {
  cm_id : Z;
  cm_hash_md5 : string;
  cm_hash_sha256 : string;
  cm_size : Z;
  cm_storage_path : string;
  cm_mime_type : string;
  cm_ref_count : Z
}.

Record NewContent := mkNewContent {
  nc_hash_md5 : string;
  nc_hash_sha256 : string;
  nc_size : Z;
  nc_storage_path : string;
  nc_mime_type : string
}.

Definition ToMetadata (id : Z) (c : ContentRow) : ContentMetadata :=
  mkContentMetadata id (c_hash_md5 c) (c_hash_sha256 c) (c_size c) (c_storage_path c)
    (c_mime_type c) (c_ref_count c).

(** [CollectContentIds]: the keys whose delta is not zero. *)
Definition CollectContentIds (deltas : gmap Z Z) : list Z :=
  (map_to_list (filter (λ kv, kv.2 ≠ 0%Z) deltas)).*1.

(** ** Statements *)

Definition put_content (id : Z) (c : ContentRow) (d : Database) : Database :=
  d <| file_contents := <[id := c]> (file_contents d) |>.

(** [Mapper::findOne] answers only when exactly one row matches. *)
Definition find_one {K V} `{Countable K} (P : K → V → bool) (m : gmap K V) : option (K * V) :=
  match List.filter (λ kv, P kv.1 kv.2) (map_to_list m) with
  | [kv] => Some kv
  | _ => None
  end.

(** [INSERT INTO file_contents ... ON CONFLICT (hash_md5, hash_sha256) DO UPDATE
    SET ref_count = ref_count + 1 WHERE size = EXCLUDED.size RETURNING *]. *)
Definition acquire_statement (content : NewContent) (d : Database)
  : option (option ContentMetadata * Database) :=
  id ← bigint (file_contents_id_seq d);
  let next := d <| file_contents_id_seq := (file_contents_id_seq d + 1)%Z |> in
  match find_content_by_hashes (nc_hash_md5 content) (nc_hash_sha256 content) d with
  | None =>
      let c := mkContentRow (nc_hash_md5 content) (nc_hash_sha256 content) (nc_size content)
                 (nc_storage_path content) (nc_mime_type content) 1 in
      Some (Some (ToMetadata id c), put_content id c next)
  | Some (id, c) =>
      if (c_size c =? nc_size content)%Z then
        n ← int4 (c_ref_count c + 1);
        let c' := c <| c_ref_count := n |> in
        Some (Some (ToMetadata id c'), put_content id c' next)
      else Some (None, next)
  end.

(** [UPDATE file_contents SET ref_count = f(id, ref_count) WHERE id IN (ids)]: the
    number of rows updated. *)
Fixpoint update_ref_counts (f : Z → Z → option Z) (ids : list Z) (d : Database)
  : option (Z * Database) :=
  match ids with
  | [] => Some (0%Z, d)
  | id :: ids =>
      match file_contents d !! id with
      | None => update_ref_counts f ids d
      | Some c =>
          n ← f id (c_ref_count c);
          '(rows, d') ← update_ref_counts f ids (put_content id (c <| c_ref_count := n |>) d);
          Some ((rows + 1)%Z, d')
      end
  end.

(** [CASE id WHEN ... THEN ... ELSE 0 END]. *)
Definition delta_of (deltas : gmap Z Z) (id : Z) : Z := default 0%Z (deltas !! id).

(** ** Methods *)

Definition FindByMd5 (hash_md5 : string) : M Database (option ContentMetadata) :=
  catch_db
    (r ← query (λ d, find_one (λ _ c, c_hash_md5 c =? hash_md5) (file_contents d));
     mret ('(id, c) ← (r : option (Z * ContentRow)); Some (ToMetadata id c)))
    (mret None).

Definition FindExistingIds (content_ids : list Z) : M Database (gset Z) :=
  if decide (content_ids = []) then mret ∅
  else catch_db
    (query (λ d, list_to_set (List.filter
       (λ id, bool_decide (is_Some (file_contents d !! id))) content_ids)))
    (mret ∅).

Definition GateError : ErrorInfo :=
  mkErrorInfo ResourceConflict "File content is pending garbage collection".

Definition CheckReferenceGate (content_id : Z) : M Database (Result unit) :=
  catch_all
    (gate ← CheckBlobGcReferenceGate content_id;
     match gate with
     | Blocked => mret (Err GateError)
     | Allowed => mret (Ok tt)
     end)
    (mret (Err (mkErrorInfo InternalError "Failed to verify file content lifecycle"))).

Definition ContentChangedFinalizing : ErrorInfo :=
  mkErrorInfo ResourceConflict "File content changed while finalizing upload".
Definition ContentSizeMismatch : ErrorInfo :=
  mkErrorInfo ChunkVerifyFailed "Existing file content size does not match its hashes".

(** Whether an expected content is another one than [id]. *)
Definition unexpected_content (expected : option Z) (id : option Z) : bool :=
  match expected with
  | None => false
  | Some e => negb (bool_decide (id = Some e))
  end.

Definition AcquireReference (content : NewContent) (expected_existing_content_id : option Z)
  : M Database (Result ContentMetadata) :=
  catch_db
    (existing ← query (find_content_by_hashes (nc_hash_md5 content) (nc_hash_sha256 content));
     let existing : option (Z * ContentRow) := existing in
     if unexpected_content expected_existing_content_id (fst <$> existing)
     then mret (Err ContentChangedFinalizing)
     else
     let* _ := match existing with
               | Some (id, c) =>
                   if negb (c_size c =? nc_size content)%Z then mret (Err ContentSizeMismatch)
                   else CheckReferenceGate id
               | None => mret (Ok tt)
               end in
     (result ← exec (acquire_statement content);
      match (result : option ContentMetadata) with
      | None => mret (Err ContentSizeMismatch)
      | Some metadata =>
          if unexpected_content expected_existing_content_id (Some (cm_id metadata))
          then mret (Err ContentChangedFinalizing)
          else let* _ := match existing with
                         | None => CheckReferenceGate (cm_id metadata)
                         | Some _ => mret (Ok tt)
                         end in
          (mret (Ok metadata))
      end))
    (mret (Err (mkErrorInfo InternalError "Failed to acquire file content reference"))).

Definition ContentChangedAcquiring : ErrorInfo :=
  mkErrorInfo ResourceConflict "File content changed while acquiring a reference".

Definition IncrementRefCount (content_id increment : Z) : M Database (Result unit) :=
  if (increment =? 0)%Z then mret (Ok tt)
  else catch_db
    (locked ← query (λ d, bool_decide (is_Some (file_contents d !! i64 content_id)));
     if negb locked then mret (Err ContentChangedAcquiring)
     else
     let* _ := CheckReferenceGate content_id in
     (rows ← exec (update_ref_counts (λ _ n, int4 (n + i32 increment)) [i64 content_id]);
      if (rows =? 0)%Z then mret (Err ContentChangedAcquiring) else mret (Ok tt)))
    (mret (Err (mkErrorInfo InternalError "Failed to update file content reference count"))).

(** The contents of a batch that exist, sorted. *)
Definition valid_content_ids (increments : gmap Z Z) (existing_content_ids : gset Z) : list Z :=
  order_by Z.leb (List.filter (λ id, bool_decide (id ∈ existing_content_ids))
                    (CollectContentIds increments)).

Definition IncrementRefCountsChecked (increments : gmap Z Z) (existing_content_ids : gset Z)
  : M Database (Result (gset Z)) :=
  let ids := valid_content_ids increments existing_content_ids in
  if decide (ids = []) then mret (Ok ∅)
  else catch_db
    (locked ← query (λ d, Z.of_nat (length (List.filter
        (λ id, bool_decide (is_Some (file_contents d !! id))) ids)));
     if negb (locked =? Z.of_nat (length ids))%Z then
       mret (Err (mkErrorInfo ResourceConflict "File content changed while copying"))
     else
     let* _ := for_each_result ids CheckReferenceGate in
     (rows ← exec (update_ref_counts (λ id n, int4 (n + delta_of increments id)) ids);
      if negb (rows =? Z.of_nat (length ids))%Z then
        mret (Err (mkErrorInfo InternalError "Failed to update file content reference counts"))
      else mret (Ok (list_to_set ids))))
    (mret (Err (mkErrorInfo InternalError "Failed to update file content reference counts"))).

(** The job that deletes the blob of a content nobody refers to. *)
Definition blob_gc_job (id : Z) (storage_path : string) : NewStorageJob :=
  mkNewStorageJob kBlobGcJobType (to_string id) (blob_gc_dedupe_key id)
    (JObject [("content_id", JInt id); ("storage_path", JString storage_path)])
    kDefaultMaxAttempts.

Definition zero_ref_contents (ids : list Z) (d : Database) : list (Z * string) :=
  omap (λ id, c ← file_contents d !! id;
              if (c_ref_count c =? 0)%Z then Some (id, c_storage_path c) else None) ids.

Fixpoint enqueue_gc (l : list (Z * string)) : M Database unit :=
  match l with
  | [] => mret tt
  | (id, path) :: l => _ ← EnqueueOrRearmSucceeded (blob_gc_job id path); enqueue_gc l
  end.

Definition DecrementRefCountsAndEnqueueGc (decrements : gmap Z Z) : M Database (Result Z) :=
  let content_ids := CollectContentIds decrements in
  if decide (content_ids = []) then mret (Ok 0%Z)
  else catch
    (_ ← exec (update_ref_counts
                 (λ id n, m ← int4 (n - i32 (delta_of decrements id)); Some (Z.max m 0))
                 content_ids);
     zero ← query (zero_ref_contents content_ids);
     _ ← enqueue_gc zero;
     mret (Ok (Z.of_nat (length zero))))
    (λ x, Some (mret (Err (match x with
       | DbException => mkErrorInfo InternalError "Failed to update file content references"
       | _ => mkErrorInfo InternalError "Failed to enqueue Blob garbage collection"
       end)))).

(** ** Lemmas *)

Lemma runs_ValidateNewJob job snap s u s' : runs (ValidateNewJob job) snap s u s' → s' = s.
Proof.
  unfold ValidateNewJob, ValidateBoundedValue. unfold runs, mbind, M_bind, mret, M_ret, raise.
  intros H. repeat case_match; simplify_eq/=; congruence.
Qed.

(** The collector of [id] is scheduled: its job exists and has not run yet. *)
Definition gc_scheduled (id : Z) (d : Database) : Prop :=
  ∃ i j, find_job_by_dedupe_key (blob_gc_dedupe_key id) d = Some (i, j) ∧
    j_job_type j = kBlobGcJobType ∧ j_aggregate_id j = to_string id ∧
    job_is Succeeded j = false.

(** A statement of the queue leaves the other tables alone. *)
Lemma execute_job_contents st d d' :
  execute_job st d = Some d' → file_contents d' = file_contents d.
Proof.
  intros He. destruct st; unfold execute_job in He; apply fmap_Some in He as ([r d1] & He & ->);
    cbn [snd].
  - by destruct (insert_job_Some _ _ _ _ _ He)
      as [_ [(_ & _ & ->)|(? & ? & _ & [(_ & _ & ->)|(? & _ & _ & _ & ->)])]].
  - by destruct (insert_job_Some _ _ _ _ _ He)
      as [_ [(_ & _ & ->)|(? & ? & _ & [(_ & _ & ->)|(? & _ & _ & _ & ->)])]].
  - destruct r. by apply update_jobs_Some in He as [-> _].
  - destruct (claim_rows_Some _ _ _ _ _ _ (candidates_NoDup limit d) He) as (_ & _ & _ & _ & ->).
    done.
  - by apply update_job_Some in He as [[_ ->]|(? & ? & _ & _ & _ & _ & _ & ->)].
  - by apply update_job_Some in He as [[_ ->]|(? & ? & _ & _ & _ & _ & _ & ->)].
  - by apply update_job_Some in He as [[_ ->]|(? & ? & _ & _ & _ & _ & _ & ->)].
Qed.

(** A job that is not finished survives an enqueue of any job. *)
Lemma rearm_keeps job d r d' i j :
  queue_ok d → rearm_statement job d = Some (r, d') → storage_jobs d !! i = Some j →
  job_is Succeeded j = false → storage_jobs d' !! i = Some j.
Proof.
  intros (_ & Hf & _) Hq Hj Hs. destruct (insert_job_Some _ _ _ _ _ Hq)
    as [_ [(_ & _ & ->)|(i' & j' & Hj' & [(_ & _ & ->)|(j1 & Hre & _ & _ & ->)])]]; [|done|].
  - cbn -[put_job]. rewrite put_job_lookup. case_decide; [|done]. subst.
    specialize (Hf _ _ Hj). lia.
  - apply find_job_Some in Hj' as [Hj' _]. cbn -[put_job]. rewrite put_job_lookup.
    case_decide; [|done]. subst. simplify_eq. unfold rearm in Hre. unfold job_is in Hs.
    by rewrite Hs in Hre.
Qed.

Lemma runs_EnqueueOrRearm job snap s b s' :
  queue_ok s → runs (EnqueueOrRearmSucceeded job) snap s b s' →
  queue_ok s' ∧ file_contents s' = file_contents s ∧
  (∀ i j, storage_jobs s !! i = Some j → job_is Succeeded j = false →
     storage_jobs s' !! i = Some j) ∧
  ∃ i j, find_job_by_dedupe_key (nj_dedupe_key job) s' = Some (i, j) ∧
    j_job_type j = nj_job_type job ∧ j_aggregate_id j = nj_aggregate_id job ∧
    job_is Succeeded j = false.
Proof.
  intros Hs. unfold EnqueueOrRearmSucceeded. rewrite runs_bind by solve_tx_body.
  intros (u & t & ->%runs_ValidateNewJob & H). rewrite runs_bind in H by solve_tx_body.
  destruct H as (r & t & Hq%runs_exec & H).
  assert (execute_job (JRearm job) s = Some t) as He by (unfold execute_job; by rewrite Hq).
  pose proof (execute_job_queue_ok _ _ _ Hs He) as Ht.
  pose proof (execute_job_contents _ _ _ He) as Hc.
  assert (∀ i j, storage_jobs s !! i = Some j → job_is Succeeded j = false →
    storage_jobs t !! i = Some j) as Hkeep
    by (intros; by apply (rearm_keeps job s r t)).
  assert (s' = t ∧ ∃ i j, find_job_by_dedupe_key (nj_dedupe_key job) t = Some (i, j) ∧
    j_job_type j = nj_job_type job ∧ j_aggregate_id j = nj_aggregate_id job ∧
    job_is Succeeded j = false) as [-> Hfind]; [|done].
  assert (∀ i row, storage_jobs t !! i = Some row → j_dedupe_key row = nj_dedupe_key job →
    find_job_by_dedupe_key (nj_dedupe_key job) t = Some (i, row)) as Hnew.
  { intros i row Hi <-. by apply (find_job_unique t i row). }
  destruct (insert_job_Some _ _ _ _ _ Hq)
    as [_ [(_ & -> & Ht')|(i & j & Hj & [(Hre & -> & Ht')|(j1 & ->%rearm_Some & _ & -> & Ht')])]].
  - apply runs_ret in H as [_ ->]. split; [done|].
    assert (storage_jobs t !! (storage_jobs_id_seq s) = Some (new_job_row job s)) as Hi
      by (rewrite Ht'; cbn -[put_job]; rewrite put_job_lookup; by rewrite decide_True).
    eexists _, _. split; [by apply (Hnew _ _ Hi)|done].
  - rewrite runs_bind in H by solve_tx_body. destruct H as (ex & t' & [-> ->]%runs_query & H).
    assert (find_job_by_dedupe_key (nj_dedupe_key job) t = Some (i, j)) as Hfj.
    { by rewrite Ht'. }
    rewrite Hfj in H. simpl in H. destruct (String.eqb_spec (j_job_type j) (nj_job_type job)) as [Htype|];
      simpl in H; [|by apply runs_raise in H].
    destruct (String.eqb_spec (j_aggregate_id j) (nj_aggregate_id job)) as [Hagg|];
      simpl in H; [|by apply runs_raise in H].
    apply runs_ret in H as [_ ->]. split; [done|]. exists i, j. split_and!; [done..|].
    unfold rearm in Hre. change (j_job_type (new_job_row job s)) with (nj_job_type job) in Hre.
    change (j_aggregate_id (new_job_row job s)) with (nj_aggregate_id job) in Hre.
    rewrite Htype, Hagg, !String.eqb_refl, !andb_true_r in Hre. unfold job_is. by case_match.
  - apply runs_ret in H as [_ ->]. split; [done|].
    assert (storage_jobs t !! i = Some ((new_job_row job s) <| j_created_at := j_created_at j |>)) as Hi
      by (rewrite Ht'; cbn -[put_job]; rewrite put_job_lookup; by rewrite decide_True).
    eexists _, _. split; [by apply (Hnew _ _ Hi)|done].
Qed.

#[export] Instance tx_body_enqueue_gc l : TxBody (enqueue_gc l).
Proof. induction l as [|[] l IH]; simpl; solve_tx_body. Qed.

Lemma runs_enqueue_gc l snap s u s' :
  queue_ok s → runs (enqueue_gc l) snap s u s' →
  queue_ok s' ∧ file_contents s' = file_contents s ∧
  (∀ i j, storage_jobs s !! i = Some j → job_is Succeeded j = false →
     storage_jobs s' !! i = Some j) ∧
  ∀ id path, (id, path) ∈ l → gc_scheduled id s'.
Proof.
  revert s. induction l as [|[id path] l IH]; intros s Hs; simpl.
  - intros [_ ->]%runs_ret. split_and!; [apply Hs..|done|done|]. by intros ?? ?%elem_of_nil.
  - rewrite runs_bind by solve_tx_body. intros (b & t & H1 & H2).
    destruct (runs_EnqueueOrRearm _ _ _ _ _ Hs H1)
      as (Ht & Hc & Hkeep & i & j & Hj & Htype & Hagg & Hnot).
    destruct (IH t Ht H2) as (Hs' & Hc' & Hkeep' & Hall).
    split; [done|]. split; [congruence|]. split; [eauto|].
    intros id' path' [[= -> ->]|Hin]%elem_of_cons; [|by eapply Hall].
    exists i, j. split_and!; [|done..]. apply find_job_Some in Hj as [Hj Hk].
    specialize (Hkeep' i j Hj Hnot).
    change (blob_gc_dedupe_key id) with (nj_dedupe_key (blob_gc_job id path)). rewrite <- Hk.
    by apply find_job_unique.
Qed.

(** The gate is closed while the collector is scheduled. *)
Lemma gate_closed id d st cs :
  queue_ok d → gc_scheduled id d → live st →
  CheckReferenceGate id (mkEnv d [] st cs) = (Ret (Err GateError), mkEnv d [] st cs).
Proof.
  intros (_ & _ & Hok) (i & j & Hj & Htype & Hagg & Hnot) Hst.
  unfold CheckReferenceGate, CheckBlobGcReferenceGate, catch_all, catch, query, exec, next_step,
    mbind, M_bind. cbn.
  destruct st as [|snap []]; [| by destruct (Hst snap) |]; cbn;
    rewrite Hj, Htype, Hagg, !String.eqb_refl; cbn;
    apply find_job_Some in Hj as [Hj _];
    destruct (Hok _ _ Hj) as [(Hr & _)%check_storage_job_true _];
    (destruct (ParseStorageJobStatus (j_status j)) as [status|] eqn:Hp;
     [apply parse_job_status_Some in Hp; unfold job_is in Hnot; rewrite Hp in Hnot;
      by destruct status
     |exfalso; unfold ParseStorageJobStatus in Hp; cbn in Hp;
      repeat (case_match; [done|]); case_bools; lia]).
Qed.

Lemma update_ref_counts_Some f ids d rows d' :
  NoDup ids → update_ref_counts f ids d = Some (rows, d') →
  d' = d <| file_contents := file_contents d' |> ∧
  (∀ id, id ∉ ids → file_contents d' !! id = file_contents d !! id) ∧
  (∀ id c, id ∈ ids → file_contents d !! id = Some c → ∃ n, f id (c_ref_count c) = Some n ∧
     file_contents d' !! id = Some (c <| c_ref_count := n |>)).
Proof.
  intros Hnd. revert d rows d'. induction Hnd as [|id ids Hid Hnd IH]; intros d rows d'; simpl.
  - intros [= <- <-]. split_and!; [by destruct d|done|]. by intros ?? ?%elem_of_nil.
  - destruct (file_contents d !! id) as [c|] eqn:Hc.
    + intros (n & Hn & ([rows1 d1] & Hu & [= <- <-])%bind_Some)%bind_Some.
      destruct (IH _ _ _ Hu) as (Hj & Hout & Hin). split; [rewrite Hj; by destruct d|]. split.
      * intros id' [Hne Hni]%not_elem_of_cons. rewrite Hout by done. cbn.
        by rewrite lookup_insert_ne.
      * intros id' c' [->|Hi]%elem_of_cons Hc'.
        -- simplify_eq. exists n. split; [done|]. rewrite Hout by done. cbn.
           by rewrite lookup_insert_eq.
        -- apply Hin; [done|]. cbn. rewrite lookup_insert_ne; [done|]. by intros ->.
    + intros Hu. destruct (IH _ _ _ Hu) as (Hj & Hout & Hin). split; [done|]. split.
      * intros id' [_ Hni]%not_elem_of_cons. by apply Hout.
      * intros id' c' [->|Hi]%elem_of_cons Hc'; [congruence|]. by apply Hin.
Qed.

Lemma CollectContentIds_elem deltas id n :
  deltas !! id = Some n → n ≠ 0%Z → id ∈ CollectContentIds deltas.
Proof.
  intros Hid Hn. apply list_elem_of_fmap. exists (id, n). split; [done|].
  apply elem_of_map_to_list. by apply map_lookup_filter_Some.
Qed.

Lemma CollectContentIds_NoDup deltas : NoDup (CollectContentIds deltas).
Proof. apply NoDup_fst_map_to_list. Qed.

(** While the collector of a content is scheduled no reference to it is given out. *)
Lemma increment_gated id n d st cs :
  queue_ok d → gc_scheduled id d → live st → is_Some (file_contents d !! id) →
  (- 2 ^ 63 <= id < 2 ^ 63)%Z → (n ≠ 0)%Z →
  IncrementRefCount id n (mkEnv d [] st cs) = (Ret (Err GateError), mkEnv d [] st cs).
Proof.
  intros Hd Hgc Hst Hid Hrange Hn. unfold IncrementRefCount.
  rewrite (proj2 (Z.eqb_neq _ _)) by done. unfold catch_db, catch.
  rewrite (bind_Ret _ _ _ _ _ (query_live _ _ _ _ Hst)).
  rewrite i64_small by done. rewrite bool_decide_eq_true_2 by done. simpl.
  unfold bind_result. by rewrite (bind_Ret _ _ _ _ _ (gate_closed id d st cs Hd Hgc Hst)).
Qed.

Lemma acquire_gated id c content expected d st cs :
  queue_ok d → gc_scheduled id d → live st →
  find_content_by_hashes (nc_hash_md5 content) (nc_hash_sha256 content) d = Some (id, c) →
  c_size c = nc_size content → expected = None ∨ expected = Some id →
  AcquireReference content expected (mkEnv d [] st cs) =
    (Ret (Err GateError), mkEnv d [] st cs).
Proof.
  intros Hd Hgc Hst Hfind Hsize Hexp. unfold AcquireReference, catch_db, catch.
  rewrite (bind_Ret _ _ _ _ _ (query_live _ _ _ _ Hst)). rewrite Hfind. cbv zeta.
  change (fst <$> Some (id, c)) with (Some id).
  assert (unexpected_content expected (Some id) = false) as ->.
  { destruct Hexp as [-> | ->]; [done|]. simpl. by rewrite bool_decide_eq_true_2. }
  rewrite Hsize, Z.eqb_refl. simpl negb. cbv iota. unfold bind_result at 1.
  by rewrite (bind_Ret _ _ _ _ _ (gate_closed id d st cs Hd Hgc Hst)).
Qed.

#[export] Instance tx_body_CheckReferenceGate id : TxBody (CheckReferenceGate id).
Proof. unfold CheckReferenceGate. solve_tx_body. Qed.

#[export] Instance tx_body_AcquireReference content e : TxBody (AcquireReference content e).
Proof. unfold AcquireReference. solve_tx_body. Qed.

#[export] Instance tx_body_IncrementRefCount id n : TxBody (IncrementRefCount id n).
Proof. unfold IncrementRefCount. solve_tx_body. Qed.

#[export] Instance tx_body_DecrementRefCounts l : TxBody (DecrementRefCountsAndEnqueueGc l).
Proof.
  unfold DecrementRefCountsAndEnqueueGc. case_match; [apply _|].
  apply tx_body_catch; [solve_tx_body|]. intros x k [= <-]. apply _.
Qed.

(** ** Properties *)

(** A successful decrement lowers each listed count by its decrement, not below
    zero, touches no other content, and closes the reference gate of every content
    it leaves without references: neither [IncrementRefCount] nor
    [AcquireReference] gives out a reference to a blob about to be collected. *)
Lemma decrement_closes_gate decs snap d n d' id k c :
  queue_ok d → runs (DecrementRefCountsAndEnqueueGc decs) snap d (Ok n) d' →
  decs !! id = Some k → (k ≠ 0)%Z → file_contents d !! id = Some c →
  (- 2 ^ 63 <= id < 2 ^ 63)%Z →
  ∃ c', file_contents d' !! id = Some c' ∧ c' = c <| c_ref_count := Z.max (c_ref_count c - i32 k) 0 |> ∧
    (∀ i, decs !! i = None → file_contents d' !! i = file_contents d !! i) ∧
    (c_ref_count c' = 0%Z → ∀ st cs, live st →
       (∀ m, (m ≠ 0)%Z → IncrementRefCount id m (mkEnv d' [] st cs) =
          (Ret (Err GateError), mkEnv d' [] st cs)) ∧
       (∀ content expected,
          find_content_by_hashes (nc_hash_md5 content) (nc_hash_sha256 content) d' = Some (id, c') →
          c_size c' = nc_size content → expected = None ∨ expected = Some id →
          AcquireReference content expected (mkEnv d' [] st cs) =
            (Ret (Err GateError), mkEnv d' [] st cs))).
Proof.
  intros Hd Hrun Hk Hk0 Hc Hrange.
  pose proof (CollectContentIds_elem _ _ _ Hk Hk0) as Hin.
  unfold DecrementRefCountsAndEnqueueGc in Hrun.
  destruct (decide (CollectContentIds decs = [])) as [E|_];
    [rewrite E in Hin; by apply elem_of_nil in Hin|].
  apply runs_catch in Hrun; [|solve_tx_body|by intros x q [= <-]; apply _].
  destruct Hrun as [Hrun|(x & q & t & [= <-] & [[=] _]%runs_ret)].
  rewrite runs_bind in Hrun by solve_tx_body.
  destruct Hrun as (rows & d1 & Hu%runs_exec & Hrun).
  destruct (update_ref_counts_Some _ _ _ _ _ (CollectContentIds_NoDup decs) Hu)
    as (Hframe & Hout & Hupd).
  rewrite runs_bind in Hrun by solve_tx_body.
  destruct Hrun as (zero & d2 & [-> ->]%runs_query & Hrun).
  rewrite runs_bind in Hrun by solve_tx_body.
  destruct Hrun as (u & d3 & Hgc & [_ Heq]%runs_ret). subst d3.
  assert (queue_ok d1) as Hd1.
  { rewrite Hframe. exact Hd. }
  destruct (runs_enqueue_gc _ _ _ _ _ Hd1 Hgc) as (Hd' & Hc' & _ & Hsched).
  destruct (Hupd id c Hin Hc) as (r & Hr & Hid).
  unfold delta_of in Hr. rewrite Hk in Hr. simpl in Hr.
  apply bind_Some in Hr as (r' & [-> _]%int4_Some & [= <-]).
  eexists. rewrite Hc'. split; [exact Hid|]. split; [done|]. split.
  - intros i Hi. apply Hout. unfold CollectContentIds. intros ([i' n'] & -> & Hl)%list_elem_of_fmap.
    apply elem_of_map_to_list, map_lookup_filter_Some in Hl as [Hl _]. cbn in *. congruence.
  - intros Hzero st cs Hst. assert (gc_scheduled id d') as Hg.
    { eapply Hsched. unfold zero_ref_contents. apply list_elem_of_omap. exists id. split; [done|].
      rewrite Hid. cbn in Hzero |- *. by rewrite Hzero. }
    split.
    + intros m Hm. apply increment_gated; try done. rewrite Hc', Hid. eauto.
    + intros content expected Hfind Hsize Hexp. by eapply acquire_gated.
Qed.

(** ** Witnesses *)

Definition example_contents : Database :=
  (empty_db 100) <| file_contents := {[5%Z := mkContentRow "m5" "s256" 10 "p/5" "" 1]} |>.

Lemma decrement_closes_gate_witness :
  ∃ d', IncrementRefCount 5 1 (mkEnv d' [] AutoCommit []) =
    (Ret (Err GateError), mkEnv d' [] AutoCommit []) ∧
    file_contents d' !! 5%Z = Some (mkContentRow "m5" "s256" 10 "p/5" "" 0).
Proof.
  set (m := DecrementRefCountsAndEnqueueGc {[5%Z := 1%Z]}).
  set (d' := db (clean m example_contents).2).
  assert (runs m example_contents example_contents (Ok 1%Z) d') as Hrun by reflexivity.
  destruct (decrement_closes_gate {[5%Z := 1%Z]} example_contents example_contents 1 d' 5 1
    (mkContentRow "m5" "s256" 10 "p/5" "" 1) (empty_queue_ok 100) Hrun)
    as (c' & Hc' & -> & _ & Hgate); [reflexivity|done|reflexivity|done|].
  exists d'. split; [|exact Hc'].
  destruct (Hgate eq_refl AutoCommit []) as [Hinc _]; [done|]. by apply Hinc.
Defined.
