(* ===== verification/JobContract.v ===== *)
(** * Storage job contracts

    [src/src/services/StorageJobContract.cpp]: how the periodic jobs and the staging
    cleanup job are encoded in the queue, and how a worker decodes and checks them.
    The validation of reconciliation pages is that of
    [src/src/services/StorageReconciliationService.cpp].  The SHA-256 digest is
    computed by a cryptographic library and is a parameter. *)

From S2P Require Import Prelude Errors Storage Json StorageJobs.

Local Open Scope string_scope.

(** ** Results with a message

    [std::expected<T, std::string>]. *)
Inductive expected (A : Type) :=
  | Value (a : A)
  | Unexpected (error : string).
Arguments Value {A} a.
Arguments Unexpected {A} error.

#[global] Instance expected_bind : MBind expected := λ A B f x,
  match x with Value a => f a | Unexpected e => Unexpected e end.

Definition guard_expected (ok : bool) (error : string) : expected unit :=
  if ok then Value tt else Unexpected error.

Lemma guard_expected_Value ok e u : guard_expected ok e = Value u ↔ ok = true.
Proof. by destruct ok, u. Qed.

Lemma bind_Value {A B} (x : expected A) (f : A → expected B) b :
  x ≫= f = Value b ↔ ∃ a, x = Value a ∧ f a = Value b.
Proof.
  destruct x as [a|e]; split.
  - intros H. exists a. exact (conj eq_refl H).
  - by intros (a' & [= <-] & H).
  - done.
  - by intros (a' & ? & _).
Qed.

(** ** Validation *)

Definition is_alnum (c : Ascii.ascii) : bool :=
  let n := Z.of_nat (Ascii.nat_of_ascii c) in
  (((48 <=? n) && (n <=? 57)) || ((65 <=? n) && (n <=? 90)) || ((97 <=? n) && (n <=? 122)))%Z.

(** Letters, digits, and the characters ['.'], ['_'], [':'] and ['-']. *)
Definition is_scan_id_char (c : Ascii.ascii) : bool :=
  let n := Z.of_nat (Ascii.nat_of_ascii c) in
  (is_alnum c || (n =? 46) || (n =? 95) || (n =? 58) || (n =? 45))%Z.

Definition IsSafeScanId (scan_id : string) : bool :=
  negb (str_empty scan_id) && (strlen scan_id <=? 64)%Z &&
  forallb is_scan_id_char (String.list_ascii_of_string scan_id).

Definition ValidateObjectShape (payload : json) (expected_fields : Z) (job_type : string)
  : expected unit :=
  guard_expected (isObject payload && (json_size payload =? expected_fields)%Z)
    (job_type ++ " payload has an invalid object shape").

(** A job whose [max_attempts] is the default. *)
Definition new_job (job_type aggregate_id dedupe_key : string) (payload : json) : NewStorageJob :=
  mkNewStorageJob job_type aggregate_id dedupe_key payload kDefaultMaxAttempts.

(** ** Staging cleanup *)

Definition BuildStagingCleanupJob (session : UploadStagingSession) : NewStorageJob :=
  new_job kStagingCleanupJobType (ss_upload_id session)
    ("staging-cleanup:" ++ ss_upload_id session)
    (JObject [("upload_id", JString (ss_upload_id session));
              ("backend", JString (BackendToStorageValue (ss_backend session)));
              ("prefix", JString (ss_prefix session))]).

(** ** Expired uploads *)

Definition kMaxExpireUploadsPageSize : Z := 500.
Definition kMaxExpireTrashPageSize : Z := 500.

Record ExpireUploadsPageRequest := mkExpireUploadsPageRequest {
  eu_scan_id : string;
  eu_page : Z;
  eu_limit : Z
}.

Definition ValidateExpireUploadsPageRequest (request : ExpireUploadsPageRequest)
  : expected unit :=
  _ ← guard_expected (IsSafeScanId (eu_scan_id request)) "expire_uploads scan_id is invalid";
  _ ← guard_expected (negb (eu_page request =? u64_max)%Z)
        "expire_uploads page cannot be incremented";
  guard_expected
    (negb ((eu_limit request =? 0) || (kMaxExpireUploadsPageSize <? eu_limit request))%Z)
    "expire_uploads limit must be in range 1-500".

Definition BuildExpireUploadsJob (request : ExpireUploadsPageRequest) : expected NewStorageJob :=
  _ ← ValidateExpireUploadsPageRequest request;
  Value (new_job kExpireUploadsJobType (eu_scan_id request)
    ("periodic:expire-uploads:" ++ eu_scan_id request ++ ":" ++ to_string (eu_page request))
    (JObject [("scan_id", JString (eu_scan_id request)); ("page", JInt (eu_page request));
              ("limit", JInt (eu_limit request))])).

Definition ParseExpireUploadsJob (job : StorageJob) : expected ExpireUploadsPageRequest :=
  let payload := sj_payload job in
  _ ← guard_expected (sj_job_type job =? kExpireUploadsJobType)
        "expire_uploads job type does not match parser";
  _ ← ValidateObjectShape payload 3 kExpireUploadsJobType;
  _ ← guard_expected (isString (json_get payload "scan_id") &&
        isUInt64 (json_get payload "page") && isUInt64 (json_get payload "limit") &&
        (asUInt64 (json_get payload "limit") <=? u64_max)%Z)
        "expire_uploads payload field types are invalid";
  let request := mkExpireUploadsPageRequest (asString (json_get payload "scan_id"))
    (asUInt64 (json_get payload "page")) (asUInt64 (json_get payload "limit")) in
  expected_job ← BuildExpireUploadsJob request;
  _ ← guard_expected (sj_aggregate_id job =? nj_aggregate_id expected_job)
        "expire_uploads aggregate_id does not match scan_id";
  _ ← guard_expected (sj_dedupe_key job =? nj_dedupe_key expected_job)
        "expire_uploads dedupe_key does not match payload";
  Value request.

(** ** Expired trash *)

Record ExpireTrashPageRequest := mkExpireTrashPageRequest {
  et_scan_id : string;
  et_after_id : Z;
  et_limit : Z
}.

Definition ValidateExpireTrashPageRequest (request : ExpireTrashPageRequest) : expected unit :=
  _ ← guard_expected (IsSafeScanId (et_scan_id request)) "expire_trash scan_id is invalid";
  _ ← guard_expected (negb (et_after_id request =? u64_max)%Z)
        "expire_trash after_id cannot advance";
  guard_expected
    (negb ((et_limit request =? 0) || (kMaxExpireTrashPageSize <? et_limit request))%Z)
    "expire_trash limit must be in range 1-500".

Definition BuildExpireTrashJob (request : ExpireTrashPageRequest) : expected NewStorageJob :=
  _ ← ValidateExpireTrashPageRequest request;
  Value (new_job kExpireTrashJobType (et_scan_id request)
    ("periodic:expire-trash:" ++ et_scan_id request ++ ":" ++ to_string (et_after_id request))
    (JObject [("scan_id", JString (et_scan_id request)); ("after_id", JInt (et_after_id request));
              ("limit", JInt (et_limit request))])).

Definition ParseExpireTrashJob (job : StorageJob) : expected ExpireTrashPageRequest :=
  let payload := sj_payload job in
  _ ← guard_expected (sj_job_type job =? kExpireTrashJobType)
        "expire_trash job type does not match parser";
  _ ← ValidateObjectShape payload 3 kExpireTrashJobType;
  _ ← guard_expected (isString (json_get payload "scan_id") &&
        isUInt64 (json_get payload "after_id") && isUInt64 (json_get payload "limit") &&
        (asUInt64 (json_get payload "limit") <=? u64_max)%Z)
        "expire_trash payload field types are invalid";
  let request := mkExpireTrashPageRequest (asString (json_get payload "scan_id"))
    (asUInt64 (json_get payload "after_id")) (asUInt64 (json_get payload "limit")) in
  expected_job ← BuildExpireTrashJob request;
  _ ← guard_expected (sj_aggregate_id job =? nj_aggregate_id expected_job)
        "expire_trash aggregate_id does not match scan_id";
  _ ← guard_expected (sj_dedupe_key job =? nj_dedupe_key expected_job)
        "expire_trash dedupe_key does not match payload";
  Value request.

(** ** Reconciliation pages *)

Inductive ReconciliationScope := Contents | Users | Staging | Final.

#[global] Instance ReconciliationScope_eq_dec : EqDecision ReconciliationScope.
Proof. solve_decision. Defined.

(** [ToStorageValue(ReconciliationScope)]. *)
Definition ScopeToStorageValue (scope : ReconciliationScope) : string :=
  match scope with
  | Contents => "contents"
  | Users => "users"
  | Staging => "staging"
  | Final => "final"
  end.

Definition ParseReconciliationScope (value : string) : option ReconciliationScope :=
  if String.eqb value "contents" then Some Contents
  else if String.eqb value "users" then Some Users
  else if String.eqb value "staging" then Some Staging
  else if String.eqb value "final" then Some Final
  else None.

Record ReconciliationPageRequest := mkReconciliationPageRequest {
  rp_scan_id : string;
  rp_scope : ReconciliationScope;
  rp_after_id : Z;
  rp_continuation_token : string;
  rp_limit : Z
}.

Definition kMaxDatabaseReconciliationPageSize : Z := 500.
Definition kMaxObjectReconciliationPageSize : Z := 1000.

Definition ValidateReconciliationPageRequest (request : ReconciliationPageRequest)
  : Result unit :=
  let is_database_scope :=
    bool_decide (rp_scope request = Contents ∨ rp_scope request = Users) in
  let maximum := if is_database_scope then kMaxDatabaseReconciliationPageSize
                 else kMaxObjectReconciliationPageSize in
  _ ← require (IsSafeScanId (rp_scan_id request))
        (mkErrorInfo ValidationFailed "Invalid reconciliation scan ID");
  _ ← require (negb ((rp_limit request =? 0) || (maximum <? rp_limit request))%Z)
        (mkErrorInfo ValidationFailed "Invalid reconciliation page size");
  _ ← require (negb (is_database_scope && negb (str_empty (rp_continuation_token request))))
        (mkErrorInfo ValidationFailed "Database reconciliation cannot use an object cursor");
  _ ← require (negb (negb is_database_scope && negb (rp_after_id request =? 0)%Z))
        (mkErrorInfo ValidationFailed "Object reconciliation cannot use a database cursor");
  require (strlen (rp_continuation_token request) <=? 4096)%Z
    (mkErrorInfo ValidationFailed "Reconciliation continuation token is too long").

Section digest.
(** [FileHashUtil::HashSha256], which calls the cryptographic library. *)
Context (HashSha256 : string → string).

(** The character ["\n"]. *)
Definition newline : string := String (Ascii.ascii_of_nat 10) EmptyString.

Definition BuildReconciliationCursorDigest (request : ReconciliationPageRequest) : string :=
  HashSha256 (ScopeToStorageValue (rp_scope request) ++ newline ++
    to_string (rp_after_id request) ++ newline ++ rp_continuation_token request).

Definition BuildStorageReconcileJob (request : ReconciliationPageRequest)
  : expected NewStorageJob :=
  match ValidateReconciliationPageRequest request with
  | Err e => Unexpected (message e)
  | Ok _ =>
      let scope := ScopeToStorageValue (rp_scope request) in
      Value (new_job kStorageReconcileJobType (rp_scan_id request)
        ("periodic:storage-reconcile:" ++ rp_scan_id request ++ ":" ++ scope ++ ":" ++
         BuildReconciliationCursorDigest request)
        (JObject [("scan_id", JString (rp_scan_id request)); ("scope", JString scope);
                  ("after_id", JInt (rp_after_id request));
                  ("continuation_token", JString (rp_continuation_token request));
                  ("limit", JInt (rp_limit request))]))
  end.

Definition ParseStorageReconcileJob (job : StorageJob) : expected ReconciliationPageRequest :=
  let payload := sj_payload job in
  _ ← guard_expected (sj_job_type job =? kStorageReconcileJobType)
        "storage_reconcile job type does not match parser";
  _ ← ValidateObjectShape payload 5 kStorageReconcileJobType;
  _ ← guard_expected (isString (json_get payload "scan_id") &&
        isString (json_get payload "scope") && isUInt64 (json_get payload "after_id") &&
        isString (json_get payload "continuation_token") &&
        isUInt64 (json_get payload "limit") &&
        (asUInt64 (json_get payload "limit") <=? u64_max)%Z)
        "storage_reconcile payload field types are invalid";
  match ParseReconciliationScope (asString (json_get payload "scope")) with
  | None => Unexpected "storage_reconcile scope is invalid"
  | Some scope =>
      let request := mkReconciliationPageRequest (asString (json_get payload "scan_id")) scope
        (asUInt64 (json_get payload "after_id"))
        (asString (json_get payload "continuation_token"))
        (asUInt64 (json_get payload "limit")) in
      expected_job ← BuildStorageReconcileJob request;
      _ ← guard_expected (sj_aggregate_id job =? nj_aggregate_id expected_job)
            "storage_reconcile aggregate_id does not match scan_id";
      _ ← guard_expected (sj_dedupe_key job =? nj_dedupe_key expected_job)
            "storage_reconcile dedupe_key does not match payload";
      Value request
  end.
End digest.

(** ** Lemmas *)

#[local] Arguments BuildExpireUploadsJob : simpl never.
#[local] Arguments BuildExpireTrashJob : simpl never.
#[local] Arguments BuildStorageReconcileJob : simpl never.

(** A queued job carries what was enqueued. *)
Definition carries (job : StorageJob) (n : NewStorageJob) : Prop :=
  sj_job_type job = nj_job_type n ∧ sj_aggregate_id job = nj_aggregate_id n ∧
  sj_dedupe_key job = nj_dedupe_key n ∧ sj_payload job = nj_payload n.

Lemma isUInt64_JInt z : (0 <= z <= u64_max)%Z → isUInt64 (JInt z) = true.
Proof. intros. unfold isUInt64. simpl. apply andb_true_iff. rewrite !Z.leb_le. lia. Qed.

Lemma asUInt64_nonneg j : isUInt64 j = true → (0 <= asUInt64 j)%Z.
Proof. unfold isUInt64, asUInt64. case_match; [|done]. intros. case_bools. lia. Qed.

Lemma parse_scope_value scope : ParseReconciliationScope (ScopeToStorageValue scope) = Some scope.
Proof. by destruct scope. Qed.

Ltac inv_expected :=
  repeat match goal with
  | H : _ ≫= _ = Value _ |- _ => apply bind_Value in H as (? & ? & H)
  | H : guard_expected _ _ = Value _ |- _ => apply guard_expected_Value in H
  end.

Lemma expire_uploads_limit request job :
  BuildExpireUploadsJob request = Value job → (0 <= eu_limit request)%Z →
  (1 <= eu_limit request <= 500)%Z.
Proof.
  unfold BuildExpireUploadsJob, ValidateExpireUploadsPageRequest, kMaxExpireUploadsPageSize.
  intros H Hl. inv_expected. case_bools. lia.
Qed.

Lemma expire_trash_limit request job :
  BuildExpireTrashJob request = Value job → (0 <= et_limit request)%Z →
  (1 <= et_limit request <= 500)%Z.
Proof.
  unfold BuildExpireTrashJob, ValidateExpireTrashPageRequest, kMaxExpireTrashPageSize.
  intros H Hl. inv_expected. case_bools. lia.
Qed.

Lemma reconcile_limit sha request job :
  BuildStorageReconcileJob sha request = Value job → (0 <= rp_limit request)%Z →
  (1 <= rp_limit request <= 1000)%Z.
Proof.
  unfold BuildStorageReconcileJob, ValidateReconciliationPageRequest.
  destruct (_ ≫= _) eqn:E; [|done]. intros _ Hl.
  apply result_bind_Ok in E as (? & _ & E).
  apply result_bind_Ok in E as (? & E%require_Ok & _).
  unfold kMaxDatabaseReconciliationPageSize, kMaxObjectReconciliationPageSize in E.
  case_bools. case_match; lia.
Qed.

Definition is_u64 (z : Z) : Prop := (0 <= z <= u64_max)%Z.

Lemma build_expire_uploads r n :
  BuildExpireUploadsJob r = Value n →
  n = new_job kExpireUploadsJobType (eu_scan_id r)
    ("periodic:expire-uploads:" ++ eu_scan_id r ++ ":" ++ to_string (eu_page r))
    (JObject [("scan_id", JString (eu_scan_id r)); ("page", JInt (eu_page r));
              ("limit", JInt (eu_limit r))]).
Proof. unfold BuildExpireUploadsJob. intros H. inv_expected. by simplify_eq. Qed.

Lemma build_expire_trash r n :
  BuildExpireTrashJob r = Value n →
  n = new_job kExpireTrashJobType (et_scan_id r)
    ("periodic:expire-trash:" ++ et_scan_id r ++ ":" ++ to_string (et_after_id r))
    (JObject [("scan_id", JString (et_scan_id r)); ("after_id", JInt (et_after_id r));
              ("limit", JInt (et_limit r))]).
Proof. unfold BuildExpireTrashJob. intros H. inv_expected. by simplify_eq. Qed.

Lemma build_reconcile sha r n :
  BuildStorageReconcileJob sha r = Value n →
  n = new_job kStorageReconcileJobType (rp_scan_id r)
    ("periodic:storage-reconcile:" ++ rp_scan_id r ++ ":" ++ ScopeToStorageValue (rp_scope r) ++
     ":" ++ BuildReconciliationCursorDigest sha r)
    (JObject [("scan_id", JString (rp_scan_id r));
              ("scope", JString (ScopeToStorageValue (rp_scope r)));
              ("after_id", JInt (rp_after_id r));
              ("continuation_token", JString (rp_continuation_token r));
              ("limit", JInt (rp_limit r))]).
Proof.
  unfold BuildStorageReconcileJob. destruct (ValidateReconciliationPageRequest r); [|done].
  by intros [= <-].
Qed.

(** Discharges the leading guard or builder of a parser. *)
Ltac parse_step :=
  apply bind_Value;
  first [exists tt; split; [apply guard_expected_Value; try reflexivity|]
        | eexists; split; [eassumption|]].

Lemma expire_uploads_roundtrip r n job :
  BuildExpireUploadsJob r = Value n → carries job n → is_u64 (eu_page r) → is_u64 (eu_limit r) →
  ParseExpireUploadsJob job = Value r.
Proof.
  intros Hn (Ht & Ha & Hk & Hp) Hpage Hlimit. pose proof (build_expire_uploads _ _ Hn) as En.
  unfold ParseExpireUploadsJob. rewrite Ht, Ha, Hk, Hp, En. destruct r.
  parse_step. parse_step. parse_step.
  { cbn -[isUInt64 Z.leb u64_max]. rewrite !isUInt64_JInt by done. apply Z.leb_le, Hlimit. }
  parse_step. rewrite En.
  parse_step; [by apply String.eqb_eq|]. parse_step; [by apply String.eqb_eq|].
  reflexivity.
Qed.

Lemma expire_trash_roundtrip r n job :
  BuildExpireTrashJob r = Value n → carries job n → is_u64 (et_after_id r) → is_u64 (et_limit r) →
  ParseExpireTrashJob job = Value r.
Proof.
  intros Hn (Ht & Ha & Hk & Hp) Hpage Hlimit. pose proof (build_expire_trash _ _ Hn) as En.
  unfold ParseExpireTrashJob. rewrite Ht, Ha, Hk, Hp, En. destruct r.
  parse_step. parse_step. parse_step.
  { cbn -[isUInt64 Z.leb u64_max]. rewrite !isUInt64_JInt by done. apply Z.leb_le, Hlimit. }
  parse_step. rewrite En.
  parse_step; [by apply String.eqb_eq|]. parse_step; [by apply String.eqb_eq|].
  reflexivity.
Qed.

Lemma reconcile_roundtrip sha r n job :
  BuildStorageReconcileJob sha r = Value n → carries job n → is_u64 (rp_after_id r) → is_u64 (rp_limit r) →
  ParseStorageReconcileJob sha job = Value r.
Proof.
  intros Hn (Ht & Ha & Hk & Hp) Hpage Hlimit. pose proof (build_reconcile _ _ _ Hn) as En.
  unfold ParseStorageReconcileJob. rewrite Ht, Ha, Hk, Hp, En. destruct r.
  parse_step. parse_step. parse_step.
  { cbn -[isUInt64 Z.leb u64_max]. rewrite !isUInt64_JInt by done. apply Z.leb_le, Hlimit. }
  change (asString _) with (ScopeToStorageValue rp_scope0) at 1. rewrite parse_scope_value.
  parse_step. rewrite En.
  parse_step; [by apply String.eqb_eq|]. parse_step; [by apply String.eqb_eq|].
  reflexivity.
Qed.

(** A queue entry for a page of a scan. *)
Definition example_job (page : Z) : StorageJob :=
  mkStorageJob 1 "expire_uploads" "scan-1" ("periodic:expire-uploads:scan-1:" ++ to_string page)
    (JObject [("scan_id", JString "scan-1"); ("page", JInt page); ("limit", JInt 100)])
    Running 1 5 "w" false.

(** ** Properties *)

(** What a builder of a periodic job encodes, the parser of that job decodes:
    a queue entry carrying a built job parses back to the request it was built
    from, for each of the three kinds of periodic job. *)
Lemma periodic_jobs_roundtrip sha :
  (∀ r n job, BuildExpireUploadsJob r = Value n → carries job n →
     is_u64 (eu_page r) → is_u64 (eu_limit r) → ParseExpireUploadsJob job = Value r) ∧
  (∀ r n job, BuildExpireTrashJob r = Value n → carries job n →
     is_u64 (et_after_id r) → is_u64 (et_limit r) → ParseExpireTrashJob job = Value r) ∧
  (∀ r n job, BuildStorageReconcileJob sha r = Value n → carries job n →
     is_u64 (rp_after_id r) → is_u64 (rp_limit r) → ParseStorageReconcileJob sha job = Value r).
Proof.
  split_and!; eauto using expire_uploads_roundtrip, expire_trash_roundtrip, reconcile_roundtrip.
Qed.

Lemma periodic_jobs_roundtrip_witness :
  ParseExpireUploadsJob (example_job 7) = Value (mkExpireUploadsPageRequest "scan-1" 7 100) ∧
  ParseExpireUploadsJob (example_job u64_max) =
    Unexpected "expire_uploads page cannot be incremented".
Proof.
  split; [|vm_compute; reflexivity].
  apply (proj1 (periodic_jobs_roundtrip (λ s, s)) (mkExpireUploadsPageRequest "scan-1" 7 100)
    (new_job "expire_uploads" "scan-1" "periodic:expire-uploads:scan-1:7"
       (sj_payload (example_job 7))));
    [vm_compute; reflexivity | repeat split | done..].
Defined.

(** A parser accepts only jobs the builder makes.  A queue entry that parses
    names the kind, aggregate and dedupe key the builder computes from the parsed
    request, and the page size is within its bound. *)
Lemma parsed_jobs_are_built sha job :
  (∀ r, ParseExpireUploadsJob job = Value r → ∃ n, BuildExpireUploadsJob r = Value n ∧
     sj_job_type job = nj_job_type n ∧ sj_aggregate_id job = nj_aggregate_id n ∧
     sj_dedupe_key job = nj_dedupe_key n ∧ (1 <= eu_limit r <= 500)%Z) ∧
  (∀ r, ParseExpireTrashJob job = Value r → ∃ n, BuildExpireTrashJob r = Value n ∧
     sj_job_type job = nj_job_type n ∧ sj_aggregate_id job = nj_aggregate_id n ∧
     sj_dedupe_key job = nj_dedupe_key n ∧ (1 <= et_limit r <= 500)%Z) ∧
  (∀ r, ParseStorageReconcileJob sha job = Value r → ∃ n,
     BuildStorageReconcileJob sha r = Value n ∧
     sj_job_type job = nj_job_type n ∧ sj_aggregate_id job = nj_aggregate_id n ∧
     sj_dedupe_key job = nj_dedupe_key n ∧ (1 <= rp_limit r <= 1000)%Z).
Proof.
  split_and!; intros r H.
  - unfold ParseExpireUploadsJob in H. inv_expected. injection H as <-. case_bools.
    eexists. split; [done|]. rewrite (build_expire_uploads _ _ ltac:(eassumption)) in *.
    split_and!; try done; (eapply expire_uploads_limit; [eassumption|by apply asUInt64_nonneg]).
  - unfold ParseExpireTrashJob in H. inv_expected. injection H as <-. case_bools.
    eexists. split; [done|]. rewrite (build_expire_trash _ _ ltac:(eassumption)) in *.
    split_and!; try done; (eapply expire_trash_limit; [eassumption|by apply asUInt64_nonneg]).
  - unfold ParseStorageReconcileJob in H. inv_expected. case_match; [|done]. inv_expected.
    injection H as <-. case_bools.
    eexists. split; [done|]. rewrite (build_reconcile _ _ _ ltac:(eassumption)) in *.
    split_and!; try done; (eapply reconcile_limit; [eassumption|by apply asUInt64_nonneg]).
Qed.


Lemma parsed_jobs_are_built_witness :
  ∃ n, BuildExpireUploadsJob (mkExpireUploadsPageRequest "scan-1" 7 100) = Value n ∧
    sj_dedupe_key (example_job 7) = nj_dedupe_key n.
Proof.
  destruct (proj1 (parsed_jobs_are_built (λ s, s) (example_job 7))
    (mkExpireUploadsPageRequest "scan-1" 7 100)) as (n & Hn & _ & _ & Hk & _);
    [vm_compute; reflexivity|].
  exists n. by split.
Defined.
