(* ===== verification/JobAdmin.v ===== *)
(** * Recovery by administrators

    [src/src/services/StorageJobAdminService.cpp] and
    [src/src/services/StorageRecoveryAdminService.cpp]: looking at a job and putting a dead
    letter back into the queue, releasing the lease of a finalizer, scheduling a lost clean-up
    and starting a reconciliation.  A command is first run dry; the real one repeats what it is
    about and leaves an entry in the audit trail.  The texts of timestamps are answered as the
    timestamps. *)

From S2P Require Import Prelude Errors Storage Db UploadState Json Schema OperationLogs.
From S2P Require Import UploadTasks StorageJobs JobContract.

Local Open Scope string_scope.

Section admin.
(** The fields that correlate a log entry with its request. *)
Context (correlation : list (string * json)).

Definition audit_row (audit : AuditContext) (action target_type : string) (target_id : option Z)
    (target_name ip_address : string) (details : list (string * json)) (date : Z)
  : OperationLogRow :=
  mkOperationLogRow (Some (i64 (au_operator_id audit))) action (Some target_type) target_id
    (Some target_name) (Some (JObject (details ++ correlation)%list)) (Bounded ip_address 45)
    (nullif_empty (Bounded (au_user_agent audit) 512)) date.

(** ** Jobs *)

Record StorageJobItem := mkStorageJobItem {
  si_id : Z;
  si_job_type : string;
  si_aggregate_id : string;
  si_dedupe_key : string;
  si_payload : json;
  si_status : StorageJobStatus;
  si_attempts : Z;
  si_max_attempts : Z;
  si_available_at : Z;
  si_locked_by : option string;
  si_locked_until : option Z;
  si_last_error : option string;
  si_created_at : Z;
  si_completed_at : option Z
}.

(** [ParsePayload]: a document that is no object throws. *)
Definition ParsePayload (payload : json) : M Database json :=
  if isObject payload then mret payload
  else raise (RuntimeError "Storage job payload is not a JSON object").

Definition ToStorageJobItem (id : Z) (j : JobRow) (include_payload : bool)
  : M Database StorageJobItem :=
  match ParseStorageJobStatus (j_status j) with
  | None => raise (RuntimeError "Storage job has an invalid status")
  | Some status =>
      payload ← (if include_payload then ParsePayload (j_payload j) else mret (JObject []));
      mret (mkStorageJobItem id (j_job_type j) (j_aggregate_id j) (j_dedupe_key j) payload status
        (j_attempts j) (j_max_attempts j) (j_available_at j) (j_locked_by j) (j_locked_until j)
        (j_last_error j) (j_created_at j) (j_completed_at j))
  end.

Record StorageJobReplayRequest := mkStorageJobReplayRequest {
  sr_dry_run : bool;
  sr_confirm_job_id : option Z;
  sr_reason : string
}.

Record StorageJobReplayResponse := mkStorageJobReplayResponse {
  sp_job : StorageJobItem;
  sp_dry_run : bool;
  sp_eligible : bool;
  sp_replayed : bool
}.

Definition JobNotFound : ErrorInfo := mkErrorInfo ResourceNotFound "Storage job not found".

(** The row of a dead letter that is put back. *)
Definition revive (now : Z) (j : JobRow) : JobRow :=
  j <| j_status := JobToStorageValue Pending |> <| j_attempts := 0%Z |> <| j_available_at := now |>
    <| j_locked_by := None |> <| j_locked_until := None |> <| j_last_error := None |>
    <| j_completed_at := None |>.

Definition replay_statement (job_id : Z) (d : Database) : option (option JobRow * Database) :=
  update_job job_id (job_is DeadLetter) (λ j, Some (revive (now d) j)) d.

Definition replay_details (job_id : Z) (current : StorageJobItem) (reason : string)
  : list (string * json) :=
  [("job_id", JInt job_id); ("job_type", JString (si_job_type current));
   ("dedupe_key", JString (si_dedupe_key current));
   ("previous_status", JString (StorageJobStatusName (si_status current)));
   ("previous_attempts", JInt (si_attempts current)); ("reason", JString reason)].

Definition ReplayInTransaction (job_id : Z) (request : StorageJobReplayRequest)
    (audit : AuditContext) : M Database (Result StorageJobItem) :=
  selected ← query (λ d, storage_jobs d !! i64 job_id);
  match (selected : option JobRow) with
  | None => mret (Err JobNotFound)
  | Some row =>
      current ← ToStorageJobItem (i64 job_id) row true;
      if decide (si_status current ≠ DeadLetter) then
        mret (Err (mkErrorInfo ResourceConflict "Storage job is not in dead-letter state"))
      else
        updated ← exec (replay_statement (i64 job_id));
        match (updated : option JobRow) with
        | None => mret (Err (mkErrorInfo ResourceConflict
                               "Storage job replay lost a concurrent race"))
        | Some row =>
            replayed_job ← ToStorageJobItem (i64 job_id) row true;
            let ip_address := if str_empty (au_ip_address audit) then "unknown"
                              else au_ip_address audit in
            _ ← exec (λ d, insert_operation_log
                  (audit_row audit "admin.storage_job.replay" "storage_job" (Some (i64 job_id))
                     (si_dedupe_key current) ip_address
                     (replay_details job_id current (sr_reason request)) (now d)) d);
            mret (Ok replayed_job)
        end
  end.

Definition Get (job_id : Z) : M Database (Result StorageJobItem) :=
  catch_all
    (row ← query (λ d, storage_jobs d !! i64 job_id);
     match (row : option JobRow) with
     | None => mret (Err JobNotFound)
     | Some row => item ← ToStorageJobItem (i64 job_id) row true; mret (Ok item)
     end)
    (mret (Err (mkErrorInfo InternalError "Failed to get storage job"))).

Definition ReplayFailed : ErrorInfo := mkErrorInfo InternalError "Failed to replay storage job".

(** The confirmation a real replay needs. *)
Definition replay_confirmed (job_id : Z) (request : StorageJobReplayRequest) (audit : AuditContext)
  : bool :=
  negb (au_operator_id audit =? 0)%Z && bool_decide (sr_confirm_job_id request = Some job_id) &&
  negb (str_empty (sr_reason request)).

Definition Replay (job_id : Z) (request : StorageJobReplayRequest) (audit : AuditContext)
  : M Database (Result StorageJobReplayResponse) :=
  if sr_dry_run request then
    let* job := Get job_id in
    mret (Ok (mkStorageJobReplayResponse job true (bool_decide (si_status job = DeadLetter)) false))
  else if negb (replay_confirmed job_id request audit) then
    mret (Err (mkErrorInfo ValidationFailed "Storage job replay confirmation is incomplete"))
  else
    let* replayed_job := Run ReplayFailed (ReplayInTransaction job_id request audit) in
    mret (Ok (mkStorageJobReplayResponse replayed_job false true true)).

(** ** Leases of finalizers *)

(** [ParseUploadStatus] and [ParseJobStatus]. *)
Definition ParseUploadStatus (t : UploadTaskRow) : M Database UploadTaskStatus :=
  match UploadTaskStatusFromStorage (t_status t) with
  | None => raise (RuntimeError "Upload task contains an invalid status")
  | Some status => mret status
  end.

Definition ParseJobStatus (j : JobRow) : M Database StorageJobStatus :=
  match ParseStorageJobStatus (j_status j) with
  | None => raise (RuntimeError "Storage job contains an invalid status")
  | Some status => mret status
  end.

Record UploadLeaseReleaseRequest := mkUploadLeaseReleaseRequest {
  lr_upload_id : string;
  lr_dry_run : bool;
  lr_confirm_upload_id : option string;
  lr_expected_state_version : option Z;
  lr_expected_lease_owner : option string;
  lr_reason : string
}.

Record UploadLeaseReleaseResponse := mkUploadLeaseReleaseResponse {
  lp_upload_id : string;
  lp_dry_run : bool;
  lp_eligible : bool;
  lp_released : bool;
  lp_status : UploadTaskStatus;
  lp_state_version : Z;
  lp_lease_owner : option string;
  lp_lease_expires_at : option Z;
  lp_lease_expired : bool
}.

(** [COALESCE(lease_expires_at <= NOW(), FALSE)]. *)
Definition lease_expired (now : Z) (t : UploadTaskRow) : bool := ts_le (t_lease_expires_at t) now.

(** [now] is the time of the statement that answered the row. *)
Definition LeaseResponseFromRow (id : string) (t : UploadTaskRow) (now : Z)
    (request : UploadLeaseReleaseRequest) : M Database UploadLeaseReleaseResponse :=
  status ← ParseUploadStatus t;
  let version_matches := match lr_expected_state_version request with
                         | None => true | Some v => (v =? t_state_version t)%Z end in
  let owner_matches := match lr_expected_lease_owner request with
                       | None => true | Some w => opt_eqb (t_lease_owner t) w end in
  let eligible := bool_decide (status = Finalizing) && bool_decide (is_Some (t_lease_owner t)) &&
    bool_decide (is_Some (t_lease_expires_at t)) && negb (lease_expired now t) &&
    version_matches && owner_matches in
  mret (mkUploadLeaseReleaseResponse id (lr_dry_run request) eligible false status
    (t_state_version t) (t_lease_owner t) (t_lease_expires_at t) (lease_expired now t)).

Definition TaskNotFound : ErrorInfo := mkErrorInfo ResourceNotFound "Upload task not found".

Definition release_statement (upload_id lease_owner : string) (expected_state_version : Z)
    (d : Database) : option (option UploadTaskRow * Database) :=
  update_task upload_id
    (λ t, is_status Finalizing t && opt_eqb (t_lease_owner t) lease_owner &&
      (t_state_version t =? expected_state_version)%Z && ts_gt (t_lease_expires_at t) (now d))
    (λ t, v ← next_version t;
      Some (t <| t_lease_expires_at := Some (now d) |> <| t_state_version := v |>)) d.

(** [RecordAudit]: unlike the trail of the other services, a failure is not ignored. *)
Definition RecordAudit (audit : AuditContext) (action target_type target_name : string)
    (details : list (string * json)) : M Database unit :=
  exec (λ d, insert_operation_log
    (audit_row audit action target_type None target_name (au_ip_address audit) details (now d)) d).

Definition release_body (request : UploadLeaseReleaseRequest) (owner : string) (version : Z)
    (audit : AuditContext) : M Database (Result UploadLeaseReleaseResponse) :=
  row ← exec (λ d, match release_statement (lr_upload_id request) owner version d with
                   | Some (row, d') => Some ((λ t, (t, now d)) <$> row, d')
                   | None => None
                   end);
  match (row : option (UploadTaskRow * Z)) with
  | None => mret (Err (mkErrorInfo ResourceConflict "Upload lease changed before release"))
  | Some (t, now) =>
      response ← LeaseResponseFromRow (lr_upload_id request) t now request;
      let response := response <| lp_dry_run := false |> <| lp_eligible := true |>
                               <| lp_released := true |> in
      _ ← RecordAudit audit "admin.upload.lease_release" "upload" (lr_upload_id request)
            [("upload_id", JString (lr_upload_id request)); ("expected_lease_owner", JString owner);
             ("previous_state_version", JInt version);
             ("new_state_version", JInt (lp_state_version response));
             ("reason", JString (lr_reason request))];
      mret (Ok response)
  end.

(** [ValidAudit]. *)
Definition ValidAudit (audit : AuditContext) : bool := (0 <? au_operator_id audit)%Z.

Definition ReleaseFailed : ErrorInfo := mkErrorInfo InternalError "Failed to release upload lease".

Definition ReleaseUploadLease (request : UploadLeaseReleaseRequest) (audit : AuditContext)
  : M Database (Result UploadLeaseReleaseResponse) :=
  if lr_dry_run request then
    catch_all
      (row ← query (λ d, (λ t, (t, now d)) <$> upload_tasks d !! lr_upload_id request);
       match (row : option (UploadTaskRow * Z)) with
       | None => mret (Err TaskNotFound)
       | Some (t, now) =>
           response ← LeaseResponseFromRow (lr_upload_id request) t now request; mret (Ok response)
       end)
      (mret (Err (mkErrorInfo InternalError "Failed to inspect upload lease")))
  else
  match lr_expected_state_version request, lr_expected_lease_owner request with
  | Some version, Some owner =>
      if ValidAudit audit &&
         bool_decide (lr_confirm_upload_id request = Some (lr_upload_id request)) &&
         negb (str_empty (lr_reason request))
      then Run ReleaseFailed (release_body request owner version audit)
      else mret (Err (mkErrorInfo ValidationFailed "Upload lease release confirmation is incomplete"))
  | _, _ =>
      mret (Err (mkErrorInfo ValidationFailed "Upload lease release confirmation is incomplete"))
  end.

(** ** Clean-ups *)

Record UploadCleanupRebuildRequest := mkUploadCleanupRebuildRequest {
  cq_upload_id : string;
  cq_dry_run : bool;
  cq_confirm_upload_id : option string;
  cq_expected_state_version : option Z;
  cq_reason : string
}.

Record UploadCleanupRebuildResponse := mkUploadCleanupRebuildResponse {
  cp_upload_id : string;
  cp_dry_run : bool;
  cp_eligible : bool;
  cp_rebuilt : bool;
  cp_status : UploadTaskStatus;
  cp_state_version : Z;
  cp_planned_action : string;
  cp_job_id : option Z;
  cp_job_status : option StorageJobStatus
}.

Record CleanupPlan := mkCleanupPlan {
  pl_response : UploadCleanupRebuildResponse;
  pl_session : UploadStagingSession;
  pl_job : NewStorageJob
}.

(** What the job of a clean-up, if there is one, says: its identifier, its status and the
    planned action. *)
Definition planned (job : NewStorageJob) (existing : option (Z * JobRow))
  : M Database (option Z * option StorageJobStatus * string) :=
  match existing with
  | None => mret (None, None, "create")
  | Some (id, j) =>
      if negb (j_job_type j =? nj_job_type job) || negb (j_aggregate_id j =? nj_aggregate_id job)
      then raise (RuntimeError "Staging cleanup dedupe key belongs to another aggregate")
      else
        status ← ParseJobStatus j;
        mret (Some id, Some status,
          if decide (status = Succeeded) then "rearm_succeeded" else "none")
  end.

Definition LoadCleanupPlan (request : UploadCleanupRebuildRequest)
  : M Database (Result CleanupPlan) :=
  upload ← query (λ d, upload_tasks d !! cq_upload_id request);
  match (upload : option UploadTaskRow) with
  | None => mret (Err TaskNotFound)
  | Some t =>
      status ← ParseUploadStatus t;
      match ParseUploadStagingBackend (t_staging_backend t) with
      | None => raise (RuntimeError "Upload task contains an invalid staging backend")
      | Some backend =>
          let session := mkUploadStagingSession (cq_upload_id request) backend (staging_prefix_of t) in
          let job := BuildStagingCleanupJob session in
          existing ← query (find_job_by_dedupe_key (nj_dedupe_key job));
          '(job_id, job_status, planned_action) ← planned job existing;
          let version_matches := match cq_expected_state_version request with
                                 | None => true | Some v => (v =? t_state_version t)%Z end in
          let eligible := IsTerminalStatus status && version_matches &&
                          negb (planned_action =? "none") in
          mret (Ok (mkCleanupPlan
            (mkUploadCleanupRebuildResponse (cq_upload_id request) (cq_dry_run request) eligible
               false status (t_state_version t) planned_action job_id job_status) session job))
      end
  end.

(** The job of a key, after it was queued. *)
Definition queued_job (dedupe_key missing : string) : M Database (Z * StorageJobStatus) :=
  jobs ← query (find_job_by_dedupe_key dedupe_key);
  match (jobs : option (Z * JobRow)) with
  | None => raise (RuntimeError missing)
  | Some (id, j) => status ← ParseJobStatus j; mret (id, status)
  end.

Definition rebuild_body (request : UploadCleanupRebuildRequest) (audit : AuditContext)
  : M Database (Result UploadCleanupRebuildResponse) :=
  let* plan := LoadCleanupPlan request in
  let response := pl_response plan in
  if negb (cp_eligible response) then
    mret (Err (mkErrorInfo ResourceConflict "Upload cleanup task is not eligible for rebuild"))
  else
    changed ← EnqueueOrRearmSucceeded (pl_job plan);
    if negb (changed : bool) then
      mret (Err (mkErrorInfo ResourceConflict "Upload cleanup task changed before rebuild"))
    else
      '(job_id, job_status) ← queued_job (nj_dedupe_key (pl_job plan))
         "Rebuilt upload cleanup task is missing";
      _ ← RecordAudit audit "admin.upload.cleanup_rebuild" "upload" (cq_upload_id request)
            [("upload_id", JString (cq_upload_id request));
             ("state_version", JInt (cp_state_version response));
             ("planned_action", JString (cp_planned_action response)); ("job_id", JInt job_id);
             ("reason", JString (cq_reason request))];
      mret (Ok (response <| cp_dry_run := false |> <| cp_eligible := true |> <| cp_rebuilt := true |>
                         <| cp_job_id := Some job_id |> <| cp_job_status := Some job_status |>)).

Definition RebuildFailed : ErrorInfo :=
  mkErrorInfo InternalError "Failed to rebuild upload cleanup task".

Definition RebuildUploadCleanup (request : UploadCleanupRebuildRequest) (audit : AuditContext)
  : M Database (Result UploadCleanupRebuildResponse) :=
  if cq_dry_run request then
    catch_all
      (let* plan := LoadCleanupPlan request in mret (Ok (pl_response plan)))
      (mret (Err (mkErrorInfo InternalError "Failed to inspect upload cleanup task")))
  else if ValidAudit audit &&
          bool_decide (cq_confirm_upload_id request = Some (cq_upload_id request)) &&
          bool_decide (is_Some (cq_expected_state_version request)) &&
          negb (str_empty (cq_reason request))
  then Run RebuildFailed (rebuild_body request audit)
  else mret (Err (mkErrorInfo ValidationFailed "Upload cleanup rebuild confirmation is incomplete")).

(** ** Reconciliations *)

Record StorageReconciliationEnqueueRequest := mkStorageReconciliationEnqueueRequest {
  nq_scan_id : string;
  nq_scope : ReconciliationScope;
  nq_dry_run : bool;
  nq_confirm_scan_id : option string;
  nq_reason : string
}.

Record StorageReconciliationEnqueueResponse := mkStorageReconciliationEnqueueResponse {
  np_scan_id : string;
  np_scope : ReconciliationScope;
  np_dry_run : bool;
  np_eligible : bool;
  np_enqueued : bool;
  np_page_size : Z;
  np_dedupe_key : string;
  np_job_id : option Z;
  np_job_status : option StorageJobStatus
}.

Definition ReconciliationPageSize (scope : ReconciliationScope) : Z :=
  if decide (scope = Contents ∨ scope = Users) then kMaxDatabaseReconciliationPageSize
  else kMaxObjectReconciliationPageSize.

Section digest.
Context (HashSha256 : string → string).

Definition FirstReconciliationJob (request : StorageReconciliationEnqueueRequest)
  : expected NewStorageJob :=
  BuildStorageReconcileJob HashSha256 (mkReconciliationPageRequest (nq_scan_id request)
    (nq_scope request) 0 "" (ReconciliationPageSize (nq_scope request))).

Definition LoadReconciliationResponse (request : StorageReconciliationEnqueueRequest)
    (job : NewStorageJob) : M Database StorageReconciliationEnqueueResponse :=
  row ← query (find_job_by_dedupe_key (nj_dedupe_key job));
  let response := mkStorageReconciliationEnqueueResponse (nq_scan_id request) (nq_scope request)
    (nq_dry_run request) (bool_decide (row = None)) false (ReconciliationPageSize (nq_scope request))
    (nj_dedupe_key job) None None in
  match (row : option (Z * JobRow)) with
  | None => mret response
  | Some (id, j) =>
      if negb (j_job_type j =? nj_job_type job) || negb (j_aggregate_id j =? nj_aggregate_id job)
      then raise (RuntimeError "Reconciliation dedupe key belongs to another aggregate")
      else
        status ← ParseJobStatus j;
        mret (response <| np_job_id := Some id |> <| np_job_status := Some status |>)
  end.

Definition reconciliation_body (request : StorageReconciliationEnqueueRequest) (job : NewStorageJob)
    (audit : AuditContext) : M Database (Result StorageReconciliationEnqueueResponse) :=
  current ← LoadReconciliationResponse request job;
  if negb (np_eligible current) then
    mret (Err (mkErrorInfo ResourceConflict "Storage reconciliation scan already exists"))
  else
    enqueued ← Enqueue job;
    if negb (enqueued : bool) then
      mret (Err (mkErrorInfo ResourceConflict
        "Storage reconciliation scan was concurrently enqueued"))
    else
      '(job_id, job_status) ← queued_job (nj_dedupe_key job)
         "Enqueued reconciliation task is missing";
      _ ← RecordAudit audit "admin.storage.reconcile" "reconciliation" (nq_scan_id request)
            [("scan_id", JString (nq_scan_id request));
             ("scope", JString (ScopeToStorageValue (nq_scope request))); ("job_id", JInt job_id);
             ("page_size", JInt (np_page_size current)); ("reason", JString (nq_reason request))];
      mret (Ok (current <| np_dry_run := false |> <| np_eligible := true |> <| np_enqueued := true |>
                        <| np_job_id := Some job_id |> <| np_job_status := Some job_status |>)).

Definition InspectionFailed : ErrorInfo :=
  mkErrorInfo InternalError "Failed to inspect storage reconciliation task".

Definition EnqueueFailed : ErrorInfo :=
  mkErrorInfo InternalError "Failed to enqueue storage reconciliation".

Definition EnqueueReconciliation (request : StorageReconciliationEnqueueRequest)
    (audit : AuditContext) : M Database (Result StorageReconciliationEnqueueResponse) :=
  match FirstReconciliationJob request with
  | Unexpected _ => mret (Err InspectionFailed)
  | Value job =>
      if nq_dry_run request then
        catch_all (response ← LoadReconciliationResponse request job; mret (Ok response))
          (mret (Err InspectionFailed))
      else if ValidAudit audit &&
              bool_decide (nq_confirm_scan_id request = Some (nq_scan_id request)) &&
              negb (str_empty (nq_reason request))
      then Run EnqueueFailed (reconciliation_body request job audit)
      else mret (Err (mkErrorInfo ValidationFailed
                        "Storage reconciliation confirmation is incomplete"))
  end.
End digest.
End admin.
