(* ===== verification/RecoveryLaws.v ===== *)
(** * What recovery commands guarantee

    A command that is carried out acts on what its operator confirmed, leaves one entry in the
    audit trail with it, and touches nothing else; one that is refused leaves no trace. *)

From S2P Require Import Prelude Errors Storage Db UploadState Json Schema OperationLogs.
From S2P Require Import UploadTasks StorageJobs JobContract JobAdmin.

Local Open Scope string_scope.

Section laws.
Context (correlation : list (string * json)).

(** An entry of the trail is added. *)
Definition logged (entry : OperationLogRow) (d : Database) : Database :=
  d <| operation_logs := (operation_logs d ++ [entry])%list |>.

(** The operator, the action and the target of an entry. *)
Definition records (audit : AuditContext) (action target_name : string) (entry : OperationLogRow)
  : Prop :=
  o_user_id entry = Some (i64 (au_operator_id audit)) ∧ o_action entry = action ∧
  o_target_name entry = Some target_name.

Lemma insert_operation_log_Some entry d x d' :
  insert_operation_log entry d = Some (x, d') → d' = logged entry d.
Proof. unfold insert_operation_log. case_match; [|done]. by intros [= _ <-]. Qed.

Lemma RecordAudit_runs audit action target_type target_name details snap d x d' :
  runs (RecordAudit correlation audit action target_type target_name details) snap d x d' →
  ∃ entry, records audit action target_name entry ∧ d' = logged entry d.
Proof.
  unfold RecordAudit. rewrite runs_exec. intros ->%insert_operation_log_Some.
  eexists; split; [|done]. done.
Qed.

(** What a transaction of a command does. *)
Lemma command_run {A} failed (body : M Database (Result A)) d sch cs result e1 : TxBody body →
  Run failed body (mkEnv d sch AutoCommit cs) = (Ret result, e1) →
  (is_ok result = false ∧ db e1 = arrive sch d) ∨
  ∃ response, (result = Ok response ∨ result = Err failed) ∧
    runs body (arrive sch d) (arrive sch d) (Ok response) (db e1).
Proof.
  intros Hb Hrun. destruct (Run_spec failed body d sch cs Hb) as (o & s' & sch' & Hr & _ & Ho).
  rewrite Hrun in Hr. injection Hr as -> ->. cbn.
  destruct Ho as [[-> Ho]|(a & Ho & Hc)]; [by left|right]. exists a. split; [done|].
  by apply clean_runs.
Qed.

(** ** Leases *)

#[local] Instance tx_body_RecordAudit audit action target_type target_name details :
  TxBody (RecordAudit correlation audit action target_type target_name details).
Proof. unfold RecordAudit. apply _. Qed.

#[local] Instance tx_body_ParseUploadStatus t : TxBody (ParseUploadStatus t).
Proof. unfold ParseUploadStatus. solve_tx_body. Qed.

#[local] Instance tx_body_LeaseResponse id t now request :
  TxBody (LeaseResponseFromRow id t now request).
Proof. unfold LeaseResponseFromRow. solve_tx_body. Qed.

#[local] Instance tx_body_release request owner version audit :
  TxBody (release_body correlation request owner version audit).
Proof. unfold release_body. solve_tx_body. Qed.

(** The row a release leaves. *)
Definition released (now version : Z) (t : UploadTaskRow) : UploadTaskRow :=
  t <| t_lease_expires_at := Some now |> <| t_state_version := (version + 1)%Z |>.

Definition holds (owner : string) (version now : Z) (t : UploadTaskRow) : Prop :=
  t_status t = UploadToStorageValue Finalizing ∧ t_lease_owner t = Some owner ∧
  t_state_version t = version ∧ ts_gt (t_lease_expires_at t) now = true.

Lemma release_runs request owner version audit snap d response d' :
  runs (release_body correlation request owner version audit) snap d (Ok response) d' →
  ∃ t entry, upload_tasks d !! lr_upload_id request = Some t ∧ holds owner version (now d) t ∧
    check_upload_task (released (now d) version t) = true ∧
    records audit "admin.upload.lease_release" (lr_upload_id request) entry ∧
    d' = logged entry (put_task (lr_upload_id request) (released (now d) version t) d).
Proof.
  intros H. unfold release_body in H. run_bind H row d1 H1. rewrite runs_exec in H1.
  destruct (release_statement _ _ _ _) as [[r d2]|] eqn:Hr; [|done]. injection H1 as <- <-.
  apply update_task_Some in Hr as [[-> ->]|(t & t' & Ht & Hg & Hs & Hc & -> & ->)];
    [by apply runs_ret in H as [??]|].
  cbn in H. run_bind H resp d3 H2. run_bind H u d4 H3. apply runs_ret in H as [_ ->].
  unfold LeaseResponseFromRow in H2. run_bind H2 st d5 H4. apply runs_ret in H2 as [_ ->].
  unfold ParseUploadStatus in H4. destruct (UploadTaskStatusFromStorage _); [|done].
  apply runs_ret in H4 as [_ ->].
  destruct (RecordAudit_runs _ _ _ _ _ _ _ _ _ H3) as (entry & Hentry & ->).
  rewrite !andb_true_iff, is_status_true, Z.eqb_eq in Hg. destruct Hg as (((Hst & Ho) & Hv) & Hl).
  apply bind_Some in Hs as (v & Hv' & [= <-]).
  assert (v = version + 1)%Z as ->. { apply bigint_Some in Hv' as [-> _]. lia. }
  exists t, entry. split_and!; try done.
  split_and!; try done. by apply bool_decide_eq_true in Ho.
Qed.

(** Statements of the former owner do nothing, at any later time. *)
Definition fenced (id : string) (owner : string) (version : Z) (d : Database) : Prop :=
  ∀ d', rtc task_step d d' → ∀ user_id,
    (∀ n, renew_statement id user_id owner version n d' = Some (None, d')) ∧
    (∀ file, complete_statement id user_id owner version file d' = Some (None, d')) ∧
    (∀ code, record_error_statement id user_id owner version code d' = Some (None, d')).

Lemma released_fenced id owner version d t :
  upload_tasks d !! id = Some t → (version < t_state_version t)%Z → fenced id owner version d.
Proof.
  intros Ht Hv d' Hr user_id. destruct (task_steps_evolve _ _ id t Hr Ht) as (t' & Ht' & _ & Hv' & _).
  split_and!; intros; apply (lease_owned_stale _ _ _ _ _ _ t'); (done || lia).
Qed.

(** A task whose lease has run out can be claimed. *)
Lemma release_claimable id d t worker n t0 : upload_tasks d !! id = Some t0 →
  check_upload_task t0 = true → t_status t0 = UploadToStorageValue Finalizing →
  ts_le (t_lease_expires_at t0) (now d) = true → counters_room t0 → t_user_id t = t_user_id t0 →
  ∃ t' d', claim_statement id (t_user_id t) worker n d = Some (Some t', d').
Proof.
  intros Ht Hck Hst Hl Hroom Hu.
  destruct (claim_update_valid worker n d t0 Hck Hroom (or_intror Hst)) as (t' & Hset & Hc').
  exists t', (put_task id t' d). unfold claim_statement.
  rewrite (update_task_total _ _ _ _ _ _ Ht (λ _, conj Hset Hc')).
  unfold is_status. rewrite Hu, Hst, Hl, Z.eqb_refl. cbn. done.
Qed.

(** C26: releasing the lease of a stuck finalizer is safe.  A confirmed release either changes
    nothing and is answered with an error, or finds the upload finalizing under a live lease of
    exactly the owner and version the operator confirmed; it then ends that lease, adds one
    entry to the audit trail and changes nothing else.  From then on no renewal, completion or
    error report of the former owner has any effect, at any later time, and another server can
    claim the upload at once. *)
Theorem released_lease_fences_its_owner request audit d sch cs result e1 :
  lr_dry_run request = false →
  ReleaseUploadLease correlation request audit (mkEnv d sch AutoCommit cs) = (Ret result, e1) →
  let d0 := arrive sch d in let id := lr_upload_id request in
  (is_ok result = false ∧ (db e1 = d ∨ db e1 = d0)) ∨
  ∃ t owner version entry, upload_tasks d0 !! id = Some t ∧
    lr_expected_lease_owner request = Some owner ∧
    lr_expected_state_version request = Some version ∧ holds owner version (now d0) t ∧
    records audit "admin.upload.lease_release" id entry ∧
    db e1 = logged entry (put_task id (released (now d0) version t) d0) ∧
    fenced id owner version (db e1) ∧
    (∀ worker n, (version < 2 ^ 63 - 2)%Z → (t_finalize_attempts t < 2 ^ 31 - 1)%Z →
       ∃ t' d', claim_statement id (t_user_id t) worker n (db e1) = Some (Some t', d')).
Proof.
  intros Hdry Hrun d0 id. unfold ReleaseUploadLease in Hrun. rewrite Hdry in Hrun.
  destruct (lr_expected_state_version request) as [version|];
    [|injection Hrun as <- <-; left; split; [done|by left]].
  destruct (lr_expected_lease_owner request) as [owner|];
    [|injection Hrun as <- <-; left; split; [done|by left]].
  destruct (_ && _); [|injection Hrun as <- <-; left; split; [done|by left]].
  destruct (command_run _ _ _ _ _ _ _ _ Hrun) as [[Hr Hd]|(response & Hr & Hc)];
    [left; split; [done|by right]|right].
  destruct (release_runs _ _ _ _ _ _ _ _ Hc) as (t & entry & Ht & Hh & Hck & Hentry & Hd).
  exists t, owner, version, entry. fold d0 id in Ht, Hh, Hck, Hd. rewrite Hd.
  assert (upload_tasks (logged entry (put_task id (released (now d0) version t) d0)) !! id =
    Some (released (now d0) version t)) as Ht' by apply lookup_insert_eq.
  split_and!; try done.
  - apply (released_fenced _ _ _ _ _ Ht'). cbn. lia.
  - intros worker n Hv Ha. apply (release_claimable _ _ t _ _ _ Ht' Hck); cbn.
    + by destruct Hh.
    + apply Z.leb_refl.
    + split; cbn; lia.
    + done.
Qed.

(** ** Dead letters *)

#[local] Instance tx_body_ToStorageJobItem id j include : TxBody (ToStorageJobItem id j include).
Proof. unfold ToStorageJobItem, ParsePayload. solve_tx_body. Qed.

#[local] Instance tx_body_Replay job_id request audit :
  TxBody (ReplayInTransaction correlation job_id request audit).
Proof. unfold ReplayInTransaction. solve_tx_body. Qed.

Lemma ToStorageJobItem_runs id j snap d item d' : runs (ToStorageJobItem id j true) snap d item d' →
  d' = d ∧ j_status j = JobToStorageValue (si_status item) ∧ si_dedupe_key item = j_dedupe_key j ∧
  si_id item = id.
Proof.
  unfold ToStorageJobItem, ParsePayload. intros H.
  destruct (ParseStorageJobStatus (j_status j)) as [st|] eqn:Hst; [|done].
  apply parse_job_status_Some in Hst. run_bind H payload d1 H1. apply runs_ret in H as [-> ->].
  destruct (isObject (j_payload j)); [|done]. by apply runs_ret in H1 as [_ ->].
Qed.

Lemma replay_runs job_id request audit snap d item d' :
  runs (ReplayInTransaction correlation job_id request audit) snap d (Ok item) d' →
  ∃ j entry, storage_jobs d !! i64 job_id = Some j ∧ j_status j = JobToStorageValue DeadLetter ∧
    check_storage_job (revive (now d) j) = true ∧
    records audit "admin.storage_job.replay" (j_dedupe_key j) entry ∧
    d' = logged entry (put_job (i64 job_id) (revive (now d) j) d).
Proof.
  intros H. unfold ReplayInTransaction in H. run_bind H row d1 H1. apply runs_query in H1 as [-> ->].
  destruct (storage_jobs d !! i64 job_id) as [j|] eqn:Hj; [|by apply runs_ret in H as [??]].
  run_bind H current d1 H1. apply ToStorageJobItem_runs in H1 as (-> & Hst & Hkey & _).
  destruct (decide _) as [|Hd]; [by apply runs_ret in H as [??]|]. apply dec_stable in Hd.
  run_bind H row d1 H1. rewrite runs_exec in H1.
  apply update_job_Some in H1 as [[-> ->]|(j0 & j' & Hj0 & _ & Hs & Hc & -> & ->)];
    [by apply runs_ret in H as [??]|].
  simplify_eq. run_bind H replayed d2 H2. apply ToStorageJobItem_runs in H2 as (-> & _).
  run_bind H u d3 H3. apply runs_ret in H as [_ ->].
  rewrite runs_exec in H3. apply insert_operation_log_Some in H3 as ->.
  exists j. eexists. rewrite Hkey in *. split_and!; [done| |done| |done]; [congruence|done].
Qed.

(** C27: a replay revives one dead letter.  A confirmed replay either changes nothing and is
    answered with an error, or finds the confirmed job in the dead-letter state, puts it back
    with its attempts and errors cleared, adds one entry to the audit trail, and changes nothing
    else; the queue stays well-formed and a worker can claim the job at once. *)
Theorem replay_revives_one_dead_letter job_id request audit d sch cs result e1 :
  sr_dry_run request = false →
  Replay correlation job_id request audit (mkEnv d sch AutoCommit cs) = (Ret result, e1) →
  let d0 := arrive sch d in
  (is_ok result = false ∧ (db e1 = d ∨ db e1 = d0)) ∨
  ∃ j entry, sr_confirm_job_id request = Some job_id ∧
    storage_jobs d0 !! i64 job_id = Some j ∧ j_status j = JobToStorageValue DeadLetter ∧
    records audit "admin.storage_job.replay" (j_dedupe_key j) entry ∧
    db e1 = logged entry (put_job (i64 job_id) (revive (now d0) j) d0) ∧
    (queue_ok d0 → queue_ok (db e1)) ∧ ready (now (db e1)) (revive (now d0) j) = true.
Proof.
  intros Hdry Hrun d0. unfold Replay in Hrun. rewrite Hdry in Hrun.
  destruct (replay_confirmed job_id request audit) eqn:Hconf; cbn [negb] in Hrun;
    [|injection Hrun as <- <-; left; split; [done|by left]].
  unfold replay_confirmed in Hconf. rewrite !andb_true_iff in Hconf.
  destruct Hconf as [[_ Hconf%bool_decide_eq_true] _].
  unfold bind_result, mbind, M_bind in Hrun.
  destruct (Run _ _ _) as [[r|x] e2] eqn:Hr; [|done].
  assert (is_ok result = is_ok r ∧ e1 = e2) as [Hok ->].
  { destruct r; injection Hrun as <- <-; done. }
  destruct (command_run _ _ _ _ _ _ _ _ Hr) as [[He Hd]|(item & Ho & Hc)];
    [left; split; [congruence|by right]|right].
  destruct (replay_runs _ _ _ _ _ _ _ Hc) as (j & entry & Hj & Hst & Hck & Hentry & Hd).
  exists j, entry. fold d0 in Hj, Hck, Hd. rewrite Hd. split_and!; [done..| |].
  - intros Hq. change (queue_ok (put_job (i64 job_id) (revive (now d0) j) d0)).
    eapply queue_ok_put; [exact Hq|exact Hj|done|]. split; [exact Hck|]. cbn.
    destruct Hq as (_ & _ & Hq). destruct (Hq _ _ Hj) as [Hc1 ?].
    apply check_storage_job_true in Hc1. lia.
  - apply check_storage_job_true in Hck as (_ & _ & Hmax & _). cbn in Hmax. unfold ready. cbn.
    rewrite (proj2 (Z.ltb_lt _ _) Hmax), Z.leb_refl. done.
Qed.

(** ** Clean-ups *)

#[local] Instance tx_body_ParseJobStatus j : TxBody (ParseJobStatus j).
Proof. unfold ParseJobStatus. solve_tx_body. Qed.

#[local] Instance tx_body_planned job existing : TxBody (planned job existing).
Proof. unfold planned. solve_tx_body. Qed.

#[local] Instance tx_body_LoadCleanupPlan request : TxBody (LoadCleanupPlan request).
Proof. unfold LoadCleanupPlan. solve_tx_body. Qed.

#[local] Instance tx_body_queued_job key missing : TxBody (queued_job key missing).
Proof. unfold queued_job. solve_tx_body. Qed.

#[local] Instance tx_body_rebuild request audit : TxBody (rebuild_body correlation request audit).
Proof. unfold rebuild_body. solve_tx_body. Qed.

(** The session of an upload, as its row tells it. *)
Definition session_of (id : string) (t : UploadTaskRow) : option UploadStagingSession :=
  (λ backend, mkUploadStagingSession id backend (staging_prefix_of t)) <$>
    ParseUploadStagingBackend (t_staging_backend t).

Lemma LoadCleanupPlan_runs request snap d plan d' :
  runs (LoadCleanupPlan request) snap d (Ok plan) d' → d' = d ∧
  ∃ t session, upload_tasks d !! cq_upload_id request = Some t ∧
    session_of (cq_upload_id request) t = Some session ∧
    pl_job plan = BuildStagingCleanupJob session ∧
    (cp_eligible (pl_response plan) = true → ∃ status,
       t_status t = UploadToStorageValue status ∧ IsTerminalStatus status = true ∧
       ∀ v, cq_expected_state_version request = Some v → v = t_state_version t).
Proof.
  intros H. unfold LoadCleanupPlan in H. run_bind H upload d1 H1. apply runs_query in H1 as [-> ->].
  destruct (upload_tasks d !! cq_upload_id request) as [t|] eqn:Ht; [|by apply runs_ret in H as [??]].
  run_bind H status d1 H1. unfold ParseUploadStatus in H1.
  destruct (UploadTaskStatusFromStorage (t_status t)) as [st|] eqn:Hst; [|done].
  apply runs_ret in H1 as [-> ->]. apply from_storage_Some in Hst.
  destruct (ParseUploadStagingBackend (t_staging_backend t)) as [backend|] eqn:Hb; [|done].
  run_bind H existing d1 H1. apply runs_query in H1 as [-> ->].
  run_bind H p d1 H1. destruct p as [[job_id job_status] action]. apply runs_ret in H as [[= ->] ->].
  split.
  - unfold planned, ParseJobStatus in H1. destruct (find_job_by_dedupe_key _ d) as [[i j]|];
      [|by apply runs_ret in H1 as [_ ->]].
    destruct (_ || _); [done|]. run_bind H1 s d2 H2. apply runs_ret in H1 as [_ ->].
    destruct (ParseStorageJobStatus (j_status j)); [|done]. by apply runs_ret in H2 as [_ ->].
  - exists t. eexists. unfold session_of. rewrite Hb. split_and!; [done..|].
    cbn. intros He. rewrite !andb_true_iff in He. destruct He as [[Hterm Hv] _].
    exists st. split_and!; [done..|]. intros v Hcq. rewrite Hcq in Hv. by apply Z.eqb_eq in Hv.
Qed.

(** What queueing a job leaves. *)
Lemma rearm_runs job snap d d' : runs (EnqueueOrRearmSucceeded job) snap d true d' →
  check_storage_job (new_job_row job d) = true ∧
  ∃ i created, d' = next_job_id (put_job i ((new_job_row job d) <| j_created_at := created |>) d) ∧
    ((find_job_by_dedupe_key (nj_dedupe_key job) d = None ∧ i = storage_jobs_id_seq d) ∨
     ∃ j, find_job_by_dedupe_key (nj_dedupe_key job) d = Some (i, j) ∧
       j_status j = JobToStorageValue Succeeded).
Proof.
  intros H. unfold EnqueueOrRearmSucceeded in H. run_bind H u d1 H1. run_bind H r d2 H2.
  assert (d1 = d) as ->.
  { revert H1. unfold ValidateNewJob, ValidateBoundedValue. intros H1.
    repeat (run_bind H1 x1 y1 H3; destruct (_ || _); [done|]; apply runs_ret in H3 as [_ ->]; clear x1).
    destruct (nj_max_attempts job =? 0)%Z; [done|]. by apply runs_ret in H1 as [_ ->]. }
  rewrite runs_exec in H2.
  unfold rearm_statement, insert_job in H2.
  destruct (check_storage_job (new_job_row job d)) eqn:Hck; [|done]. split; [done|]. cbn [negb] in H2.
  cbn [j_dedupe_key new_job_row] in H2.
  destruct (find_job_by_dedupe_key (nj_dedupe_key job) d) as [[i j]|] eqn:Hf.
  - destruct (rearm (new_job_row job d) j) as [j'|] eqn:Hre.
    + destruct (check_storage_job j'); [|done]. injection H2 as <- <-. apply runs_ret in H as [_ ->].
      exists i, (j_created_at j). split; [by rewrite (rearm_Some _ _ _ Hre)|]. right. exists j.
      split; [done|]. unfold rearm in Hre. destruct (_ && _) eqn:Hg; [|done].
      rewrite !andb_true_iff in Hg. destruct Hg as [[Hg _] _]. by apply Z.eqb_eq in Hg.
    + injection H2 as <- <-. run_bind H existing d3 H3. apply runs_query in H3 as [-> ->].
      destruct (find_job_by_dedupe_key _ _) as [[]|]; [|done]. destruct (_ || _); [done|].
      by apply runs_ret in H as [? _].
  - injection H2 as <- <-. apply runs_ret in H as [_ ->].
    exists (storage_jobs_id_seq d), (now d). split; [done|by left].
Qed.

Lemma rebuild_runs request audit snap d response d' :
  runs (rebuild_body correlation request audit) snap d (Ok response) d' →
  ∃ t session status i created entry, upload_tasks d !! cq_upload_id request = Some t ∧
    session_of (cq_upload_id request) t = Some session ∧
    t_status t = UploadToStorageValue status ∧ IsTerminalStatus status = true ∧
    (∀ v, cq_expected_state_version request = Some v → v = t_state_version t) ∧
    records audit "admin.upload.cleanup_rebuild" (cq_upload_id request) entry ∧
    let job := BuildStagingCleanupJob session in
    check_storage_job (new_job_row job d) = true ∧
    d' = logged entry (next_job_id (put_job i ((new_job_row job d) <| j_created_at := created |>) d)) ∧
    ((find_job_by_dedupe_key (nj_dedupe_key job) d = None ∧ i = storage_jobs_id_seq d) ∨
     ∃ j, find_job_by_dedupe_key (nj_dedupe_key job) d = Some (i, j) ∧
       j_status j = JobToStorageValue Succeeded).
Proof.
  intros H. unfold rebuild_body in H. run_bind_result H plan d1 H1.
  apply LoadCleanupPlan_runs in H1 as (-> & t & session & Ht & Hs & Hjob & He).
  destruct (cp_eligible (pl_response plan)); cbn [negb] in H; [|by apply runs_ret in H as [??]].
  destruct (He eq_refl) as (status & Hst & Hterm & Hv).
  run_bind H changed d1 H1. destruct changed; cbn [negb] in H; [|by apply runs_ret in H as [??]].
  rewrite Hjob in H1. apply rearm_runs in H1 as (Hck & i & created & -> & Hi).
  run_bind H p d2 H2. destruct p as [job_id job_status]. run_bind H u d3 H3. apply runs_ret in H as [_ ->].
  apply RecordAudit_runs in H3 as (entry & Hentry & ->).
  unfold queued_job in H2. run_bind H2 jobs d4 H4. apply runs_query in H4 as [-> ->].
  destruct (find_job_by_dedupe_key _ (next_job_id _)) as [[i' j']|]; [|done].
  run_bind H2 st d4 H4. apply runs_ret in H2 as [_ ->]. unfold ParseJobStatus in H4.
  destruct (ParseStorageJobStatus _); [|done]. apply runs_ret in H4 as [_ ->].
  exists t, session, status, i, created, entry. by split_and!.
Qed.

(** The queue after a job was put into it, as a new row or over an old one of its key. *)
Lemma queued_once job d i created key entry : queue_ok d →
  check_storage_job (new_job_row job d) = true → nj_dedupe_key job = key →
  (find_job_by_dedupe_key (nj_dedupe_key job) d = None ∧ i = storage_jobs_id_seq d) ∨
    (∃ j, find_job_by_dedupe_key (nj_dedupe_key job) d = Some (i, j) ∧
       j_status j = JobToStorageValue Succeeded) →
  let row := (new_job_row job d) <| j_created_at := created |> in
  let d' := logged entry (next_job_id (put_job i row d)) in
  queue_ok d' ∧ find_job_by_dedupe_key key d' = Some (i, row).
Proof.
  intros Hq Hck Hkey Hi row d'. assert (job_ok row) as Hok by exact (new_job_ok job d Hck).
  assert (queue_ok (next_job_id (put_job i row d))) as Hq'.
  { destruct Hi as [[Hf ->]|(j & Hf & _)]; [by apply queue_ok_insert|].
    apply find_job_Some in Hf as [Hj Hk]. by apply queue_ok_next, (queue_ok_put d i j). }
  split; [exact Hq'|]. change (find_job_by_dedupe_key key (next_job_id (put_job i row d)) = Some (i, row)).
  rewrite <-Hkey. apply (find_job_unique _ i row Hq'). apply lookup_insert_eq.
Qed.

(** A rebuilt clean-up is queued once.  A confirmed rebuild either changes nothing and is
    answered with an error, or finds the upload ended and at the confirmed version; it then
    queues the job that removes the staging of exactly that upload, as a new row or over the one
    that had succeeded, adds one entry to the audit trail and changes nothing else; the queue
    stays well-formed, so that job is the only one of the upload. *)
Lemma rebuilt_cleanup_is_queued_once request audit d sch cs result e1 :
  cq_dry_run request = false →
  RebuildUploadCleanup correlation request audit (mkEnv d sch AutoCommit cs) = (Ret result, e1) →
  let d0 := arrive sch d in let id := cq_upload_id request in
  (is_ok result = false ∧ (db e1 = d ∨ db e1 = d0)) ∨
  ∃ t session status i created entry, upload_tasks d0 !! id = Some t ∧ session_of id t = Some session ∧
    t_status t = UploadToStorageValue status ∧ IsTerminalStatus status = true ∧
    cq_expected_state_version request = Some (t_state_version t) ∧
    records audit "admin.upload.cleanup_rebuild" id entry ∧
    let row := (new_job_row (BuildStagingCleanupJob session) d0) <| j_created_at := created |> in
    db e1 = logged entry (next_job_id (put_job i row d0)) ∧
    (∀ j, storage_jobs d0 !! i = Some j → queue_ok d0 → j_status j = JobToStorageValue Succeeded) ∧
    (queue_ok d0 → queue_ok (db e1) ∧
       find_job_by_dedupe_key ("staging-cleanup:" ++ id) (db e1) = Some (i, row)).
Proof.
  intros Hdry Hrun d0 id. unfold RebuildUploadCleanup in Hrun. rewrite Hdry in Hrun.
  destruct (_ && _) eqn:Hconf; [|injection Hrun as <- <-; left; split; [done|by left]].
  rewrite !andb_true_iff, !bool_decide_eq_true in Hconf.
  destruct Hconf as [[[_ _] [v Hv]] _].
  destruct (command_run _ _ _ _ _ _ _ _ Hrun) as [[Hr Hd]|(response & Hr & Hc)];
    [left; split; [done|by right]|right].
  destruct (rebuild_runs _ _ _ _ _ _ Hc) as (t & session & status & i & created & entry & Ht & Hs & Hst &
    Hterm & Hver & Hentry & Hck & Hd & Hi).
  fold d0 id in Ht, Hs, Hentry, Hck, Hd, Hi.
  exists t, session, status, i, created, entry. split_and!; [done..|by rewrite Hv, (Hver v Hv)|done|].
  intros row. split_and!; [exact Hd| |].
  - intros j Hj Hq. destruct Hi as [[_ ->]|(j' & Hf & Hj')].
    + destruct Hq as (_ & Hfresh & _). specialize (Hfresh _ _ Hj). lia.
    + apply find_job_Some in Hf as [Hf _]. congruence.
  - intros Hq. rewrite Hd. apply queued_once; [done|done| |done]. unfold session_of in Hs.
    by apply fmap_Some in Hs as (b & _ & ->).
Qed.
End laws.

(** ** Witnesses *)

Definition example_operator : AuditContext := mkAuditContext 7 "10.0.0.1" "curl".

Definition run_release (d : Database) : outcome (Result UploadLeaseReleaseResponse) * Env Database :=
  ReleaseUploadLease []
    (mkUploadLeaseReleaseRequest "up-1" false (Some "up-1") (Some 1%Z) (Some "server-a") "stuck")
    example_operator (mkEnv d [] AutoCommit []).

Definition example_release : Env Database := snd (run_release example_claimed).

Lemma released_lease_fences_its_owner_witness :
  (∃ response, fst (run_release example_claimed) = Ret (Ok response)) ∧
  fenced "up-1" "server-a" 1 (db example_release).
Proof.
  split; [eexists; vm_compute; reflexivity|].
  destruct (released_lease_fences_its_owner []
    (mkUploadLeaseReleaseRequest "up-1" false (Some "up-1") (Some 1%Z) (Some "server-a") "stuck")
    example_operator example_claimed [] [] (Ok (mkUploadLeaseReleaseResponse "up-1" false true true
      Finalizing 2 (Some "server-a") (Some 100%Z) true)) example_release)
    as [[Hno _]|(t & owner & version & entry & _ & Ho & Hv & _ & _ & _ & Hf & _)].
  - reflexivity.
  - vm_compute. reflexivity.
  - discriminate Hno.
  - injection Ho as <-. injection Hv as <-. exact Hf.
Defined.

Definition dead_job : JobRow :=
  mkJobRow "blob_gc" "5" "blob-gc:5" (JObject []) 4 8 8 0 None None (Some "no disk") None 0.

Definition dead_letter_db : Database :=
  example_db <| storage_jobs := {[3%Z := dead_job]} |> <| storage_jobs_id_seq := 4%Z |>.

Definition run_replay (d : Database) : outcome (Result StorageJobReplayResponse) * Env Database :=
  Replay [] 3 (mkStorageJobReplayRequest false (Some 3%Z) "disk added") example_operator
    (mkEnv d [] AutoCommit []).

Definition replayed_item : StorageJobItem :=
  mkStorageJobItem 3 "blob_gc" "5" "blob-gc:5" (JObject []) Pending 0 8 100 None None None 0 None.

Lemma replay_revives_one_dead_letter_witness :
  fst (run_replay dead_letter_db) =
    Ret (Ok (mkStorageJobReplayResponse replayed_item false true true)) ∧
  ∃ j, storage_jobs (db (snd (run_replay dead_letter_db))) !! 3%Z = Some j ∧ ready 100 j = true.
Proof.
  split; [vm_compute; reflexivity|].
  destruct (replay_revives_one_dead_letter [] 3 (mkStorageJobReplayRequest false (Some 3%Z) "disk added")
    example_operator dead_letter_db [] [] (Ok (mkStorageJobReplayResponse replayed_item false true true))
    (snd (run_replay dead_letter_db)))
    as [[Hno _]|(j & entry & _ & _ & _ & _ & Hd & _ & Hready)].
  - reflexivity.
  - vm_compute. reflexivity.
  - discriminate Hno.
  - exists (revive (now dead_letter_db) j). split; [|exact Hready].
    rewrite Hd. reflexivity.
Defined.

Definition lost_cleanup_db : Database :=
  after (SCancel "up-1" 7 "cancelled") example_db.

Definition run_rebuild (d : Database) : outcome (Result UploadCleanupRebuildResponse) * Env Database :=
  RebuildUploadCleanup []
    (mkUploadCleanupRebuildRequest "up-1" false (Some "up-1") (Some 1%Z) "lost") example_operator
    (mkEnv d [] AutoCommit []).

Definition rebuilt_response : UploadCleanupRebuildResponse :=
  mkUploadCleanupRebuildResponse "up-1" false true true Cancelled 1 "create" (Some 1%Z) (Some Pending).

Lemma rebuilt_cleanup_is_queued_once_witness :
  fst (run_rebuild lost_cleanup_db) = Ret (Ok rebuilt_response) ∧
  ∃ i row, find_job_by_dedupe_key "staging-cleanup:up-1" (db (snd (run_rebuild lost_cleanup_db))) =
    Some (i, row) ∧ j_status row = 0%Z.
Proof.
  split; [vm_compute; reflexivity|].
  destruct (rebuilt_cleanup_is_queued_once []
    (mkUploadCleanupRebuildRequest "up-1" false (Some "up-1") (Some 1%Z) "lost") example_operator
    lost_cleanup_db [] [] (Ok rebuilt_response) (snd (run_rebuild lost_cleanup_db)))
    as [[Hno _]|(t & session & status & i & created & entry & _ & _ & _ & _ & _ & _ & _ & _ & Hq)].
  - reflexivity.
  - vm_compute. reflexivity.
  - discriminate Hno.
  - assert (queue_ok lost_cleanup_db) as Hok.
    { split_and!; intros ? ?; [intros ? ? Hj| |]; try intros Hj; vm_compute in Hj; discriminate Hj. }
    destruct (Hq Hok) as [_ Hf]. eexists; eexists. split; [exact Hf|reflexivity].
Defined.
