(* ===== verification/ScheduledTasks.v ===== *)
(** * Periodic jobs

    [src/src/services/ScheduledTasks.cpp]: every process seeds the queue with the scans of the
    current hour and day, once a minute; the dedupe keys of the jobs carry the hour or the day.
    The clock is given in seconds since 1970, and the timer and the flags that keep a process
    from seeding twice at once are arguments. *)

From S2P Require Import Prelude Errors Storage Db Rely Json Schema Names Numerals StorageJobs JobContract.

Local Open Scope Z_scope.

(** ** Dates *)

(** The fields of [std::tm] that are printed. *)
Record tm := mk_tm {
  tm_year : Z;
  tm_mon : Z;
  tm_mday : Z;
  tm_hour : Z
}.

(** The year of an era of 400 years that starts on the first of March, the month counted from
    March and the day of the month of a day of the era. *)
Definition era_date (doe : Z) : Z * Z * Z :=
  let yoe := (doe - doe / 1460 + doe / 36524 - doe / 146096) / 365 in
  let doy := doe - (365 * yoe + yoe / 4 - yoe / 100) in
  let mp := (5 * doy + 2) / 153 in
  (yoe, mp, doy - (153 * mp + 2) / 5 + 1).

(** [gmtime_r]. *)
Definition ToUtc (timestamp : Z) : tm :=
  let z := timestamp / 86400 + 719468 in
  let '(yoe, mp, d) := era_date (z mod 146097) in
  let m := if mp <? 10 then mp + 3 else mp - 9 in
  mk_tm (z / 146097 * 400 + yoe + (if m <=? 2 then 1 else 0)) m d (timestamp mod 86400 / 3600).

(** [%m], [%d] and [%H]. *)
Definition two_digits (n : Z) : string :=
  ((if (n <? 10)%Z then "0" else "") +:+ to_string n)%string.

(** [%Y%m%d]. *)
Definition FormatDay (utc : tm) : string :=
  (to_string (tm_year utc) +:+ two_digits (tm_mon utc) +:+ two_digits (tm_mday utc))%string.

(** [%Y%m%dT%HZ]. *)
Definition FormatHour (utc : tm) : string :=
  (FormatDay utc +:+ "T" +:+ two_digits (tm_hour utc) +:+ "Z")%string.

(** ** The plan *)

Record PeriodicSeedPlan := mkPeriodicSeedPlan {
  pp_hourly_scan_id : string;
  pp_daily_scan_id : string;
  pp_jobs : list NewStorageJob
}.

Record PeriodicSeedResult := mkPeriodicSeedResult {
  ps_attempted : Z;
  ps_enqueued : Z;
  ps_deduplicated : Z
}.

Definition kDefaultExpireUploadsPageSize : Z := 100.
Definition kDefaultExpireTrashPageSize : Z := 100.

Section digest.
Context (HashSha256 : string → string).

Definition reconcile_first (scan_id : string) (scope : ReconciliationScope) (limit : Z)
  : expected NewStorageJob :=
  BuildStorageReconcileJob HashSha256 (mkReconciliationPageRequest scan_id scope 0 "" limit).

Definition BuildPeriodicSeedPlan (now : Z) : expected PeriodicSeedPlan :=
  let utc := ToUtc now in
  let hourly := FormatHour utc in
  let daily := FormatDay utc in
  uploads ← BuildExpireUploadsJob (mkExpireUploadsPageRequest hourly 0 kDefaultExpireUploadsPageSize);
  trash ← BuildExpireTrashJob (mkExpireTrashPageRequest hourly 0 kDefaultExpireTrashPageSize);
  contents ← reconcile_first daily Contents kMaxDatabaseReconciliationPageSize;
  users ← reconcile_first daily Users kMaxDatabaseReconciliationPageSize;
  staging ← reconcile_first daily Staging kMaxObjectReconciliationPageSize;
  final ← reconcile_first daily Final kMaxObjectReconciliationPageSize;
  Value (mkPeriodicSeedPlan hourly daily [uploads; trash; contents; users; staging; final]).

(** ** Seeding *)

(** The loop over the jobs of the plan. *)
Fixpoint enqueue_jobs (jobs : list NewStorageJob) (result : PeriodicSeedResult)
  : M Database PeriodicSeedResult :=
  match jobs with
  | [] => mret result
  | job :: jobs =>
      enqueued ← Enqueue job;
      enqueue_jobs jobs
        (if (enqueued : bool) then result <| ps_enqueued ::= Z.succ |>
         else result <| ps_deduplicated ::= Z.succ |>)
  end.

(** [accepting] and [inflight] are the flags of the process. *)
Definition SeedOnce (accepting inflight : bool) (now : Z) : M Database (Result PeriodicSeedResult) :=
  if negb accepting || inflight then mret (Ok (mkPeriodicSeedResult 0 0 0))
  else
  match BuildPeriodicSeedPlan now with
  | Unexpected _ => mret (Err (mkErrorInfo InternalError "Failed to build periodic storage jobs"))
  | Value plan =>
      catch_all
        (result ← enqueue_jobs (pp_jobs plan)
                    (mkPeriodicSeedResult (Z.of_nat (length (pp_jobs plan))) 0 0);
         mret (Ok result))
        (mret (Err (mkErrorInfo InternalError "Failed to seed periodic storage jobs")))
  end.
End digest.

Example epoch : FormatHour (ToUtc 0) = "19700101T00Z"%string.
Proof. reflexivity. Qed.
Example leap_day : FormatHour (ToUtc 1709251199) = "20240229T23Z"%string.
Proof. vm_compute. reflexivity. Qed.

(** ** Dates tell instants apart *)

(** The day of an era that has a date. *)
Definition era_day (date : Z * Z * Z) : Z :=
  let '(yoe, mp, d) := date in
  yoe * 365 + yoe / 4 - yoe / 100 + ((153 * mp + 2) / 5 + d - 1).

Lemma era_dates doe : 0 <= doe < 146097 → let '(yoe, mp, d) := era_date doe in
  era_day (yoe, mp, d) = doe ∧ 0 <= yoe < 400 ∧ 0 <= mp < 12 ∧ 1 <= d <= 31.
Proof.
  intros Hdoe. unfold era_date, era_day.
  set (yoe := (doe - doe / 1460 + doe / 36524 - doe / 146096) / 365).
  assert (0 <= yoe < 400) as Hyoe.
  { subst yoe. Z.to_euclidean_division_equations. lia. }
  assert (0 <= doe - (365 * yoe + yoe / 4 - yoe / 100) <= 366) as Hdoy.
  { subst yoe. Z.to_euclidean_division_equations. lia. }
  set (doy := doe - (365 * yoe + yoe / 4 - yoe / 100)) in *.
  assert (0 <= (5 * doy + 2) / 153 < 12) as Hmp by (Z.to_euclidean_division_equations; lia).
  set (mp := (5 * doy + 2) / 153) in *.
  split; [unfold doy; lia|]. do 2 (split; [done|]).
  subst mp. Z.to_euclidean_division_equations. lia.
Qed.

(** The fields give back the hour. *)
Lemma ToUtc_inj t t' : 0 <= t → 0 <= t' → ToUtc t = ToUtc t' → t / 3600 = t' / 3600.
Proof.
  intros Ht Ht'. unfold ToUtc.
  pose proof (era_dates ((t / 86400 + 719468) mod 146097)) as He.
  pose proof (era_dates ((t' / 86400 + 719468) mod 146097)) as He'.
  destruct (era_date _) as [[yoe mp] d] eqn:E.
  destruct (era_date ((t' / 86400 + 719468) mod 146097)) as [[yoe' mp'] d'] eqn:E'.
  destruct He as (Hday & Hyoe & Hmp & Hd); [apply Z.mod_pos_bound; lia|].
  destruct He' as (Hday' & Hyoe' & Hmp' & Hd'); [apply Z.mod_pos_bound; lia|].
  intros [= Hy Hm Hdd Hh].
  assert (mp = mp') as <-.
  { destruct (Z.ltb_spec mp 10), (Z.ltb_spec mp' 10); lia. }
  assert (yoe = yoe' ∧ (t / 86400 + 719468) / 146097 = (t' / 86400 + 719468) / 146097) as [<- He].
  { destruct (Z.ltb_spec mp 10);
      [destruct (Z.leb_spec (mp + 3) 2)|destruct (Z.leb_spec (mp - 9) 2)]; lia. }
  assert (t / 86400 = t' / 86400) as Hdays.
  { pose proof (Z.div_mod (t / 86400 + 719468) 146097 ltac:(lia)).
    pose proof (Z.div_mod (t' / 86400 + 719468) 146097 ltac:(lia)). subst d'. lia. }
  clear - Hdays Hh. Z.to_euclidean_division_equations. lia.
Qed.

(** *** Their texts *)

(** The test of [n] numbers from [z] on. *)
Fixpoint all_from (P : Z → bool) (z : Z) (n : nat) : bool :=
  match n with O => true | S n => P z && all_from P (z + 1) n end.

Lemma all_from_spec P n : ∀ z, all_from P z n = true → ∀ y, z <= y < z + Z.of_nat n → P y = true.
Proof.
  induction n as [|n IH]; intros z; cbn [all_from]; [lia|]. intros [HP Hn]%andb_true_iff y Hy.
  destruct (decide (y = z)) as [->|]; [done|]. apply (IH _ Hn). lia.
Qed.

Lemma year_length y : 1000 <= y < 10000 → String.length (to_string y) = 4%nat.
Proof.
  intros Hy. apply Nat.eqb_eq. revert y Hy.
  apply (all_from_spec (λ y, String.length (to_string y) =? 4)%nat 9000 1000). vm_compute. reflexivity.
Qed.

Lemma two_digits_length n : 0 <= n < 100 → String.length (two_digits n) = 2%nat.
Proof.
  intros Hn. apply Nat.eqb_eq. revert n Hn.
  apply (all_from_spec (λ n, String.length (two_digits n) =? 2)%nat 100 0). vm_compute. reflexivity.
Qed.

Lemma to_string_inj n m : 0 <= n → 0 <= m → to_string n = to_string m → n = m.
Proof.
  intros Hn Hm E. pose proof (read_number_to_string n Hn) as H1.
  rewrite E, read_number_to_string in H1 by done. congruence.
Qed.

Lemma two_digits_inj n m : 0 <= n < 100 → 0 <= m < 100 → two_digits n = two_digits m → n = m.
Proof.
  intros Hn Hm E.
  assert (all_from (λ n, bool_decide (stoull (two_digits n) = Some n)) 0 100 = true) as Hall
    by (vm_compute; reflexivity).
  pose proof (all_from_spec _ _ _ Hall n Hn) as H1%bool_decide_eq_true.
  pose proof (all_from_spec _ _ _ Hall m Hm) as H2%bool_decide_eq_true. congruence.
Qed.

Lemma app_inj (a a' b b' : string) : String.length a = String.length a' →
  (a +:+ b = a' +:+ b')%string → a = a' ∧ b = b'.
Proof.
  revert a'. induction a as [|c a IH]; intros [|c' a']; cbn; try done.
  intros [= Hl] [= -> E]. destruct (IH a' Hl E) as [-> ->]. done.
Qed.

(** Until the year 9892. *)
Definition last_second : Z := 250000000000.

Lemma ToUtc_bounds t : 0 <= t < last_second → let utc := ToUtc t in
  1000 <= tm_year utc < 10000 ∧ 0 <= tm_mon utc < 100 ∧ 0 <= tm_mday utc < 100 ∧
  0 <= tm_hour utc < 100.
Proof.
  unfold last_second. intros Ht. unfold ToUtc.
  pose proof (era_dates ((t / 86400 + 719468) mod 146097)) as He.
  destruct (era_date _) as [[yoe mp] d] eqn:E.
  destruct He as (Hday & Hyoe & Hmp & Hd); [apply Z.mod_pos_bound; lia|]. cbn in *.
  assert (4 <= (t / 86400 + 719468) / 146097 <= 24) as Hera by (Z.to_euclidean_division_equations; lia).
  assert (yoe < 399 ∨ (t / 86400 + 719468) / 146097 < 24) as Hlast.
  { destruct (decide ((t / 86400 + 719468) / 146097 < 24)) as [|Hge]; [by right|left].
    assert ((t / 86400 + 719468) mod 146097 < 120000) by (Z.to_euclidean_division_equations; lia).
    assert (0 <= (153 * mp + 2) / 5) by (apply Z.div_pos; lia).
    Z.to_euclidean_division_equations. lia. }
  assert (0 <= t mod 86400 / 3600 < 24) by (Z.to_euclidean_division_equations; lia).
  destruct (Z.ltb_spec mp 10);
    [destruct (Z.leb_spec (mp + 3) 2)|destruct (Z.leb_spec (mp - 9) 2)]; lia.
Qed.

Lemma FormatDay_inj t t' : 0 <= t < last_second → 0 <= t' < last_second →
  FormatDay (ToUtc t) = FormatDay (ToUtc t') →
  tm_year (ToUtc t) = tm_year (ToUtc t') ∧ tm_mon (ToUtc t) = tm_mon (ToUtc t') ∧
  tm_mday (ToUtc t) = tm_mday (ToUtc t').
Proof.
  intros Ht Ht' E. destruct (ToUtc_bounds t Ht) as (Hy & Hm & Hd & _).
  destruct (ToUtc_bounds t' Ht') as (Hy' & Hm' & Hd' & _). unfold FormatDay in E.
  apply app_inj in E as [E1 E]; [|by rewrite !year_length].
  apply app_inj in E as [E2 E3]; [|by rewrite !two_digits_length].
  split_and!; [apply to_string_inj; (done || lia)|by apply two_digits_inj..].
Qed.

Lemma FormatDay_length t : 0 <= t < last_second → String.length (FormatDay (ToUtc t)) = 8%nat.
Proof.
  intros Ht. destruct (ToUtc_bounds t Ht) as (Hy & Hm & Hd & _). unfold FormatDay.
  by rewrite !length_string_app, year_length, !two_digits_length.
Qed.

Lemma FormatHour_inj t t' : 0 <= t < last_second → 0 <= t' < last_second →
  FormatHour (ToUtc t) = FormatHour (ToUtc t') → t / 3600 = t' / 3600.
Proof.
  intros Ht Ht' E. unfold FormatHour in E.
  apply app_inj in E as [E1 E]; [|by rewrite !FormatDay_length].
  apply app_inj in E as [_ E]; [|done].
  destruct (ToUtc_bounds t Ht) as (_ & _ & _ & Hh), (ToUtc_bounds t' Ht') as (_ & _ & _ & Hh').
  apply app_inj in E as [E2 _]; [|by rewrite !two_digits_length].
  destruct (FormatDay_inj t t' Ht Ht' E1) as (Hy & Hm & Hd). apply two_digits_inj in E2; [|done..].
  apply ToUtc_inj; [lia..|]. destruct (ToUtc t), (ToUtc t'). cbn in *. congruence.
Qed.

(** ** The plan of an instant *)

Definition is_safe (s : string) : bool := forallb is_scan_id_char (String.list_ascii_of_string s).

Lemma is_safe_app a b : is_safe (a +:+ b)%string = is_safe a && is_safe b.
Proof.
  induction a as [|c a IH]; [done|].
  change (is_scan_id_char c && is_safe (a +:+ b)%string = is_scan_id_char c && is_safe a && is_safe b).
  by rewrite IH, andb_assoc.
Qed.

Lemma is_safe_year y : 1000 <= y < 10000 → is_safe (to_string y) = true.
Proof. revert y. apply (all_from_spec (λ y, is_safe (to_string y)) 9000 1000). vm_compute. reflexivity. Qed.

Lemma is_safe_two_digits n : 0 <= n < 100 → is_safe (two_digits n) = true.
Proof. revert n. apply (all_from_spec (λ n, is_safe (two_digits n)) 100 0). vm_compute. reflexivity. Qed.

Lemma is_safe_day t : 0 <= t < last_second → is_safe (FormatDay (ToUtc t)) = true.
Proof.
  intros Ht. destruct (ToUtc_bounds t Ht) as (Hy & Hm & Hd & _). unfold FormatDay.
  by rewrite !is_safe_app, is_safe_year, !is_safe_two_digits.
Qed.

Lemma FormatHour_length t : 0 <= t < last_second → String.length (FormatHour (ToUtc t)) = 12%nat.
Proof.
  intros Ht. destruct (ToUtc_bounds t Ht) as (_ & _ & _ & Hh). unfold FormatHour.
  by rewrite !length_string_app, FormatDay_length, two_digits_length.
Qed.

Lemma safe_id s n : String.length s = S n → (S n <= 64)%nat → is_safe s = true → IsSafeScanId s = true.
Proof.
  intros Hl Hn Hs. unfold IsSafeScanId. fold (is_safe s). rewrite Hs. destruct s; [done|].
  unfold strlen. rewrite Hl. cbn [str_empty negb andb]. rewrite andb_true_r. apply Z.leb_le. lia.
Qed.

Lemma safe_hour t : 0 <= t < last_second → IsSafeScanId (FormatHour (ToUtc t)) = true.
Proof.
  intros Ht. eapply safe_id; [by apply FormatHour_length|lia|].
  destruct (ToUtc_bounds t Ht) as (_ & _ & _ & Hh). unfold FormatHour.
  by rewrite !is_safe_app, is_safe_day, is_safe_two_digits.
Qed.

Lemma safe_day t : 0 <= t < last_second → IsSafeScanId (FormatDay (ToUtc t)) = true.
Proof. intros Ht. eapply safe_id; [by apply FormatDay_length|lia|by apply is_safe_day]. Qed.

(** Instants of one hour have one date. *)
Lemma ToUtc_hour t t' : t' / 3600 = t / 3600 → ToUtc t' = ToUtc t.
Proof.
  intros E. unfold ToUtc.
  replace (t' / 86400) with (t / 86400) by (Z.to_euclidean_division_equations; lia).
  by replace (t' mod 86400 / 3600) with (t mod 86400 / 3600) by (Z.to_euclidean_division_equations; lia).
Qed.

Section seeds.
Context (HashSha256 : string → string).

(** What the hash function is known for. *)
Definition hex_digest : Prop := ∀ s, strlen (HashSha256 s) = 64.

Definition reconcile_job (scan_id : string) (scope : ReconciliationScope) (limit : Z) : NewStorageJob :=
  let request := mkReconciliationPageRequest scan_id scope 0 "" limit in
  new_job kStorageReconcileJobType scan_id
    ("periodic:storage-reconcile:" +:+ scan_id +:+ ":" +:+ ScopeToStorageValue scope +:+ ":" +:+
     BuildReconciliationCursorDigest HashSha256 request)%string
    (JObject [("scan_id", JString scan_id); ("scope", JString (ScopeToStorageValue scope));
              ("after_id", JInt 0); ("continuation_token", JString ""); ("limit", JInt limit)])%string.

Definition seed_jobs (hourly daily : string) : list NewStorageJob :=
  [new_job kExpireUploadsJobType hourly ("periodic:expire-uploads:" +:+ hourly +:+ ":0")%string
     (JObject [("scan_id", JString hourly); ("page", JInt 0); ("limit", JInt 100)])%string;
   new_job kExpireTrashJobType hourly ("periodic:expire-trash:" +:+ hourly +:+ ":0")%string
     (JObject [("scan_id", JString hourly); ("after_id", JInt 0); ("limit", JInt 100)])%string;
   reconcile_job daily Contents 500; reconcile_job daily Users 500;
   reconcile_job daily Staging 1000; reconcile_job daily Final 1000].

Lemma plan_jobs t : 0 <= t < last_second →
  let hourly := FormatHour (ToUtc t) in let daily := FormatDay (ToUtc t) in
  BuildPeriodicSeedPlan HashSha256 t =
    Value (mkPeriodicSeedPlan hourly daily (seed_jobs hourly daily)).
Proof.
  intros Ht hourly daily. unfold BuildPeriodicSeedPlan. cbv zeta. fold hourly daily.
  pose proof (safe_hour t Ht) as Hh. pose proof (safe_day t Ht) as Hd. fold hourly in Hh. fold daily in Hd.
  unfold BuildExpireUploadsJob, BuildExpireTrashJob, ValidateExpireUploadsPageRequest,
    ValidateExpireTrashPageRequest, reconcile_first, BuildStorageReconcileJob,
    ValidateReconciliationPageRequest.
  cbn [eu_scan_id eu_page eu_limit et_scan_id et_after_id et_limit rp_scan_id rp_scope rp_after_id
    rp_continuation_token rp_limit]. rewrite Hh, Hd. reflexivity.
Qed.

Lemma valid_job type id key payload n : strlen id = Z.succ n → 0 <= n < 64 →
  0 < strlen type <= 64 → 0 < strlen key <= 255 → valid_new_job (new_job type id key payload).
Proof.
  assert (∀ s, 0 < strlen s → s ≠ "") as Hne by (intros s Hs ->; done).
  intros Hid Hn Htype Hkey. unfold valid_new_job, new_job. cbn [nj_job_type nj_aggregate_id
    nj_dedupe_key nj_max_attempts]. unfold kMaxJobTypeLength, kMaxAggregateIdLength, kMaxDedupeKeyLength,
    kDefaultMaxAttempts. split_and!; try apply Hne; lia.
Qed.

Lemma seed_jobs_valid t : 0 <= t < last_second → hex_digest →
  Forall valid_new_job (seed_jobs (FormatHour (ToUtc t)) (FormatDay (ToUtc t))).
Proof.
  intros Ht Hsha. assert (strlen (FormatHour (ToUtc t)) = 12) as Hh
    by (unfold strlen; by rewrite FormatHour_length).
  assert (strlen (FormatDay (ToUtc t)) = 8) as Hd by (unfold strlen; by rewrite FormatDay_length).
  assert (∀ scope limit, valid_new_job (reconcile_job (FormatDay (ToUtc t)) scope limit)) as Hr.
  { intros scope limit. apply (valid_job _ _ _ _ 7); [exact Hd|lia|by vm_compute|].
    rewrite !strlen_app. unfold BuildReconciliationCursorDigest. rewrite Hsha, Hd.
    destruct scope; by vm_compute. }
  assert (∀ type key payload, 0 < strlen type <= 64 → strlen key <= 30 → valid_new_job
    (new_job type (FormatHour (ToUtc t)) (key +:+ FormatHour (ToUtc t) +:+ ":0")%string payload)) as He.
  { intros type key payload Htype Hkey. apply (valid_job _ _ _ _ 11); [exact Hh|lia|done|].
    rewrite !strlen_app, Hh. change (strlen ":0") with 2. unfold strlen in *. lia. }
  constructor; [apply He; by vm_compute|]. constructor; [apply He; by vm_compute|].
  do 4 (constructor; [apply Hr|]). constructor.
Qed.
End seeds.

(** ** The keys of the queue *)

Definition has_key (key : string) (d : Database) : Prop := find_job_by_dedupe_key key d ≠ None.

(** No job row is deleted, and none changes its key. *)
Definition keeps_keys (d d' : Database) : Prop := ∀ key, has_key key d → has_key key d'.

#[export] Instance keeps_keys_preorder : PreOrder keeps_keys.
Proof. split; [by intros d key|intros d1 d2 d3 H1 H2 key H; by apply H2, H1]. Qed.

Lemma has_key_row d i j : storage_jobs d !! i = Some j → has_key (j_dedupe_key j) d.
Proof. intros Hj Hn. rewrite find_job_None in Hn. by eapply Hn. Qed.

Lemma has_key_inv key d : has_key key d → ∃ i j, storage_jobs d !! i = Some j ∧ j_dedupe_key j = key.
Proof.
  unfold has_key. destruct (find_job_by_dedupe_key key d) as [[i j]|] eqn:E; [|done].
  apply find_job_Some in E. eauto.
Qed.

Lemma keeps_keys_rows d d' :
  (∀ i j, storage_jobs d !! i = Some j →
     ∃ j', storage_jobs d' !! i = Some j' ∧ j_dedupe_key j' = j_dedupe_key j) → keeps_keys d d'.
Proof.
  intros H key (i & j & Hj & <-)%has_key_inv. destruct (H i j Hj) as (j' & Hj' & <-).
  by eapply has_key_row.
Qed.

Lemma keeps_keys_put d i j j' : storage_jobs d !! i = Some j → j_dedupe_key j' = j_dedupe_key j →
  keeps_keys d (put_job i j' d).
Proof.
  intros Hj Hk. apply keeps_keys_rows. intros i1 j1 Hj1. rewrite put_job_lookup.
  case_decide; [subst; simplify_eq; eauto|eauto].
Qed.

(** An insert into a well-formed queue, by whichever statement. *)
Lemma insert_keeps_keys row on_conflict d r d' : fresh_job_ids d →
  (∀ j j', on_conflict j = Some j' → j_dedupe_key j' = j_dedupe_key row) →
  insert_job row on_conflict d = Some (r, d') → keeps_keys d d' ∧ has_key (j_dedupe_key row) d'.
Proof.
  intros Hf Hc H. apply insert_job_Some in H as [_ [(Hn & _ & ->)|(i & j & Hj & H)]].
  - split.
    + apply keeps_keys_rows. intros i j Hj. specialize (Hf i j Hj). exists j. split; [|done].
      cbn -[put_job]. rewrite put_job_lookup, decide_False; [done|lia].
    + apply (has_key_row _ (storage_jobs_id_seq d)). cbn -[put_job]. by rewrite put_job_lookup, decide_True.
  - apply find_job_Some in Hj as [Hj Hk].
    destruct H as [(_ & _ & ->)|(j' & Hj' & _ & _ & ->)].
    + split; [by intros key|]. change (has_key (j_dedupe_key row) d). rewrite <-Hk. by eapply has_key_row.
    + pose proof (Hc _ _ Hj') as Hkey. split.
      * change (keeps_keys d (put_job i j' d)). eapply keeps_keys_put; [exact Hj|congruence].
      * rewrite <-Hkey. apply (has_key_row _ i). cbn -[put_job]. by rewrite put_job_lookup, decide_True.
Qed.

Lemma keeps_keys_claim w limit n d rows d' :
  claim_batch_statement w limit n d = Some (rows, d') → keeps_keys d d'.
Proof.
  intros H. destruct (claim_rows_Some _ _ _ _ _ _ (candidates_NoDup limit d) H)
    as (_ & Hin & Hout & _ & _). apply keeps_keys_rows. intros i j Hj.
  destruct (decide (i ∈ (candidates limit d).*1)) as [Hi|Hi].
  - apply list_elem_of_fmap in Hi as ([i0 j0] & -> & Hij). cbn in *.
    destruct (candidates_elem _ _ _ _ Hij) as [Hj0 _]. simplify_eq. eexists. by split; [apply Hin|].
  - rewrite (Hout _ Hi). eauto.
Qed.

(** Every statement of the job repository keeps the keys. *)
Lemma statements_keep_keys st d d' : queue_ok d → execute_job st d = Some d' → keeps_keys d d'.
Proof.
  intros (_ & Hf & _) H.
  assert (∀ i guard set r d2, (∀ j j', set j = Some j' → j_dedupe_key j' = j_dedupe_key j) →
    update_job i guard set d = Some (r, d2) → keeps_keys d d2) as Hone.
  { intros i guard set r d2 Hk [[_ ->]|(j & j' & Hj & _ & Hs & _ & _ & ->)]%update_job_Some; [done|].
    eapply keeps_keys_put; [done|by eapply Hk]. }
  destruct st; unfold execute_job in H; apply fmap_Some in H as ([r d1] & H & ->); cbn [snd].
  - by eapply insert_keeps_keys in H as [H _].
  - eapply insert_keeps_keys in H as [H _]; [done..|]. by intros j j' ->%rearm_Some.
  - destruct r. apply update_jobs_Some in H as [-> _]. apply keeps_keys_rows. intros i j Hj. cbn.
    rewrite lookup_fmap, Hj. cbn. eexists. split; [done|]. by destruct (exhausted _ _).
  - by eapply keeps_keys_claim.
  - eapply Hone; [|exact H]. by intros j j' [= <-].
  - eapply Hone; [|exact H]. by intros j j' [= <-].
  - eapply Hone; [|exact H]. by intros j j' [= <-].
Qed.

(** ** Seeding a queue *)

Lemma enqueue_step job d r d' : queue_ok d → enqueue_statement job d = Some (r, d') →
  queue_ok d' ∧ keeps_keys d d' ∧ has_key (nj_dedupe_key job) d'.
Proof.
  intros Hq H. split.
  - apply (execute_job_queue_ok (JEnqueue job) d); [done|]. cbn. by rewrite H.
  - destruct Hq as (_ & Hf & _). by eapply insert_keeps_keys in H.
Qed.

#[export] Instance respects_keys_ValidateBoundedValue v n f :
  Respects keeps_keys queue_ok (ValidateBoundedValue v n f).
Proof. unfold ValidateBoundedValue. repeat case_match; apply _. Qed.

#[export] Instance respects_keys_ValidateNewJob job : Respects keeps_keys queue_ok (ValidateNewJob job).
Proof.
  unfold ValidateNewJob. do 3 (apply respects_bind; [apply _..|intros _]). case_match; apply _.
Qed.

#[export] Instance respects_keys_Enqueue job : Respects keeps_keys queue_ok (Enqueue job).
Proof.
  unfold Enqueue. apply respects_bind; [apply _..|]. intros _. apply respects_bind; [apply _| |].
  - apply respects_exec; [apply _|]. intros d a d' Hq H. destruct (enqueue_step _ _ _ _ Hq H) as (? & ? & _).
    done.
  - intros r. apply _.
Qed.

Lemma yields_keys_Enqueue job :
  yields keeps_keys queue_ok (Enqueue job) (λ _ d, has_key (nj_dedupe_key job) d).
Proof.
  unfold Enqueue. apply yields_then; [apply _..|]. intros _. apply yields_map, yields_exec; [apply _|].
  intros d r d' Hq H. apply (enqueue_step _ _ _ _ Hq H).
Qed.

(** The sum of the counters. *)
Definition settled (r : PeriodicSeedResult) : Z := ps_enqueued r + ps_deduplicated r.

#[export] Instance respects_keys_enqueue_jobs jobs : ∀ r, Respects keeps_keys queue_ok (enqueue_jobs jobs r).
Proof.
  induction jobs as [|job jobs IH]; intros r; cbn [enqueue_jobs]; [apply _|].
  apply respects_bind; [apply _..|]. intros b. apply IH.
Qed.

Lemma keys_last jobs : lasting keeps_keys (λ d, Forall (λ job, has_key (nj_dedupe_key job) d) jobs).
Proof. intros d d' H Hk. eapply Forall_impl; [exact H|]. intros job Hjob. by apply Hk. Qed.

Lemma enqueue_jobs_yields jobs : ∀ r, yields keeps_keys queue_ok (enqueue_jobs jobs r) (λ r' d,
  ps_attempted r' = ps_attempted r ∧ settled r' = settled r + Z.of_nat (length jobs) ∧
  Forall (λ job, has_key (nj_dedupe_key job) d) jobs).
Proof.
  induction jobs as [|job jobs IH]; intros r; cbn [enqueue_jobs length].
  - apply yields_ret. intros d _. split_and!; [done|lia|constructor].
  - apply (yields_both _ _ _ _ (λ _ d, has_key (nj_dedupe_key job) d) (λ r' d,
      ps_attempted r' = ps_attempted r ∧ settled r' = settled r + 1 + Z.of_nat (length jobs) ∧
      Forall (λ job, has_key (nj_dedupe_key job) d) jobs)).
    + apply _.
    + apply yields_keys_Enqueue.
    + intros b d d' H Hk. by apply Hk.
    + intros b. apply _.
    + intros b. eapply yields_weaken; [apply IH|]. intros r' d (Ha & Hs & Hjobs). split_and!; [..|done].
      * rewrite Ha. by destruct b.
      * rewrite Hs. unfold settled. destruct b; cbn; lia.
    + intros _ r' d Hkey (Ha & Hs & Hjobs). split_and!; [done|lia|by constructor].
Qed.

(** A job whose key is known is left alone. *)
Lemma Enqueue_known job d cs : valid_new_job job → has_key (nj_dedupe_key job) d →
  Enqueue job (mkEnv d [] AutoCommit cs) = (Ret false, mkEnv (next_job_id d) [] AutoCommit cs).
Proof.
  intros Hjob Hk. unfold Enqueue. rewrite (bind_Ret _ _ _ _ _ (ValidateNewJob_valid _ _ Hjob)).
  unfold has_key in Hk. destruct (find_job_by_dedupe_key (nj_dedupe_key job) d) as [[i j]|] eqn:Hf; [|done].
  assert (enqueue_statement job d = Some (None, next_job_id d)) as Hq.
  { unfold enqueue_statement, insert_job. rewrite (new_job_check job d Hjob). cbn [negb].
    change (j_dedupe_key (new_job_row job d)) with (nj_dedupe_key job). by rewrite Hf. }
  erewrite bind_Ret; [|unfold exec, next_step; cbn; by rewrite Hq]. done.
Qed.

Lemma enqueue_jobs_known jobs cs : Forall valid_new_job jobs → ∀ d r,
  Forall (λ job, has_key (nj_dedupe_key job) d) jobs →
  ∃ d', enqueue_jobs jobs r (mkEnv d [] AutoCommit cs) =
    (Ret (r <| ps_deduplicated ::= Z.add (Z.of_nat (length jobs)) |>), mkEnv d' [] AutoCommit cs) ∧
    storage_jobs d' = storage_jobs d.
Proof.
  induction 1 as [|job jobs Hjob Hjobs IH]; intros d r Hk; cbn [enqueue_jobs length].
  - exists d. split; [|done]. by destruct r.
  - apply Forall_cons in Hk as [Hk Hks]. rewrite (bind_Ret _ _ _ _ _ (Enqueue_known job d cs Hjob Hk)).
    destruct (IH (next_job_id d) (r <| ps_deduplicated ::= Z.succ |>)) as (d' & -> & Hd'); [exact Hks|].
    exists d'. split; [|exact Hd']. apply (f_equal (λ r', (Ret r', _))).
    destruct r; unfold set; cbn -[Z.add Z.of_nat]. f_equal. lia.
Qed.

Section seeded.
Context (HashSha256 : string → string).

Lemma SeedOnce_yields t : yields keeps_keys queue_ok (SeedOnce HashSha256 true false t) (λ r d,
  ∀ result, r = Ok result → ∃ plan, BuildPeriodicSeedPlan HashSha256 t = Value plan ∧
    ps_attempted result = Z.of_nat (length (pp_jobs plan)) ∧ settled result = ps_attempted result ∧
    Forall (λ job, has_key (nj_dedupe_key job) d) (pp_jobs plan)).
Proof.
  unfold SeedOnce. cbn [negb orb]. destruct (BuildPeriodicSeedPlan HashSha256 t) as [plan|e] eqn:Hp.
  - apply yields_catch_all_ret; [apply respects_bind; [apply _..|]; intros r; apply _| |done].
    apply yields_map. eapply yields_weaken; [apply enqueue_jobs_yields|].
    intros r d (Ha & Hs & Hk) result [= <-]. exists plan. unfold settled in *. cbn -[Z.of_nat] in *.
    split_and!; [done..|lia|done].
  - apply yields_ret. by intros d _ result [=].
Qed.

(** Other hours have other keys for the scans of the hour. *)
Lemma hourly_keys_differ t t' : 0 <= t < last_second → 0 <= t' < last_second →
  t / 3600 ≠ t' / 3600 → ∀ prefix,
  ((prefix +:+ FormatHour (ToUtc t) +:+ ":0") ≠ (prefix +:+ FormatHour (ToUtc t') +:+ ":0"))%string.
Proof.
  intros Ht Ht' Hne prefix E. apply Hne, FormatHour_inj; [done..|].
  apply app_inj in E as [_ E]; [|done]. apply app_inj in E as [E _]; [done|].
  by rewrite !FormatHour_length.
Qed.

(** C28: periodic scans are seeded once.  When a process answers that it seeded the queue, while
    other sessions run statements that keep the keys of the queue, each of the six jobs of the
    hour and the day was either put in or found there, and the queue holds all their keys.  From
    then on, seeding at any instant of the same hour, by any process, adds no job; the first
    instant of another hour plans scans under other keys. *)
Theorem periodic_scans_are_seeded_once t d sch cs result e1 : hex_digest HashSha256 →
  0 <= t < last_second → queue_ok d → relies keeps_keys queue_ok sch →
  SeedOnce HashSha256 true false t (mkEnv d sch AutoCommit cs) = (Ret (Ok result), e1) →
  ps_attempted result = 6 ∧ ps_enqueued result + ps_deduplicated result = 6 ∧
  ∃ plan, BuildPeriodicSeedPlan HashSha256 t = Value plan ∧ length (pp_jobs plan) = 6%nat ∧
    Forall (λ job, has_key (nj_dedupe_key job) (db e1)) (pp_jobs plan) ∧
    (∀ t' d2 cs2, t' / 3600 = t / 3600 → keeps_keys (db e1) d2 → ∃ d3,
       SeedOnce HashSha256 true false t' (mkEnv d2 [] AutoCommit cs2) =
         (Ret (Ok (mkPeriodicSeedResult 6 0 6)), mkEnv d3 [] AutoCommit cs2) ∧
       storage_jobs d3 = storage_jobs d2) ∧
    (∀ t', 0 <= t' < last_second → t' / 3600 ≠ t / 3600 → ∃ plan',
       BuildPeriodicSeedPlan HashSha256 t' = Value plan' ∧
       Forall2 (λ job job', nj_dedupe_key job ≠ nj_dedupe_key job')
         (take 2 (pp_jobs plan)) (take 2 (pp_jobs plan'))).
Proof.
  intros Hsha Ht Hq Hrel Hrun. pose proof (plan_jobs HashSha256 t Ht) as Hplan. cbv zeta in Hplan.
  destruct (SeedOnce_yields t (mkEnv d sch AutoCommit cs) _ _ eq_refl Hq Hrel Hrun result eq_refl)
    as (plan & Hp & Ha & Hs & Hk).
  rewrite Hp in Hplan. injection Hplan as ->. cbn [pp_jobs] in *.
  change (length (seed_jobs _ _ _)) with 6%nat in Ha. unfold settled in Hs.
  split; [lia|]. split; [lia|]. eexists. split; [exact Hp|]. split; [done|]. split; [exact Hk|]. split.
  - intros t' d2 cs2 Hsame Hkeep. apply (keys_last _ _ _ Hk) in Hkeep.
    destruct (enqueue_jobs_known _ cs2 (seed_jobs_valid HashSha256 t Ht Hsha) d2
      (mkPeriodicSeedResult 6 0 0) Hkeep) as (d3 & Hrun3 & Hd3).
    exists d3. split; [|exact Hd3]. unfold SeedOnce. cbn [negb orb].
    replace (BuildPeriodicSeedPlan HashSha256 t') with (BuildPeriodicSeedPlan HashSha256 t)
      by (unfold BuildPeriodicSeedPlan; by rewrite (ToUtc_hour t t' Hsame)).
    rewrite Hp. cbn [pp_jobs]. change (Z.of_nat (length (seed_jobs _ _ _))) with 6.
    unfold catch_all, catch. rewrite (bind_Ret _ _ _ _ _ Hrun3). reflexivity.
  - intros t' Ht' Hne. eexists. split; [exact (plan_jobs HashSha256 t' Ht')|]. cbn [pp_jobs take seed_jobs].
    assert (t / 3600 ≠ t' / 3600) as Hne' by congruence.
    repeat constructor; by apply hourly_keys_differ.
Qed.
End seeded.

(** Another process puts the first scan in before this one does. *)
Definition zero_digest (s : string) : string := String.string_of_list_ascii (repeat (Ascii.ascii_of_nat 48) 64).

Definition example_instant : Z := 1709251199.

Definition rival_seed (d : Database) : Database :=
  match seed_jobs zero_digest "20240229T23Z" "20240229" with
  | job :: _ => default d (execute_job (JEnqueue job) d)
  | [] => d
  end.

Lemma rival_relies : relies keeps_keys queue_ok [mkStep rival_seed Works].
Proof.
  constructor; [|constructor]. cbn [interference]. intros d Hq. unfold rival_seed. cbn [seed_jobs].
  destruct (execute_job _ d) as [d'|] eqn:E; cbn [default]; [|by split].
  split; [by eapply execute_job_queue_ok|by eapply statements_keep_keys].
Qed.

Definition seeding : outcome (Result PeriodicSeedResult) * Env Database :=
  SeedOnce zero_digest true false example_instant
    (mkEnv (empty_db 100) [mkStep rival_seed Works] AutoCommit []).

Lemma periodic_scans_are_seeded_once_witness :
  fst seeding = Ret (Ok (mkPeriodicSeedResult 6 5 1)) ∧
  ∃ e, SeedOnce zero_digest true false (example_instant - 3599) (mkEnv (db (snd seeding)) [] AutoCommit []) =
    (Ret (Ok (mkPeriodicSeedResult 6 0 6)), e).
Proof.
  split; [vm_compute; reflexivity|].
  destruct (periodic_scans_are_seeded_once zero_digest example_instant (empty_db 100)
    [mkStep rival_seed Works] [] (mkPeriodicSeedResult 6 5 1) (snd seeding))
    as (_ & _ & plan & _ & _ & _ & Hagain & _).
  - intros s. vm_compute. reflexivity.
  - by vm_compute.
  - apply empty_queue_ok.
  - exact rival_relies.
  - vm_compute. reflexivity.
  - destruct (Hagain (example_instant - 3599) (db (snd seeding)) []) as (d3 & Hrun & _);
      [vm_compute; reflexivity|reflexivity|]. eexists. exact Hrun.
Defined.
