(* ===== verification/MultipartJournal.v ===== *)
(** * The multipart upload journal

    [src/src/services/MultipartUploadJournal.cpp] and
    [src/src/storage/MultipartUploadRecovery.cpp]: an upload in parts to the object
    store is entered in the job queue before its first part, as a job that is
    already running under a lease of the uploader.  If the uploader dies the lease
    runs out and a worker takes the job over, to abort the upload. *)

From S2P Require Import Prelude Errors Storage Db UploadState Json Schema Names StorageJobs.

Local Open Scope string_scope.

(** ** Data *)

Definition kMaxObjectKeyLength : Z := 1024.
Definition kMaxUploadIdLength : Z := 4096.
Definition kMaxJournalErrorLength : nat := 2048.
Definition kOwnerInstancePrefixLength : nat := 59.
Definition kMultipartAbortMaxAttempts : Z := 8.

(** ** Operations *)

Definition ValidateDescriptor (descriptor : MultipartUploadDescriptor) : Result unit :=
  if str_empty (mp_key descriptor) || (kMaxObjectKeyLength <? strlen (mp_key descriptor))%Z ||
     str_empty (mp_upload_id descriptor) ||
     (kMaxUploadIdLength <? strlen (mp_upload_id descriptor))%Z
  then Err (mkErrorInfo ValidationFailed "Invalid multipart upload descriptor")
  else Ok tt.

Definition SerializePayload (descriptor : MultipartUploadDescriptor) : json :=
  JObject [("backend", JString "s3"); ("key", JString (mp_key descriptor));
           ("upload_id", JString (mp_upload_id descriptor))].

Definition DatabaseFailure (action : string) : ErrorInfo :=
  mkErrorInfo InternalError ("Failed to " ++ action ++ " multipart recovery task").

Section journal.
(** The digest function, the instance the process runs as and its lease. *)
Context (HashSha256 : string → string) (instance_id : string) (m_lease_duration_seconds : Z).

Definition BuildMultipartUploadRecoveryId (descriptor : MultipartUploadDescriptor) : string :=
  HashSha256 (mp_key descriptor ++ String (Ascii.ascii_of_nat 10) (mp_upload_id descriptor)).

Definition BuildMultipartUploadRecoveryDedupeKey (descriptor : MultipartUploadDescriptor)
  : string := "multipart-abort:" ++ BuildMultipartUploadRecoveryId descriptor.

(** The constructor: the arguments it refuses. *)
Definition journal_arguments : option string :=
  if str_empty instance_id || (128 <? strlen instance_id)%Z
  then Some "Multipart upload journal instance ID must contain 1 to 128 characters"
  else if (m_lease_duration_seconds <? 3)%Z
  then Some "Multipart upload journal lease must be at least 3 seconds"
  else None.

Definition m_owner_prefix : string := String.substring 0 kOwnerInstancePrefixLength instance_id.

Definition OwnerFor (descriptor : MultipartUploadDescriptor) : string :=
  m_owner_prefix ++ ":mp:" ++ BuildMultipartUploadRecoveryId descriptor.

(** The row [Track] inserts: running at once, with no attempt used. *)
Definition tracked_row (descriptor : MultipartUploadDescriptor) (d : Database) : JobRow :=
  mkJobRow kMultipartAbortJobType (BuildMultipartUploadRecoveryId descriptor)
    (BuildMultipartUploadRecoveryDedupeKey descriptor) (SerializePayload descriptor)
    (JobToStorageValue Running) 0 (i32 kMultipartAbortMaxAttempts) (now d)
    (Some (OwnerFor descriptor)) (Some (job_deadline m_lease_duration_seconds d)) None None (now d).

Definition track_statement (descriptor : MultipartUploadDescriptor) (d : Database)
  : option (option Z * Database) :=
  insert_job (tracked_row descriptor d) (λ _, None) d.

(** The row of the descriptor: [WHERE job_type = ... AND aggregate_id = ... AND
    dedupe_key = ...]; the key is unique. *)
Definition tracked_job (descriptor : MultipartUploadDescriptor) (d : Database)
  : option (Z * JobRow) :=
  r ← find_job_by_dedupe_key (BuildMultipartUploadRecoveryDedupeKey descriptor) d;
  if (j_job_type r.2 =? kMultipartAbortJobType) &&
     (j_aggregate_id r.2 =? BuildMultipartUploadRecoveryId descriptor)
  then Some r else None.

(** [UPDATE ... WHERE (the row of the descriptor) AND status = running AND locked_by =
    owner AND guard]: the number of rows updated. *)
Definition update_tracked (descriptor : MultipartUploadDescriptor) (guard : JobRow → bool)
    (set : JobRow → JobRow) (d : Database) : option (Z * Database) :=
  match tracked_job descriptor d with
  | None => Some (0%Z, d)
  | Some (id, _) =>
      '(r, d') ← update_job id (λ j, held_by (OwnerFor descriptor) j && guard j)
                   (λ j, Some (set j)) d;
      Some (match (r : option JobRow) with Some _ => 1%Z | None => 0%Z end, d')
  end.

Definition renew_tracked_statement (descriptor : MultipartUploadDescriptor) (d : Database)
  : option (Z * Database) :=
  update_tracked descriptor (λ j, ts_gt (j_locked_until j) (now d))
    (λ j, j <| j_locked_until := Some (job_deadline m_lease_duration_seconds d) |>) d.

Definition resolve_statement (descriptor : MultipartUploadDescriptor) (d : Database)
  : option (Z * Database) :=
  update_tracked descriptor (λ _, true)
    (λ j, j <| j_status := JobToStorageValue Succeeded |> <| j_locked_by := None |>
            <| j_locked_until := None |> <| j_last_error := None |>
            <| j_completed_at := Some (now d) |>) d.

Definition release_statement (descriptor : MultipartUploadDescriptor) (error : string)
    (d : Database) : option (Z * Database) :=
  update_tracked descriptor (λ _, true)
    (λ j, j <| j_status := JobToStorageValue Retry |> <| j_available_at := now d |>
            <| j_locked_by := None |> <| j_locked_until := None |>
            <| j_last_error := Some error |>) d.

(** Every operation validates the descriptor first and turns an exception into an
    error. *)
Definition journal_operation (action : string) (descriptor : MultipartUploadDescriptor)
    (m : M Database (Result unit)) : M Database (Result unit) :=
  match ValidateDescriptor descriptor with
  | Err e => mret (Err e)
  | Ok _ => catch_all m (mret (Err (DatabaseFailure action)))
  end.

Definition Track (descriptor : MultipartUploadDescriptor) : M Database (Result unit) :=
  journal_operation "track" descriptor
    (r ← exec (track_statement descriptor);
     mret (match (r : option Z) with
           | Some _ => Ok tt
           | None => Err (mkErrorInfo ResourceConflict "Multipart recovery task already exists")
           end)).

Definition Renew (descriptor : MultipartUploadDescriptor) : M Database (Result unit) :=
  journal_operation "renew" descriptor
    (rows ← exec (renew_tracked_statement descriptor);
     mret (if (rows =? 1)%Z then Ok tt
           else Err (mkErrorInfo ResourceConflict "Multipart recovery lease ownership was lost"))).

Definition OwnershipLost : ErrorInfo :=
  mkErrorInfo ResourceConflict "Multipart recovery task ownership was lost".

Definition Resolve (descriptor : MultipartUploadDescriptor) : M Database (Result unit) :=
  journal_operation "resolve" descriptor
    (rows ← exec (resolve_statement descriptor);
     if (rows =? 1)%Z then mret (Ok tt)
     else
       existing ← query (tracked_job descriptor);
       mret (match (existing : option (Z * JobRow)) with
             | Some (_, j) =>
                 if (j_status j =? JobToStorageValue Succeeded)%Z then Ok tt else Err OwnershipLost
             | None => Err OwnershipLost
             end)).

Definition ReleaseForRetry (descriptor : MultipartUploadDescriptor) (error : string)
  : M Database (Result unit) :=
  journal_operation "release" descriptor
    (rows ← exec (release_statement descriptor (String.substring 0 kMaxJournalErrorLength error));
     mret (if (rows =? 1)%Z then Ok tt else Err OwnershipLost)).

(** ** Lemmas *)

Lemma update_tracked_Some descriptor guard set d r d' :
  update_tracked descriptor guard set d = Some (r, d') →
  (r = 0%Z ∧ d' = d) ∨
  ∃ i j, tracked_job descriptor d = Some (i, j) ∧ storage_jobs d !! i = Some j ∧
    held_by (OwnerFor descriptor) j = true ∧ guard j = true ∧
    check_storage_job (set j) = true ∧ r = 1%Z ∧ d' = put_job i (set j) d.
Proof.
  unfold update_tracked. destruct (tracked_job descriptor d) as [[i j]|] eqn:Ht; [|naive_solver].
  assert (storage_jobs d !! i = Some j) as Hj.
  { unfold tracked_job in Ht. apply bind_Some in Ht as ([i' j'] & Hf & H).
    case_match; simplify_eq. by apply find_job_Some in Hf as [? _]. }
  intros ([row d1] & Hu & H)%bind_Some. simplify_eq/=.
  apply update_job_Some in Hu as [[-> ->]|(j0 & j' & Hj0 & Hg & [= <-] & Hc & -> & ->)];
    [by left|right].
  simplify_eq. apply andb_true_iff in Hg as [? ?]. eauto 15.
Qed.

Lemma update_tracked_works descriptor guard set d i j :
  tracked_job descriptor d = Some (i, j) →
  (held_by (OwnerFor descriptor) j = true → check_storage_job (set j) = true) →
  update_tracked descriptor guard set d =
    Some (if held_by (OwnerFor descriptor) j && guard j then (1%Z, put_job i (set j) d) else (0%Z, d)).
Proof.
  intros Ht Hc. unfold update_tracked. rewrite Ht. unfold tracked_job in Ht.
  apply bind_Some in Ht as ([i' j'] & Hf & H). case_match; simplify_eq.
  apply find_job_Some in Hf as [Hj _]. unfold update_job. rewrite Hj. cbn.
  destruct (held_by (OwnerFor descriptor) j); [|done]. cbn.
  destruct (guard j); [|done]. by rewrite Hc.
Qed.

(** Every operation keeps the queue well-formed. *)
Lemma queue_ok_tracked descriptor guard set d r d' :
  (∀ j, j_dedupe_key (set j) = j_dedupe_key j ∧ j_attempts (set j) = j_attempts j ∧
     j_max_attempts (set j) = j_max_attempts j) →
  queue_ok d → update_tracked descriptor guard set d = Some (r, d') → queue_ok d'.
Proof.
  intros Hset Hd [[_ ->]|(i & j & _ & Hj & _ & _ & Hc & _ & ->)]%update_tracked_Some; [done|].
  destruct (Hset j) as (Hk & Ha & Hm). destruct Hd as (? & ? & Hok).
  destruct (Hok _ _ Hj) as [_ ?]. eapply queue_ok_put; [done|exact Hj|done|].
  split; [done|]. by rewrite Ha, Hm.
Qed.

(** The rows the operations leave. *)
Definition renewed (d : Database) (j : JobRow) : JobRow :=
  j <| j_locked_until := Some (job_deadline m_lease_duration_seconds d) |>.

Definition resolved (d : Database) (j : JobRow) : JobRow :=
  j <| j_status := JobToStorageValue Succeeded |> <| j_locked_by := None |>
    <| j_locked_until := None |> <| j_last_error := None |> <| j_completed_at := Some (now d) |>.

Definition released (error : string) (d : Database) (j : JobRow) : JobRow :=
  j <| j_status := JobToStorageValue Retry |> <| j_available_at := now d |>
    <| j_locked_by := None |> <| j_locked_until := None |>
    <| j_last_error := Some (String.substring 0 kMaxJournalErrorLength error) |>.

Lemma operation_valid action descriptor m e :
  ValidateDescriptor descriptor = Ok tt →
  journal_operation action descriptor m e =
    catch_all m (mret (Err (DatabaseFailure action))) e.
Proof. intros Hv. unfold journal_operation. by rewrite Hv. Qed.

Lemma held_check d descriptor i j :
  queue_ok d → tracked_job descriptor d = Some (i, j) → held_by (OwnerFor descriptor) j = true →
  check_storage_job (renewed d j) = true ∧ check_storage_job (resolved d j) = true ∧
  ∀ e, check_storage_job (released e d j) = true.
Proof.
  intros (_ & _ & Hok) Ht [Hs Hl]%held_by_true.
  unfold tracked_job in Ht. apply bind_Some in Ht as ([i' j'] & Hf & H). case_match; simplify_eq.
  apply find_job_Some in Hf as [Hj _]. destruct (Hok _ _ Hj) as [Hc _].
  apply check_storage_job_true in Hc as (? & ? & ? & _).
  split_and!; [..|intros e]; apply check_storage_job_true; cbn; split_and!; try done; try lia;
    by rewrite ?Hs, ?Hl.
Qed.

Lemma tracked_row_ok descriptor d : job_ok (tracked_row descriptor d).
Proof. split; [reflexivity|]. cbn. unfold kMultipartAbortMaxAttempts. rewrite i32_small; lia. Qed.

(** ** Properties *)

(** An operation of the journal acts only for the upload that holds the job.  While the
    uploader holds the job of its upload in parts, resolving marks it done,
    releasing makes it due for a worker, and renewing moves the deadline of a lease
    that has not run out.  Once a worker has taken the job over, or the job is over,
    every operation leaves it alone and reports a conflict, except that resolving
    again a job that succeeded reports success. *)
Lemma journal_acts_for_its_owner descriptor error d i j cs :
  queue_ok d → ValidateDescriptor descriptor = Ok tt → tracked_job descriptor d = Some (i, j) →
  let mine := held_by (OwnerFor descriptor) j in
  let e := mkEnv d [] AutoCommit cs in
  Renew descriptor e =
    (if mine && ts_gt (j_locked_until j) (now d)
     then (Ret (Ok tt), mkEnv (put_job i (renewed d j) d) [] AutoCommit cs)
     else (Ret (Err (mkErrorInfo ResourceConflict
                       "Multipart recovery lease ownership was lost")), e)) ∧
  Resolve descriptor e =
    (if mine then (Ret (Ok tt), mkEnv (put_job i (resolved d j) d) [] AutoCommit cs)
     else (Ret (if job_is Succeeded j then Ok tt else Err OwnershipLost), e)) ∧
  ReleaseForRetry descriptor error e =
    (if mine then (Ret (Ok tt), mkEnv (put_job i (released error d j) d) [] AutoCommit cs)
     else (Ret (Err OwnershipLost), e)).
Proof.
  intros Hq Hv Ht mine e. subst e. unfold Renew, Resolve, ReleaseForRetry.
  rewrite !operation_valid by done. unfold catch_all.
  pose proof (held_check d descriptor i j Hq Ht) as Hc.
  assert (∀ guard set (q : Database → option (Z * Database)),
    q d = update_tracked descriptor guard set d → (mine = true → check_storage_job (set j) = true) →
    exec q (mkEnv d [] AutoCommit cs) =
      (Ret (if mine && guard j then 1%Z else 0%Z),
       mkEnv (if mine && guard j then put_job i (set j) d else d) [] AutoCommit cs)) as Hup.
  { intros guard set q Hqd Hset. apply exec_works. rewrite Hqd.
    rewrite (update_tracked_works _ _ _ _ _ _ Ht Hset). fold mine. by destruct (mine && guard j). }
  split_and!.
  - erewrite catch_Ret; [|erewrite bind_Ret by (eapply (Hup _ (renewed d)); [reflexivity|naive_solver]);
      reflexivity]. by destruct (mine && _).
  - pose proof (Hup (λ _, true) (resolved d) (resolve_statement descriptor) eq_refl
      ltac:(naive_solver)) as Hr. rewrite andb_true_r in Hr.
    destruct mine; erewrite catch_Ret; try (rewrite (bind_Ret _ _ _ _ _ Hr); cbn [Z.eqb];
      try rewrite (bind_Ret _ _ _ _ _ (query_works _ _ cs)), Ht; reflexivity); done.
  - pose proof (Hup (λ _, true) (released error d)
      (release_statement descriptor (String.substring 0 kMaxJournalErrorLength error)) eq_refl
      ltac:(naive_solver)) as Hr. rewrite andb_true_r in Hr.
    erewrite catch_Ret by (rewrite (bind_Ret _ _ _ _ _ Hr); reflexivity). by destruct mine.
Qed.

(** An upload in parts whose uploader dies is recovered, and not before.  Tracking
    a new upload enters its job, which no worker is given while the lease of the
    uploader runs and any worker is given from its deadline on; releasing it makes it
    due at once.  An upload already tracked is refused and its job left alone. *)
Lemma abandoned_uploads_are_recovered descriptor d cs :
  queue_ok d → ValidateDescriptor descriptor = Ok tt →
  (0 < m_lease_duration_seconds < 2 ^ 31)%Z →
  let key := BuildMultipartUploadRecoveryDedupeKey descriptor in
  let row := tracked_row descriptor d in
  ∃ d', Track descriptor (mkEnv d [] AutoCommit cs) =
      (Ret (if bool_decide (find_job_by_dedupe_key key d = None) then Ok tt
            else Err (mkErrorInfo ResourceConflict "Multipart recovery task already exists")),
       mkEnv d' [] AutoCommit cs) ∧
    queue_ok d' ∧
    (find_job_by_dedupe_key key d ≠ None → storage_jobs d' = storage_jobs d) ∧
    (find_job_by_dedupe_key key d = None →
       (∃ i, tracked_job descriptor d' = Some (i, row)) ∧
       (∀ t, ready t row = (job_deadline m_lease_duration_seconds d <=? t)%Z) ∧
       ∀ error d2, ready (now d2) (released error d2 row) = true).
Proof.
  intros Hq Hv Hlease key row.
  pose proof (tracked_row_ok descriptor d) as Hok. pose proof Hok as [Hc _]. fold row in Hok, Hc.
  assert (∃ r d', track_statement descriptor d = Some (r, d') ∧
    (r = None ↔ find_job_by_dedupe_key key d ≠ None) ∧ queue_ok d' ∧
    match r with
    | None => storage_jobs d' = storage_jobs d
    | Some i => storage_jobs d' !! i = Some row
    end) as (r & d' & Hs & Hr & Hd' & Hsame).
  { unfold track_statement, insert_job. fold row. rewrite Hc. cbn [negb].
    change (j_dedupe_key row) with key.
    destruct (find_job_by_dedupe_key key d) as [[i j]|] eqn:Hf.
    - eexists _, _. split; [done|]. split_and!; [naive_solver|by apply queue_ok_next|done].
    - eexists _, _. split; [done|]. split_and!; [naive_solver|by apply queue_ok_insert|].
      change (storage_jobs (put_job (storage_jobs_id_seq d) row d) !! storage_jobs_id_seq d = Some row).
      by rewrite put_job_lookup, decide_True. }
  exists d'. split_and!; [|done|by intros Hne%Hr; subst|].
  - unfold Track. rewrite operation_valid by done. unfold catch_all.
    erewrite catch_Ret by (rewrite (bind_Ret _ _ _ _ _ (exec_works _ _ _ _ cs Hs)); reflexivity).
    do 2 f_equal. destruct r as [i|].
    + rewrite bool_decide_eq_true_2; [done|]. apply dec_stable. by intros Hn%Hr.
    + rewrite bool_decide_eq_false_2; [done|]. by apply Hr.
  - intros Hnone. destruct r as [i|]; [|by destruct (proj1 Hr eq_refl)]. split_and!.
    + exists i. unfold tracked_job. change (BuildMultipartUploadRecoveryDedupeKey descriptor)
        with (j_dedupe_key row).
      rewrite (find_job_unique _ _ _ Hd' Hsame). cbn. by rewrite String.eqb_refl.
    + intros t. reflexivity.
    + intros error d2. unfold ready. cbn. by rewrite Z.leb_refl.
Qed.

(** Every operation of the journal keeps the job queue well-formed, whatever
    fails and as long as the other sessions do. *)
Lemma journal_keeps_queue descriptor error :
  Preserves queue_ok (Track descriptor) ∧ Preserves queue_ok (Renew descriptor) ∧
  Preserves queue_ok (Resolve descriptor) ∧ Preserves queue_ok (ReleaseForRetry descriptor error).
Proof.
  assert (∀ (q : Database → option (Z * Database)) guard set,
    (∀ d, q d = update_tracked descriptor (guard d) (set d) d) →
    (∀ d j, j_dedupe_key (set d j) = j_dedupe_key j ∧ j_attempts (set d j) = j_attempts j ∧
       j_max_attempts (set d j) = j_max_attempts j) → Preserves queue_ok (exec q)) as Hup.
  { intros q guard set Hqd Hset. apply preserves_exec. intros d r d' Hd Hr. rewrite Hqd in Hr.
    by eapply queue_ok_tracked. }
  assert (Preserves queue_ok (exec (track_statement descriptor))) as Htrack.
  { apply preserves_exec. intros d r d' Hd Hr.
    destruct (insert_job_Some _ _ _ _ _ Hr)
      as [Hc [(Hn & _ & ->)|(i & j & Hj & [(_ & _ & ->)|(j' & [=] & _)])]].
    - apply queue_ok_insert; [done..|]. apply tracked_row_ok.
    - by apply queue_ok_next. }
  assert (Preserves queue_ok (exec (renew_tracked_statement descriptor))) as Hrenew
    by (by eapply (Hup _ _ (λ d, renewed d))).
  assert (Preserves queue_ok (exec (resolve_statement descriptor))) as Hresolve
    by (by eapply (Hup _ _ (λ d, resolved d))).
  assert (∀ e, Preserves queue_ok (exec (release_statement descriptor e))) as Hrelease.
  { intros e. by eapply (Hup _ _ (λ d j, j <| j_status := JobToStorageValue Retry |>
      <| j_available_at := now d |> <| j_locked_by := None |> <| j_locked_until := None |>
      <| j_last_error := Some e |>)). }
  unfold Track, Renew, Resolve, ReleaseForRetry, journal_operation.
  split_and!; solve_preserves.
Qed.

(** What the journal writes fits its columns.  With a digest of 64 characters the
    identifier, the key and the owner of a job stay within the lengths the queue
    allows, whatever the name of the instance. *)
Lemma journal_identifiers_fit descriptor :
  (∀ s, strlen (HashSha256 s) = 64%Z) →
  (strlen (BuildMultipartUploadRecoveryId descriptor) <= kMaxAggregateIdLength)%Z ∧
  (strlen (BuildMultipartUploadRecoveryDedupeKey descriptor) <= kMaxDedupeKeyLength)%Z ∧
  (strlen (OwnerFor descriptor) <= kMaxInstanceIdLength)%Z.
Proof.
  intros Hsha. pose proof (strlen_prefix kOwnerInstancePrefixLength instance_id) as Hp.
  unfold BuildMultipartUploadRecoveryDedupeKey, OwnerFor, m_owner_prefix.
  rewrite !strlen_app. unfold BuildMultipartUploadRecoveryId at 1 2 3. rewrite !Hsha.
  change (strlen "multipart-abort:") with 16%Z. change (strlen ":mp:") with 4%Z.
  unfold kMaxAggregateIdLength, kMaxDedupeKeyLength, kMaxInstanceIdLength,
    kOwnerInstancePrefixLength in *. lia.
Qed.
End journal.

(** ** Witnesses *)

Definition example_descriptor : MultipartUploadDescriptor :=
  mkMultipartUploadDescriptor "blobs/ab" "part-upload-1".

(** A digest of the right length. *)
Definition example_digest (s : string) : string :=
  "0123456789abcdef0123456789abcdef0123456789abcdef0123456789abcdef".

Definition example_tracked : Database :=
  match track_statement example_digest "server-a" 30 example_descriptor (empty_db 100) with
  | Some (_, d) => d
  | None => empty_db 100
  end.

Lemma abandoned_uploads_are_recovered_witness :
  ∃ d', Track example_digest "server-a" 30 example_descriptor (mkEnv (empty_db 100) [] AutoCommit []) =
      (Ret (Ok tt), mkEnv d' [] AutoCommit []) ∧
    ∀ t, ready t (tracked_row example_digest "server-a" 30 example_descriptor (empty_db 100)) =
      (30000100 <=? t)%Z.
Proof.
  destruct (abandoned_uploads_are_recovered example_digest "server-a" 30 example_descriptor
    (empty_db 100) [] (empty_queue_ok 100) eq_refl) as (d' & Hr & _ & _ & H); [lia|].
  exists d'. split; [exact Hr|]. intros t. destruct (H eq_refl) as (_ & Ht & _). apply (Ht t).
Defined.

Lemma example_tracked_ok : queue_ok example_tracked.
Proof.
  apply (queue_ok_insert (empty_db 100) (tracked_row example_digest "server-a" 30 example_descriptor
    (empty_db 100))); [apply empty_queue_ok|reflexivity|apply tracked_row_ok].
Qed.

(** Another process does not hold the job. *)
Lemma journal_acts_for_its_owner_witness :
  Resolve example_digest "server-b" example_descriptor (mkEnv example_tracked [] AutoCommit []) =
    (Ret (Err OwnershipLost), mkEnv example_tracked [] AutoCommit []) ∧
  is_ok (match (Resolve example_digest "server-a" example_descriptor
    (mkEnv example_tracked [] AutoCommit [])).1 with Ret r => r | Raise _ => Err OwnershipLost end) = true.
Proof.
  set (row := tracked_row example_digest "server-a" 30 example_descriptor (empty_db 100)).
  destruct (journal_acts_for_its_owner example_digest "server-b" 30 example_descriptor ""
    example_tracked 1 row [] example_tracked_ok eq_refl eq_refl) as (_ & Hb & _).
  destruct (journal_acts_for_its_owner example_digest "server-a" 30 example_descriptor ""
    example_tracked 1 row [] example_tracked_ok eq_refl eq_refl) as (_ & Ha & _).
  split; [exact Hb|by rewrite Ha].
Defined.

Lemma journal_identifiers_fit_witness :
  (strlen (OwnerFor example_digest
    "an-instance-name-that-is-much-longer-than-the-fifty-nine-characters-kept" example_descriptor)
    <= kMaxInstanceIdLength)%Z.
Proof. apply (journal_identifiers_fit example_digest). reflexivity. Defined.
