(* ===== verification/Folders.v ===== *)
(** * Folders

    [src/src/services/FolderRepository.cpp]: ownership lookups, the recursive queries
    on the folder tree, and the updates of names, paths, depths and item counts.
    A recursive query that would not end is a statement that fails. *)

From S2P Require Import Prelude Errors Db Schema Batch.

Local Open Scope string_scope.

(** ** Data *)

Record FolderLocation := mkFolderLocation { fl_path : string; fl_depth : Z }.

Definition root_location : FolderLocation := mkFolderLocation "/" 0.

Record FolderNodeData := mkFolderNodeData {
  fn_id : Z;
  fn_name : string;
  fn_parent_id : Z
}.

Record BreadcrumbItem := mkBreadcrumbItem { bi_id : Z; bi_name : string }.

(** A row of [folders] with its primary key. *)
Notation folder := (Z * FolderRow)%type.

(** ** Statements *)

Definition put_folder (id : Z) (f : FolderRow) (d : Database) : Database :=
  d <| folders := <[id := f]> (folders d) |>.

Definition owned_folder (folder_id user_id : Z) (d : Database) : option folder :=
  f ← folders d !! folder_id;
  if (d_user_id f =? user_id)%Z then Some (folder_id, f) else None.

(** The unique constraint [uk_folders_user_parent_name]. *)
Definition folder_named (user_id parent_id : Z) (name : string) (_ : Z) (f : FolderRow) : bool :=
  (d_user_id f =? user_id)%Z && (d_parent_id f =? parent_id)%Z && (d_name f =? name).

(** The lengths of the text columns of [folders]. *)
Definition check_folder (f : FolderRow) : bool :=
  varchar 255 (d_name f) && varchar 4096 (d_path f).

(** The trigger [update_modified_column] runs before every update of a row. *)
Definition modified_folder (d : Database) (f : FolderRow) : FolderRow :=
  f <| d_updated_at := now d |>.

(** [UPDATE folders SET ... WHERE id = id AND user_id = user]: whether a row changed.
    [set] is [None] on an integer overflow. *)
Definition update_folder (id user_id : Z) (set : FolderRow → option FolderRow) (d : Database)
  : option (bool * Database) :=
  match owned_folder id user_id d with
  | None => Some (false, d)
  | Some (_, f) =>
      f' ← modified_folder d <$> set f;
      if check_folder f' &&
         negb (exists_row (λ i g, negb (i =? id)%Z &&
                 folder_named (d_user_id f') (d_parent_id f') (d_name f') i g) (folders d))
      then Some (true, put_folder id f' d) else None
  end.

(** [INSERT ... ON CONFLICT (user_id, parent_id, name) DO NOTHING RETURNING *]: a
    conflict uses up a value of the sequence. *)
Definition insert_folder_statement (f : FolderRow) (d : Database)
  : option (option folder * Database) :=
  id ← bigint (folders_id_seq d);
  let next := d <| folders_id_seq := (id + 1)%Z |> in
  if negb (check_folder f) then None
  else if exists_row (folder_named (d_user_id f) (d_parent_id f) (d_name f)) (folders d)
  then Some (None, next)
  else if bool_decide (is_Some (users d !! d_user_id f))
  then Some (Some (id, f), put_folder id f next) else None.

(** The folders of [user_id] directly inside [parent_id]. *)
Definition children (user_id : Z) (d : Database) (parent_id : Z) : list folder :=
  List.filter (λ kv, (d_parent_id kv.2 =? parent_id)%Z && (d_user_id kv.2 =? user_id)%Z)
    (map_to_list (folders d)).

Definition by_depth_id (a b : folder) : bool :=
  lex_leb (d_depth a.2) (d_depth b.2) (a.1 <=? b.1)%Z.

Definition folder_subtree (root_folder_id user_id : Z) (d : Database) : option (list folder) :=
  order_by by_depth_id <$>
    with_recursive (size (folders d)) (λ f, children user_id d f.1)
      (option_list (owned_folder root_folder_id user_id d)).

(** Rows of the folder tree carry their level; a row at [max_depth] has no children. *)
Definition folder_tree (user_id parent_id max_depth : Z) (d : Database)
  : option (list (folder * Z)) :=
  order_by (λ a b, String.leb (d_path a.1.2) (d_path b.1.2)) <$>
    with_recursive (S (S (Z.to_nat max_depth)))
      (λ fl, if (fl.2 <? max_depth)%Z
             then (λ f, (f, (fl.2 + 1)%Z)) <$> children user_id d fl.1.1 else [])
      ((λ f, (f, 0%Z)) <$> children user_id d parent_id).

Definition folder_ancestors (folder_id user_id : Z) (d : Database) : option (list folder) :=
  with_recursive (size (folders d))
    (λ f, option_list (owned_folder (d_parent_id f.2) user_id d))
    (option_list (owned_folder folder_id user_id d)).

(** A read that may fail. *)
Definition read {A} (q : Database → option A) : M Database A :=
  exec (λ d, a ← q d; Some (a, d)).

(** ** Methods *)

Definition FindOwnedFolder (folder_id user_id : Z) : M Database (option folder) :=
  query (owned_folder folder_id user_id).

(** The row lock orders concurrent transactions; it changes no table. *)
Definition FindOwnedFolderForUpdate (folder_id user_id : Z) : M Database (option folder) :=
  query (owned_folder folder_id user_id).

(** [std::sort] and [std::unique]. *)
Definition sort_unique (ids : list Z) : list Z := order_by Z.leb (remove_dups ids).

Fixpoint FetchOwnedFolders_loop (chunks : list (list Z)) (user_id : Z)
  : M Database (list folder) :=
  match chunks with
  | [] => mret []
  | chunk :: chunks =>
      rows ← query (λ d, select_rows
               (λ id f, bool_decide (id ∈ chunk) && (d_user_id f =? user_id)%Z)
               (λ a b, (a.1 <=? b.1)%Z) (folders d));
      rest ← FetchOwnedFolders_loop chunks user_id;
      mret (rows ++ rest)%list
  end.

Definition FetchOwnedFoldersByIdsForUpdate (folder_ids : list Z) (user_id : Z)
  : M Database (list folder) :=
  FetchOwnedFolders_loop (Chunks (sort_unique folder_ids)) user_id.

Definition AcquireNameLock (user_id parent_id : Z) (name : string) : M Database unit :=
  query (λ _, tt).

Definition NameExistsExcluding (name : string) (parent_id user_id excluded_folder_id : Z)
  : M Database bool :=
  query (λ d, exists_row (λ i f, folder_named user_id parent_id name i f &&
                                 negb (i =? excluded_folder_id)%Z) (folders d)).

Definition InsertIfNameAvailable (f : FolderRow) : M Database (option folder) :=
  exec (insert_folder_statement f).

Definition ResolveOwnedFolderLocation (folder_id user_id : Z)
  : M Database (Result FolderLocation) :=
  if (folder_id =? 0)%Z then mret (Ok root_location)
  else catch_db
    (r ← query (owned_folder folder_id user_id);
     mret (match (r : option folder) with
           | None => Err (err FolderNotFound)
           | Some (_, f) => Ok (mkFolderLocation (d_path f) (d_depth f))
           end))
    (mret (Err (err FolderNotFound))).

Definition FetchFolderSubtree (root_folder_id user_id : Z) : M Database (list folder) :=
  read (folder_subtree root_folder_id user_id).

Definition FetchFolderTreeRows (user_id parent_id max_depth : Z)
  : M Database (list FolderNodeData) :=
  rows ← read (folder_tree user_id parent_id max_depth);
  mret ((λ fl : folder * Z, mkFolderNodeData fl.1.1 (d_name fl.1.2) (d_parent_id fl.1.2)) <$> rows).

Definition FetchBreadcrumbRows (folder_id user_id : Z) : M Database (list BreadcrumbItem) :=
  rows ← read (folder_ancestors folder_id user_id);
  mret ((λ f : folder, mkBreadcrumbItem f.1 (d_name f.2)) <$> rows).

Definition RenameFolderPath (folder_id user_id : Z) (new_name new_path : string)
    (updated_at : Z) : M Database bool :=
  exec (update_folder folder_id user_id
    (λ f, Some (f <| d_name := new_name |> <| d_path := new_path |>
                  <| d_updated_at := updated_at |>))).

Definition UpdateFolderPath (folder_id user_id : Z) (new_path : string) (updated_at : Z)
  : M Database bool :=
  exec (update_folder folder_id user_id
    (λ f, Some (f <| d_path := new_path |> <| d_updated_at := updated_at |>))).

Definition UpdateFolderLocationForMove (folder_id user_id parent_id : Z) (new_path : string)
    (depth_delta updated_at : Z) : M Database bool :=
  exec (update_folder folder_id user_id
    (λ f, n ← int4 (d_depth f + depth_delta);
          Some (f <| d_parent_id := parent_id |> <| d_path := new_path |> <| d_depth := n |>
                  <| d_updated_at := updated_at |>))).

Definition UpdateFolderPathForMove (folder_id user_id : Z) (new_path : string)
    (depth_delta updated_at : Z) : M Database bool :=
  exec (update_folder folder_id user_id
    (λ f, n ← int4 (d_depth f + depth_delta);
          Some (f <| d_path := new_path |> <| d_depth := n |>
                  <| d_updated_at := updated_at |>))).

(** [item_count = GREATEST(item_count + delta, 0)]. *)
Definition ApplyItemCountDelta (folder_id user_id delta updated_at : Z) : M Database bool :=
  exec (update_folder folder_id user_id
    (λ f, n ← int4 (d_item_count f + delta);
          Some (f <| d_item_count := Z.max n 0 |> <| d_updated_at := updated_at |>))).

(** ** Lemmas *)

Local Close Scope string_scope.

(** Along a parent link between folders of [user_id] the depth grows by one. *)
Definition folder_depths (user_id : Z) (d : Database) : Prop :=
  ∀ i j f g, folders d !! i = Some f → folders d !! j = Some g →
    d_user_id f = user_id → d_user_id g = user_id → d_parent_id f = j →
    d_depth f = d_depth g + 1.

Lemma owned_folder_Some i u d kf : owned_folder i u d = Some kf ↔
  kf.1 = i ∧ folders d !! i = Some kf.2 ∧ d_user_id kf.2 = u.
Proof.
  unfold owned_folder. destruct kf as [j f]. simpl. split.
  - intros (g & Hg & H)%bind_Some. case_match; [|done]. case_bools. by simplify_eq.
  - intros (-> & -> & Hu). simpl. by rewrite Hu, Z.eqb_refl.
Qed.

Lemma elem_of_children u d p kf : kf ∈ children u d p ↔
  folders d !! kf.1 = Some kf.2 ∧ d_parent_id kf.2 = p ∧ d_user_id kf.2 = u.
Proof.
  destruct kf as [i f]. unfold children.
  rewrite list_elem_of_In, List.filter_In, <- list_elem_of_In, elem_of_map_to_list. simpl.
  rewrite andb_true_iff, !Z.eqb_eq. done.
Qed.

Lemma children_NoDup u d p : NoDup (children u d p).
Proof. apply NoDup_ListNoDup, List.NoDup_filter, NoDup_ListNoDup, NoDup_map_to_list. Qed.

(** The folders of one user, the rows the recursive queries range over. *)
Definition user_folders (u : Z) (d : Database) : list folder :=
  List.filter (λ kv, d_user_id kv.2 =? u) (map_to_list (folders d)).

Lemma elem_of_user_folders u d kf : kf ∈ user_folders u d ↔
  folders d !! kf.1 = Some kf.2 ∧ d_user_id kf.2 = u.
Proof.
  destruct kf as [i f]. unfold user_folders.
  rewrite list_elem_of_In, List.filter_In, <- list_elem_of_In, elem_of_map_to_list. simpl.
  by rewrite Z.eqb_eq.
Qed.

Lemma user_folders_length u d : (length (user_folders u d) <= size (folders d))%nat.
Proof. rewrite <- length_map_to_list. apply List.filter_length_le. Qed.

Lemma owned_option_list i u d kf : kf ∈ option_list (owned_folder i u d) ↔
  kf.1 = i ∧ folders d !! i = Some kf.2 ∧ d_user_id kf.2 = u.
Proof.
  rewrite <- owned_folder_Some. destruct (owned_folder i u d); simpl.
  - rewrite list_elem_of_singleton. naive_solver.
  - by rewrite elem_of_nil.
Qed.

(** [descends d u i j]: folder [j] is [i] or lies somewhere inside it. *)
Definition descends (d : Database) (u : Z) : Z → Z → Prop :=
  rtc (λ i j, ∃ f, folders d !! j = Some f ∧ d_user_id f = u ∧ d_parent_id f = i).

Lemma children_descends d u kf kg : rtc (λ a b, b ∈ children u d a.1) kf kg →
  descends d u kf.1 kg.1.
Proof.
  induction 1 as [kf|kf kh kg H _ IH]; [done|].
  eapply rtc_l; [|exact IH]. apply elem_of_children in H as (? & ? & ?). eauto.
Qed.

Lemma descends_children d u i j g kf : descends d u i j → kf.1 = i → folders d !! j = Some g →
  folders d !! i = Some kf.2 → rtc (λ a b, b ∈ children u d a.1) kf (j, g).
Proof.
  intros H. revert kf. induction H as [i|i k j (h & Hk & Hu & Hp) _ IH]; intros kf Hi Hg Hf.
  - destruct kf; simplify_eq/=. constructor.
  - eapply rtc_l; [|apply (IH (k, h)); done].
    apply elem_of_children. simpl. split_and!; congruence.
Qed.

Section subtree.
Context (u : Z) (d : Database) (Hd : folder_depths u d).

Lemma children_user_folder (kf kg : folder) : kf ∈ user_folders u d →
  kg ∈ children u d kf.1 → kg ∈ user_folders u d.
Proof. intros _. rewrite elem_of_children, elem_of_user_folders. naive_solver. Qed.

Lemma children_depth (kf kg : folder) : kf ∈ user_folders u d → kg ∈ children u d kf.1 →
  d_depth kg.2 = d_depth kf.2 + 1.
Proof. rewrite elem_of_children, elem_of_user_folders. intros [? ?] (? & ? & ?). eauto. Qed.

Lemma owned_user_folder i kf : kf ∈ option_list (owned_folder i u d) → kf ∈ user_folders u d.
Proof. rewrite owned_option_list, elem_of_user_folders. naive_solver. Qed.

Lemma user_folders_fuel (kf : folder) : kf ∈ user_folders u d → ∃ l : list folder, NoDup l ∧
  (∀ x, x ∈ l → x ∈ user_folders u d ∧ d_depth x.2 < d_depth kf.2) ∧
  (length (user_folders u d) <= length l + size (folders d))%nat.
Proof.
  intros _. exists []. split_and!; [constructor|by intros x ?%elem_of_nil|].
  pose proof (user_folders_length u d). simpl. lia.
Qed.

Lemma subtree_total root : is_Some (folder_subtree root u d).
Proof.
  unfold folder_subtree. rewrite fmap_is_Some.
  apply (with_recursive_total _ (user_folders u d) (λ kf, d_depth kf.2)).
  - apply children_user_folder.
  - apply children_depth.
  - intros kf Hkf%owned_user_folder. split; [done|]. by apply user_folders_fuel.
Qed.

Lemma children_inj (kf kg kh : folder) : kf ∈ user_folders u d → kg ∈ user_folders u d →
  kh ∈ children u d kf.1 → kh ∈ children u d kg.1 → kf = kg.
Proof.
  rewrite !elem_of_user_folders, !elem_of_children. destruct kf, kg. simpl.
  intros [? ?] [? ?] (? & ? & ?) (? & ? & ?). by simplify_eq.
Qed.

Lemma subtree_NoDup root rows : folder_subtree root u d = Some rows → NoDup rows.
Proof.
  unfold folder_subtree. rewrite fmap_Some. intros (l & Hl & ->). rewrite order_by_perm.
  destruct (owned_folder root u d) as [kf|] eqn:E; simpl in Hl.
  - eapply (with_recursive_NoDup _ (user_folders u d) (λ kf, d_depth kf.2) children_user_folder
      children_depth _ _ _ (d_depth kf.2)); [|apply children_inj|..|exact Hl].
    + intros. apply children_NoDup.
    + apply NoDup_singleton.
    + intros kg ->%list_elem_of_singleton. split; [|done].
      apply (owned_user_folder root). rewrite E. by left.
  - by destruct (size (folders d)); simplify_eq/=; constructor.
Qed.

(** Climbing from a folder to its parent. *)
Definition parent (kf : folder) : option folder := owned_folder (d_parent_id kf.2) u d.

Lemma parent_depth (kf kg : folder) : kf ∈ user_folders u d → kg ∈ option_list (parent kf) →
  - d_depth kg.2 = - d_depth kf.2 + 1.
Proof.
  unfold parent. rewrite owned_option_list, elem_of_user_folders. intros [? ?] (Hi & ? & ?).
  rewrite (Hd kf.1 kg.1 kf.2 kg.2); try done; [lia|by rewrite Hi].
Qed.

Lemma ancestors_total i : is_Some (folder_ancestors i u d).
Proof.
  apply (with_recursive_total _ (user_folders u d) (λ kf, - d_depth kf.2)).
  - intros kf kg _. apply owned_user_folder.
  - apply parent_depth.
  - intros kf Hkf%owned_user_folder. split; [done|]. exists [].
    split_and!; [constructor|by intros x ?%elem_of_nil|].
    pose proof (user_folders_length u d). simpl. lia.
Qed.

Lemma climb_spec fuel start path :
  with_recursive fuel (λ kf, option_list (parent kf)) (option_list start) = Some path →
  head path = start ∧
  ∀ k kf, path !! k = Some kf → path !! S k = parent kf.
Proof.
  revert start path. induction fuel as [|fuel IH]; intros [kf|] path; simpl; try done.
  1,3: intros [= <-]; split; [done|]; intros k kf'; by rewrite lookup_nil.
  intros (rest & H & [= <-])%bind_Some. rewrite app_nil_r in H.
  apply IH in H as [Hh Hk]. split; [done|].
  intros [|k] kg; simpl; [|apply Hk]. intros [= <-]. rewrite <- Hh. by destruct rest.
Qed.
End subtree.

Lemma read_works {A} (q : Database → option A) d a cs : q d = Some a →
  read q (mkEnv d [] AutoCommit cs) = (Ret a, mkEnv d [] AutoCommit cs).
Proof. intros H. apply exec_works. by rewrite H. Qed.

Lemma by_depth_id_lex (a b : folder) : by_depth_id a b = true ↔
  d_depth a.2 < d_depth b.2 ∨ (d_depth a.2 = d_depth b.2 ∧ a.1 <= b.1).
Proof.
  unfold by_depth_id, lex_leb.
  by rewrite orb_true_iff, andb_true_iff, Z.ltb_lt, Z.eqb_eq, Z.leb_le.
Qed.

(** ** Properties *)

(** Deleting or moving a folder works on its whole subtree.  When depths grow
    along parent links, the recursive query ends and returns every folder of the
    user at or below the root, and nothing else, each once, ordered by depth and
    identifier, so that a folder comes after the folder that contains it. *)
Lemma subtree_is_complete u d root f cs : folder_depths u d →
  owned_folder root u d = Some (root, f) →
  ∃ rows, FetchFolderSubtree root u (mkEnv d [] AutoCommit cs) =
      (Ret rows, mkEnv d [] AutoCommit cs) ∧
    NoDup rows ∧
    Sorted (λ a b, d_depth a.2 < d_depth b.2 ∨ (d_depth a.2 = d_depth b.2 ∧ a.1 <= b.1)) rows ∧
    ∀ i g, (i, g) ∈ rows ↔ folders d !! i = Some g ∧ descends d u root i.
Proof.
  intros Hd Hroot. destruct (subtree_total u d Hd root) as [rows Hrows].
  exists rows. split; [by apply read_works|]. split; [by eapply subtree_NoDup|].
  unfold folder_subtree in Hrows. apply fmap_Some in Hrows as (l & Hl & ->). split.
  - apply (order_by_sorted by_depth_id).
    + apply by_depth_id_lex.
    + intros a b. rewrite <- not_true_iff_false, by_depth_id_lex. lia.
  - intros i g. rewrite elem_of_order_by, (elem_of_with_recursive _ _ _ _ _ Hl), Hroot.
    apply owned_folder_Some in Hroot as (_ & Hf & Hu). split.
    + intros (kf & ->%list_elem_of_singleton & H). split; [|by eapply children_descends in H].
      inversion H as [|? kg ? Hs H']; subst; [done|].
      apply rtc_inv_r in H as [[= <- <-]|(kh & _ & Hin)]; [done|].
      by apply elem_of_children in Hin as (? & _).
    + intros [Hg H]. exists (root, f). split; [by apply list_elem_of_singleton|].
      by eapply descends_children.
Qed.

(** The breadcrumb of a folder starts at the folder, goes from each folder to its
    parent, and stops at a folder whose parent is not a folder of the user (the root
    of the drive); when depths grow along parent links the query always ends. *)
Lemma breadcrumb_climbs_to_root u d i cs : folder_depths u d →
  ∃ path : list folder, FetchBreadcrumbRows i u (mkEnv d [] AutoCommit cs) =
      (Ret ((λ kf, mkBreadcrumbItem kf.1 (d_name kf.2)) <$> path), mkEnv d [] AutoCommit cs) ∧
    head path = owned_folder i u d ∧
    ∀ k kf, path !! k = Some kf → path !! S k = owned_folder (d_parent_id kf.2) u d.
Proof.
  intros Hd. destruct (ancestors_total u d Hd i) as [path Hpath]. exists path. split.
  - unfold FetchBreadcrumbRows. by erewrite bind_Ret by by apply read_works.
  - by apply climb_spec in Hpath.
Qed.

(** ** Witnesses *)

Definition example_folder (parent depth : Z) (name : string) : FolderRow :=
  mkFolderRow 7 parent name "/" depth 0 0 0.

(** A folder, a folder inside it, and a third one at the root. *)
Definition example_tree : Database :=
  (empty_db 100) <| folders := {[ 1 := example_folder 0 0 "a"; 2 := example_folder 1 1 "b";
                                  3 := example_folder 0 0 "c" ]} |>.

Lemma example_tree_depths : folder_depths 7 example_tree.
Proof.
  intros i j f g Hf Hg _ _ <-. simpl in *.
  rewrite !lookup_insert_Some, lookup_singleton_Some in Hf, Hg.
  naive_solver.
Qed.

Lemma subtree_is_complete_witness :
  ∃ rows, FetchFolderSubtree 1 7 (mkEnv example_tree [] AutoCommit []) =
    (Ret rows, mkEnv example_tree [] AutoCommit []) ∧ (2, example_folder 1 1 "b") ∈ rows.
Proof.
  destruct (subtree_is_complete 7 example_tree 1 (example_folder 0 0 "a") []
    example_tree_depths) as (rows & Hr & _ & _ & H); [reflexivity|].
  exists rows. split; [exact Hr|]. apply H. split; [reflexivity|].
  eapply rtc_l; [|apply rtc_refl]. by exists (example_folder 1 1 "b").
Defined.

Lemma breadcrumb_climbs_to_root_witness :
  ∃ path : list folder, head path = Some (2, example_folder 1 1 "b") ∧
    path !! 1%nat = Some (1, example_folder 0 0 "a").
Proof.
  destruct (breadcrumb_climbs_to_root 7 example_tree 2 [] example_tree_depths)
    as (path & _ & Hh & Hk).
  exists path. split; [exact Hh|]. destruct path as [|kf path]; [done|].
  apply (Hk 0%nat (2, example_folder 1 1 "b")). exact Hh.
Defined.
