(* ===== verification/Files.v ===== *)
(** * Files

    [src/src/services/FileRepository.cpp] and the statements on files, folders and the
    trash of [src/src/services/FileServiceUtils.cpp]: the rows of [files], found,
    inserted, renamed, moved and deleted. *)

From S2P Require Import Prelude Errors Db Schema Json Batch Folders.

Local Open Scope string_scope.

(** A row of [files] with its primary key. *)
Notation file_row := (Z * FileRow)%type.

(** ** Statements *)

(** The unique constraint [uk_files_user_folder_name]. *)
Definition file_named (user_id folder_id : Z) (name : string) (_ : Z) (f : FileRow) : bool :=
  (f_user_id f =? user_id)%Z && (f_folder_id f =? folder_id)%Z && (f_name f =? name).

Definition put_file (id : Z) (f : FileRow) (d : Database) : Database :=
  d <| files := <[id := f]> (files d) |>.

(** The lengths of the text columns of [files]. *)
Definition check_file (f : FileRow) : bool :=
  varchar 255 (f_name f) && varchar 32 (f_extension f) && varchar 128 (f_mime_type f) &&
  varchar 4096 (f_path f).

(** [INSERT INTO files ... ON CONFLICT (user_id, folder_id, name) DO NOTHING
    RETURNING *], with the foreign keys on the user and the content. *)
Definition insert_file_statement (f : FileRow) (d : Database)
  : option (option file_row * Database) :=
  id ← bigint (files_id_seq d);
  let next := d <| files_id_seq := (id + 1)%Z |> in
  if negb (check_file f) then None
  else if exists_row (file_named (f_user_id f) (f_folder_id f) (f_name f)) (files d)
  then Some (None, next)
  else if bool_decide (is_Some (users d !! f_user_id f)) &&
          bool_decide (is_Some (file_contents d !! f_content_id f))
  then Some (Some (id, f), put_file id f next)
  else None.

(** [Mapper::insert]: a conflict is an error. *)
Definition insert_file (f : FileRow) (d : Database) : option (file_row * Database) :=
  '(r, d') ← insert_file_statement f d;
  match (r : option file_row) with Some row => Some (row, d') | None => None end.

Definition owned_file (file_id user_id : Z) (d : Database) : option file_row :=
  f ← files d !! file_id;
  if (f_user_id f =? user_id)%Z then Some (file_id, f) else None.

(** The trigger [update_modified_column] runs before every update of a row. *)
Definition modified_file (d : Database) (f : FileRow) : FileRow := f <| f_updated_at := now d |>.

(** [UPDATE files SET ... WHERE id = id AND user_id = user]: whether a row changed. *)
Definition update_file (id user_id : Z) (set : FileRow → FileRow) (d : Database)
  : option (bool * Database) :=
  match owned_file id user_id d with
  | None => Some (false, d)
  | Some (_, f) =>
      let f' := modified_file d (set f) in
      if check_file f' &&
         negb (exists_row (λ i g, negb (i =? id)%Z &&
                 file_named (f_user_id f') (f_folder_id f') (f_name f') i g) (files d))
      then Some (true, put_file id f' d) else None
  end.

(** [DELETE FROM t WHERE id IN (ids)]: the number of rows deleted and the rest. *)
Fixpoint delete_rows {V} (ids : list Z) (t : gmap Z V) : Z * gmap Z V :=
  match ids with
  | [] => (0%Z, t)
  | id :: ids =>
      let '(n, t') := delete_rows ids (delete id t) in
      (((match t !! id with Some _ => 1 | None => 0 end) + n)%Z, t')
  end.

(** ** [FileRepository] *)

Definition FindOwnedFileForUpdate (file_id user_id : Z) : M Database (option file_row) :=
  query (owned_file file_id user_id).

(** The advisory lock orders concurrent transactions; it changes no table. *)
Definition AcquireNameLock (user_id folder_id : Z) (name : string) : M Database unit :=
  query (λ _, tt).

Definition NameExistsExcluding (name : string) (folder_id user_id excluded_file_id : Z)
  : M Database bool :=
  query (λ d, exists_row (λ i f, file_named user_id folder_id name i f &&
                                 negb (i =? excluded_file_id)%Z) (files d)).

Fixpoint FetchOwnedFiles_loop (chunks : list (list Z)) (user_id : Z)
  : M Database (list file_row) :=
  match chunks with
  | [] => mret []
  | chunk :: chunks =>
      rows ← query (λ d, select_rows
               (λ id f, bool_decide (id ∈ chunk) && (f_user_id f =? user_id)%Z)
               (λ a b, (a.1 <=? b.1)%Z) (files d));
      rest ← FetchOwnedFiles_loop chunks user_id;
      mret (rows ++ rest)%list
  end.

Definition FetchOwnedFilesByIdsForUpdate (file_ids : list Z) (user_id : Z)
  : M Database (list file_row) :=
  FetchOwnedFiles_loop (Chunks (sort_unique file_ids)) user_id.

Definition files_in_folders (folder_ids : list Z) (user_id : Z) (d : Database)
  : list file_row :=
  select_rows (λ _ f, (f_user_id f =? user_id)%Z && bool_decide (f_folder_id f ∈ folder_ids))
    (λ a b, lex_leb (f_folder_id a.2) (f_folder_id b.2) (a.1 <=? b.1)%Z) (files d).

Definition FetchFilesInFolders (folder_ids : list Z) (user_id : Z)
  : M Database (list file_row) :=
  if decide (folder_ids = []) then mret [] else query (files_in_folders folder_ids user_id).

Definition RenameOwnedFile (file_id user_id : Z) (new_name extension new_path : string)
    (updated_at : Z) : M Database bool :=
  exec (update_file file_id user_id
    (λ f, f <| f_name := new_name |> <| f_extension := extension |> <| f_path := new_path |>
            <| f_updated_at := updated_at |>)).

Definition UpdateFileLocation (file_id user_id folder_id : Z) (new_path : string)
    (updated_at : Z) : M Database bool :=
  exec (update_file file_id user_id
    (λ f, f <| f_folder_id := folder_id |> <| f_path := new_path |>
            <| f_updated_at := updated_at |>)).

Definition UpdateFilePath (file_id user_id : Z) (new_path : string) (updated_at : Z)
  : M Database bool :=
  exec (update_file file_id user_id
    (λ f, f <| f_path := new_path |> <| f_updated_at := updated_at |>)).

(** ** [FileServiceUtils] *)

(** The names among [candidate_names] that a file of the folder bears. *)
Definition occupied_names (user_id folder_id : Z) (candidate_names : list string)
    (d : Database) : gset string :=
  list_to_set (List.filter
    (λ name, exists_row (file_named user_id folder_id name) (files d)) candidate_names).

Definition occupied_folder_names (user_id parent_id : Z) (candidate_names : list string)
    (d : Database) : gset string :=
  list_to_set (List.filter
    (λ name, exists_row (folder_named user_id parent_id name) (folders d)) candidate_names).

Definition QueryOccupiedNames (folder_id user_id : Z) (candidate_names : list string)
  : M Database (gset string) :=
  if decide (candidate_names = []) then mret ∅
  else query (occupied_names user_id folder_id candidate_names).

Definition QueryOccupiedFolderNames (parent_id user_id : Z) (candidate_names : list string)
  : M Database (gset string) :=
  if decide (candidate_names = []) then mret ∅
  else query (occupied_folder_names user_id parent_id candidate_names).

Record TrashInsertItem := mkTrashInsertItem {
  ti_item_type : string;
  ti_item_id : Z;
  ti_item_name : string;
  ti_item_size : Z;
  ti_original_folder_id : Z;
  ti_original_path : string;
  ti_content_id : option Z;
  ti_item_data : json
}.

(** Thirty days. *)
Definition trash_retention : Z := seconds (30 * 24 * 60 * 60).

Definition trash_row (user_id : Z) (item : TrashInsertItem) (d : Database) : TrashRow :=
  mkTrashRow user_id (ti_item_type item) (ti_item_id item) (ti_item_name item)
    (ti_item_size item) (ti_content_id item) (ti_original_folder_id item)
    (ti_original_path item) (ti_item_data item) (now d) (now d + trash_retention)%Z.

(** The constraints of [trash]: the kind, the lengths, the range of the size and the
    foreign keys on the user and the content. *)
Definition check_trash (x : TrashRow) (d : Database) : bool :=
  ((x_item_type x =? "file") || (x_item_type x =? "folder")) &&
  varchar 255 (x_item_name x) && varchar 4096 (x_original_path x) &&
  bool_decide (bigint (x_item_size x) = Some (x_item_size x)) &&
  bool_decide (is_Some (users d !! x_user_id x)) &&
  match x_content_id x with
  | Some c => bool_decide (is_Some (file_contents d !! c))
  | None => true
  end.

Definition put_trash (id : Z) (x : TrashRow) (d : Database) : Database :=
  d <| trash := <[id := x]> (trash d) |>.

(** [INSERT INTO trash (...) VALUES (...), (...)]: all the rows or none. *)
Fixpoint insert_trash (user_id : Z) (items : list TrashInsertItem) (d : Database)
  : option (unit * Database) :=
  match items with
  | [] => Some (tt, d)
  | item :: items =>
      id ← bigint (trash_id_seq d);
      let x := trash_row user_id item d in
      if check_trash x d
      then insert_trash user_id items (put_trash id x (d <| trash_id_seq := (id + 1)%Z |>))
      else None
  end.

Definition InsertTrashRecords (trash_items : list TrashInsertItem) (user_id : Z)
  : M Database bool :=
  match trash_items with
  | [] => mret true
  | _ => catch_db (_ ← exec (insert_trash user_id trash_items); mret true) (mret false)
  end.

(** [ON DELETE SET NULL] of [upload_tasks.completed_file_id]. *)
Definition forget_completed (file_ids : list Z) (t : UploadTaskRow) : UploadTaskRow :=
  match t_completed_file_id t with
  | Some i => if bool_decide (i ∈ file_ids) then t <| t_completed_file_id := None |> else t
  | None => t
  end.

Definition DeleteFilesByIds (file_ids : list Z) : M Database Z :=
  match file_ids with
  | [] => mret 0%Z
  | _ => catch_db
           (exec (λ d, let '(n, t) := delete_rows file_ids (files d) in
                       Some (n, d <| files := t |>
                                  <| upload_tasks ::= fmap (forget_completed file_ids) |>)))
           (mret 0%Z)
  end.

Definition DeleteFoldersByIds (folder_ids : list Z) : M Database Z :=
  match folder_ids with
  | [] => mret 0%Z
  | _ => catch_db
           (exec (λ d, let '(n, t) := delete_rows folder_ids (folders d) in
                       Some (n, d <| folders := t |>)))
           (mret 0%Z)
  end.

(** ** Lemmas *)

Local Close Scope string_scope.

Lemma sort_unique_elem ids i : i ∈ sort_unique ids ↔ i ∈ ids.
Proof. unfold sort_unique. by rewrite elem_of_order_by, elem_of_remove_dups. Qed.

Lemma sort_unique_NoDup ids : NoDup (sort_unique ids).
Proof. unfold sort_unique. rewrite order_by_perm. apply NoDup_remove_dups. Qed.

Lemma elem_of_Chunks {A} (l : list A) x : x ∈ concat (Chunks l) ↔ x ∈ l.
Proof. by rewrite Chunks_concat. Qed.

Lemma owned_file_Some i u d kf : owned_file i u d = Some kf ↔
  kf.1 = i ∧ files d !! i = Some kf.2 ∧ f_user_id kf.2 = u.
Proof.
  unfold owned_file. destruct kf as [j f]. simpl. split.
  - intros (g & Hg & H)%bind_Some. case_match; [|done]. case_bools. by simplify_eq.
  - intros (-> & -> & Hu). simpl. by rewrite Hu, Z.eqb_refl.
Qed.

#[export] Instance tx_body_fetch_owned_files chunks u : TxBody (FetchOwnedFiles_loop chunks u).
Proof. induction chunks; simpl; solve_tx_body. Qed.

#[export] Instance tx_body_fetch_files_by_ids ids u : TxBody (FetchOwnedFilesByIdsForUpdate ids u).
Proof. apply tx_body_fetch_owned_files. Qed.

Lemma runs_fetch_owned_loop chunks u snap s l s' : NoDup (concat chunks) →
  runs (FetchOwnedFiles_loop chunks u) snap s l s' →
  s' = s ∧ NoDup l.*1 ∧
  ∀ f : file_row, f ∈ l ↔ f.1 ∈ concat chunks ∧ files s !! f.1 = Some f.2 ∧ f_user_id f.2 = u.
Proof.
  revert l s'. induction chunks as [|chunk chunks IH]; intros l s'; simpl; intros Hnd.
  - intros [-> ->]%runs_ret. split_and!; [done|constructor|]. set_solver.
  - intros H. run_bind H rows t H1. apply runs_query in H1 as [-> ->].
    run_bind H rest t H1. apply runs_ret in H as [-> ->].
    apply NoDup_app in Hnd as (Hnd1 & Hdis & Hnd2).
    destruct (IH _ _ Hnd2 H1) as (-> & Hnd & Hrest). split; [done|].
    set (P := λ id f, bool_decide (id ∈ chunk) && (f_user_id f =? u)).
    assert (∀ f : file_row, f ∈ select_rows P (λ a b, a.1 <=? b.1) (files s) ↔
      f.1 ∈ chunk ∧ files s !! f.1 = Some f.2 ∧ f_user_id f.2 = u) as Hsel.
    { intros [i f]. rewrite elem_of_select_rows. unfold P. simpl.
      rewrite andb_true_iff, bool_decide_eq_true, Z.eqb_eq. tauto. }
    split.
    + rewrite fmap_app. apply NoDup_app. split_and!; [| |done].
      * unfold select_rows. rewrite order_by_perm.
        apply NoDup_fmap_fst; [|apply NoDup_ListNoDup, List.NoDup_filter, NoDup_ListNoDup,
          NoDup_map_to_list].
        intros i f g Hf Hg. rewrite list_elem_of_In, List.filter_In, <- list_elem_of_In in Hf, Hg.
        destruct Hf as [Hf%elem_of_map_to_list _], Hg as [Hg%elem_of_map_to_list _]. congruence.
      * intros i Hi Hi'. apply list_elem_of_fmap in Hi as (f & -> & [Hf _]%Hsel).
        apply list_elem_of_fmap in Hi' as (g & E & [Hg _]%Hrest). rewrite E in Hf. by eapply Hdis.
    + intros f. rewrite elem_of_app, Hsel, Hrest, elem_of_app. tauto.
Qed.

Lemma runs_fetch_owned_files ids u snap s l s' :
  runs (FetchOwnedFilesByIdsForUpdate ids u) snap s l s' →
  s' = s ∧ NoDup l.*1 ∧
  ∀ f : file_row, f ∈ l ↔ f.1 ∈ ids ∧ files s !! f.1 = Some f.2 ∧ f_user_id f.2 = u.
Proof.
  intros H. apply runs_fetch_owned_loop in H as (-> & ? & Hl).
  - split_and!; [done..|]. intros f. by rewrite Hl, elem_of_Chunks, sort_unique_elem.
  - rewrite Chunks_concat. apply sort_unique_NoDup.
Qed.
