(* ===== verification/DeletePlans.v ===== *)
(** * Deleting folder trees

    The plan of a deletion ([FolderRepository::FetchBatchFolderDeletePlans] and
    [src/src/services/FileServiceUtils.cpp]), the snapshot of a folder tree it leaves in
    the trash ([BuildFolderSnapshot]), and reading the snapshot back
    ([src/src/services/TrashService.cpp], [TrashContentIdResolver.hpp]). *)

From S2P Require Import Prelude Errors Db Schema Json Batch Files Folders.

Local Open Scope string_scope.

(** ** Data *)

Record FolderDeletePlan := mkFolderDeletePlan {
  pl_root : folder;
  pl_folders : list folder;
  pl_files : list file_row;
  pl_item_size : Z
}.

Record SnapshotFolder := mkSnapshotFolder {
  sd_id : Z;
  sd_parent_id : Z;
  sd_name : string;
  sd_item_count : Z;
  sd_depth : Z
}.

Record SnapshotFile := mkSnapshotFile {
  sn_id : Z;
  sn_folder_id : Z;
  sn_content_id : Z;
  sn_name : string;
  sn_extension : string;
  sn_size : Z;
  sn_mime_type : string;
  sn_is_favorite : bool;
  sn_download_count : Z
}.

Record FolderTreeSnapshot := mkFolderTreeSnapshot {
  ft_root : SnapshotFolder;
  ft_folders : list SnapshotFolder;
  ft_files : list SnapshotFile
}.

Inductive ContentIdSource := Column | ItemData.

Record ResolvedContentId := mkResolvedContentId {
  rc_value : Z;
  rc_source : ContentIdSource
}.

(** ** Plans *)

(** The rows of the recursive query: every folder of the subtrees, with its root. *)
Definition batch_subtree (folder_ids : list Z) (user_id : Z) (d : Database)
  : option (list (Z * folder)) :=
  order_by (λ a b, lex_leb a.1 b.1 (by_depth_id a.2 b.2)) <$>
    with_recursive (size (folders d))
      (λ rf, pair rf.1 <$> children user_id d rf.2.1)
      ((λ f : folder, (f.1, f)) <$>
         (folder_ids ≫= λ id, option_list (owned_folder id user_id d))).

(** A row joins the plan of its root; the first row of a plan is its root. *)
Definition add_folder (plans : gmap Z FolderDeletePlan) (row : Z * folder)
  : gmap Z FolderDeletePlan :=
  match plans !! row.1 with
  | None => <[row.1 := mkFolderDeletePlan row.2 [row.2] [] 0]> plans
  | Some p => <[row.1 := p <| pl_folders := (pl_folders p ++ [row.2])%list |>]> plans
  end.

Definition folder_ids_of (p : FolderDeletePlan) : list Z := (pl_folders p).*1.

Section plans.
(** The order in which an [unordered_map] with these keys is iterated. *)
Context (iteration : list Z → list Z).

(** The first plan, in iteration order, that holds a folder. *)
Definition matched_root (plans : gmap Z FolderDeletePlan) (folder_id : Z) : Z :=
  default 0%Z (List.find
    (λ root, match plans !! root with
             | Some p => bool_decide (folder_id ∈ folder_ids_of p)
             | None => false
             end) (iteration (map_to_list plans).*1)).

Definition add_file (plans : gmap Z FolderDeletePlan) (file : file_row)
  : gmap Z FolderDeletePlan :=
  let root := matched_root plans (f_folder_id file.2) in
  if (root =? 0)%Z then plans
  else match plans !! root with
       | None => plans
       | Some p => <[root := p <| pl_item_size := u64 (pl_item_size p + u64 (f_size file.2)) |>
                              <| pl_files := (pl_files p ++ [file])%list |>]> plans
       end.

Definition FetchBatchFolderDeletePlans (folder_ids : list Z) (user_id : Z)
  : M Database (gmap Z FolderDeletePlan) :=
  if decide (folder_ids = []) then mret ∅
  else
    folder_result ← read (batch_subtree folder_ids user_id);
    let plans := foldl add_folder ∅ (folder_result : list (Z * folder)) in
    let all_folder_ids := sort_unique (folder_result : list (Z * folder)).*2.*1 in
    if decide (all_folder_ids = []) then mret plans
    else
      files ← FetchFilesInFolders all_folder_ids user_id;
      mret (foldl add_file plans files).
End plans.

(** Whether the subtree of [candidate] holds [folder_id]. *)
Definition covers (folder_id candidate : Z) (p : FolderDeletePlan) : bool :=
  negb (candidate =? folder_id)%Z && bool_decide (folder_id ∈ folder_ids_of p).

Definition FilterCoveredFolderIds (requested_folder_ids : list Z)
    (plans : gmap Z FolderDeletePlan) : list Z :=
  List.filter (λ folder_id, bool_decide (is_Some (plans !! folder_id)) &&
    negb (exists_row (covers folder_id) plans)) requested_folder_ids.

(** The plans of the folders listed, in order. *)
Definition plans_of (folder_ids : list Z) (plans : gmap Z FolderDeletePlan)
  : list FolderDeletePlan := omap (λ id, plans !! id) folder_ids.

Definition CollectCoveredFileIds (top_level_folder_ids : list Z)
    (plans : gmap Z FolderDeletePlan) : gset Z :=
  list_to_set (plans_of top_level_folder_ids plans ≫= λ p, (pl_files p).*1).

(** ** Snapshots *)

Section snapshots.
(** [toDbStringLocal] of a date, and the text jsoncpp gives a real number. *)
Context (toDbStringLocal : Z → string) (real_text : Z → Z → string).

Definition DateToJson (date : Z) : json := JString (toDbStringLocal date).

Definition folder_json (f : folder) : json :=
  JObject [("id", JInt (u64 f.1)); ("parent_id", JInt (u64 (d_parent_id f.2)));
    ("name", JString (d_name f.2)); ("path", JString (d_path f.2));
    ("depth", JInt (d_depth f.2)); ("item_count", JInt (d_item_count f.2));
    ("created_at", DateToJson (d_created_at f.2));
    ("updated_at", DateToJson (d_updated_at f.2))].

Definition file_json (f : file_row) : json :=
  JObject [("id", JInt (u64 f.1)); ("folder_id", JInt (u64 (f_folder_id f.2)));
    ("content_id", JInt (u64 (f_content_id f.2)));
    ("name", JString (f_name f.2)); ("extension", JString (f_extension f.2));
    ("size", JInt (u64 (f_size f.2))); ("mime_type", JString (f_mime_type f.2));
    ("path", JString (f_path f.2)); ("is_favorite", JInt (f_is_favorite f.2));
    ("download_count", JInt (f_download_count f.2));
    ("created_at", DateToJson (f_created_at f.2));
    ("updated_at", DateToJson (f_updated_at f.2))].

Definition BuildFolderSnapshot (plan : FolderDeletePlan) : json :=
  JObject [("type", JString "folder_tree"); ("version", JInt 1);
    ("root", folder_json (pl_root plan));
    ("folders", JArray (folder_json <$>
       List.filter (λ f, negb (f.1 =? (pl_root plan).1)%Z) (pl_folders plan)));
    ("files", JArray (file_json <$> pl_files plan))].

(** [None]: an exception of jsoncpp. *)
Definition parse_folder (value : json) : option SnapshotFolder :=
  id ← json_member value "id" (JInt 0) ≫= json_asUInt64;
  parent_id ← json_member value "parent_id" (JInt 0) ≫= json_asUInt64;
  name ← json_member value "name" (JString "") ≫= json_asString real_text;
  item_count ← json_member value "item_count" (JInt 0) ≫= json_asUInt;
  depth ← json_member value "depth" (JInt 0) ≫= json_asUInt;
  Some (mkSnapshotFolder id parent_id name item_count depth).

Definition parse_file (value : json) : option SnapshotFile :=
  id ← json_member value "id" (JInt 0) ≫= json_asUInt64;
  folder_id ← json_member value "folder_id" (JInt 0) ≫= json_asUInt64;
  content_id ← json_asUInt64 (json_get value "content_id");
  name ← json_member value "name" (JString "") ≫= json_asString real_text;
  extension ← json_member value "extension" (JString "") ≫= json_asString real_text;
  size ← json_member value "size" (JInt 0) ≫= json_asUInt64;
  mime_type ← json_member value "mime_type" (JString "application/octet-stream")
    ≫= json_asString real_text;
  is_favorite ← json_member value "is_favorite" (JInt 0) ≫= json_asBool;
  download_count ← json_member value "download_count" (JInt 0) ≫= json_asUInt;
  Some (mkSnapshotFile id folder_id content_id name extension size mime_type is_favorite
          download_count).

(** The loops over the two arrays keep the usable elements. *)
Fixpoint parse_folders (values : list json) : option (list SnapshotFolder) :=
  match values with
  | [] => Some []
  | value :: values =>
      folder ← parse_folder value;
      rest ← parse_folders values;
      Some (if (0 <? sd_id folder)%Z && negb (str_empty (sd_name folder))
            then folder :: rest else rest)
  end.

Fixpoint parse_files (values : list json) : option (list SnapshotFile) :=
  match values with
  | [] => Some []
  | value :: values =>
      member ← json_isMember value "content_id";
      if (member : bool) then
        file ← parse_file value;
        rest ← parse_files values;
        Some (if (0 <? sn_id file)%Z && (0 <? sn_folder_id file)%Z && (0 <? sn_content_id file)%Z &&
                 negb (str_empty (sn_name file))
              then file :: rest else rest)
      else parse_files values
  end.

(** [None] is an exception of jsoncpp, [Some None] a document that is no snapshot. *)
Definition ParseFolderTreeSnapshot (item_data : json) : option (option FolderTreeSnapshot) :=
  type ← json_member item_data "type" (JString "") ≫= json_asString real_text;
  if negb (type =? "folder_tree") then Some None
  else
    let root := json_get item_data "root" in
    if negb (isObject root) then Some None
    else
      member ← json_isMember root "id";
      if negb member then Some None
      else
        parsed_root ← parse_folder root;
        let folders := json_get item_data "folders" in
        parsed_folders ← if isArray folders then parse_folders (json_elements folders) else Some [];
        let files := json_get item_data "files" in
        parsed_files ← if isArray files then parse_files (json_elements files) else Some [];
        Some (if (sd_id parsed_root =? 0)%Z || str_empty (sd_name parsed_root) then None
              else Some (mkFolderTreeSnapshot parsed_root
                           (order_by (λ a b, (sd_id a <=? sd_id b)%Z) parsed_folders)
                           parsed_files)).

Definition ExtractSnapshotContentIds (item_data : json) : option (list Z) :=
  snapshot ← ParseFolderTreeSnapshot item_data;
  Some (match (snapshot : option FolderTreeSnapshot) with
        | None => []
        | Some snapshot => sn_content_id <$> ft_files snapshot
        end).
End snapshots.

Definition MissingContentId : ErrorInfo :=
  mkErrorInfo ValidationFailed "Trash item is missing valid content_id".

Definition ResolveRequiredContentId (column_content_id : option Z) (item_data : json)
  : Result ResolvedContentId :=
  let legacy :=
    if negb (isObject item_data) then Err MissingContentId
    else
      let legacy_content_id := json_get item_data "content_id" in
      if negb (isUInt64 legacy_content_id) then Err MissingContentId
      else
        let content_id := asUInt64 legacy_content_id in
        if (content_id =? 0)%Z then Err MissingContentId
        else Ok (mkResolvedContentId content_id ItemData) in
  match column_content_id with
  | Some c => if (0 <? c)%Z then Ok (mkResolvedContentId c Column) else legacy
  | None => legacy
  end.

(** ** Lemmas: plans *)

Local Close Scope string_scope.

#[export] Instance tx_body_read {A} (q : Database → option A) : TxBody (read q).
Proof. apply tx_body_exec. Qed.

Lemma runs_read {A} (q : Database → option A) snap s a s' :
  runs (read q) snap s a s' ↔ q s = Some a ∧ s' = s.
Proof.
  unfold read. rewrite runs_exec. split.
  - intros (b & Hb & [= -> ->])%bind_Some. done.
  - by intros [-> ->].
Qed.

#[export] Instance tx_body_fetch_files l u : TxBody (FetchFilesInFolders l u).
Proof. unfold FetchFilesInFolders. solve_tx_body. Qed.

#[export] Instance tx_body_fetch_plans it ids u : TxBody (FetchBatchFolderDeletePlans it ids u).
Proof. unfold FetchBatchFolderDeletePlans. case_match; solve_tx_body. Qed.

(** The chain of folders above a folder is unique. *)
Lemma descends_linear d u i j k :
  descends d u i k → descends d u j k → descends d u i j ∨ descends d u j i.
Proof.
  intros Hi. revert j. pattern k. revert k Hi. apply rtc_ind_r.
  { intros j Hj. by right. }
  intros a b Hia Hab IH j Hj.
  apply rtc_inv_r in Hj as [->|(c & Hjc & Hcb)].
  - left. by eapply rtc_r.
  - destruct Hab as (f & Hf & _ & Hp), Hcb as (f' & Hf' & _ & Hp'). simplify_eq.
    by apply IH.
Qed.

Section batch.
Context (ids : list Z) (u : Z) (d : Database).

(** The step of the recursive query on rows that carry their root. *)
Notation step := (λ rf : Z * folder, pair rf.1 <$> children u d rf.2.1).

Lemma batch_step_descends (a b : Z * folder) :
  rtc (λ a b, b ∈ step a) a b → a.1 = b.1 ∧ descends d u a.2.1 b.2.1 ∧
    (folders d !! a.2.1 = Some a.2.2 ∧ d_user_id a.2.2 = u →
     folders d !! b.2.1 = Some b.2.2 ∧ d_user_id b.2.2 = u).
Proof.
  induction 1 as [a|a c b Hc _ (E & Hd & Hb)].
  - split_and!; [done|constructor|done].
  - apply list_elem_of_fmap in Hc as (f & -> & Hf). simpl in *.
    apply elem_of_children in Hf as (? & ? & ?).
    split_and!; [done| |by intros _; apply Hb]. eapply rtc_l; [|exact Hd]. eauto.
Qed.

Lemma batch_descends_step (r : Z) (f g : folder) : descends d u f.1 g.1 →
  folders d !! f.1 = Some f.2 → folders d !! g.1 = Some g.2 →
  rtc (λ a b, b ∈ step a) (r, f) (r, g).
Proof.
  intros H Hf Hg. destruct g as [j g].
  assert (∀ a b : folder, rtc (λ a b, b ∈ children u d a.1) a b →
    rtc (λ a b, b ∈ step a) (r, a) (r, b)) as Hlift.
  { induction 1 as [a|a c b Hc _ IH]; [constructor|]. eapply rtc_l; [|exact IH].
    apply list_elem_of_fmap. simpl. eauto. }
  apply Hlift. by eapply descends_children.
Qed.

Lemma elem_of_batch_subtree rows r (f : folder) : batch_subtree ids u d = Some rows →
  (r, f) ∈ rows ↔ r ∈ ids ∧ (∃ g, folders d !! r = Some g ∧ d_user_id g = u) ∧
    folders d !! f.1 = Some f.2 ∧ descends d u r f.1.
Proof.
  unfold batch_subtree. intros (l & Hl & ->)%fmap_Some.
  rewrite elem_of_order_by, (elem_of_with_recursive _ _ _ _ _ Hl). split.
  - intros (a & Ha & Hrtc). apply list_elem_of_fmap in Ha as (g & -> & Hg).
    apply list_elem_of_bind in Hg as (i & Hg & Hi).
    apply owned_option_list in Hg as (Hgi & Hgd & Hgu). apply batch_step_descends in Hrtc
      as (E & Hd & Hb). simpl in *. subst.
    destruct Hb as [? ?]; [done|]. split_and!; eauto.
  - intros (Hr & (g & Hg & Hgu) & Hf & Hd). exists (r, (r, g)). split.
    + apply list_elem_of_fmap. exists (r, g). split; [done|]. apply list_elem_of_bind.
      exists r. split; [|done]. by apply owned_option_list.
    + apply batch_descends_step; [done|done|]. by destruct f.
Qed.
End batch.

(** The rows of a root. *)
Definition rows_of (r : Z) (rows : list (Z * folder)) : list folder :=
  (List.filter (λ rf, rf.1 =? r) rows).*2.

Lemma elem_of_rows_of r rows f : f ∈ rows_of r rows ↔ (r, f) ∈ rows.
Proof.
  unfold rows_of. rewrite list_elem_of_fmap. split.
  - intros ([r' f'] & -> & H). rewrite list_elem_of_In, List.filter_In, <- list_elem_of_In in H.
    destruct H as [? H]. simpl in H. case_bools. by subst.
  - intros H. exists (r, f). split; [done|].
    rewrite list_elem_of_In, List.filter_In, <- list_elem_of_In. simpl. by rewrite Z.eqb_refl.
Qed.

Lemma add_folder_lookup rows plans r :
  foldl add_folder plans rows !! r =
    match plans !! r, rows_of r rows with
    | Some p, l => Some (p <| pl_folders := pl_folders p ++ l |>)
    | None, [] => None
    | None, f :: l => Some (mkFolderDeletePlan f (f :: l) [] 0)
    end.
Proof.
  revert plans. induction rows as [|[r' f] rows IH]; intros plans; simpl.
  - destruct (plans !! r) as [[]|]; cbn; by rewrite ?app_nil_r.
  - rewrite IH. unfold add_folder, rows_of. simpl.
    destruct (Z.eqb_spec r' r) as [->|Hne]; simpl.
    + destruct (plans !! r) as [p|] eqn:E; rewrite lookup_insert_eq; [|done].
      cbn. by rewrite <- app_assoc.
    + by destruct (plans !! r') as [p|] eqn:E; rewrite lookup_insert_ne.
Qed.

(** Adding files leaves the folders of the plans alone. *)
Lemma add_file_folders it files plans r :
  (λ p, (pl_root p, pl_folders p)) <$> foldl (add_file it) plans files !! r =
  (λ p, (pl_root p, pl_folders p)) <$> plans !! r.
Proof.
  revert plans. induction files as [|f files IH]; intros plans; simpl; [done|].
  rewrite IH. unfold add_file. destruct (_ =? 0); [done|].
  destruct (plans !! matched_root it plans (f_folder_id f.2)) as [p|] eqn:E; [|done].
  destruct (decide (matched_root it plans (f_folder_id f.2) = r)) as [<-|Hne].
  - by rewrite lookup_insert_eq, E.
  - by rewrite lookup_insert_ne.
Qed.

(** Each plan holds the subtree of its root. *)
Definition plan_shape (ids : list Z) (u : Z) (d : Database) (plans : gmap Z FolderDeletePlan)
  : Prop :=
  ∀ r, match plans !! r with
       | Some p => r ∈ ids ∧ pl_root p ∈ pl_folders p ∧
           (∃ g, folders d !! r = Some g ∧ d_user_id g = u) ∧
           ∀ f : folder, f ∈ pl_folders p ↔ folders d !! f.1 = Some f.2 ∧ descends d u r f.1
       | None => r ∈ ids → ∀ g, folders d !! r = Some g → d_user_id g ≠ u
       end.

Lemma plan_shape_ids ids u d plans r p : plan_shape ids u d plans → plans !! r = Some p →
  ∀ i, i ∈ folder_ids_of p ↔ is_Some (folders d !! i) ∧ descends d u r i.
Proof.
  intros H Hp i. specialize (H r). rewrite Hp in H. destruct H as (_ & _ & _ & H).
  unfold folder_ids_of. rewrite list_elem_of_fmap. split.
  - intros (f & -> & Hf). apply H in Hf as [? ?]. eauto.
  - intros [[f Hf] Hd]. exists (i, f). split; [done|]. by apply H.
Qed.

Lemma plan_shape_ext ids u d plans plans' : plan_shape ids u d plans →
  (∀ r, (λ p, (pl_root p, pl_folders p)) <$> plans' !! r =
        (λ p, (pl_root p, pl_folders p)) <$> plans !! r) → plan_shape ids u d plans'.
Proof.
  intros H E r. specialize (H r). specialize (E r).
  destruct (plans !! r) as [p|], (plans' !! r) as [p'|]; try done.
  injection E as -> ->. done.
Qed.

Lemma rows_plan_shape ids u d rows : batch_subtree ids u d = Some rows →
  plan_shape ids u d (foldl add_folder ∅ rows).
Proof.
  intros Hrows r. rewrite add_folder_lookup, lookup_empty.
  pose proof (elem_of_batch_subtree ids u d rows r) as Hr.
  destruct (rows_of r rows) as [|f l] eqn:E.
  - intros Hin g Hg Hu. apply (not_elem_of_nil (r, g)). rewrite <- E. apply elem_of_rows_of.
    apply (Hr _ Hrows). simpl. split_and!; eauto. constructor.
  - assert (f ∈ rows_of r rows) as Hf by (rewrite E; by left).
    apply elem_of_rows_of, (Hr _ Hrows) in Hf as (Hin & Hg & _). cbn. rewrite <- E.
    split_and!; [done|rewrite E; by left|done|]. intros g. rewrite elem_of_rows_of.
    rewrite (Hr _ Hrows). naive_solver.
Qed.

Lemma runs_fetch_plans it ids u snap s plans s' :
  runs (FetchBatchFolderDeletePlans it ids u) snap s plans s' →
  s' = s ∧ plan_shape ids u s plans.
Proof.
  unfold FetchBatchFolderDeletePlans. destruct (decide (ids = [])) as [->|_].
  - intros [-> ->]%runs_ret. split; [done|]. intros r. rewrite lookup_empty.
    by intros ?%elem_of_nil.
  - intros H. run_bind H rows t H1. apply runs_read in H1 as [Hrows ->]. cbv zeta in H.
    pose proof (rows_plan_shape _ _ _ _ Hrows) as Hshape.
    destruct (decide _); [by apply runs_ret in H as [-> ->]|].
    run_bind H fs t H1. unfold FetchFilesInFolders in H1.
    assert (t = s) as ->.
    { destruct (decide _); [by apply runs_ret in H1 as [_ ->]|by apply runs_query in H1 as [_ ->]]. }
    apply runs_ret in H as [-> ->]. split; [done|].
    eapply plan_shape_ext; [exact Hshape|]. intros r. apply add_file_folders.
Qed.

Lemma elem_of_FilterCovered ids plans r : r ∈ FilterCoveredFolderIds ids plans ↔
  r ∈ ids ∧ is_Some (plans !! r) ∧
  ∀ r' p, plans !! r' = Some p → r' ≠ r → r ∉ folder_ids_of p.
Proof.
  unfold FilterCoveredFolderIds. rewrite list_elem_of_In, List.filter_In, <- list_elem_of_In.
  rewrite andb_true_iff, bool_decide_eq_true, negb_true_iff, exists_row_false. unfold covers.
  split.
  - intros (? & ? & H). split_and!; [done..|]. intros r' p Hp Hne Hin.
    specialize (H _ _ Hp). rewrite bool_decide_eq_true_2 in H by done.
    rewrite (proj2 (Z.eqb_neq r' r) Hne) in H. done.
  - intros (? & ? & H). split_and!; [done..|]. intros r' p Hp.
    destruct (Z.eqb_spec r' r) as [->|Hne]; simpl; [done|]. apply bool_decide_eq_false. eauto.
Qed.

(** Different top-level plans have no folder in common. *)
Lemma top_plans_disjoint ids u d plans r1 r2 p1 p2 i : plan_shape ids u d plans →
  r1 ∈ FilterCoveredFolderIds ids plans → r2 ∈ FilterCoveredFolderIds ids plans →
  plans !! r1 = Some p1 → plans !! r2 = Some p2 →
  i ∈ folder_ids_of p1 → i ∈ folder_ids_of p2 → r1 = r2.
Proof.
  intros Hs (_ & _ & H1)%elem_of_FilterCovered (_ & _ & H2)%elem_of_FilterCovered Hp1 Hp2.
  rewrite (plan_shape_ids _ _ _ _ _ _ Hs Hp1), (plan_shape_ids _ _ _ _ _ _ Hs Hp2).
  intros [_ Hd1] [_ Hd2]. destruct (decide (r1 = r2)) as [|Hne]; [done|exfalso].
  pose proof (Hs r1) as Hs1. pose proof (Hs r2) as Hs2. rewrite Hp1 in Hs1. rewrite Hp2 in Hs2.
  destruct Hs1 as (_ & _ & (g1 & Hg1 & _) & _), Hs2 as (_ & _ & (g2 & Hg2 & _) & _).
  destruct (descends_linear _ _ _ _ _ Hd1 Hd2) as [Hd|Hd].
  - apply (H2 r1 p1); [done..|]. apply (plan_shape_ids _ _ _ _ _ _ Hs Hp1). eauto.
  - apply (H1 r2 p2); [done|congruence|]. apply (plan_shape_ids _ _ _ _ _ _ Hs Hp2). eauto.
Qed.

(** ** Lemmas: snapshots *)

(** Rows whose columns are in the ranges the schema gives them. *)
Definition good_folder (f : folder) : Prop :=
  0 < f.1 < 2 ^ 63 ∧ 0 <= d_parent_id f.2 < 2 ^ 63 ∧ d_name f.2 ≠ ""%string ∧
  0 <= d_depth f.2 < 2 ^ 31 ∧ 0 <= d_item_count f.2 < 2 ^ 31.

Definition good_file (f : file_row) : Prop :=
  0 < f.1 < 2 ^ 63 ∧ 0 < f_folder_id f.2 < 2 ^ 63 ∧ 0 < f_content_id f.2 < 2 ^ 63 ∧
  f_name f.2 ≠ ""%string ∧ 0 <= f_size f.2 < 2 ^ 63 ∧ 0 <= f_download_count f.2 < 2 ^ 31.

(** What a snapshot keeps of a row. *)
Definition snapshot_folder (f : folder) : SnapshotFolder :=
  mkSnapshotFolder f.1 (d_parent_id f.2) (d_name f.2) (d_item_count f.2) (d_depth f.2).

Definition snapshot_file (f : file_row) : SnapshotFile :=
  mkSnapshotFile f.1 (f_folder_id f.2) (f_content_id f.2) (f_name f.2) (f_extension f.2)
    (f_size f.2) (f_mime_type f.2) (negb (f_is_favorite f.2 =? 0)) (f_download_count f.2).

Lemma unsigned_ok max z : 0 <= z <= max → json_to_unsigned max (JInt z) = Some z.
Proof.
  intros [? ?]. simpl. by rewrite (proj2 (Z.leb_le 0 z)), (proj2 (Z.leb_le z max)) by done.
Qed.

Lemma str_empty_false s : s ≠ ""%string → str_empty s = false.
Proof. by destruct s. Qed.

Section snapshot.
Context (toDbStringLocal : Z → string) (real_text : Z → Z → string).

Lemma parse_folder_json f : good_folder f →
  parse_folder real_text (folder_json toDbStringLocal f) = Some (snapshot_folder f).
Proof.
  intros (Hi & Hp & _ & Hd & Hc). unfold parse_folder, folder_json, json_member, json_find.
  cbn -[json_to_unsigned u64]. unfold json_asUInt64, json_asUInt, u64_max, u32_max.
  rewrite !u64_small by lia.
  rewrite (unsigned_ok _ f.1) by lia. cbn -[json_to_unsigned u64].
  rewrite (unsigned_ok _ (d_parent_id f.2)) by lia. cbn -[json_to_unsigned u64].
  rewrite (unsigned_ok _ (d_item_count f.2)) by lia. cbn -[json_to_unsigned u64].
  by rewrite (unsigned_ok _ (d_depth f.2)) by lia.
Qed.

Lemma parse_file_json f : good_file f →
  parse_file real_text (file_json toDbStringLocal f) = Some (snapshot_file f).
Proof.
  intros (Hi & Hp & Hc & _ & Hs & Hd). unfold parse_file, file_json, json_member, json_find.
  cbn -[json_to_unsigned u64]. unfold json_asUInt64, json_asUInt, u64_max, u32_max.
  rewrite !u64_small by lia.
  rewrite (unsigned_ok _ f.1) by lia. cbn -[json_to_unsigned u64].
  rewrite (unsigned_ok _ (f_folder_id f.2)) by lia. cbn -[json_to_unsigned u64].
  rewrite (unsigned_ok _ (f_content_id f.2)) by lia. cbn -[json_to_unsigned u64].
  rewrite (unsigned_ok _ (f_size f.2)) by lia. cbn -[json_to_unsigned u64].
  by rewrite (unsigned_ok _ (f_download_count f.2)) by lia.
Qed.

Lemma parse_folders_json l : Forall good_folder l →
  parse_folders real_text (folder_json toDbStringLocal <$> l) = Some (snapshot_folder <$> l).
Proof.
  induction 1 as [|f l Hf _ IH]; [done|]. rewrite !fmap_cons. cbn -[folder_json].
  rewrite (parse_folder_json f Hf). cbn -[folder_json]. rewrite IH. simpl.
  destruct Hf as (? & _ & Hn & _). rewrite (proj2 (Z.ltb_lt 0 f.1)) by lia.
  by rewrite str_empty_false.
Qed.

Lemma parse_files_json l : Forall good_file l →
  parse_files real_text (file_json toDbStringLocal <$> l) = Some (snapshot_file <$> l).
Proof.
  induction 1 as [|f l Hf _ IH]; [done|]. rewrite !fmap_cons. cbn -[parse_file].
  rewrite (parse_file_json f Hf). cbn -[parse_file]. rewrite IH. simpl.
  destruct Hf as (? & ? & ? & Hn & _). rewrite (proj2 (Z.ltb_lt 0 f.1)) by lia.
  rewrite (proj2 (Z.ltb_lt 0 (f_folder_id f.2))) by lia.
  rewrite (proj2 (Z.ltb_lt 0 (f_content_id f.2))) by lia.
  by rewrite str_empty_false.
Qed.

(** The fields a file of a parsed snapshot has. *)
Lemma parse_files_usable values l : parse_files real_text values = Some l →
  Forall (λ f, 0 < sn_id f ∧ 0 < sn_folder_id f ∧ 0 < sn_content_id f ∧
               sn_name f ≠ ""%string) l.
Proof.
  revert l. induction values as [|v values IH]; intros l; simpl; [by intros [= <-]|].
  intros ([] & _ & H)%bind_Some; [|by apply IH].
  apply bind_Some in H as (f & _ & H). apply bind_Some in H as (rest & Hr & [= <-]).
  specialize (IH _ Hr). case_match eqn:E; [|done]. constructor; [|done].
  case_bools. split_and!; try done. intros E'. rewrite E' in *. done.
Qed.

Lemma parse_folders_usable values l : parse_folders real_text values = Some l →
  Forall (λ f, 0 < sd_id f ∧ sd_name f ≠ ""%string) l.
Proof.
  revert l. induction values as [|v values IH]; intros l; simpl; [by intros [= <-]|].
  intros (f & _ & H)%bind_Some. apply bind_Some in H as (rest & Hr & [= <-]).
  specialize (IH _ Hr). case_match eqn:E; [|done]. constructor; [|done].
  case_bools. split; [done|]. intros E'. rewrite E' in *. done.
Qed.

(** The folders of a plan below its root, by identifier. *)
Definition folders_below (plan : FolderDeletePlan) : list folder :=
  List.filter (λ f, negb (f.1 =? (pl_root plan).1)) (pl_folders plan).

Lemma snapshot_parses plan :
  good_folder (pl_root plan) → Forall good_folder (pl_folders plan) →
  Forall good_file (pl_files plan) →
  ParseFolderTreeSnapshot real_text (BuildFolderSnapshot toDbStringLocal plan) =
    Some (Some (mkFolderTreeSnapshot (snapshot_folder (pl_root plan))
      (order_by (λ a b, sd_id a <=? sd_id b) (snapshot_folder <$> folders_below plan))
      (snapshot_file <$> pl_files plan))).
Proof.
  intros Hroot Hfolders Hfiles.
  unfold ParseFolderTreeSnapshot, BuildFolderSnapshot, json_member, json_find, json_isMember.
  cbn -[parse_folder folder_json parse_folders parse_files file_json].
  rewrite (parse_folder_json _ Hroot). cbn -[parse_folders parse_files file_json folder_json].
  fold (folders_below plan). rewrite parse_folders_json.
  - cbn -[parse_files file_json]. rewrite parse_files_json by done. cbn -[order_by].
    destruct Hroot as (? & _ & Hn & _). rewrite (proj2 (Z.eqb_neq (pl_root plan).1 0)) by lia.
    by rewrite str_empty_false.
  - rewrite Forall_forall in Hfolders |- *. intros f Hf. apply Hfolders.
    unfold folders_below in Hf. rewrite list_elem_of_In, List.filter_In, <- list_elem_of_In in Hf.
    tauto.
Qed.

(** C40: a folder tree in the trash can be read back.  The snapshot written for a
    deletion plan parses, and gives the root, every other folder of the plan (ordered
    by identifier) and every file of the plan, with the names, sizes, content
    references and counters of their rows. *)
Theorem snapshot_roundtrip plan :
  good_folder (pl_root plan) → Forall good_folder (pl_folders plan) →
  Forall good_file (pl_files plan) →
  ParseFolderTreeSnapshot real_text (BuildFolderSnapshot toDbStringLocal plan) =
    Some (Some (mkFolderTreeSnapshot (snapshot_folder (pl_root plan))
      (order_by (λ a b, sd_id a <=? sd_id b) (snapshot_folder <$> folders_below plan))
      (snapshot_file <$> pl_files plan))) ∧
  ExtractSnapshotContentIds real_text (BuildFolderSnapshot toDbStringLocal plan) =
    Some ((λ f, f_content_id f.2) <$> pl_files plan).
Proof.
  intros Hroot Hfolders Hfiles. pose proof (snapshot_parses _ Hroot Hfolders Hfiles) as Hparse.
  split; [exact Hparse|]. unfold ExtractSnapshotContentIds. rewrite Hparse. simpl.
  by rewrite <- list_fmap_compose.
Qed.
End snapshot.

(** ** Witnesses *)

Definition example_plan : FolderDeletePlan :=
  mkFolderDeletePlan (1, mkFolderRow 7 0 "docs" "/docs/" 1 2 100 100)
    [(1, mkFolderRow 7 0 "docs" "/docs/" 1 2 100 100);
     (2, mkFolderRow 7 1 "old" "/docs/old/" 2 1 100 100)]
    [(4, mkFileRow 7 9 1 "a.txt" "txt" 10 "text/plain" "/docs/a.txt" 1 3 100 100);
     (5, mkFileRow 7 9 2 "b.txt" "txt" 20 "text/plain" "/docs/old/b.txt" 0 0 100 100)] 30.

Lemma snapshot_roundtrip_witness :
  ExtractSnapshotContentIds (λ _ _, ""%string) (BuildFolderSnapshot (λ _, ""%string) example_plan) =
    Some [9; 9].
Proof.
  apply (snapshot_roundtrip (λ _, ""%string) (λ _ _, ""%string) example_plan);
    repeat first [apply Forall_nil_2 | apply Forall_cons_2]; unfold good_folder, good_file; cbn;
    split_and!; lia || done.
Defined.
