(* ===== verification/FolderService.v ===== *)
(** * Folder service

    [src/src/services/FolderService.cpp]: creating and renaming folders, each in one
    transaction, the folder tree assembled from its rows, and the breadcrumb. *)

From S2P Require Import Prelude Errors Db Schema Batch Names Files Folders DeletePlans.

Local Open Scope string_scope.

(** ** Data *)

Record CreateFolderRequest := mkCreateFolderRequest { cf_name : string; cf_parent_id : Z }.

Record CreateFolderResponse := mkCreateFolderResponse {
  cfr_id : Z;
  cfr_name : string;
  cfr_parent_id : Z;
  cfr_path : string;
  cfr_created_at : string
}.

Record RenameFolderResponse := mkRenameFolderResponse {
  rfr_id : Z;
  rfr_name : string;
  rfr_path : string;
  rfr_updated_at : string
}.

Inductive FolderTreeNode := mkFolderTreeNode {
  ftn_id : Z;
  ftn_name : string;
  ftn_children : list FolderTreeNode
}.

(** [std::string::substr(pos)]: a position past the end is an exception. *)
Definition substr_at (pos : nat) (s : string) : option string :=
  if Nat.leb pos (String.length s) then Some (substr pos s) else None.

Definition moved_path (old_prefix new_prefix path : string) : option string :=
  (λ rest, new_prefix ++ rest) <$> substr_at (String.length old_prefix) path.

Section service.
(** [toDbStringLocal] of a date, and the clock of the server. *)
Context (toDbStringLocal : Z → string) (date : Z).

(** ** Creating *)

Definition create_folder_body (request : CreateFolderRequest) (user_id : Z)
  : M Database (Result folder) :=
  _ ← Folders.AcquireNameLock user_id (cf_parent_id request) (cf_name request);
  let* parent :=
    if (0 <? cf_parent_id request)%Z then
      (parent_updated ← ApplyItemCountDelta (cf_parent_id request) user_id 1 date;
       if negb parent_updated then mret (Err (err FolderNotFound))
       else
         parent ← FindOwnedFolder (cf_parent_id request) user_id;
         mret (match (parent : option folder) with
               | None => Err (err FolderNotFound)
               | Some (_, p) => Ok (mkFolderLocation (d_path p) (u32 (d_depth p)))
               end))
    else mret (Ok root_location) in
  (inserted ← InsertIfNameAvailable
     (mkFolderRow user_id (cf_parent_id request) (cf_name request)
        (BuildFolderPath (fl_path parent) (cf_name request))
        (i32 (u32 (fl_depth parent + 1))) 0 date date);
   mret (match (inserted : option folder) with
         | None => Err (err FolderAlreadyExists)
         | Some folder => Ok folder
         end)).

Definition CreateFolderFailed : ErrorInfo :=
  mkErrorInfo InternalError "Failed to create folder, please try again later".

Definition CreateFolder (request : CreateFolderRequest) (user_id : Z)
  : M Database (Result CreateFolderResponse) :=
  let* folder := Run CreateFolderFailed (create_folder_body request user_id) in
  mret (Ok (mkCreateFolderResponse folder.1 (d_name folder.2) (d_parent_id folder.2)
              (d_path folder.2) (toDbStringLocal (d_created_at folder.2)))).

(** ** Renaming *)

Definition RenameFolderFailed : ErrorInfo :=
  mkErrorInfo InternalError "Failed to rename folder".

(** The loop over the subtree. *)
Fixpoint rename_folders (folder_id user_id : Z) (new_name old_prefix new_prefix : string)
    (subtree : list folder) : M Database (Result unit) :=
  match subtree with
  | [] => mret (Ok tt)
  | item :: subtree =>
      match moved_path old_prefix new_prefix (d_path item.2) with
      | None => raise (RuntimeError "out of range")
      | Some new_path =>
          updated ← (if (item.1 =? folder_id)%Z
                     then RenameFolderPath item.1 user_id new_name new_path date
                     else UpdateFolderPath item.1 user_id new_path date);
          if negb updated then mret (Err RenameFolderFailed)
          else rename_folders folder_id user_id new_name old_prefix new_prefix subtree
      end
  end.

(** The new paths, by folder. *)
Fixpoint folder_paths (old_prefix new_prefix : string) (folders : list folder)
  : option (gmap Z string) :=
  match folders with
  | [] => Some ∅
  | item :: folders =>
      path ← moved_path old_prefix new_prefix (d_path item.2);
      rest ← folder_paths old_prefix new_prefix folders;
      Some (<[item.1 := path]> rest)
  end.

Fixpoint rename_files (failed : ErrorInfo) (user_id : Z) (paths : gmap Z string)
    (files : list file_row) : M Database (Result unit) :=
  match files with
  | [] => mret (Ok tt)
  | file :: files =>
      match paths !! f_folder_id file.2 with
      | None => rename_files failed user_id paths files
      | Some path =>
          file_updated ← UpdateFilePath file.1 user_id (BuildFilePath path (f_name file.2)) date;
          if negb file_updated then mret (Err failed)
          else rename_files failed user_id paths files
      end
  end.

Definition rename_folder_body (folder_id : Z) (new_name : string) (user_id : Z)
  : M Database (Result RenameFolderResponse) :=
  f ← FindOwnedFolderForUpdate folder_id user_id;
  match (f : option folder) with
  | None => mret (Err (err FolderNotFound))
  | Some (_, g) =>
      let parent_id := d_parent_id g in
      _ ← Folders.AcquireNameLock user_id parent_id new_name;
      occupied ← (if d_name g =? new_name then mret false
                  else Folders.NameExistsExcluding new_name parent_id user_id folder_id);
      if (occupied : bool) then mret (Err (err FolderAlreadyExists))
      else
      let* parent_path :=
        if (0 <? parent_id)%Z then
          (parent ← FindOwnedFolderForUpdate parent_id user_id;
           mret (match (parent : option folder) with
                 | None => Err (err FolderNotFound)
                 | Some (_, p) => Ok (d_path p)
                 end))
        else mret (Ok "/") in
      let old_prefix := d_path g in
      let new_prefix := BuildFolderPath parent_path new_name in
      (subtree ← FetchFolderSubtree folder_id user_id;
       if decide ((subtree : list folder) = []) then mret (Err (err FolderNotFound))
       else
       let* _ := rename_folders folder_id user_id new_name old_prefix new_prefix subtree in
       match folder_paths old_prefix new_prefix subtree with
       | None => raise (RuntimeError "out of range")
       | Some paths =>
           files ← FetchFilesInFolders (map_to_list paths).*1 user_id;
           let* _ := rename_files RenameFolderFailed user_id paths files in
           mret (Ok (mkRenameFolderResponse folder_id new_name new_prefix
                       (toDbStringLocal date)))
       end)
  end.

Definition Rename (folder_id : Z) (new_name : string) (user_id : Z)
  : M Database (Result RenameFolderResponse) :=
  Run RenameFolderFailed (rename_folder_body folder_id new_name user_id).
End service.

(** ** Listing *)

(** [build_children]: one level per step; [nodes] has no cycle reachable from the root,
    so its length bounds the height. *)
Fixpoint build_children (fuel : nat) (nodes : list FolderNodeData) (parent_id : Z)
  : list FolderTreeNode :=
  match fuel with
  | O => []
  | S fuel =>
      (λ node, mkFolderTreeNode (fn_id node) (fn_name node)
                 (build_children fuel nodes (fn_id node))) <$>
        List.filter (λ node, (fn_parent_id node =? parent_id)%Z) nodes
  end.

Definition root_name (root_id : Z) : string := if (root_id =? 0)%Z then "根目录" else "".

Definition BuildTreeFromFlatList (nodes : list FolderNodeData) (root_id : Z) : FolderTreeNode :=
  mkFolderTreeNode root_id (root_name root_id)
    (build_children (S (length nodes)) nodes root_id).

Definition ValidateParentOwnership (parent_id user_id : Z) : M Database (Result unit) :=
  catch_db
    (parent ← FindOwnedFolder parent_id user_id;
     mret (match (parent : option folder) with
           | None => Err (err FolderNotFound)
           | Some _ => Ok tt
           end))
    (mret (Err (err FolderNotFound))).

Definition GetFolderTree (user_id parent_id depth : Z) : M Database (Result FolderTreeNode) :=
  let* _ := if (0 <? parent_id)%Z then ValidateParentOwnership parent_id user_id
            else mret (Ok tt) in
  let max_depth := if (depth =? -1)%Z then 100%Z else depth in
  catch_db
    (nodes ← FetchFolderTreeRows user_id parent_id max_depth;
     mret (Ok (if decide ((nodes : list FolderNodeData) = [])
               then mkFolderTreeNode parent_id (root_name parent_id) []
               else BuildTreeFromFlatList nodes parent_id)))
    (mret (Err (mkErrorInfo InternalError "Failed to get folder tree, please try again later"))).

Definition GetBreadcrumb (folder_id user_id : Z) : M Database (Result (list BreadcrumbItem)) :=
  if (folder_id =? 0)%Z then mret (Ok [mkBreadcrumbItem 0 "根目录"])
  else catch_db
    (path ← FetchBreadcrumbRows folder_id user_id;
     mret (if decide ((path : list BreadcrumbItem) = []) then Err (err FolderNotFound)
           else Ok (rev (path ++ [mkBreadcrumbItem 0 "根目录"])%list)))
    (mret (Err (mkErrorInfo InternalError "Failed to retrieve breadcrumb"))).


(** ** Lemmas *)

Local Close Scope string_scope.

#[export] Instance tx_body_create_folder date request u :
  TxBody (create_folder_body date request u).
Proof. unfold create_folder_body. solve_tx_body. Qed.

#[export] Instance tx_body_rename_folders date i u name old new rows :
  TxBody (rename_folders date i u name old new rows).
Proof. induction rows; simpl; solve_tx_body. Qed.

#[export] Instance tx_body_rename_files date failed u paths rows :
  TxBody (rename_files date failed u paths rows).
Proof. induction rows; simpl; solve_tx_body. Qed.

#[export] Instance tx_body_rename_folder to_db date i name u :
  TxBody (rename_folder_body to_db date i name u).
Proof. unfold rename_folder_body, FetchFolderSubtree, read. solve_tx_body. Qed.
