(* ===== verification/Trash.v ===== *)
(** * The trash

    [src/src/services/TrashService.cpp] and [src/src/services/TrashQuery.cpp]: deleting
    files and folder trees moves them to the trash, from where they are restored, or
    deleted for good with their bytes and content references given back. *)

From S2P Require Import Prelude Errors Storage Db UploadState Json Schema Batch Names Quota.
From S2P Require Import Rely StorageJobs Content Files Folders DeletePlans.

Local Open Scope string_scope.

(** ** Data *)

Record TrashListRecord := mkTrashListRecord {
  tl_id : Z;
  tl_item_type : string;
  tl_item_id : Z;
  tl_item_name : string;
  tl_item_size : Z;
  tl_original_path : string;
  tl_deleted_at : Z;
  tl_expires_at : Z
}.

Record TrashLifecycleRecord := mkTrashLifecycleRecord {
  tr_id : Z;
  tr_user_id : Z;
  tr_item_type : string;
  tr_item_id : Z;
  tr_item_name : string;
  tr_item_size : Z;
  tr_original_folder_id : Z;
  tr_original_path : string;
  tr_item_data : json;
  tr_content_id : option Z
}.

Record MoveToTrashRequest := mkMoveToTrashRequest {
  mt_file_ids : list Z;
  mt_folder_ids : list Z
}.

Record MoveToTrashResult := mkMoveToTrashResult {
  mr_deleted_count : Z;
  mr_deleted_file_count : Z;
  mr_deleted_folder_count : Z;
  mr_removed_file_ids : list Z;
  mr_removed_folder_ids : list Z
}.

Record ExpiredTrashCleanupPageResult := mkExpiredTrashCleanupPageResult {
  ep_candidates : Z;
  ep_deleted : Z;
  ep_next_after_id : Z;
  ep_has_more : bool
}.

Record PermanentDeleteResult := mkPermanentDeleteResult {
  pd_deleted_count : Z;
  pd_freed_space : Z
}.

Record ShareCleanupStats := mkShareCleanupStats {
  sc_deleted_file_share_links : Z;
  sc_deleted_folder_share_links : Z;
  sc_cancelled_empty_shares : Z
}.

Record BatchSummary := mkBatchSummary {
  bs_total : Z;
  bs_success_count : Z;
  bs_failure_count : Z
}.

(** The [field] and [value] of a failure, which echo the request, are left out. *)
Record BatchResultItem := mkBatchResultItem {
  br_trash_id : Z;
  br_status : string;
  br_code : option Z;
  br_message : option string;
  br_file_id : option Z;
  br_folder_id : option Z;
  br_path : option string;
  br_freed_space : option Z
}.

Record BatchResponse := mkBatchResponse {
  ba_summary : BatchSummary;
  ba_results : list BatchResultItem
}.

Record DeleteAllResponse := mkDeleteAllResponse {
  da_deleted_count : Z;
  da_freed_space : Z
}.

(** ** [TrashQuery] *)

Definition MapLifecycleRecord (row : Z * TrashRow) : TrashLifecycleRecord :=
  let '(id, x) := row in
  mkTrashLifecycleRecord id (x_user_id x) (x_item_type x) (x_item_id x) (x_item_name x)
    (u64 (x_item_size x)) (x_original_folder_id x) (x_original_path x) (x_item_data x)
    (x_content_id x).

Definition by_id (a b : Z * TrashRow) : bool := (a.1 <=? b.1)%Z.

(** [LIMIT limit OFFSET offset]: a negative bound is an error. *)
Definition limit_offset {A} (limit offset : Z) (rows : list A) : option (list A) :=
  if ((limit <? 0) || (offset <? 0))%Z then None
  else Some (take (Z.to_nat limit) (drop (Z.to_nat offset) rows)).

Definition list_page (user_id limit offset : Z) (d : Database) : option (list (Z * TrashRow)) :=
  limit_offset limit offset
    (select_rows (λ _ x, (x_user_id x =? user_id)%Z)
       (λ a b, (x_deleted_at b.2 <=? x_deleted_at a.2)%Z) (trash d)).

Definition FetchListPageForUser (user_id limit offset : Z) : M Database (list TrashListRecord) :=
  rows ← read (list_page user_id limit offset);
  mret ((λ row : Z * TrashRow, let '(id, x) := row in
           mkTrashListRecord id (x_item_type x) (x_item_id x) (x_item_name x)
             (u64 (x_item_size x)) (x_original_path x) (x_deleted_at x) (x_expires_at x)) <$> rows).

Definition CountForUser (user_id : Z) : M Database Z :=
  query (λ d, count_rows (λ _ x, (x_user_id x =? user_id)%Z) (trash d)).

Definition trash_rows (P : Z → TrashRow → bool) (d : Database) : list TrashLifecycleRecord :=
  MapLifecycleRecord <$> select_rows P by_id (trash d).

Fixpoint Prefetch_loop (chunks : list (list Z)) : M Database (list TrashLifecycleRecord) :=
  match chunks with
  | [] => mret []
  | chunk :: chunks =>
      rows ← query (trash_rows (λ id _, bool_decide (id ∈ chunk)));
      rest ← Prefetch_loop chunks;
      mret (rows ++ rest)%list
  end.

Definition PrefetchLifecycleRowsByIds (trash_ids : list Z)
  : M Database (list TrashLifecycleRecord) := Prefetch_loop (Chunks trash_ids).

Definition FetchLifecycleRowForUpdate (trash_id user_id : Z)
  : M Database (option TrashLifecycleRecord) :=
  query (λ d, x ← trash d !! trash_id;
              if (x_user_id x =? user_id)%Z then Some (MapLifecycleRecord (trash_id, x)) else None).

Definition FetchLifecycleRowsForUser (user_id : Z) : M Database (list TrashLifecycleRecord) :=
  query (trash_rows (λ _ x, (x_user_id x =? user_id)%Z)).

Definition FetchExpiredLifecycleBatchAfterId (last_seen_id : Z) (limit : nat)
  : M Database (list TrashLifecycleRecord) :=
  query (λ d, take limit (trash_rows
    (λ id x, (x_expires_at x <? now d)%Z && (last_seen_id <? id)%Z) d)).

(** ** Moving to the trash *)

(** [rfind] of a string of two characters. *)
Fixpoint rfind2 (c1 c2 : Ascii.ascii) (s : string) : option nat :=
  match s with
  | EmptyString => None
  | String a t =>
      match rfind2 c1 c2 t with
      | Some n => Some (S n)
      | None => match t with
                | String b _ => if Ascii.eqb a c1 && Ascii.eqb b c2 then Some O else None
                | EmptyString => None
                end
      end
  end.

(** The position of the last dot, unless a [" ("] comes before it. *)
Definition extension_dot (filename : string) : option nat :=
  pos ← rfind dot filename;
  match rfind2 (Ascii.ascii_of_nat 32) (Ascii.ascii_of_nat 40) filename with
  | Some paren_pos => if Nat.ltb paren_pos pos then None else Some pos
  | None => Some pos
  end.

Definition ExtractExtension (filename : string) : string :=
  match extension_dot filename with
  | None => ""
  | Some pos =>
      if Nat.eqb pos 0 || Nat.eqb pos (String.length filename - 1) then ""
      else substr (pos + 1) filename
  end.

Definition ExtractBaseName (filename : string) : string :=
  match extension_dot filename with
  | None => filename
  | Some pos => if Nat.eqb pos 0 then filename else String.substring 0 pos filename
  end.

Definition DeleteFailed : ErrorInfo := mkErrorInfo InternalError "Failed to delete items".

(** One batch of [CleanupShareLinksForMovedItems]: the shares that link the items, and
    the links deleted. *)
Definition links_to (item_type : string) (ids : list Z) (_ : Z) (l : ShareFileRow) : bool :=
  (sf_item_type l =? item_type) && bool_decide (sf_item_id l ∈ ids).

Definition delete_links (item_type : string) (ids : list Z) (d : Database)
  : option (Z * Database) :=
  Some (count_rows (links_to item_type ids) (share_files d),
        d <| share_files := filter (λ kl, links_to item_type ids kl.1 kl.2 = false) (share_files d) |>).

Fixpoint cleanup_links (item_type : string) (chunks : list (list Z)) : M Database (list Z * Z) :=
  match chunks with
  | [] => mret ([], 0%Z)
  | chunk :: chunks =>
      linked_shares ← query (λ d, (λ kl : Z * ShareFileRow, sf_share_id kl.2) <$>
        select_rows (links_to item_type chunk) (λ a b, (a.1 <=? b.1)%Z) (share_files d));
      deleted ← exec (delete_links item_type chunk);
      '(shares, n) ← cleanup_links item_type chunks;
      mret ((linked_shares ++ shares)%list, (deleted + n)%Z)
  end.

(** [UPDATE shares SET status = 0 WHERE status = 1 AND id IN (ids) AND NOT EXISTS (a
    link of the share)]. *)
Definition empty_share (ids : list Z) (d : Database) (id : Z) (s : ShareRow) : bool :=
  (s_status s =? 1)%Z && bool_decide (id ∈ ids) &&
  negb (exists_row (λ _ l, (sf_share_id l =? id)%Z) (share_files d)).

Definition cancel_empty_shares (ids : list Z) (d : Database) : option (Z * Database) :=
  Some (count_rows (empty_share ids d) (shares d),
        d <| shares := map_imap (λ id s,
               Some (if empty_share ids d id s then s <| s_status := 0%Z |> else s)) (shares d) |>).

Fixpoint cancel_loop (chunks : list (list Z)) : M Database Z :=
  match chunks with
  | [] => mret 0%Z
  | chunk :: chunks =>
      n ← exec (cancel_empty_shares chunk);
      rest ← cancel_loop chunks;
      mret (n + rest)%Z
  end.

Definition CleanupShareLinksForMovedItems (file_ids folder_ids : list Z)
  : M Database ShareCleanupStats :=
  '(file_shares, n_files) ← cleanup_links "file" (Chunks file_ids);
  '(folder_shares, n_folders) ← cleanup_links "folder" (Chunks folder_ids);
  cancelled ← cancel_loop (Chunks (sort_unique (file_shares ++ folder_shares)));
  mret (mkShareCleanupStats n_files n_folders cancelled).

Fixpoint apply_deltas (user_id date : Z) (deltas : list (Z * Z)) : M Database (Result unit) :=
  match deltas with
  | [] => mret (Ok tt)
  | (parent_id, delta) :: deltas =>
      parent_updated ← ApplyItemCountDelta parent_id user_id delta date;
      if (parent_updated : bool) then apply_deltas user_id date deltas else mret (Err DeleteFailed)
  end.

(** [--deltas[id]], for a parent that is a folder. *)
Definition decrement_parent (deltas : gmap Z Z) (parent_id : Z) : gmap Z Z :=
  if (0 <? parent_id)%Z then <[parent_id := (default 0 (deltas !! parent_id) - 1)%Z]> deltas
  else deltas.

Section trash.
(** The iteration order of an [unordered_map]; the texts of dates and real numbers; the
    clock of the server. *)
Context (iteration : list Z → list Z) (toDbStringLocal : Z → string)
  (real_text : Z → Z → string) (date : Z).

(** The loop that locks the folders of the request: it ends when a round finds no
    folder that is not locked yet.  The loop of the program has no bound; [fuel] bounds the
    rounds of the model. *)
Fixpoint lock_folders (fuel : nat) (requested_folder_ids : list Z) (user_id : Z)
    (locked_folder_ids : gset Z) : M Database (gmap Z FolderDeletePlan * list Z) :=
  match fuel with
  | O => raise (RuntimeError "out of fuel")
  | S fuel =>
      folder_plans ← FetchBatchFolderDeletePlans iteration requested_folder_ids user_id;
      let top_level_folder_ids := FilterCoveredFolderIds requested_folder_ids folder_plans in
      let discovered_folder_ids :=
        sort_unique (plans_of top_level_folder_ids folder_plans ≫= folder_ids_of) in
      let folder_ids_to_lock :=
        List.filter (λ id, negb (bool_decide (id ∈ locked_folder_ids))) discovered_folder_ids in
      if decide (folder_ids_to_lock = []) then mret (folder_plans, top_level_folder_ids)
      else
        _ ← FetchOwnedFoldersByIdsForUpdate folder_ids_to_lock user_id;
        lock_folders fuel requested_folder_ids user_id
          (locked_folder_ids ∪ list_to_set folder_ids_to_lock)
  end.

(** The whole loop.  Every round but the last locks a folder more, so one round more than there
    are folders is enough ([lock_loop_ends] in [TrashLocks.v]). *)
Definition lock_all_folders (requested_folder_ids : list Z) (user_id : Z)
  : M Database (gmap Z FolderDeletePlan * list Z) := λ e,
  lock_folders (S (size (folders (db e)))) requested_folder_ids user_id ∅ e.

(** The files of a plan are the locked files inside its folders. *)
Definition refill (locked_files : list file_row) (plan : FolderDeletePlan) : FolderDeletePlan :=
  let files := List.filter
    (λ f : file_row, bool_decide (f_folder_id f.2 ∈ folder_ids_of plan)) locked_files in
  plan <| pl_files := files |>
       <| pl_item_size := foldl (λ n (f : file_row), u64 (n + u64 (f_size f.2))) 0%Z files |>.

Definition refill_plans (locked_files : list file_row) (top_level_folder_ids : list Z)
    (plans : gmap Z FolderDeletePlan) : gmap Z FolderDeletePlan :=
  foldl (λ plans id, match plans !! id with
                     | Some plan => <[id := refill locked_files plan]> plans
                     | None => plans
                     end) plans top_level_folder_ids.

Definition file_item (file : file_row) : TrashInsertItem :=
  mkTrashInsertItem "file" (u64 file.1) (f_name file.2) (u64 (f_size file.2))
    (u64 (f_folder_id file.2)) (f_path file.2) (Some (u64 (f_content_id file.2)))
    (JObject [("content_id", JInt (u64 (f_content_id file.2)));
              ("mime_type", JString (f_mime_type file.2))]).

Definition folder_item (plan : FolderDeletePlan) : TrashInsertItem :=
  mkTrashInsertItem "folder" (u64 (pl_root plan).1) (d_name (pl_root plan).2)
    (pl_item_size plan) (u64 (d_parent_id (pl_root plan).2)) (d_path (pl_root plan).2) None
    (BuildFolderSnapshot toDbStringLocal plan).

(** What a deletion consists of, from the locked rows. *)
Record Deletion := mkDeletion {
  dl_explicit : list file_row;
  dl_plans : list FolderDeletePlan
}.

Definition deletion (requested_file_ids : list Z) (locked_files : list file_row)
    (top_level_folder_ids : list Z) (plans : gmap Z FolderDeletePlan) : Deletion :=
  let plans := refill_plans locked_files top_level_folder_ids plans in
  let covered_file_ids := CollectCoveredFileIds top_level_folder_ids plans in
  let explicit_file_ids :=
    List.filter (λ id, negb (bool_decide (id ∈ covered_file_ids))) requested_file_ids in
  let file_map : gmap Z FileRow := list_to_map locked_files in
  mkDeletion (omap (λ id, pair id <$> file_map !! id) explicit_file_ids)
    (plans_of top_level_folder_ids plans).

Definition trash_items (dl : Deletion) : list TrashInsertItem :=
  (file_item <$> dl_explicit dl) ++ (folder_item <$> dl_plans dl).

Definition parent_deltas (dl : Deletion) : gmap Z Z :=
  foldl decrement_parent
    (foldl (λ deltas (f : file_row), decrement_parent deltas (f_folder_id f.2)) ∅ (dl_explicit dl))
    ((λ plan, d_parent_id (pl_root plan).2) <$> dl_plans dl).

Definition file_ids_to_delete (dl : Deletion) : list Z :=
  sort_unique ((dl_explicit dl).*1 ++ (dl_plans dl ≫= λ plan, (pl_files plan).*1)).

Definition folder_ids_to_delete (dl : Deletion) : list Z :=
  sort_unique (dl_plans dl ≫= folder_ids_of).

(** The statements of a deletion. *)
Definition delete_items (user_id : Z) (dl : Deletion) : M Database (Result Deletion) :=
  if decide (trash_items dl = []) then
    mret (Err (mkErrorInfo FileNotFound "No deletable files or folders found for the given IDs"))
  else
    insert_ok ← InsertTrashRecords (trash_items dl) user_id;
    if negb insert_ok then mret (Err DeleteFailed)
    else
    let* _ := apply_deltas user_id date
                (order_by (λ a b, (a.1 <=? b.1)%Z) (map_to_list (parent_deltas dl))) in
    (_ ← CleanupShareLinksForMovedItems (file_ids_to_delete dl) (folder_ids_to_delete dl);
     deleted_file_rows ← DeleteFilesByIds (file_ids_to_delete dl);
     if negb (deleted_file_rows =? Z.of_nat (length (file_ids_to_delete dl)))%Z
     then mret (Err DeleteFailed)
     else
     deleted_folder_rows ← DeleteFoldersByIds (folder_ids_to_delete dl);
     if negb (deleted_folder_rows =? Z.of_nat (length (folder_ids_to_delete dl)))%Z
     then mret (Err DeleteFailed)
     else mret (Ok dl)).

Definition move_body (requested_file_ids requested_folder_ids : list Z) (user_id : Z)
  : M Database (Result Deletion) :=
  '(folder_plans, top_level_folder_ids) ←
     lock_all_folders requested_folder_ids user_id;
  let covered_file_ids := CollectCoveredFileIds top_level_folder_ids folder_plans in
  let file_ids_to_lock := sort_unique (requested_file_ids ++ elements covered_file_ids) in
  locked_files ← FetchOwnedFilesByIdsForUpdate file_ids_to_lock user_id;
  delete_items user_id
    (deletion requested_file_ids locked_files top_level_folder_ids folder_plans).

Definition MoveToTrash (request : MoveToTrashRequest) (user_id : Z)
  : M Database (Result MoveToTrashResult) :=
  let requested_file_ids := sort_unique (mt_file_ids request) in
  let requested_folder_ids := sort_unique (mt_folder_ids request) in
  tx_result ← Run (err InternalError) (move_body requested_file_ids requested_folder_ids user_id);
  mret (match (tx_result : Result Deletion) with
        | Err e => Err (if bool_decide (code e = FileNotFound) then e else DeleteFailed)
        | Ok dl =>
            let n_files := Z.of_nat (length (dl_explicit dl)) in
            let n_folders := Z.of_nat (length (dl_plans dl)) in
            Ok (mkMoveToTrashResult (n_files + n_folders) n_files n_folders
                  (file_ids_to_delete dl) (folder_ids_to_delete dl))
        end).

(** ** Deleting for good *)

(** What a deletion for good gives back, collected from its items. *)
Record Refund := mkRefund {
  rf_trash_ids : list Z;
  rf_content_ref_decrements : gmap Z Z;
  rf_user_storage_delta : gmap Z Z;
  rf_freed_space : Z
}.

Definition no_refund : Refund := mkRefund [] ∅ ∅ 0.

(** [decrements[id] += 1] and [delta[user] -= size] on machine integers. *)
Definition count_reference (decrements : gmap Z Z) (content_id : Z) : gmap Z Z :=
  <[content_id := u64 (default 0 (decrements !! content_id) + 1)]> decrements.

Definition refund_item (r : Refund) (item : TrashLifecycleRecord) (content_ids : list Z)
  : Refund :=
  mkRefund (rf_trash_ids r ++ [tr_id item])
    (foldl count_reference (rf_content_ref_decrements r) content_ids)
    (<[tr_user_id item :=
         i64 (default 0 (rf_user_storage_delta r !! tr_user_id item) - i64 (tr_item_size item))]>
       (rf_user_storage_delta r))
    (u64 (rf_freed_space r + tr_item_size item)).

Fixpoint collect_refund (trash_items : list TrashLifecycleRecord)
    (require_valid_file_content : bool) (r : Refund) : M Database Refund :=
  match trash_items with
  | [] => mret r
  | item :: trash_items =>
      if tr_item_type item =? "file" then
        match ResolveRequiredContentId (tr_content_id item) (tr_item_data item) with
        | Err e =>
            if require_valid_file_content then raise (RuntimeError (message e))
            else collect_refund trash_items require_valid_file_content r
        | Ok content =>
            collect_refund trash_items require_valid_file_content
              (refund_item r item [rc_value content])
        end
      else if tr_item_type item =? "folder" then
        match ExtractSnapshotContentIds real_text (tr_item_data item) with
        | None => raise (RuntimeError "jsoncpp")
        | Some content_ids =>
            collect_refund trash_items require_valid_file_content
              (refund_item r item content_ids)
        end
      else raise (RuntimeError "Unknown item type in trash chunk")
  end.

(** A call whose error is thrown. *)
Definition or_throw {A} (m : M Database (Result A)) : M Database A :=
  r ← m; match (r : Result A) with Ok a => mret a | Err e => raise (RuntimeError (message e)) end.

Fixpoint return_bytes (deltas : list (Z * Z)) : M Database unit :=
  match deltas with
  | [] => mret tt
  | (user_id, delta) :: deltas =>
      _ ← (if (delta =? 0)%Z then mret tt else or_throw (AdjustUsedStorageChecked user_id delta));
      return_bytes deltas
  end.

Definition delete_trash (ids : list Z) (d : Database) : option (Z * Database) :=
  let '(n, t) := delete_rows ids (trash d) in Some (n, d <| trash := t |>).

(** The body of the transaction: [None] when there is nothing to delete and the
    transaction is rolled back. *)
Definition permanent_delete_body (trash_items : list TrashLifecycleRecord)
    (require_valid_file_content : bool) : M Database (option PermanentDeleteResult) :=
  r ← collect_refund trash_items require_valid_file_content no_refund;
  let trash_ids := rf_trash_ids r in
  if decide (trash_ids = []) then mret None
  else
    _ ← (if decide (rf_content_ref_decrements r = ∅) then mret 0%Z
         else or_throw (DecrementRefCountsAndEnqueueGc (rf_content_ref_decrements r)));
    rows ← exec (delete_trash trash_ids);
    _ ← (if (rows =? Z.of_nat (length trash_ids))%Z then mret tt
         else raise (RuntimeError "Chunk delete affected rows mismatch"));
    _ ← return_bytes (map_to_list (rf_user_storage_delta r));
    mret (Some (mkPermanentDeleteResult (Z.of_nat (length trash_ids)) (rf_freed_space r))).

(** [try { begin; body; commit } catch (...) { rollback; throw; }]. *)
Definition in_transaction {A} (empty : A) (body : M Database (option A)) : M Database A := λ e,
  match Begin e with
  | (Raise x, e) => (Raise x, rollbackQuietly e)
  | (Ret _, e) =>
      match body e with
      | (Raise x, e) => (Raise x, rollbackQuietly e)
      | (Ret None, e) => (Ret empty, rollbackQuietly e)
      | (Ret (Some a), e) =>
          match Commit e with
          | (true, e) => (Ret a, e)
          | (false, e) =>
              (Raise (RuntimeError "Trash permanent-delete transaction commit failed"),
               rollbackQuietly e)
          end
      end
  end.

Definition PermanentlyDeleteTrashItems (trash_items : list TrashLifecycleRecord)
    (require_valid_file_content : bool) : M Database PermanentDeleteResult :=
  match trash_items with
  | [] => mret (mkPermanentDeleteResult 0 0)
  | _ => in_transaction (mkPermanentDeleteResult 0 0)
           (permanent_delete_body trash_items require_valid_file_content)
  end.

Definition failed_item (trash_id : Z) (c : Code) (what : string) : BatchResultItem :=
  mkBatchResultItem trash_id "failed" (Some (ToInt c)) (Some what) None None None None.

Definition deleted_item (trash_id freed_space : Z) : BatchResultItem :=
  mkBatchResultItem trash_id "success" None None None None None (Some freed_space).

(** The item of a batch with this id, if it belongs to the user; of two the last. *)
Definition batch_item (items : list TrashLifecycleRecord) (user_id trash_id : Z)
  : option TrashLifecycleRecord :=
  item ← List.find (λ item, (tr_id item =? trash_id)%Z) (rev items);
  if (tr_user_id item =? user_id)%Z then Some item else None.

(** One turn of the loop of [Delete]. *)
Definition delete_one (items : list TrashLifecycleRecord) (user_id trash_id : Z)
  : M Database BatchResultItem :=
  match batch_item items user_id trash_id with
  | None => mret (failed_item trash_id ResourceNotFound "Trash item not found")
  | Some item =>
      let delete :=
        catch_all
          (delete_result ← PermanentlyDeleteTrashItems [item] true;
           mret (deleted_item trash_id (pd_freed_space delete_result)))
          (mret (failed_item trash_id InternalError
             (if tr_item_type item =? "folder" then "Failed to permanently delete folder"
              else "Failed to permanently delete file"))) in
      if tr_item_type item =? "file" then
        match ResolveRequiredContentId (tr_content_id item) (tr_item_data item) with
        | Err e => mret (failed_item trash_id (code e) (message e))
        | Ok _ => delete
        end
      else if negb (tr_item_type item =? "folder")
      then mret (failed_item trash_id ValidationFailed "Unknown item type")
      else delete
  end.

(** The loop over a batch, and its summary. *)
Fixpoint for_batch (one : Z → M Database BatchResultItem) (trash_ids : list Z)
  : M Database (list BatchResultItem) :=
  match trash_ids with
  | [] => mret []
  | trash_id :: trash_ids =>
      result ← one trash_id;
      results ← for_batch one trash_ids;
      mret (result :: results)
  end.

Definition is_success (r : BatchResultItem) : bool := br_status r =? "success".

Definition batch_response (results : list BatchResultItem) : BatchResponse :=
  mkBatchResponse
    (mkBatchSummary (Z.of_nat (length results))
       (Z.of_nat (length (List.filter is_success results)))
       (Z.of_nat (length (List.filter (λ r, negb (is_success r)) results)))) results.

Definition batch (trash_ids : list Z) (failed : ErrorInfo)
    (one : list TrashLifecycleRecord → Z → M Database BatchResultItem)
  : M Database (Result BatchResponse) :=
  items ← catch_db (items ← PrefetchLifecycleRowsByIds trash_ids; mret (Some items)) (mret None);
  match (items : option (list TrashLifecycleRecord)) with
  | None => mret (Err failed)
  | Some items =>
      results ← for_batch (one items) trash_ids;
      mret (Ok (batch_response results))
  end.

Definition Delete (user_id : Z) (trash_ids : list Z) : M Database (Result BatchResponse) :=
  batch trash_ids
    (mkErrorInfo InternalError "Failed to delete trash items, please try again later")
    (λ items, delete_one items user_id).

Fixpoint delete_chunks (chunks : list (list TrashLifecycleRecord)) (response : DeleteAllResponse)
  : M Database DeleteAllResponse :=
  match chunks with
  | [] => mret response
  | chunk :: chunks =>
      r ← catch_all
            (delete_result ← PermanentlyDeleteTrashItems chunk false;
             mret (mkDeleteAllResponse
                     (i32 (da_deleted_count response + pd_deleted_count delete_result))
                     (u64 (da_freed_space response + pd_freed_space delete_result))))
            (mret response);
      delete_chunks chunks r
  end.

Definition EmptyTrashFailed : ErrorInfo :=
  mkErrorInfo InternalError "Failed to empty trash, please try again later".

Definition DeleteAll (user_id : Z) : M Database (Result DeleteAllResponse) :=
  catch_all
    (trash_items ← FetchLifecycleRowsForUser user_id;
     response ← delete_chunks (Chunks (trash_items : list TrashLifecycleRecord))
                  (mkDeleteAllResponse 0 0);
     mret (Ok response))
    (mret (Err EmptyTrashFailed)).

Definition kMaxPageSize : Z := 500.

Fixpoint expire_chunks (chunks : list (list TrashLifecycleRecord))
    (page : ExpiredTrashCleanupPageResult)
  : M Database (Result ExpiredTrashCleanupPageResult) :=
  match chunks with
  | [] => mret (Ok page)
  | chunk :: chunks =>
      delete_result ← PermanentlyDeleteTrashItems chunk false;
      let page := page <| ep_deleted := (ep_deleted page + pd_deleted_count delete_result)%Z |> in
      if negb (pd_deleted_count delete_result =? Z.of_nat (length chunk))%Z
      then mret (Err (mkErrorInfo ValidationFailed
                        "Expired trash page contains an invalid content reference"))
      else expire_chunks chunks page
  end.

Definition CleanupExpiredTrashPage (after_id limit : Z)
  : M Database (Result ExpiredTrashCleanupPageResult) :=
  if ((limit =? 0) || (kMaxPageSize <? limit) || (after_id =? u64_max))%Z
  then mret (Err (mkErrorInfo InvalidParameter "Expired trash page bounds are invalid"))
  else
    catch_all
      (trash_items ← FetchExpiredLifecycleBatchAfterId after_id (Z.to_nat limit);
       let trash_items : list TrashLifecycleRecord := trash_items in
       let n := Z.of_nat (length trash_items) in
       match last trash_items with
       | None => mret (Ok (mkExpiredTrashCleanupPageResult n 0 after_id (n =? limit)%Z))
       | Some item =>
           expire_chunks (Chunks trash_items)
             (mkExpiredTrashCleanupPageResult n 0 (tr_id item) (n =? limit)%Z)
       end)
      (mret (Err (mkErrorInfo InternalError "Failed to clean expired trash"))).

(** The loop of [CleanupExpiredTrashItems]: one page per turn. *)
Fixpoint expire_pages (batches : nat) (fetch_batch_size after_id deleted_count : Z)
  : M Database (Result Z) :=
  match batches with
  | O => mret (Ok deleted_count)
  | S batches =>
      let* page := CleanupExpiredTrashPage after_id fetch_batch_size in
      (let deleted_count := i32 (deleted_count + i32 (ep_deleted page)) in
       if negb (ep_has_more page) then mret (Ok deleted_count)
       else if (ep_next_after_id page <=? after_id)%Z
       then mret (Err (mkErrorInfo ValidationFailed "Expired trash cleanup cursor did not advance"))
       else expire_pages batches fetch_batch_size (ep_next_after_id page) deleted_count)
  end.

Definition CleanupExpiredTrashItems (fetch_batch_size max_batches_per_run : Z)
  : M Database (Result Z) :=
  if ((fetch_batch_size <=? 0) || (max_batches_per_run <=? 0))%Z
  then mret (Err (mkErrorInfo InvalidParameter "Trash cleanup bounds must be positive"))
  else expire_pages (Z.to_nat max_batches_per_run) fetch_batch_size 0 0.

(** ** Restoring *)

(** [NameExistsExcluding] found the candidate taken; the body reports this error in no
    other case, so it stands for the flag [candidate_occupied]. *)
Definition FilenameOccupied : ErrorInfo :=
  mkErrorInfo ResourceConflict "Restore filename occupied".
Definition FolderNameOccupied : ErrorInfo :=
  mkErrorInfo ResourceConflict "Restore folder name occupied".
Definition TrashItemNotFound : ErrorInfo :=
  mkErrorInfo ResourceNotFound "Trash item not found".

(** The name tried at the given turn. *)
Definition restored_file_name (item_name : string) (candidate_index : Z) : string :=
  if (0 <? candidate_index)%Z then
    let base_name := ExtractBaseName item_name in
    let extension := ExtractExtension item_name in
    base_name ++ " (" ++ to_string candidate_index ++ ")" ++
      (if str_empty extension then "" else "." ++ extension)
  else item_name.

Definition restored_folder_name (item_name : string) (candidate_index : Z) : string :=
  if (0 <? candidate_index)%Z then item_name ++ " (" ++ to_string candidate_index ++ ")"
  else item_name.

(** The folder to restore into: the original one, or the root when it is gone. *)
Definition restore_target (original_folder_id user_id : Z) : M Database Z :=
  if (0 <? original_folder_id)%Z then
    parent_snapshot ← FindOwnedFolder original_folder_id user_id;
    mret (match (parent_snapshot : option folder) with
          | Some _ => original_folder_id
          | None => 0%Z
          end)
  else mret original_folder_id.

(** The target once more under its lock, with its path and depth. *)
Definition lock_target (AcquireNameLock : Z → Z → string → M Database unit)
    (target_folder_id user_id : Z) (name : string) : M Database (Z * FolderLocation) :=
  if (0 <? target_folder_id)%Z then
    parent_folder ← FindOwnedFolderForUpdate target_folder_id user_id;
    match (parent_folder : option folder) with
    | Some (_, f) => mret (target_folder_id, mkFolderLocation (d_path f) (u32 (d_depth f)))
    | None => _ ← AcquireNameLock user_id 0%Z name; mret (0%Z, root_location)
    end
  else mret (target_folder_id, root_location).

(** [DELETE FROM trash WHERE id = id AND user_id = user AND item_type = type]. *)
Definition delete_trash_item (id user_id : Z) (item_type : string) (d : Database)
  : option (Z * Database) :=
  match trash d !! id with
  | Some x => if (x_user_id x =? user_id)%Z && (x_item_type x =? item_type)
              then Some (1%Z, d <| trash := delete id (trash d) |>) else Some (0%Z, d)
  | None => Some (0%Z, d)
  end.

(** What every restore ends with: the parent counts the item, and the trash entry
    goes. *)
Definition finish_restore (failed : ErrorInfo) (target_folder_id user_id trash_id : Z)
    (item_type : string) : M Database (Result unit) :=
  let* _ := if (0 <? target_folder_id)%Z then
              (parent_updated ← ApplyItemCountDelta target_folder_id user_id 1 date;
               mret (if (parent_updated : bool) then Ok tt else Err failed))
            else mret (Ok tt) in
  (rows ← exec (delete_trash_item trash_id user_id item_type);
   mret (if (rows =? 1)%Z then Ok tt else Err failed)).

Record RestoredItem := mkRestoredItem { ri_id : Z; ri_path : string }.

Definition RestoreFileFailed : ErrorInfo := mkErrorInfo InternalError "Failed to restore file".

Definition restore_file_body (trash_id user_id candidate_index : Z)
  : M Database (Result RestoredItem) :=
  locked_trash_item ← FetchLifecycleRowForUpdate trash_id user_id;
  match (locked_trash_item : option TrashLifecycleRecord) with
  | None => mret (Err TrashItemNotFound)
  | Some item =>
      if negb (tr_item_type item =? "file") then mret (Err TrashItemNotFound)
      else
      match ResolveRequiredContentId (tr_content_id item) (tr_item_data item) with
      | Err e => mret (Err e)
      | Ok content =>
          let restored_name := restored_file_name (tr_item_name item) candidate_index in
          target_folder_id ← restore_target (tr_original_folder_id item) user_id;
          _ ← Files.AcquireNameLock user_id target_folder_id restored_name;
          '(target_folder_id, parent) ←
             lock_target Files.AcquireNameLock target_folder_id user_id restored_name;
          occupied ← Files.NameExistsExcluding restored_name target_folder_id user_id 0;
          if (occupied : bool) then mret (Err FilenameOccupied)
          else
            let restored_path := fl_path parent ++ restored_name in
            match json_member (tr_item_data item) "mime_type" (JString "application/octet-stream")
                    ≫= json_asString real_text with
            | None => raise (RuntimeError "jsoncpp")
            | Some mime_type =>
                inserted_file ← exec (insert_file
                  (mkFileRow user_id (rc_value content) target_folder_id restored_name
                     (ExtractExtension restored_name) (i64 (tr_item_size item)) mime_type
                     restored_path 0 0 date date));
                let* _ := finish_restore RestoreFileFailed target_folder_id user_id
                            (tr_id item) "file" in
                mret (Ok (mkRestoredItem (inserted_file : file_row).1 restored_path))
            end
      end
  end.

(** The folders of a snapshot restored so far: the new folder and its path, by the
    identifier the folder had. *)
Notation restored_folders := (gmap Z (Z * string)).

Definition restored_folder_row (user_id folder_depth root_depth : Z) (parent : Z * string)
    (f : SnapshotFolder) : FolderRow :=
  let depth_delta :=
    if (root_depth <? sd_depth f)%Z then u32 (sd_depth f - root_depth) else 1%Z in
  mkFolderRow user_id parent.1 (sd_name f) (parent.2 ++ sd_name f ++ "/")
    (i32 (u32 (folder_depth + depth_delta))) (i32 (sd_item_count f)) date date.

(** [Mapper::insert]: a conflict is an error. *)
Definition insert_folder (f : FolderRow) (d : Database) : option (folder * Database) :=
  '(r, d') ← insert_folder_statement f d;
  match (r : option folder) with Some row => Some (row, d') | None => None end.

(** One pass over the remaining folders: those whose parent is restored are inserted. *)
Fixpoint restore_pass (user_id folder_depth root_depth : Z) (remaining : list SnapshotFolder)
    (restored : restored_folders) : M Database (list SnapshotFolder * restored_folders) :=
  match remaining with
  | [] => mret ([], restored)
  | f :: remaining =>
      match restored !! sd_parent_id f with
      | None =>
          '(waiting, restored) ← restore_pass user_id folder_depth root_depth remaining restored;
          mret (f :: waiting, restored)
      | Some parent =>
          let row := restored_folder_row user_id folder_depth root_depth parent f in
          inserted_folder ← exec (insert_folder row);
          restore_pass user_id folder_depth root_depth remaining
            (<[sd_id f := ((inserted_folder : folder).1, d_path row)]> restored)
      end
  end.

Definition RestoreFolderFailed : ErrorInfo :=
  mkErrorInfo InternalError "Failed to restore folder".

(** Passes until no folder remains; a pass that restores none is an error, so one
    pass per folder is enough. *)
Fixpoint restore_folders (fuel : nat) (user_id folder_depth root_depth : Z)
    (remaining : list SnapshotFolder) (restored : restored_folders)
  : M Database (Result restored_folders) :=
  match remaining, fuel with
  | [], _ => mret (Ok restored)
  | _, O => mret (Err RestoreFolderFailed)
  | _, S fuel =>
      '(waiting, restored') ← restore_pass user_id folder_depth root_depth remaining restored;
      if Nat.eqb (length waiting) (length remaining) then mret (Err RestoreFolderFailed)
      else restore_folders fuel user_id folder_depth root_depth waiting restored'
  end.

Definition restored_file_row (user_id : Z) (parent : Z * string) (f : SnapshotFile) : FileRow :=
  mkFileRow user_id (sn_content_id f) parent.1 (sn_name f) (sn_extension f) (i64 (sn_size f))
    (sn_mime_type f) (parent.2 ++ sn_name f) (Z.b2z (sn_is_favorite f))
    (i32 (sn_download_count f)) date date.

Fixpoint restore_files (user_id : Z) (files : list SnapshotFile) (restored : restored_folders)
  : M Database (Result unit) :=
  match files with
  | [] => mret (Ok tt)
  | f :: files =>
      match restored !! sn_folder_id f with
      | None => mret (Err RestoreFolderFailed)
      | Some parent =>
          _ ← exec (insert_file (restored_file_row user_id parent f));
          restore_files user_id files restored
      end
  end.

Definition restore_tree (user_id folder_depth : Z) (snapshot : option FolderTreeSnapshot)
    (root : Z * string) : M Database (Result unit) :=
  match snapshot with
  | None => mret (Ok tt)
  | Some snapshot =>
      let* restored := restore_folders (length (ft_folders snapshot)) user_id folder_depth
                         (sd_depth (ft_root snapshot)) (ft_folders snapshot)
                         {[ sd_id (ft_root snapshot) := root ]} in
      restore_files user_id (ft_files snapshot) restored
  end.

Definition restore_folder_body (trash_id user_id candidate_index : Z)
  : M Database (Result RestoredItem) :=
  locked_trash_item ← FetchLifecycleRowForUpdate trash_id user_id;
  match (locked_trash_item : option TrashLifecycleRecord) with
  | None => mret (Err TrashItemNotFound)
  | Some item =>
      if negb (tr_item_type item =? "folder") then mret (Err TrashItemNotFound)
      else
      match ParseFolderTreeSnapshot real_text (tr_item_data item) with
      | None => raise (RuntimeError "jsoncpp")
      | Some snapshot =>
          let restored_name := restored_folder_name (tr_item_name item) candidate_index in
          target_parent_id ← restore_target (tr_original_folder_id item) user_id;
          _ ← Folders.AcquireNameLock user_id target_parent_id restored_name;
          '(target_parent_id, parent) ←
             lock_target Folders.AcquireNameLock target_parent_id user_id restored_name;
          occupied ← Folders.NameExistsExcluding restored_name target_parent_id user_id 0;
          if (occupied : bool) then mret (Err FolderNameOccupied)
          else
            let restored_path := fl_path parent ++ restored_name ++ "/" in
            let folder_depth := u32 (fl_depth parent + 1) in
            let item_count := match snapshot with
                              | Some s => sd_item_count (ft_root s) | None => 0%Z end in
            inserted_root ← exec (insert_folder
              (mkFolderRow user_id target_parent_id restored_name restored_path
                 (i32 folder_depth) (i32 item_count) date date));
            let restored_folder_id := (inserted_root : folder).1 in
            let* _ := restore_tree user_id folder_depth snapshot
                        (restored_folder_id, restored_path) in
            let* _ := finish_restore RestoreFolderFailed target_parent_id user_id
                        (tr_id item) "folder" in
            mret (Ok (mkRestoredItem restored_folder_id restored_path))
      end
  end.

(** The names tried, one transaction each, until one is free. *)
Fixpoint try_candidates (failed occupied : ErrorInfo)
    (body : Z → M Database (Result RestoredItem)) (candidates : list Z)
  : M Database (Result RestoredItem) :=
  match candidates with
  | [] => mret (Err failed)
  | candidate_index :: candidates =>
      transaction_result ← Run failed (body candidate_index);
      match (transaction_result : Result RestoredItem) with
      | Ok restored => mret (Ok restored)
      | Err e => if decide (e = occupied) then try_candidates failed occupied body candidates
                 else mret (Err e)
      end
  end.

Definition candidate_indices : list Z := seqZ 0 1001.

Definition RestoreFile (trash_id user_id : Z) : M Database BatchResultItem :=
  restored ← try_candidates RestoreFileFailed FilenameOccupied
               (restore_file_body trash_id user_id) candidate_indices;
  mret (match (restored : Result RestoredItem) with
        | Err e => failed_item trash_id (code e) (message e)
        | Ok r => mkBatchResultItem trash_id "success" None None (Some (ri_id r)) None
                    (Some (ri_path r)) None
        end).

Definition RestoreFolder (trash_id user_id : Z) : M Database BatchResultItem :=
  restored ← try_candidates RestoreFolderFailed FolderNameOccupied
               (restore_folder_body trash_id user_id) candidate_indices;
  mret (match (restored : Result RestoredItem) with
        | Err e => failed_item trash_id (code e) (message e)
        | Ok r => mkBatchResultItem trash_id "success" None None None (Some (ri_id r))
                    (Some (ri_path r)) None
        end).

Definition restore_one (items : list TrashLifecycleRecord) (user_id trash_id : Z)
  : M Database BatchResultItem :=
  match batch_item items user_id trash_id with
  | None => mret (failed_item trash_id ResourceNotFound "Trash item not found")
  | Some item =>
      if tr_item_type item =? "file" then RestoreFile (tr_id item) user_id
      else if tr_item_type item =? "folder" then RestoreFolder (tr_id item) user_id
      else mret (failed_item trash_id ValidationFailed "Unknown item type")
  end.

Definition Restore (user_id : Z) (trash_ids : list Z) : M Database (Result BatchResponse) :=
  batch trash_ids
    (mkErrorInfo InternalError "Failed to restore trash items, please try again later")
    (λ items, restore_one items user_id).

(** ** Listing *)

Definition ListFailed : ErrorInfo :=
  mkErrorInfo InternalError "Failed to fetch trash list, please try again later".

Definition ListTrash (user_id page page_size : Z) : M Database (Result (list TrashListRecord)) :=
  catch_all
    (records ← FetchListPageForUser user_id page_size (i32 ((page - 1) * page_size));
     mret (Ok records))
    (mret (Err ListFailed)).

Definition Count (user_id : Z) : M Database (Result Z) :=
  catch_db (count ← CountForUser user_id; mret (Ok count))
    (mret (Err (mkErrorInfo InternalError "Failed to count trash items"))).
End trash.

(** ** Lemmas: bodies of transactions *)

Local Close Scope string_scope.

#[export] Instance tx_body_insert_trash items u : TxBody (InsertTrashRecords items u).
Proof. unfold InsertTrashRecords. destruct items; solve_tx_body. Qed.

#[export] Instance tx_body_delete_files ids : TxBody (DeleteFilesByIds ids).
Proof. unfold DeleteFilesByIds. destruct ids; solve_tx_body. Qed.

#[export] Instance tx_body_delete_folders ids : TxBody (DeleteFoldersByIds ids).
Proof. unfold DeleteFoldersByIds. destruct ids; solve_tx_body. Qed.

#[export] Instance tx_body_fetch_owned_folders chunks u :
  TxBody (FetchOwnedFolders_loop chunks u).
Proof. induction chunks; simpl; solve_tx_body. Qed.

#[export] Instance tx_body_fetch_folders_by_ids ids u :
  TxBody (FetchOwnedFoldersByIdsForUpdate ids u).
Proof. apply tx_body_fetch_owned_folders. Qed.

#[export] Instance tx_body_cleanup_links ty chunks : TxBody (cleanup_links ty chunks).
Proof. induction chunks; simpl; solve_tx_body. Qed.

#[export] Instance tx_body_cancel_loop chunks : TxBody (cancel_loop chunks).
Proof. induction chunks; simpl; solve_tx_body. Qed.

#[export] Instance tx_body_cleanup files folders :
  TxBody (CleanupShareLinksForMovedItems files folders).
Proof. unfold CleanupShareLinksForMovedItems. solve_tx_body. Qed.

#[export] Instance tx_body_item_count f u n t : TxBody (ApplyItemCountDelta f u n t).
Proof. apply tx_body_exec. Qed.

#[export] Instance tx_body_apply_deltas u t l : TxBody (apply_deltas u t l).
Proof. induction l as [|[] l IH]; simpl; solve_tx_body. Qed.

#[export] Instance tx_body_lock_folders it n ids u locked :
  TxBody (lock_folders it n ids u locked).
Proof. revert locked. induction n as [|n IH]; intros locked; simpl; solve_tx_body. Qed.

#[export] Instance tx_body_lock_all_folders it ids u : TxBody (lock_all_folders it ids u).
Proof.
  unfold lock_all_folders. split; intros s sch snap cs; cbn [db].
  - apply (tx_body_sticky (TxBody := tx_body_lock_folders _ _ _ _ _)).
  - apply (tx_body_clean (TxBody := tx_body_lock_folders _ _ _ _ _)).
Qed.

#[export] Instance tx_body_delete_items s t u dl : TxBody (delete_items s t u dl).
Proof. unfold delete_items. case_match; solve_tx_body. Qed.

#[export] Instance tx_body_move it s t fs ds u : TxBody (move_body it s t fs ds u).
Proof. unfold move_body. solve_tx_body. Qed.

#[export] Instance tx_body_collect rt items req r : TxBody (collect_refund rt items req r).
Proof. revert r. induction items; intros r; simpl; solve_tx_body. Qed.

#[export] Instance tx_body_or_throw {A} (m : M Database (Result A)) :
  TxBody m → TxBody (or_throw m).
Proof. intros. unfold or_throw. solve_tx_body. Qed.

#[export] Instance tx_body_adjust u n : TxBody (AdjustUsedStorageChecked u n).
Proof. apply (tx_body_account (Account.Adjust n)). Qed.

#[export] Instance tx_body_return_bytes l : TxBody (return_bytes l).
Proof. induction l as [|[] l IH]; simpl; solve_tx_body. Qed.

#[export] Instance tx_body_permanent rt items req : TxBody (permanent_delete_body rt items req).
Proof. unfold permanent_delete_body. solve_tx_body. Qed.

#[export] Instance tx_body_restore_target f u : TxBody (restore_target f u).
Proof. unfold restore_target, FindOwnedFolder. solve_tx_body. Qed.

Lemma tx_body_name_target lock f u n : (∀ a b c, TxBody (lock a b c)) →
  TxBody (lock_target lock f u n).
Proof. intros. unfold lock_target, FindOwnedFolderForUpdate. solve_tx_body. Qed.
#[export] Instance tx_body_lock_file_target f u n : TxBody (lock_target Files.AcquireNameLock f u n).
Proof. apply tx_body_name_target. intros. unfold Files.AcquireNameLock. apply _. Qed.
#[export] Instance tx_body_lock_folder_target f u n :
  TxBody (lock_target Folders.AcquireNameLock f u n).
Proof. apply tx_body_name_target. intros. unfold Folders.AcquireNameLock. apply _. Qed.

#[export] Instance tx_body_finish_restore t e f u i ty : TxBody (finish_restore t e f u i ty).
Proof. unfold finish_restore. solve_tx_body. Qed.

#[export] Instance tx_body_restore_file rt t i u n : TxBody (restore_file_body rt t i u n).
Proof.
  unfold restore_file_body, FetchLifecycleRowForUpdate, Files.AcquireNameLock,
    Files.NameExistsExcluding. solve_tx_body.
Qed.

#[export] Instance tx_body_restore_pass t u a b l m : TxBody (restore_pass t u a b l m).
Proof. revert m. induction l; intros m; simpl; solve_tx_body. Qed.

#[export] Instance tx_body_restore_folders t n u a b l m : TxBody (restore_folders t n u a b l m).
Proof. revert l m. induction n; intros [|f l] m; simpl; solve_tx_body. Qed.

#[export] Instance tx_body_restore_files t u l m : TxBody (restore_files t u l m).
Proof. induction l; simpl; solve_tx_body. Qed.

#[export] Instance tx_body_restore_tree t u n s r : TxBody (restore_tree t u n s r).
Proof. unfold restore_tree. solve_tx_body. Qed.

#[export] Instance tx_body_restore_folder rt t i u n : TxBody (restore_folder_body rt t i u n).
Proof.
  unfold restore_folder_body, FetchLifecycleRowForUpdate, Folders.AcquireNameLock,
    Folders.NameExistsExcluding. solve_tx_body.
Qed.

(** [in_transaction] leaves the session as [Run] would. *)
Definition as_result {A} (body : M Database (option A)) : M Database (Result A) :=
  x ← body; mret (match (x : option A) with Some a => Ok a | None => Err (err InternalError) end).

Lemma in_transaction_Run {A} (empty : A) (body : M Database (option A)) e :
  (in_transaction empty body e).2 = (Run (err InternalError) (as_result body) e).2.
Proof.
  unfold in_transaction, Run, as_result, mbind, M_bind.
  destruct (Begin e) as [[[]|x] e1]; [|done].
  destruct (body e1) as [[[a|]|x] e2]; cbn; [|done..].
  by destruct (Commit e2) as [[] e3].
Qed.

Lemma respects_in_transaction R `{!PreOrder R} {A} (I : Database → Prop) (empty : A)
    (body : M Database (option A)) : TxBody body →
  (∀ s a s', I s → runs body s s (Some a) s' → I s' ∧ R s s') →
  Respects R I (in_transaction empty body).
Proof.
  intros Hb Hc e Ht HI Hst. rewrite in_transaction_Run.
  apply (respects_Run R I (err InternalError) (as_result body)); [|..|done|done|done].
  - unfold as_result. solve_tx_body.
  - intros s a s' Hs H. apply (proj1 (clean_runs _ _ _ _)) in H. unfold as_result in H. run_bind H x t H1.
    apply runs_ret in H as [E ->]. destruct x as [b|]; [|done]. by apply Hc in H1.
Qed.

(** ** Lemmas: deletions *)

Lemma runs_fetch_owned_folders ids u snap s l s' :
  runs (FetchOwnedFoldersByIdsForUpdate ids u) snap s l s' → s' = s.
Proof.
  unfold FetchOwnedFoldersByIdsForUpdate. revert l s'.
  induction (Chunks (sort_unique ids)) as [|chunk chunks IH]; intros l s'; simpl.
  - by intros [_ ->]%runs_ret.
  - intros H. run_bind H rows t H1. apply runs_query in H1 as [_ ->].
    run_bind H rest t H1. apply IH in H1 as ->. by apply runs_ret in H as [_ ->].
Qed.

Lemma runs_lock_folders it n ids u locked snap s x s' :
  runs (lock_folders it n ids u locked) snap s x s' →
  s' = s ∧ plan_shape ids u s x.1 ∧ x.2 = FilterCoveredFolderIds ids x.1 ∧
  runs (FetchBatchFolderDeletePlans it ids u) snap s x.1 s.
Proof.
  revert locked. induction n as [|n IH]; intros locked; simpl; [by intros ?%runs_raise|].
  intros H. run_bind H plans t H1. pose proof H1 as [-> Hs]%runs_fetch_plans.
  case_decide.
  - by apply runs_ret in H as [-> ->].
  - run_bind H ds t H2. apply runs_fetch_owned_folders in H2 as ->. by apply IH in H.
Qed.

Lemma refill_plans_lookup l top plans r : NoDup top →
  refill_plans l top plans !! r =
    if decide (r ∈ top) then refill l <$> plans !! r else plans !! r.
Proof.
  unfold refill_plans. revert plans. induction top as [|a top IH]; intros plans; cbn [foldl].
  - by rewrite decide_False by set_solver.
  - intros [Ha Hnd]%NoDup_cons. rewrite IH by done. destruct (decide (a = r)) as [<-|Hne].
    + rewrite decide_False by done. rewrite (decide_True (P := a ∈ a :: top)) by (by left).
      destruct (plans !! a) as [p|] eqn:E; simpl; by rewrite ?lookup_insert_eq, ?E.
    + assert ((match plans !! a with
               | Some plan => <[a:=refill l plan]> plans | None => plans end) !! r = plans !! r) as ->.
      { destruct (plans !! a); [by rewrite lookup_insert_ne|done]. }
      repeat case_decide; set_solver.
Qed.

Lemma plans_of_refill l top plans : NoDup top →
  plans_of top (refill_plans l top plans) = refill l <$> plans_of top plans.
Proof.
  intros Hnd. unfold plans_of. assert (∀ top', top' ⊆ top →
    omap (λ id, refill_plans l top plans !! id) top' =
    refill l <$> omap (λ id, plans !! id) top') as H; [|by apply H].
  induction top' as [|a top' IH]; intros Hsub; [done|].
  assert (∀ f : Z → option FolderDeletePlan, omap f (a :: top') =
    match f a with Some p => p :: omap f top' | None => omap f top' end) as E by done.
  rewrite !E. rewrite refill_plans_lookup, decide_True by (done || set_solver).
  rewrite IH by set_solver. by destruct (plans !! a).
Qed.

Section deletion.
Context (req ids : list Z) (u : Z) (d : Database) (l : list file_row)
  (plans : gmap Z FolderDeletePlan).
Context (Hreq : NoDup req) (Hids : NoDup ids) (Hshape : plan_shape ids u d plans)
  (Hl : NoDup l.*1).

Notation top := (FilterCoveredFolderIds ids plans).
Notation dl := (deletion req l top plans).

(** The locked files of a plan. *)
Definition plan_files (r : Z) : list file_row :=
  match plans !! r with Some p => pl_files (refill l p) | None => [] end.

Lemma top_NoDup : NoDup top.
Proof. apply NoDup_ListNoDup, List.NoDup_filter, NoDup_ListNoDup, Hids. Qed.

Lemma deletion_plans : dl_plans dl = refill l <$> plans_of top plans.
Proof. unfold deletion. simpl. apply plans_of_refill, top_NoDup. Qed.

Lemma deletion_plan_files : dl_plans dl ≫= pl_files = top ≫= plan_files.
Proof.
  rewrite deletion_plans. unfold plans_of. induction top as [|r rs IH]; [done|].
  change ((r :: rs) ≫= plan_files) with (plan_files r ++ (rs ≫= plan_files)).
  rewrite <- IH. unfold plan_files at 1. simpl. by destruct (plans !! r).
Qed.

Lemma elem_of_plan_files r f : f ∈ plan_files r ↔
  f ∈ l ∧ ∃ p, plans !! r = Some p ∧ f_folder_id f.2 ∈ folder_ids_of p.
Proof.
  unfold plan_files. destruct (plans !! r) as [p|].
  - simpl. rewrite list_elem_of_In, List.filter_In, <- list_elem_of_In, bool_decide_eq_true.
    naive_solver.
  - rewrite elem_of_nil. naive_solver.
Qed.

(** The files of a deletion: each locked row at most once. *)
Definition deleted_files : list file_row := dl_explicit dl ++ (dl_plans dl ≫= pl_files).

Lemma elem_of_explicit f : f ∈ dl_explicit dl ↔
  f ∈ l ∧ f.1 ∈ req ∧ f ∉ dl_plans dl ≫= pl_files.
Proof.
  unfold deletion at 1. simpl. rewrite list_elem_of_omap. destruct f as [i f]. simpl.
  assert (∀ g, (i, g) ∈ l ↔ (list_to_map l : gmap Z FileRow) !! i = Some g) as Hmap.
  { intros g. by apply elem_of_list_to_map. }
  setoid_rewrite list_elem_of_In. setoid_rewrite List.filter_In.
  setoid_rewrite <- list_elem_of_In. setoid_rewrite negb_true_iff.
  setoid_rewrite bool_decide_eq_false. unfold CollectCoveredFileIds.
  setoid_rewrite elem_of_list_to_set. unfold deletion. cbn [dl_plans].
  set (ps := plans_of top (refill_plans l top plans)).
  assert (∀ f : file_row, f ∈ ps ≫= pl_files → f ∈ l) as Hsub.
  { intros g Hg. unfold ps in Hg. pose proof deletion_plan_files as E. unfold deletion in E.
    cbn [dl_plans] in E. rewrite E in Hg. apply list_elem_of_bind in Hg as (r & Hg & _).
    by apply elem_of_plan_files in Hg as [? _]. }
  split.
  - intros (j & [Hj Hc] & (g & Hg & [= <- <-])%fmap_Some). split_and!; [by apply Hmap|done|].
    intros Hf. apply Hc. apply list_elem_of_bind in Hf as (p & Hf & Hp).
    apply list_elem_of_bind. exists p. split; [|done]. apply list_elem_of_fmap. by exists (i, f).
  - intros (Hf & Hi & Hn). exists i. apply Hmap in Hf as Hf'. rewrite Hf'. split_and!; [done| |done].
    intros Hc. apply Hn. apply list_elem_of_bind in Hc as (p & Hc & Hp).
    apply list_elem_of_fmap in Hc as ([i' g] & E & Hg). simpl in E. subst i'.
    assert ((i, g) ∈ l) as Hgl by (apply Hsub, list_elem_of_bind; eauto).
    apply Hmap in Hgl. simplify_eq. apply list_elem_of_bind. eauto.
Qed.

Lemma deleted_files_locked f : f ∈ deleted_files → f ∈ l.
Proof.
  unfold deleted_files. rewrite elem_of_app, elem_of_explicit, deletion_plan_files.
  intros [[? _]|(r & Hf & _)%list_elem_of_bind]; [done|]. by apply elem_of_plan_files in Hf as [? _].
Qed.

Lemma explicit_NoDup : NoDup (dl_explicit dl).*1.
Proof.
  unfold deletion. simpl.
  assert (∀ k : list Z, NoDup k → NoDup (omap (λ id, pair id <$>
    (list_to_map l : gmap Z FileRow) !! id) k).*1) as H.
  { induction 1 as [|i k Hi _ IH]; simpl; [constructor|].
    destruct ((list_to_map l : gmap Z FileRow) !! i) as [f|]; simpl; [|done].
    constructor; [|done]. intros (f' & E & Hf')%list_elem_of_fmap.
    apply list_elem_of_omap in Hf' as (j & Hj & (g & _ & ->)%fmap_Some). by simplify_eq/=. }
  apply H, NoDup_ListNoDup, List.NoDup_filter, NoDup_ListNoDup, Hreq.
Qed.

Lemma locked_fst f g : f ∈ l → g ∈ l → f.1 = g.1 → f = g.
Proof.
  destruct f as [i f], g as [j g]. simpl. intros Hf Hg <-.
  apply elem_of_list_to_map in Hf; [|done]. apply elem_of_list_to_map in Hg; [|done]. congruence.
Qed.

Lemma deleted_files_NoDup : NoDup deleted_files.*1.
Proof.
  apply NoDup_fmap_2_strong.
  - intros f g Hf%deleted_files_locked Hg%deleted_files_locked. by apply locked_fst.
  - unfold deleted_files. apply NoDup_app. split_and!.
    + eapply NoDup_fmap_1, explicit_NoDup.
    + intros f Hf%elem_of_explicit. tauto.
    + rewrite deletion_plan_files. apply NoDup_bind.
      * intros r1 r2 f H1 H2 (_ & p1 & Hp1 & Hf1)%elem_of_plan_files
          (_ & p2 & Hp2 & Hf2)%elem_of_plan_files. by eapply top_plans_disjoint.
      * intros r _. unfold plan_files. destruct (plans !! r); [|constructor]. simpl.
        apply NoDup_ListNoDup, List.NoDup_filter, NoDup_ListNoDup. by eapply NoDup_fmap_1.
      * apply top_NoDup.
Qed.

Lemma elem_of_files_to_delete i : i ∈ file_ids_to_delete dl ↔ i ∈ deleted_files.*1.
Proof.
  unfold file_ids_to_delete, deleted_files.
  rewrite sort_unique_elem, fmap_app, !elem_of_app, list_elem_of_bind.
  setoid_rewrite list_elem_of_fmap. setoid_rewrite list_elem_of_bind. naive_solver.
Qed.
End deletion.
