(* ===== verification/TrashMoves.v ===== *)
(** * Moving to the trash: what the transaction does

    The run of the body of [TrashService::MoveToTrash], taken apart: the plans it
    fetches, the files it locks, the entries it inserts and the rows it deletes, with
    statements in between that touch neither files nor the trash ([quiet]). *)

From S2P Require Import Prelude Errors Storage Db Rely UploadState Json Schema Batch Names Quota.
From S2P Require Import Files Folders DeletePlans Trash.

Local Open Scope Z_scope.

(** ** Rows deleted *)

Lemma delete_rows_lookup {V} ids (t : gmap Z V) i :
  (delete_rows ids t).2 !! i = if decide (i ∈ ids) then None else t !! i.
Proof.
  revert t. induction ids as [|id ids IH]; intros t; simpl; [done|].
  specialize (IH (delete id t)). destruct (delete_rows ids (delete id t)) as [n t'].
  simpl in *. rewrite IH. destruct (decide (id = i)) as [<-|Hne].
  - rewrite lookup_delete_eq, (decide_True (P := id ∈ id :: ids)) by (by left). by case_decide.
  - rewrite lookup_delete_ne by done. repeat case_decide; set_solver.
Qed.

(** As many rows deleted as identifiers: all different and all present. *)
Lemma delete_rows_count {V} ids (t : gmap Z V) :
  (delete_rows ids t).1 <= Z.of_nat (length ids) ∧
  ((delete_rows ids t).1 = Z.of_nat (length ids) →
     NoDup ids ∧ ∀ i, i ∈ ids → is_Some (t !! i)).
Proof.
  revert t. induction ids as [|id ids IH]; intros t; simpl.
  - split; [done|]. intros _. split; [constructor|]. by intros i ?%elem_of_nil.
  - specialize (IH (delete id t)). destruct (delete_rows ids (delete id t)) as [n t'].
    simpl in *. destruct IH as [Hle Heq]. destruct (t !! id) as [v|] eqn:E; simpl; (split; [lia|]);
      intros Hn; [|lia]. destruct Heq as [Hnd Hin]; [lia|].
    assert (∀ i, i ∈ ids → i ≠ id ∧ is_Some (t !! i)) as Hin'.
    { intros i Hi. specialize (Hin i Hi) as [w Hw]. apply lookup_delete_Some in Hw as [? ?]. eauto. }
    split.
    + constructor; [|done]. intros Hid%Hin'. naive_solver.
    + intros i [->|Hi]%elem_of_cons; [eauto|by apply Hin'].
Qed.

(** ** Quiet statements *)

(** What the item count of a folder does not concern. *)
Definition folder_core (g : FolderRow) : FolderRow :=
  g <| d_item_count := 0 |> <| d_updated_at := 0 |>.

(** Statements that concern neither files nor the trash. *)
Record quiet (d d' : Database) : Prop := {
  qu_users : users d' = users d;
  qu_contents : file_contents d' = file_contents d;
  qu_files : files d' = files d;
  qu_tasks : upload_tasks d' = upload_tasks d;
  qu_trash : trash d' = trash d;
  qu_seqs : files_id_seq d' = files_id_seq d ∧ file_contents_id_seq d' = file_contents_id_seq d ∧
            folders_id_seq d' = folders_id_seq d ∧ trash_id_seq d' = trash_id_seq d;
  qu_folders : ∀ i, folder_core <$> folders d' !! i = folder_core <$> folders d !! i
}.

#[export] Instance quiet_preorder : PreOrder quiet.
Proof.
  split.
  - intros d. by split.
  - intros d1 d2 d3 [? ? ? ? ? (?&?&?&?) F1] [? ? ? ? ? (?&?&?&?) F2]. split; try congruence.
    split_and!; congruence.
Qed.

Lemma quiet_item_count f u n t snap s b s' :
  runs (ApplyItemCountDelta f u n t) snap s b s' → quiet s s'.
Proof.
  intros H%runs_exec. unfold update_folder in H.
  destruct (owned_folder f u s) as [[i g]|] eqn:Ho; [|simplify_eq; reflexivity].
  apply bind_Some in H as (g' & Hg & H). destruct (check_folder g' && _); [|done].
  injection H as _ <-. apply fmap_Some in Hg as (h & Hg & ->).
  apply bind_Some in Hg as (k & _ & [= <-]).
  apply owned_folder_Some in Ho as (E & Hf & _). simpl in *. subst. split; try done.
  intros j. cbn. destruct (decide (f = j)) as [<-|Hne].
  - by rewrite lookup_insert_eq, Hf.
  - by rewrite lookup_insert_ne.
Qed.

Lemma quiet_apply_deltas u t l snap s b s' :
  runs (apply_deltas u t l) snap s b s' → quiet s s'.
Proof.
  revert s. induction l as [|[p n] l IH]; intros s; simpl.
  - intros [_ ->]%runs_ret. reflexivity.
  - intros H. run_bind H ok s1 H1. apply quiet_item_count in H1. destruct ok.
    + apply IH in H. by etrans.
    + by apply runs_ret in H as [_ ->].
Qed.

Lemma quiet_shares s m n : quiet s (s <| share_files := m |> <| shares := n |>).
Proof. by split. Qed.

Lemma quiet_cleanup_links ty chunks snap s b s' :
  runs (cleanup_links ty chunks) snap s b s' → quiet s s'.
Proof.
  revert s b s'. induction chunks as [|chunk chunks IH]; intros s b s'; simpl.
  - intros [_ ->]%runs_ret. reflexivity.
  - intros H. run_bind H l s1 H1. apply runs_query in H1 as [_ ->].
    run_bind H n s2 H2. apply runs_exec in H2. injection H2 as _ <-.
    run_bind H x s3 H3. apply IH in H3. destruct x. apply runs_ret in H as [_ ->].
    etrans; [|exact H3]. by split.
Qed.

Lemma quiet_cancel_loop chunks snap s b s' : runs (cancel_loop chunks) snap s b s' → quiet s s'.
Proof.
  revert s b s'. induction chunks as [|chunk chunks IH]; intros s b s'; simpl.
  - intros [_ ->]%runs_ret. reflexivity.
  - intros H. run_bind H n s2 H2. apply runs_exec in H2. injection H2 as _ <-.
    run_bind H x s3 H3. apply IH in H3. apply runs_ret in H as [_ ->].
    etrans; [|exact H3]. by split.
Qed.

Lemma quiet_cleanup files folders snap s b s' :
  runs (CleanupShareLinksForMovedItems files folders) snap s b s' → quiet s s'.
Proof.
  unfold CleanupShareLinksForMovedItems. intros H.
  run_bind H x s1 H1. apply quiet_cleanup_links in H1. destruct x as [l n].
  run_bind H y s2 H2. apply quiet_cleanup_links in H2. destruct y as [l' n'].
  run_bind H k s3 H3. apply quiet_cancel_loop in H3. apply runs_ret in H as [_ ->].
  etrans; [exact H1|]. by etrans.
Qed.


(** ** The body taken apart *)

Section moves.
Context (iteration : list Z → list Z) (toDbStringLocal : Z → string) (date : Z).

(** A run of the body that succeeds. *)
Record moved (fs ds : list Z) (u : Z) (s : Database) (dl : Deletion) (s' : Database)
    (plans : gmap Z FolderDeletePlan) (l : list file_row) (t t' : Database) : Prop := {
  mv_shape : plan_shape ds u s plans;
  mv_plans : runs (FetchBatchFolderDeletePlans iteration ds u) s s plans s;
  mv_NoDup : NoDup l.*1;
  mv_locked : ∀ f : file_row, f ∈ l ↔
    (f.1 ∈ fs ∨ f.1 ∈ CollectCoveredFileIds (FilterCoveredFolderIds ds plans) plans) ∧
    files s !! f.1 = Some f.2 ∧ f_user_id f.2 = u;
  mv_deletion : dl = deletion fs l (FilterCoveredFolderIds ds plans) plans;
  mv_some : trash_items toDbStringLocal dl ≠ [];
  mv_insert : insert_trash u (trash_items toDbStringLocal dl) s = Some (tt, t);
  mv_quiet : quiet t t';
  mv_result : s' = t' <| files := (delete_rows (file_ids_to_delete dl) (files t')).2 |>
                      <| upload_tasks ::= fmap (forget_completed (file_ids_to_delete dl)) |>
                      <| folders := (delete_rows (folder_ids_to_delete dl) (folders t')).2 |>
}.

Lemma runs_delete_files ids snap s n s' : runs (DeleteFilesByIds ids) snap s n s' →
  s' = s <| files := (delete_rows ids (files s)).2 |>
         <| upload_tasks ::= fmap (forget_completed ids) |>.
Proof.
  unfold DeleteFilesByIds. destruct ids as [|i ids].
  - intros [_ ->]%runs_ret. destruct s; unfold set; cbn. f_equal. symmetry.
    rewrite <- (map_fmap_id upload_tasks) at 2. apply map_fmap_ext. intros i t _.
    unfold forget_completed. by destruct (t_completed_file_id t).
  - rewrite runs_catch_db by solve_tx_body. intros H%runs_exec.
    destruct (delete_rows _ _) as [k tab]. by injection H as _ <-.
Qed.

Lemma runs_delete_folders ids snap s n s' : runs (DeleteFoldersByIds ids) snap s n s' →
  s' = s <| folders := (delete_rows ids (folders s)).2 |>.
Proof.
  unfold DeleteFoldersByIds. destruct ids as [|i ids].
  - intros [_ ->]%runs_ret. by destruct s.
  - rewrite runs_catch_db by solve_tx_body. intros H%runs_exec.
    destruct (delete_rows _ _) as [k tab]. by injection H as _ <-.
Qed.

Lemma runs_insert_records items u snap s s' : items ≠ [] →
  runs (InsertTrashRecords items u) snap s true s' → insert_trash u items s = Some (tt, s').
Proof.
  unfold InsertTrashRecords. destruct items; [done|]. intros _.
  rewrite runs_catch_db by solve_tx_body. intros H. run_bind H y t1 H2.
  apply runs_exec in H2. apply runs_ret in H as [_ ->]. by destruct y.
Qed.

Lemma runs_delete_items u dl0 snap s dl s' :
  runs (delete_items toDbStringLocal date u dl0) snap s (Ok dl) s' →
  dl = dl0 ∧ trash_items toDbStringLocal dl ≠ [] ∧ ∃ t t',
    insert_trash u (trash_items toDbStringLocal dl) s = Some (tt, t) ∧ quiet t t' ∧
    s' = t' <| files := (delete_rows (file_ids_to_delete dl) (files t')).2 |>
            <| upload_tasks ::= fmap (forget_completed (file_ids_to_delete dl)) |>
            <| folders := (delete_rows (folder_ids_to_delete dl) (folders t')).2 |>.
Proof.
  unfold delete_items. intros H. case_decide as Hne; [by apply runs_ret in H as [? _]|].
  run_bind H ok t H1. destruct ok; cbn [negb] in H; [|by apply runs_ret in H as [? _]].
  apply runs_insert_records in H1; [|done].
  run_bind_result H w t1 H2. apply quiet_apply_deltas in H2.
  run_bind H st t2 H3. apply quiet_cleanup in H3.
  run_bind H n t3 H4. apply runs_delete_files in H4 as ->.
  destruct (negb _); [by apply runs_ret in H as [? _]|].
  run_bind H n' t4 H5. apply runs_delete_folders in H5 as ->.
  destruct (negb _); [by apply runs_ret in H as [? _]|]. apply runs_ret in H as [[= ->] ->].
  split_and!; [done|done|]. exists t, t2. split_and!; [done|by etrans|done].
Qed.

Lemma runs_move_body fs ds u s dl s' :
  runs (move_body iteration toDbStringLocal date fs ds u) s s (Ok dl) s' →
  ∃ plans l t t', moved fs ds u s dl s' plans l t t'.
Proof.
  unfold move_body. intros H. run_bind H x t H1.
  apply (runs_lock_folders _ (S (size (folders s)))) in H1 as (-> & Hshape & Htop & Hf). destruct x as [plans top].
  cbn [fst snd] in *. subst top. cbv zeta in H.
  run_bind H l t H1. apply runs_fetch_owned_files in H1 as (-> & Hl & Hrows).
  apply runs_delete_items in H as (-> & Hne & t & t' & Hins & Hq & Hs').
  exists plans, l, t, t'. split; try done. intros f. rewrite Hrows, sort_unique_elem, elem_of_app, elem_of_elements.
  done.
Qed.
End moves.
