(* ===== verification/TrashTrees.v ===== *)
(** * Moving trees to the trash

    What [TrashService::MoveToTrash] removes and what it keeps: whole trees go when no
    requested folder lies inside another, and every file removed can be read back from
    the entry it went to. *)

From S2P Require Import Prelude Errors Storage Db Rely UploadState Json Schema Batch Names Quota.
From S2P Require Import Files Folders DeletePlans Trash TrashMoves.

Local Open Scope Z_scope.

Section trees.
Context (iteration : list Z → list Z) (toDbStringLocal : Z → string) (date : Z).

(** A success, whatever happened on the way, is the fault-free run of the body on the
    database the transaction began on. *)
Lemma move_succeeds request u d sch cs res e' :
  MoveToTrash iteration toDbStringLocal date request u (mkEnv d sch AutoCommit cs) =
    (Ret (Ok res), e') →
  ∃ dl plans l t t', moved iteration toDbStringLocal (sort_unique (mt_file_ids request))
    (sort_unique (mt_folder_ids request)) u (arrive sch d) dl (db e') plans l t t'.
Proof.
  unfold MoveToTrash. cbv zeta. intros H.
  destruct (Run_spec (err InternalError) (move_body iteration toDbStringLocal date
    (sort_unique (mt_file_ids request)) (sort_unique (mt_folder_ids request)) u) d sch cs _)
    as (o & s' & sch' & Hrun & _ & Ho).
  unfold mbind, M_bind in H. rewrite Hrun in H. cbn in H.
  destruct o as [dl|e]; [|done]. injection H as _ <-.
  destruct Ho as [[_ [=]]|(a & [[= ->]|[=]] & Hc)]. apply (proj1 (clean_runs _ _ _ _)) in Hc.
  exists a. by apply runs_move_body in Hc.
Qed.

(** Entries are added under new identifiers. *)
Lemma insert_trash_frame user items d d' : insert_trash user items d = Some (tt, d') →
  d' = d <| trash := trash d' |> <| trash_id_seq := trash_id_seq d' |>.
Proof.
  revert d. induction items as [|item items IH]; intros d; cbn [insert_trash].
  - intros [= <-]. by destruct d.
  - intros (id & _ & H)%bind_Some. destruct (check_trash _ d); [|done].
    apply IH in H. by rewrite H.
Qed.

Lemma insert_trash_entries user items d d' : insert_trash user items d = Some (tt, d') →
  (∀ i x, trash d !! i = Some x → i < trash_id_seq d) →
  (∀ i x, trash d !! i = Some x → trash d' !! i = Some x) ∧
  ∀ item, item ∈ items → ∃ k, trash d !! k = None ∧ trash d' !! k = Some (trash_row user item d).
Proof.
  revert d. induction items as [|item items IH]; intros d; cbn [insert_trash].
  - intros [= <-] _. split; [done|]. by intros ? ?%elem_of_nil.
  - intros (id & [-> _]%bigint_Some & H)%bind_Some Hkeys. destruct (check_trash _ d); [|done].
    assert (trash d !! trash_id_seq d = None) as Hfresh.
    { apply eq_None_not_Some. intros [x Hx]. apply Hkeys in Hx. lia. }
    apply IH in H as [Hkeep Hin]; cbn in *.
    2: { intros i x [[<- _]|[_ Hx]]%lookup_insert_Some; [lia|]. apply Hkeys in Hx. lia. }
    split.
    + intros i x Hx. apply Hkeep. rewrite lookup_insert_ne; [done|]. intros <-. congruence.
    + intros it [->|Hit]%elem_of_cons.
      * exists (trash_id_seq d). split; [done|]. apply Hkeep. by rewrite lookup_insert_eq.
      * destruct (Hin it Hit) as (k & Hk & Hrow). exists k. split; [|done].
        by apply lookup_insert_None in Hk as [? _].
Qed.

(** ** Plans of folders that do not lie in one another *)

Definition not_nested (ids : list Z) (u : Z) (s : Database) : Prop :=
  ∀ r r', r ∈ ids → r' ∈ ids → r ≠ r' → ¬ descends s u r r'.

Definition disjoint_plans (plans : gmap Z FolderDeletePlan) : Prop :=
  ∀ r1 r2 p1 p2 k, plans !! r1 = Some p1 → plans !! r2 = Some p2 →
    k ∈ folder_ids_of p1 → k ∈ folder_ids_of p2 → r1 = r2.

Lemma shape_disjoint ids u s plans :
  plan_shape ids u s plans → not_nested ids u s → disjoint_plans plans.
Proof.
  intros Hs Hn r1 r2 p1 p2 k Hp1 Hp2.
  rewrite (plan_shape_ids _ _ _ _ _ _ Hs Hp1), (plan_shape_ids _ _ _ _ _ _ Hs Hp2).
  intros [_ Hd1] [_ Hd2]. destruct (decide (r1 = r2)) as [|Hne]; [done|exfalso].
  pose proof (Hs r1) as Hs1. pose proof (Hs r2) as Hs2. rewrite Hp1 in Hs1. rewrite Hp2 in Hs2.
  destruct Hs1 as [H1 _], Hs2 as [H2 _].
  destruct (descends_linear _ _ _ _ _ Hd1 Hd2) as [Hd|Hd]; [by apply (Hn r1 r2)|].
  by apply (Hn r2 r1); [..|congruence|].
Qed.

Lemma top_not_nested ids u s plans r : plan_shape ids u s plans → not_nested ids u s →
  r ∈ ids → is_Some (plans !! r) → r ∈ FilterCoveredFolderIds ids plans.
Proof.
  intros Hs Hn Hr Hp. apply elem_of_FilterCovered. split_and!; [done..|].
  intros r' p' Hp' Hne Hin. apply (plan_shape_ids _ _ _ _ _ _ Hs Hp') in Hin as [_ Hd].
  pose proof (Hs r') as Hs'. rewrite Hp' in Hs'. by apply (Hn r' r); [apply Hs'|..].
Qed.

Context (Hit : ∀ l, iteration l ≡ₚ l).

(** Then the order of iteration does not matter. *)
Lemma matched_root_unique plans r p k : disjoint_plans plans → plans !! r = Some p →
  k ∈ folder_ids_of p → matched_root iteration plans k = r.
Proof.
  intros Hd Hp Hk. unfold matched_root.
  match goal with |- default _ (List.find ?P ?l) = _ => set (test := P); set (keys := l) end.
  assert (r ∈ keys) as Hr.
  { unfold keys. rewrite Hit. apply list_elem_of_fmap. exists (r, p). split; [done|].
    by apply elem_of_map_to_list. }
  destruct (List.find test keys) as [r'|] eqn:E.
  - apply List.find_some in E as [_ E]. unfold test in E. simpl.
    destruct (plans !! r') as [p'|] eqn:E'; [|done]. rewrite bool_decide_eq_true in E.
    by eapply Hd.
  - apply List.find_none with (x := r) in E; [|by apply list_elem_of_In].
    unfold test in E. rewrite Hp in E. by rewrite bool_decide_eq_true_2 in E.
Qed.

Lemma add_file_folder_ids plans f r p : add_file iteration plans f !! r = Some p →
  ∃ p0, plans !! r = Some p0 ∧ folder_ids_of p = folder_ids_of p0.
Proof.
  intros H. pose proof (add_file_folders iteration [f] plans r) as E. simpl in E.
  rewrite H in E. destruct (plans !! r) as [p0|]; [|done]. exists p0. split; [done|].
  unfold folder_ids_of. by injection E as _ ->.
Qed.

Lemma add_files_elem fs plans r p f : disjoint_plans plans → plans !! 0 = None →
  foldl (add_file iteration) plans fs !! r = Some p →
  (f ∈ fs ∧ f_folder_id f.2 ∈ folder_ids_of p) ∨
    (∃ p0, plans !! r = Some p0 ∧ f ∈ pl_files p0) → f ∈ pl_files p.
Proof.
  revert plans. induction fs as [|a fs IH]; intros plans Hd H0; cbn [foldl].
  - intros Hp [[?%elem_of_nil _]|(p0 & Hp0 & Hf)]; [done|]. by simplify_eq.
  - intros Hp Hf.
    assert (disjoint_plans (add_file iteration plans a)) as Hd'.
    { intros r1 r2 p1 p2 k (q1 & Hq1 & E1)%add_file_folder_ids (q2 & Hq2 & E2)%add_file_folder_ids.
      rewrite E1, E2. by eapply Hd. }
    assert (add_file iteration plans a !! 0 = None) as H0'.
    { apply eq_None_not_Some. intros [q Hq]. apply add_file_folder_ids in Hq as (q0 & ? & _).
      congruence. }
    apply (IH _ Hd' H0' Hp). destruct Hf as [[[->|Hf]%elem_of_cons Hk]|(p0 & Hp0 & Hf)].
    + right. assert (∃ p0, plans !! r = Some p0 ∧ folder_ids_of p = folder_ids_of p0)
        as (p0 & Hp0 & E).
      { pose proof (add_file_folders iteration (a :: fs) plans r) as E. cbn [foldl] in E.
        rewrite Hp in E. destruct (plans !! r) as [p0|]; [|done]. exists p0. split; [done|].
        unfold folder_ids_of. by injection E as _ ->. }
      rewrite E in Hk. unfold add_file. rewrite (matched_root_unique _ _ _ _ Hd Hp0 Hk), Hp0.
      destruct (Z.eqb_spec r 0) as [->|_]; [congruence|]. rewrite lookup_insert_eq.
      eexists. split; [done|]. cbn. apply elem_of_app. right. by left.
    + by left.
    + right. unfold add_file. destruct (_ =? 0); [by exists p0|].
      destruct (plans !! matched_root _ _ _) as [q|] eqn:Eq; [|by exists p0].
      destruct (decide (matched_root iteration plans (f_folder_id a.2) = r)) as [<-|Hne].
      * rewrite lookup_insert_eq. simplify_eq. eexists. split; [done|]. cbn.
        apply elem_of_app. by left.
      * rewrite lookup_insert_ne by done. by exists p0.
Qed.

(** The plans fetched hold every file of their folders. *)
Lemma fetched_files ids u snap s plans r p i f :
  runs (FetchBatchFolderDeletePlans iteration ids u) snap s plans s →
  not_nested ids u s → (∀ k g, folders s !! k = Some g → 0 < k) →
  plans !! r = Some p → files s !! i = Some f → f_user_id f = u →
  f_folder_id f ∈ folder_ids_of p → (i, f) ∈ pl_files p.
Proof.
  intros H Hn Hpos. pose proof H as [_ Hshape]%runs_fetch_plans.
  unfold FetchBatchFolderDeletePlans in H. intros Hp Hf Hu Hk.
  destruct (decide (ids = [])) as [->|_].
  { apply runs_ret in H as [-> _]. by rewrite lookup_empty in Hp. }
  run_bind H rows t H1. apply runs_read in H1 as [Hrows ->]. cbv zeta in H.
  pose proof (rows_plan_shape _ _ _ _ Hrows) as Hs0. set (plans0 := foldl add_folder ∅ rows) in *.
  assert (∃ p0, plans0 !! r = Some p0 ∧ folder_ids_of p = folder_ids_of p0 ∧
    f_folder_id f ∈ sort_unique rows.*2.*1) as (p0 & Hp0 & E & Hall).
  { pose proof (Hshape r) as Hr. rewrite Hp in Hr. destruct Hr as (Hr & _ & Hown & _).
    apply (plan_shape_ids _ _ _ _ _ _ Hshape Hp) in Hk as Hd. destruct Hd as [[g Hg] Hd].
    assert ((r, (f_folder_id f, g)) ∈ rows) as Hin.
    { by apply (elem_of_batch_subtree ids u s rows _ _ Hrows). }
    assert (f_folder_id f ∈ sort_unique rows.*2.*1) as Hall.
    { rewrite sort_unique_elem. apply list_elem_of_fmap. exists (f_folder_id f, g).
      split; [done|]. apply list_elem_of_fmap. by exists (r, (f_folder_id f, g)). }
    destruct (decide (sort_unique rows.*2.*1 = [])) as [E|_].
    { rewrite E in Hall. by apply elem_of_nil in Hall. }
    run_bind H fs t H1. apply runs_ret in H as [E _].
    pose proof (add_file_folders iteration fs plans0 r) as Eq. rewrite <- E, Hp in Eq.
    destruct (plans0 !! r) as [p0|]; [|done]. exists p0. split_and!; [done| |done].
    unfold folder_ids_of. by injection Eq as _ ->. }
  destruct (decide _) as [E0|_]; [rewrite E0 in Hall; by apply elem_of_nil in Hall|].
  run_bind H fs t H1. apply runs_ret in H as [-> ->].
  unfold FetchFilesInFolders in H1. rewrite decide_False in H1.
  2: { intros E0. rewrite E0 in Hall. by apply elem_of_nil in Hall. }
  apply runs_query in H1 as [-> _].
  eapply add_files_elem; [by eapply shape_disjoint| |exact Hp|left; split; [|done]].
  - apply eq_None_not_Some. intros [q Hq]. pose proof (Hs0 0) as H0. rewrite Hq in H0.
    destruct H0 as (_ & _ & (g & Hg & _) & _). apply Hpos in Hg. lia.
  - unfold files_in_folders. apply elem_of_select_rows. split; [done|]. simpl.
    by rewrite Hu, Z.eqb_refl, bool_decide_eq_true_2.
Qed.

(** ** What is removed *)

(** A folder of the user inside a requested one. *)
Definition inside (request : MoveToTrashRequest) (u : Z) (s : Database) (k : Z) : Prop :=
  ∃ r, r ∈ mt_folder_ids request ∧ (∃ g, folders s !! r = Some g ∧ d_user_id g = u) ∧
       is_Some (folders s !! k) ∧ descends s u r k.

Section moved.
Context (request : MoveToTrashRequest) (u : Z) (s : Database).
Context (dl : Deletion) (s' : Database) (plans : gmap Z FolderDeletePlan) (l : list file_row)
  (t t' : Database).
Notation fs := (sort_unique (mt_file_ids request)).
Notation ds := (sort_unique (mt_folder_ids request)).
Context (M : moved iteration toDbStringLocal fs ds u s dl s' plans l t t').
Notation top := (FilterCoveredFolderIds ds plans).

Lemma moved_files i : files s' !! i = if decide (i ∈ file_ids_to_delete dl) then None else files s !! i.
Proof.
  destruct M as [_ _ _ _ _ _ Hins Hq ->]. cbn. rewrite delete_rows_lookup, (qu_files _ _ Hq).
  by rewrite (insert_trash_frame _ _ _ _ Hins).
Qed.

Lemma moved_folders i : folders s' !! i = None ↔
  i ∈ folder_ids_to_delete dl ∨ folders s !! i = None.
Proof.
  destruct M as [_ _ _ _ _ _ Hins Hq ->]. cbn. rewrite delete_rows_lookup.
  case_decide as Hi; [naive_solver|]. pose proof (qu_folders _ _ Hq i) as E.
  rewrite (insert_trash_frame _ _ _ _ Hins) in E. cbn in E.
  split; [intros E'; right|intros [?|E']; [done|]]; rewrite E' in E.
  - by destruct (folders s !! i).
  - by destruct (folders t' !! i).
Qed.

Lemma locked_row f : f ∈ l → files s !! f.1 = Some f.2 ∧ f_user_id f.2 = u.
Proof. intros [_ ?]%(mv_locked _ _ _ _ _ _ _ _ _ _ _ _ M). done. Qed.

Lemma elem_of_removed i : i ∈ file_ids_to_delete dl ↔ ∃ f, (i, f) ∈ deleted_files fs ds l plans.
Proof.
  rewrite (mv_deletion _ _ _ _ _ _ _ _ _ _ _ _ M), elem_of_files_to_delete, list_elem_of_fmap.
  split; [intros ([j f] & -> & H); eauto|intros [f H]; by exists (i, f)].
Qed.

Lemma requested_inside r p k : r ∈ top → plans !! r = Some p → k ∈ folder_ids_of p →
  inside request u s k.
Proof.
  intros (Hr & _ & _)%elem_of_FilterCovered Hp Hk.
  pose proof (mv_shape _ _ _ _ _ _ _ _ _ _ _ _ M) as Hs.
  apply (plan_shape_ids _ _ _ _ _ _ Hs Hp) in Hk as [Hk Hd].
  pose proof (Hs r) as Hr'. rewrite Hp in Hr'. destruct Hr' as (_ & _ & Hg & _).
  rewrite sort_unique_elem in Hr. by exists r.
Qed.

(** The other way round, when no requested folder lies in another. *)
Lemma inside_planned k : not_nested (mt_folder_ids request) u s → inside request u s k →
  ∃ r p, r ∈ top ∧ plans !! r = Some p ∧ k ∈ folder_ids_of p.
Proof.
  intros Hn (r & Hr & (g & Hg & Hu) & Hk & Hd).
  pose proof (mv_shape _ _ _ _ _ _ _ _ _ _ _ _ M) as Hs.
  assert (r ∈ ds) as Hr' by (by rewrite sort_unique_elem).
  pose proof (Hs r) as Hsr. destruct (plans !! r) as [p|] eqn:Hp; [|by destruct (Hsr Hr' g)].
  exists r, p. split_and!; [|done|].
  - eapply top_not_nested; [done| |done|eauto].
    intros a b. rewrite !sort_unique_elem. apply Hn.
  - by apply (plan_shape_ids _ _ _ _ _ _ Hs Hp).
Qed.

Lemma removed_inside i f : files s !! i = Some f → i ∈ file_ids_to_delete dl →
  f_user_id f = u ∧ (i ∈ mt_file_ids request ∨ inside request u s (f_folder_id f)).
Proof.
  intros Hf (f' & Hin)%elem_of_removed.
  assert ((i, f') ∈ l) as Hl by (eapply deleted_files_locked; [..|exact Hin]; [apply sort_unique_NoDup|apply M]).
  apply locked_row in Hl as [Hf' Hu]. simpl in *. rewrite Hf in Hf'. injection Hf' as <-. split; [done|].
  unfold deleted_files in Hin. apply elem_of_app in Hin as [Hin|Hin].
  - apply elem_of_explicit in Hin as (_ & Hi & _); [|apply sort_unique_NoDup|apply M].
    rewrite sort_unique_elem in Hi. by left.
  - right. rewrite deletion_plan_files in Hin by apply sort_unique_NoDup.
    apply list_elem_of_bind in Hin as (r & (_ & p & Hp & Hk)%elem_of_plan_files & Hr).
    by eapply requested_inside.
Qed.

Lemma inside_removed i f : not_nested (mt_folder_ids request) u s →
  (∀ k g, folders s !! k = Some g → 0 < k) → files s !! i = Some f → f_user_id f = u →
  i ∈ mt_file_ids request ∨ inside request u s (f_folder_id f) → i ∈ file_ids_to_delete dl.
Proof.
  intros Hn Hpos Hf Hu Hor. apply elem_of_removed. exists f. unfold deleted_files.
  assert ((i, f) ∈ l ∧ (i ∈ mt_file_ids request ∨ ∃ r p, r ∈ top ∧ plans !! r = Some p ∧
    f_folder_id f ∈ folder_ids_of p)) as [Hl Hor'].
  { rewrite (mv_locked _ _ _ _ _ _ _ _ _ _ _ _ M). destruct Hor as [Hi|Hk].
    - split; [|by left]. split; [|done]. left. by rewrite sort_unique_elem.
    - apply (inside_planned _ Hn) in Hk as (r & p & Hr & Hp & Hk). split; [|right; eauto].
      split; [|done]. right. unfold CollectCoveredFileIds. apply elem_of_list_to_set.
      apply list_elem_of_bind. exists p. split.
      + apply list_elem_of_fmap. exists (i, f). split; [done|].
        eapply fetched_files; [apply M| |done..]. intros a b. rewrite !sort_unique_elem. apply Hn.
      + apply list_elem_of_omap. eauto. }
  rewrite elem_of_app. set (planned := dl_plans (deletion fs l top plans) ≫= pl_files).
  destruct Hor' as [Hi|(r & p & Hr & Hp & Hk)].
  - destruct (decide (i ∈ planned.*1)) as [Hin|Hni].
    + right. apply list_elem_of_fmap in Hin as ([j g] & -> & Hin).
      assert ((j, g) ∈ l) as Hg.
      { eapply (deleted_files_locked fs ds l plans); [apply sort_unique_NoDup|apply M|].
        apply elem_of_app. by right. }
      apply locked_row in Hg as [Hg _]. simpl in *. rewrite Hf in Hg. by injection Hg as <-.
    + left. apply elem_of_explicit; [apply sort_unique_NoDup|apply M|].
      split_and!; [done|by rewrite sort_unique_elem|]. intros Hin. apply Hni.
      by apply list_elem_of_fmap_2 with (f := fst) in Hin.
  - right. unfold planned. rewrite deletion_plan_files by apply sort_unique_NoDup.
    apply list_elem_of_bind. exists r. split; [|done]. apply elem_of_plan_files. eauto.
Qed.

Lemma elem_of_removed_folders k : k ∈ folder_ids_to_delete dl ↔
  ∃ r p, r ∈ top ∧ plans !! r = Some p ∧ k ∈ folder_ids_of p.
Proof.
  unfold folder_ids_to_delete. rewrite sort_unique_elem, (mv_deletion _ _ _ _ _ _ _ _ _ _ _ _ M).
  rewrite deletion_plans by apply sort_unique_NoDup. rewrite list_elem_of_bind. unfold plans_of.
  setoid_rewrite list_elem_of_fmap. setoid_rewrite list_elem_of_omap. split.
  - intros (p & Hk & p' & -> & r & Hr & Hp). by exists r, p'.
  - intros (r & p & Hr & Hp & Hk). exists (refill l p). split; [done|]. eauto.
Qed.
End moved.

(** C35: whole trees go to the trash.  When none of the requested folders lies in
    another, a move that reports success removes exactly the requested files of the
    user and the files inside the requested folders at any depth, and exactly the
    folders of these trees. *)
Theorem trash_takes_whole_tree request u d sch cs res e' :
  let s := arrive sch d in
  not_nested (mt_folder_ids request) u s → (∀ k g, folders s !! k = Some g → 0 < k) →
  MoveToTrash iteration toDbStringLocal date request u (mkEnv d sch AutoCommit cs) =
    (Ret (Ok res), e') →
  (∀ i f, files s !! i = Some f → files (db e') !! i = None ↔
     f_user_id f = u ∧ (i ∈ mt_file_ids request ∨ inside request u s (f_folder_id f))) ∧
  (∀ k g, folders s !! k = Some g → folders (db e') !! k = None ↔ inside request u s k).
Proof.
  intros s Hn Hpos (dl & plans & l & t & t' & M)%move_succeeds. fold s in M. split.
  - intros i f Hf. rewrite (moved_files _ _ _ _ _ _ _ _ _ M). split.
    + case_decide as Hi; [intros _|congruence]. by eapply removed_inside.
    + intros [Hu Hor]. by rewrite decide_True by (by eapply inside_removed).
  - intros k g Hg. rewrite (moved_folders _ _ _ _ _ _ _ _ _ M).
    rewrite (elem_of_removed_folders _ _ _ _ _ _ _ _ _ M). split.
    + intros [(r & p & Hr & Hp & Hk)|]; [|congruence]. by eapply requested_inside.
    + intros Hin. left. by eapply inside_planned.
Qed.
End trees.

(** ** What is kept *)

Section kept.
Context (iteration : list Z → list Z) (toDbStringLocal : Z → string)
  (real_text : Z → Z → string) (date : Z).

(** Rows in the ranges of the schema, entries numbered by their sequence. *)
Record sane_rows (s : Database) : Prop := {
  sr_trash : ∀ k x, trash s !! k = Some x → k < trash_id_seq s;
  sr_folders : ∀ k g, folders s !! k = Some g → good_folder (k, g);
  sr_files : ∀ i f, files s !! i = Some f → 0 < i < 2 ^ 63 ∧ 0 < f_content_id f < 2 ^ 63 ∧
    f_name f ≠ ""%string ∧ 0 <= f_size f < 2 ^ 63 ∧ 0 <= f_download_count f < 2 ^ 31
}.

(** An entry from which a file can be read back. *)
Definition keeps (x : TrashRow) (u i : Z) (f : FileRow) : Prop :=
  x_user_id x = u ∧
  ((x_item_type x = "file"%string ∧ x_item_id x = i ∧ x_item_name x = f_name f ∧
    x_item_size x = f_size f ∧ x_content_id x = Some (f_content_id f)) ∨
   (x_item_type x = "folder"%string ∧ ∃ tree,
      ParseFolderTreeSnapshot real_text (x_item_data x) = Some (Some tree) ∧
      snapshot_file (i, f) ∈ ft_files tree)).

Lemma file_entry_keeps u i f s d : sane_rows s → files s !! i = Some f →
  keeps (trash_row u (file_item (i, f)) d) u i f.
Proof.
  intros Hs Hf. destruct (sr_files _ Hs _ _ Hf) as (? & ? & ? & ? & ?).
  split; [done|]. left. cbn -[u64]. by rewrite !u64_small by lia.
Qed.

Lemma folder_entry_keeps u i f s d ids plans r p l : sane_rows s →
  plan_shape ids u s plans → plans !! r = Some p →
  (∀ g : file_row, g ∈ l → files s !! g.1 = Some g.2) → (i, f) ∈ pl_files (refill l p) →
  keeps (trash_row u (folder_item toDbStringLocal (refill l p)) d) u i f.
Proof.
  intros Hs Hshape Hp Hl Hin. split; [done|]. right. split; [done|].
  cbn [x_item_data trash_row ti_item_data folder_item].
  pose proof (Hshape r) as Hr. rewrite Hp in Hr. destruct Hr as (_ & Hroot & _ & Hf).
  assert (∀ g : folder, g ∈ pl_folders p → good_folder g) as Hgood.
  { intros [k g] [Hg _]%Hf. by apply (sr_folders _ Hs). }
  eexists. split; [apply snapshot_parses|].
  - by apply Hgood.
  - by apply Forall_forall.
  - apply Forall_forall. intros [j g] Hg. unfold refill in Hg. cbn in Hg.
    rewrite list_elem_of_In, List.filter_In, <- list_elem_of_In, bool_decide_eq_true in Hg.
    destruct Hg as [Hg Hk]. apply Hl in Hg. destruct (sr_files _ Hs _ _ Hg) as (? & ? & ? & ? & ?).
    apply (plan_shape_ids _ _ _ _ _ _ Hshape Hp) in Hk as [[h Hh] _].
    destruct (sr_folders _ Hs _ _ Hh) as [? _]. unfold good_file. simpl in *. split_and!; done || lia.
  - cbn [ft_files]. by apply list_elem_of_fmap_2.
Qed.

(** C36: the trash loses nothing.  Whatever was asked for, and even when requested
    folders lie in one another, every file that a successful move removes can be read
    back, with its name, size and content, from an entry that was added to the trash
    of the user, and the entries that were there stay as they were. *)
Theorem trash_loses_nothing request u d sch cs res e' :
  let s := arrive sch d in
  sane_rows s →
  MoveToTrash iteration toDbStringLocal date request u (mkEnv d sch AutoCommit cs) =
    (Ret (Ok res), e') →
  (∀ k x, trash s !! k = Some x → trash (db e') !! k = Some x) ∧
  ∀ i f, files s !! i = Some f → files (db e') !! i = None →
    ∃ k x, trash s !! k = None ∧ trash (db e') !! k = Some x ∧ keeps x u i f.
Proof.
  intros s Hs (dl & plans & l & t & t' & M)%move_succeeds. fold s in M.
  pose proof (moved_files _ _ _ _ _ _ _ _ _ _ _ M) as Hfiles.
  pose proof (elem_of_removed _ _ _ _ _ _ _ _ _ _ _ M) as Hremoved.
  pose proof (locked_row _ _ _ _ _ _ _ _ _ _ _ M) as Hl.
  destruct M as [Hshape _ Hnd _ -> _ Hins Hq Hres].
  destruct (insert_trash_entries _ _ _ _ Hins (sr_trash _ Hs)) as [Hkeep Hnew].
  assert (trash (db e') = trash t) as -> by (rewrite Hres; apply (qu_trash _ _ Hq)).
  split; [exact Hkeep|]. intros i f Hf Hgone. specialize (Hfiles i). rewrite Hgone in Hfiles. case_decide as Hi; [|congruence].
  apply Hremoved in Hi as (f' & Hin).
  assert ((i, f') ∈ l) as Hf'.
  { eapply deleted_files_locked; [..|exact Hin]; [apply sort_unique_NoDup|done]. }
  apply Hl in Hf' as [Hf' _]. simpl in Hf'. rewrite Hf in Hf'. injection Hf' as <-.
  unfold deleted_files in Hin. apply elem_of_app in Hin as [Hin|Hin].
  - destruct (Hnew (file_item (i, f))) as (k & Hk & Hrow).
    { apply elem_of_app. left. by apply list_elem_of_fmap_2. }
    exists k. eexists. split_and!; [done|exact Hrow|by eapply file_entry_keeps].
  - rewrite deletion_plans in Hin by apply sort_unique_NoDup.
    apply list_elem_of_bind in Hin as (q & Hin & Hq'). apply list_elem_of_fmap in Hq' as (p & -> & Hp).
    destruct (Hnew (folder_item toDbStringLocal (refill l p))) as (k & Hk & Hrow).
    { apply elem_of_app. right. apply list_elem_of_fmap_2.
      rewrite deletion_plans by apply sort_unique_NoDup. by apply list_elem_of_fmap_2. }
    unfold plans_of in Hp. apply list_elem_of_omap in Hp as (r & _ & Hp).
    exists k. eexists. split_and!; [done|exact Hrow|]. eapply folder_entry_keeps; [done..| |done].
    intros g Hg. by apply Hl.
Qed.
End kept.

(** ** The order of iteration *)

(** A folder of user 7 (2, "docs") with a folder in it (1, "old"), which holds a file
    of ten bytes; the outer folder is the younger one, as after a move. *)
Definition example_nested : Database :=
  (empty_db 200) <| users := {[ 7 := mkUserRow 100 10 0 ]} |>
    <| file_contents := {[ 9 := mkContentRow "h" "" 10 "k" "text/plain" 1 ]} |>
    <| folders := {[ 1 := mkFolderRow 7 2 "old" "/docs/old/" 2 1 100 100;
                     2 := mkFolderRow 7 0 "docs" "/docs/" 1 1 100 100 ]} |>
    <| files := {[ 4 := mkFileRow 7 9 1 "a.txt" "txt" 10 "text/plain" "/docs/old/a.txt" 0 0
                          100 100 ]} |>
    <| files_id_seq := 5 |> <| folders_id_seq := 3 |> <| file_contents_id_seq := 10 |>.

(** The move of folders of this drive, the maps iterated by ascending keys. *)
Definition example_move (folder_ids : list Z) (e : Env Database)
  : outcome (Result MoveToTrashResult) * Env Database :=
  MoveToTrash (order_by Z.leb) (λ _, ""%string) 300 (mkMoveToTrashRequest [] folder_ids) 7 e.

Lemma run_pair {A B} (p : A * B) a : p.1 = a → p = (a, p.2).
Proof. by destruct p; intros <-. Qed.

(** A request for a folder and a folder inside it can strand files.  The plan of the
    inner folder takes the file when it is met first, the plan of the outer folder is
    the one carried out, and it deletes both folders: the move reports success, the
    file is neither in a folder nor in the trash, and still counts as used space. *)
Lemma nested_request_strands_files :
  ∃ res e', example_move [1; 2] (mkEnv example_nested [] AutoCommit []) = (Ret (Ok res), e') ∧
    mr_deleted_folder_count res = 1 ∧ mr_removed_file_ids res = [] ∧
    f_folder_id <$> files (db e') !! 4 = Some 1 ∧ folders (db e') = ∅ ∧
    x_item_size <$> trash (db e') !! 1 = Some 0 ∧
    u_storage_used <$> users (db e') !! 7 = Some 10.
Proof.
  eexists. exists (example_move [1; 2] (mkEnv example_nested [] AutoCommit [])).2.
  split; [apply run_pair; vm_compute; reflexivity|].
  split_and!; vm_compute; reflexivity.
Qed.

(** ** Witnesses *)

Lemma example_nested_folders k g : folders example_nested !! k = Some g →
  (k = 1 ∧ g = mkFolderRow 7 2 "old" "/docs/old/" 2 1 100 100) ∨
  (k = 2 ∧ g = mkFolderRow 7 0 "docs" "/docs/" 1 1 100 100).
Proof.
  change (folders example_nested) with
    ({[ 1 := mkFolderRow 7 2 "old" "/docs/old/" 2 1 100 100;
        2 := mkFolderRow 7 0 "docs" "/docs/" 1 1 100 100 ]} : gmap Z FolderRow).
  intros [[<- <-]|[_ [<- <-]%lookup_singleton_Some]]%lookup_insert_Some; [by left|by right].
Qed.

Lemma example_move_works : ∃ res,
  example_move [2] (mkEnv example_nested [] AutoCommit []) =
    (Ret (Ok res), (example_move [2] (mkEnv example_nested [] AutoCommit [])).2).
Proof. eexists. apply run_pair. vm_compute. reflexivity. Qed.

Lemma trash_takes_whole_tree_witness :
  files (db (example_move [2] (mkEnv example_nested [] AutoCommit [])).2) !! 4 = None.
Proof.
  destruct example_move_works as [res Hrun].
  destruct (trash_takes_whole_tree (order_by Z.leb) (λ _, ""%string) 300 (order_by_perm Z.leb)
    (mkMoveToTrashRequest [] [2]) 7 example_nested [] [] res
    (example_move [2] (mkEnv example_nested [] AutoCommit [])).2) as [Hfiles _]; [..|exact Hrun|].
  - intros r r' ->%list_elem_of_singleton ->%list_elem_of_singleton Hne. by destruct Hne.
  - intros k g [[-> _]|[-> _]]%example_nested_folders; reflexivity.
  - apply (Hfiles 4 (mkFileRow 7 9 1 "a.txt" "txt" 10 "text/plain" "/docs/old/a.txt" 0 0 100 100));
      [reflexivity|]. split; [reflexivity|]. right. exists 2.
    split; [by apply list_elem_of_singleton|].
    split; [eexists; split; reflexivity|]. split; [eexists; reflexivity|].
    apply rtc_once. eexists. split; [reflexivity|split; reflexivity].
Defined.

Lemma trash_loses_nothing_witness : ∃ k x,
  trash (db (example_move [2] (mkEnv example_nested [] AutoCommit [])).2) !! k = Some x ∧
  keeps (λ _ _, ""%string) x 7 4
    (mkFileRow 7 9 1 "a.txt" "txt" 10 "text/plain" "/docs/old/a.txt" 0 0 100 100).
Proof.
  destruct example_move_works as [res Hrun].
  destruct (trash_loses_nothing (order_by Z.leb) (λ _, ""%string) (λ _ _, ""%string) 300
    (mkMoveToTrashRequest [] [2]) 7 example_nested [] [] res
    (example_move [2] (mkEnv example_nested [] AutoCommit [])).2) as [_ Hkept]; [|exact Hrun|].
  - split.
    + intros k x Hx. change ((∅ : gmap Z TrashRow) !! k = Some x) in Hx. done.
    + intros k g [[-> ->]|[-> ->]]%example_nested_folders; unfold good_folder; cbn;
        split_and!; lia || done.
    + intros i f Hf. change (({[ 4 := mkFileRow 7 9 1 "a.txt" "txt" 10 "text/plain"
        "/docs/old/a.txt" 0 0 100 100 ]} : gmap Z FileRow) !! i = Some f) in Hf.
      apply lookup_singleton_Some in Hf as [<- <-]. cbn. split_and!; lia || done.
  - destruct (Hkept 4 (mkFileRow 7 9 1 "a.txt" "txt" 10 "text/plain" "/docs/old/a.txt" 0 0 100 100))
      as (k & x & _ & Hx & Hk); [reflexivity|vm_compute; reflexivity|].
    exists k, x. exact (conj Hx Hk).
Defined.
