(* ===== verification/TrashLocks.v ===== *)
(** * The loop that locks the folders of a move

    [TrashService::MoveToTrash] repeats the query of its plans until a round finds no folder
    that it has not locked yet.  The loop ends although other sessions change the tree between
    the statements, as they may under READ COMMITTED. *)

From S2P Require Import Prelude Errors Storage Db Rely UploadState Json Schema Batch Names Quota.
From S2P Require Import Files Folders DeletePlans Trash.

Local Open Scope Z_scope.

(** ** The query of the plans *)

(** Rows that carry a label along are reached as without it. *)
Lemma with_recursive_label {A} fuel (step : A → list A) (fr : list (Z * A)) :
  is_Some (with_recursive fuel step fr.*2) →
  is_Some (with_recursive fuel (λ ra, pair ra.1 <$> step ra.2) fr).
Proof.
  revert fr. induction fuel as [|fuel IH]; intros [|[r a] fr]; simpl; eauto; [by intros []|].
  intros [rows (rest & H & _)%bind_Some].
  assert ((((r, a) :: fr) ≫= λ ra : Z * A, pair ra.1 <$> step ra.2).*2 =
    (a :: fr.*2) ≫= step) as E.
  { change (a :: fr.*2) with (((r, a) :: fr).*2). generalize ((r, a) :: fr) as k. clear.
    induction k as [|[r a] k IH]; [done|].
    change ((((r, a) :: k) ≫= λ ra : Z * A, pair ra.1 <$> step ra.2).*2) with
      (((pair r <$> step a) ++ (k ≫= λ ra : Z * A, pair ra.1 <$> step ra.2))%list.*2).
    rewrite fmap_app, IH, <- list_fmap_compose. unfold compose. simpl. by rewrite list_fmap_id. }
  destruct (IH (((r, a) :: fr) ≫= λ ra : Z * A, pair ra.1 <$> step ra.2)) as [rest' H'].
  { rewrite E. simpl. eauto. }
  simpl in H'. rewrite H'. simpl. eauto.
Qed.

Lemma batch_subtree_total ids u s : folder_depths u s → is_Some (batch_subtree ids u s).
Proof.
  intros Hd. unfold batch_subtree. rewrite fmap_is_Some.
  apply (with_recursive_label _ (λ kf : folder, children u s kf.1)).
  apply (with_recursive_total _ (user_folders u s) (λ kf, d_depth kf.2)).
  - by apply children_user_folder.
  - by apply children_depth.
  - rewrite <- list_fmap_compose. unfold compose. simpl. rewrite list_fmap_id.
    intros kf (i & Hkf & _)%list_elem_of_bind. apply (owned_user_folder u s Hd) in Hkf.
    split; [done|]. by apply user_folders_fuel.
Qed.

Lemma in_sort_unique (k : Z) l : k ∈ sort_unique l ↔ k ∈ l.
Proof. unfold sort_unique. by rewrite elem_of_order_by, elem_of_remove_dups. Qed.

(** ** Statements that only read *)

Lemma bind_Raise {S A B} (m : M S A) (f : A → M S B) e x e' :
  m e = (Raise x, e') → (m ≫= f) e = (Raise x, e').
Proof. intros Hm. unfold mbind, M_bind. by rewrite Hm. Qed.

(** The folders of a user are among [U]. *)
Definition owns_within (u : Z) (U : gset Z) (d : Database) : Prop :=
  ∀ i f, folders d !! i = Some f → d_user_id f = u → i ∈ U.

(** A session, in a transaction or not, in which [I] holds and the statements of other
    sessions, where it sees them, keep it. *)
Definition keeping (I : Database → Prop) (e : Env Database) : Prop :=
  I (db e) ∧ (tx e = AutoCommit → stable I (schedule e)).

(** No statement fails, and the recursive queries over the folders of [u] end. *)
Definition healthy (u : Z) (e : Env Database) : Prop :=
  (∀ snap, tx e ≠ InTx snap true) ∧ Forall (λ st, fault_of st = Works) (schedule e) ∧
  keeping (folder_depths u) e.

Section reading.
Context (u : Z) (U : gset Z).

(** [m] only reads: it answers something that satisfies [P] or the database fails. *)
Definition reads {A} (m : M Database A) (P : A → Prop) : Prop :=
  ∀ e, keeping (owns_within u U) e → ∃ o e', m e = (o, e') ∧
    keeping (owns_within u U) e' ∧
    (o = Raise DbException ∨ ∃ a, o = Ret a ∧ P a) ∧
    (healthy u e → healthy u e' ∧ o ≠ Raise DbException).

Lemma reads_ret {A} (a : A) (P : A → Prop) : P a → reads (mret a) P.
Proof. intros HP e He. exists (Ret a), e. split_and!; eauto. Qed.

Lemma reading_bind {A B} (m : M Database A) (f : A → M Database B) P Q :
  reads m P → (∀ a, P a → reads (f a) Q) → reads (m ≫= f) Q.
Proof.
  intros Hm Hf e He. destruct (Hm e He) as (o & e1 & E & He1 & Ho & Hh).
  unfold mbind, M_bind. rewrite E. destruct Ho as [->|(a & -> & Ha)].
  - exists (Raise DbException), e1. split_and!; [done|done|by left|].
    intros He'. by destruct (Hh He') as [_ []].
  - destruct (Hf a Ha e1 He1) as (o & e2 & E2 & He2 & Ho & Hh2).
    exists o, e2. split_and!; [done..|]. intros He'. by apply Hh2, Hh.
Qed.

Lemma keeping_step I (e : Env Database) : keeping I e → keeping I (next_step e).2.
Proof.
  destruct e as [d sch t cs]. unfold keeping, next_step. cbn. intros [Hd Hs].
  destruct sch as [|st sch]; [done|]. destruct t; cbn in *; [|done].
  specialize (Hs eq_refl). inversion Hs; subst. eauto.
Qed.

Lemma keeping_same I (e e' : Env Database) : keeping I e → db e' = db e →
  schedule e' = schedule e → (tx e' = AutoCommit → tx e = AutoCommit) → keeping I e'.
Proof. unfold keeping. intros [H1 H2] -> ->. eauto. Qed.

(** What a statement that only reads does to the session. *)
Lemma read_session {A} (q : Database → option A) (e : Env Database) :
  let e1 := (next_step e).2 in
  ∃ o e', read q e = (o, e') ∧ db e' = db e1 ∧ schedule e' = schedule e1 ∧
    (tx e' = AutoCommit → tx e1 = AutoCommit) ∧
    (o = Raise DbException ∨ ∃ a, o = Ret a ∧ q (db e1) = Some a) ∧
    (is_Some (q (db e1)) → (∀ snap, tx e ≠ InTx snap true) →
     Forall (λ st, fault_of st = Works) (schedule e) → o ≠ Raise DbException ∧ e' = e1).
Proof.
  intros e1. unfold read, exec. destruct (next_step e) as [f e2] eqn:En. subst e1. cbn.
  assert ((∀ snap, tx e ≠ InTx snap true) → Forall (λ st, fault_of st = Works) (schedule e) →
    f = Works ∧ tx e2 = tx e) as Hw.
  { unfold next_step in En. intros _ Hs. destruct e as [d [|st sch] t cs]; simplify_eq/=; [done|].
    by inversion Hs. }
  destruct e2 as [d sch [|snap [|]] cs], f; cbn; destruct (q d) as [a|] eqn:Eq; cbn;
    eexists _, _; (split; [reflexivity|]); cbn;
    (split_and!; [done|done|by eauto|by eauto|]);
    intros [? ?] Ht Hs; destruct (Hw Ht Hs) as [? Etx]; try done; by edestruct Ht.
Qed.

Lemma reads_read {A} (q : Database → option A) (P : A → Prop) :
  (∀ d a, owns_within u U d → q d = Some a → P a) →
  (∀ d, folder_depths u d → is_Some (q d)) → reads (read q) P.
Proof.
  intros HP Hq e He. pose proof (keeping_step _ _ He) as He1.
  destruct (read_session q e) as (o & e' & E & Ed & Es & Et & Ho & Hw).
  exists o, e'. split_and!; [done|by eapply keeping_same| |].
  - destruct Ho as [->|(a & -> & Ha)]; [by left|]. right. exists a. split; [done|].
    eapply HP, Ha. apply He1.
  - intros (Hin & Hworks & Hd). pose proof (keeping_step _ _ Hd) as Hd1.
    destruct Hw as [? ->]; [apply Hq, Hd1|done..|]. split; [|done]. split_and!; [|..|done].
    + destruct e as [? [|] ? ?]; cbn in *; done.
    + destruct e as [? [|] ? ?]; cbn in *; [done|]. by inversion Hworks.
Qed.

Lemma reads_query {A} (q : Database → A) : reads (query q) (λ _, True).
Proof. apply (reads_read (λ d, Some (q d))); eauto. Qed.

Section plans.
Context (iteration : list Z → list Z).

Lemma reading_plans ids : reads (FetchBatchFolderDeletePlans iteration ids u)
  (λ plans, ∀ r p i, plans !! r = Some p → i ∈ folder_ids_of p → i ∈ U).
Proof.
  unfold FetchBatchFolderDeletePlans. case_decide; [by apply reads_ret|].
  eapply reading_bind.
  { apply (reads_read _ (λ rows, ∀ r p i, foldl add_folder ∅ rows !! r = Some p →
      i ∈ folder_ids_of p → i ∈ U)); [|apply batch_subtree_total].
    intros d rows Hown Hrows%rows_plan_shape r p i Hp Hi.
    apply (plan_shape_ids _ _ _ _ _ _ Hrows Hp) in Hi as [[f Hf] Hdesc].
    apply (Hown i f Hf). specialize (Hrows r). rewrite Hp in Hrows.
    destruct Hrows as (_ & _ & (g & Hg & Hgu) & _).
    apply rtc_inv_r in Hdesc as [<-|(k & _ & f' & Hf' & Hu & _)]; congruence. }
  intros rows Hrows. cbv zeta. case_decide; [by apply reads_ret|].
  eapply reading_bind.
  { unfold FetchFilesInFolders. case_decide; [by apply (reads_ret _ (λ _, True))|].
    apply reads_query. }
  intros files _. apply reads_ret. intros r p i Hp Hi.
  pose proof (add_file_folders iteration files (foldl add_folder ∅ rows) r) as E.
  rewrite Hp in E. cbn in E.
  destruct (foldl add_folder ∅ rows !! r) as [p0|] eqn:Hp0; [|done].
  injection E as _ E. apply (Hrows r p0 i Hp0). unfold folder_ids_of in *. by rewrite <- E.
Qed.

Lemma reads_fetch_owned ids : reads (FetchOwnedFoldersByIdsForUpdate ids u) (λ _, True).
Proof.
  unfold FetchOwnedFoldersByIdsForUpdate.
  induction (Chunks (sort_unique ids)) as [|chunk l IH]; cbn; [by apply reads_ret|].
  eapply reading_bind; [apply reads_query|]. intros rows _.
  eapply reading_bind; [exact IH|]. intros rest _. by apply reads_ret.
Qed.

(** Every round but the last locks a folder of [U] more. *)
Lemma lock_folders_ends ids n locked e :
  (size (U ∖ locked) < n)%nat → keeping (owns_within u U) e →
  ∃ o e', (∀ rounds, (n <= rounds)%nat → lock_folders iteration rounds ids u locked e = (o, e')) ∧
    (o = Raise DbException ∨ ∃ plans, o = Ret (plans, FilterCoveredFolderIds ids plans)) ∧
    (healthy u e → o ≠ Raise DbException).
Proof.
  revert locked e. induction n as [|n IH]; intros locked e Hn He; [lia|].
  destruct (reading_plans ids e He) as (o & e1 & E1 & He1 & [->|(plans & -> & Hplans)] & Hh1).
  { exists (Raise DbException), e1. split_and!; [|by left|].
    2: { intros He'. by destruct (Hh1 He') as [_ []]. }
    intros [|rounds] Hr; [lia|]. cbn [lock_folders]. by rewrite (bind_Raise _ _ _ _ _ E1). }
  set (top := FilterCoveredFolderIds ids plans).
  set (new := List.filter (λ id, negb (bool_decide (id ∈ locked)))
                (sort_unique (plans_of top plans ≫= folder_ids_of))).
  destruct (decide (new = [])) as [Enew|Enew].
  { exists (Ret (plans, top)), e1. split_and!; [|eauto|done].
    intros [|rounds] Hr; [lia|]. cbn [lock_folders]. rewrite (bind_Ret _ _ _ _ _ E1). cbv zeta.
    fold top new. by rewrite decide_True. }
  assert (∀ k, k ∈ new → k ∈ U ∧ k ∉ locked) as Hnew.
  { intros k. unfold new. rewrite list_elem_of_In, List.filter_In, <- list_elem_of_In.
    rewrite in_sort_unique, negb_true_iff, bool_decide_eq_false.
    intros [(p & Hi & Hp)%list_elem_of_bind Hk]. split; [|done].
    apply list_elem_of_omap in Hp as (r & _ & Hp). by eapply Hplans. }
  destruct (reads_fetch_owned new e1 He1) as (o & e2 & E2 & He2 & [->|(rows & -> & _)] & Hh2).
  { exists (Raise DbException), e2. split_and!; [|by left|].
    2: { intros He'. by destruct (Hh2 (proj1 (Hh1 He'))) as [_ []]. }
    intros [|rounds] Hr; [lia|]. cbn [lock_folders]. rewrite (bind_Ret _ _ _ _ _ E1). cbv zeta.
    fold top new. rewrite decide_False by done. by rewrite (bind_Raise _ _ _ _ _ E2). }
  destruct (IH (locked ∪ list_to_set new) e2) as (o & e3 & E3 & Ho & Hh3); [|done|].
  { destruct new as [|k new']; [done|]. destruct (Hnew k) as [Hk Hk']; [by left|].
    enough (size (U ∖ (locked ∪ list_to_set (k :: new'))) < size (U ∖ locked))%nat by lia.
    apply subset_size. set_solver. }
  exists o, e3. split_and!; [|done|intros He'; by apply Hh3, Hh2, Hh1].
  intros [|rounds] Hr; [lia|]. cbn [lock_folders]. rewrite (bind_Ret _ _ _ _ _ E1). cbv zeta.
  fold top new. rewrite decide_False by done. rewrite (bind_Ret _ _ _ _ _ E2). apply E3. lia.
Qed.
End plans.
End reading.

(** ** Properties *)

(** C39: the loop that locks the folders of a move ends.  It runs between the statements of
    other sessions, which may create, move and delete folders before each of its statements: as
    long as the folders the user owns stay among the identifiers [U], more rounds than there
    are identifiers in [U] change nothing any more.  So the endless loop of the program leaves by
    then, with plans and the top-level folders they give, or because the database failed.  It
    does not fail when no statement fails and the depths of the user's folders keep growing
    along parent links (a recursive query that finds no end counts as a failure).  Inside a
    transaction that sees no other session, [lock_all_folders] is the loop. *)
Theorem lock_loop_ends iteration ids u U e :
  keeping (owns_within u U) e →
  ∃ o e', (∀ rounds, (size U < rounds)%nat → lock_folders iteration rounds ids u ∅ e = (o, e')) ∧
    (o = Raise DbException ∨ ∃ plans, o = Ret (plans, FilterCoveredFolderIds ids plans)) ∧
    (healthy u e → o ≠ Raise DbException) ∧
    (tx e ≠ AutoCommit → lock_all_folders iteration ids u e = (o, e')).
Proof.
  intros He. destruct (lock_folders_ends u U iteration ids (S (size U)) ∅ e) as (o & e' & E & Ho & Hh).
  { rewrite difference_empty_L. lia. } { done. }
  exists o, e'. split_and!; [|done|done|].
  - intros rounds Hr. apply E. lia.
  - intros Ht. unfold lock_all_folders. set (n := S (size (folders (db e)))).
    destruct (lock_folders_ends u (dom (folders (db e))) iteration ids n ∅ e)
      as (o1 & e1 & E1 & _).
    { rewrite difference_empty_L, size_dom. unfold n. lia. }
    { split; [|done]. intros i f Hf _. apply elem_of_dom. eauto. }
    rewrite (E1 n) by lia. rewrite <- (E1 (max n (S (size U)))), <- (E (max n (S (size U)))) by lia.
    done.
Qed.

(** ** Witness *)

(** A folder 1 with a folder 2 in it, of user 7. *)
Definition example_pair : Database :=
  (empty_db 200) <| folders :=
    {[ 1 := mkFolderRow 7 0 "docs" "/docs/" 1 1 100 100;
       2 := mkFolderRow 7 1 "old" "/docs/old/" 2 0 100 100 ]} |>.

(** Another session adds a folder 3 inside folder 1 while the loop is in its first round. *)
Definition example_rival : list (Step Database) :=
  [mkStep id Works; mkStep id Works; mkStep id Works;
   mkStep (put_folder 3 (mkFolderRow 7 1 "new" "/docs/new/" 2 0 100 100)) Works].

Definition example_locking (rounds : nat) :=
  lock_folders (order_by Z.leb) rounds [1] 7 ∅ (mkEnv example_pair example_rival AutoCommit []).

(** Two rounds are not enough: the second one finds the new folder. *)
Lemma lock_loop_ends_witness :
  (example_locking 2).1 = Raise (RuntimeError "out of fuel") ∧
  ∃ plans, (∀ rounds, (3 < rounds)%nat → (example_locking rounds).1 = Ret (plans, [1])) ∧
    folder_ids_of <$> plans !! 1 = Some [1; 2; 3].
Proof.
  split; [vm_compute; reflexivity|].
  destruct (lock_loop_ends (order_by Z.leb) [1] 7 {[ 1; 2; 3 ]}
    (mkEnv example_pair example_rival AutoCommit [])) as (o & e' & Hend & _).
  - split.
    + intros i f. cbn [db]. change (folders example_pair) with
        ({[ 1 := mkFolderRow 7 0 "docs" "/docs/" 1 1 100 100;
            2 := mkFolderRow 7 1 "old" "/docs/old/" 2 0 100 100 ]} : gmap Z FolderRow).
      intros [[<- _]|[_ [<- _]%lookup_singleton_Some]]%lookup_insert_Some _; set_solver.
    + intros _. repeat constructor; try by intros s Hs. cbn.
      intros s Hs i f. cbn. intros [[<- _]|[_ Hi]]%lookup_insert_Some Hu; [set_solver|].
      by apply (Hs i f).
  - assert (∃ plans, o = Ret (plans, [1]) ∧ folder_ids_of <$> plans !! 1 = Some [1; 2; 3])
      as (plans & -> & Hplans).
    { change (∃ plans, (o, e').1 = Ret (plans, [1]) ∧
        folder_ids_of <$> plans !! 1 = Some [1; 2; 3]).
      rewrite <- (Hend 4%nat) by (vm_compute; lia).
      eexists. split; vm_compute; reflexivity. }
    exists plans. split; [|done]. intros rounds Hr. unfold example_locking.
    rewrite (Hend rounds); [done|]. apply (Nat.le_lt_trans _ 3); [vm_compute; lia|done].
Defined.
