(* ===== verification/FileMutations.v ===== *)
(** * Renaming, moving and deleting files

    [src/src/services/FileMutationService.cpp], the operations but [Copy] (in
    [FileCopies.v]): renaming a file, moving files and folders to another folder, and
    deleting, which moves to the trash.  The target of a move is located before its
    transaction. *)

From S2P Require Import Prelude Errors Db Schema Json Batch Names Folders Files DeletePlans.
From S2P Require Import FolderService Trash.

Local Open Scope string_scope.

(** ** Data *)

Record RenameResponse := mkRenameResponse {
  rr_id : Z;
  rr_name : string;
  rr_updated_at : string
}.

Record MoveRequest := mkMoveRequest {
  mv_file_ids : list Z;
  mv_folder_ids : list Z;
  mv_target_folder_id : Z
}.

Record MoveResponse := mkMoveResponse {
  mo_moved_count : Z;
  mo_moved_file_count : Z;
  mo_moved_folder_count : Z
}.

Record DeleteResponse := mkDeleteResponse {
  xr_deleted_count : Z;
  xr_deleted_file_count : Z;
  xr_deleted_folder_count : Z
}.

(** [deltas[id] += n] on a map of [int]s. *)
Definition bump (deltas : gmap Z Z) (id n : Z) : gmap Z Z :=
  <[id := (default 0 (deltas !! id) + n)%Z]> deltas.

(** [std::sort] and [std::unique] on names. *)
Definition sort_unique_names (names : list string) : list string :=
  order_by String.leb (remove_dups names).

Section service.
(** [toDbStringLocal] of a date, the clock of the server, and the order in which an
    [unordered_map] with these keys is iterated. *)
Context (toDbStringLocal : Z → string) (date : Z) (iteration : list Z → list Z).

(** ** Renaming *)

Definition rename_file_body (file_id : Z) (new_name : string) (user_id : Z)
  : M Database (Result RenameResponse) :=
  file ← FindOwnedFileForUpdate file_id user_id;
  match (file : option file_row) with
  | None => mret (Err (err FileNotFound))
  | Some (id, f) =>
      let folder_id := f_folder_id f in
      _ ← AcquireNameLock user_id folder_id new_name;
      occupied ← (if f_name f =? new_name then mret false
                  else NameExistsExcluding new_name folder_id user_id file_id);
      if (occupied : bool) then mret (Err (err FileAlreadyExists))
      else
      let* folder_location := ResolveOwnedFolderLocation folder_id user_id in
      (updated ← RenameOwnedFile file_id user_id new_name (ExtractFileExtension new_name)
                   (BuildFilePath (fl_path folder_location) new_name) date;
       mret (if negb updated then Err (err FileNotFound)
             else Ok (mkRenameResponse id new_name (toDbStringLocal date))))
  end.

Definition Rename (file_id : Z) (new_name : string) (user_id : Z)
  : M Database (Result RenameResponse) :=
  Run (mkErrorInfo InternalError "Failed to rename file")
    (rename_file_body file_id new_name user_id).

(** ** Moving *)

Definition MoveFailed : ErrorInfo := mkErrorInfo InternalError "Failed to move items".

(** One name lock per name, in order. *)
Fixpoint acquire_name_locks (lock : string → M Database unit) (names : list string)
  : M Database unit :=
  match names with
  | [] => mret tt
  | name :: names => _ ← lock name; acquire_name_locks lock names
  end.

(** What a move does to one file of a chunk: nothing when it is missing or its name is
    taken, only counted when it is there already. *)
Fixpoint move_chunk (user_id : Z) (target : Z) (location : FolderLocation)
    (files : gmap Z (Z * string)) (chunk : list Z)
    (occupied_names : gset string) (source_deltas : gmap Z Z) (moved_file_count : Z)
  : M Database (Result (gmap Z Z * Z)) :=
  match chunk with
  | [] => mret (Ok (source_deltas, moved_file_count))
  | file_id :: chunk =>
      match files !! file_id with
      | None =>
          move_chunk user_id target location files chunk occupied_names source_deltas
            moved_file_count
      | Some (source_folder_id, name) =>
          if (source_folder_id =? target)%Z then
            move_chunk user_id target location files chunk occupied_names source_deltas
              (moved_file_count + 1)
          else if bool_decide (name ∈ occupied_names) then
            move_chunk user_id target location files chunk occupied_names source_deltas
              moved_file_count
          else
            updated ← UpdateFileLocation file_id user_id target
                        (BuildFilePath (fl_path location) name) date;
            if negb updated then mret (Err MoveFailed)
            else
              let source_deltas :=
                if (0 <? source_folder_id)%Z then bump source_deltas source_folder_id (-1)
                else source_deltas in
              let source_deltas :=
                if (0 <? target)%Z then bump source_deltas target 1 else source_deltas in
              move_chunk user_id target location files chunk ({[name]} ∪ occupied_names)
                source_deltas (moved_file_count + 1)
      end
  end.

Definition apply_delta (user_id : Z) (source_deltas : gmap Z Z) (folder_id : Z)
  : M Database (Result unit) :=
  let delta := default 0%Z (source_deltas !! folder_id) in
  if (delta =? 0)%Z then mret (Ok tt)
  else
    count_updated ← ApplyItemCountDelta folder_id user_id delta date;
    mret (if negb count_updated then Err MoveFailed else Ok tt).

(** The names of a chunk that come from another folder. *)
Definition chunk_candidates (files : gmap Z (Z * string)) (target : Z) (chunk : list Z)
  : list string :=
  omap (λ file_id, '(folder_id, name) ← files !! file_id;
          if (folder_id =? target)%Z then None else Some name) chunk.

Fixpoint move_chunks (user_id target : Z) (location : FolderLocation)
    (files : gmap Z (Z * string)) (chunks : list (list Z)) (moved_file_count : Z)
  : M Database (Result Z) :=
  match chunks with
  | [] => mret (Ok moved_file_count)
  | chunk :: chunks =>
      occupied_names ← QueryOccupiedNames target user_id (chunk_candidates files target chunk);
      let* (source_deltas, moved_file_count) :=
        move_chunk user_id target location files chunk occupied_names ∅ moved_file_count in
      let* _ := for_each_result (iteration (map_to_list source_deltas).*1)
                  (apply_delta user_id source_deltas) in
      move_chunks user_id target location files chunks moved_file_count
  end.

(** [files[id] = { folder_id, name }]. *)
Definition located_files (fetched_files : list file_row) : gmap Z (Z * string) :=
  list_to_map ((λ f : file_row, (f.1, (f_folder_id f.2, f_name f.2))) <$> fetched_files).

Definition move_files (file_ids : list Z) (user_id target : Z) (location : FolderLocation)
  : M Database (Result Z) :=
  if decide (file_ids = []) then mret (Ok 0%Z)
  else
    fetched_files ← FetchOwnedFilesByIdsForUpdate file_ids user_id;
    let fetched_files : list file_row := fetched_files in
    let candidate_names :=
      sort_unique_names (f_name <$> (List.filter
        (λ f, negb (f_folder_id f =? target)%Z) fetched_files.*2)) in
    _ ← acquire_name_locks (AcquireNameLock user_id target) candidate_names;
    move_chunks user_id target location (located_files fetched_files) (Chunks file_ids) 0.

Fixpoint lock_each (folder_ids : list Z) (user_id : Z) : M Database unit :=
  match folder_ids with
  | [] => mret tt
  | folder_id :: folder_ids =>
      _ ← FindOwnedFolderForUpdate folder_id user_id; lock_each folder_ids user_id
  end.

(** The loop over the folders of a plan. *)
Fixpoint move_folders (root_id user_id target : Z) (old_prefix new_prefix : string)
    (depth_delta : Z) (rows : list folder) : M Database (Result unit) :=
  match rows with
  | [] => mret (Ok tt)
  | item :: rows =>
      match moved_path old_prefix new_prefix (d_path item.2) with
      | None => raise (RuntimeError "out of range")
      | Some new_path =>
          folder_updated ←
            (if (item.1 =? root_id)%Z
             then UpdateFolderLocationForMove item.1 user_id target new_path depth_delta date
             else UpdateFolderPathForMove item.1 user_id new_path depth_delta date);
          if negb folder_updated then mret (Err MoveFailed)
          else move_folders root_id user_id target old_prefix new_prefix depth_delta rows
      end
  end.

Definition count_item (folder_id user_id delta : Z) : M Database (Result unit) :=
  if (0 <? folder_id)%Z then
    count_updated ← ApplyItemCountDelta folder_id user_id delta date;
    mret (if negb count_updated then Err MoveFailed else Ok tt)
  else mret (Ok tt).

(** Moving the whole plan of one folder. *)
Definition move_plan (plan : FolderDeletePlan) (user_id target : Z) (location : FolderLocation)
  : M Database (Result unit) :=
  let root := pl_root plan in
  let old_prefix := d_path root.2 in
  let new_prefix := BuildFolderPath (fl_path location) (d_name root.2) in
  let depth_delta := (i32 (fl_depth location) + 1 - d_depth root.2)%Z in
  let* _ := move_folders root.1 user_id target old_prefix new_prefix depth_delta
              (pl_folders plan) in
  match folder_paths old_prefix new_prefix (pl_folders plan) with
  | None => raise (RuntimeError "out of range")
  | Some paths =>
      let* _ := rename_files date MoveFailed user_id paths (pl_files plan) in
      let* _ := count_item (d_parent_id root.2) user_id (-1) in
      count_item target user_id 1
  end.

Definition IntoItself : ErrorInfo :=
  mkErrorInfo ValidationFailed "Cannot move a folder into itself or its descendant".

Fixpoint move_plans (plans : list FolderDeletePlan) (user_id target : Z)
    (location : FolderLocation) (occupied_folder_names : gset string) (moved_folder_count : Z)
  : M Database (Result Z) :=
  match plans with
  | [] => mret (Ok moved_folder_count)
  | plan :: plans =>
      let root := pl_root plan in
      if bool_decide (target ∈ folder_ids_of plan) then mret (Err IntoItself)
      else if (d_parent_id root.2 =? target)%Z then
        move_plans plans user_id target location occupied_folder_names (moved_folder_count + 1)
      else if bool_decide (d_name root.2 ∈ occupied_folder_names) then
        move_plans plans user_id target location occupied_folder_names moved_folder_count
      else
        let* _ := move_plan plan user_id target location in
        move_plans plans user_id target location
          ({[d_name root.2]} ∪ occupied_folder_names) (moved_folder_count + 1)
  end.

Definition move_folder_items (folder_ids : list Z) (user_id target : Z)
    (location : FolderLocation) : M Database (Result Z) :=
  _ ← lock_each folder_ids user_id;
  folder_plans ← FetchBatchFolderDeletePlans iteration folder_ids user_id;
  let folder_plans : gmap Z FolderDeletePlan := folder_plans in
  let plans := plans_of (FilterCoveredFolderIds folder_ids folder_plans) folder_plans in
  let names :=
    sort_unique_names ((λ plan, d_name (pl_root plan).2) <$>
      List.filter (λ plan, negb (d_parent_id (pl_root plan).2 =? target)%Z) plans) in
  _ ← acquire_name_locks (Folders.AcquireNameLock user_id target) names;
  occupied ← QueryOccupiedFolderNames target user_id names;
  move_plans plans user_id target location occupied 0.

Definition move_items_body (file_ids folder_ids : list Z) (user_id target : Z)
    (location : FolderLocation) : M Database (Result (Z * Z)) :=
  let* moved_file_count := move_files file_ids user_id target location in
  let* moved_folder_count := move_folder_items folder_ids user_id target location in
  mret (Ok (moved_file_count, moved_folder_count)).

Definition Move (request : MoveRequest) (user_id : Z) : M Database (Result MoveResponse) :=
  let target := mv_target_folder_id request in
  let* target_location := ResolveOwnedFolderLocation target user_id in
  let* (n_files, n_folders) :=
    Run MoveFailed
      (move_items_body (sort_unique (mv_file_ids request)) (sort_unique (mv_folder_ids request))
         user_id target target_location) in
  mret (Ok (mkMoveResponse (n_files + n_folders) n_files n_folders)).

(** ** Deleting *)

Definition Delete (file_ids folder_ids : list Z) (user_id : Z)
  : M Database (Result DeleteResponse) :=
  let* moved :=
    MoveToTrash iteration toDbStringLocal date (mkMoveToTrashRequest file_ids folder_ids) user_id in
  mret (Ok (mkDeleteResponse (mr_deleted_count moved) (mr_deleted_file_count moved)
              (mr_deleted_folder_count moved))).
End service.

(** ** Lemmas *)

Local Close Scope string_scope.

#[export] Instance tx_body_resolve i u : TxBody (ResolveOwnedFolderLocation i u).
Proof. unfold ResolveOwnedFolderLocation. solve_tx_body. Qed.

#[export] Instance tx_body_rename_file to_db date i name u :
  TxBody (rename_file_body to_db date i name u).
Proof. unfold rename_file_body. solve_tx_body. Qed.

#[export] Instance tx_body_name_locks lock names :
  (∀ name, TxBody (lock name)) → TxBody (acquire_name_locks lock names).
Proof. intros. induction names; simpl; solve_tx_body. Qed.

#[export] Instance tx_body_move_chunk date u t l files chunk o ds n :
  TxBody (move_chunk date u t l files chunk o ds n).
Proof. revert o ds n. induction chunk; intros; simpl; solve_tx_body. Qed.

#[export] Instance tx_body_apply_delta date u ds i : TxBody (apply_delta date u ds i).
Proof. unfold apply_delta. solve_tx_body. Qed.

#[export] Instance tx_body_occupied_names t u names : TxBody (QueryOccupiedNames t u names).
Proof. unfold QueryOccupiedNames. solve_tx_body. Qed.

#[export] Instance tx_body_occupied_folders t u names : TxBody (QueryOccupiedFolderNames t u names).
Proof. unfold QueryOccupiedFolderNames. solve_tx_body. Qed.

#[export] Instance tx_body_move_chunks date iteration u t l files chunks n :
  TxBody (move_chunks date iteration u t l files chunks n).
Proof. revert n. induction chunks; intros; simpl; solve_tx_body. Qed.

#[export] Instance tx_body_move_files date iteration ids u t l :
  TxBody (move_files date iteration ids u t l).
Proof. unfold move_files. solve_tx_body. Qed.

#[export] Instance tx_body_lock_each ids u : TxBody (lock_each ids u).
Proof. induction ids; simpl; solve_tx_body. Qed.

#[export] Instance tx_body_move_folders date i u t old new k rows :
  TxBody (move_folders date i u t old new k rows).
Proof. induction rows; simpl; solve_tx_body. Qed.

#[export] Instance tx_body_count_item date i u n : TxBody (count_item date i u n).
Proof. unfold count_item. solve_tx_body. Qed.

#[export] Instance tx_body_move_plan date p u t l : TxBody (move_plan date p u t l).
Proof. unfold move_plan. solve_tx_body. Qed.

#[export] Instance tx_body_move_plans date ps u t l o n : TxBody (move_plans date ps u t l o n).
Proof. revert o n. induction ps; intros; simpl; solve_tx_body. Qed.

#[export] Instance tx_body_move_folder_items date iteration ids u t l :
  TxBody (move_folder_items date iteration ids u t l).
Proof. unfold move_folder_items. solve_tx_body. Qed.

#[export] Instance tx_body_move_items date iteration files ids u t l :
  TxBody (move_items_body date iteration files ids u t l).
Proof. unfold move_items_body. solve_tx_body. Qed.

Lemma runs_name_locks lock names snap s x s' :
  (∀ name, TxBody (lock name)) → (∀ name y t t', runs (lock name) snap t y t' → t' = t) →
  runs (acquire_name_locks lock names) snap s x s' → s' = s.
Proof.
  intros Hb Hl. revert s. induction names as [|name names IH]; intros s; simpl.
  - by intros [_ ->]%runs_ret.
  - intros H. run_bind H y t H1. apply Hl in H1 as ->. by apply IH.
Qed.

Lemma runs_occupied_names target u names snap s o s' :
  runs (QueryOccupiedNames target u names) snap s o s' → s' = s.
Proof.
  unfold QueryOccupiedNames. destruct (decide _); [by intros [_ ->]%runs_ret|].
  by intros [_ ->]%runs_query.
Qed.

Lemma runs_occupied_folders target u names snap s o s' :
  runs (QueryOccupiedFolderNames target u names) snap s o s' → s' = s.
Proof.
  unfold QueryOccupiedFolderNames. destruct (decide _); [by intros [_ ->]%runs_ret|].
  by intros [_ ->]%runs_query.
Qed.
