(* ===== verification/FileCopies.v ===== *)
(** * Copying files and folders

    [FileMutationService::Copy] of [src/src/services/FileMutationService.cpp]: the whole
    size of the request is reserved first; every chunk of files and every folder is then
    copied in a transaction of its own, which turns its share of the reservation into
    used space, and what is not copied is released. *)

From S2P Require Import Prelude Errors Db Schema Json Batch Names Quota Content Folders Files.
From S2P Require Import DeletePlans FolderService Trash FileMutations.

Local Open Scope string_scope.

(** ** Data *)

Record CopyRequest := mkCopyRequest {
  cy_file_ids : list Z;
  cy_folder_ids : list Z;
  cy_target_folder_id : Z
}.

Record FileIdMapping := mkFileIdMapping { im_old_id : Z; im_new_id : Z }.

Record CopyResponse := mkCopyResponse {
  cs_copied_count : Z;
  cs_copied_file_count : Z;
  cs_copied_folder_count : Z;
  cs_new_files : list FileIdMapping;
  cs_new_folders : list FileIdMapping
}.

(** What has been copied so far. *)
Record CopyProgress := mkCopyProgress {
  cp_new_files : list FileIdMapping;
  cp_new_folders : list FileIdMapping
}.

(** [total += file.size] on [uint64_t]. *)
Definition add_sizes (total : Z) (files : list file_row) : Z :=
  foldl (λ total (f : file_row), u64 (total + f_size f.2)) total files.

(** [content_ref_increment[content_id] += 1] for every file. *)
Definition content_refs (files : list file_row) : gmap Z Z :=
  foldl (λ refs (f : file_row),
    <[f_content_id f.2 := u64 (default 0 (refs !! f_content_id f.2) + 1)]> refs)%Z ∅ files.

(** The files whose name is free, each taking its name, and the size of the others. *)
Fixpoint pick_items (occupied_names : gset string) (files : list file_row) (skipped_size : Z)
  : list file_row * Z :=
  match files with
  | [] => ([], skipped_size)
  | f :: files =>
      if bool_decide (f_name f.2 ∈ occupied_names)
      then pick_items occupied_names files (u64 (skipped_size + f_size f.2))
      else let '(items, skipped) := pick_items ({[f_name f.2]} ∪ occupied_names) files skipped_size in
           (f :: items, skipped)
  end.

Definition CopyRefsFailed : ErrorInfo :=
  mkErrorInfo InternalError "Failed to update file content reference counts".
Definition CopyInsertFailed : ErrorInfo :=
  mkErrorInfo InternalError "Failed to insert copied files".
Definition CopyCountFailed : ErrorInfo :=
  mkErrorInfo InternalError "Failed to update target folder item count".

Section service.
(** The clock of the server, and the order in which an [unordered_map] with these keys
    is iterated. *)
Context (date : Z) (iteration : list Z → list Z).

(** ** Reservations *)

Definition release_copy_reservation (user_id bytes : Z) : M Database (Result unit) :=
  if (bytes =? 0)%Z then mret (Ok tt)
  else Run (err InternalError) (ReleaseReservedStorageChecked user_id bytes).

(** A query whose database exceptions are caught. *)
Definition try_query {A} (m : M Database A) : M Database (option A) :=
  catch_db (a ← m; mret (Some a)) (mret None).

Definition existing_contents (refs : gmap Z Z) : M Database (option (gset Z)) :=
  if decide (refs = ∅) then mret (Some ∅)
  else try_query (FindExistingIds (map_to_list refs).*1).

(** ** Copying a chunk of files *)

Definition copied_row (user_id target : Z) (path : string) (f : FileRow) (d : Database)
  : FileRow :=
  mkFileRow user_id (f_content_id f) target (f_name f) (f_extension f) (f_size f)
    (f_mime_type f) (BuildFilePath path (f_name f)) 0 0 (now d) (now d).

(** [INSERT INTO files (...) VALUES (...), (...) RETURNING id]: all the rows or none. *)
Fixpoint insert_copies (user_id target : Z) (path : string) (files : list file_row)
    (d : Database) : option (list Z * Database) :=
  match files with
  | [] => Some ([], d)
  | f :: files =>
      '(row, d') ← insert_file (copied_row user_id target path f.2 d) d;
      '(ids, d'') ← insert_copies user_id target path files d';
      Some ((row : file_row).1 :: ids, d'')
  end.

Definition InsertCopiedFiles (user_id target_folder_id : Z) (valid_items : list file_row)
  : M Database (Result (list FileIdMapping)) :=
  if decide (valid_items = []) then mret (Ok [])
  else
    let* target_location := ResolveOwnedFolderLocation target_folder_id user_id in
    catch_db
      (ids ← exec (insert_copies user_id target_folder_id (fl_path target_location) valid_items);
       let ids : list Z := ids in
       mret (if negb (Nat.eqb (length ids) (length valid_items)) then Err CopyInsertFailed
             else Ok (zip_with mkFileIdMapping valid_items.*1 ids)))
      (mret (Err CopyInsertFailed)).

(** The target row is locked; its absence is an error. *)
Definition lock_target_folder (target user_id : Z) (location : FolderLocation)
  : M Database (Result FolderLocation) :=
  if (0 <? target)%Z then
    locked_target ← FindOwnedFolderForUpdate target user_id;
    mret (match (locked_target : option folder) with
          | None => Err (err FolderNotFound)
          | Some (_, f) => Ok (mkFolderLocation (d_path f) (u32 (d_depth f)))
          end)
  else mret (Ok location).

Definition count_copies (target user_id n : Z) : M Database (Result unit) :=
  if ((0 <? target) && negb (n =? 0))%Z then
    target_count_updated ← ApplyItemCountDelta target user_id n date;
    mret (if negb target_count_updated then Err CopyCountFailed else Ok tt)
  else mret (Ok tt).

Definition content_exists (contents : gset Z) (f : file_row) : bool :=
  bool_decide (f_content_id f.2 ∈ contents).

(** Whether the content of some file is not among [contents]. *)
Definition content_missing (contents : gset Z) (files : list file_row) : bool :=
  existsb (λ f, negb (content_exists contents f)) files.

Definition copy_chunk_body (user_id target : Z) (valid_items : list file_row)
    (existing_content_ids : gset Z) : M Database (Result (list FileIdMapping)) :=
  let transaction_names := sort_unique_names (f_name <$> valid_items.*2) in
  _ ← acquire_name_locks (AcquireNameLock user_id target) transaction_names;
  let* _ := lock_target_folder target user_id root_location in
  (occupied ← QueryOccupiedNames target user_id transaction_names;
   let '(items, skipped_size) := pick_items occupied valid_items 0 in
   let* incremented_ids := IncrementRefCountsChecked (content_refs items) existing_content_ids in
   if content_missing incremented_ids items then mret (Err CopyRefsFailed)
   else
   let* id_mappings := InsertCopiedFiles user_id target items in
   let* _ := count_copies target user_id (Z.of_nat (length id_mappings)) in
   let* _ := CommitReservedToUsed user_id (add_sizes 0 items) in
   let* _ := ReleaseReservedStorageChecked user_id skipped_size in
   mret (Ok id_mappings)).

(** A part of the copy that is given up: its reservation is released. *)
Definition abandon (user_id bytes : Z) (p : CopyProgress) : M Database (Result CopyProgress) :=
  let* _ := release_copy_reservation user_id bytes in mret (Ok p).

Definition add_files_copied (p : CopyProgress) (mappings : list FileIdMapping) : CopyProgress :=
  mkCopyProgress (cp_new_files p ++ mappings) (cp_new_folders p).

Definition copy_valid_items (user_id target : Z) (existing_content_ids : gset Z)
    (valid_items : list file_row) (chunk_reserved_size skipped_size : Z) (p : CopyProgress)
  : M Database (Result CopyProgress) :=
  if decide (valid_items = []) then abandon user_id chunk_reserved_size p
  else
    tx_result ← Run (err InternalError)
                  (copy_chunk_body user_id target valid_items existing_content_ids);
    match (tx_result : Result (list FileIdMapping)) with
    | Err _ => abandon user_id chunk_reserved_size p
    | Ok mappings =>
        if (0 <? skipped_size)%Z
        then abandon user_id skipped_size (add_files_copied p mappings)
        else mret (Ok (add_files_copied p mappings))
    end.

Definition copy_chunk (user_id target : Z) (chunk : list file_row) (p : CopyProgress)
  : M Database (Result CopyProgress) :=
  let chunk_reserved_size := add_sizes 0 chunk in
  occupied ← try_query (QueryOccupiedNames target user_id (f_name <$> chunk.*2));
  match (occupied : option (gset string)) with
  | None => abandon user_id chunk_reserved_size p
  | Some occupied_names =>
      let '(pending_items, skipped_size) := pick_items occupied_names chunk 0 in
      existing ← existing_contents (content_refs pending_items);
      match (existing : option (gset Z)) with
      | None => abandon user_id chunk_reserved_size p
      | Some existing_content_ids =>
          copy_valid_items user_id target existing_content_ids
            (List.filter (content_exists existing_content_ids) pending_items) chunk_reserved_size
            (add_sizes skipped_size (List.filter
               (λ f, negb (content_exists existing_content_ids f)) pending_items)) p
      end
  end.

Fixpoint copy_chunks (user_id target : Z) (chunks : list (list file_row)) (p : CopyProgress)
  : M Database (Result CopyProgress) :=
  match chunks with
  | [] => mret (Ok p)
  | chunk :: chunks =>
      let* p := copy_chunk user_id target chunk p in copy_chunks user_id target chunks p
  end.

(** ** Copying a folder *)

(** The copies of the folders met so far, with their identifier and path. *)
Notation copies := (gmap Z (Z * string)).

Definition copied_folder_row (user_id parent_id : Z) (path : string) (depth : Z) (f : FolderRow)
  : FolderRow :=
  mkFolderRow user_id parent_id (d_name f) path (i32 depth) (d_item_count f) date date.

(** The loop over the folders of the plan below its root. *)
Fixpoint copy_folders (user_id root_depth : Z) (root : folder) (rows : list folder)
    (copied : copies) (mappings : list FileIdMapping)
  : M Database (copies * list FileIdMapping) :=
  match rows with
  | [] => mret (copied, mappings)
  | f :: rows =>
      if (f.1 =? root.1)%Z then copy_folders user_id root_depth root rows copied mappings
      else
      match copied !! d_parent_id f.2 with
      | None => raise (RuntimeError "Folder copy plan contains orphaned folder node")
      | Some (parent_id, parent_path) =>
          let folder_path := BuildFolderPath parent_path (d_name f.2) in
          let depth_delta := (if d_depth root.2 <? d_depth f.2
                              then d_depth f.2 - d_depth root.2 else 1)%Z in
          inserted ← exec (insert_folder (copied_folder_row user_id parent_id folder_path
                       (u32 (root_depth + depth_delta)) f.2));
          copy_folders user_id root_depth root rows
            (<[f.1 := ((inserted : folder).1, folder_path)]> copied)
            (mappings ++ [mkFileIdMapping f.1 (inserted : folder).1])%list
      end
  end.

(** The loop over the files of the plan. *)
Fixpoint copy_files (user_id : Z) (files : list file_row) (copied : copies)
    (mappings : list FileIdMapping) : M Database (list FileIdMapping) :=
  match files with
  | [] => mret mappings
  | f :: files =>
      match copied !! f_folder_id f.2 with
      | None => raise (RuntimeError "Folder copy plan contains orphaned file node")
      | Some (folder_id, path) =>
          inserted ← exec (insert_file
            (mkFileRow user_id (f_content_id f.2) folder_id (f_name f.2) (f_extension f.2)
               (f_size f.2) (f_mime_type f.2) (BuildFilePath path (f_name f.2)) 0 0 date date));
          copy_files user_id files copied
            (mappings ++ [mkFileIdMapping f.1 (inserted : file_row).1])%list
      end
  end.

(** Copying the rows of a plan below a folder at [location]. *)
Definition copy_tree (user_id target : Z) (location : FolderLocation) (plan : FolderDeletePlan)
  : M Database (Result (list FileIdMapping * list FileIdMapping)) :=
  let root := pl_root plan in
  let root_path := BuildFolderPath (fl_path location) (d_name root.2) in
  let root_depth := u32 (fl_depth location + 1) in
  inserted_root ← exec (insert_folder (copied_folder_row user_id target root_path root_depth root.2));
  let inserted_root : folder := inserted_root in
  '(copied, folder_mappings) ←
    copy_folders user_id root_depth root (pl_folders plan)
      {[root.1 := (inserted_root.1, root_path)]} [mkFileIdMapping root.1 inserted_root.1];
  file_mappings ← copy_files user_id (pl_files plan) copied [];
  let* _ := count_copies target user_id 1 in
  let* _ := CommitReservedToUsed user_id (pl_item_size plan) in
  mret (Ok (folder_mappings, file_mappings)).

(** The body of the transaction; a name that was taken meanwhile releases the
    reservation instead. *)
Definition copy_plan_body (user_id target : Z) (target_location : FolderLocation)
    (plan : FolderDeletePlan) (existing_content_ids : gset Z)
  : M Database (Result (list FileIdMapping * list FileIdMapping)) :=
  let root_name := d_name (pl_root plan).2 in
  _ ← Folders.AcquireNameLock user_id target root_name;
  let* location := lock_target_folder target user_id target_location in
  (occupied ← QueryOccupiedFolderNames target user_id [root_name];
   if bool_decide (root_name ∈ (occupied : gset string)) then
     let* _ := ReleaseReservedStorageChecked user_id (pl_item_size plan) in mret (Ok ([], []))
   else
   let* incremented_ids :=
     IncrementRefCountsChecked (content_refs (pl_files plan)) existing_content_ids in
   if content_missing incremented_ids (pl_files plan) then mret (Err CopyRefsFailed)
   else copy_tree user_id target location plan).

Definition copy_folder (user_id target : Z) (target_location : FolderLocation)
    (plan : FolderDeletePlan) (p : CopyProgress) : M Database (Result CopyProgress) :=
  existing ← existing_contents (content_refs (pl_files plan));
  match (existing : option (gset Z)) with
  | None => abandon user_id (pl_item_size plan) p
  | Some existing_content_ids =>
      if content_missing existing_content_ids (pl_files plan)
      then abandon user_id (pl_item_size plan) p
      else
        tx_result ← Run (err InternalError)
          (copy_plan_body user_id target target_location plan existing_content_ids);
        match (tx_result : Result (list FileIdMapping * list FileIdMapping)) with
        | Err _ => abandon user_id (pl_item_size plan) p
        | Ok (folder_mappings, file_mappings) =>
            mret (Ok (mkCopyProgress (cp_new_files p ++ file_mappings)
                        (cp_new_folders p ++ folder_mappings)))
        end
  end.

Fixpoint copy_plans (user_id target : Z) (target_location : FolderLocation)
    (plans : list FolderDeletePlan) (occupied_root_folder_names : gset string)
    (p : CopyProgress) : M Database (Result CopyProgress) :=
  match plans with
  | [] => mret (Ok p)
  | plan :: plans =>
      let root_name := d_name (pl_root plan).2 in
      if bool_decide (target ∈ folder_ids_of plan) ||
         bool_decide (root_name ∈ occupied_root_folder_names) then
        let* p := abandon user_id (pl_item_size plan) p in
        copy_plans user_id target target_location plans occupied_root_folder_names p
      else
        let* p := copy_folder user_id target target_location plan p in
        copy_plans user_id target target_location plans
          ({[root_name]} ∪ occupied_root_folder_names) p
  end.

Fixpoint abandon_plans (user_id : Z) (plans : list FolderDeletePlan) (p : CopyProgress)
  : M Database (Result CopyProgress) :=
  match plans with
  | [] => mret (Ok p)
  | plan :: plans =>
      let* p := abandon user_id (pl_item_size plan) p in abandon_plans user_id plans p
  end.

(** ** The whole copy *)

(** The rows of the files to copy, a chunk at a time; a chunk that cannot be read is
    skipped. *)
Fixpoint fetch_files_to_copy (user_id : Z) (chunks : list (list Z)) : M Database (list file_row) :=
  match chunks with
  | [] => mret []
  | chunk :: chunks =>
      rows ← try_query (query (λ d, omap (λ id, owned_file id user_id d) chunk));
      rest ← fetch_files_to_copy user_id chunks;
      mret (default [] (rows : option (list file_row)) ++ rest)%list
  end.

Definition copy_folder_plans (user_id target : Z) (target_location : FolderLocation)
    (plans : list FolderDeletePlan) (p : CopyProgress) : M Database (Result CopyProgress) :=
  occupied ← try_query (QueryOccupiedFolderNames target user_id
               ((λ plan, d_name (pl_root plan).2) <$> plans));
  match (occupied : option (gset string)) with
  | None => abandon_plans user_id plans p
  | Some occupied => copy_plans user_id target target_location plans occupied p
  end.

Definition Copy (request : CopyRequest) (user_id : Z) : M Database (Result CopyResponse) :=
  let requested_file_ids := sort_unique (cy_file_ids request) in
  let requested_folder_ids := sort_unique (cy_folder_ids request) in
  let target := cy_target_folder_id request in
  let* target_location := ResolveOwnedFolderLocation target user_id in
  (folder_plans ← FetchBatchFolderDeletePlans iteration requested_folder_ids user_id;
   let folder_plans : gmap Z FolderDeletePlan := folder_plans in
   let top_level_folder_ids := FilterCoveredFolderIds requested_folder_ids folder_plans in
   let covered_file_ids := CollectCoveredFileIds top_level_folder_ids folder_plans in
   let explicit_file_ids :=
     List.filter (λ id, negb (bool_decide (id ∈ covered_file_ids))) requested_file_ids in
   files_to_copy ← fetch_files_to_copy user_id (Chunks explicit_file_ids);
   let files_to_copy : list file_row := files_to_copy in
   let plans := plans_of top_level_folder_ids folder_plans in
   let total_copy_size :=
     foldl (λ total plan, u64 (total + pl_item_size plan))%Z (add_sizes 0 files_to_copy) plans in
   let* _ := if (0 <? total_copy_size)%Z
             then Run (err InternalError) (ReserveStorage user_id total_copy_size)
             else mret (Ok tt) in
   let* p := copy_chunks user_id target (Chunks files_to_copy) (mkCopyProgress [] []) in
   let* p := copy_folder_plans user_id target target_location plans p in
   let n_files := Z.of_nat (length (cp_new_files p)) in
   let n_folders := Z.of_nat (length (cp_new_folders p)) in
   mret (Ok (mkCopyResponse (n_files + n_folders) n_files n_folders
               (cp_new_files p) (cp_new_folders p)))).
End service.

(** ** Lemmas *)

Local Close Scope string_scope.

#[export] Instance tx_body_commit_reserved u n : TxBody (CommitReservedToUsed u n).
Proof. unfold CommitReservedToUsed, guarded_update. solve_tx_body. Qed.

#[export] Instance tx_body_release_reserved u n : TxBody (ReleaseReservedStorageChecked u n).
Proof. unfold ReleaseReservedStorageChecked, guarded_update. solve_tx_body. Qed.

#[export] Instance tx_body_reserve_storage u n : TxBody (ReserveStorage u n).
Proof. unfold ReserveStorage, guarded_update. solve_tx_body. Qed.

#[export] Instance tx_body_increments incs existing :
  TxBody (IncrementRefCountsChecked incs existing).
Proof. unfold IncrementRefCountsChecked. solve_tx_body. Qed.

#[export] Instance tx_body_insert_copied u t items : TxBody (InsertCopiedFiles u t items).
Proof. unfold InsertCopiedFiles. solve_tx_body. Qed.

#[export] Instance tx_body_lock_copy_target t u l : TxBody (lock_target_folder t u l).
Proof. unfold lock_target_folder. solve_tx_body. Qed.

#[export] Instance tx_body_count_copies date t u n : TxBody (count_copies date t u n).
Proof. unfold count_copies. solve_tx_body. Qed.

#[export] Instance tx_body_copy_chunk date u t items existing :
  TxBody (copy_chunk_body date u t items existing).
Proof. unfold copy_chunk_body. solve_tx_body. Qed.

#[export] Instance tx_body_copy_folders date u k root rows copied maps :
  TxBody (copy_folders date u k root rows copied maps).
Proof. revert copied maps. induction rows; intros; simpl; solve_tx_body. Qed.

#[export] Instance tx_body_copy_files date u files copied maps :
  TxBody (copy_files date u files copied maps).
Proof. revert copied maps. induction files; intros; simpl; solve_tx_body. Qed.

#[export] Instance tx_body_copy_tree date u t l p : TxBody (copy_tree date u t l p).
Proof. unfold copy_tree. solve_tx_body. Qed.

#[export] Instance tx_body_copy_plan date u t l p existing :
  TxBody (copy_plan_body date u t l p existing).
Proof. unfold copy_plan_body. solve_tx_body. Qed.
