(* ===== verification/Tree.v ===== *)
(** * The shape of a drive

    The invariant of the folders and files of a drive: every folder hangs below the
    root or below a folder of the same user, its path is the path of its parent
    followed by its name, its depth is one more than that of its parent, and every
    file has the path of its folder followed by its name
    ([BuildFolderPath] and [BuildFilePath] of [src/src/services/FileServiceUtils.cpp]).
    The services store paths and depths in the rows, so each operation that moves a
    folder rewrites its whole subtree. *)

From S2P Require Import Prelude Errors Db Schema Json Batch Names Folders Files DeletePlans.
From S2P Require Import FolderService.

Local Open Scope Z_scope.

(** ** Places and spots *)

(** What the tree is made of, in a row of [folders] and in a row of [files]. *)
Record Place := mkPlace {
  p_user : Z;
  p_parent : Z;
  p_name : string;
  p_path : string;
  p_depth : Z
}.

Record Spot := mkSpot {
  q_user : Z;
  q_folder : Z;
  q_name : string;
  q_path : string
}.

Definition place (f : FolderRow) : Place :=
  mkPlace (d_user_id f) (d_parent_id f) (d_name f) (d_path f) (d_depth f).

Definition spot (f : FileRow) : Spot :=
  mkSpot (f_user_id f) (f_folder_id f) (f_name f) (f_path f).

Definition places (d : Database) : gmap Z Place := place <$> folders d.
Definition spots (d : Database) : gmap Z Spot := spot <$> files d.

(** Where a folder identifier of a user leads: [0] is the root of the drive. *)
Definition location (P : gmap Z Place) (u i : Z) : option FolderLocation :=
  if i =? 0 then Some root_location
  else p ← P !! i;
       if p_user p =? u then Some (mkFolderLocation (p_path p) (p_depth p)) else None.

(** A folder agrees with its parent. *)
Definition folder_placed (P : gmap Z Place) (p : Place) : Prop :=
  ∃ l, location P (p_user p) (p_parent p) = Some l ∧ 0 <= fl_depth l ∧
    p_path p = BuildFolderPath (fl_path l) (p_name p) ∧ p_depth p = fl_depth l + 1.

(** A file agrees with its folder. *)
Definition file_placed (P : gmap Z Place) (q : Spot) : Prop :=
  ∃ l, location P (q_user q) (q_folder q) = Some l ∧
    q_path q = BuildFilePath (fl_path l) (q_name q).

Definition fits (p : Place) : Prop := char_length (p_path p) <= 4096.

Record tree_ok (P : gmap Z Place) (F : gmap Z Spot) : Prop := {
  to_folders : ∀ i p, P !! i = Some p → 0 < i ∧ folder_placed P p ∧ fits p;
  to_files : ∀ k q, F !! k = Some q → file_placed P q
}.

(** ** Paths *)

Lemma char_length_app s t : char_length (s +:+ t) = char_length s + char_length t.
Proof.
  unfold char_length, bytes_of_string.
  assert (∀ s t, String.list_ascii_of_string (s +:+ t) =
    app (String.list_ascii_of_string s) (String.list_ascii_of_string t)) as ->.
  { clear. induction s as [|c s IH]; intros t; simpl; [done|]. by rewrite IH. }
  rewrite fmap_app, List.filter_app, length_app. lia.
Qed.

Lemma char_length_nonneg s : 0 <= char_length s.
Proof. unfold char_length. lia. Qed.

Lemma substr_self s : substr (String.length s) s = ""%string.
Proof. rewrite <- (string_app_nil s) at 2. apply substr_app. Qed.

(** Below the root, paths are appended. *)
Lemma build_folder_path path name : 2 <= char_length path →
  BuildFolderPath path name = path +:+ (name +:+ "/").
Proof.
  intros H. unfold BuildFolderPath. destruct (String.eqb_spec path "/") as [->|]; [|done].
  by vm_compute in H.
Qed.

Lemma build_folder_path_length path name : path = "/"%string ∨ 2 <= char_length path →
  char_length path + 1 <= char_length (BuildFolderPath path name) ∧
  2 <= char_length (BuildFolderPath path name).
Proof.
  pose proof (char_length_nonneg name) as Hn.
  assert (char_length "/" = 1) as E by (by vm_compute).
  intros [->|H].
  - unfold BuildFolderPath. rewrite String.eqb_refl.
    change ("/" ++ name ++ "/")%string with ("/" +:+ (name +:+ "/")).
    rewrite !char_length_app. lia.
  - rewrite build_folder_path, !char_length_app by done. lia.
Qed.

Lemma moved_path_app old new rest : moved_path old new (old +:+ rest) = Some (new +:+ rest).
Proof.
  unfold moved_path, substr_at. rewrite (proj2 (Nat.leb_le _ _)).
  - simpl. by rewrite substr_app.
  - induction old; simpl; lia.
Qed.

(** ** Consequences of the invariant *)

Lemma location_Some P u i l : location P u i = Some l ↔
  (i = 0 ∧ l = root_location) ∨
  (i ≠ 0 ∧ ∃ p, P !! i = Some p ∧ p_user p = u ∧ l = mkFolderLocation (p_path p) (p_depth p)).
Proof.
  unfold location. destruct (Z.eqb_spec i 0) as [->|Hi].
  - naive_solver.
  - split.
    + intros (p & Hp & H)%bind_Some. case_match; [|done]. case_bools. right. naive_solver.
    + intros [[? _]|[_ (p & -> & Hu & ->)]]; [done|]. simpl. by rewrite Hu, Z.eqb_refl.
Qed.

(** The places are the same for a user whose folders did not change. *)
Lemma location_ext P P' u i : P' !! i = P !! i → location P' u i = location P u i.
Proof. intros E. unfold location. by rewrite E. Qed.

Section consequences.
Context (P : gmap Z Place) (F : gmap Z Spot) (HP : tree_ok P F).

Lemma depth_positive i p : P !! i = Some p → 1 <= p_depth p.
Proof. intros H. destruct (to_folders _ _ HP _ _ H) as (_ & (l & _ & ? & _ & ->) & _). lia. Qed.

(** The path of a folder is longer than its depth. *)
Lemma depth_path i p : P !! i = Some p → p_depth p < char_length (p_path p).
Proof.
  intros Hp. pose proof (depth_positive _ _ Hp) as H1. remember (Z.to_nat (p_depth p)) as n eqn:En.
  revert i p Hp H1 En. induction n as [|n IH]; intros i p Hp H1 En; [lia|].
  destruct (to_folders _ _ HP _ _ Hp) as (_ & (l & Hl & H0 & Epath & Edepth) & _).
  rewrite Epath, Edepth. apply location_Some in Hl as [[_ ->]|(_ & g & Hg & _ & ->)];
    unfold root_location in *; cbn [fl_path fl_depth] in *.
  - destruct (build_folder_path_length "/" (p_name p)); [by left|lia].
  - pose proof (depth_positive _ _ Hg). specialize (IH _ _ Hg).
    destruct (build_folder_path_length (p_path g) (p_name p)); [right|]; lia.
Qed.

Lemma path_length i p : P !! i = Some p → 2 <= char_length (p_path p).
Proof. intros H. pose proof (depth_path _ _ H). pose proof (depth_positive _ _ H). lia. Qed.

Lemma location_depth u i l : location P u i = Some l → 0 <= fl_depth l < 4096.
Proof.
  rewrite location_Some. intros [[_ ->]|(_ & p & Hp & _ & ->)]; cbn; [lia|].
  pose proof (depth_positive _ _ Hp). pose proof (depth_path _ _ Hp).
  destruct (to_folders _ _ HP _ _ Hp) as (_ & _ & Hfit). unfold fits in Hfit. lia.
Qed.

Lemma location_path u i l : location P u i = Some l →
  fl_path l = "/"%string ∨ 2 <= char_length (fl_path l).
Proof.
  rewrite location_Some. intros [[_ ->]|(_ & p & Hp & _ & ->)]; cbn; [by left|right].
  by eapply path_length.
Qed.

(** A folder directly inside another one. *)
Lemma child_path i j p q : P !! i = Some p → P !! j = Some q → p_parent p = j →
  p_user p = p_user q → p_path p = p_path q +:+ (p_name p +:+ "/") ∧ p_depth p = p_depth q + 1.
Proof.
  intros Hp Hq <- Hu. destruct (to_folders _ _ HP _ _ Hp) as (_ & (l & Hl & _ & -> & ->) & _).
  apply location_Some in Hl as [[E _]|(_ & g & Hg & _ & ->)].
  - rewrite E in Hq. destruct (to_folders _ _ HP _ _ Hq). lia.
  - rewrite Hq in Hg. injection Hg as <-. cbn. split; [|done].
    by eapply build_folder_path, path_length.
Qed.
End consequences.

(** ** A new folder *)

Lemma tree_insert_folder P F i p : tree_ok P F → 0 < i → P !! i = None →
  folder_placed P p → fits p → tree_ok (<[i := p]> P) F.
Proof.
  intros HP Hi Hfresh Hp Hfit.
  assert (∀ u j l, location P u j = Some l → location (<[i := p]> P) u j = Some l) as Hloc.
  { intros u j l Hl. rewrite <- Hl. apply location_Some in Hl as [[-> _]|(_ & g & Hg & _)]; [done|].
    apply location_ext, lookup_insert_ne. congruence. }
  assert (∀ q, folder_placed P q → folder_placed (<[i := p]> P) q) as Hfold.
  { intros q (l & Hl & H). exists l. split; [by apply Hloc|done]. }
  split.
  - intros j q [[<- <-]|[_ Hq]]%lookup_insert_Some; [by auto|].
    destruct (to_folders _ _ HP _ _ Hq) as (? & ? & ?). by auto.
  - intros k q Hq. destruct (to_files _ _ HP _ _ Hq) as (l & Hl & E). exists l. by auto.
Qed.

Lemma tree_insert_file P F k q : tree_ok P F → file_placed P q → tree_ok P (<[k := q]> F).
Proof.
  intros HP Hq. split; [apply HP|].
  intros j r [[<- <-]|[_ Hr]]%lookup_insert_Some; [done|]. by eapply to_files.
Qed.

(** ** Moving a subtree

    The folders [ids] are the subtree of [root]; its place becomes [p'], below a
    folder outside of the subtree, and the paths and depths of the others follow. *)

Definition moved_place (p p' q : Place) : Place :=
  mkPlace (p_user q) (p_parent q) (p_name q)
    (p_path p' +:+ substr (String.length (p_path p)) (p_path q))
    (p_depth q + (p_depth p' - p_depth p)).

Definition moved_spot (P' : gmap Z Place) (q : Spot) : Spot :=
  mkSpot (q_user q) (q_folder q) (q_name q)
    (BuildFilePath (default "" (p_path <$> P' !! q_folder q)) (q_name q)).

(** [ids] is closed upwards and downwards. *)
Record is_subtree (P : gmap Z Place) (u root : Z) (p : Place) (ids : list Z) : Prop := {
  is_root : P !! root = Some p ∧ p_user p = u ∧ root ∈ ids;
  is_real : ∀ i, i ∈ ids → is_Some (P !! i);
  is_down : ∀ i q, P !! i = Some q → p_user q = u → p_parent q ∈ ids → i ∈ ids;
  is_up : ∀ i q, i ∈ ids → P !! i = Some q → p_user q = u ∧
    (∃ rest, p_path q = p_path p +:+ rest) ∧ (i = root ∨ p_parent q ∈ ids)
}.

Section relocate.
Context (P P' : gmap Z Place) (F F' : gmap Z Spot) (u root : Z) (p p' : Place) (ids : list Z).
Context (HP : tree_ok P F) (Hids : is_subtree P u root p ids).
Context (l : FolderLocation) (Hu : p_user p' = u) (Hparent : p_parent p' ∉ ids)
  (Hl : location P u (p_parent p') = Some l)
  (Hpath : p_path p' = BuildFolderPath (fl_path l) (p_name p'))
  (Hdepth : p_depth p' = fl_depth l + 1).
Context (HP' : ∀ i, P' !! i =
  if decide (i ∈ ids) then if i =? root then Some p' else moved_place p p' <$> P !! i
  else P !! i).
Context (Hfits : ∀ i q, P' !! i = Some q → fits q).
Context (HF' : ∀ k, F' !! k =
  (λ q, if (q_user q =? u) && bool_decide (q_folder q ∈ ids) then moved_spot P' q else q) <$>
    F !! k).

Lemma new_path_length : 2 <= char_length (p_path p').
Proof.
  rewrite Hpath. destruct (build_folder_path_length (fl_path l) (p_name p')); [|done].
  by eapply location_path.
Qed.

Lemma location_outside v i : i ∉ ids → location P' v i = location P v i.
Proof. intros Hi. apply location_ext. by rewrite HP', decide_False. Qed.

(** The new place of a folder of the subtree. *)
Lemma moved_lookup i q : i ∈ ids → P !! i = Some q →
  ∃ q' rest, P' !! i = Some q' ∧ p_user q' = u ∧ p_path q = p_path p +:+ rest ∧
    p_path q' = p_path p' +:+ rest ∧ p_depth q' = p_depth q + (p_depth p' - p_depth p).
Proof.
  intros Hi Hq. destruct (is_up _ _ _ _ _ Hids _ _ Hi Hq) as (Huq & (rest & Er) & _).
  rewrite HP', decide_True by done. destruct (Z.eqb_spec i root) as [->|Hne].
  - destruct (is_root _ _ _ _ _ Hids) as (Hp & _). rewrite Hp in Hq. injection Hq as <-.
    exists p', ""%string. split_and!; [done|done| |by rewrite string_app_nil|lia].
    by rewrite string_app_nil.
  - rewrite Hq. simpl. eexists _, rest. split_and!; [done|done|done| |done].
    simpl. by rewrite Er, substr_app.
Qed.

(** A folder of the subtree is where its own children look for it. *)
Lemma moved_location i : i ∈ ids → ∃ q rest, P !! i = Some q ∧ p_path q = p_path p +:+ rest ∧
  location P' u i = Some (mkFolderLocation (p_path p' +:+ rest)
    (p_depth q + (p_depth p' - p_depth p))).
Proof.
  intros Hi. destruct (is_real _ _ _ _ _ Hids _ Hi) as [q Hq].
  destruct (moved_lookup _ _ Hi Hq) as (q' & rest & Hq' & Hu' & Er & Ep & Ed).
  exists q, rest. split_and!; [done|done|]. apply location_Some. right. split.
  - destruct (to_folders _ _ HP _ _ Hq). lia.
  - exists q'. by rewrite <- Ep, <- Ed.
Qed.

Lemma moved_path_length rest : 2 <= char_length (p_path p' +:+ rest).
Proof.
  rewrite char_length_app. pose proof new_path_length. pose proof (char_length_nonneg rest). lia.
Qed.

Lemma old_depth i q : i ∈ ids → P !! i = Some q → p_depth p <= p_depth q.
Proof.
  intros Hi Hq. remember (Z.to_nat (p_depth q)) as n eqn:En.
  revert i q Hi Hq En. induction n as [n IH] using lt_wf_ind. intros i q Hi Hq ->.
  destruct (is_up _ _ _ _ _ Hids _ _ Hi Hq) as (Huq & _ & [->|Hj]).
  - destruct (is_root _ _ _ _ _ Hids) as (Hp & _). rewrite Hp in Hq. by injection Hq as <-.
  - destruct (is_real _ _ _ _ _ Hids _ Hj) as [g Hg].
    destruct (is_up _ _ _ _ _ Hids _ _ Hj Hg) as (Hug & _).
    destruct (child_path _ _ HP i (p_parent q) q g) as [_ E]; [done..|congruence|].
    pose proof (depth_positive _ _ HP _ _ Hg).
    assert (p_depth p <= p_depth g); [|lia]. eapply IH; [|done..]. lia.
Qed.

Lemma moved_folder_placed i q : i ∈ ids → i ≠ root → P !! i = Some q →
  folder_placed P' (moved_place p p' q).
Proof.
  intros Hi Hne Hq.
  destruct (is_up _ _ _ _ _ Hids _ _ Hi Hq) as (Huq & (rest & Er) & [?|Hj]); [done|].
  destruct (moved_location _ Hj) as (g & rest' & Hg & Eg & Hloc).
  destruct (is_up _ _ _ _ _ Hids _ _ Hj Hg) as (Hug & _).
  destruct (child_path _ _ HP i (p_parent q) q g) as [Epath Edepth]; [done..|congruence|].
  exists (mkFolderLocation (p_path p' +:+ rest') (p_depth g + (p_depth p' - p_depth p))).
  cbn. rewrite Huq. split_and!; [done| | |lia].
  - pose proof (old_depth _ _ Hj Hg). rewrite Hdepth.
    pose proof (location_depth _ _ HP _ _ _ Hl). lia.
  - rewrite build_folder_path by apply moved_path_length.
    rewrite Epath, Eg, !string_app_assoc, substr_app. done.
Qed.

Lemma tree_relocate : tree_ok P' F'.
Proof.
  pose proof (is_root _ _ _ _ _ Hids) as (Hp & Hup & Hroot).
  assert (∀ v i, i ∉ ids → location P' v i = location P v i) as Hout by apply location_outside.
  split.
  - intros i q' Hq'. pose proof (Hfits _ _ Hq') as Hfit. rewrite HP' in Hq'.
    case_decide as Hi.
    + destruct (is_real _ _ _ _ _ Hids _ Hi) as [q Hq].
      destruct (to_folders _ _ HP _ _ Hq) as (Hi0 & _).
      split_and!; [done| |done]. destruct (Z.eqb_spec i root) as [->|Hne].
      * injection Hq' as <-. exists l. rewrite Hout by done. rewrite Hu.
        pose proof (location_depth _ _ HP _ _ _ Hl). split_and!; [done|lia|done|done].
      * rewrite Hq in Hq'. simpl in Hq'. injection Hq' as <-. by eapply moved_folder_placed.
    + destruct (to_folders _ _ HP _ _ Hq') as (? & (l0 & Hl0 & H0) & _).
      split_and!; [done| |done]. exists l0. split; [|done]. rewrite Hout; [done|].
      intros Hj. destruct (is_real _ _ _ _ _ Hids _ Hj) as [g Hg].
      destruct (is_up _ _ _ _ _ Hids _ _ Hj Hg) as (Hug & _).
      destruct (to_folders _ _ HP _ _ Hg) as (? & _).
      apply location_Some in Hl0 as [[? _]|(_ & g' & Hg' & Huu & _)]; [lia|].
      apply Hi. eapply (is_down _ _ _ _ _ Hids); [done|congruence|done].
  - intros k q' Hq'. rewrite HF' in Hq'. apply fmap_Some in Hq' as (q & Hq & ->).
    destruct (to_files _ _ HP _ _ Hq) as (l0 & Hl0 & E0).
    destruct (Z.eqb_spec (q_user q) u) as [Huq|Huq]; simpl; [case_bool_decide as Hj|].
    + destruct (moved_location _ Hj) as (g & rest & Hg & Eg & Hloc).
      eexists. split; [simpl; rewrite Huq; exact Hloc|]. simpl.
      apply location_Some in Hloc as [[E _]|(_ & q'' & -> & _ & [= -> _])]; [|done].
      destruct (to_folders _ _ HP _ _ Hg). lia.
    + exists l0. by rewrite Hout.
    + exists l0. split; [|done]. rewrite Hout; [done|]. intros Hj.
      destruct (is_real _ _ _ _ _ Hids _ Hj) as [g Hg].
      destruct (is_up _ _ _ _ _ Hids _ _ Hj Hg) as (Hug & _).
      destruct (to_folders _ _ HP _ _ Hg) as (? & _).
      apply location_Some in Hl0 as [[? _]|(_ & g' & Hg' & Huu & _)]; [lia|congruence].
Qed.
End relocate.
