(* ===== verification/TreeUpdates.v ===== *)
(** * Statements and loops on the tree

    What the statements of [Folders.v] and [Files.v] and the loops of the services do
    to the places of folders and the spots of files. *)

From S2P Require Import Prelude Errors Db Schema Json Batch Names Folders Files DeletePlans.
From S2P Require Import FolderService FileMutations Tree.

Local Open Scope Z_scope.

(** ** The invariant of a database *)

Record well_placed (d : Database) : Prop := {
  wp_tree : tree_ok (places d) (spots d);
  wp_ids : ∀ i, is_Some (folders d !! i) → i < folders_id_seq d;
  wp_seq : 0 < folders_id_seq d
}.

(** Changes the tree does not see. *)
Record same_tree (d d' : Database) : Prop := {
  st_places : places d' = places d;
  st_spots : spots d' = spots d;
  st_seq : folders_id_seq d' = folders_id_seq d
}.

#[export] Instance same_tree_preorder : PreOrder same_tree.
Proof. split; [by intros d; split|]. intros d1 d2 d3 [] []. split; congruence. Qed.

Lemma places_lookup d i : places d !! i = place <$> folders d !! i.
Proof. unfold places. by rewrite lookup_fmap. Qed.

Lemma spots_lookup d k : spots d !! k = spot <$> files d !! k.
Proof. unfold spots. by rewrite lookup_fmap. Qed.

Lemma folder_ids_places d d' : places d' = places d →
  ∀ i, is_Some (folders d' !! i) ↔ is_Some (folders d !! i).
Proof.
  intros E i. rewrite <- (fmap_is_Some place), <- (fmap_is_Some place (folders d !! i)).
  by rewrite <- !places_lookup, E.
Qed.

Lemma well_placed_same d d' : well_placed d → same_tree d d' → well_placed d'.
Proof.
  intros [Ht Hi Hs] [E1 E2 E3]. split.
  - by rewrite E1, E2.
  - intros i. rewrite (folder_ids_places _ _ E1), E3. apply Hi.
  - by rewrite E3.
Qed.

Lemma places_put i f d : places (put_folder i f d) = <[i := place f]> (places d).
Proof. unfold places. cbn. by rewrite fmap_insert. Qed.

Lemma spots_put k f d : spots (put_file k f d) = <[k := spot f]> (spots d).
Proof. unfold spots. cbn. by rewrite fmap_insert. Qed.

(** [owned_folder] is [location]. *)
Lemma owned_location i u d kf : owned_folder i u d = Some kf → i ≠ 0 →
  location (places d) u i = Some (mkFolderLocation (d_path kf.2) (d_depth kf.2)).
Proof.
  intros (_ & Hf & Hu)%owned_folder_Some Hi. apply location_Some. right. split; [done|].
  exists (place kf.2). by rewrite places_lookup, Hf.
Qed.

Lemma location_root P u : location P u 0 = Some root_location.
Proof. done. Qed.

(** ** Statements *)

Lemma check_folder_fits f : check_folder f = true → fits (place f).
Proof. unfold check_folder, varchar, fits. rewrite andb_true_iff, !Z.leb_le. tauto. Qed.

Lemma update_folder_true i u set d d' : update_folder i u set d = Some (true, d') →
  ∃ f f', folders d !! i = Some f ∧ d_user_id f = u ∧ set f = Some f' ∧
    check_folder f' = true ∧ d' = put_folder i (modified_folder d f') d.
Proof.
  unfold update_folder. destruct (owned_folder i u d) as [[j f]|] eqn:E; [|done].
  apply owned_folder_Some in E. simpl in E. destruct E as (-> & Hf & Hu).
  intros (g & (f' & Hset & ->)%fmap_Some & H)%bind_Some. case_match eqn:Hc; [|done]. simplify_eq.
  apply andb_true_iff in Hc as [Hc _]. eauto 10.
Qed.

Lemma update_folder_false i u set d d' : update_folder i u set d = Some (false, d') → d' = d.
Proof.
  unfold update_folder. destruct (owned_folder i u d) as [[j f]|]; [|by intros [= <-]].
  intros (f' & _ & H)%bind_Some. by case_match.
Qed.

Lemma update_file_true k u set d d' : update_file k u set d = Some (true, d') →
  ∃ f, files d !! k = Some f ∧ f_user_id f = u ∧ d' = put_file k (modified_file d (set f)) d.
Proof.
  unfold update_file. destruct (owned_file k u d) as [[j f]|] eqn:E; [|done].
  apply owned_file_Some in E. simpl in E. destruct E as (-> & Hf & Hu). case_match; [|done].
  intros [= <-]. eauto.
Qed.

Lemma update_file_false k u set d d' : update_file k u set d = Some (false, d') → d' = d.
Proof.
  unfold update_file. destruct (owned_file k u d) as [[j f]|]; [|by intros [= <-]].
  by case_match.
Qed.

(** Item counts are not part of the tree. *)
Lemma runs_count_delta i u n t snap s b s' :
  runs (ApplyItemCountDelta i u n t) snap s b s' → same_tree s s'.
Proof.
  unfold ApplyItemCountDelta. rewrite runs_exec. destruct b.
  - intros (f & f' & Hf & _ & Hset & _ & ->)%update_folder_true.
    apply bind_Some in Hset as (m & _ & [= <-]). split; [|done|done].
    rewrite places_put. apply insert_id. by rewrite places_lookup, Hf.
  - by intros ->%update_folder_false.
Qed.

Lemma runs_count_item date i u n snap s s' :
  runs (count_item date i u n) snap s (Ok tt) s' → same_tree s s'.
Proof.
  unfold count_item. destruct (0 <? i); [|by intros [_ ->]%runs_ret].
  intros H. run_bind H b t H1. apply runs_count_delta in H1.
  apply runs_ret in H as [_ ->]. done.
Qed.

Lemma runs_resolve i u snap s l s' : 0 <= i →
  runs (ResolveOwnedFolderLocation i u) snap s (Ok l) s' →
  s' = s ∧ location (places s) u i = Some l.
Proof.
  intros Hi. unfold ResolveOwnedFolderLocation. destruct (Z.eqb_spec i 0) as [->|Hne].
  - intros [[= ->] ->]%runs_ret. done.
  - rewrite runs_catch_db by solve_tx_body. intros H. run_bind H r t H1.
    apply runs_query in H1 as [-> ->]. apply runs_ret in H as [H ->]. split; [done|].
    destruct (owned_folder i u s) as [[j f]|] eqn:E; [|done]. simplify_eq.
    by apply (owned_location _ _ _ _ E).
Qed.

(** Inserting a folder below a folder of the user. *)
Lemma insert_folder_placed f d kf d' : well_placed d → folder_placed (places d) (place f) →
  insert_folder_statement f d = Some (Some kf, d') → well_placed d'.
Proof.
  intros [Ht Hids Hs] Hp. unfold insert_folder_statement.
  intros (id & [-> _]%bigint_Some & H)%bind_Some. destruct (check_folder f) eqn:Hc; [|done].
  simpl in H. destruct (exists_row _ _); [done|]. case_match; [|done]. simplify_eq.
  split.
  - rewrite places_put. change (tree_ok (<[folders_id_seq d := place f]> (places d)) (spots d)).
    apply tree_insert_folder; [done..| |done|by apply check_folder_fits].
    rewrite places_lookup, fmap_None. apply eq_None_not_Some. intros H'%Hids. lia.
  - cbn. intros i. destruct (decide (i = folders_id_seq d)) as [->|Hne]; [lia|].
    rewrite lookup_insert_ne by done. intros ?%Hids. lia.
  - cbn. lia.
Qed.

(** ** Rewriting rows *)

(** One update per row. *)
Fixpoint rewritten (u : Z) (set : folder → FolderRow → option FolderRow) (rows : list folder)
    (s s' : Database) : Prop :=
  match rows with
  | [] => s' = s
  | item :: rows =>
      ∃ t, update_folder item.1 u (set item) s = Some (true, t) ∧ rewritten u set rows t s'
  end.

Lemma rewritten_rows u set rows s s' : NoDup rows.*1 → rewritten u set rows s s' →
  spots s' = spots s ∧ folders_id_seq s' = folders_id_seq s ∧
  (∀ i, i ∉ rows.*1 → folders s' !! i = folders s !! i) ∧
  ∀ item, item ∈ rows → ∃ f f', folders s !! item.1 = Some f ∧ d_user_id f = u ∧
    set item f = Some f' ∧ check_folder f' = true ∧ folders s' !! item.1 = Some (modified_folder s f').
Proof.
  revert s. induction rows as [|item rows IH]; intros s; simpl.
  - intros _ ->. split_and!; [done..|]. by intros ? ?%elem_of_nil.
  - intros [Hnot Hnd]%NoDup_cons (t & (f & f' & Hf & Hu & Hset & Hc & ->)%update_folder_true & H).
    destruct (IH _ Hnd H) as (E1 & E2 & E3 & E4). split_and!; [done|done|..].
    + intros i [Hne Hi]%not_elem_of_cons. rewrite E3 by done. by apply lookup_insert_ne.
    + intros it [->|Hit]%elem_of_cons.
      * exists f, f'. split_and!; [done..|]. rewrite E3 by done. apply lookup_insert_eq.
      * destruct (E4 _ Hit) as (g & g' & Hg & Hrest). exists g, g'. split; [|done].
        rewrite <- Hg. symmetry. apply lookup_insert_ne. intros E. apply Hnot.
        rewrite E. by apply list_elem_of_fmap_2.
Qed.

Lemma runs_rename_folders date i u name old new rows snap s s' :
  runs (rename_folders date i u name old new rows) snap s (Ok tt) s' →
  rewritten u (λ item f, path ← moved_path old new (d_path item.2);
    Some (if item.1 =? i then f <| d_name := name |> <| d_path := path |> <| d_updated_at := date |>
          else f <| d_path := path |> <| d_updated_at := date |>)) rows s s'.
Proof.
  revert s. induction rows as [|item rows IH]; intros s; simpl; [by intros [_ ->]%runs_ret|].
  destruct (moved_path _ _ _) as [path|]; [|by intros ?%runs_raise].
  intros H. run_bind H updated t H1. destruct updated; simpl in H; [|by apply runs_ret in H as []].
  exists t. split; [|by apply IH]. revert H1. simpl.
  destruct (item.1 =? i); unfold RenameFolderPath, UpdateFolderPath; by rewrite runs_exec.
Qed.

Lemma runs_move_folders date i u target old new n rows snap s s' :
  runs (move_folders date i u target old new n rows) snap s (Ok tt) s' →
  rewritten u (λ item f, path ← moved_path old new (d_path item.2); m ← int4 (d_depth f + n);
    Some (if item.1 =? i
          then f <| d_parent_id := target |> <| d_path := path |> <| d_depth := m |>
                 <| d_updated_at := date |>
          else f <| d_path := path |> <| d_depth := m |> <| d_updated_at := date |>)) rows s s'.
Proof.
  revert s. induction rows as [|item rows IH]; intros s; simpl; [by intros [_ ->]%runs_ret|].
  destruct (moved_path _ _ _) as [path|]; [|by intros ?%runs_raise].
  intros H. run_bind H updated t H1. destruct updated; simpl in H; [|by apply runs_ret in H as []].
  exists t. split; [|by apply IH]. revert H1. simpl.
  destruct (item.1 =? i); unfold UpdateFolderLocationForMove, UpdateFolderPathForMove;
    by rewrite runs_exec.
Qed.

Lemma folder_paths_lookup old new rows paths : NoDup rows.*1 →
  folder_paths old new rows = Some paths →
  (∀ i, i ∉ rows.*1 → paths !! i = None) ∧
  ∀ item, item ∈ rows → paths !! item.1 = moved_path old new (d_path item.2).
Proof.
  revert paths. induction rows as [|item rows IH]; intros paths; simpl.
  - intros _ [= <-]. split; [intros; apply lookup_empty|]. by intros ? ?%elem_of_nil.
  - intros [Hnot Hnd]%NoDup_cons (path & Hpath & H)%bind_Some.
    apply bind_Some in H as (rest & Hrest & [= <-]). destruct (IH _ Hnd Hrest) as [E1 E2]. split.
    + intros i [Hne Hi]%not_elem_of_cons. rewrite lookup_insert_ne by done. by apply E1.
    + intros it [->|Hit]%elem_of_cons; [by rewrite lookup_insert_eq|].
      rewrite lookup_insert_ne; [by apply E2|]. intros E. apply Hnot. rewrite E.
      by apply list_elem_of_fmap_2.
Qed.

Lemma folder_paths_dom old new rows paths i : folder_paths old new rows = Some paths →
  i ∈ (map_to_list paths).*1 ↔ i ∈ rows.*1.
Proof.
  intros H. rewrite list_elem_of_fmap.
  assert (is_Some (paths !! i) ↔ i ∈ rows.*1) as <-.
  { revert paths H. induction rows as [|item rows IH]; intros paths; cbn [folder_paths].
    - intros [= <-]. rewrite lookup_empty, is_Some_alt, elem_of_nil. done.
    - intros (path & _ & H)%bind_Some. apply bind_Some in H as (rest & Hrest & [= <-]).
      rewrite fmap_cons, elem_of_cons, <- (IH _ Hrest), lookup_insert_is_Some.
      destruct (decide (item.1 = i)); naive_solver. }
  split.
  - intros ([j path] & -> & H'%elem_of_map_to_list). eauto.
  - intros [path Hpath]. exists (i, path). by rewrite elem_of_map_to_list.
Qed.

(** The files whose folder has a new path get theirs. *)
Definition follow (paths : gmap Z string) (q : Spot) : Spot :=
  match paths !! q_folder q with
  | Some path => mkSpot (q_user q) (q_folder q) (q_name q) (BuildFilePath path (q_name q))
  | None => q
  end.

Lemma follow_idemp paths q : follow paths (follow paths q) = follow paths q.
Proof.
  unfold follow. destruct (paths !! q_folder q) as [path|] eqn:E; simpl; by rewrite ?E.
Qed.

Lemma runs_rename_files date failed u paths rows snap s s' :
  (∀ g : file_row, g ∈ rows → ∃ f, files s !! g.1 = Some f ∧ f_folder_id f = f_folder_id g.2 ∧
     f_name f = f_name g.2) →
  runs (rename_files date failed u paths rows) snap s (Ok tt) s' →
  places s' = places s ∧ folders_id_seq s' = folders_id_seq s ∧
  ∀ k, spots s' !! k = (if decide (k ∈ rows.*1) then follow paths else id) <$> spots s !! k.
Proof.
  revert s. induction rows as [|g rows IH]; intros s Hrows; cbn [rename_files]; rewrite ?fmap_cons.
  - intros [_ ->]%runs_ret. split_and!; [done..|]. intros k.
    rewrite decide_False by apply not_elem_of_nil. by rewrite option_fmap_id.
  - destruct (Hrows g) as (f & Hf & Ef & En); [by left|].
    destruct (paths !! f_folder_id g.2) as [path|] eqn:Ep.
    + intros H. run_bind H b t H1. destruct b; simpl in H; [|by apply runs_ret in H as []].
      unfold UpdateFilePath in H1. apply runs_exec, update_file_true in H1 as (f0 & Hf0 & _ & ->).
      rewrite Hf in Hf0. injection Hf0 as <-.
      edestruct IH as (E1 & E2 & E3); [|exact H|].
      { intros h Hh. destruct (Hrows h) as (f1 & Hf1 & ? & ?); [by right|]. cbn.
        destruct (decide (g.1 = h.1)) as [E|Hne].
        - rewrite E in *. rewrite Hf in Hf1. injection Hf1 as <-. rewrite lookup_insert_eq. eauto.
        - rewrite lookup_insert_ne by done. eauto. }
      split_and!; [done|done|]. intros k. rewrite E3, spots_put.
      destruct (decide (k = g.1)) as [->|Hne].
      * rewrite lookup_insert_eq, (decide_True (P := g.1 ∈ g.1 :: rows.*1)) by (by left).
        rewrite spots_lookup, Hf. simpl.
        match goal with |- context [spot (modified_file ?d ?h)] =>
          assert (follow paths (spot f) = spot (modified_file d h)) as Efol end.
        { unfold follow, spot. cbn. by rewrite Ef, Ep, En. }
        rewrite <- Efol. case_decide; [|done]. by rewrite follow_idemp.
      * rewrite lookup_insert_ne by done. f_equal.
        destruct (decide (k ∈ rows.*1)); [rewrite decide_True by (by right)|
          rewrite decide_False by set_solver]; done.
    + intros H. edestruct IH as (E1 & E2 & E3); [|exact H|].
      { intros h Hh. apply Hrows. by right. }
      split_and!; [done|done|]. intros k. rewrite E3.
      destruct (decide (k = g.1)) as [->|Hne].
      * rewrite (decide_True (P := g.1 ∈ g.1 :: rows.*1)) by (by left).
        rewrite spots_lookup, Hf. simpl. unfold follow at 2. cbn. rewrite Ef, Ep.
        case_decide; [|done]. unfold follow. cbn. by rewrite Ef, Ep.
      * f_equal. destruct (decide (k ∈ rows.*1)); [rewrite decide_True by (by right)|
          rewrite decide_False by set_solver]; done.
Qed.
