(* ===== verification/TreeShape.v ===== *)
(** * Operations keep the shape of a drive

    Creating and renaming folders, renaming files and moving items keep the invariant
    of [Tree.v], whatever fails. *)

From S2P Require Import Prelude Errors Storage Db Rely Schema Json Batch Names Folders Files DeletePlans.
From S2P Require Import FolderService Trash TrashTrees FileMutations Tree TreeUpdates.

Local Open Scope Z_scope.

(** ** Subtrees *)

Lemma well_placed_depths d u : well_placed d → folder_depths u d.
Proof.
  intros [Ht _ _] i j f g Hf Hg Hfu Hgu Hp.
  destruct (child_path _ _ Ht i j (place f) (place g)) as [_ E]; try (by rewrite places_lookup, ?Hf, ?Hg).
  - done.
  - simpl. congruence.
  - exact E.
Qed.

Lemma descends_prefix d u root p i : well_placed d → places d !! root = Some p → p_user p = u →
  descends d u root i → ∃ q, places d !! i = Some q ∧ p_user q = u ∧
    ∃ rest, p_path q = p_path p +:+ rest.
Proof.
  intros Hd Hp Hu H. pattern i. revert i H. apply rtc_ind_r.
  - exists p. split_and!; [done|done|]. exists ""%string. by rewrite string_app_nil.
  - intros j i Hj (f & Hf & Hfu & Hparent) (q & Hq & Hqu & rest & Er).
    exists (place f). rewrite places_lookup, Hf. split_and!; [done|done|].
    destruct (child_path _ _ (wp_tree _ Hd) i j (place f) q) as [-> _].
    + by rewrite places_lookup, Hf.
    + done.
    + done.
    + simpl. congruence.
    + exists (rest +:+ (p_name (place f) +:+ "/")). by rewrite Er, string_app_assoc.
Qed.

(** What a recursive query from [root] returns is closed. *)
Lemma subtree_closed d u root p ids : well_placed d → places d !! root = Some p → p_user p = u →
  (∀ i, i ∈ ids ↔ is_Some (folders d !! i) ∧ descends d u root i) →
  is_subtree (places d) u root p ids.
Proof.
  intros Hd Hp Hu Hids. split.
  - split_and!; [done|done|]. apply Hids. split; [|constructor].
    rewrite places_lookup in Hp. by destruct (folders d !! root).
  - intros i [[f Hf] _]%Hids. by rewrite places_lookup, Hf.
  - intros i q Hq Hqu [_ Hj]%Hids. rewrite places_lookup in Hq.
    apply fmap_Some in Hq as (f & Hf & ->). apply Hids. split; [eauto|].
    eapply rtc_r; [exact Hj|]. by exists f.
  - intros i q [_ Hi]%Hids Hq. pose proof Hi as Hi'.
    eapply descends_prefix in Hi' as (q' & Hq' & Hqu & Hrest); [|done..].
    rewrite Hq in Hq'. injection Hq' as <-. split_and!; [done|done|].
    apply rtc_inv_r in Hi as [<-|(j & Hj & f & Hf & Hfu & Hparent)]; [by left|right].
    rewrite places_lookup, Hf in Hq. injection Hq as <-. apply Hids. simpl. rewrite Hparent.
    eapply descends_prefix in Hj as Hj'; [|done..]. destruct Hj' as (g & Hg & _).
    split; [|done]. rewrite places_lookup in Hg. by destruct (folders d !! j).
Qed.

(** The folder that contains the root of a subtree is outside of it. *)
Lemma parent_outside P F u root p ids : tree_ok P F → is_subtree P u root p ids →
  p_parent p ∉ ids.
Proof.
  intros HP Hids Hj. destruct (is_real _ _ _ _ _ Hids _ Hj) as [q Hq].
  destruct (is_root _ _ _ _ _ Hids) as (Hp & Hu & _).
  destruct (is_up _ _ _ _ _ Hids _ _ Hj Hq) as (Hqu & _).
  pose proof (old_depth _ _ _ _ _ _ HP Hids _ _ Hj Hq).
  destruct (child_path _ _ HP root (p_parent p) p q); [done..|congruence|lia].
Qed.

(** ** Rewriting a subtree *)

Section relocated.
Context (date : Z) (failed : ErrorInfo) (u root : Z) (p p' : Place) (rows : list folder)
  (fs : list file_row) (set : folder → FolderRow → option FolderRow) (paths : gmap Z string)
  (snap s t s' : Database) (l : FolderLocation).
Context (Hs : well_placed s) (Hnd : NoDup rows.*1)
  (Hids : is_subtree (places s) u root p rows.*1)
  (Hrows : ∀ item, item ∈ rows → places s !! item.1 = Some (place item.2)).
Context (Hu : p_user p' = u) (Hparent : p_parent p' ∉ rows.*1)
  (Hl : location (places s) u (p_parent p') = Some l)
  (Hpath : p_path p' = BuildFolderPath (fl_path l) (p_name p'))
  (Hdepth : p_depth p' = fl_depth l + 1).
Context (Hset : ∀ item f f', set item f = Some f' → place f = place item.2 →
  (item.1 = root → place item.2 = p) →
  place f' = if item.1 =? root then p' else moved_place p p' (place item.2)).
Context (Hrew : rewritten u set rows s t)
  (Hpaths : folder_paths (p_path p) (p_path p') rows = Some paths)
  (Hfs : ∀ g : file_row, g ∈ fs → spots s !! g.1 = Some (spot g.2) ∧ f_user_id g.2 = u)
  (Hall : ∀ k q, spots s !! k = Some q → q_user q = u → q_folder q ∈ rows.*1 → k ∈ fs.*1)
  (Hrun : runs (rename_files date failed u paths fs) snap t (Ok tt) s').

Lemma relocated_folders i : places t !! i =
  if decide (i ∈ rows.*1) then if i =? root then Some p' else moved_place p p' <$> places s !! i
  else places s !! i.
Proof.
  destruct (rewritten_rows _ _ _ _ _ Hnd Hrew) as (_ & _ & Hout & Hin).
  case_decide as Hi.
  - apply list_elem_of_fmap in Hi as (item & -> & Hitem).
    destruct (Hin _ Hitem) as (f & f' & Hf & _ & Hset' & _ & Hf').
    pose proof (Hrows _ Hitem) as Hplace. rewrite places_lookup, Hf in Hplace.
    apply (inj Some) in Hplace. rewrite (places_lookup t), Hf', (places_lookup s), Hf. simpl.
    change (place (modified_folder s f')) with (place f').
    rewrite (Hset _ _ _ Hset' Hplace), Hplace; [by destruct (_ =? _)|].
    intros Eroot. destruct (is_root _ _ _ _ _ Hids) as (Hroot & _).
    pose proof (Hrows _ Hitem) as Hp. rewrite Eroot, Hroot in Hp. by injection Hp.
  - by rewrite (places_lookup t), (places_lookup s), Hout.
Qed.

Lemma relocated_spots : places s' = places t ∧ folders_id_seq s' = folders_id_seq t ∧
  ∀ k, spots s' !! k = (if decide (k ∈ fs.*1) then follow paths else id) <$> spots s !! k.
Proof.
  destruct (rewritten_rows _ _ _ _ _ Hnd Hrew) as (Espots & _).
  eapply runs_rename_files in Hrun as (E1 & E2 & E3).
  - rewrite Espots in E3. done.
  - intros g Hg. destruct (Hfs _ Hg) as [Hspot _]. rewrite <- Espots, spots_lookup in Hspot.
    apply fmap_Some in Hspot as (f & Hf & E). exists f. unfold spot in E. by injection E.
Qed.

Lemma follow_moved q : q_folder q ∈ rows.*1 → follow paths q = moved_spot (places t) q.
Proof.
  intros Hi. destruct (folder_paths_lookup _ _ _ _ Hnd Hpaths) as [_ Hin].
  unfold follow, moved_spot. rewrite relocated_folders, decide_True by done.
  apply list_elem_of_fmap in Hi as (item & E & Hitem). rewrite E, (Hin _ Hitem).
  pose proof (Hrows _ Hitem) as Hplace.
  destruct (is_up _ _ _ _ _ Hids item.1 (place item.2)) as (_ & (rest & Er) & _);
    [by apply list_elem_of_fmap_2|done|].
  simpl in Er. rewrite Er, moved_path_app, Hplace. destruct (Z.eqb_spec item.1 root) as [E'|_]; simpl.
  - destruct (is_root _ _ _ _ _ Hids) as (Hroot & _). rewrite <- E', Hplace in Hroot.
    apply (inj Some) in Hroot. assert (rest = ""%string) as ->; [|by rewrite string_app_nil].
    apply (string_app_cancel (p_path p)). rewrite string_app_nil, <- Er. by rewrite <- Hroot.
  - by rewrite Er, substr_app.
Qed.

Lemma relocated_well_placed : well_placed s' ∧
  (∀ i, i ∉ rows.*1 → places s' !! i = places s !! i) ∧
  (∀ k q, spots s !! k = Some q → q_user q ≠ u ∨ q_folder q ∉ rows.*1 →
     spots s' !! k = Some q) ∧
  (∀ k q, spots s' !! k = Some q → ∃ r, spots s !! k = Some r ∧ q_user q = q_user r ∧
     q_folder q = q_folder r ∧ q_name q = q_name r).
Proof.
  destruct relocated_spots as (E1 & E2 & E3).
  destruct (rewritten_rows _ _ _ _ _ Hnd Hrew) as (Espots & Eseq & Hout & Hin).
  assert (∀ k, spots s' !! k = (λ q, if (q_user q =? u) && bool_decide (q_folder q ∈ rows.*1)
    then moved_spot (places t) q else q) <$> spots s !! k) as Hspots.
  { intros k. rewrite E3. destruct (spots s !! k) as [q|] eqn:Eq; [|done]. simpl. f_equal.
    destruct (Z.eqb_spec (q_user q) u) as [Hqu|Hqu]; simpl; [case_bool_decide as Hi|].
    - rewrite decide_True by (by eapply Hall). by apply follow_moved.
    - case_decide as Hk; [|done]. unfold follow.
      destruct (folder_paths_lookup _ _ _ _ Hnd Hpaths) as [Hnone _]. by rewrite Hnone.
    - case_decide as Hk; [|done]. exfalso. apply list_elem_of_fmap in Hk as (g & -> & Hg).
      destruct (Hfs _ Hg) as [Hspot Hgu]. rewrite Eq in Hspot. injection Hspot as ->. done. }
  assert (∀ i, is_Some (folders t !! i) ↔ is_Some (folders s !! i)) as Hdom.
  { intros i. destruct (decide (i ∈ rows.*1)) as [Hi|Hi]; [|by rewrite Hout].
    apply list_elem_of_fmap in Hi as (item & -> & Hitem).
    destruct (Hin _ Hitem) as (f & f' & -> & _ & _ & _ & ->). split; eauto. }
  split_and!.
  - split.
    + rewrite E1. apply (tree_relocate (places s) (places t) (spots s) (spots s') u root p p' rows.*1
        (wp_tree _ Hs) Hids l Hu Hparent Hl Hpath Hdepth relocated_folders); [|done].
      intros i q. rewrite places_lookup, fmap_Some. intros (f & Hf & ->).
      destruct (decide (i ∈ rows.*1)) as [Hi|Hi].
      * apply list_elem_of_fmap in Hi as (item & -> & Hitem).
        destruct (Hin _ Hitem) as (g & f' & _ & _ & _ & Hc & Hf'). rewrite Hf in Hf'.
        injection Hf' as ->. by apply check_folder_fits in Hc.
      * rewrite Hout in Hf by done. apply (to_folders _ _ (wp_tree _ Hs) i).
        by rewrite places_lookup, Hf.
    + intros i. rewrite (folder_ids_places _ _ E1), Hdom, E2, Eseq. apply (wp_ids _ Hs).
    + rewrite E2, Eseq. apply (wp_seq _ Hs).
  - intros i Hi. rewrite E1, relocated_folders. by rewrite decide_False.
  - intros k q Hq Hor. rewrite Hspots, Hq. simpl. f_equal.
    destruct (Z.eqb_spec (q_user q) u) as [|]; simpl; [|done].
    rewrite bool_decide_eq_false_2; [done|]. destruct Hor; done.
  - intros k q. rewrite Hspots, fmap_Some. intros (r & Hr & ->). exists r. split; [done|].
    by destruct (_ && _).
Qed.
End relocated.

(** ** Folders *)

Lemma create_folder_tree date request u snap s r s' : 0 <= cf_parent_id request →
  well_placed s → runs (create_folder_body date request u) snap s (Ok r) s' → well_placed s'.
Proof.
  intros Hparent Hs H. unfold create_folder_body in H.
  run_bind H lock s1 H1. apply runs_query in H1 as [_ ->].
  run_bind_result H l s1 H1.
  assert (same_tree s s1 ∧ ∃ l0, location (places s1) u (cf_parent_id request) = Some l0 ∧
    l = mkFolderLocation (fl_path l0) (u32 (fl_depth l0))) as (Hsame & l0 & Hl0 & ->).
  { destruct (Z.ltb_spec 0 (cf_parent_id request)) as [Hp|Hp].
    - run_bind H1 b t H2. apply runs_count_delta in H2. destruct b; simpl in H1; [|by apply runs_ret in H1 as []].
      run_bind H1 o t' H3. apply runs_query in H3 as [-> ->]. apply runs_ret in H1 as [H1 ->].
      destruct (owned_folder _ _ t) as [[j p]|] eqn:E; [|done]. injection H1 as ->.
      split; [done|]. eexists. split; [apply (owned_location _ _ _ _ E); lia|done].
    - apply runs_ret in H1 as [[= ->] ->]. split; [done|]. exists root_location.
      assert (cf_parent_id request = 0) as -> by lia. done. }
  pose proof (well_placed_same _ _ Hs Hsame) as Hs1.
  pose proof (location_depth _ _ (wp_tree _ Hs1) _ _ _ Hl0) as Hd.
  run_bind H o s2 Hins. apply runs_ret in H as [H ->]. destruct o as [kf|]; [|done].
  unfold InsertIfNameAvailable in Hins. apply runs_exec in Hins.
  eapply insert_folder_placed; [exact Hs1| |exact Hins].
  exists l0. cbn [place p_user p_parent p_path p_name p_depth d_user_id d_parent_id d_name d_path
    d_depth fl_path fl_depth].
  rewrite (u32_small (fl_depth l0)), (u32_small (_ + 1)) by lia.
  split_and!; [done|lia|done|]. apply i32_small. lia.
Qed.

Lemma parent_nonneg s i f : well_placed s → folders s !! i = Some f → 0 <= d_parent_id f.
Proof.
  intros Hs Hf. destruct (to_folders _ _ (wp_tree _ Hs) i (place f)) as (_ & (l & Hl & _) & _).
  { by rewrite places_lookup, Hf. }
  apply location_Some in Hl as [[E _]|(_ & p & Hp & _)]; simpl in *; [lia|].
  apply (to_folders _ _ (wp_tree _ Hs)) in Hp as [? _]. lia.
Qed.

(** The rows of a subtree as [FetchFolderSubtree] returns them. *)
Lemma runs_fetch_subtree root u snap s rows s' f : well_placed s →
  folders s !! root = Some f → d_user_id f = u →
  runs (FetchFolderSubtree root u) snap s rows s' →
  s' = s ∧ NoDup rows.*1 ∧ is_subtree (places s) u root (place f) rows.*1 ∧
  ∀ item, item ∈ rows → places s !! item.1 = Some (place item.2).
Proof.
  intros Hs Hf Hu. unfold FetchFolderSubtree. intros [Hrows ->]%runs_read.
  pose proof (subtree_NoDup u s (well_placed_depths _ _ Hs) _ _ Hrows) as Hnd.
  assert (∀ i g, (i, g) ∈ rows ↔ folders s !! i = Some g ∧ descends s u root i) as Hin.
  { unfold folder_subtree in Hrows. apply fmap_Some in Hrows as (l & Hl & ->). intros i g.
    rewrite elem_of_order_by, (elem_of_with_recursive _ _ _ _ _ Hl).
    assert (owned_folder root u s = Some (root, f)) as E by (by apply owned_folder_Some).
    rewrite E. cbn [option_list]. split.
    - intros (kf & ->%list_elem_of_singleton & Hrtc).
      split; [|by eapply children_descends in Hrtc].
      apply rtc_inv_r in Hrtc as [[= <- <-]|(kh & _ & Hc)]; [done|].
      by apply elem_of_children in Hc as (? & _).
    - intros [Hg Hd]. exists (root, f). split; [by apply list_elem_of_singleton|].
      by eapply descends_children. }
  split; [done|]. split; [|split].
  - apply NoDup_fmap_fst; [|done]. intros i g g' [Hg _]%Hin [Hg' _]%Hin. congruence.
  - apply subtree_closed; [done|by rewrite places_lookup, Hf|done|]. intros i.
    rewrite list_elem_of_fmap. split.
    + intros ([j g] & -> & [Hg Hd]%Hin). eauto.
    + intros [[g Hg] Hd]. exists (i, g). split; [done|]. by apply Hin.
  - intros [i g] [Hg _]%Hin. simpl. by rewrite places_lookup, Hg.
Qed.

Lemma runs_fetch_files ids u snap s fs s' : runs (FetchFilesInFolders ids u) snap s fs s' →
  s' = s ∧
  (∀ g : file_row, g ∈ fs → files s !! g.1 = Some g.2 ∧ f_user_id g.2 = u) ∧
  ∀ k f, files s !! k = Some f → f_user_id f = u → f_folder_id f ∈ ids → (k, f) ∈ fs.
Proof.
  unfold FetchFilesInFolders. destruct (decide (ids = [])) as [->|_].
  - intros [-> ->]%runs_ret. split_and!; [done|by intros ? ?%elem_of_nil|].
    by intros ? ? _ _ ?%elem_of_nil.
  - intros [-> ->]%runs_query. split_and!; [done|..].
    + intros [k f] [Hf H]%elem_of_select_rows. apply andb_true_iff in H as [H _].
      split; [done|]. by apply Z.eqb_eq.
    + intros k f Hf Hu Hi. apply elem_of_select_rows. split; [done|].
      by rewrite Hu, Z.eqb_refl, bool_decide_eq_true_2.
Qed.

Lemma moved_path_Some old new path q : moved_path old new path = Some q →
  q = new +:+ substr (String.length old) path.
Proof.
  unfold moved_path, substr_at. by case_match; intros [= <-].
Qed.

Lemma rename_folder_tree to_db date i name u snap s r s' : well_placed s →
  runs (rename_folder_body to_db date i name u) snap s (Ok r) s' → well_placed s'.
Proof.
  intros Hs H. unfold rename_folder_body in H.
  run_bind H o s1 H1. apply runs_query in H1 as [-> ->].
  destruct (owned_folder i u s) as [[j f]|] eqn:E; [|by apply runs_ret in H as []].
  apply owned_folder_Some in E. simpl in E. destruct E as (-> & Hf & Hu).
  run_bind H lock s1 H1. apply runs_query in H1 as [_ ->].
  run_bind H occupied s1 Hocc.
  assert (s1 = s) as ->.
  { destruct (d_name f =? name)%string; [by apply runs_ret in Hocc as []|by apply runs_query in Hocc as []]. }
  destruct occupied; [by apply runs_ret in H as []|].
  run_bind_result H parent_path s1 Hpp.
  assert (s1 = s ∧ ∃ l, location (places s) u (d_parent_id f) = Some l ∧
    parent_path = fl_path l) as (-> & l & Hl & ->).
  { pose proof (parent_nonneg _ _ _ Hs Hf). destruct (Z.ltb_spec 0 (d_parent_id f)) as [Hp|Hp].
    - run_bind Hpp o t H2. apply runs_query in H2 as [-> ->]. apply runs_ret in Hpp as [Hpp ->].
      destruct (owned_folder _ _ s) as [[k p]|] eqn:E; [|done]. injection Hpp as ->.
      split; [done|]. eexists. split; [apply (owned_location _ _ _ _ E); lia|done].
    - apply runs_ret in Hpp as [[= ->] ->]. split; [done|]. exists root_location.
      assert (d_parent_id f = 0) as -> by lia. done. }
  run_bind H rows s1 H1. apply (runs_fetch_subtree _ _ _ _ _ _ _ Hs Hf Hu) in H1
    as (-> & Hnd & Hids & Hrows).
  destruct (decide (rows = [])); [by apply runs_ret in H as []|].
  run_bind_result H x s1 H1. destruct x. apply runs_rename_folders in H1.
  destruct (folder_paths _ _ _) as [paths|] eqn:Epaths; [|by apply runs_raise in H].
  run_bind H fs s2 H2.
  destruct (rewritten_rows _ _ _ _ _ Hnd H1) as (Espots & _).
  apply runs_fetch_files in H2 as (-> & Hfs & Hall).
  run_bind_result H y s2 H3. destruct y. apply runs_ret in H as [_ ->].
  set (p' := mkPlace u (d_parent_id f) name (BuildFolderPath (fl_path l) name) (fl_depth l + 1)).
  assert (d_depth f = fl_depth l + 1) as Hdepth.
  { destruct (to_folders _ _ (wp_tree _ Hs) i (place f)) as (_ & (l' & Hl' & _ & _ & E) & _);
      [by rewrite places_lookup, Hf|]. simpl in Hl', E. rewrite Hu, Hl in Hl'.
    by injection Hl' as <-. }
  eapply (relocated_well_placed date RenameFolderFailed u i (place f) p' rows fs _ paths snap s s1 s2 l
    Hs Hnd Hids Hrows); try done.
  - apply (parent_outside _ _ _ _ _ _ (wp_tree _ Hs) Hids).
  - intros item g g' Hset Hplace Hroot. apply bind_Some in Hset as (path & ->%moved_path_Some & Hset).
    unfold moved_place, place in *. cbn in *.
    destruct (Z.eqb_spec item.1 i) as [Ei|Hne]; injection Hset as <-; cbn.
    + specialize (Hroot Ei). injection Hroot as ? ? ? E ?. injection Hplace as ? ? ? ? ?.
      unfold p'. rewrite E, substr_self, string_app_nil. f_equal; congruence || lia.
    + injection Hplace as ? ? ? ? ?. f_equal; congruence || lia.
  - intros g Hg. destruct (Hfs _ Hg) as [Hg' ?]. split; [|done].
    by rewrite <- Espots, spots_lookup, Hg'.
  - intros k q Hq Hqu Hqf. rewrite <- Espots, spots_lookup in Hq. apply fmap_Some in Hq as (g & Hg & ->).
    apply list_elem_of_fmap. exists (k, g). split; [done|]. apply Hall; [done|done|].
    by apply (folder_paths_dom _ _ _ _ _ Epaths).
Qed.

(** ** Files *)

Lemma update_file_placed k u set d d' : well_placed d → update_file k u set d = Some (true, d') →
  (∀ f, files d !! k = Some f → f_user_id f = u → file_placed (places d) (spot (set f))) →
  well_placed d' ∧ places d' = places d ∧
  ∃ f, files d !! k = Some f ∧ spots d' = <[k := spot (set f)]> (spots d).
Proof.
  intros Hd (f & Hf & Hu & ->)%update_file_true Hset. split_and!.
  - destruct Hd as [Ht Hi Hs]. split; [|done..]. rewrite spots_put.
    change (places (put_file k _ d)) with (places d). apply (tree_insert_file _ _ _ (spot (set f))); auto.
  - done.
  - exists f. split; [done|]. apply (spots_put k (modified_file d (set f)) d).
Qed.

Lemma file_folder_nonneg s k f : well_placed s → files s !! k = Some f → 0 <= f_folder_id f.
Proof.
  intros Hs Hf. destruct (to_files _ _ (wp_tree _ Hs) k (spot f)) as (l & Hl & _).
  { by rewrite spots_lookup, Hf. }
  apply location_Some in Hl as [[E _]|(_ & p & Hp & _)]; simpl in *; [lia|].
  apply (to_folders _ _ (wp_tree _ Hs)) in Hp as [? _]. lia.
Qed.

Lemma rename_file_tree to_db date k name u snap s r s' : well_placed s →
  runs (rename_file_body to_db date k name u) snap s (Ok r) s' → well_placed s'.
Proof.
  intros Hs H. unfold rename_file_body in H.
  run_bind H o s1 H1. apply runs_query in H1 as [-> ->].
  destruct (owned_file k u s) as [[j f]|] eqn:E; [|by apply runs_ret in H as []].
  apply owned_file_Some in E. simpl in E. destruct E as (-> & Hf & Hu).
  run_bind H lock s1 H1. apply runs_query in H1 as [_ ->].
  run_bind H occupied s1 Hocc.
  assert (s1 = s) as ->.
  { destruct (f_name f =? name)%string; [by apply runs_ret in Hocc as []|by apply runs_query in Hocc as []]. }
  destruct occupied; [by apply runs_ret in H as []|].
  run_bind_result H l s1 Hl. apply runs_resolve in Hl as [-> Hl]; [|by eapply file_folder_nonneg].
  run_bind H updated s2 H1. apply runs_ret in H as [H ->]. destruct updated; [|done].
  unfold RenameOwnedFile in H1. apply runs_exec in H1.
  destruct (update_file_placed _ _ _ _ _ Hs H1) as (? & _); [|done].
  intros g Hg Hgu. rewrite Hf in Hg. injection Hg as <-. exists l. by rewrite <- Hgu in Hl.
Qed.

(** C17: the drive keeps its shape.  Creating a folder, renaming a folder and renaming a
    file keep every folder and file consistent with the folder that contains it: each
    folder hangs below the root or below a folder of the same user, its path is that
    path followed by its name, its depth is one more, and each file has the path of
    its folder followed by its name.  This holds whatever fails and whatever the other
    sessions do, as long as they keep it too. *)
Theorem drive_keeps_its_shape to_db date request u :
  0 <= cf_parent_id request →
  Preserves well_placed (CreateFolder to_db date request u) ∧
  (∀ i name, Preserves well_placed (FolderService.Rename to_db date i name u)) ∧
  (∀ k name, Preserves well_placed (FileMutations.Rename to_db date k name u)).
Proof.
  intros Hparent. split_and!.
  - apply preserves_bind_result; [|intros; apply preserves_ret].
    apply preserves_Run; [apply _|]. intros s a s' Hs Hr.
    by eapply create_folder_tree.
  - intros i name. apply preserves_Run; [apply _|]. intros s a s' Hs Hr.
    by eapply rename_folder_tree.
  - intros k name. apply preserves_Run; [apply _|]. intros s a s' Hs Hr.
    by eapply rename_file_tree.
Qed.

(** ** Witnesses *)

(** [/docs/old/a.txt] and [/pics/]. *)
Definition example_drive : Database :=
  (empty_db 100) <| folders := {[ 1 := mkFolderRow 7 0 "docs" "/docs/" 1 1 100 100;
                                  2 := mkFolderRow 7 1 "old" "/docs/old/" 2 1 100 100;
                                  3 := mkFolderRow 7 0 "pics" "/pics/" 1 0 100 100 ]} |>
    <| files := {[ 4 := mkFileRow 7 9 2 "a.txt" "txt" 10 "text/plain" "/docs/old/a.txt" 0 0 100 100 ]} |>
    <| folders_id_seq := 4 |>.

Lemma example_drive_folder i f : folders example_drive !! i = Some f →
  (i = 1 ∧ f = mkFolderRow 7 0 "docs" "/docs/" 1 1 100 100) ∨
  (i = 2 ∧ f = mkFolderRow 7 1 "old" "/docs/old/" 2 1 100 100) ∨
  (i = 3 ∧ f = mkFolderRow 7 0 "pics" "/pics/" 1 0 100 100).
Proof.
  intros H. simpl in H. revert H. intros [[<- <-]|[_ H]]%lookup_insert_Some; [by left|].
  apply lookup_insert_Some in H as [[<- <-]|[_ H]]; [by right; left|].
  apply lookup_singleton_Some in H as [<- <-]. by right; right.
Qed.

Lemma example_drive_placed : well_placed example_drive.
Proof.
  split.
  - split.
    + intros i p. rewrite places_lookup, fmap_Some. intros (f & Hf & ->).
      apply example_drive_folder in Hf as [[-> ->]|[[-> ->]|[-> ->]]].
      * split_and!; [lia| |done]. by exists root_location.
      * split_and!; [lia| |done]. by exists (mkFolderLocation "/docs/" 1).
      * split_and!; [lia| |done]. by exists root_location.
    + intros k q. rewrite spots_lookup, fmap_Some. intros (f & Hf & ->).
      simpl in Hf. apply lookup_singleton_Some in Hf as [<- <-].
      by exists (mkFolderLocation "/docs/old/" 2).
  - intros i [f Hf]. apply example_drive_folder in Hf. cbn. lia.
  - cbn. lia.
Qed.

Lemma drive_keeps_its_shape_witness :
  let renamed := FolderService.Rename (λ _, ""%string) 200 1 "papers" 7
                   (mkEnv example_drive [] AutoCommit []) in
  well_placed (db renamed.2) ∧ f_path <$> files (db renamed.2) !! 4 = Some "/papers/old/a.txt"%string.
Proof.
  split; [|vm_compute; reflexivity].
  apply (proj1 (proj2 (drive_keeps_its_shape (λ _, ""%string) 200 (mkCreateFolderRequest "" 0) 7
    ltac:(cbn; lia))) 1 "papers"%string); [reflexivity|exact example_drive_placed|constructor].
Defined.
