(* ===== verification/MoveShape.v ===== *)
(** * Moving items keeps the shape of a drive

    [FileMutationService::Move] rewrites the subtree of every folder it moves, from
    plans read at the start of its transaction, and uses the location of the target
    read before the transaction. *)

From S2P Require Import Prelude Errors Storage Db Rely Schema Json Batch Names Folders Files DeletePlans.
From S2P Require Import FolderService Trash TrashTrees FileMutations Tree TreeUpdates TreeShape.

Local Open Scope Z_scope.

(** ** The rows of plans *)

Section plan_rows.
Context (ids : list Z) (u : Z) (d : Database) (Hd : folder_depths u d) (Hids : NoDup ids).

(** The depth of a row below its root. *)
Definition row_level (rf : Z * folder) : Z :=
  d_depth rf.2.2 - default 0 (d_depth <$> folders d !! rf.1).

Definition user_rows : list (Z * folder) := ids ≫= λ r, pair r <$> user_folders u d.

Lemma elem_of_user_rows rf : rf ∈ user_rows ↔ rf.1 ∈ ids ∧ rf.2 ∈ user_folders u d.
Proof.
  unfold user_rows. rewrite list_elem_of_bind. setoid_rewrite list_elem_of_fmap.
  destruct rf as [r f]. naive_solver.
Qed.

Lemma owned_rows_NoDup : NoDup ((λ f : folder, (f.1, f)) <$>
  (ids ≫= λ id, option_list (owned_folder id u d))).
Proof.
  apply (NoDup_fmap_2_strong (λ f : folder, (f.1, f))); [by intros ? ? _ _ [= _ ?]|].
  induction ids as [|i l IH]; [constructor|]. apply NoDup_cons in Hids as [Hi Hl].
  change ((i :: l) ≫= λ id, option_list (owned_folder id u d)) with
    (option_list (owned_folder i u d) ++ (l ≫= λ id, option_list (owned_folder id u d)))%list.
  apply NoDup_app. split_and!; [|..|by apply IH].
  - destruct (owned_folder i u d); simpl; [apply NoDup_singleton|constructor].
  - intros f (E & _)%owned_option_list Hf. apply list_elem_of_bind in Hf as (j & Hj & Hin).
    apply owned_option_list in Hj as (E' & _). congruence.
Qed.

Lemma batch_NoDup rows : batch_subtree ids u d = Some rows → NoDup rows.
Proof.
  unfold batch_subtree. intros (l & Hl & ->)%fmap_Some. rewrite order_by_perm.
  refine (proj1 (with_recursive_NoDup _ user_rows row_level _ _ _ _ _ 0 _ _ owned_rows_NoDup _ Hl)).
  - intros [r f] [r' g] [Hr Hf]%elem_of_user_rows (h & [= -> ->] & Hh)%list_elem_of_fmap.
    apply elem_of_user_rows. split; [done|]. simpl in *. by eapply children_user_folder.
  - intros [r f] [r' g] [Hr Hf]%elem_of_user_rows (h & [= -> ->] & Hh)%list_elem_of_fmap.
    unfold row_level. simpl in *. rewrite (children_depth u d Hd f h) by done. lia.
  - intros [r f]. apply (NoDup_fmap_2_strong (pair r)); [by intros ? ? _ _ [= ?]|].
    apply children_NoDup.
  - intros [r f] [r' g] [r'' h] [_ Hf]%elem_of_user_rows [_ Hg]%elem_of_user_rows.
    intros (x & [= -> ->] & Hx)%list_elem_of_fmap (y & [= -> ->] & Hy)%list_elem_of_fmap.
    simpl in *. f_equal. by eapply children_inj.
  - intros rf (f & -> & Hf)%list_elem_of_fmap.
    apply list_elem_of_bind in Hf as (i & Hf & Hi). pose proof Hf as Hf'.
    apply owned_option_list in Hf as (E & Hf & Hu).
    split; [apply elem_of_user_rows; split; [by rewrite <- E in Hi|by eapply owned_user_folder]|].
    unfold row_level. simpl. rewrite E, Hf. simpl. lia.
Qed.
End plan_rows.

(** Inside a subtree depths grow. *)
Lemma descends_depth d u i j f g : folder_depths u d → descends d u i j →
  folders d !! i = Some f → d_user_id f = u → folders d !! j = Some g →
  d_depth f <= d_depth g ∧ (i ≠ j → d_depth f < d_depth g).
Proof.
  intros Hd H Hf Hu. revert g. pattern j. revert j H. apply rtc_ind_r.
  - intros g Hg. rewrite Hf in Hg. injection Hg as <-. split; [lia|done].
  - intros j k Hj (h & Hh & Hhu & Hp) IH g Hg. rewrite Hh in Hg. injection Hg as <-.
    assert (∃ f', folders d !! j = Some f' ∧ d_user_id f' = u) as (f' & Hf' & Hfu').
    { apply rtc_inv_r in Hj as [<-|(? & _ & f' & ? & ? & _)]; eauto. }
    pose proof (Hd _ _ _ _ Hh Hf' Hhu Hfu' Hp). destruct (IH _ Hf'). lia.
Qed.

Lemma lex_leb_lt a b c : lex_leb a b c = true ↔ a < b ∨ (a = b ∧ c = true).
Proof. unfold lex_leb. by rewrite orb_true_iff, andb_true_iff, Z.ltb_lt, Z.eqb_eq. Qed.

(** The first row of a plan is its root. *)
Lemma rows_of_head ids u d rows r f l : folder_depths u d → batch_subtree ids u d = Some rows →
  rows_of r rows = f :: l → f.1 = r.
Proof.
  intros Hd Hrows Hl. pose proof (elem_of_batch_subtree ids u d rows) as Hin.
  assert ((r, f) ∈ rows) as Hf. { apply elem_of_rows_of. rewrite Hl. by left. }
  pose proof Hf as Hf'. apply (Hin _ _ Hrows) in Hf' as (Hr & (g & Hg & Hgu) & Hfd & Hrf).
  assert ((r, (r, g)) ∈ rows) as Hroot.
  { apply (Hin _ _ Hrows). simpl. split_and!; [done|by exists g|done|constructor]. }
  destruct (decide (f.1 = r)) as [|Hne]; [done|exfalso].
  destruct (descends_depth _ _ _ _ _ _ Hd Hrf Hg Hgu Hfd) as [_ Hlt].
  assert (d_depth f.2 <= d_depth g); [|specialize (Hlt (not_eq_sym Hne)); lia].
  set (leb := λ a b : Z * folder, lex_leb a.1 b.1 (by_depth_id a.2 b.2)).
  assert (StronglySorted (λ a b, leb a b = true) rows) as Hs.
  { apply Sorted_StronglySorted.
    - intros a b c. unfold leb. rewrite !lex_leb_lt, !by_depth_id_lex. lia.
    - unfold batch_subtree in Hrows. apply fmap_Some in Hrows as (l0 & _ & ->).
      apply (order_by_sorted leb); [done|]. intros a b. unfold leb.
      rewrite <- not_true_iff_false, !lex_leb_lt, !by_depth_id_lex. lia. }
  clear Hrows Hin. induction rows as [|[r' h] rows IH]; [by apply elem_of_nil in Hf|].
  apply StronglySorted_inv in Hs as [Hs Hall]. unfold rows_of in Hl. simpl in Hl.
  destruct (Z.eqb_spec r' r) as [->|Hr'].
  - injection Hl as -> _. apply elem_of_cons in Hroot as [[= <-]|Hroot]; [done|].
    rewrite Forall_forall in Hall. specialize (Hall _ Hroot). unfold leb in Hall.
    rewrite lex_leb_lt, by_depth_id_lex in Hall. simpl in Hall. lia.
  - apply elem_of_cons in Hroot as [[= ? _]|Hroot]; [congruence|].
    apply elem_of_cons in Hf as [[= ? _]|Hf]; [congruence|]. by apply IH.
Qed.

(** ** Plans of a move *)

(** The rows a plan was made of are still there. *)
Record stands (u : Z) (s : Database) (p : FolderDeletePlan) : Prop := {
  sd_nodup : NoDup (folder_ids_of p);
  sd_tree : is_subtree (places s) u (pl_root p).1 (place (pl_root p).2) (folder_ids_of p);
  sd_rows : ∀ item, item ∈ pl_folders p → places s !! item.1 = Some (place item.2);
  sd_files : ∀ g : file_row, g ∈ pl_files p → spots s !! g.1 = Some (spot g.2) ∧ f_user_id g.2 = u;
  sd_inside : ∀ g : file_row, g ∈ pl_files p → f_folder_id g.2 ∈ folder_ids_of p;
  sd_all : ∀ k q, spots s !! k = Some q → q_user q = u → q_folder q ∈ folder_ids_of p →
    k ∈ (pl_files p).*1
}.

Lemma stands_same u s t p : places t = places s → spots t = spots s → stands u s p → stands u t p.
Proof. intros E1 E2 []. split; rewrite ?E1, ?E2; done. Qed.

(** The files added to the plans. *)
Lemma matched_root_holds it plans k p : matched_root it plans k ≠ 0 →
  plans !! matched_root it plans k = Some p → k ∈ folder_ids_of p.
Proof.
  unfold matched_root. destruct (List.find _ _) as [r|] eqn:E; [|done]. simpl. intros _ Hp.
  apply List.find_some in E as [_ E]. rewrite Hp in E. by apply bool_decide_eq_true in E.
Qed.

Lemma add_files_sound it fs plans r p g : foldl (add_file it) plans fs !! r = Some p →
  g ∈ pl_files p →
  (g ∈ fs ∧ f_folder_id g.2 ∈ folder_ids_of p) ∨ ∃ p0, plans !! r = Some p0 ∧ g ∈ pl_files p0.
Proof.
  revert plans. induction fs as [|a fs IH]; intros plans; cbn [foldl]; [eauto|].
  intros Hp Hg. destruct (IH _ Hp Hg) as [[? ?]|(p0 & Hp0 & Hg0)]; [left; split; [by right|done]|].
  pose proof (add_file_folders it (a :: fs) plans r) as Efold. cbn [foldl] in Efold.
  rewrite Hp in Efold.
  unfold add_file in Hp0. destruct (Z.eqb_spec (matched_root it plans (f_folder_id a.2)) 0) as [|H0];
    [eauto|].
  destruct (plans !! matched_root _ _ _) as [q|] eqn:Eq; [|eauto].
  apply lookup_insert_Some in Hp0 as [[<- <-]|[_ Hp0]]; [|eauto].
  cbn in Hg0. apply elem_of_app in Hg0 as [Hg0| ->%list_elem_of_singleton]; [eauto|].
  left. split; [by left|]. rewrite Eq in Efold. injection Efold as _ E.
  unfold folder_ids_of. rewrite E. by eapply matched_root_holds.
Qed.

Lemma foldl_add_folder_files rows r p : foldl add_folder ∅ rows !! r = Some p → pl_files p = [].
Proof.
  rewrite add_folder_lookup, lookup_empty. by destruct (rows_of r rows); intros [= <-].
Qed.

Lemma plan_rows_of it ids u snap s plans s' r p : folder_depths u s → NoDup ids →
  runs (FetchBatchFolderDeletePlans it ids u) snap s plans s' → plans !! r = Some p →
  (pl_root p).1 = r ∧ NoDup (pl_folders p) ∧
  ∀ g : file_row, g ∈ pl_files p →
    files s !! g.1 = Some g.2 ∧ f_user_id g.2 = u ∧ f_folder_id g.2 ∈ folder_ids_of p.
Proof.
  intros Hd Hids. unfold FetchBatchFolderDeletePlans. destruct (decide (ids = [])).
  { intros [-> _]%runs_ret. by rewrite lookup_empty. }
  intros H. run_bind H rows t H1. apply runs_read in H1 as [Hrows ->]. cbv zeta in H.
  assert (∀ p, foldl add_folder ∅ rows !! r = Some p →
    (pl_root p).1 = r ∧ NoDup (pl_folders p)) as Hfolders.
  { intros p0 Hp0. rewrite add_folder_lookup, lookup_empty in Hp0.
    destruct (rows_of r rows) as [|f l] eqn:El; [done|]. injection Hp0 as <-. simpl. split.
    - by eapply rows_of_head.
    - rewrite <- El. unfold rows_of. apply NoDup_fmap_2_strong.
      + intros [] [] H1 H2. rewrite list_elem_of_In, List.filter_In in H1, H2. simpl in *.
        intros ->. f_equal. destruct H1 as [_ ?%Z.eqb_eq], H2 as [_ ?%Z.eqb_eq]. congruence.
      + apply NoDup_ListNoDup, List.NoDup_filter, NoDup_ListNoDup.
        by eapply batch_NoDup. }
  destruct (decide _).
  { apply runs_ret in H as [-> _]. intros Hp. destruct (Hfolders _ Hp). split_and!; [done|done|].
    intros g. rewrite (foldl_add_folder_files _ _ _ Hp). by intros ?%elem_of_nil. }
  run_bind H fs t H1. apply runs_ret in H as [-> _]. apply runs_fetch_files in H1 as (_ & Hfs & _).
  intros Hp. pose proof (add_file_folders it fs (foldl add_folder ∅ rows) r) as E.
  rewrite Hp in E. destruct (foldl add_folder ∅ rows !! r) as [p0|] eqn:Hp0; [|done].
  injection E as E1 E2. rewrite E1, E2. destruct (Hfolders _ eq_refl) as [? ?].
  split_and!; [done|done|]. intros g Hg.
  destruct (add_files_sound _ _ _ _ _ _ Hp Hg) as [[Hin ?]|(p1 & Hp1 & Hg1)].
  { by destruct (Hfs _ Hin). }
  rewrite (foldl_add_folder_files _ _ _ Hp1) in Hg1. by apply elem_of_nil in Hg1.
Qed.

Lemma plans_stand it ids u snap s plans s' r p : (∀ l, it l ≡ₚ l) → well_placed s → NoDup ids →
  not_nested ids u s →
  runs (FetchBatchFolderDeletePlans it ids u) snap s plans s' → plans !! r = Some p →
  stands u s p.
Proof.
  intros Hit Hs Hids Hn H Hp. pose proof H as [-> Hshape]%runs_fetch_plans.
  destruct (plan_rows_of _ _ _ _ _ _ _ _ _ (well_placed_depths _ _ Hs) Hids H Hp)
    as (Eroot & Hnd & Hfiles).
  pose proof (Hshape r) as Hr. rewrite Hp in Hr. destruct Hr as (_ & Hroot & _ & Hrows).
  pose proof (plan_shape_ids _ _ _ _ _ _ Hshape Hp) as Hin.
  destruct (pl_root p) as [r' f] eqn:E. simpl in Eroot. subst r'.
  apply Hrows in Hroot as [Hf _]. simpl in Hf.
  assert (d_user_id f = u) as Hu.
  { pose proof (Hshape r) as Hr. rewrite Hp in Hr. destruct Hr as (_ & _ & (g & Hg & ?) & _).
    congruence. }
  split.
  - unfold folder_ids_of. apply NoDup_fmap_fst; [|done].
    intros i g g' [Hg _]%Hrows [Hg' _]%Hrows. simpl in *. congruence.
  - rewrite E. cbn [fst snd]. apply subtree_closed; [done|by rewrite places_lookup, Hf|done|]. exact Hin.
  - intros item [Hitem _]%Hrows. by rewrite places_lookup, Hitem.
  - intros g Hg. destruct (Hfiles g Hg) as (Hg' & ? & _). by rewrite spots_lookup, Hg'.
  - intros g Hg. by destruct (Hfiles g Hg) as (_ & _ & ?).
  - intros k q Hq Hqu Hqf. rewrite spots_lookup in Hq. apply fmap_Some in Hq as (g & Hg & ->).
    apply list_elem_of_fmap. exists (k, g). split; [done|].
    eapply fetched_files; [done|exact H|done| |done..].
    intros j h Hh. apply (to_folders _ _ (wp_tree _ Hs) j (place h)). by rewrite places_lookup, Hh.
Qed.

(** ** Moving folders *)

Definition apart (p q : FolderDeletePlan) : Prop :=
  ∀ i, i ∈ folder_ids_of p → i ∉ folder_ids_of q.

Section move_plan.
Context (date u target : Z) (l : FolderLocation) (p : FolderDeletePlan) (snap s s' : Database).
Context (Hs : well_placed s) (Hp : stands u s p)
  (Hl : location (places s) u target = Some l) (Htarget : target ∉ folder_ids_of p)
  (Hrun : runs (move_plan date p u target l) snap s (Ok tt) s').

Notation root := (pl_root p).1.
Notation place' := (mkPlace u target (d_name (pl_root p).2)
  (BuildFolderPath (fl_path l) (d_name (pl_root p).2)) (fl_depth l + 1)).

Lemma root_place : places s !! root = Some (place (pl_root p).2) ∧ d_user_id (pl_root p).2 = u.
Proof. destruct (is_root _ _ _ _ _ (sd_tree _ _ _ Hp)) as (? & ? & _). done. Qed.

Lemma move_sets item f f' :
  (path ← moved_path (d_path (pl_root p).2)
            (BuildFolderPath (fl_path l) (d_name (pl_root p).2)) (d_path item.2);
   m ← int4 (d_depth f + (i32 (fl_depth l) + 1 - d_depth (pl_root p).2));
   Some (if item.1 =? root
         then f <| d_parent_id := target |> <| d_path := path |> <| d_depth := m |>
                <| d_updated_at := date |>
         else f <| d_path := path |> <| d_depth := m |> <| d_updated_at := date |>)) = Some f' →
  place f = place item.2 → (item.1 = root → place item.2 = place (pl_root p).2) →
  place f' = if item.1 =? root then place'
             else moved_place (place (pl_root p).2) place' (place item.2).
Proof.
  intros (path & ->%moved_path_Some & H)%bind_Some Hf Hroot.
  apply bind_Some in H as (m & [-> _]%int4_Some & H).
  pose proof (location_depth _ _ (wp_tree _ Hs) _ _ _ Hl) as Hdepth.
  destruct root_place as [_ Huser]. rewrite i32_small in H by lia.
  unfold moved_place, place in *. cbn in *. injection Hf as ? ? ? ? ?.
  destruct (Z.eqb_spec item.1 root) as [E|Hne]; injection H as <-; cbn.
  - specialize (Hroot E). injection Hroot as ? ? ? E' ?. rewrite E', substr_self, string_app_nil.
    f_equal; congruence || lia.
  - f_equal; congruence || lia.
Qed.

Lemma move_plan_tree : well_placed s' ∧ location (places s') u target = Some l ∧
  ∀ q, stands u s q → apart p q → target ∉ folder_ids_of q → stands u s' q.
Proof.
  destruct root_place as [Hroot Huser]. unfold move_plan in Hrun.
  run_bind_result Hrun x t Hmove. destruct x. apply runs_move_folders in Hmove.
  destruct (folder_paths _ _ _) as [paths|] eqn:Epaths; [|by apply runs_raise in Hrun].
  run_bind_result Hrun x t1 Hfiles. destruct x. run_bind_result Hrun x t2 Hcount. destruct x.
  apply runs_count_item in Hcount, Hrun.
  pose proof (relocated_folders u root (place (pl_root p).2) place' (pl_folders p) _ s t
    (sd_nodup _ _ _ Hp) (sd_tree _ _ _ Hp) (sd_rows _ _ _ Hp) move_sets Hmove) as Hplaces.
  destruct (relocated_well_placed date MoveFailed u root (place (pl_root p).2) place' (pl_folders p)
    (pl_files p) _ paths snap s t t1 l Hs (sd_nodup _ _ _ Hp) (sd_tree _ _ _ Hp)
    (sd_rows _ _ _ Hp) eq_refl Htarget Hl eq_refl eq_refl move_sets Hmove Epaths
    (sd_files _ _ _ Hp) (sd_all _ _ _ Hp) Hfiles) as (Ht1 & Hout & Hspots & Hback).
  assert (places t1 = places t) as Et1.
  { eapply runs_rename_files in Hfiles as (E & _ & _); [exact E|].
    destruct (rewritten_rows _ _ _ _ _ (sd_nodup _ _ _ Hp) Hmove) as (Espots & _).
    intros g Hg. destruct (sd_files _ _ _ Hp _ Hg) as [Hspot _].
    rewrite <- Espots, spots_lookup in Hspot. apply fmap_Some in Hspot as (f & Hf & E).
    exists f. unfold spot in E. by injection E. }
  assert (same_tree t1 s') as Hsame by (by etrans).
  split_and!.
  - by eapply well_placed_same.
  - rewrite (st_places _ _ Hsame). rewrite <- Hl. apply location_ext. by apply Hout.
  - intros q Hq Hapart Hq'.
    assert (∀ i, i ∈ folder_ids_of q → places s' !! i = places s !! i) as Hsamei.
    { intros i Hi. rewrite (st_places _ _ Hsame). apply Hout. intros Hi'. by apply (Hapart i). }
    destruct Hq as [Hnd [[Hr Hr'] Hreal Hdown Hup] Hrows Hfs Hin Hall].
    split; [done| | | |done|].
    + split.
      * split; [|done]. rewrite Hsamei; [done|]. apply Hr'.
      * intros i Hi. rewrite Hsamei by done. by apply Hreal.
      * intros i z Hz Hzu Hpar. rewrite (st_places _ _ Hsame), Et1, Hplaces in Hz.
        case_decide as Hi; [|by eapply Hdown]. exfalso.
        destruct (is_real _ _ _ _ _ (sd_tree _ _ _ Hp) _ Hi) as [y Hy].
        destruct (is_up _ _ _ _ _ (sd_tree _ _ _ Hp) _ _ Hi Hy) as (Hyu & _ & Hor).
        destruct (Z.eqb_spec i root) as [->|Hne]; [injection Hz as <-; done|].
        rewrite Hy in Hz. simpl in Hz. injection Hz as <-. simpl in Hpar.
        destruct Hor as [?|Hj]; [done|]. by apply (Hapart _ Hj).
      * intros i z Hi. rewrite Hsamei by done. by apply Hup.
    + intros item Hitem. rewrite Hsamei; [by apply Hrows|]. by apply list_elem_of_fmap_2.
    + intros g Hg. destruct (Hfs _ Hg) as [Hg' ?]. split; [|done].
      rewrite (st_spots _ _ Hsame). apply Hspots; [done|]. right. simpl. intros Hg''.
      by apply (Hapart _ Hg''), Hin.
    + intros k z Hz Hzu Hzf. rewrite (st_spots _ _ Hsame) in Hz.
      destruct (Hback _ _ Hz) as (r & Hr0 & E1 & E2 & _). apply (Hall k r); congruence.
Qed.
End move_plan.

Fixpoint all_apart (ps : list FolderDeletePlan) : Prop :=
  match ps with
  | [] => True
  | p :: ps => Forall (apart p) ps ∧ all_apart ps
  end.

(** A move that succeeds has checked every plan against the target. *)
Lemma move_plans_checked date ps u target l o n snap s m s' :
  runs (move_plans date ps u target l o n) snap s (Ok m) s' →
  Forall (λ p, target ∉ folder_ids_of p) ps.
Proof.
  revert o n s. induction ps as [|p ps IH]; intros o n s; simpl; [constructor|].
  case_bool_decide as Hin; [by intros [? _]%runs_ret|]. intros H. constructor; [done|].
  destruct (_ =? target); [by eapply IH|]. case_bool_decide; [by eapply IH|].
  run_bind_result H x t H1. by eapply IH.
Qed.

Lemma move_plans_tree date ps u target l o n snap s m s' :
  well_placed s → location (places s) u target = Some l → Forall (stands u s) ps → all_apart ps →
  runs (move_plans date ps u target l o n) snap s (Ok m) s' → well_placed s'.
Proof.
  intros Hs Hl Hps Hap H. pose proof (move_plans_checked _ _ _ _ _ _ _ _ _ _ _ H) as Hc.
  revert o n s Hs Hl Hps H. induction ps as [|p ps IH]; intros o n s Hs Hl Hps; simpl.
  { by intros [_ ->]%runs_ret. }
  apply Forall_cons in Hps as [Hp Hps]. apply Forall_cons in Hc as [Hpc Hc].
  destruct Hap as [Hap1 Hap].
  rewrite bool_decide_eq_false_2 by done. destruct (_ =? target); [by apply IH|].
  case_bool_decide; [by apply IH|]. intros H'. run_bind_result H' x t H1. destruct x.
  destruct (move_plan_tree _ _ _ _ _ _ _ _ Hs Hp Hl Hpc H1) as (Ht & Hlt & Hq).
  eapply IH; [done..| |exact H'].
  rewrite Forall_forall in *. intros q Hin. by apply Hq; [apply Hps|apply Hap1|apply Hc].
Qed.

(** ** Moving files *)

(** The names the move has read are those of the files. *)
Definition names_agree (m : gmap Z (Z * string)) (s : Database) : Prop :=
  ∀ k i name q, m !! k = Some (i, name) → spots s !! k = Some q → q_name q = name.

Lemma move_chunk_tree date u target l m chunk o ds n snap s r s' :
  well_placed s → location (places s) u target = Some l → names_agree m s →
  runs (move_chunk date u target l m chunk o ds n) snap s (Ok r) s' →
  well_placed s' ∧ places s' = places s ∧ names_agree m s'.
Proof.
  revert o ds n s. induction chunk as [|k chunk IH]; intros o ds n s Hs Hl Hm; simpl.
  { by intros [_ ->]%runs_ret. }
  destruct (m !! k) as [[i name]|] eqn:Ek; [|by apply IH].
  destruct (i =? target); [by apply IH|]. case_bool_decide; [by apply IH|].
  intros H'. run_bind H' b t H1. destruct b; simpl in H'; [|by apply runs_ret in H' as []].
  unfold UpdateFileLocation in H1. apply runs_exec in H1.
  destruct (update_file_placed _ _ _ _ _ Hs H1) as (Ht & Epl & f & Hf & Espots).
  { intros f Hf Hu. exists l. split; [by rewrite <- Hu in Hl|].
    assert (f_name f = name) as <-; [|done].
    apply (Hm k i name (spot f) Ek). by rewrite spots_lookup, Hf. }
  edestruct IH as (? & E & ?); [exact Ht| | |exact H'|].
  - by rewrite Epl.
  - intros k' i' name' q Hk'. rewrite Espots. intros [[<- <-]|[_ Hq]]%lookup_insert_Some.
    + simpl. apply (Hm k i' name' (spot f)); [done|]. by rewrite spots_lookup, Hf.
    + by eapply Hm.
  - split_and!; [done|congruence|done].
Qed.

Lemma apply_deltas_tree date u ds keys snap s s' :
  runs (for_each_result keys (apply_delta date u ds)) snap s (Ok tt) s' → same_tree s s'.
Proof.
  revert s. induction keys as [|i keys IH]; intros s; simpl; [by intros [_ ->]%runs_ret|].
  intros H. run_bind_result H x t H1. etrans; [|by apply IH]. revert H1. unfold apply_delta.
  destruct (_ =? 0); [by intros [_ ->]%runs_ret|]. intros H1. run_bind H1 b t' H2.
  apply runs_ret in H1 as [_ ->]. by eapply runs_count_delta.
Qed.

Lemma move_chunks_tree date it u target l m chunks n snap s r s' :
  well_placed s → location (places s) u target = Some l → names_agree m s →
  runs (move_chunks date it u target l m chunks n) snap s (Ok r) s' →
  well_placed s' ∧ places s' = places s.
Proof.
  revert n s. induction chunks as [|chunk chunks IH]; intros n s Hs Hl Hm; simpl.
  { by intros [_ ->]%runs_ret. }
  intros H. run_bind H o t H1.
  apply runs_occupied_names in H1 as ->.
  run_bind_result H x t H2. destruct x as [ds n'].
  destruct (move_chunk_tree _ _ _ _ _ _ _ _ _ _ _ _ _ Hs Hl Hm H2) as (Ht & E & Hm').
  run_bind_result H x t2 H3. destruct x. apply apply_deltas_tree in H3.
  destruct (IH n' t2) as [? E']; [by eapply well_placed_same| | |exact H|].
  - by rewrite (st_places _ _ H3), E.
  - intros k i name q Hk. rewrite (st_spots _ _ H3). by eapply Hm'.
  - split; [done|]. by rewrite E', (st_places _ _ H3).
Qed.

Lemma move_files_tree date it ids u target l snap s n s' :
  well_placed s → location (places s) u target = Some l →
  runs (move_files date it ids u target l) snap s (Ok n) s' →
  well_placed s' ∧ places s' = places s.
Proof.
  intros Hs Hl. unfold move_files. destruct (decide _); [by intros [_ ->]%runs_ret|].
  intros H. run_bind H fs t H1. apply runs_fetch_owned_files in H1 as (-> & Hnd & Hfs).
  run_bind H x t H1. apply runs_name_locks in H1 as ->; [|apply _|by intros ???? [_ ->]%runs_query].
  eapply move_chunks_tree; [done..| |exact H].
  intros k i name q Hk Hq. unfold located_files in Hk. apply elem_of_list_to_map_2 in Hk.
  apply list_elem_of_fmap in Hk as ([k' f] & [= -> -> ->] & Hin). apply Hfs in Hin as (_ & Hf & _).
  simpl in Hf. rewrite spots_lookup, Hf in Hq. by injection Hq as <-.
Qed.

(** ** The whole move *)

Lemma plans_of_apart ids u s plans ids' : plan_shape ids u s plans → NoDup ids' →
  (∀ r, r ∈ ids' → r ∈ FilterCoveredFolderIds ids plans) → all_apart (plans_of ids' plans).
Proof.
  intros Hshape Hnd Hsub. induction ids' as [|r ids' IH]; [done|].
  apply NoDup_cons in Hnd as [Hr Hnd]. unfold plans_of. simpl.
  assert (all_apart (plans_of ids' plans)) as Hrest by (apply IH; [done|]; intros; apply Hsub; by right).
  destruct (plans !! r) as [p|] eqn:Hp; [|done]. split; [|done].
  apply Forall_forall. intros q Hq i Hi Hi'. apply list_elem_of_omap in Hq as (r' & Hr' & Hq).
  apply Hr. rewrite (top_plans_disjoint _ _ _ _ r r' p q i Hshape); try done;
    apply Hsub; first [by left|by right].
Qed.

Lemma FilterCovered_NoDup ids plans : NoDup ids → NoDup (FilterCoveredFolderIds ids plans).
Proof. intros H. by apply NoDup_ListNoDup, List.NoDup_filter, NoDup_ListNoDup. Qed.

Lemma runs_lock_each ids u snap s x s' : runs (lock_each ids u) snap s x s' → s' = s.
Proof.
  revert s. induction ids as [|i ids IH]; intros s; simpl; [by intros [_ ->]%runs_ret|].
  intros H. run_bind H y t H1. apply runs_query in H1 as [_ ->]. by apply IH.
Qed.

Lemma move_folder_items_tree date it ids u target l snap s n s' : (∀ l, it l ≡ₚ l) →
  well_placed s → location (places s) u target = Some l → NoDup ids → not_nested ids u s →
  runs (move_folder_items date it ids u target l) snap s (Ok n) s' → well_placed s'.
Proof.
  intros Hit Hs Hl Hids Hn H. unfold move_folder_items in H.
  run_bind H x t H1. apply runs_lock_each in H1 as ->.
  run_bind H plans t Hplans. pose proof Hplans as [-> Hshape]%runs_fetch_plans. cbv zeta in H.
  run_bind H y t H1. apply runs_name_locks in H1 as ->; [|apply _|by intros ???? [_ ->]%runs_query].
  run_bind H o t H1.
  apply runs_occupied_folders in H1 as ->.
  eapply move_plans_tree; [done|done| | |exact H].
  - apply Forall_forall. intros p Hp. apply list_elem_of_omap in Hp as (r & _ & Hp).
    by eapply plans_stand.
  - eapply plans_of_apart; [done|by apply FilterCovered_NoDup|done].
Qed.

Lemma descends_places d d' u i j : places d' = places d → descends d u i j → descends d' u i j.
Proof.
  intros E. apply rtc_subrel. intros a b (f & Hf & Hu & Hp).
  assert (places d' !! b = Some (place f)) as Hb by (by rewrite E, places_lookup, Hf).
  rewrite places_lookup in Hb. apply fmap_Some in Hb as (g & Hg & Eg). exists g.
  unfold place in Eg. injection Eg as ? ? ? ? ?. split_and!; congruence.
Qed.

Lemma move_items_tree date it files ids u target l snap s n s' : (∀ l, it l ≡ₚ l) →
  well_placed s → location (places s) u target = Some l → NoDup ids → not_nested ids u s →
  runs (move_items_body date it files ids u target l) snap s (Ok n) s' → well_placed s'.
Proof.
  intros Hit Hs Hl Hids Hn H. unfold move_items_body in H.
  run_bind_result H a t H1. destruct (move_files_tree _ _ _ _ _ _ _ _ _ _ Hs Hl H1) as [Ht E].
  run_bind_result H b t' H2. apply runs_ret in H as [_ ->].
  eapply move_folder_items_tree; [done|done|by rewrite E|done| |exact H2].
  intros r r' Hr Hr' Hne Hd. apply (Hn r r' Hr Hr' Hne). by eapply descends_places.
Qed.

(** A transaction that starts where [I] holds ends where [J] holds. *)
Lemma Run_ends {A} (I J : Database → Prop) err (func : M Database (Result A)) e :
  TxBody func → (∀ s, I s → J s) →
  (∀ s a s', I s → clean func s = (Ret (Ok a), mkEnv s' [] (InTx s false) []) → J s') →
  tx e = AutoCommit → I (db e) → stable I (schedule e) → J (db (Run err func e).2).
Proof.
  destruct e as [s sch t cs]. simpl. intros Hb HIJ Hc -> HI Hst.
  destruct (Run_spec err func s sch cs Hb) as (o & s' & sch' & -> & _ & Ho). simpl.
  pose proof (stable_arrive I _ _ HI Hst). destruct Ho as [[-> _]|(a & _ & Hs')]; eauto.
Qed.

Lemma location_answer (I : Database → Prop) i u e : 0 <= i → tx e = AutoCommit → I (db e) →
  stable I (schedule e) → ∀ l e', ResolveOwnedFolderLocation i u e = (Ret (Ok l), e') →
  ∃ s, I s ∧ location (places s) u i = Some l.
Proof.
  intros Hi Ht HI Hst l e'. unfold ResolveOwnedFolderLocation.
  destruct (Z.eqb_spec i 0) as [->|Hne]; [intros [= <- _]; eauto|].
  unfold catch_db, catch, mbind, M_bind. destruct (query _ e) as [[r|x] e1] eqn:Eq.
  - destruct (query_answer I _ _ _ _ Ht HI Hst Eq) as (s & Hs & ->).
    destruct (owned_folder i u s) as [[j f]|] eqn:E; intros [= <- _]. exists s. split; [done|].
    by apply (owned_location _ _ _ _ E).
  - by destruct x.
Qed.

(** C37: a move keeps the drive in shape: after moving files and folders, whatever
    fails, every folder and file agrees with the folder that contains it, as long as no
    requested folder lies in another, and the other sessions keep the drive in shape,
    nest no requested folders and leave the target where it is.  The last condition is
    needed, since the target is located before the transaction. *)
Theorem move_keeps_shape date it request u d sch cs l : (∀ ids, it ids ≡ₚ ids) →
  0 <= mv_target_folder_id request →
  let I s := well_placed s ∧ not_nested (mv_folder_ids request) u s ∧
             location (places s) u (mv_target_folder_id request) = l in
  I d → stable I sch →
  well_placed (db (Move date it request u (mkEnv d sch AutoCommit cs)).2).
Proof.
  intros Hit Hpos I Hd Hsch. unfold Move. cbv zeta. unfold bind_result at 1, mbind at 1, M_bind.
  assert (Preserves I (ResolveOwnedFolderLocation (mv_target_folder_id request) u)) as Hres.
  { unfold ResolveOwnedFolderLocation. solve_preserves. }
  specialize (Hres (mkEnv d sch AutoCommit cs) eq_refl Hd Hsch).
  pose proof (location_answer I (mv_target_folder_id request) u (mkEnv d sch AutoCommit cs)
    Hpos eq_refl Hd Hsch) as Hans.
  destruct (ResolveOwnedFolderLocation _ _ _) as [[[l'|er]|x] e'] eqn:Er;
    destruct Hres as (Ht & HI & Hs); [|by destruct HI..].
  assert (well_placed (db (Run MoveFailed (move_items_body date it
    (sort_unique (mv_file_ids request)) (sort_unique (mv_folder_ids request)) u
    (mv_target_folder_id request) l') e').2)) as Hend.
  2: { unfold bind_result, mbind, M_bind. destruct (Run _ _ e') as [[[[]|]|] ?]; exact Hend. }
  apply (Run_ends I); [apply _|by intros s []| |done..].
  intros s a s' (Hs1 & Hs2 & Hs3) Hc. apply (proj1 (clean_runs _ _ _ _)) in Hc.
  destruct (Hans _ _ eq_refl) as (s0 & (_ & _ & H3) & H4).
  eapply move_items_tree; [done|done| |apply sort_unique_NoDup| |exact Hc].
  - by rewrite Hs3, <- H3.
  - intros r r'. rewrite !sort_unique_elem. apply Hs2.
Qed.

(** C38: a move trusts a location that may be out of date.  The target of a move is
    located before the transaction, without a lock: when another session renames the
    target in between, which by itself keeps the drive in shape, the move succeeds and
    leaves a folder whose path is not below the path of its parent. *)
Theorem stale_target_breaks_shape :
  let rename s := db (FolderService.Rename (λ _, ""%string) 200 1 "papers" 7
                        (mkEnv s [] AutoCommit [])).2 in
  let moved := Move 200 id (mkMoveRequest [] [3] 1) 7
                 (mkEnv example_drive [alone Works; mkStep rename Works] AutoCommit []) in
  well_placed example_drive ∧ (∀ s, well_placed s → well_placed (rename s)) ∧
  moved.1 = Ret (Ok (mkMoveResponse 1 0 1)) ∧ ¬ well_placed (db moved.2).
Proof.
  intros rename moved. split_and!.
  - apply example_drive_placed.
  - intros s Hs. unfold rename, FolderService.Rename.
    assert (Preserves well_placed (Run RenameFolderFailed
      (rename_folder_body (λ _, ""%string) 200 1 "papers" 7))) as Hp.
    { apply preserves_Run; [apply _|]. intros s0 a s' Hs0 Hr. by eapply rename_folder_tree. }
    by destruct (Hp (mkEnv s [] AutoCommit []) eq_refl Hs (Forall_nil_2 _)) as (_ & ? & _).
  - vm_compute. reflexivity.
  - intros [Ht _ _].
    assert (places (db moved.2) !! 3 = Some (mkPlace 7 1 "pics" "/docs/pics/" 2)) as H3
      by (vm_compute; reflexivity).
    assert (places (db moved.2) !! 1 = Some (mkPlace 7 0 "papers" "/papers/" 1)) as H1
      by (vm_compute; reflexivity).
    destruct (child_path _ _ Ht 3 1 _ _ H3 H1) as [E _]; [done..|]. discriminate E.
Qed.

Lemma move_keeps_shape_witness :
  well_placed (db (Move 200 id (mkMoveRequest [4] [3] 1) 7 (mkEnv example_drive [] AutoCommit [])).2).
Proof.
  apply (move_keeps_shape 200 id (mkMoveRequest [4] [3] 1) 7 example_drive [] []
    (Some (mkFolderLocation "/docs/" 1))).
  - done.
  - cbn. lia.
  - split_and!; [exact example_drive_placed| |reflexivity].
    intros r r' ->%list_elem_of_singleton ->%list_elem_of_singleton. done.
  - constructor.
Defined.
