(* ===== verification/Like.v ===== *)
(** * LIKE

    The [LIKE] operator of PostgreSQL on UTF-8 texts: [%] stands for any characters,
    [_] for one, and a backslash takes the next character literally.  The queries of
    the share service build patterns from folder paths. *)

From Stdlib Require Import Ascii.
From S2P Require Import Prelude Errors Names.

Local Open Scope string_scope.

(** A byte that continues a UTF-8 character. *)
Definition is_continuation (c : Ascii.ascii) : bool :=
  (Z.land (Z.of_N (Ascii.N_of_ascii c)) 0xC0 =? 0x80)%Z.

Fixpoint skip_continuations (s : string) : string :=
  match s with
  | String c s' => if is_continuation c then skip_continuations s' else s
  | EmptyString => EmptyString
  end.

(** The text after its first character. *)
Definition next_char (s : string) : string :=
  match s with EmptyString => EmptyString | String _ s' => skip_continuations s' end.

(** [text LIKE pattern].  A pattern that ends in a lone backslash, which the server
    refuses, matches nothing; no pattern of the code ends so. *)
Fixpoint like (pattern text : string) {struct pattern} : bool :=
  match pattern with
  | EmptyString => str_empty text
  | String c pattern' =>
      if Ascii.eqb c "%"%char then
        (fix any (n : nat) (text : string) : bool :=
           like pattern' text ||
           match n, text with
           | S n, String _ _ => any n (next_char text)
           | _, _ => false
           end) (String.length text) text
      else if Ascii.eqb c "_"%char then
        match text with EmptyString => false | String _ _ => like pattern' (next_char text) end
      else if Ascii.eqb c "\"%char then
        match pattern', text with
        | String e pattern'', String a text' => Ascii.eqb e a && like pattern'' text'
        | _, _ => false
        end
      else
        match text with
        | String a text' => Ascii.eqb c a && like pattern' text'
        | EmptyString => false
        end
  end.

(** [CONCAT(prefix, '%')]. *)
Definition below (prefix : string) : string := prefix ++ "%".

(** Characters that stand for themselves in a pattern. *)
Definition literal_char (c : Ascii.ascii) : bool :=
  negb (Ascii.eqb c "%"%char || Ascii.eqb c "_"%char || Ascii.eqb c "\"%char).

Fixpoint literal (s : string) : bool :=
  match s with EmptyString => true | String c s => literal_char c && literal s end.

(** ** Lemmas *)

Local Close Scope string_scope.

Lemma like_percent text : like "%" text = true.
Proof.
  simpl. enough (∀ n text, (String.length text <= n)%nat →
    (fix any (n : nat) (text : string) : bool := str_empty text ||
       match n with
       | O => false
       | S n => match text with EmptyString => false | String _ _ => any n (next_char text) end
       end) n text = true) as H by (rewrite <- (H (String.length text) text); [|lia]; by destruct text).
  induction n as [|n IH]; intros [|c t]; simpl; intros Hl; try done || lia.
  apply IH. clear -Hl. assert (String.length (skip_continuations t) <= String.length t)%nat; [|lia].
  clear Hl. induction t as [|d t IH]; simpl; [done|]. case_match; simpl; lia.
Qed.

(** A literal prefix matches exactly the texts it begins. *)
Lemma like_below prefix text : literal prefix = true →
  like (below prefix) text = true ↔ ∃ rest, text = prefix +:+ rest.
Proof.
  unfold below. revert text. induction prefix as [|c prefix IH]; intros text.
  - intros _. change ("" +:+ "%")%string with "%"%string. rewrite like_percent. split; [|done].
    intros _. by exists text.
  - simpl. intros [Hc Hp]%andb_true_iff. unfold literal_char in Hc.
    apply negb_true_iff, orb_false_iff in Hc as [[H1 H2]%orb_false_iff H3].
    change (String c prefix ++ "%")%string with (String c (prefix ++ "%")).
    simpl. rewrite H1, H2, H3. destruct text as [|a text].
    + split; [done|]. by intros (rest & E).
    + rewrite andb_true_iff, IH by done. split.
      * intros [->%Ascii.eqb_eq (rest & ->)]. by exists rest.
      * intros (rest & [= -> ->]). split; [apply Ascii.eqb_refl|]. by exists rest.
Qed.

Lemma literal_app s t : literal (s +:+ t) = literal s && literal t.
Proof.
  induction s as [|c s IH]; [done|]. change (String c s +:+ t) with (String c (s +:+ t)).
  simpl. by rewrite IH, andb_assoc.
Qed.
