(* ===== verification/Shares.v ===== *)
(** * Shares

    [src/src/services/ShareService.cpp] but for saving to the drive: an owner shares
    files and folders under a code, with an optional password and expiry; anyone who
    knows both gets a token, browses the share and downloads from it.  The audit trail
    is that of [ShareAuditService.cpp]. *)

From Stdlib Require Import Ascii.
From S2P Require Import Prelude Errors Storage Db Schema Json Batch Names Content Folders Files Like Redis.
From S2P Require Import OperationLogs.

Local Open Scope string_scope.

(** ** Data *)

(** The columns of [shares.status]. *)
Inductive ShareStatus := Share_Cancelled | Share_Active | Share_Expired.

Definition share_status_value (s : ShareStatus) : Z :=
  match s with Share_Cancelled => 0 | Share_Active => 1 | Share_Expired => 2 end.

Inductive SharePermission := View | Download.

Definition SharePermissionToString (p : SharePermission) : string :=
  match p with Download => "download" | View => "view" end.

Record ShareFile := mkShareFile {
  sh_id : Z;
  sh_name : string;
  sh_type : string;
  sh_size : Z;
  sh_file_hash : string;
  sh_supports_range : bool;
  sh_item_count : Z
}.

Record CreateShareRequest := mkCreateShareRequest {
  cq_file_ids : list Z;
  cq_folder_ids : list Z;
  cq_expire_days : Z;
  cq_password : option string;
  cq_permission : SharePermission
}.

Record CreateShareResponse := mkCreateShareResponse {
  cr_share_id : string;
  cr_share_link : string;
  cr_password : option string;
  cr_permission : string;
  cr_expires_at : string;
  cr_created_at : string
}.

Record ShareListRequest := mkShareListRequest {
  lq_status : string;
  lq_page : Z;
  lq_page_size : Z
}.

Record ShareItem := mkShareItem {
  li_share_id : string;
  li_file_name : string;
  li_file_count : Z;
  li_share_link : string;
  li_has_password : bool;
  li_permission : string;
  li_view_count : Z;
  li_download_count : Z;
  li_created_at : string;
  li_expires_at : string;
  li_status : string
}.

Record SharePagination := mkSharePagination {
  sp_page : Z;
  sp_page_size : Z;
  sp_total : Z;
  sp_total_pages : Z
}.

Record ShareDetailResponse := mkShareDetailResponse {
  dr_share_id : string;
  dr_files : list ShareFile;
  dr_share_link : string;
  dr_has_password : bool;
  dr_permission : string;
  dr_view_count : Z;
  dr_download_count : Z;
  dr_created_at : string;
  dr_expires_at : string;
  dr_status : string
}.

Record UpdateShareRequest := mkUpdateShareRequest {
  uq_share_id : string;
  uq_expire_days : option Z;
  uq_password : option string;
  uq_permission : option SharePermission
}.

Record UpdateShareResponse := mkUpdateShareResponse {
  ur_share_id : string;
  ur_expires_at : string;
  ur_has_password : bool;
  ur_permission : string;
  ur_updated_at : string
}.

Record CancelShareError := mkCancelShareError {
  ce_code : Code;
  ce_message : string;
  ce_reason : string
}.

Record CancelShareResult := mkCancelShareResult {
  cs_share_id : string;
  cs_status : string;
  cs_error : option CancelShareError
}.

Record CancelShareResponse := mkCancelShareResponse {
  cc_total : Z;
  cc_succeeded : Z;
  cc_failed : Z;
  cc_results : list CancelShareResult
}.

Record AccessShareRequest := mkAccessShareRequest {
  aq_share_id : string;
  aq_password : option string
}.

Record AccessShareResponse := mkAccessShareResponse {
  ar_share_token : string;
  ar_expires_in : Z;
  ar_permission : string;
  ar_files : list ShareFile
}.

Record BrowseShareRequest := mkBrowseShareRequest {
  bq_share_id : string;
  bq_folder_id : option Z
}.

Record BrowseBreadcrumb := mkBrowseBreadcrumb { bb_id : Z; bb_name : string }.

(** The items listed have the fields of a [ShareFile]. *)
Record BrowseShareResponse := mkBrowseShareResponse {
  br_items : list ShareFile;
  br_breadcrumb : list BrowseBreadcrumb
}.

Record DownloadInfo := mkDownloadInfo {
  di_file_id : Z;
  di_filename : string;
  di_blob : BlobDescriptor;
  di_file_size : Z;
  di_mime_type : string;
  di_file_hash : string;
  di_supports_range : bool
}.

Record ShareDownloadOutcome := mkShareDownloadOutcome {
  do_bytes : Z;
  do_http_status : Z;
  do_success : bool;
  do_update_statistics : bool;
  do_result : string
}.

Record ShareAuditContext := mkShareAuditContext {
  ac_ip_address : string;
  ac_user_agent : string
}.

Record FailedShareAccessResult := mkFailedShareAccessResult {
  fa_error : ErrorInfo;
  fa_attempt_count : Z;
  fa_counter_available : bool
}.

Notation share := (Z * ShareRow)%type.

(** ** Statements *)

(** The constraints of [shares] on one row. *)
Definition check_share (s : ShareRow) : bool :=
  varchar 32 (s_share_code s) &&
  match s_password_hash s with Some h => varchar 255 h | None => true end &&
  varchar 10 (s_permission s) && ((s_permission s =? "view") || (s_permission s =? "download")).

Definition put_share (id : Z) (s : ShareRow) (d : Database) : Database :=
  d <| shares := <[id := s]> (shares d) |>.

(** [INSERT INTO shares ... ON CONFLICT (share_code) DO NOTHING RETURNING *]. *)
Definition insert_share_statement (s : ShareRow) (d : Database)
  : option (option share * Database) :=
  id ← bigint (shares_id_seq d);
  let next := d <| shares_id_seq := (id + 1)%Z |> in
  if negb (check_share s) then None
  else if exists_row (λ _ r, s_share_code r =? s_share_code s) (shares d) then Some (None, next)
  else if bool_decide (is_Some (users d !! s_user_id s))
  then Some (Some (id, s), put_share id s next) else None.

(** A row of [INSERT INTO share_files ...], with the unique constraint
    [uk_share_files_share_item] and the foreign key on the share. *)
Definition insert_share_file (l : ShareFileRow) (d : Database) : option Database :=
  id ← bigint (share_files_id_seq d);
  if exists_row (λ _ k, (sf_share_id k =? sf_share_id l)%Z &&
       (sf_item_type k =? sf_item_type l) && (sf_item_id k =? sf_item_id l)%Z) (share_files d)
  then None
  else if bool_decide (is_Some (shares d !! sf_share_id l))
  then Some (d <| share_files_id_seq := (id + 1)%Z |>
               <| share_files := <[id := l]> (share_files d) |>)
  else None.

(** All the rows or none. *)
Fixpoint insert_share_files (share_id : Z) (item_type : string) (ids : list Z) (date : Z)
    (d : Database) : option (unit * Database) :=
  match ids with
  | [] => Some (tt, d)
  | id :: ids =>
      d' ← insert_share_file (mkShareFileRow share_id item_type id date) d;
      insert_share_files share_id item_type ids date d'
  end.

(** The trigger [update_modified_column] runs before every update of a row. *)
Definition modified_share (d : Database) (s : ShareRow) : ShareRow := s <| s_updated_at := now d |>.

(** [UPDATE shares SET ... WHERE id = id]. *)
Definition update_share (id : Z) (set : ShareRow → option ShareRow) (d : Database)
  : option (Z * Database) :=
  match shares d !! id with
  | None => Some (0, d)
  | Some s =>
      s' ← modified_share d <$> set s;
      if check_share s' then Some (1, put_share id s' d) else None
  end%Z.

(** [UPDATE shares SET status = 0, updated_at = t WHERE share_code IN (codes)]. *)
Definition cancel_shares (codes : list string) (date : Z) (d : Database)
  : option (unit * Database) :=
  Some (tt, d <| shares := (λ s, if bool_decide (s_share_code s ∈ codes)
                            then modified_share d (s <| s_status := 0%Z |> <| s_updated_at := date |>)
                            else s)
                           <$> shares d |>).

(** The items linked to a share, of one type, in order. *)
Definition share_links (item_type : string) (P : Z → bool) (d : Database)
  : list (Z * ShareFileRow) :=
  select_rows (λ _ l, P (sf_share_id l) && (sf_item_type l =? item_type))
    (λ a b, (a.1 <=? b.1)%Z) (share_files d).

Definition content_hash (content_id : Z) (d : Database) : string :=
  from_option c_hash_md5 "" (file_contents d !! content_id).

Definition shared_file_item (d : Database) (kf : file_row) : ShareFile :=
  mkShareFile kf.1 (f_name kf.2) "file" (u64 (f_size kf.2))
    (content_hash (f_content_id kf.2) d) true 0.

Definition shared_folder_item (kf : folder) : ShareFile :=
  mkShareFile kf.1 (d_name kf.2) "folder" 0 "" true (u32 (d_item_count kf.2)).

(** The joins of [share_files] with [files] and with [folders]: the share, the link and
    the item. *)
Definition linked_files (P : Z → bool) (d : Database) : list (Z * (Z * ShareFile)) :=
  omap (λ kl, f ← files d !! sf_item_id kl.2;
              Some (sf_share_id kl.2, (kl.1, shared_file_item d (sf_item_id kl.2, f))))
    (share_links "file" P d).

Definition linked_folders (P : Z → bool) (d : Database) : list (Z * (Z * ShareFile)) :=
  omap (λ kl, f ← folders d !! sf_item_id kl.2;
              Some (sf_share_id kl.2, (kl.1, shared_folder_item (sf_item_id kl.2, f))))
    (share_links "folder" P d).

Definition by_link (items : list (Z * (Z * ShareFile))) : list ShareFile :=
  (order_by (λ a b, (a.1 <=? b.1)%Z) items.*2).*2.

(** [BuildSharedFolderAccessPredicate]: a folder of the share, or one whose path is
    [LIKE] the path of one. *)
Definition shared_folder (share_id : Z) (d : Database) (fo : folder) : bool :=
  exists_row (λ _ sff, (sf_share_id sff =? share_id)%Z && (sf_item_type sff =? "folder") &&
    match folders d !! sf_item_id sff with
    | Some shared_root =>
        (d_user_id fo.2 =? d_user_id shared_root)%Z &&
        ((fo.1 =? sf_item_id sff)%Z || like (below (d_path shared_root)) (d_path fo.2))
    | None => false
    end) (share_files d).

(** [BuildSharedFileAccessPredicate]: a file of the share, or one in a folder whose path
    is [LIKE] the path of a folder of the share. *)
Definition shared_file (share_id : Z) (d : Database) (f : file_row) : bool :=
  exists_row (λ _ sff, (sf_share_id sff =? share_id)%Z && (sf_item_type sff =? "file") &&
    (sf_item_id sff =? f.1)%Z) (share_files d) ||
  exists_row (λ _ sff, (sf_share_id sff =? share_id)%Z && (sf_item_type sff =? "folder") &&
    match folders d !! sf_item_id sff, folders d !! f_folder_id f.2 with
    | Some shared_root, Some parent_folder =>
        (d_user_id parent_folder =? d_user_id shared_root)%Z &&
        like (below (d_path shared_root)) (d_path parent_folder)
    | _, _ => false
    end) (share_files d).

Section service.
(** The clock of the server; the texts it gives for dates; hashing of passwords; signing
    of tokens; the answers of the Redis counters; and the fields that correlate a
    log entry with its request. *)
Context (date : Z) (format_date : Z → string)
  (HashPassword : string → option string) (verify_password : string → string → bool)
  (GenerateShareToken : string → Z → string → Result string)
  (IncrWithExpire : string → option Z) (correlation : list (string * json)).

(** ** The state of a share *)

Definition IsShareExpired (s : ShareRow) : bool :=
  match s_expires_at s with None => false | Some t => (t <? date)%Z end.

Definition IsShareActive (s : ShareRow) : bool :=
  if negb (s_status s =? share_status_value Share_Active)%Z then false
  else negb (IsShareExpired s).

Definition VerifyPassword (s : ShareRow) (password : string) : bool :=
  match s_password_hash s with None => true | Some hash => verify_password password hash end.

Definition BuildShareLink (share_code : string) : string := "/s/" ++ share_code.

Definition expires_text (s : ShareRow) : string := from_option format_date "" (s_expires_at s).

Definition status_text (s : ShareRow) : string :=
  if (s_status s =? share_status_value Share_Cancelled)%Z then "cancelled"
  else if (s_status s =? share_status_value Share_Active)%Z
  then (if IsShareExpired s then "expired" else "active") else "expired".

(** [now.after(days * 86400)]: the seconds are an [int]. *)
Definition expiry (days : Z) : Z := (date + i32 (days * 86400) * 1000000)%Z.

(** ** The audit trail *)

Definition Truncate (value : string) (max_length : nat) : string :=
  String.substring 0 max_length value.

(** [ShareAuditService::record]: a log that cannot be written is ignored. *)
Definition record (action : string) (actor_user_id share_id : option Z) (share_code : string)
    (details : list (string * json)) (context : ShareAuditContext) : M Database unit :=
  let ip_address := if str_empty (ac_ip_address context) then "unknown"
                    else Truncate (ac_ip_address context) 45 in
  catch_all
    (exec (λ d, insert_operation_log
       (mkOperationLogRow (i64 <$> actor_user_id) action (Some "share") (i64 <$> share_id)
          (Some share_code) (Some (JObject (details ++ correlation)%list)) ip_address
          (Some (Truncate (ac_user_agent context) 512)) (now d)) d))
    (mret tt).

Definition ids_json (ids : list Z) : json := JArray (JInt <$> ids).

Definition RecordCreate (actor_user_id share_id : Z) (share_code : string)
    (file_ids folder_ids : list Z) (permission : string) (expires_at : option string)
    (context : ShareAuditContext) : M Database unit :=
  record "share_create" (Some actor_user_id) (Some share_id) share_code
    [("share_code", JString share_code); ("file_ids", ids_json file_ids);
     ("folder_ids", ids_json folder_ids); ("permission", JString permission);
     ("expires_at", from_option JString JNull expires_at); ("success", JBool true);
     ("result", JString "success")] context.

Definition RecordAccess (share_id : option Z) (share_code : string) (success : bool)
    (result : string) (context : ShareAuditContext) : M Database unit :=
  record "share_access" None share_id share_code
    [("share_code", JString share_code); ("success", JBool success);
     ("result", JString result)] context.

Definition RecordPasswordFailure (share_id : option Z) (share_code : string)
    (failure : FailedShareAccessResult) (rate_limited : bool) (context : ShareAuditContext)
  : M Database unit :=
  record "share_pwd_fail" None share_id share_code
    [("share_code", JString share_code); ("attempt_count", JInt (fa_attempt_count failure));
     ("counter_available", JBool (fa_counter_available failure));
     ("rate_limited", JBool rate_limited); ("success", JBool false);
     ("result", JString (if rate_limited then "rate_limited" else "validation_failed"))] context.

Definition RecordDownload (share_id : Z) (share_code : string) (file_id : Z)
    (outcome : ShareDownloadOutcome) (context : ShareAuditContext) : M Database unit :=
  record "share_download" None (Some share_id) share_code
    [("share_code", JString share_code); ("file_id", JInt file_id);
     ("bytes", JInt (do_bytes outcome)); ("http_status", JInt (do_http_status outcome));
     ("success", JBool (do_success outcome)); ("result", JString (do_result outcome))] context.

Definition RecordCancel (actor_user_id : Z) (share_id : option Z) (share_code : string)
    (success : bool) (result : string) (context : ShareAuditContext) : M Database unit :=
  record "share_cancel" (Some actor_user_id) share_id share_code
    [("share_code", JString share_code); ("cancelled_by", JInt actor_user_id);
     ("success", JBool success); ("result", JString result)] context.

(** ** Looking shares up *)

Definition FindShareByCode (share_code : string) : M Database (Result share) :=
  catch_db
    (row ← query (λ d, find_one (λ _ s, s_share_code s =? share_code) (shares d));
     mret (match (row : option share) with
           | Some s => Ok s
           | None => Err (mkErrorInfo ShareNotFound "Share not found")
           end))
    (mret (Err (mkErrorInfo InternalError "Failed to find share"))).

Definition ValidateShareOwnership (share_code : string) (user_id : Z) : M Database (Result share) :=
  let* s := FindShareByCode share_code in
  mret (if negb (s_user_id s.2 =? user_id)%Z
        then Err (mkErrorInfo ShareAccessDenied "Access denied") else Ok s).

Definition ValidateShareActive (share_id : Z) : M Database (Result unit) :=
  catch_db
    (row ← query (λ d, shares d !! share_id);
     mret (match (row : option ShareRow) with
           | None => Err (mkErrorInfo ShareNotFound "Share not found")
           | Some s => if negb (IsShareActive s)
                       then Err (mkErrorInfo ShareExpired "Share is not active") else Ok tt
           end))
    (mret (Err (mkErrorInfo InternalError "Failed to validate share status"))).

(** The files first, then the folders; a failure empties the list. *)
Definition GetShareFiles (share_id : Z) : M Database (list ShareFile) :=
  catch_db
    (file_rows ← query (linked_files (λ i, i =? share_id)%Z);
     folder_rows ← query (linked_folders (λ i, i =? share_id)%Z);
     mret (by_link (file_rows ++ folder_rows)%list))
    (mret []).

Fixpoint share_files_chunks (chunks : list (list Z)) : M Database (list (Z * (Z * ShareFile))) :=
  match chunks with
  | [] => mret []
  | chunk :: chunks =>
      file_rows ← query (linked_files (λ i, bool_decide (i ∈ chunk)));
      folder_rows ← query (linked_folders (λ i, bool_decide (i ∈ chunk)));
      rest ← share_files_chunks chunks;
      mret (file_rows ++ folder_rows ++ rest)%list
  end.

(** The items of each share of a page. *)
Definition GetShareFilesBatch (share_ids : list Z) : M Database (Z → list ShareFile) :=
  catch_db
    (rows ← share_files_chunks (Chunks share_ids);
     mret (λ share_id, by_link (List.filter (λ r, r.1 =? share_id)%Z
                                  (rows : list (Z * (Z * ShareFile))))))
    (mret (λ _, [])).

(** ** Creating *)

Definition ValidateFileOwnership (file_ids : list Z) (user_id : Z)
  : M Database (Result (list file_row)) :=
  if decide (file_ids = []) then
    mret (Err (mkErrorInfo InvalidParameter "File ID list cannot be empty"))
  else
    catch_db
      (files ← query (λ d, mapM (λ id, owned_file id user_id d) file_ids);
       mret (match (files : option (list file_row)) with
             | None => Err (mkErrorInfo FileNotFound "File not found or no permission")
             | Some files => Ok files
             end))
      (mret (Err (mkErrorInfo InternalError "Failed to validate file ownership"))).

Definition ValidateFolderOwnership (folder_ids : list Z) (user_id : Z)
  : M Database (Result (list folder)) :=
  if decide (folder_ids = []) then
    mret (Err (mkErrorInfo InvalidParameter "Folder ID list cannot be empty"))
  else
    catch_db
      (folders ← query (λ d, mapM (λ id, owned_folder id user_id d) folder_ids);
       mret (match (folders : option (list folder)) with
             | None => Err (mkErrorInfo FolderNotFound "Folder not found or no permission")
             | Some folders => Ok folders
             end))
      (mret (Err (mkErrorInfo InternalError "Failed to validate folder ownership"))).

Definition CreateShareFailed : ErrorInfo := mkErrorInfo InternalError "Failed to create share".

Definition SHARE_CODE_GENERATION_MAX_ATTEMPTS : nat := 5.

(** The attempts to insert the share under a fresh code; [codes] are the random ones. *)
Fixpoint insert_with_code (codes : list string) (row : string → ShareRow)
  : M Database (Result share) :=
  match codes with
  | [] => mret (Err CreateShareFailed)
  | candidate :: codes =>
      inserted ← exec (insert_share_statement (row candidate));
      match (inserted : option share) with
      | Some s => mret (Ok s)
      | None => insert_with_code codes row
      end
  end.

Fixpoint link_chunks (share_id : Z) (item_type : string) (chunks : list (list Z))
  : M Database unit :=
  match chunks with
  | [] => mret tt
  | chunk :: chunks =>
      _ ← exec (insert_share_files share_id item_type chunk date);
      link_chunks share_id item_type chunks
  end.

(** The transaction of [Create]. *)
Definition create_share_body (codes : list string) (row : string → ShareRow)
    (file_ids folder_ids : list Z) : M Database (Result share) :=
  let* created := insert_with_code (take SHARE_CODE_GENERATION_MAX_ATTEMPTS codes) row in
  (_ ← link_chunks created.1 "file" (Chunks file_ids);
   _ ← link_chunks created.1 "folder" (Chunks folder_ids);
   mret (Ok created)).

Definition given (password : option string) : option string :=
  match password with Some p => if str_empty p then None else Some p | None => None end.

Definition Create (codes : list string) (request : CreateShareRequest) (user_id : Z)
    (audit_context : ShareAuditContext) : M Database (Result CreateShareResponse) :=
  let* files := if decide (cq_file_ids request = []) then mret (Ok [])
                else ValidateFileOwnership (cq_file_ids request) user_id in
  let* folders := if decide (cq_folder_ids request = []) then mret (Ok [])
                  else ValidateFolderOwnership (cq_folder_ids request) user_id in
  let expires_at := if (0 <? cq_expire_days request)%Z
                    then Some (expiry (cq_expire_days request)) else None in
  let* password_hash :=
    match given (cq_password request) with
    | None => mret (Ok None)
    | Some p => mret (match HashPassword p with
                      | None => Err (mkErrorInfo InternalError "Password encryption failed")
                      | Some hash => Ok (Some hash)
                      end)
    end in
  let permission := SharePermissionToString (cq_permission request) in
  let* created := Run CreateShareFailed (create_share_body codes
      (λ code, mkShareRow code user_id password_hash permission 0 0
                 (share_status_value Share_Active) expires_at date date)
      (files : list file_row).*1 (folders : list folder).*1) in
  let share_code := s_share_code created.2 in
  let expires_at := from_option format_date "" expires_at in
  (_ ← RecordCreate user_id created.1 share_code (cq_file_ids request) (cq_folder_ids request)
         permission (if str_empty expires_at then None else Some expires_at) audit_context;
   mret (Ok (mkCreateShareResponse share_code (BuildShareLink share_code)
               (given (cq_password request)) permission expires_at
               (format_date (s_created_at created.2))))).

(** ** Listing *)

Definition GetStatusFilter (status : string) : option Z :=
  if status =? "all" then None
  else if status =? "active" then Some (share_status_value Share_Active)
  else if status =? "expired" then Some (share_status_value Share_Expired)
  else if status =? "cancelled" then Some (share_status_value Share_Cancelled)
  else None.

(** The rows a listing shows; the active ones have not expired. *)
Definition listed (status : string) (user_id : Z) (d : Database) (_ : Z) (s : ShareRow) : bool :=
  (s_user_id s =? user_id)%Z &&
  match GetStatusFilter status with Some v => (s_status s =? v)%Z | None => true end &&
  (negb (status =? "active") ||
   match s_expires_at s with Some t => (now d <? t)%Z | None => true end).

Definition share_item (items : list ShareFile) (s : ShareRow) : ShareItem :=
  mkShareItem (s_share_code s) (from_option sh_name "" (head items)) (Z.of_nat (length items))
    (BuildShareLink (s_share_code s)) (bool_decide (is_Some (s_password_hash s)))
    (s_permission s) (i32 (s_view_count s)) (i32 (s_download_count s))
    (format_date (s_created_at s)) (expires_text s) (status_text s).

Definition ListShares (request : ShareListRequest) (user_id : Z)
  : M Database (Result (list ShareItem * SharePagination)) :=
  let offset := i32 ((lq_page request - 1) * lq_page_size request) in
  let* page :=
    catch_db
      (total ← query (λ d, count_rows (listed (lq_status request) user_id d) (shares d));
       rows ← query (λ d, take (Z.to_nat (lq_page_size request)) (drop (Z.to_nat offset)
                (select_rows (listed (lq_status request) user_id d)
                   (λ a b, (s_created_at b.2 <=? s_created_at a.2)%Z) (shares d))));
       mret (Ok (total, rows)))
      (mret (Err (mkErrorInfo InternalError "Failed to get share list"))) in
  let total : Z := page.1 in
  let rows : list share := page.2 in
  (share_files_map ← GetShareFilesBatch rows.*1;
   mret (Ok ((λ s : share, share_item (share_files_map s.1) s.2) <$> rows,
             mkSharePagination (lq_page request) (lq_page_size request) total
               (if (0 <? lq_page_size request)%Z
                then Z.quot (i32 (total + lq_page_size request - 1)) (lq_page_size request)
                else 0)))).

Definition Detail (share_code : string) (user_id : Z) : M Database (Result ShareDetailResponse) :=
  let* found := ValidateShareOwnership share_code user_id in
  let s := found.2 in
  if negb (IsShareActive s) then
    mret (Err (mkErrorInfo ShareExpired "Share cancelled or expired"))
  else
    share_files ← GetShareFiles found.1;
    mret (Ok (mkShareDetailResponse (s_share_code s) share_files (BuildShareLink (s_share_code s))
                (bool_decide (is_Some (s_password_hash s))) (s_permission s)
                (i32 (s_view_count s)) (i32 (s_download_count s)) (format_date (s_created_at s))
                (expires_text s) (status_text s))).

(** ** Updating *)

(** The columns an update sets; [password_hash] is [None] when the password stays. *)
Definition updated_share (request : UpdateShareRequest) (password_hash : option (option string))
    (s : ShareRow) : ShareRow :=
  s <| s_expires_at := match uq_expire_days request with
                       | None => s_expires_at s
                       | Some days => if (0 <? days)%Z then Some (expiry days) else None
                       end |>
    <| s_password_hash := default (s_password_hash s) password_hash |>
    <| s_permission := from_option SharePermissionToString (s_permission s) (uq_permission request) |>
    <| s_updated_at := date |>.

Definition Update (request : UpdateShareRequest) (user_id : Z)
  : M Database (Result UpdateShareResponse) :=
  let* found := ValidateShareOwnership (uq_share_id request) user_id in
  if negb (IsShareActive found.2) then
    mret (Err (mkErrorInfo ShareExpired "Share cancelled or expired, cannot update"))
  else
  let* password_hash :=
    mret (match uq_password request with
          | None => Ok None
          | Some p => if str_empty p then Ok (Some None)
                      else match HashPassword p with
                           | None => Err (mkErrorInfo InternalError "Password encryption failed")
                           | Some hash => Ok (Some (Some hash))
                           end
          end) in
  let* _ := catch_db
    (_ ← exec (update_share found.1 (λ s, Some (updated_share request password_hash s)));
     mret (Ok tt))
    (mret (Err (mkErrorInfo InternalError "Failed to update share"))) in
  let s := updated_share request password_hash found.2 in
  mret (Ok (mkUpdateShareResponse (uq_share_id request) (expires_text s)
              (bool_decide (is_Some (s_password_hash s))) (s_permission s) (format_date date))).

(** ** Cancelling *)

Definition cancel_failed (code : string) (c : Code) (message reason : string) : CancelShareResult :=
  mkCancelShareResult code "failed" (Some (mkCancelShareError c message reason)).

Definition cancel_internal (code : string) : CancelShareResult :=
  cancel_failed code InternalError "Operation failed" "internal_error".

Definition succeeds (r : CancelShareResult) : bool := cs_status r =? "success".

(** The results of a chunk, and the codes to cancel. *)
Fixpoint cancel_results (share_map : string → option share) (user_id : Z) (codes : list string)
    (valid : gset string) : list CancelShareResult * gset string :=
  match codes with
  | [] => ([], valid)
  | code :: codes =>
      let next r valid := let '(rs, v) := cancel_results share_map user_id codes valid in
                          (r :: rs, v) in
      match share_map code with
      | None => next (cancel_failed code ShareNotFound "Share not found" "share_not_found") valid
      | Some s =>
          if negb (s_user_id s.2 =? user_id)%Z
          then next (cancel_failed code ShareAccessDenied "Access denied" "access_denied") valid
          else if (s_status s.2 =? share_status_value Share_Cancelled)%Z ||
                  bool_decide (code ∈ valid)
          then next (cancel_failed code ValidationFailed "Share already cancelled"
                       "already_cancelled") valid
          else next (mkCancelShareResult code "success" None) ({[code]} ∪ valid)
      end
  end.

Fixpoint audit_cancels (share_map : string → option share) (user_id : Z)
    (results : list CancelShareResult) (context : ShareAuditContext) : M Database unit :=
  match results with
  | [] => mret tt
  | r :: results =>
      _ ← RecordCancel user_id (fst <$> share_map (cs_share_id r)) (cs_share_id r) (succeeds r)
            (from_option ce_reason "success" (cs_error r)) context;
      audit_cancels share_map user_id results context
  end.

Definition cancel_chunk (user_id : Z) (chunk : list string) (context : ShareAuditContext)
  : M Database (list CancelShareResult) :=
  found ← catch_db
    (rows ← query (λ d code, find_row (λ _ s, s_share_code s =? code) (shares d));
     mret (Some rows)) (mret None);
  match (found : option (string → option share)) with
  | None =>
      let results := cancel_internal <$> chunk in
      _ ← audit_cancels (λ _, None) user_id results context;
      mret results
  | Some share_map =>
      let '(results, valid) := cancel_results share_map user_id chunk ∅ in
      updated ← if decide (valid = ∅) then mret true
                else catch_db (_ ← exec (cancel_shares (elements valid) date); mret true)
                       (mret false);
      let results := if (updated : bool) then results
                     else (λ r, if succeeds r then cancel_internal (cs_share_id r) else r) <$> results in
      _ ← audit_cancels share_map user_id results context;
      mret results
  end.

Fixpoint cancel_chunks (user_id : Z) (chunks : list (list string)) (context : ShareAuditContext)
  : M Database (list CancelShareResult) :=
  match chunks with
  | [] => mret []
  | chunk :: chunks =>
      results ← cancel_chunk user_id chunk context;
      rest ← cancel_chunks user_id chunks context;
      mret (results ++ rest)%list
  end.

Definition Cancel (share_ids : list string) (user_id : Z) (context : ShareAuditContext)
  : M Database (Result CancelShareResponse) :=
  results ← cancel_chunks user_id (Chunks share_ids) context;
  let results : list CancelShareResult := results in
  let succeeded := Z.of_nat (length (List.filter succeeds results)) in
  mret (Ok (mkCancelShareResponse (Z.of_nat (length share_ids)) succeeded
              (Z.of_nat (length results) - succeeded)%Z results)).

(** ** Access *)

Definition SHARE_ACCESS_FAILURE_LIMIT : Z := 5.

Definition ValidationError : ErrorInfo :=
  mkErrorInfo SharePasswordError "Share access validation failed".
Definition RateLimitError : ErrorInfo :=
  mkErrorInfo TooManyRequests "Too many password verification attempts, please try again later".

(** A failed attempt is counted, in Redis, per share code and address. *)
Definition HandleFailedShareAccess (share_code ip_address : string) : FailedShareAccessResult :=
  match IncrWithExpire (BuildSharePasswordRateLimitKey share_code ip_address) with
  | None => mkFailedShareAccessResult ValidationError 0 false
  | Some n =>
      let attempt_count := u64 n in
      if (SHARE_ACCESS_FAILURE_LIMIT <? attempt_count)%Z
      then mkFailedShareAccessResult RateLimitError attempt_count true
      else mkFailedShareAccessResult ValidationError attempt_count true
  end.

Definition RecordFailedShareAccess (share_id : option Z) (share_code : string)
    (failure : FailedShareAccessResult) (context : ShareAuditContext) : M Database unit :=
  let rate_limited := bool_decide (code (fa_error failure) = TooManyRequests) in
  _ ← RecordPasswordFailure share_id share_code failure rate_limited context;
  RecordAccess share_id share_code false
    (if rate_limited then "rate_limited" else "validation_failed") context.

(** A refused access, with its log entries. *)
Definition refuse {A} (share_id : option Z) (share_code : string) (context : ShareAuditContext)
  : M Database (Result A) :=
  let failure := HandleFailedShareAccess share_code (ac_ip_address context) in
  _ ← RecordFailedShareAccess share_id share_code failure context;
  mret (Err (fa_error failure)).

(** Whether the password of the request opens the share. *)
Definition password_opens (s : ShareRow) (password : option string) : bool :=
  match s_password_hash s with
  | None => true
  | Some _ =>
      match password with
      | Some p => negb (str_empty p) && VerifyPassword s p
      | None => false
      end
  end.

Definition increment_count (id : Z) (set : ShareRow → option ShareRow) : M Database unit :=
  catch_db (_ ← exec (update_share id set); mret tt) (mret tt).

Definition IncrementViewCount (id : Z) : M Database unit :=
  increment_count id (λ s, n ← int4 (s_view_count s + 1); Some (s <| s_view_count := n |>)).

Definition IncrementDownloadCount (id : Z) : M Database unit :=
  increment_count id (λ s, n ← int4 (s_download_count s + 1); Some (s <| s_download_count := n |>)).

(** [TokenService::GetShareTokenExpireSeconds]. *)
Definition GetShareTokenExpireSeconds : Z := 3600.

Definition Access (request : AccessShareRequest) (context : ShareAuditContext)
  : M Database (Result AccessShareResponse) :=
  let share_code := aq_share_id request in
  found ← FindShareByCode share_code;
  match (found : Result share) with
  | Err e => if bool_decide (code e = ShareNotFound) then refuse None share_code context
             else mret (Err e)
  | Ok (id, s) =>
      if negb (s_status s =? share_status_value Share_Active)%Z then
        _ ← RecordAccess (Some id) share_code false "cancelled" context;
        mret (Err (mkErrorInfo ShareExpired "Share has been cancelled"))
      else if IsShareExpired s then
        _ ← RecordAccess (Some id) share_code false "expired" context;
        mret (Err (mkErrorInfo ShareExpired "Share has expired"))
      else if negb (password_opens s (aq_password request)) then
        refuse (Some id) share_code context
      else
        match GenerateShareToken (s_share_code s) id (s_permission s) with
        | Err e =>
            _ ← RecordAccess (Some id) share_code false "token_generation_failed" context;
            mret (Err e)
        | Ok token =>
            _ ← IncrementViewCount id;
            share_files ← GetShareFiles id;
            _ ← RecordAccess (Some id) share_code true "success" context;
            mret (Ok (mkAccessShareResponse token GetShareTokenExpireSeconds (s_permission s) share_files))
        end
  end.

(** ** Browsing and downloading *)

(** [ORDER BY name, id]. *)
Definition by_name_id (name name' : string) (id id' : Z) : bool :=
  match String.compare name name' with Lt => true | Eq => (id <=? id')%Z | Gt => false end.

(** The rows [Browse] shows inside a folder of the share. *)
Definition folder_files (folder_id user_id : Z) (d : Database) : list ShareFile :=
  shared_file_item d <$>
    select_rows (λ _ f, (f_folder_id f =? folder_id)%Z && (f_user_id f =? user_id)%Z)
      (λ a b, by_name_id (f_name a.2) (f_name b.2) a.1 b.1) (files d).

Definition child_folders (folder_id user_id : Z) (d : Database) : list ShareFile :=
  shared_folder_item <$>
    select_rows (λ _ fo, (d_parent_id fo =? folder_id)%Z && (d_user_id fo =? user_id)%Z)
      (λ a b, by_name_id (d_name a.2) (d_name b.2) a.1 b.1) (folders d).

(** The folders of the share above a path. *)
Definition breadcrumb (share_id : Z) (current_path : string) (d : Database)
  : list BrowseBreadcrumb :=
  (λ fo : folder, mkBrowseBreadcrumb fo.1 (d_name fo.2)) <$>
    select_rows (λ id fo, like (below (d_path fo)) current_path && negb (d_path fo =? "/") &&
                   shared_folder share_id d (id, fo)) by_depth_id (folders d).

Definition root_crumb : BrowseBreadcrumb := mkBrowseBreadcrumb 0 "root".

Definition browse_folder (share_id folder_id : Z) : M Database (Result BrowseShareResponse) :=
  catch_db
    (row ← query (λ d, fo ← folders d !! folder_id;
             if shared_folder share_id d (folder_id, fo) then Some fo else None);
     match (row : option FolderRow) with
     | None => mret (Err (mkErrorInfo ShareAccessDenied "Folder is not in share"))
     | Some fo =>
         files ← query (folder_files folder_id (d_user_id fo));
         folders ← query (child_folders folder_id (d_user_id fo));
         crumbs ← query (breadcrumb share_id (d_path fo));
         mret (Ok (mkBrowseShareResponse (files ++ folders)%list (root_crumb :: crumbs)))
     end)
    (mret (Err (mkErrorInfo InternalError "Failed to browse share content"))).

Definition Browse (request : BrowseShareRequest) (share_id : Z)
  : M Database (Result BrowseShareResponse) :=
  let* _ := ValidateShareActive share_id in
  let folder_id := default 0%Z (bq_folder_id request) in
  if (folder_id =? 0)%Z then
    share_files ← GetShareFiles share_id;
    mret (Ok (mkBrowseShareResponse share_files [root_crumb]))
  else browse_folder share_id folder_id.

(** What the joined query of a download answers: the share, whether it has expired, the
    file when the share holds it, and its content. *)
Definition download_row (share_id file_id : Z) (d : Database)
  : option (ShareRow * bool * option (FileRow * option ContentRow)) :=
  s ← shares d !! share_id;
  Some (s, match s_expires_at s with Some t => (t <=? now d)%Z | None => false end,
        f ← files d !! file_id;
        if shared_file share_id d (file_id, f)
        then Some (f, file_contents d !! f_content_id f) else None).

Definition download_info (file_id : Z) (f : FileRow) (c : option ContentRow) : DownloadInfo :=
  let hash := from_option c_hash_md5 "" c in
  mkDownloadInfo file_id (f_name f)
    (mkBlobDescriptor (u64 (f_content_id f)) hash (from_option c_storage_path "" c)
       (from_option (λ c, u64 (c_size c)) 0%Z c))
    (u64 (f_size f)) (from_option c_mime_type "application/octet-stream" c) hash true.

Definition GetDownloadInfo (file_id share_id : Z) : M Database (Result DownloadInfo) :=
  catch_db
    (row ← query (download_row share_id file_id);
     mret (match (row : option (ShareRow * bool * option (FileRow * option ContentRow))) with
           | None => Err (mkErrorInfo ShareNotFound "Share not found")
           | Some (s, is_expired, file) =>
               if negb (s_status s =? share_status_value Share_Active)%Z || is_expired
               then Err (mkErrorInfo ShareExpired "Share is not active")
               else match file with
                    | None => Err (mkErrorInfo FileNotFound "File not in share")
                    | Some (f, c) =>
                        if negb (s_permission s =? "download")
                        then Err (mkErrorInfo ShareAccessDenied
                                    "Share is view-only, download not allowed")
                        else Ok (download_info file_id f c)
                    end
           end))
    (mret (Err (mkErrorInfo InternalError "Failed to get download info"))).

(** [last_accessed_at] is not modelled. *)
Definition UpdateFileDownloadMetadata (file_id : Z) : M Database unit :=
  catch_db
    (_ ← exec (λ d, match files d !! file_id with
                    | None => Some (tt, d)
                    | Some f => n ← int4 (f_download_count f + 1);
                                Some (tt, put_file file_id (f <| f_download_count := n |>) d)
                    end);
     mret tt)
    (mret tt).

Definition CompleteDownload (share_code : string) (file_id share_id : Z)
    (outcome : ShareDownloadOutcome) (context : ShareAuditContext) : M Database unit :=
  _ ← if do_update_statistics outcome then
        _ ← if do_success outcome then UpdateFileDownloadMetadata file_id else mret tt;
        IncrementDownloadCount share_id
      else mret tt;
  RecordDownload share_id share_code file_id outcome context.
End service.
