(* ===== verification/ShareSaves.v ===== *)
(** * Saving a share to the drive

    [ShareService::SaveToDrive] of [src/src/services/ShareService.cpp]: the items of a
    share are copied below a folder of the user who saves them, in one transaction that
    charges their size first and gives back what it did not copy. *)

From S2P Require Import Prelude Errors Db Schema Batch Names Quota Content Folders Files.
From S2P Require Import DeletePlans FolderService Trash FileMutations FileCopies Like Shares.

Local Open Scope string_scope.

(** ** Data *)

Record SaveShareItemsRequest := mkSaveShareItemsRequest {
  sq_file_ids : list Z;
  sq_folder_ids : list Z;
  sq_target_folder_id : Z
}.

Record SaveShareItemsResponse := mkSaveShareItemsResponse {
  sr_saved_count : Z;
  sr_saved_file_count : Z;
  sr_saved_folder_count : Z
}.

(** A folder of the share with what is below it. *)
Record FolderPlan := mkFolderPlan {
  fp_root : folder;
  fp_folders : list folder;
  fp_files : list file_row
}.

(** The counters of the loops. *)
Record SaveProgress := mkSaveProgress {
  sv_file_count : Z;
  sv_folder_count : Z;
  sv_top_level_count : Z;
  sv_actual_size : Z
}.

Definition no_progress : SaveProgress := mkSaveProgress 0 0 0 0.

Definition SaveFailed : ErrorInfo := mkErrorInfo InternalError "Failed to save share items".

(** ** Statements *)

(** [SELECT f.* FROM files f WHERE f.id = id AND ...]. *)
Definition file_in_share (share_id file_id : Z) (d : Database) : option file_row :=
  f ← files d !! file_id;
  if shared_file share_id d (file_id, f) then Some (file_id, f) else None.

Definition folder_in_share (share_id folder_id : Z) (d : Database) : option folder :=
  fo ← folders d !! folder_id;
  if shared_folder share_id d (folder_id, fo) then Some (folder_id, fo) else None.

(** The folders of the owner whose path is [LIKE] that of a folder, itself included. *)
Definition share_folders_below (user_id : Z) (path : string) (d : Database) : list folder :=
  select_rows (λ _ fo, (d_user_id fo =? user_id)%Z && like (below path) (d_path fo))
    by_depth_id (folders d).

(** The join of the files of the owner with those folders, [ORDER BY fo.depth, f.id]. *)
Definition share_files_below (user_id : Z) (path : string) (d : Database) : list file_row :=
  let depth_of (f : file_row) := from_option d_depth 0%Z (folders d !! f_folder_id f.2) in
  select_rows (λ _ f, (f_user_id f =? user_id)%Z &&
      match folders d !! f_folder_id f with
      | Some fo => (d_user_id fo =? user_id)%Z && like (below path) (d_path fo)
      | None => false
      end)
    (λ a b, lex_leb (depth_of a) (depth_of b) (a.1 <=? b.1)%Z) (files d).

(** [UPDATE users SET storage_used = storage_used + n WHERE id = id AND
    storage_used + n <= storage_quota]. *)
Definition charge_statement (user_id n : Z) : Database → option (Z * Database) :=
  update_user user_id
    (λ u, t ← bigint_add (u_storage_used u) n; Some (t <=? u_storage_quota u)%Z)
    (λ u, v ← bigint_add (u_storage_used u) n; Some (u <| u_storage_used := v |>)).

(** [UPDATE users SET storage_used = storage_used - n WHERE id = id]. *)
Definition refund_statement (user_id n : Z) : Database → option (Z * Database) :=
  update_user user_id (λ _, Some true)
    (λ u, v ← bigint_sub (u_storage_used u) n; Some (u <| u_storage_used := v |>)).

(** [total_size += file.size] over the files and over those of the folders. *)
Definition size_to_save (files : list file_row) (plans : list FolderPlan) : Z :=
  foldl (λ total plan, add_sizes total (fp_files plan)) (add_sizes 0 files) plans.

Section service.
Context (date : Z).

(** ** What is read before the transaction *)

Definition target_location (target user_id : Z) : M Database (Result FolderLocation) :=
  if (0 <? target)%Z then
    row ← query (owned_folder target user_id);
    mret (match (row : option folder) with
          | None => Err (mkErrorInfo FolderNotFound "Target folder not found")
          | Some (_, f) => Ok (mkFolderLocation (d_path f) (u32 (d_depth f)))
          end)
  else mret (Ok root_location).

Fixpoint files_to_save (share_id : Z) (file_ids : list Z) : M Database (Result (list file_row)) :=
  match file_ids with
  | [] => mret (Ok [])
  | id :: file_ids =>
      row ← query (file_in_share share_id id);
      match (row : option file_row) with
      | None => mret (Err (mkErrorInfo ShareAccessDenied "File is not in share"))
      | Some f => let* files := files_to_save share_id file_ids in mret (Ok (f :: files))
      end
  end.

Definition read_plan (root : folder) : M Database FolderPlan :=
  folders ← query (share_folders_below (d_user_id root.2) (d_path root.2));
  files ← query (share_files_below (d_user_id root.2) (d_path root.2));
  mret (mkFolderPlan root folders files).

Fixpoint folder_plans (share_id : Z) (folder_ids : list Z) : M Database (Result (list FolderPlan)) :=
  match folder_ids with
  | [] => mret (Ok [])
  | id :: folder_ids =>
      row ← query (folder_in_share share_id id);
      match (row : option folder) with
      | None => mret (Err (mkErrorInfo ShareAccessDenied "Folder is not in share"))
      | Some root =>
          plan ← read_plan root;
          let* plans := folder_plans share_id folder_ids in mret (Ok (plan :: plans))
      end
  end.

(** ** The transaction *)

(** An increment that fails is thrown. *)
Definition take_reference (content_id : Z) : M Database unit :=
  increment_result ← IncrementRefCount (u64 content_id) 1;
  match (increment_result : Result unit) with
  | Ok _ => mret tt
  | Err er => raise (RuntimeError (message er))
  end.

Definition save_file (user_id folder_id : Z) (path : string) (f : FileRow) : M Database unit :=
  _ ← take_reference (f_content_id f);
  _ ← exec (insert_file
    (mkFileRow user_id (f_content_id f) folder_id (f_name f) (f_extension f) (f_size f)
       (f_mime_type f) (BuildFilePath path (f_name f)) 0 0 date date));
  mret tt.

Definition file_saved (f : file_row) (top : Z) (p : SaveProgress) : SaveProgress :=
  mkSaveProgress (sv_file_count p + 1) (sv_folder_count p) (sv_top_level_count p + top)
    (u64 (sv_actual_size p + f_size f.2)).

Definition folder_saved (top : Z) (p : SaveProgress) : SaveProgress :=
  mkSaveProgress (sv_file_count p) (sv_folder_count p + 1) (sv_top_level_count p + top)
    (sv_actual_size p).

(** The files of the request; one whose name is taken is skipped. *)
Fixpoint save_files (user_id target : Z) (target_path : string) (files_to_save : list file_row)
    (p : SaveProgress) : M Database SaveProgress :=
  match files_to_save with
  | [] => mret p
  | f :: rest =>
      conflict ← query (λ d, exists_row (file_named user_id target (f_name f.2)) (files d));
      if (conflict : bool) then save_files user_id target target_path rest p
      else
        _ ← save_file user_id target target_path f.2;
        save_files user_id target target_path rest (file_saved f 1 p)
  end.

Notation copies := (gmap Z (Z * string)).

(** The folders of a plan below its root; one whose parent is not copied is skipped. *)
Fixpoint save_folders (user_id root_depth : Z) (root : folder) (rows : list folder)
    (copied : copies) (p : SaveProgress) : M Database (copies * SaveProgress) :=
  match rows with
  | [] => mret (copied, p)
  | f :: rows =>
      if (f.1 =? root.1)%Z then save_folders user_id root_depth root rows copied p
      else
      match copied !! d_parent_id f.2 with
      | None => save_folders user_id root_depth root rows copied p
      | Some (parent_id, parent_path) =>
          let folder_path := BuildFolderPath parent_path (d_name f.2) in
          let depth_delta := (if d_depth root.2 <? d_depth f.2
                              then d_depth f.2 - d_depth root.2 else 1)%Z in
          inserted ← exec (insert_folder (copied_folder_row date user_id parent_id folder_path
                       (u32 (root_depth + depth_delta)) f.2));
          save_folders user_id root_depth root rows
            (<[f.1 := ((inserted : folder).1, folder_path)]> copied) (folder_saved 0 p)
      end
  end.

(** The files of a plan; one whose folder is not copied is skipped. *)
Fixpoint save_plan_files (user_id : Z) (rows : list file_row) (copied : copies)
    (p : SaveProgress) : M Database SaveProgress :=
  match rows with
  | [] => mret p
  | f :: rows =>
      match copied !! f_folder_id f.2 with
      | None => save_plan_files user_id rows copied p
      | Some (folder_id, path) =>
          _ ← save_file user_id folder_id path f.2;
          save_plan_files user_id rows copied (file_saved f 0 p)
      end
  end.

Definition save_plan (user_id target : Z) (location : FolderLocation) (plan : FolderPlan)
    (p : SaveProgress) : M Database SaveProgress :=
  let root := fp_root plan in
  conflict ← query (λ d, exists_row (folder_named user_id target (d_name root.2)) (folders d));
  if (conflict : bool) then mret p
  else
    let root_path := BuildFolderPath (fl_path location) (d_name root.2) in
    let root_depth := u32 (fl_depth location + 1) in
    inserted_root ← exec (insert_folder
      (copied_folder_row date user_id target root_path root_depth root.2));
    '(copied, p) ← save_folders user_id root_depth root (fp_folders plan)
      {[root.1 := ((inserted_root : folder).1, root_path)]} (folder_saved 1 p);
    save_plan_files user_id (fp_files plan) copied p.

Fixpoint save_plans (user_id target : Z) (location : FolderLocation) (plans : list FolderPlan)
    (p : SaveProgress) : M Database SaveProgress :=
  match plans with
  | [] => mret p
  | plan :: plans =>
      p ← save_plan user_id target location plan p;
      save_plans user_id target location plans p
  end.

Definition charge (user_id total : Z) : M Database (Result unit) :=
  if (0 <? total)%Z then
    rows ← exec (charge_statement user_id total);
    mret (if (rows =? 0)%Z then Err (err StorageQuotaExceeded) else Ok tt)
  else mret (Ok tt).

(** The rows these two update are not counted. *)
Definition count_saved (user_id target n : Z) : M Database unit :=
  if ((0 <? target) && (0 <? n))%Z then
    _ ← exec (update_folder target user_id
      (λ f, n ← int4 (d_item_count f + n);
            Some (f <| d_item_count := n |> <| d_updated_at := date |>)));
    mret tt
  else mret tt.

Definition refund (user_id reserved_size consumed_size : Z) : M Database unit :=
  if (consumed_size <? reserved_size)%Z then
    _ ← exec (refund_statement user_id (reserved_size - consumed_size)); mret tt
  else mret tt.

Definition save_body (user_id target : Z) (location : FolderLocation) (files : list file_row)
    (plans : list FolderPlan) : M Database (Result SaveShareItemsResponse) :=
  let total := size_to_save files plans in
  let* _ := charge user_id total in
  (p ← save_files user_id target (fl_path location) files no_progress;
   p ← save_plans user_id target location plans p;
   let p : SaveProgress := p in
   _ ← count_saved user_id target (sv_top_level_count p);
   _ ← refund user_id (i64 total) (i64 (sv_actual_size p));
   mret (Ok (mkSaveShareItemsResponse (sv_file_count p + sv_folder_count p)
               (sv_file_count p) (sv_folder_count p)))).

(** ** The whole operation *)

(** The state of the share, by the clock of the database. *)
Definition check_saving (s : ShareRow) (d : Database) : Result unit :=
  if negb (s_status s =? share_status_value Share_Active)%Z ||
     match s_expires_at s with Some t => (t <=? now d)%Z | None => false end
  then Err (mkErrorInfo ShareExpired "Share is not active")
  else if negb (s_permission s =? "download")
  then Err (mkErrorInfo ShareAccessDenied "Share is view-only, save not allowed")
  else Ok tt.

Definition may_save (share_id : Z) (d : Database) : Result unit :=
  match shares d !! share_id with
  | None => Err (mkErrorInfo ShareNotFound "Share not found")
  | Some s => check_saving s d
  end.

Definition SaveToDrive (request : SaveShareItemsRequest) (share_id target_user_id : Z)
  : M Database (Result SaveShareItemsResponse) :=
  let target := sq_target_folder_id request in
  catch_db
    (let* _ := query (may_save share_id) in
     let* location := target_location target target_user_id in
     let* files := files_to_save share_id (sq_file_ids request) in
     let* plans := folder_plans share_id (sq_folder_ids request) in
     Run SaveFailed (save_body target_user_id target location files plans))
    (mret (Err SaveFailed)).
End service.

(** ** Lemmas *)

Local Close Scope string_scope.

#[export] Instance tx_body_save_file date u k path f : TxBody (save_file date u k path f).
Proof. unfold save_file, take_reference. solve_tx_body. Qed.

#[export] Instance tx_body_save_files date u t path files p :
  TxBody (save_files date u t path files p).
Proof. revert p. induction files; intros; simpl; solve_tx_body. Qed.

#[export] Instance tx_body_save_folders date u k root rows copied p :
  TxBody (save_folders date u k root rows copied p).
Proof. revert copied p. induction rows; intros; simpl; solve_tx_body. Qed.

#[export] Instance tx_body_save_plan_files date u rows copied p :
  TxBody (save_plan_files date u rows copied p).
Proof. revert p. induction rows; intros; simpl; solve_tx_body. Qed.

#[export] Instance tx_body_save_plan date u t l plan p : TxBody (save_plan date u t l plan p).
Proof. unfold save_plan. solve_tx_body. Qed.

#[export] Instance tx_body_save_plans date u t l plans p : TxBody (save_plans date u t l plans p).
Proof. revert p. induction plans; intros; simpl; solve_tx_body. Qed.

#[export] Instance tx_body_charge u n : TxBody (charge u n).
Proof. unfold charge. solve_tx_body. Qed.

#[export] Instance tx_body_count_saved date u t n : TxBody (count_saved date u t n).
Proof. unfold count_saved. solve_tx_body. Qed.

#[export] Instance tx_body_refund u n k : TxBody (refund u n k).
Proof. unfold refund. solve_tx_body. Qed.

#[export] Instance tx_body_save_body date u t l files plans :
  TxBody (save_body date u t l files plans).
Proof. unfold save_body. solve_tx_body. Qed.
