(* ===== verification/ShareAccess.v ===== *)
(** * What a share opens

    The queries of the share service decide by paths whether a folder or a file belongs
    to a share.  On a drive in shape ([TreeUpdates.v]) whose names are plain, the paths
    tell exactly what lies below the shared folders; a name with a wildcard of [LIKE]
    opens folders next to the shared one as well. *)

From Stdlib Require Import Ascii.
From S2P Require Import Prelude Errors Db Schema Json Batch Names Content Folders Files DeletePlans.
From S2P Require Import FolderService FileMutations Tree TreeUpdates TreeShape Like Shares.

Local Open Scope Z_scope.

(** ** Paths as lists of names *)

(** No character of [s] is a slash. *)
Fixpoint slash_free (s : string) : bool :=
  match s with EmptyString => true | String c s => negb (Ascii.eqb c "/"%char) && slash_free s end.

Fixpoint segments (names : list string) : string :=
  match names with [] => ""%string | n :: names => n +:+ ("/" +:+ segments names) end.

Lemma segments_app l k : segments (l ++ k)%list = segments l +:+ segments k.
Proof. induction l as [|n l IH]; [done|]. simpl. by rewrite IH, !string_app_assoc. Qed.

Lemma string_cons_app c s t : String c s +:+ t = String c (s +:+ t).
Proof. done. Qed.

(** Two names that end at the first slash. *)
Lemma slash_split n m s t : slash_free n = true → slash_free m = true →
  n +:+ ("/" +:+ s) = m +:+ ("/" +:+ t) → n = m ∧ s = t.
Proof.
  revert m. induction n as [|c n IH]; intros [|d m] Hn Hm E; simpl in Hn, Hm;
    rewrite ?andb_true_iff in *.
  - change (String "/" s = String "/" t) in E. by injection E.
  - change (String "/" s = String d (m +:+ ("/" +:+ t))) in E. injection E as <- _. by destruct Hm.
  - change (String c (n +:+ ("/" +:+ s)) = String "/" t) in E. injection E as -> _. by destruct Hn.
  - change (String c (n +:+ ("/" +:+ s)) = String d (m +:+ ("/" +:+ t))) in E.
    injection E as -> E. destruct Hn, Hm. by destruct (IH m) as [-> ->].
Qed.

Lemma segments_prefix l k rest : Forall (λ n, slash_free n = true) l →
  Forall (λ n, slash_free n = true) k → segments k = segments l +:+ rest →
  ∃ k', k = (l ++ k')%list.
Proof.
  intros Hl. revert k. induction Hl as [|n l Hn Hl IH]; intros k Hk E; [by exists k|].
  destruct Hk as [|m k Hm Hk]; simpl in E.
  - exfalso. by destruct n.
  - rewrite !string_app_assoc in E. apply slash_split in E as [-> E]; [|done..].
    destruct (IH k Hk E) as [k' ->]. by exists k'.
Qed.

Lemma segments_inj l k : Forall (λ n, slash_free n = true) l →
  Forall (λ n, slash_free n = true) k → segments l = segments k → l = k.
Proof.
  intros Hl Hk E.
  destruct (segments_prefix l k "" Hl Hk) as [k' ->]; [by rewrite string_app_nil|].
  destruct k' as [|n k']; [by rewrite app_nil_r|]. exfalso. rewrite segments_app in E.
  rewrite <- (string_app_nil (segments l)) in E at 1. apply string_app_cancel in E.
  by destruct n.
Qed.

(** ** The names above a folder *)

(** Names the paths can be read back from: no slash and no wildcard; and no two folders
    of one name in one place, as the schema demands. *)
Record plain_names (d : Database) : Prop := {
  pn_slash : ∀ i f, folders d !! i = Some f → slash_free (d_name f) = true;
  pn_literal : ∀ i f, folders d !! i = Some f → literal (d_name f) = true;
  pn_unique : ∀ i j f g, folders d !! i = Some f → folders d !! j = Some g →
    d_user_id f = d_user_id g → d_parent_id f = d_parent_id g → d_name f = d_name g → i = j
}.

(** [named d u i l]: the names on the way from the root down to folder [i]. *)
Inductive named (d : Database) (u : Z) : Z → list string → Prop :=
  | named_root : named d u 0 []
  | named_below i f l : folders d !! i = Some f → d_user_id f = u →
      named d u (d_parent_id f) l → named d u i (l ++ [d_name f]).

Lemma named_cases d u i l : named d u i l → (i = 0 ∧ l = []) ∨
  ∃ f l', l = (l' ++ [d_name f])%list ∧ folders d !! i = Some f ∧ d_user_id f = u ∧
    named d u (d_parent_id f) l'.
Proof. intros []; [by left|right]. by eexists _, _. Qed.

Section drive.
Context (d : Database) (Hd : well_placed d).

Lemma folder_at i f : folders d !! i = Some f → 0 < i ∧ ∃ l,
  location (places d) (d_user_id f) (d_parent_id f) = Some l ∧ 0 <= fl_depth l ∧
  d_path f = BuildFolderPath (fl_path l) (d_name f) ∧ d_depth f = fl_depth l + 1.
Proof.
  intros Hf. destruct (to_folders _ _ (wp_tree _ Hd) i (place f)) as (? & H & _); [|done].
  by rewrite places_lookup, Hf.
Qed.

Lemma parent_cases i f : folders d !! i = Some f → d_parent_id f = 0 ∧ d_depth f = 1 ∧
    d_path f = ("/" +:+ (d_name f +:+ "/")) ∨
  ∃ g, folders d !! d_parent_id f = Some g ∧ d_user_id g = d_user_id f ∧
    d_depth f = d_depth g + 1 ∧ d_path f = d_path g +:+ (d_name f +:+ "/").
Proof.
  intros Hf. destruct (folder_at i f Hf) as (_ & l & Hl & _ & Epath & Edepth).
  apply location_Some in Hl as [[E ->]|(_ & p & Hp & Hu & ->)].
  - left. done.
  - right. rewrite places_lookup in Hp. apply fmap_Some in Hp as (g & Hg & ->).
    exists g. split_and!; [done..|]. rewrite Epath. cbn [fl_path]. apply build_folder_path.
    eapply (path_length _ _ (wp_tree _ Hd) (d_parent_id f) (place g)). by rewrite places_lookup, Hg.
Qed.

Lemma named_exists i f : folders d !! i = Some f → ∃ l, named d (d_user_id f) i l.
Proof.
  intros Hf. assert (0 <= d_depth f) as Hpos.
  { destruct (folder_at i f Hf) as (_ & l & _ & ? & _ & ->). lia. }
  remember (Z.to_nat (d_depth f)) as n eqn:En. revert i f Hf Hpos En.
  induction n as [|n IH]; intros i f Hf Hpos En.
  - destruct (folder_at i f Hf) as (_ & l & _ & ? & _ & E). lia.
  - destruct (parent_cases i f Hf) as [(E & _)|(g & Hg & Hu & Edepth & _)].
    + exists [d_name f]. apply (named_below d _ i f []); [done..|]. rewrite E. constructor.
    + destruct (IH _ g Hg) as [l Hl]; [lia..|]. exists (l ++ [d_name f])%list.
      apply named_below; [done..|]. by rewrite <- Hu.
Qed.

Lemma named_functional u i l k : named d u i l → named d u i k → l = k.
Proof.
  intros H. revert k. induction H as [|i f l Hf Hu H IH]; intros k Hk;
    apply named_cases in Hk as [[E ->]|(g & l' & -> & Hg & Hgu & Hk)].
  - done.
  - destruct (folder_at 0 g Hg). lia.
  - subst. destruct (folder_at 0 f Hf). lia.
  - rewrite Hf in Hg. injection Hg as <-. by rewrite (IH _ Hk).
Qed.

(** The path spells the names. *)
Lemma named_path u i l f : named d u i l → folders d !! i = Some f →
  d_path f = "/" +:+ segments l.
Proof.
  intros H. revert f. induction H as [|i f l Hf Hu H IH]; intros g Hg.
  - destruct (folder_at 0 g Hg). lia.
  - rewrite Hf in Hg. injection Hg as <-. rewrite segments_app. simpl.
    destruct (parent_cases i f Hf) as [(E & _ & ->)|(p & Hp & _ & _ & ->)].
    + rewrite E in H. apply named_cases in H as [[_ ->]|(p & l' & _ & Hp & _)]; [done|].
      destruct (folder_at 0 p Hp). lia.
    + rewrite (IH p Hp), string_app_assoc. done.
Qed.

Context (Hnames : plain_names d).

Lemma named_slash u i l : named d u i l → Forall (λ n, slash_free n = true) l.
Proof.
  induction 1; [constructor|]. apply Forall_app. split; [done|]. apply Forall_singleton.
  by eapply pn_slash.
Qed.

Lemma named_inj u i j l : named d u i l → named d u j l → i = j.
Proof.
  intros H. revert j. induction H as [|i f l Hf Hu H IH]; intros j Hj;
    apply named_cases in Hj as [[-> E]|(g & l' & E & Hg & Hgu & Hj)].
  - done.
  - by destruct l'.
  - by destruct l.
  - apply app_inj_tail in E as [-> En]. eapply (pn_unique _ Hnames); [done..|congruence| |done].
    by apply IH.
Qed.

(** The folders whose names begin alike lie below one another. *)
Lemma named_below_prefix u r l k i : named d u r l → named d u i (l ++ k)%list → descends d u r i.
Proof.
  intros Hr. revert i. induction k as [|n k IH] using rev_ind; intros i Hi.
  - rewrite app_nil_r in Hi. rewrite (named_inj _ _ _ _ Hr Hi). done.
  - rewrite app_assoc in Hi. apply named_cases in Hi as [[_ E]|(f & l' & E & Hf & Hu & Hi)].
    + by apply app_nil in E as [_ ?].
    + apply app_inj_tail in E as [<- _]. eapply rtc_r; [by apply IH|]. eauto.
Qed.

Lemma descends_named u r i l : descends d u r i → named d u r l →
  ∃ k, named d u i (l ++ k)%list.
Proof.
  intros H. revert l. induction H as [r|r j i (f & Hf & Hu & Hp) _ IH]; intros l Hr.
  - exists []. by rewrite app_nil_r.
  - destruct (IH (l ++ [d_name f])%list) as [k Hk].
    + apply named_below; [done..|]. by rewrite Hp.
    + exists (d_name f :: k). by rewrite <- app_assoc in Hk.
Qed.

Lemma segments_literal u i l : named d u i l → literal (segments l) = true.
Proof.
  induction 1 as [|i f l Hf Hu H IH]; [done|].
  rewrite segments_app, literal_app, IH. simpl.
  rewrite literal_app, (pn_literal _ Hnames _ _ Hf). done.
Qed.

(** A path below another one is the path of a folder inside it. *)
Lemma path_below r i root f : folders d !! r = Some root → folders d !! i = Some f →
  d_user_id f = d_user_id root →
  like (below (d_path root)) (d_path f) = true ↔ descends d (d_user_id root) r i.
Proof.
  intros Hroot Hf Hu. destruct (named_exists r root Hroot) as [l Hl].
  destruct (named_exists i f Hf) as [k Hk]. rewrite Hu in Hk.
  rewrite (named_path _ _ _ _ Hl Hroot), (named_path _ _ _ _ Hk Hf).
  rewrite like_below by (rewrite literal_app, (segments_literal _ _ _ Hl); done). split.
  - intros (rest & E). rewrite string_app_assoc in E. apply string_app_cancel in E.
    apply segments_prefix in E as [k' ->]; [|by eapply named_slash..].
    by eapply named_below_prefix.
  - intros H. destruct (descends_named _ _ _ _ H Hl) as [k' Hk'].
    assert (k = l ++ k')%list as ->.
    { by eapply named_functional. }
    exists (segments k'). by rewrite segments_app, string_app_assoc.
Qed.
End drive.

(** ** What a share opens *)

(** The share [share_id] links an item. *)
Definition links (d : Database) (share_id : Z) (item_type : string) (item_id : Z) : Prop :=
  ∃ k l, share_files d !! k = Some l ∧ sf_share_id l = share_id ∧
    sf_item_type l = item_type ∧ sf_item_id l = item_id.

(** Folder [i] is a folder of the share or lies inside one. *)
Definition opens_folder (d : Database) (share_id i : Z) : Prop :=
  ∃ r root, links d share_id "folder" r ∧ folders d !! r = Some root ∧
    descends d (d_user_id root) r i.

Definition opens_file (d : Database) (share_id k : Z) (f : FileRow) : Prop :=
  links d share_id "file" k ∨ opens_folder d share_id (f_folder_id f).

Lemma descends_end d u r i root : folders d !! r = Some root → d_user_id root = u →
  descends d u r i → ∃ f, folders d !! i = Some f ∧ d_user_id f = u.
Proof.
  intros Hr Hu H. revert root Hr Hu. induction H as [r|r j i (f & Hf & Hfu & _) _ IH]; intros root Hr Hu.
  - eauto.
  - by eapply IH.
Qed.

Section opened.
Context (d : Database) (Hd : well_placed d) (Hn : plain_names d) (share_id : Z).

Lemma shared_folder_opens i f : folders d !! i = Some f →
  shared_folder share_id d (i, f) = true ↔ opens_folder d share_id i.
Proof.
  intros Hf. unfold shared_folder, opens_folder, links. rewrite exists_row_true. split.
  - intros (k & l & Hl & H). destruct (folders d !! sf_item_id l) as [root|] eqn:Hr; [|by case_bools].
    simpl in H. apply andb_true_iff in H as [[E1%Z.eqb_eq E2%String.eqb_eq]%andb_true_iff H].
    apply andb_true_iff in H as [Hu%Z.eqb_eq H].
    exists (sf_item_id l), root. split_and!; [eauto 10|done|].
    apply orb_true_iff in H as [->%Z.eqb_eq|H]; [constructor|].
    by eapply path_below.
  - intros (r & root & (k & l & Hl & E1 & E2 & E3) & Hr & H). exists k, l. split; [done|].
    rewrite E1, E2, E3, Hr, Z.eqb_refl. simpl.
    destruct (descends_end _ _ _ _ _ Hr eq_refl H) as (g & Hg & Hu).
    rewrite Hf in Hg. injection Hg as <-. rewrite Hu, Z.eqb_refl. simpl.
    apply orb_true_iff. right. by apply (path_below d Hd Hn r i root f).
Qed.

Lemma shared_file_opens k f : files d !! k = Some f →
  shared_file share_id d (k, f) = true ↔ opens_file d share_id k f.
Proof.
  intros Hf. unfold shared_file, opens_file, opens_folder. rewrite orb_true_iff, !exists_row_true.
  f_equiv.
  - unfold links. split.
    + intros (x & l & Hl & H). exists x, l.
      apply andb_true_iff in H as [[E1%Z.eqb_eq E2%String.eqb_eq]%andb_true_iff E3%Z.eqb_eq].
      done.
    + intros (x & l & Hl & E1 & E2 & E3). exists x, l. split; [done|]. rewrite E1, E2, E3. simpl.
      by rewrite !Z.eqb_refl.
  - simpl. unfold links. split.
    + intros (x & l & Hl & H).
      apply andb_true_iff in H as [[E1%Z.eqb_eq E2%String.eqb_eq]%andb_true_iff H].
      destruct (folders d !! sf_item_id l) as [root|] eqn:Hr; [|done].
      destruct (folders d !! f_folder_id f) as [parent|] eqn:Hp; [|done].
      apply andb_true_iff in H as [Hu%Z.eqb_eq H].
      exists (sf_item_id l), root. split_and!; [eauto 10|done|]. by eapply path_below.
    + intros (r & root & (x & l & Hl & E1 & E2 & E3) & Hr & H). exists x, l. split; [done|].
      rewrite E1, E2, E3, Hr, Z.eqb_refl. simpl.
      destruct (descends_end _ _ _ _ _ Hr eq_refl H) as (g & Hg & Hu). rewrite Hg.
      rewrite Hu, Z.eqb_refl. simpl. by apply (path_below d Hd Hn r (f_folder_id f) root g).
Qed.
End opened.

(** ** Downloads *)

(** A share that lets its files be downloaded. *)
Definition downloadable (d : Database) (s : ShareRow) : Prop :=
  s_status s = share_status_value Share_Active ∧ s_permission s = "download"%string ∧
  ∀ t, s_expires_at s = Some t → now d < t.

Definition grants (d : Database) (share_id file_id : Z) (info : DownloadInfo) : Prop :=
  ∃ s f, shares d !! share_id = Some s ∧ downloadable d s ∧ files d !! file_id = Some f ∧
    opens_file d share_id file_id f ∧ info = download_info file_id f (file_contents d !! f_content_id f).

Lemma download_row_grants d share_id file_id s x f c : well_placed d → plain_names d →
  download_row share_id file_id d = Some (s, x, Some (f, c)) ↔
  shares d !! share_id = Some s ∧ x = match s_expires_at s with Some t => t <=? now d | None => false end ∧
  files d !! file_id = Some f ∧ c = file_contents d !! f_content_id f ∧ opens_file d share_id file_id f.
Proof.
  intros Hd Hn. unfold download_row. split.
  - intros (s' & Hs & H)%bind_Some. injection H as <- <- H.
    apply bind_Some in H as (f' & Hf & H). destruct (shared_file _ _ _) eqn:E; [|done].
    injection H as <- <-. apply shared_file_opens in E; done.
  - intros (Hs & -> & Hf & -> & H). rewrite Hs. simpl. rewrite Hf. simpl.
    apply (shared_file_opens d Hd Hn share_id file_id f Hf) in H. by rewrite H.
Qed.

(** C33: a download stays inside its share.  On drives in shape with plain names, which the
    other sessions keep so: the service hands out a file exactly when, in the database as its
    one query finds it after whatever the other sessions did, the share is active, not expired
    and open for downloads, and the file is shared itself or lies somewhere inside a shared
    folder; what it hands out is that file's row and content.  The only other way out is that
    the query fails. *)
Theorem download_stays_inside_the_share share_id file_id d sch cs info :
  let I d := well_placed d ∧ plain_names d in
  let found := arrive sch d in
  I d → stable I sch →
  (∀ e, GetDownloadInfo file_id share_id (mkEnv d sch AutoCommit cs) = (Ret (Ok info), e) →
     I found ∧ grants found share_id file_id info) ∧
  (grants found share_id file_id info →
   Forall (λ st, fault_of st = Works) (take 1 sch) →
   GetDownloadInfo file_id share_id (mkEnv d sch AutoCommit cs) =
     (Ret (Ok info), mkEnv found (tail sch) AutoCommit cs)).
Proof.
  intros I found Hd Hsch. pose proof (stable_arrive I sch d Hd Hsch) as [Hs Hn].
  fold found in Hs, Hn. split.
  - intros e. unfold GetDownloadInfo, catch_db, catch, mbind, M_bind.
    destruct (query _ _) as [[row|[]] e1] eqn:E; [|done..].
    apply query_sees in E as ->. fold found. intros H. split; [done|]. revert H.
    destruct (download_row share_id file_id found) as [[[sh x] [[f c]|]]|] eqn:Er; [| |done].
    2: { by destruct (_ || _). }
    apply (download_row_grants found share_id file_id sh x f c Hs Hn) in Er as (Hsh & -> & Hf & -> & Ho).
    destruct (negb _) eqn:E1; [done|]. simpl.
    destruct (match s_expires_at sh with Some t => t <=? now found | None => false end) eqn:E2; [done|].
    destruct (negb (String.eqb _ _)) eqn:E3; [done|]. intros [= <- _].
    apply negb_false_iff, Z.eqb_eq in E1. apply negb_false_iff, String.eqb_eq in E3.
    exists sh, f. split_and!; [done| |done|done|done]. split_and!; [done..|].
    intros t Ht. rewrite Ht in E2. apply Z.leb_gt in E2. done.
  - intros (s & f & Hsh & (E1 & E2 & E3) & Hf & Ho & ->) Hworks.
    unfold GetDownloadInfo, catch_db, catch.
    rewrite (bind_Ret _ _ _ _ _ (query_finds _ _ _ _ Hworks)). fold found.
    pose proof (proj2 (download_row_grants found share_id file_id s
      (match s_expires_at s with Some t => t <=? now found | None => false end) f
      (file_contents found !! f_content_id f) Hs Hn)) as ->; [|by split_and!].
    rewrite E1, E2. simpl. destruct (s_expires_at s) as [t|]; [|done].
    rewrite (proj2 (Z.leb_gt _ _)) by auto. done.
Qed.

(** ** Access by password *)

Section access.
Context (date : Z) (verify_password : string → string → bool)
  (GenerateShareToken : string → Z → string → Result string)
  (IncrWithExpire : string → option Z) (correlation : list (string * json)).
Notation Access := (Access date verify_password GenerateShareToken IncrWithExpire correlation).

Lemma record_returns action actor id code details context e : ∃ e',
  record correlation action actor id code details context e = (Ret tt, e').
Proof.
  unfold record, catch_all, catch. destruct (exec _ e) as [[[]|x] e']; [by exists e'|]. by exists e'.
Qed.

(** What follows a log entry answers what it would answer without. *)
Lemma record_then {B} action actor id code details context (k : M Database B) e : ∃ e',
  (record correlation action actor id code details context ≫= λ _, k) e = k e'.
Proof.
  destruct (record_returns action actor id code details context e) as [e' E].
  exists e'. unfold mbind, M_bind. by rewrite E.
Qed.

Lemma refuse_answer {A} id code context e :
  (refuse (A:=A) IncrWithExpire correlation id code context e).1 =
    Ret (Err (fa_error (HandleFailedShareAccess IncrWithExpire code (ac_ip_address context)))).
Proof.
  unfold refuse, RecordFailedShareAccess, RecordPasswordFailure, RecordAccess. cbv zeta.
  unfold mbind at 1, M_bind at 1.
  edestruct @record_then as [e1 E1]. rewrite E1.
  edestruct @record_returns as [e2 E2]. rewrite E2. done.
Qed.

(** The share of a code, in a state of the database. *)
Definition share_of (code : string) (d : Database) : option share :=
  find_one (λ _ s, (s_share_code s =? code)%string) (shares d).

Lemma find_share_works code d sch cs :
  FindShareByCode code (mkEnv d (alone Works :: sch) AutoCommit cs) =
    (Ret (match share_of code d with
          | Some s => Ok s
          | None => Err (mkErrorInfo ShareNotFound "Share not found")
          end), mkEnv d sch AutoCommit cs).
Proof. done. Qed.

(** A token opens a share to those who know its password.  Whatever the other
    sessions do and whichever requests fail, access is only granted to a code that some
    share had during the request, which was active and not expired, and the password
    given matched its hash if it has one; the token is the one signed for that share
    and its permission. *)
Lemma access_needs_the_password I request context d sch cs response e :
  I d → stable I sch → Access request context (mkEnv d sch AutoCommit cs) = (Ret (Ok response), e) →
  ∃ id row, I (arrive sch d) ∧ share_of (aq_share_id request) (arrive sch d) = Some (id, row) ∧
    IsShareActive date row = true ∧
    (∀ hash, s_password_hash row = Some hash → ∃ p, aq_password request = Some p ∧
       p ≠ ""%string ∧ verify_password p hash = true) ∧
    GenerateShareToken (s_share_code row) id (s_permission row) = Ok (ar_share_token response) ∧
    ar_permission response = s_permission row.
Proof.
  intros Hd Hsch. unfold Access, FindShareByCode, mbind at 1, M_bind at 1, catch_db, catch.
  unfold mbind at 1, M_bind at 1.
  destruct (query _ _) as [[row|x] e1] eqn:E.
  2: { destruct x; cbn; [|done..]. by intros [=]. }
  apply query_sees in E as ->. pose proof (stable_arrive I sch d Hd Hsch) as Hs.
  set (s := arrive sch d) in *.
  fold (share_of (aq_share_id request) s). cbn [mret M_ret].
  destruct (share_of _ s) as [[id row]|] eqn:Es.
  2: { rewrite bool_decide_eq_true_2 by done. intros H.
       pose proof (refuse_answer (A:=AccessShareResponse) None (aq_share_id request)
         context e1) as H'. by rewrite H in H'. }
  destruct (negb (s_status row =? share_status_value Share_Active)) eqn:E1.
  { unfold RecordAccess. edestruct @record_then as [e2 E2]. rewrite E2. by intros [=]. }
  destruct (IsShareExpired date row) eqn:E2.
  { unfold RecordAccess. edestruct @record_then as [e2 E3]. rewrite E3. by intros [=]. }
  destruct (password_opens verify_password row (aq_password request)) eqn:E3; cbn [negb].
  2: { intros H. pose proof (refuse_answer (A:=AccessShareResponse) (Some id) (aq_share_id request)
         context e1) as H'. by rewrite H in H'. }
  destruct (GenerateShareToken _ _ _) as [token|er] eqn:E4.
  2: { unfold RecordAccess. edestruct @record_then as [e2 E5]. rewrite E5. by intros [=]. }
  unfold mbind, M_bind. destruct (IncrementViewCount id e1) as [[[]|] e2]; [|done].
  destruct (GetShareFiles id e2) as [[l|] e3]; [|done]. unfold RecordAccess.
  edestruct @record_returns as [e4 E5]. rewrite E5. intros [= <- _].
  exists id, row. split_and!; [done|done| | |done|done].
  - unfold IsShareActive. by rewrite E1, E2.
  - intros hash Hh. unfold password_opens, VerifyPassword in E3. rewrite Hh in E3.
    destruct (aq_password request) as [p|]; [|done]. exists p.
    apply andb_true_iff in E3 as [E3 ?]. split_and!; [done| |done]. by intros ->.
Qed.

(** Refusals look alike.  A code no share has and a wrong, empty or missing password
    get the same answer, whatever happens to the log entries written on the way: the
    answer depends on the code, the address and the counter of failures only. *)
Lemma refusals_look_alike request context d d' sch sch' cs id row hash :
  share_of (aq_share_id request) d = None →
  share_of (aq_share_id request) d' = Some (id, row) → IsShareActive date row = true →
  s_password_hash row = Some hash →
  (∀ p, aq_password request = Some p → p ≠ ""%string → verify_password p hash = false) →
  (Access request context (mkEnv d (alone Works :: sch) AutoCommit cs)).1 =
    (Access request context (mkEnv d' (alone Works :: sch') AutoCommit cs)).1 ∧
  (Access request context (mkEnv d (alone Works :: sch) AutoCommit cs)).1 =
    Ret (Err (fa_error (HandleFailedShareAccess IncrWithExpire (aq_share_id request)
                          (ac_ip_address context)))).
Proof.
  intros Hd Hd' Hactive Hhash Hwrong.
  assert ((Access request context (mkEnv d' (alone Works :: sch') AutoCommit cs)).1 =
    Ret (Err (fa_error (HandleFailedShareAccess IncrWithExpire (aq_share_id request)
                          (ac_ip_address context))))) as ->.
  { unfold Access, mbind at 1, M_bind at 1. rewrite find_share_works, Hd'.
    unfold IsShareActive in Hactive. destruct (negb _); [done|].
    apply negb_true_iff in Hactive. rewrite Hactive.
    assert (password_opens verify_password row (aq_password request) = false) as ->.
    { unfold password_opens, VerifyPassword. rewrite Hhash.
      destruct (aq_password request) as [p|]; [|done]. specialize (Hwrong p eq_refl).
      destruct p as [|c p]; [done|]. simpl. by apply Hwrong. }
    apply refuse_answer. }
  assert ((Access request context (mkEnv d (alone Works :: sch) AutoCommit cs)).1 =
    Ret (Err (fa_error (HandleFailedShareAccess IncrWithExpire (aq_share_id request)
                          (ac_ip_address context))))) as ->; [|done].
  unfold Access, mbind at 1, M_bind at 1. rewrite find_share_works, Hd. apply refuse_answer.
Qed.
End access.

(** ** Lifetimes *)

(** How long a share lives.  A share created or updated to live for up to 24855 days
    expires exactly when they are over.  The seconds are computed as a 32-bit integer,
    so that one that should live for 24856 days, or a few thousand more, has expired
    when it is created. *)
Lemma share_lifetime date days s : s_expires_at s = Some (expiry date days) →
  (0 < days <= 24855 → ∀ t, IsShareExpired t s = true ↔ date + days * 86400 * 1000000 < t) ∧
  (24856 <= days <= 49710 → IsShareExpired date s = true ∧ IsShareActive date s = false).
Proof.
  intros Hs. unfold IsShareActive, IsShareExpired, expiry in *. rewrite Hs. split.
  - intros Hdays t. rewrite i32_small by lia. rewrite Z.ltb_lt. lia.
  - intros Hdays. assert (i32 (days * 86400) < 0) as Hneg.
    { unfold i32. replace (days * 86400 + 2 ^ 31) with ((days * 86400 - 2 ^ 31) + 1 * 2 ^ 32) by lia.
      rewrite Z.mod_add, Z.mod_small by lia. lia. }
    rewrite (proj2 (Z.ltb_lt _ _)) by lia. split; [done|]. by case_match.
Qed.

(** ** Witnesses *)

(** The folder [/docs/] of [example_drive], shared under a password. *)
Definition example_share : ShareRow :=
  mkShareRow "Ab3" 7 (Some "hash"%string) "download" 0 0 1 None 100 100.

Definition example_shared : Database :=
  example_drive <| shares := {[ 5 := example_share ]} |>
    <| share_files := {[ 6 := mkShareFileRow 5 "folder" 1 100 ]} |>
    <| file_contents := {[ 9 := mkContentRow "m" "s" 10 "p" "text/plain" 1 ]} |>.

Lemma example_shared_ok : well_placed example_shared ∧ plain_names example_shared.
Proof.
  split; [by apply (well_placed_same example_drive), Build_same_tree; [exact example_drive_placed|..]|].
  split.
  - intros i f Hf. apply example_drive_folder in Hf. destruct_or!; destruct_and!; by subst.
  - intros i f Hf. apply example_drive_folder in Hf. destruct_or!; destruct_and!; by subst.
  - intros i j f g Hf Hg. apply example_drive_folder in Hf. apply example_drive_folder in Hg.
    destruct_or!; destruct_and!; subst; done.
Qed.

Lemma example_opens : opens_file example_shared 5 4
  (mkFileRow 7 9 2 "a.txt" "txt" 10 "text/plain" "/docs/old/a.txt" 0 0 100 100).
Proof.
  right. exists 1, (mkFolderRow 7 0 "docs" "/docs/" 1 1 100 100). split_and!.
  - by exists 6, (mkShareFileRow 5 "folder" 1 100).
  - done.
  - eapply rtc_l; [|constructor]. by exists (mkFolderRow 7 1 "old" "/docs/old/" 2 1 100 100).
Qed.

(** The share is closed by its owner just before the query, or not. *)
Lemma download_stays_inside_the_share_witness :
  let info := download_info 4 (mkFileRow 7 9 2 "a.txt" "txt" 10 "text/plain" "/docs/old/a.txt" 0 0 100 100)
                (Some (mkContentRow "m" "s" 10 "p" "text/plain" 1)) in
  GetDownloadInfo 4 5 (mkEnv example_shared [] AutoCommit []) =
    (Ret (Ok info), mkEnv example_shared [] AutoCommit []) ∧
  let closing := mkStep (λ d, d <| shares := ∅ |>) Works in
  is_ok <$> (match (GetDownloadInfo 4 5 (mkEnv example_shared [closing] AutoCommit [])).1 with
             | Ret r => Some r | Raise _ => None end) = Some false ∧
  ¬ grants (example_shared <| shares := ∅ |>) 5 4 info.
Proof.
  intros info. destruct (download_stays_inside_the_share 5 4 example_shared [] [] info) as [Hin Hout];
    [exact example_shared_ok|constructor|].
  assert (GetDownloadInfo 4 5 (mkEnv example_shared [] AutoCommit []) =
    (Ret (Ok info), mkEnv example_shared [] AutoCommit [])) as E.
  { apply Hout; [|constructor].
    exists example_share, (mkFileRow 7 9 2 "a.txt" "txt" 10 "text/plain" "/docs/old/a.txt" 0 0 100 100).
    split_and!; [done|by repeat split|done|exact example_opens|done]. }
  split; [exact E|]. intros closing. split; [vm_compute; reflexivity|].
  intros (s & f & Hs & _). cbn in Hs. by rewrite lookup_empty in Hs.
Defined.

(** A password is its own hash. *)
Definition plain_password (p hash : string) : bool := (p =? hash)%string.

Lemma access_needs_the_password_witness :
  let result := Access 100 plain_password (λ c _ _, Ok c) (λ _, Some 1) [] (mkAccessShareRequest "Ab3" (Some "hash"%string))
                  (mkShareAuditContext "1.2.3.4" "") (mkEnv example_shared [] AutoCommit []) in
  ∃ id row, share_of "Ab3" example_shared = Some (id, row) ∧ IsShareActive 100 row = true ∧
    (∀ hash, s_password_hash row = Some hash → ∃ p, Some "hash"%string = Some p ∧ p ≠ ""%string ∧
       plain_password p hash = true) ∧
    Ok (s_share_code row) = Ok "Ab3"%string (A:=string) ∧ s_permission row = s_permission row.
Proof.
  intros result.
  destruct (access_needs_the_password 100 plain_password (λ c _ _, Ok c) (λ _, Some 1) []
    (λ s, s = example_shared) (mkAccessShareRequest "Ab3" (Some "hash"%string))
    (mkShareAuditContext "1.2.3.4" "") example_shared [] []
    (mkAccessShareResponse "Ab3" 3600 "download" [mkShareFile 1 "docs" "folder" 0 "" true 1]) result.2)
    as (id & row & H1 & H2 & H3 & H4 & H5 & H6); [done|constructor|vm_compute; reflexivity|].
  by exists id, row.
Defined.

Lemma refusals_look_alike_witness :
  let access d := (Access 100 plain_password (λ c _ _, Ok c) (λ _, Some 1) []
    (mkAccessShareRequest "Ab3" (Some "guess"%string)) (mkShareAuditContext "1.2.3.4" "")
    (mkEnv d (alone Works :: [alone Fails]) AutoCommit [])).1 in
  access (empty_db 100) = access example_shared ∧ access (empty_db 100) = Ret (Err ValidationError).
Proof.
  apply (refusals_look_alike 100 plain_password (λ c _ _, Ok c) (λ _, Some 1) []
    (mkAccessShareRequest "Ab3" (Some "guess"%string)) (mkShareAuditContext "1.2.3.4" "")
    (empty_db 100) example_shared [alone Fails] [alone Fails] [] 5 example_share "hash"%string);
    [vm_compute; reflexivity..|]. by intros p [= <-] _.
Defined.

Lemma share_lifetime_witness : let s := example_share <| s_expires_at := Some (expiry 100 24856) |> in
  IsShareExpired 100 s = true ∧ IsShareActive 100 s = false.
Proof. apply (share_lifetime 100 24856); [reflexivity|lia]. Defined.

(** The folder [/my_docs/], and beside it [/my-docs/] with a file. *)
Definition example_wildcard : Database :=
  (empty_db 100) <| folders := {[ 1 := mkFolderRow 7 0 "my_docs" "/my_docs/" 1 0 100 100;
                                  2 := mkFolderRow 7 0 "my-docs" "/my-docs/" 1 1 100 100 ]} |>
    <| files := {[ 4 := mkFileRow 7 9 2 "a.txt" "txt" 10 "text/plain" "/my-docs/a.txt" 0 0 100 100 ]} |>
    <| folders_id_seq := 3 |> <| shares := {[ 5 := example_share ]} |>
    <| share_files := {[ 6 := mkShareFileRow 5 "folder" 1 100 ]} |>
    <| file_contents := {[ 9 := mkContentRow "m" "s" 10 "p" "text/plain" 1 ]} |>.

(** C34: a share leaks its neighbours.  An underscore is allowed in the name of a folder
    and is a wildcard in the pattern its path becomes: sharing [/my_docs/] also hands
    out the files of [/my-docs/], on a drive in perfect shape. *)
Theorem wildcard_share_leaks :
  well_placed example_wildcard ∧
  (∀ f, files example_wildcard !! 4 = Some f → ¬ opens_file example_wildcard 5 4 f) ∧
  ∃ info, GetDownloadInfo 4 5 (mkEnv example_wildcard [] AutoCommit []) =
    (Ret (Ok info), mkEnv example_wildcard [] AutoCommit []).
Proof.
  assert (∀ i f, folders example_wildcard !! i = Some f →
    (i = 1 ∧ f = mkFolderRow 7 0 "my_docs" "/my_docs/" 1 0 100 100) ∨
    (i = 2 ∧ f = mkFolderRow 7 0 "my-docs" "/my-docs/" 1 1 100 100)) as Hf.
  { intros i f H. simpl in H. revert H. intros [[<- <-]|[_ H]]%lookup_insert_Some; [by left|].
    apply lookup_singleton_Some in H as [<- <-]. by right. }
  split_and!.
  - split; [split| |].
    + intros i p. rewrite places_lookup, fmap_Some. intros (f & H & ->).
      apply Hf in H as [[-> ->]|[-> ->]]; (split_and!; [lia| |done]); by exists root_location.
    + intros k q. rewrite spots_lookup, fmap_Some. intros (f & H & ->).
      simpl in H. apply lookup_singleton_Some in H as [<- <-].
      by exists (mkFolderLocation "/my-docs/" 1).
    + intros i [f H]. apply Hf in H. cbn. lia.
    + cbn. lia.
  - intros f H. simpl in H. apply lookup_singleton_Some in H as [_ <-].
    assert (∀ ty i, links example_wildcard 5 ty i → ty = "folder"%string ∧ i = 1) as Hl.
    { intros ty i (k & l & H & _ & <- & <-). simpl in H. apply lookup_singleton_Some in H as [_ <-]. done. }
    intros [[E _]%Hl|(r & root & [_ ->]%Hl & Hr & H)]; [done|]. simpl in H.
    inversion H as [|? j ? (g & Hg & _ & Hp) _]; subst.
    apply Hf in Hg as [[_ ->]|[_ ->]]; done.
  - eexists. vm_compute. reflexivity.
Qed.
