(* ===== verification/Reconciliation.v ===== *)
(** * Storage reconciliation

    [src/src/services/StorageReconciliationService.cpp]: recording a discrepancy,
    marking it resolved, and the scan of the users' storage accounts.  The scans of
    contents and of stored objects are in [ReconcileScans.v]. *)

From S2P Require Import Prelude Errors Storage Db UploadState Json Schema UploadTasks JobContract.

Local Open Scope string_scope.

Definition kUploadStagingMismatchFindingType : string := "upload_staging_mismatch".
Definition kQuotaUsedMismatch : string := "quota_used_mismatch".
Definition kQuotaReservedMismatch : string := "quota_reserved_mismatch".

Inductive ReconciliationSeverity := Info | Warning | Critical.

Definition SeverityValue (severity : ReconciliationSeverity) : Z :=
  match severity with Info => 0 | Warning => 1 | Critical => 2 end.

Inductive ResolutionStrategy := AutoGc | Alert | Manual.

(** [ToStorageValue(ResolutionStrategy)]. *)
Definition StrategyToStorageValue (strategy : ResolutionStrategy) : string :=
  match strategy with AutoGc => "auto_gc" | Alert => "alert" | Manual => "manual" end.

Record ReconciliationFinding := mkReconciliationFinding {
  rf_finding_type : string;
  rf_resource_id : string;
  rf_resource_locator : option string;
  rf_severity : ReconciliationSeverity;
  rf_resolution_strategy : ResolutionStrategy;
  rf_details : json
}.

Definition finding_identity_valid (finding : ReconciliationFinding) : bool :=
  negb (str_empty (rf_finding_type finding) || (64 <? strlen (rf_finding_type finding))%Z ||
        str_empty (rf_resource_id finding) || (128 <? strlen (rf_resource_id finding))%Z ||
        match rf_resource_locator finding with
        | Some locator => (1024 <? strlen locator)%Z
        | None => false
        end).

(** [INSERT INTO storage_reconciliation_findings ... ON CONFLICT (finding_type,
    resource_id) DO UPDATE]: a finding seen again is reopened and counted. *)
Definition finding_statement (finding : ReconciliationFinding) (d : Database)
  : option (unit * Database) :=
  let key := (rf_finding_type finding, rf_resource_id finding) in
  let locator := match rf_resource_locator finding with
                 | Some "" | None => None
                 | Some l => Some l
                 end in
  let table := storage_reconciliation_findings d in
  row ← match table !! key with
        | None => Some (mkFindingRow locator (SeverityValue (rf_severity finding))
            (StrategyToStorageValue (rf_resolution_strategy finding)) (rf_details finding)
            1 (now d) (now d) None)
        | Some g =>
            n ← int4 (g_occurrences g + 1);
            Some (mkFindingRow locator (SeverityValue (rf_severity finding))
              (StrategyToStorageValue (rf_resolution_strategy finding)) (rf_details finding)
              n (g_first_seen_at g) (now d) None)
        end;
  Some (tt, d <| storage_reconciliation_findings := <[key := row]> table |>).

Definition RecordFinding (finding : ReconciliationFinding) : M Database unit :=
  if negb (finding_identity_valid finding)
  then raise (InvalidArgument "Invalid reconciliation finding identity")
  else exec (finding_statement finding).

(** [SET resolved_at = COALESCE(resolved_at, NOW()), last_seen_at = NOW()
    WHERE resolved_at IS NULL]. *)
Definition ResolveFinding (finding_type resource_id : string) : M Database unit :=
  exec (λ d, Some (tt,
    match storage_reconciliation_findings d !! (finding_type, resource_id) with
    | Some g =>
        match g_resolved_at g with
        | None =>
            d <| storage_reconciliation_findings :=
                   <[(finding_type, resource_id) :=
                       g <| g_resolved_at := Some (now d) |> <| g_last_seen_at := now d |>]>
                     (storage_reconciliation_findings d) |>
        | Some _ => d
        end
    | None => d
    end)).

(** ** The scan of the accounts *)

Record ReconciliationPageResult := mkReconciliationPageResult {
  pr_inspected : Z;
  pr_findings_recorded : Z;
  pr_repairs_enqueued : Z;
  pr_next_after_id : Z;
  pr_next_continuation_token : string;
  pr_has_more : bool
}.

(** An upload that holds a reservation: [status IN (0, 4)]. *)
Definition active (t : UploadTaskRow) : bool := is_status InProgress t || is_status Finalizing t.

(** The sums the query computes for one user. *)
Definition active_file_bytes (user : Z) (d : Database) : Z :=
  sum_rows (λ _ f, if (f_user_id f =? user)%Z then f_size f else 0%Z) (files d).
Definition trash_item_bytes (user : Z) (d : Database) : Z :=
  sum_rows (λ _ x, if (x_user_id x =? user)%Z then x_item_size x else 0%Z) (trash d).
Definition active_upload_reserved_bytes (user : Z) (d : Database) : Z :=
  sum_rows (λ _ t, if (t_user_id t =? user)%Z && active t then t_reserved_bytes t else 0%Z)
    (upload_tasks d).

Record AccountRow := mkAccountRow {
  ar_id : Z;
  ar_storage_used : Z;
  ar_storage_reserved : Z;
  ar_active_file_bytes : Z;
  ar_trash_item_bytes : Z;
  ar_active_upload_reserved_bytes : Z
}.

Definition account_rows (after_id limit : Z) (d : Database) : list AccountRow :=
  (λ kv : Z * UserRow, mkAccountRow kv.1 (u_storage_used kv.2) (u_storage_reserved kv.2)
     (active_file_bytes kv.1 d) (trash_item_bytes kv.1 d)
     (active_upload_reserved_bytes kv.1 d)) <$>
  take (Z.to_nat limit)
    (select_rows (λ id _, (after_id <? id)%Z) (λ a b, (a.1 <=? b.1)%Z) (users d)).

(** [std::overflow_error] is a standard exception. *)
Definition AddWithoutOverflow (left right : Z) : M Database Z :=
  if (u64_max - left <? right)%Z then raise (RuntimeError "Reconciliation byte total overflow")
  else mret (left + right)%Z.

Definition MakeDetails (scan_id : string) (fields : list (string * json)) : json :=
  JObject (("scan_id", JString scan_id) :: fields).

Definition account_finding (finding_type resource_id : string) (details : json)
  : ReconciliationFinding :=
  mkReconciliationFinding finding_type resource_id (Some ("users/" ++ resource_id)) Warning Alert
    details.

(** Records a finding when [alarm] holds and resolves it otherwise: the number of
    findings recorded. *)
Definition record_or_resolve (alarm : bool) (finding : ReconciliationFinding) : M Database Z :=
  if alarm then _ ← RecordFinding finding; mret 1%Z
  else _ ← ResolveFinding (rf_finding_type finding) (rf_resource_id finding); mret 0%Z.

Definition check_account (scan_id : string) (row : AccountRow) : M Database Z :=
  let resource_id := to_string (ar_id row) in
  expected_used ← AddWithoutOverflow (ar_active_file_bytes row) (ar_trash_item_bytes row);
  n ← record_or_resolve (negb (ar_storage_used row =? expected_used)%Z)
        (account_finding kQuotaUsedMismatch resource_id
           (MakeDetails scan_id
              [("storage_used", JInt (ar_storage_used row)); ("expected_used", JInt expected_used);
               ("active_file_bytes", JInt (ar_active_file_bytes row));
               ("trash_item_bytes", JInt (ar_trash_item_bytes row))]));
  m ← record_or_resolve
        (negb (ar_storage_reserved row =? ar_active_upload_reserved_bytes row)%Z)
        (account_finding kQuotaReservedMismatch resource_id
           (MakeDetails scan_id
              [("storage_reserved", JInt (ar_storage_reserved row));
               ("active_upload_reserved_bytes", JInt (ar_active_upload_reserved_bytes row))]));
  mret (n + m)%Z.

Fixpoint check_accounts (scan_id : string) (rows : list AccountRow) (findings next_after_id : Z)
  : M Database (Z * Z) :=
  match rows with
  | [] => mret (findings, next_after_id)
  | row :: rows =>
      n ← check_account scan_id row;
      check_accounts scan_id rows (findings + n)%Z (ar_id row)
  end.

Definition RunUserPage (request : ReconciliationPageRequest)
  : M Database (Result ReconciliationPageResult) :=
  rows ← query (account_rows (rp_after_id request) (rp_limit request));
  totals ← check_accounts (rp_scan_id request) rows 0 0;
  mret (Ok (mkReconciliationPageResult (Z.of_nat (length rows)) totals.1 0 totals.2 ""
    (Z.of_nat (length rows) =? rp_limit request)%Z)).
