(* ===== verification/ReconcileScans.v ===== *)
(** * The scans of contents and stored objects

    The rest of [src/src/services/StorageReconciliationService.cpp]: the scan that
    compares the reference counts and blobs of contents with what refers to them, and
    repairs what nobody refers to; the scans of the objects in the two stores; and
    [RunPage], which runs one page of any scan. *)

From S2P Require Import Prelude Errors Storage Db UploadState Json Schema Batch UploadTasks.
From S2P Require Import StorageJobs JobContract Reconciliation Like.

Local Open Scope string_scope.

Definition kContentRefCountMismatch : string := "content_ref_count_mismatch".
Definition kZeroReferenceContent : string := "zero_reference_content".
Definition kOrphanStagingObject : string := "orphan_staging_object".
Definition kOrphanFinalBlob : string := "orphan_final_blob".
Definition kMissingFinalBlobFindingType : string := "missing_final_blob".
Definition kFinalBlobSizeMismatchFindingType : string := "final_blob_size_mismatch".
Definition kFinalBlobReadInterruptedFindingType : string := "final_blob_read_interrupted".

(** ** Statements *)

(** A row of the content scan. *)
Record ContentScanRow := mkContentScanRow {
  cn_id : Z;
  cn_hash_md5 : string;
  cn_size : Z;
  cn_storage_path : string;
  cn_ref_count : Z;
  cn_actual_ref_count : Z
}.

(** The references the scan counts: files, and trash entries of type ['file']. *)
Definition actual_ref_count (content_id : Z) (d : Database) : Z :=
  sum_rows (λ _ f, if (f_content_id f =? content_id)%Z then 1%Z else 0%Z) (files d) +
  sum_rows (λ _ x, if opt_eqb (x_content_id x) content_id && (x_item_type x =? "file")
                   then 1%Z else 0%Z) (trash d).

Definition content_scan_row (d : Database) (kc : Z * ContentRow) : ContentScanRow :=
  mkContentScanRow kc.1 (c_hash_md5 kc.2) (u64 (c_size kc.2)) (c_storage_path kc.2)
    (c_ref_count kc.2) (actual_ref_count kc.1 d).

Definition content_rows (after_id limit : Z) (d : Database) : list ContentScanRow :=
  content_scan_row d <$> take (Z.to_nat limit)
    (select_rows (λ id _, (after_id <? id)%Z) (λ a b, (a.1 <=? b.1)%Z) (file_contents d)).

(** A stored chunk, or the assembled object, of an upload under way. *)
Definition staging_referenced (locator : string) (d : Database) : bool :=
  exists_row (λ (key : string * Z) k,
    match upload_tasks d !! key.1 with
    | Some t => active t &&
        match k_object_key k with
        | Some object_key => object_key =? locator
        | None => (t_staging_backend t =? "local") &&
                  (locator =? key.1 ++ "/" ++ to_string key.2 ++ ".chunk")
        end
    | None => false
    end) (upload_task_chunks d) ||
  exists_row (λ id t, is_status Finalizing t &&
    (((t_staging_backend t =? "s3") &&
      match t_staging_prefix t with
      | Some prefix => like (prefix ++ "/assembled/%") locator
      | None => false
      end) ||
     ((t_staging_backend t =? "local") && (locator =? id ++ ".tmp")))) (upload_tasks d).

Definition final_referenced (locator : string) (d : Database) : bool :=
  exists_row (λ _ c, c_storage_path c =? locator) (file_contents d).

(** Resolves the findings of a type that the scan that began at [started_at] did not see. *)
Definition resolve_stale (finding_type : string) (started_at : Z) (d : Database) : Database :=
  d <| storage_reconciliation_findings := map_imap (λ (key : string * string) g,
         Some (if (key.1 =? finding_type) && bool_decide (g_resolved_at g = None) &&
                  (g_last_seen_at g <? started_at)%Z
               then g <| g_resolved_at := Some (now d) |> <| g_last_seen_at := now d |> else g))
       (storage_reconciliation_findings d) |>.

Section service.
(** The digest function and the two stores, which may not be configured. *)
Context (HashSha256 : string → string)
  (m_staging_storage : option UploadStagingStorage) (m_blob_store : option IBlobStore).

(** ** Contents *)

Definition MakeBlobGcJob (content_id : Z) (storage_path : string) : NewStorageJob :=
  let aggregate_id := to_string content_id in
  mkNewStorageJob kBlobGcJobType aggregate_id ("blob-gc:" ++ aggregate_id)
    (JObject [("content_id", JInt content_id); ("storage_path", JString storage_path)])
    kDefaultMaxAttempts.

Definition ShouldEnqueueBlobGc (stored_ref_count actual_ref_count : Z) : bool :=
  ((stored_ref_count =? 0) && (actual_ref_count =? 0))%Z.

(** What a content adds to the findings recorded and the repairs enqueued. *)
Notation counts := (Z * Z)%type.

Definition missing_blob (scan_id : string) (row : ContentScanRow) (n : Z)
  : M Database (Result counts) :=
  let resource_id := to_string (cn_id row) in
  _ ← RecordFinding (mkReconciliationFinding kMissingFinalBlobFindingType resource_id
        (Some (cn_storage_path row)) Critical Manual
        (MakeDetails scan_id [("expected_size", JInt (cn_size row))]));
  _ ← ResolveFinding kFinalBlobSizeMismatchFindingType resource_id;
  mret (Ok (n + 1, 0)%Z).

Definition check_blob_size (scan_id : string) (row : ContentScanRow) (observed_size n : Z)
  : M Database (Result counts) :=
  let resource_id := to_string (cn_id row) in
  if negb (observed_size =? cn_size row)%Z then
    _ ← RecordFinding (mkReconciliationFinding kFinalBlobSizeMismatchFindingType resource_id
          (Some (cn_storage_path row)) Critical Manual
          (MakeDetails scan_id [("expected_size", JInt (cn_size row));
                                ("observed_size", JInt observed_size)]));
    mret (Ok (n + 1, 0)%Z)
  else
    _ ← ResolveFinding kFinalBlobSizeMismatchFindingType resource_id;
    _ ← ResolveFinding kFinalBlobReadInterruptedFindingType resource_id;
    mret (Ok (n, 0)%Z).

Definition check_blob (scan_id : string) (row : ContentScanRow) (n : Z)
  : M Database (Result counts) :=
  match m_blob_store with
  | None => mret (Err (mkErrorInfo InternalError "Reconciliation Blob store is not configured"))
  | Some store =>
      let blob := mkBlobDescriptor (cn_id row) (cn_hash_md5 row) (cn_storage_path row)
                    (cn_size row) in
      exists_ ← call_storage (CallBlobExists blob) (λ h, BlobExists store h blob);
      match (exists_ : Result bool) with
      | Err e => mret (Err e)
      | Ok false => missing_blob scan_id row n
      | Ok true =>
          _ ← ResolveFinding kMissingFinalBlobFindingType (to_string (cn_id row));
          observed_size ← call_storage (CallGetBlobSize blob) (λ h, GetBlobSize store h blob);
          match (observed_size : Result Z) with
          | Err e => if bool_decide (code e = FileNotFound) then missing_blob scan_id row n
                     else mret (Err e)
          | Ok size => check_blob_size scan_id row size n
          end
      end
  end.

Definition check_content (scan_id : string) (row : ContentScanRow)
  : M Database (Result counts) :=
  let resource_id := to_string (cn_id row) in
  n ← record_or_resolve (negb (cn_ref_count row =? cn_actual_ref_count row)%Z)
        (mkReconciliationFinding kContentRefCountMismatch resource_id
           (Some ("file_contents/" ++ resource_id)) Critical Alert
           (MakeDetails scan_id [("stored_ref_count", JInt (cn_ref_count row));
                                 ("actual_ref_count", JInt (cn_actual_ref_count row))]));
  let n : Z := n in
  if ShouldEnqueueBlobGc (cn_ref_count row) (cn_actual_ref_count row) then
    _ ← RecordFinding (mkReconciliationFinding kZeroReferenceContent resource_id
          (Some ("file_contents/" ++ resource_id)) Warning AutoGc
          (MakeDetails scan_id [("storage_path", JString (cn_storage_path row))]));
    enqueued ← EnqueueOrRearmSucceeded (MakeBlobGcJob (cn_id row) (cn_storage_path row));
    mret (Ok (n + 1, if (enqueued : bool) then 1 else 0)%Z)
  else
    _ ← ResolveFinding kZeroReferenceContent resource_id;
    if (cn_actual_ref_count row =? 0)%Z then mret (Ok (n, 0%Z)) else check_blob scan_id row n.

Fixpoint check_contents (scan_id : string) (rows : list ContentScanRow)
    (findings repairs next_after_id : Z) : M Database (Result (Z * Z * Z)) :=
  match rows with
  | [] => mret (Ok (findings, repairs, next_after_id))
  | row :: rows =>
      let* c := check_content scan_id row in
      check_contents scan_id rows (findings + c.1) (repairs + c.2) (cn_id row)
  end%Z.

Definition RunContentPage (request : ReconciliationPageRequest)
  : M Database (Result ReconciliationPageResult) :=
  rows ← query (content_rows (rp_after_id request) (rp_limit request));
  let* c := check_contents (rp_scan_id request) rows 0 0 0 in
  let '(findings, repairs, next_after_id) := c in
  mret (Ok (mkReconciliationPageResult (Z.of_nat (length rows)) findings repairs next_after_id ""
    (Z.of_nat (length rows) =? rp_limit request)%Z)).

(** ** Objects *)

Definition BuildObjectResourceId (locator : string) : string := HashSha256 locator.

(** The statement does nothing when the first job of the scan is not found. *)
Definition stale_statement (finding_type scan_id scope dedupe_key : string) (d : Database)
  : option (unit * Database) :=
  Some (tt,
    match find_job_by_dedupe_key dedupe_key d with
    | Some (_, j) =>
        if (j_job_type j =? kStorageReconcileJobType) && (j_aggregate_id j =? scan_id) &&
           (asString (json_get (j_payload j) "scope") =? scope)
        then resolve_stale finding_type (j_created_at j) d else d
    | None => d
    end).

Definition ResolveStaleObjectFindings (finding_type : string)
    (request : ReconciliationPageRequest) : M Database unit :=
  let first_request := mkReconciliationPageRequest (rp_scan_id request) (rp_scope request) 0 ""
                         (rp_limit request) in
  match BuildStorageReconcileJob HashSha256 first_request with
  | Unexpected _ => raise (RuntimeError "Failed to rebuild first reconciliation job")
  | Value first_job =>
      exec (stale_statement finding_type (rp_scan_id request)
              (ScopeToStorageValue (rp_scope request)) (nj_dedupe_key first_job))
  end.

Definition InventoryNotConfigured : ErrorInfo :=
  mkErrorInfo InternalError "Reconciliation inventory is not configured".

Definition list_inventory (request : ReconciliationPageRequest)
  : M Database (Result StorageInventoryPage) :=
  let token := rp_continuation_token request in
  let limit := rp_limit request in
  if bool_decide (rp_scope request = Staging) then
    match m_staging_storage with
    | None => mret (Err InventoryNotConfigured)
    | Some store => call_storage (CallListStagingObjects token limit)
                      (λ h, ListStagingObjects store h token limit)
    end
  else
    match m_blob_store with
    | None => mret (Err InventoryNotConfigured)
    | Some store => call_storage (CallListFinalObjects token limit)
                      (λ h, ListFinalObjects store h token limit)
    end.

(** Which locators of the page are referenced. *)
Definition referenced_locators (scope : ReconciliationScope)
    (objects : list StorageInventoryObject) : M Database (string → bool) :=
  if decide (objects = []) then mret (λ _, false)
  else query (λ d locator,
    if bool_decide (scope = Staging) then staging_referenced locator d
    else final_referenced locator d).

Fixpoint check_objects (scan_id finding_type : string) (severity : ReconciliationSeverity)
    (strategy : ResolutionStrategy) (referenced : string → bool)
    (objects : list StorageInventoryObject) (findings : Z) : M Database Z :=
  match objects with
  | [] => mret findings
  | object :: objects =>
      let resource_id := BuildObjectResourceId (so_locator object) in
      n ← record_or_resolve (negb (referenced (so_locator object)))
            (mkReconciliationFinding finding_type resource_id (Some (so_locator object)) severity
               strategy (MakeDetails scan_id [("size_bytes", JInt (so_size_bytes object))]));
      check_objects scan_id finding_type severity strategy referenced objects (findings + n)
  end%Z.

Definition RunObjectPage (request : ReconciliationPageRequest)
  : M Database (Result ReconciliationPageResult) :=
  let* inventory := list_inventory request in
  (referenced ← referenced_locators (rp_scope request) (ip_objects inventory);
   let '(finding_type, severity, strategy) :=
     if bool_decide (rp_scope request = Staging) then (kOrphanStagingObject, Warning, Alert)
     else (kOrphanFinalBlob, Critical, Manual) in
   findings ← check_objects (rp_scan_id request) finding_type severity strategy referenced
                (ip_objects inventory) 0;
   _ ← if ip_has_more inventory then mret tt
       else ResolveStaleObjectFindings finding_type request;
   mret (Ok (mkReconciliationPageResult (Z.of_nat (length (ip_objects inventory))) findings 0 0
     (ip_continuation_token inventory) (ip_has_more inventory)))).

(** ** A page of any scan *)

Definition ReconciliationDatabaseFailure : ErrorInfo :=
  mkErrorInfo InternalError "Storage reconciliation database failure".
Definition ReconciliationFailed : ErrorInfo :=
  mkErrorInfo InternalError "Storage reconciliation failed".

Definition RunPage (request : ReconciliationPageRequest)
  : M Database (Result ReconciliationPageResult) :=
  match ValidateReconciliationPageRequest request with
  | Err e => mret (Err e)
  | Ok _ =>
      catch
        match rp_scope request with
        | Contents => RunContentPage request
        | Users => RunUserPage request
        | Staging | Final => RunObjectPage request
        end
        (λ x, Some (mret (Err (match x with
           | DbException => ReconciliationDatabaseFailure
           | _ => ReconciliationFailed
           end))))
  end.
End service.
