(* ===== verification/Downloads.v ===== *)
(** * Downloads

    [src/src/controllers/DownloadResponder.cpp] with the range requests of
    [src/src/dtos/FileDto.hpp] and the checks of
    [src/src/services/DownloadIntegrityService.cpp]: how a request for a blob, or a part
    of it, becomes a response whose body is a file of the server or a stream. *)

From Stdlib Require Import Ascii.
From S2P Require Import Prelude Errors Storage Db UploadState Json Schema Names Numerals UploadTasks.
From S2P Require Import JobContract Reconciliation ReconcileScans.

Local Open Scope string_scope.

(** ** Range requests *)

Record RangeRequest := mkRangeRequest {
  rr_has_range : bool;
  rr_start : Z;
  rr_end : Z;
  rr_satisfiable : bool;
  rr_file_size : Z
}.

(** [find('-')]: the text before and after the first dash. *)
Fixpoint split_dash (s : string) : option (string * string) :=
  match s with
  | EmptyString => None
  | String "-" s' => Some (EmptyString, s')
  | String c s' => '(a, b) ← split_dash s'; Some (String c a, b)
  end.

(** The bounds a range asks for; [None] when it cannot be satisfied. *)
Definition range_bounds (start_str end_str : string) (file_size : Z) : option (Z * Z) :=
  if str_empty start_str then
    if str_empty end_str then None
    else
      suffix_length ← stoull end_str;
      Some (if (suffix_length =? 0)%Z || (file_size <? suffix_length)%Z
            then (0%Z, u64 (file_size - 1))
            else (u64 (file_size - suffix_length), u64 (file_size - 1)))
  else
    start ← stoull start_str;
    if (file_size <=? start)%Z then None
    else
      end_ ← (if str_empty end_str then Some (u64 (file_size - 1))
              else e ← stoull end_str;
                   Some (if (file_size <=? e)%Z then u64 (file_size - 1) else e));
      Some (start, end_).

(** [RangeRequest::Parse].  The fields of an unsatisfiable range are not used. *)
Definition RangeRequest_Parse (range_header : string) (file_size : Z) : RangeRequest :=
  let unsatisfiable := mkRangeRequest true 0 0 false file_size in
  if str_empty range_header then mkRangeRequest false 0 0 true file_size
  else if String.eqb (String.substring 0 6 range_header) "bytes=" then
    match split_dash (String.substring 6 (String.length range_header) range_header) with
    | None => unsatisfiable
    | Some (start_str, end_str) =>
        match range_bounds start_str end_str file_size with
        | None => unsatisfiable
        | Some (start, end_) => mkRangeRequest true start end_ (start <=? end_)%Z file_size
        end
    end
  else unsatisfiable.

(** ** Integrity of blobs *)

Section download.
(** The fields that name the request in the findings it records. *)
Context (correlation : list (string * json)) (m_blob_store : option IBlobStore).

Definition MakeFinding (finding_type : string) (blob : BlobDescriptor)
    (details : list (string * json)) : ReconciliationFinding :=
  mkReconciliationFinding finding_type (to_string (bd_content_id blob))
    (Some (bd_storage_path blob)) Critical Manual (JObject (details ++ correlation)%list).

Definition RecordFindingBestEffort (finding : ReconciliationFinding) : M Database unit :=
  catch_all (RecordFinding finding) (mret tt).

Definition FileReadFailure : ErrorInfo := err FileReadError.

Definition preflight_source : string * json := ("source", JString "download_preflight").

Definition Preflight (blob : BlobDescriptor) (expected_size : Z) : M Database (Result unit) :=
  match m_blob_store with
  | None => mret (Err FileReadFailure)
  | Some store =>
      catch_all
        (observed_size ← call_storage (CallGetBlobSize blob) (λ h, GetBlobSize store h blob);
         match (observed_size : Result Z) with
         | Err e =>
             _ ← (if bool_decide (code e = FileNotFound) then
                    RecordFindingBestEffort (MakeFinding kMissingFinalBlobFindingType blob
                      [preflight_source; ("expected_size", JInt expected_size)])
                  else mret tt);
             mret (Err FileReadFailure)
         | Ok size =>
             if negb (size =? expected_size)%Z then
               _ ← RecordFindingBestEffort (MakeFinding kFinalBlobSizeMismatchFindingType blob
                     [preflight_source; ("expected_size", JInt expected_size);
                      ("observed_size", JInt size)]);
               mret (Err FileReadFailure)
             else mret (Ok tt)
         end)
        (mret (Err FileReadFailure))
  end.

Definition RecordOpenFailure (blob : BlobDescriptor) (error_code : Code)
    (range_start expected_bytes : Z) : M Database unit :=
  let finding_type := if bool_decide (error_code = FileNotFound)
                      then kMissingFinalBlobFindingType
                      else kFinalBlobReadInterruptedFindingType in
  RecordFindingBestEffort (MakeFinding finding_type blob
    [("source", JString "download_open"); ("range_start", JInt range_start);
     ("expected_bytes", JInt expected_bytes)]).

Definition RecordStreamInterruption (blob : BlobDescriptor)
    (range_start expected_bytes delivered_bytes : Z) : M Database unit :=
  RecordFindingBestEffort (MakeFinding kFinalBlobReadInterruptedFindingType blob
    [("source", JString "download_stream"); ("range_start", JInt range_start);
     ("expected_bytes", JInt expected_bytes); ("delivered_bytes", JInt delivered_bytes)]).

(** ** The stream of a response *)

Definition DOWNLOAD_STREAM_CHUNK_BYTES : Z := 64 * 1024.
Definition SENDFILE_THRESHOLD_BYTES : Z := 256 * 1024.

(** [DownloadStreamState] with the position of the stream and whether it was closed. *)
Record DownloadStreamState := mkDownloadStreamState {
  st_remaining : Z;
  st_delivered : Z;
  st_interruption_recorded : bool;
  st_position : Z;
  st_closed : bool
}.

Definition closed (st : DownloadStreamState) : DownloadStreamState := st <| st_closed := true |>.

(** The callback of the response: what it puts into the buffer, and the state after.
    [None] stands for the null buffer of a connection that ended. *)
Definition stream_callback (stream : StorageReadStream) (blob : BlobDescriptor)
    (start content_length : Z) (st : DownloadStreamState) (suggested_length : option Z)
  : M Database (string * DownloadStreamState) :=
  match suggested_length with
  | None => mret ("", closed st)
  | Some suggested_length =>
      if (st_remaining st =? 0)%Z then mret ("", closed st)
      else
        let bounded_remaining := Z.min (st_remaining st) u64_max in
        let read_size :=
          Z.min suggested_length (Z.min DOWNLOAD_STREAM_CHUNK_BYTES bounded_remaining) in
        let data := default "" (stream (st_position st) read_size) in
        if str_empty data then
          _ ← (if st_interruption_recorded st then mret tt
               else RecordStreamInterruption blob start content_length (st_delivered st));
          mret ("", closed (st <| st_interruption_recorded := true |> <| st_remaining := 0%Z |>))
        else
          let bounded := Z.min (strlen data) (st_remaining st) in
          let st := st <| st_remaining := (st_remaining st - bounded)%Z |>
                       <| st_delivered := (st_delivered st + bounded)%Z |>
                       <| st_position := (st_position st + strlen data)%Z |> in
          mret (String.substring 0 (Z.to_nat bounded) data,
                if (st_remaining st =? 0)%Z then closed st else st)
  end.

(** ** The response *)

Record DownloadParams := mkDownloadParams {
  dp_blob : BlobDescriptor;
  dp_filename : string;
  dp_file_size : Z;
  dp_mime_type : string;
  dp_file_hash : string;
  dp_range_header : string
}.

Inductive ResponseBody :=
  | JsonBody (body : json)
  | ErrorBody (error : ErrorInfo)
  | FileBody (path : string) (range : option (Z * Z)) (filename mime_type : string)
  | StreamBody (stream : StorageReadStream) (blob : BlobDescriptor) (start content_length : Z).

(** [hr_status] is [None] when the framework sets it. *)
Record HttpResponse := mkHttpResponse {
  hr_status : option Z;
  hr_headers : list (string * string);
  hr_body : ResponseBody
}.

Definition error_response (e : ErrorInfo) : HttpResponse := mkHttpResponse None [] (ErrorBody e).

Definition quote : string := String (ascii_of_nat 34) EmptyString.

Definition range_refused (params : DownloadParams) : HttpResponse :=
  mkHttpResponse (Some 416%Z)
    [("Content-Range", "bytes */" ++ to_string (dp_file_size params))]
    (JsonBody (JObject [("code", JInt 10002); ("message", JString "Invalid request range");
       ("data", JObject [("file_size", JInt (dp_file_size params));
                         ("requested_range", JString (dp_range_header params));
                         ("reason", JString "Requested start position exceeds file size")])])).

(** The headers every download has. *)
Definition common_headers (params : DownloadParams) : list (string * string) :=
  ([("Accept-Ranges", "bytes");
    ("Content-Disposition",
      ("attachment; filename=" ++ quote ++ dp_filename params ++ quote)%string)] ++
   (if str_empty (dp_file_hash params) then []
    else [("ETag", (quote ++ dp_file_hash params ++ quote)%string)]))%list.

Definition file_response (params : DownloadParams) (range_request : RangeRequest)
    (start content_length : Z) (local_path : string) : HttpResponse :=
  mkHttpResponse None (common_headers params)
    (FileBody local_path
       (if rr_has_range range_request then Some (start, content_length) else None)
       (dp_filename params) (dp_mime_type params)).

Definition stream_response (params : DownloadParams) (range_request : RangeRequest)
    (start end_ content_length : Z) (stream : StorageReadStream) : HttpResponse :=
  mkHttpResponse (Some (if rr_has_range range_request then 206 else 200)%Z)
    ((if rr_has_range range_request
      then [("Content-Range", ("bytes " ++ to_string start ++ "-" ++ to_string end_ ++ "/" ++
                               to_string (dp_file_size params))%string)] else []) ++
     [("Content-Type", dp_mime_type params); ("Content-Length", to_string content_length)] ++
     common_headers params)%list
    (StreamBody stream (dp_blob params) start content_length).

Definition open_stream (params : DownloadParams) (range_request : RangeRequest) (store : IBlobStore)
    (start end_ content_length : Z) : M Database HttpResponse :=
  open_result ← call_storage (CallOpenBlobRange (dp_blob params) start content_length)
                  (λ h, OpenBlobRangeForRead store h (dp_blob params) start content_length);
  match (open_result : Result StorageReadStream) with
  | Err e =>
      _ ← RecordOpenFailure (dp_blob params) (code e) start content_length;
      mret (error_response FileReadFailure)
  | Ok stream => mret (stream_response params range_request start end_ content_length stream)
  end.

Definition BuildDownloadResponse (params : DownloadParams) : M Database HttpResponse :=
  let file_size := dp_file_size params in
  let range_request := RangeRequest_Parse (dp_range_header params) file_size in
  if rr_has_range range_request && negb (rr_satisfiable range_request)
  then mret (range_refused params)
  else
    let start := if rr_has_range range_request then rr_start range_request else 0%Z in
    let end_ := if rr_has_range range_request then rr_end range_request else u64 (file_size - 1) in
    let content_length := u64 (end_ - start + 1) in
    match m_blob_store with
    | None => mret (error_response FileReadFailure)
    | Some store =>
        preflight_result ← Preflight (dp_blob params) file_size;
        match (preflight_result : Result unit) with
        | Err e => mret (error_response e)
        | Ok _ =>
            if (SENDFILE_THRESHOLD_BYTES <=? content_length)%Z then
              match GetLocalBlobPathForDownload store (dp_blob params) with
              | Some local_path =>
                  mret (file_response params range_request start content_length local_path)
              | None => open_stream params range_request store start end_ content_length
              end
            else open_stream params range_request store start end_ content_length
        end
    end.
End download.

Local Close Scope string_scope.
Local Open Scope Z_scope.

(** ** Ranges mean what they say *)

(** The ranges of RFC 9110 with one interval. *)
Inductive range_spec :=
  | FromTo (first last : Z)
  | From (first : Z)
  | Suffix (length : Z).

Definition print_range (r : range_spec) : string :=
  "bytes=" +:+ match r with
               | FromTo a b => to_string a +:+ "-" +:+ to_string b
               | From a => to_string a +:+ "-"
               | Suffix n => "-" +:+ to_string n
               end.

Definition in_u64 (n : Z) : Prop := 0 <= n <= u64_max.

Definition range_in_u64 (r : range_spec) : Prop :=
  match r with FromTo a b => in_u64 a ∧ in_u64 b | From a | Suffix a => in_u64 a end.

(** The first and last byte of a file of [size] bytes that a range selects by RFC 9110: a
    suffix of no byte selects nothing. *)
Definition selected (r : range_spec) (size : Z) : option (Z * Z) :=
  match r with
  | FromTo a b => if (a <? size) && (a <=? b) then Some (a, Z.min b (size - 1)) else None
  | From a => if a <? size then Some (a, size - 1) else None
  | Suffix n => if n =? 0 then None else Some (Z.max 0 (size - n), size - 1)
  end.

(** What the parser makes of it: a suffix of no byte is the whole file. *)
Definition served (r : range_spec) (size : Z) : option (Z * Z) :=
  match r with
  | Suffix 0 => Some (0, size - 1)
  | _ => selected r size
  end.

Lemma served_selected r size : r ≠ Suffix 0 → served r size = selected r size.
Proof. by destruct r as [| |[]]. Qed.

Lemma split_dash_digits d r : all_digits d = true →
  split_dash (d +:+ String "-" r) = Some (d, r).
Proof.
  induction d as [|c d IH]; [done|]. cbn [all_digits]. intros [Hc Hd]%andb_true_iff.
  change (String c d +:+ String "-" r) with (String c (d +:+ String "-" r)). cbn [split_dash].
  rewrite IH by done. assert (c ≠ "-"%char) by (intros ->; vm_compute in Hc; done).
  destruct c as [[] [] [] [] [] [] [] []]; done.
Qed.

(** What follows ["bytes="]. *)
Lemma Parse_bytes s size : RangeRequest_Parse ("bytes=" +:+ s) size =
  match split_dash s with
  | None => mkRangeRequest true 0 0 false size
  | Some (a, b) =>
      match range_bounds a b size with
      | None => mkRangeRequest true 0 0 false size
      | Some (start, end_) => mkRangeRequest true start end_ (start <=? end_) size
      end
  end.
Proof.
  unfold RangeRequest_Parse. cbn [str_empty].
  assert (String.eqb (String.substring 0 6 ("bytes=" +:+ s)) "bytes=" = true) as ->.
  { apply String.eqb_eq. change (String.substring 0 6 ("bytes=" +:+ s)) with
      ("bytes=" +:+ String.substring 0 0 s). by destruct s. }
  assert (String.substring 6 (String.length ("bytes=" +:+ s)) ("bytes=" +:+ s) = s) as ->; [|done].
  change (String.substring 6 (String.length ("bytes=" +:+ s)) ("bytes=" +:+ s)) with
    (String.substring 0 (6 + String.length s) s). apply substring_longer. lia.
Qed.

Lemma digits_not_empty s : s ≠ ""%string → str_empty s = false.
Proof. by destruct s. Qed.

Lemma stoull_prints n : in_u64 n → stoull (to_string n) = Some n.
Proof. intros H. unfold stoull. by rewrite stoull_to_string. Qed.

Lemma range_bounds_prints r size : range_in_u64 r → 0 < size <= u64_max →
  ∃ a b, print_range r = "bytes=" +:+ a +:+ String "-" b ∧ all_digits a = true ∧
    match range_bounds a b size with
    | Some (start, end_) => served r size = if start <=? end_ then Some (start, end_) else None
    | None => served r size = None
    end.
Proof.
  intros Hr Hs. unfold u64_max in *.
  assert (u64 (size - 1) = size - 1) as E by (apply u64_small; lia).
  destruct r as [a b|a|n]; simpl in Hr; unfold range_bounds.
  - destruct Hr as [Ha Hb]. destruct (to_string_reads a) as (Hda & Hna & _); [apply Ha|].
    destruct (to_string_reads b) as (_ & Hnb & _); [apply Hb|].
    exists (to_string a), (to_string b). split_and!; [done|done|].
    rewrite !digits_not_empty, !stoull_prints, E by done. cbn.
    destruct (Z.leb_spec size a).
    + rewrite (proj2 (Z.ltb_ge a size)) by lia. done.
    + cbn. rewrite (proj2 (Z.ltb_lt a size)) by lia. cbn.
      destruct (Z.leb_spec size b); destruct (Z.leb_spec a b); try lia.
      * rewrite (proj2 (Z.leb_le a (size - 1))) by lia. do 2 f_equal. lia.
      * do 2 f_equal. lia.
      * done.
  - destruct (to_string_reads a) as (Hda & Hna & _); [apply Hr|].
    exists (to_string a), ""%string. split_and!; [done|done|].
    rewrite digits_not_empty, stoull_prints, E by done. cbn.
    destruct (Z.leb_spec size a).
    + by rewrite (proj2 (Z.ltb_ge a size)) by lia.
    + cbn. rewrite (proj2 (Z.ltb_lt a size)), (proj2 (Z.leb_le a (size - 1))) by lia. done.
  - destruct (to_string_reads n) as (Hdn & Hnn & _); [apply Hr|].
    exists ""%string, (to_string n). split_and!; [done|done|].
    rewrite (digits_not_empty (to_string n)), stoull_prints, E by done.
    unfold in_u64, u64_max in Hr. destruct (decide (n = 0)) as [->|Hn].
    + cbn. rewrite (proj2 (Z.leb_le 0 (size - 1))) by lia. done.
    + rewrite (served_selected (Suffix n)) by congruence. cbn.
      rewrite (proj2 (Z.eqb_neq n 0) Hn). cbn. destruct (Z.ltb_spec size n).
      * rewrite (proj2 (Z.leb_le 0 (size - 1))) by lia. do 2 f_equal. lia.
      * rewrite u64_small by lia. rewrite (proj2 (Z.leb_le (size - n) (size - 1))) by lia.
        do 2 f_equal. lia.
Qed.

Lemma range_bounds_inside a b size start end_ : 0 < size <= u64_max →
  range_bounds a b size = Some (start, end_) → 0 <= start ∧ end_ < size.
Proof.
  intros Hs. unfold u64_max in *. unfold range_bounds.
  assert (u64 (size - 1) = size - 1) as -> by (apply u64_small; lia).
  assert (∀ t n, stoull t = Some n → 0 <= n) as Hn.
  { intros t n H. unfold stoull in H. destruct (stoull_pos t) as [[m rest]|] eqn:E; [|done].
    injection H as <-. apply stoull_range in E. apply E. }
  destruct (str_empty a).
  - destruct (str_empty b); [done|]. destruct (stoull b) as [n|] eqn:En; [|done]. cbn.
    apply Hn in En. destruct (_ || _) eqn:Eo; intros [= <- <-]; [lia|].
    apply orb_false_iff in Eo as [E1 E2]. case_bools. rewrite u64_small by lia. lia.
  - destruct (stoull a) as [n|] eqn:En; [|done]. cbn. apply Hn in En.
    destruct (Z.leb_spec size n); [done|]. destruct (str_empty b); cbn.
    + intros [= <- <-]. lia.
    + destruct (stoull b) as [m|]; [|done]. cbn. intros [= <- <-].
      destruct (Z.leb_spec size m); lia.
Qed.

(** C32: a range header means what RFC 9110 says, with one exception.  For a file of at least
    one byte and bounds that fit 64 bits, the parser gives the interval that the printed range
    selects, cut at the end of the file, and calls the others unsatisfiable; only the suffix
    of no byte, [bytes=-0], which selects nothing, is taken for the whole file.  Whatever the
    text of the header, a range it calls satisfiable lies inside the file, so that the length
    of the response is that of the interval, without wrap-around. *)
Theorem ranges_mean_what_they_say size : 0 < size <= u64_max →
  (∀ r, range_in_u64 r → r ≠ Suffix 0 →
     let p := RangeRequest_Parse (print_range r) size in
     rr_has_range p = true ∧
     selected r size = if rr_satisfiable p then Some (rr_start p, rr_end p) else None) ∧
  (selected (Suffix 0) size = None ∧
   RangeRequest_Parse (print_range (Suffix 0)) size = mkRangeRequest true 0 (size - 1) true size) ∧
  (∀ header, let p := RangeRequest_Parse header size in
     rr_has_range p = true → rr_satisfiable p = true →
     0 <= rr_start p <= rr_end p ∧ rr_end p < size ∧
     u64 (rr_end p - rr_start p + 1) = rr_end p - rr_start p + 1).
Proof.
  intros Hs. split_and!.
  - intros r Hr Hne. destruct (range_bounds_prints r size Hr Hs) as (a & b & -> & Ha & H).
    rewrite Parse_bytes, split_dash_digits by done. rewrite served_selected in H by done.
    destruct (range_bounds a b size) as [[start end_]|]; [|done]. cbn. split; [done|].
    rewrite H. by destruct (start <=? end_).
  - done.
  - unfold u64_max in *. change (print_range (Suffix 0)) with ("bytes=" +:+ "-0")%string.
    rewrite Parse_bytes.
    change (split_dash "-0") with (Some (""%string, "0"%string)). cbv match.
    change (range_bounds "" "0" size) with (Some (0, u64 (size - 1))). cbv match.
    rewrite u64_small by lia. by rewrite (proj2 (Z.leb_le 0 (size - 1))) by lia.
  - intros header. cbv zeta. unfold RangeRequest_Parse.
    repeat case_match; cbn; try done. intros _ Hle. case_bools.
    match goal with H : range_bounds _ _ _ = Some _ |- _ =>
      apply (range_bounds_inside _ _ _ _ _ Hs) in H as [? ?] end.
    unfold u64_max in *. split_and!; try lia. apply u64_small. lia.
Qed.

Lemma ranges_mean_what_they_say_witness :
  (let p := RangeRequest_Parse "bytes=500-999" 800 in
   rr_has_range p = true ∧ selected (FromTo 500 999) 800 = Some (500, 799) ∧
   (rr_start p, rr_end p) = (500, 799)) ∧
  rr_satisfiable (RangeRequest_Parse "bytes=800-" 800) = false.
Proof.
  split; [|vm_compute; reflexivity].
  destruct (ranges_mean_what_they_say 800) as [H _]; [done|].
  destruct (H (FromTo 500 999)) as [H1 H2]; [by split_and!|done|]. split; [exact H1|].
  split; [reflexivity|]. vm_compute. reflexivity.
Defined.

(** ** The bytes delivered *)

Definition fresh_stream (content_length : Z) : DownloadStreamState :=
  mkDownloadStreamState content_length 0 false 0 false.

Section deliver.
Context (correlation : list (string * json)).

(** The framework asks for more until it gets nothing, with a buffer of its choice. *)
Fixpoint deliver (stream : StorageReadStream) (blob : BlobDescriptor) (start content_length : Z)
    (suggested_lengths : list Z) (st : DownloadStreamState) : M Database (string * DownloadStreamState) :=
  match suggested_lengths with
  | [] => mret (""%string, st)
  | n :: ns =>
      '(data, st) ← stream_callback correlation stream blob start content_length st (Some n);
      if str_empty data then mret (""%string, st)
      else '(rest, st) ← deliver stream blob start content_length ns st;
           mret (data +:+ rest, st)
  end.

(** A stream over [body]: every read gives the next bytes, at least one, at most those
    asked for. *)
Definition serves (stream : StorageReadStream) (body : string) : Prop :=
  ∀ position n, 0 <= position < strlen body → 0 < n → ∃ data,
    stream position n = Some data ∧ 0 < strlen data <= n ∧
    data = String.substring (Z.to_nat position) (String.length data) body.

(** The state after [delivered] of [total] bytes. *)
Definition delivering (total delivered : Z) (st : DownloadStreamState) : Prop :=
  st_remaining st = total - delivered ∧ st_delivered st = delivered ∧
  st_position st = delivered ∧ st_interruption_recorded st = false.

Lemma deliver_serves stream blob start body ns delivered st e :
  serves stream body → strlen body <= u64_max → Forall (λ n, 0 < n) ns →
  0 <= delivered <= strlen body → delivering (strlen body) delivered st →
  ∃ text st', deliver stream blob start (strlen body) ns st e = (Ret (text, st'), e) ∧
    text = String.substring (Z.to_nat delivered) (String.length text) body ∧
    delivered + strlen text <= strlen body ∧
    (strlen body - delivered < Z.of_nat (length ns) →
       delivered + strlen text = strlen body ∧ st_closed st' = true).
Proof.
  intros Hserves Hmax Hns. revert delivered st. induction Hns as [|n ns Hn Hns IH]; intros k st Hk Hst.
  - exists ""%string, st. split_and!; [done|by rewrite substring_nil|change (strlen "") with 0; lia|].
    change (strlen "") with 0. simpl. lia.
  - destruct Hst as (Hr & Hd & Hp & Hi). cbn [deliver]. unfold stream_callback. rewrite Hr.
    destruct (Z.eqb_spec (strlen body - k) 0) as [Hz|Hz].
    { exists ""%string, (closed st). split_and!; [done|by rewrite substring_nil|change (strlen "") with 0; lia|].
      intros _. change (strlen "") with 0. split; [lia|done]. }
    rewrite Hp. set (read_size := Z.min n _).
    destruct (Hserves k read_size) as (data & -> & Hlen & Hdata); [lia|unfold DOWNLOAD_STREAM_CHUNK_BYTES, u64_max in *; lia|].
    change (default "" (Some data))%string with data.
    assert (data ≠ ""%string) as Hne
      by (intros E; rewrite E in Hlen; change (strlen "") with 0 in Hlen; lia).
    rewrite (digits_not_empty data) by done.
    rewrite Z.min_l by (unfold read_size, u64_max in *; lia).
    assert (Z.to_nat (strlen data) = String.length data) as El by (unfold strlen; lia).
    rewrite El, substring_full. set (st1 := st <| st_remaining := _ |> <| _ := _ |> <| _ := _ |>).
    set (st2 := if _ =? 0 then closed st1 else st1).
    rewrite (bind_Ret (mret (data, st2)) _ e (data, st2) e eq_refl). rewrite (digits_not_empty data) by done.
    destruct (IH (k + strlen data) st2) as (text & st' & Ed & Et & Hle & Hdone).
    + unfold read_size in *. lia.
    + unfold st2, st1. case_match; unfold delivering; cbn; rewrite ?Hd, ?Hp, ?Hr; split_and!;
        done || lia.
    + exists (data +:+ text)%string, st'. rewrite (bind_Ret _ _ _ _ _ Ed). split_and!.
      * done.
      * rewrite length_string_app, substring_split, <- Hdata, Et at 1. do 2 f_equal. 
        unfold strlen. lia.
      * rewrite strlen_app. lia.
      * rewrite strlen_app. cbn [length]. intros H. destruct Hdone as [Hd1 Hd2]; [lia|].
        split; [lia|done].
Qed.

(** An object store that holds the bytes [data] of a blob. *)
Definition holds (store : IBlobStore) (blob : BlobDescriptor) (data : string) : Prop :=
  (∀ h, GetBlobSize store h blob = Ok (strlen data)) ∧
  (∀ h start n, start + n <= strlen data → ∃ stream,
     OpenBlobRangeForRead store h blob start n = Ok stream ∧
     serves stream (String.substring (Z.to_nat start) (Z.to_nat n) data)) ∧
  GetLocalBlobPathForDownload store blob = None.

Lemma Preflight_holds store blob data e : holds store blob data → ∃ cs,
  Preflight correlation (Some store) blob (strlen data) e =
    (Ret (Ok tt), mkEnv (db e) (schedule e) (tx e) cs).
Proof.
  intros (Hsize & _ & _). exists (calls e ++ [CallGetBlobSize blob])%list.
  unfold Preflight, catch_all, catch, mbind at 1, M_bind at 1, call_storage. rewrite Hsize, Z.eqb_refl.
  done.
Qed.

(** The interval a request asks for, as the parser takes it ([ranges_mean_what_they_say]). *)
Definition requested (r : option range_spec) (size : Z) : option (Z * Z) :=
  match r with None => Some (0, size - 1) | Some r => served r size end.

Definition range_header (r : option range_spec) : string := from_option print_range ""%string r.

Definition range_ok (r : option range_spec) : Prop := from_option range_in_u64 True r.

Lemma Parse_requested r size : range_ok r → 0 < size <= u64_max →
  let p := RangeRequest_Parse (range_header r) size in
  rr_has_range p = bool_decide (is_Some r) ∧
  match requested r size with
  | None => rr_has_range p = true ∧ rr_satisfiable p = false
  | Some (a, b) => rr_satisfiable p = true ∧ 0 <= a <= b ∧ b < size ∧
      (r ≠ None → rr_start p = a ∧ rr_end p = b)
  end.
Proof.
  intros Hr Hs. destruct r as [r|]; [|by cbn; split_and!; [..|lia|lia|]].
  cbv zeta. cbn [range_header requested from_option].
  destruct (range_bounds_prints r size Hr Hs) as (a & b & -> & Ha & H).
  rewrite Parse_bytes, split_dash_digits by done.
  destruct (range_bounds a b size) as [[start end_]|] eqn:E; rewrite H; [|done].
  apply range_bounds_inside in E as [? ?]; [|done].
  destruct (Z.leb_spec start end_) as [Hle|Hgt]; cbn.
  - by split_and!.
  - done.
Qed.

(** C31: a download delivers the bytes asked for.  Let an object store hold the bytes of a
    blob, of the size the file has, and serve reads as streams that may give fewer bytes
    than asked for.  A request without range gets all of them with status 200, a request
    for a range gets status 206, the bounds in [Content-Range] and exactly those bytes, and
    a range outside the file gets status 416 ([bytes=-0] counts as the whole file); whatever the sizes of the buffers, what has
    been delivered is always an initial part of that, and all of it once the framework has
    asked often enough, and then the stream is closed.  The database is left alone. *)
Theorem download_delivers_range store params data r e :
  holds store (dp_blob params) data → dp_file_size params = strlen data →
  0 < strlen data <= u64_max → range_ok r → dp_range_header params = range_header r →
  ∃ response e', BuildDownloadResponse correlation (Some store) params e = (Ret response, e') ∧
  db e' = db e ∧ schedule e' = schedule e ∧
  match requested r (strlen data) with
  | None => hr_status response = Some 416
  | Some (a, b) =>
      let body := String.substring (Z.to_nat a) (Z.to_nat (b - a + 1)) data in
      hr_status response = Some (if r then 206 else 200) ∧
      (is_Some r → ("Content-Range", "bytes " +:+ to_string a +:+ "-" +:+ to_string b +:+ "/" +:+
         to_string (strlen data))%string ∈ hr_headers response) ∧
      strlen body = b - a + 1 ∧
      ∃ stream blob start, hr_body response = StreamBody stream blob start (strlen body) ∧
        ∀ buffers e1, Forall (λ n, 0 < n) buffers → ∃ text st,
          deliver stream blob start (strlen body) buffers (fresh_stream (strlen body)) e1 =
            (Ret (text, st), e1) ∧
          text = String.substring 0 (String.length text) body ∧
          (strlen body < Z.of_nat (length buffers) → text = body ∧ st_closed st = true)
  end.
Proof.
  intros Hstore Hsize Hlen Hr Hheader.
  pose proof (Parse_requested r (strlen data) Hr Hlen) as [Hhas Hparse]. cbv zeta in Hparse.
  unfold BuildDownloadResponse. rewrite Hheader, Hsize. cbv zeta.
  set (p := RangeRequest_Parse _ _) in *.
  destruct (requested r (strlen data)) as [[a b]|] eqn:Hreq.
  2: { destruct Hparse as [-> ->]. cbn. by eexists _, e. }
  destruct Hparse as (-> & Hab & Hb & Hbounds). rewrite andb_false_r.
  assert ((if rr_has_range p then rr_start p else 0) = a ∧
          (if rr_has_range p then rr_end p else u64 (strlen data - 1)) = b) as [-> ->].
  { destruct r as [r|]; rewrite Hhas; cbn.
    - by apply Hbounds.
    - injection Hreq as <- <-. unfold u64_max in *. by rewrite u64_small by lia. }
  unfold u64_max in *. rewrite u64_small by lia.
  destruct (Preflight_holds store (dp_blob params) data e Hstore) as (cs & Hpre).
  rewrite (bind_Ret _ _ _ _ _ Hpre).
  set (e1 := mkEnv (db e) (schedule e) (tx e) cs).
  destruct Hstore as (_ & Hopen & ->).
  destruct (Hopen cs a (b - a + 1)) as (stream & Hstream & Hserves); [lia|].
  assert (strlen (String.substring (Z.to_nat a) (Z.to_nat (b - a + 1)) data) = b - a + 1) as Hbody.
  { unfold strlen in *. rewrite strlen_substring by lia. lia. }
  assert (open_stream correlation params p store a b (b - a + 1) e1 = (Ret
    (stream_response params p a b (b - a + 1) stream),
    mkEnv (db e) (schedule e) (tx e) (cs ++ [CallOpenBlobRange (dp_blob params) a (b - a + 1)])))
    as Hresp.
  { unfold open_stream, mbind, M_bind, call_storage. cbn [calls e1]. by rewrite Hstream. }
  exists (stream_response params p a b (b - a + 1) stream),
    (mkEnv (db e) (schedule e) (tx e) (cs ++ [CallOpenBlobRange (dp_blob params) a (b - a + 1)])%list).
  split; [case_match; exact Hresp|]. split_and!; [done|done| | |exact Hbody|].
  - cbn. rewrite Hhas. by destruct r.
  - intros Hsome. cbn. rewrite Hhas, Hsize. rewrite bool_decide_eq_true_2 by done. by left.
  - exists stream, (dp_blob params), a. rewrite Hbody. split; [done|]. intros buffers e2 Hbuf.
    destruct (deliver_serves stream (dp_blob params) a _ buffers 0 (fresh_stream (b - a + 1)) e2
      Hserves) as (text & st & Hd & Ht & Hle & Hall); [unfold u64_max; lia|done|lia| |].
    { rewrite Hbody. unfold delivering. cbn. by rewrite Z.sub_0_r. }
    rewrite Hbody in Hd, Hall. exists text, st. split_and!; [exact Hd|exact Ht|].
    intros Hn. destruct Hall as [Hl Hc]; [lia|]. split; [|done].
    rewrite Ht. assert (String.length text = Z.to_nat (b - a + 1)) as -> by (unfold strlen in Hl; lia).
    apply substring_longer. unfold strlen in Hbody. lia.
Qed.
End deliver.

(** ** Witnesses *)

(** A stream that reads a text in memory. *)
Definition text_stream (body : string) : StorageReadStream :=
  λ position n, Some (String.substring (Z.to_nat position) (Z.to_nat n) body).

Lemma text_stream_serves body : serves (text_stream body) body.
Proof.
  intros position n Hp Hn. eexists. split; [done|]. unfold strlen in *.
  rewrite length_substring, substring_min. split; [lia|done].
Qed.

(** A store of one blob. *)
Definition memory_store (data : string) : IBlobStore := {|
  PromoteToFinal := λ _ _ _, Err (err FileReadError);
  OpenBlobRangeForRead := λ _ _ start n,
    Ok (text_stream (String.substring (Z.to_nat start) (Z.to_nat n) data));
  BlobExists := λ _ _, Ok true;
  GetLocalBlobPathForDownload := λ _, None;
  GetBlobSize := λ _ _, Ok (strlen data);
  DeleteBlob := λ _ _, Ok tt;
  ListFinalObjects := λ _ _ _, Ok (mkStorageInventoryPage [] "" false)
|}.

Definition example_params : DownloadParams :=
  mkDownloadParams (mkBlobDescriptor 9 "m" "p/9" 11) "greeting.txt" 11 "text/plain" "" "bytes=6-".

Lemma download_delivers_range_witness : ∃ response e' stream blob start text st,
  BuildDownloadResponse [] (Some (memory_store "hello world")) example_params
    (mkEnv (empty_db 0) [] AutoCommit []) = (Ret response, e') ∧
  hr_status response = Some 206 ∧ hr_body response = StreamBody stream blob start 5 ∧
  deliver [] stream blob start 5 [2; 2; 2; 2; 2; 2] (fresh_stream 5) e' = (Ret (text, st), e') ∧
  text = "world"%string.
Proof.
  destruct (download_delivers_range [] (memory_store "hello world") example_params "hello world"
    (Some (From 6)) (mkEnv (empty_db 0) [] AutoCommit []))
    as (response & e' & Hb & _ & _ & Hst & _ & _ & stream & blob & start & Hbody & Hd).
  - split_and!; [done| |done]. intros h start n _. eexists. split; [done|]. apply text_stream_serves.
  - reflexivity.
  - done.
  - done.
  - reflexivity.
  - destruct (Hd [2; 2; 2; 2; 2; 2] e') as (text & st & Hdel & _ & Hall); [by repeat constructor|].
    exists response, e', stream, blob, start, text, st.
    split_and!; [exact Hb|exact Hst|exact Hbody|exact Hdel|]. apply Hall. reflexivity.
Defined.

(** A suffix range of an empty file is answered, with an interval that has no bytes and an
    end that wrapped around. *)
Lemma empty_file_suffix_range :
  RangeRequest_Parse "bytes=-5" 0 = mkRangeRequest true 0 u64_max true 0 ∧
  ∃ response e', BuildDownloadResponse [] (Some (memory_store ""))
      (mkDownloadParams (mkBlobDescriptor 9 "m" "p/9" 0) "empty.txt" 0 "text/plain" "" "bytes=-5")
      (mkEnv (empty_db 0) [] AutoCommit []) = (Ret response, e') ∧
    hr_status response = Some 206 ∧
    ("Content-Range", "bytes 0-18446744073709551615/0")%string ∈ hr_headers response ∧
    ("Content-Length", "0")%string ∈ hr_headers response.
Proof.
  split; [vm_compute; reflexivity|]. eexists _, _. split; [vm_compute; reflexivity|].
  split_and!; [reflexivity|by left|by do 2 right; left].
Qed.
