(* ===== verification/Lifecycle.v ===== *)
(** * The upload lifecycle

    [src/src/services/UploadLifecycleService.cpp]: initializing, completing,
    cancelling and expiring uploads, as compositions of the task repository, the
    quota, content and folder services, the job queue and the object stores.  Each
    handler is a computation on the database session; the uuid generator, the clock
    of the server, the digest function and the configuration are parameters.
    Logging, metrics and the test-only pauses change no state and are left out. *)

From S2P Require Import Prelude Errors Storage Db UploadState Json Schema Names Quota UploadTasks.
From S2P Require Import StorageJobs Content JobContract Files Folders Reconciliation.

Local Open Scope string_scope.

(** ** Data *)

Inductive InitDecisionType := InstantUpload | ResumeUpload | StartNewUpload.

Record InitDecision := mkInitDecision { id_type : InitDecisionType; id_upload_id : string }.

Record ChunkAcceptanceError := mkChunkAcceptanceError {
  ca_error : ErrorInfo;
  ca_expected_size : Z
}.

Inductive FinalizeStorageDecisionType := ReuseExistingContent | PromoteAsNewContent.

Record FinalizeStorageDecision := mkFinalizeStorageDecision {
  fs_type : FinalizeStorageDecisionType;
  fs_existing_content_id : option Z
}.

Record UploadCacheInvalidation := mkUploadCacheInvalidation {
  ci_upload_task_ids : list string;
  ci_file_list_folder_ids : list Z
}.

Record UploadExpirationBatchResult := mkUploadExpirationBatchResult {
  eb_candidates : Z;
  eb_expired : Z
}.

Definition ShouldContinueExpirationScan (candidates limit : Z) : bool :=
  (0 <? limit)%Z && (candidates =? limit)%Z.

Record LifecycleFileItem := mkLifecycleFileItem {
  li_id : Z;
  li_name : string;
  li_size : Z;
  li_hash : string;
  li_mime_type : string;
  li_parent_id : Z;
  li_created_at : Z
}.

Record InitUploadCommand := mkInitUploadCommand {
  ic_filename : string;
  ic_file_size : Z;
  ic_file_hash : string;
  ic_parent_id : Z;
  ic_user_id : Z;
  ic_max_file_size : Z;
  ic_chunk_size : Z;
  ic_expiry_seconds : Z;
  ic_upload_task_creation_enabled : bool
}.

Record InitUploadOutcome := mkInitUploadOutcome {
  io_upload_id : string;
  io_chunk_size : Z;
  io_total_chunks : Z;
  io_uploaded_chunks : list Z;
  io_instant_upload : bool;
  io_file : option LifecycleFileItem;
  io_invalidation : UploadCacheInvalidation
}.

Record CompleteUploadCommand := mkCompleteUploadCommand {
  cc_upload_id : string;
  cc_user_id : Z;
  cc_lease_owner : string;
  cc_lease_duration_seconds : Z
}.

Record CompleteUploadOutcome := mkCompleteUploadOutcome {
  co_file : option LifecycleFileItem;
  co_invalidation : UploadCacheInvalidation
}.

(** ** Decisions *)

Definition DecideInitFlow (has_existing_content : bool) (existing_task_id : string)
  : InitDecision :=
  if has_existing_content then mkInitDecision InstantUpload ""
  else if negb (str_empty existing_task_id) then mkInitDecision ResumeUpload existing_task_id
  else mkInitDecision StartNewUpload "".

(** [chunk_index], [chunk_size] and [total_chunks] are [uint32_t], the sizes are
    [uint64_t]: the product and the difference wrap around.  The value is the
    expected size. *)
Definition ValidateChunkAcceptance (chunk_index data_size file_size chunk_size total_chunks : Z)
  : Z + ChunkAcceptanceError :=
  if (total_chunks <=? chunk_index)%Z then
    inr (mkChunkAcceptanceError (mkErrorInfo ValidationFailed "Chunk index out of range") 0)
  else
    let chunk_offset := u64 (chunk_index * chunk_size) in
    let remaining_bytes := u64 (file_size - chunk_offset) in
    let expected_size := Z.min chunk_size remaining_bytes in
    if negb (data_size =? expected_size)%Z then
      inr (mkChunkAcceptanceError (mkErrorInfo ValidationFailed "Unexpected chunk size")
             expected_size)
    else inl expected_size.

Definition DecideFinalizeStorage (existing_content_id : option Z) : FinalizeStorageDecision :=
  match existing_content_id with
  | Some id => mkFinalizeStorageDecision ReuseExistingContent (Some id)
  | None => mkFinalizeStorageDecision PromoteAsNewContent None
  end.

(** ** Files *)

Definition ToLifecycleFileItem (file : file_row) (hash : string) : LifecycleFileItem :=
  mkLifecycleFileItem file.1 (f_name file.2) (f_size file.2) hash (f_mime_type file.2)
    (f_folder_id file.2) (f_created_at file.2).

Definition FindCompletedFile (file_id user_id : Z) : M Database (option LifecycleFileItem) :=
  query (λ d, f ← files d !! file_id;
    if (f_user_id f =? user_id)%Z
    then Some (ToLifecycleFileItem (file_id, f)
                 (default "" (c_hash_md5 <$> file_contents d !! f_content_id f)))
    else None).

Definition IsFilenameExists (folder_id : Z) (filename : string) (user_id : Z)
  : M Database bool :=
  catch_db
    (query (λ d, (0 <? count_rows (file_named user_id folder_id filename) (files d))%Z))
    (mret false).

Definition InsertFileRecord (user_id content_id folder_id : Z) (filename extension : string)
    (size : Z) (mime_type path : string) : M Database (Result file_row) :=
  r ← exec (λ d, insert_file_statement
        (mkFileRow user_id content_id folder_id filename extension size mime_type path 0 0
           (now d) (now d)) d);
  mret (match (r : option file_row) with
        | None => Err (err FileAlreadyExists)
        | Some file => Ok file
        end).

(** ** Leases *)

Definition LeaseConflictError : ErrorInfo :=
  mkErrorInfo ResourceConflict "Upload finalization is owned by another lease; retry later".

Definition internal {A} (what : string) : Result A := Err (mkErrorInfo InternalError what).

(** The wrapper around [UploadTaskRepository::RenewFinalizeLease]. *)
Definition RenewLeaseFor (command : CompleteUploadCommand) (state_version : Z)
  : M Database (Result Z) :=
  catch_all
    (renewed_version ← RenewFinalizeLease (cc_upload_id command) (cc_user_id command)
       (cc_lease_owner command) state_version (cc_lease_duration_seconds command);
     mret (match (renewed_version : option Z) with
           | None => Err LeaseConflictError
           | Some v => Ok v
           end))
    (mret (internal "Failed to renew upload finalize lease")).

Definition RecordFinalizeErrorBestEffort (command : CompleteUploadCommand) (state_version : Z)
    (error_code : Code) : M Database unit :=
  catch_all
    (_ ← RecordFinalizeErrorIfLeaseOwned (cc_upload_id command) (cc_user_id command)
           (cc_lease_owner command) state_version (ToInt error_code);
     mret tt)
    (mret tt).

(** A failed completion: the error is recorded on the task and returned. *)
Definition fail_completion {A} (command : CompleteUploadCommand) (state_version : Z)
    (e : ErrorInfo) : M Database (Result A) :=
  _ ← RecordFinalizeErrorBestEffort command state_version (code e);
  mret (Err e).

(** ** Cancelling and expiring *)

(** What an upload that ends without a file gives back, in the transaction that
    ends it: its reservation, its staging area (by a cleanup job) and its chunks. *)
Definition release_upload (upload_id : string) (user_id : Z) (record : TransitionRecord)
  : M Database (Result (option Z)) :=
  let cleanup := tr_cleanup record in
  let* _ := ReleaseReservedStorageChecked user_id (cr_reserved_bytes cleanup) in
  (_ ← Enqueue (BuildStagingCleanupJob (cr_staging_session cleanup));
   _ ← DeleteChunks upload_id;
   mret (Ok (Some (tr_state_version record)))).

(** The transaction of [CancelInProgressUpload]: the version the task moved to, or
    nothing when the task could not be cancelled. *)
Definition cancel_body (upload_id : string) (user_id : Z) : M Database (Result (option Z)) :=
  cancelled_record ← MarkCancelledIfInProgressReturning upload_id user_id "用户取消";
  match (cancelled_record : option TransitionRecord) with
  | None => mret (Ok None)
  | Some record => release_upload upload_id user_id record
  end.

Definition CannotCancel : ErrorInfo :=
  mkErrorInfo ResourceConflict "Upload task cannot be cancelled while finalizing or completed".
Definition CancelRaced : ErrorInfo :=
  mkErrorInfo ResourceConflict "Upload task state changed during cancellation".

(** What a request to cancel a task in state [current] answers. *)
Definition cancel_answer (current : option UploadTaskCancellationState) : Result Z :=
  match current with
  | None => Err (err UploadTaskNotFound)
  | Some state =>
      if cs_task_expired state && (cs_status state =? UploadToStorageValue InProgress)%Z
      then Err (err UploadTaskNotFound)
      else match DecideCancelRequest (cs_status state) with
           | ReplayCancelled => Ok (cs_state_version state)
           | RejectConflict => Err CannotCancel
           | RejectTerminalCancel => Err (err UploadTaskNotFound)
           | Cancel => Err CancelRaced
           end
  end.

Definition CancelInProgressUpload (upload_id : string) (user_id : Z) : M Database (Result Z) :=
  let* transitioned := Run (err InternalError) (cancel_body upload_id user_id) in
  match transitioned with
  | Some state_version => mret (Ok state_version)
  | None =>
      current_state ← FindCancellationStateByIdForUser upload_id user_id;
      mret (cancel_answer current_state)
  end.

Definition expire_body (upload_id : string) : M Database (Result (option Z)) :=
  expired_record ← MarkExpiredIfInProgressReturning upload_id "任务过期";
  match (expired_record : option TransitionRecord) with
  | None => mret (Ok None)
  | Some record => release_upload upload_id (cr_user_id (tr_cleanup record)) record
  end.

Definition ExpireInProgressUpload (upload_id : string) : M Database (Result bool) :=
  let* transitioned := Run (err InternalError) (expire_body upload_id) in
  mret (Ok (match transitioned with Some _ => true | None => false end)).

Fixpoint expire_each (tasks : list UploadTaskCleanupRecord) (cleaned_count : Z)
  : M Database (Result Z) :=
  match tasks with
  | [] => mret (Ok cleaned_count)
  | task :: tasks =>
      let* expired := ExpireInProgressUpload (cr_id task) in
      expire_each tasks (if expired then (cleaned_count + 1)%Z else cleaned_count)
  end.

Definition ExpireInProgressUploads (limit : Z) : M Database (Result UploadExpirationBatchResult) :=
  if (limit =? 0)%Z || (kMaxExpireUploadsPageSize <? limit)%Z then
    mret (Err (mkErrorInfo ValidationFailed "Invalid upload expiration batch size"))
  else
    expired_tasks ← FindExpiredInProgressBatch limit;
    let* cleaned_count := expire_each expired_tasks 0 in
    mret (Ok (mkUploadExpirationBatchResult (Z.of_nat (length expired_tasks)) cleaned_count)).

(** ** Initializing *)

Section service.
(** The digest function, the uuid generator, the server's clock, the configured
    staging backend and S3 prefix, and the two stores (absent when null). *)
Context (HashSha256 : string → string) (getUuid : string) (Date_now : Z)
  (GetUploadStagingBackend : UploadStagingBackend) (s3_staging_prefix : string)
  (m_upload_staging_storage : option UploadStagingStorage) (m_blob_store : option IBlobStore).

Definition invalidate (tasks : list string) (folders : list Z) : UploadCacheInvalidation :=
  mkUploadCacheInvalidation tasks folders.

(** The combined query: the path of the parent folder and the number of files of
    that name in it. *)
Definition init_lookup (command : InitUploadCommand) (d : Database) : option string * Z :=
  (kf ← owned_folder (ic_parent_id command) (ic_user_id command) d; Some (d_path kf.2),
   count_rows (file_named (ic_user_id command) (ic_parent_id command) (ic_filename command))
     (files d)).

(** The transaction of an instant upload. *)
Definition instant_body (command : InitUploadCommand) (content_id : Z) (mime_type : string)
  : M Database (Result file_row) :=
  exists_already ← IsFilenameExists (ic_parent_id command) (ic_filename command)
                     (ic_user_id command);
  if (exists_already : bool) then mret (Err (err FileAlreadyExists))
  else
  let* _ := ConsumeUsedStorage (ic_user_id command) (ic_file_size command) in
  let* _ := IncrementRefCount content_id 1 in
  let* parent_location := ResolveOwnedFolderLocation (ic_parent_id command)
                            (ic_user_id command) in
  let* file := InsertFileRecord (ic_user_id command) content_id (ic_parent_id command)
                 (ic_filename command) (ExtractFileExtension (ic_filename command))
                 (ic_file_size command) mime_type
                 (BuildFilePath (fl_path parent_location) (ic_filename command)) in
  (_ ← (if (0 <? ic_parent_id command)%Z
        then ApplyItemCountDelta (ic_parent_id command) (ic_user_id command) 1 Date_now
        else mret false);
   mret (Ok file)).

Definition instant_upload (command : InitUploadCommand) (content : ContentMetadata)
  : M Database (Result InitUploadOutcome) :=
  let* file := Run (mkErrorInfo InternalError "Failed to create file record")
                 (instant_body command (cm_id content) (cm_mime_type content)) in
  mret (Ok (mkInitUploadOutcome "" 0 0 [] true
    (Some (ToLifecycleFileItem file (ic_file_hash command)))
    (invalidate [] [ic_parent_id command]))).

(** The answer for a task that is already under way. *)
Definition resume_outcome (upload_id : string) (task : UploadTaskRow)
    (pending : list string) : M Database (Result InitUploadOutcome) :=
  uploaded_chunks ← ListUploadedChunkIndices upload_id;
  mret (Ok (mkInitUploadOutcome upload_id (u32 (t_chunk_size task)) (u32 (t_total_chunks task))
    uploaded_chunks false None (invalidate (pending ++ [upload_id])%list []))).

(** [((file_size - 1) / chunk_size) + 1] on [uint64_t]. *)
Definition total_chunks_u64 (file_size chunk_size : Z) : Z :=
  u64 (u64 (file_size - 1) / chunk_size + 1).

Definition new_staging_session (upload_id : string) : UploadStagingSession :=
  mkUploadStagingSession upload_id GetUploadStagingBackend
    (match GetUploadStagingBackend with
     | StagingS3 => s3_staging_prefix ++ "/" ++ upload_id
     | StagingLocal => upload_id
     end).

Definition new_task (command : InitUploadCommand) (upload_id : string) (total_chunks : Z)
  : NewUploadTask :=
  mkNewUploadTask upload_id (ic_user_id command) (ic_parent_id command) (ic_filename command)
    (ic_file_size command) (ic_file_hash command) (i32 (ic_chunk_size command))
    (i32 total_chunks) (ic_file_size command) upload_id (UploadToStorageValue InProgress).

(** The transaction of a new upload: another session's task for the same file, or
    the row created. *)
Definition create_body (command : InitUploadCommand) (task : NewUploadTask)
    (session : UploadStagingSession)
  : M Database (Result ((string * UploadTaskRow) + UploadTaskRow)) :=
  _ ← AcquireUploadInitLock (ic_user_id command) (ic_file_hash command);
  concurrent_task ← FindActiveByUserAndHash (ic_user_id command) (ic_file_hash command);
  match (concurrent_task : option (string * UploadTaskRow)) with
  | Some t => mret (Ok (inl t))
  | None =>
      let* _ := ReserveStorage (ic_user_id command) (ic_file_size command) in
      (row ← Create task session (u32 (ic_expiry_seconds command));
       mret (Ok (inr row)))
  end.

(** [InitializeUpload] from the checks of a new task on. *)
Definition start_new_upload (command : InitUploadCommand) (pending : list string)
  : M Database (Result InitUploadOutcome) :=
  if negb (ic_upload_task_creation_enabled command) then
    mret (Err (err UploadTaskCreationDisabled))
  else if (ic_chunk_size command =? 0)%Z then
    mret (internal "Invalid upload chunk size configuration")
  else
  let total_chunks := total_chunks_u64 (ic_file_size command) (ic_chunk_size command) in
  if (u32_max <? total_chunks)%Z then
    mret (Err (mkErrorInfo ValidationFailed "File requires too many chunks"))
  else
  let upload_id := getUuid in
  let staging_session := new_staging_session upload_id in
  let* created := Run (mkErrorInfo InternalError "Failed to create upload task")
                    (create_body command (new_task command upload_id total_chunks)
                       staging_session) in
  match created with
  | inl (concurrent_upload_id, task) => resume_outcome concurrent_upload_id task pending
  | inr task =>
      _ ← match m_upload_staging_storage with
          | None => mret (Ok tt)
          | Some storage =>
              call_storage (CallEnsureUploadSession staging_session)
                (λ h, EnsureUploadSession storage h staging_session)
          end;
      mret (Ok (mkInitUploadOutcome upload_id (u32 (t_chunk_size task))
        (u32 (t_total_chunks task)) [] false None
        (invalidate (pending ++ [upload_id])%list [])))
  end.

Definition InitializeUpload (command : InitUploadCommand)
  : M Database (Result InitUploadOutcome) :=
  if (ic_max_file_size command <? ic_file_size command)%Z then
    mret (Err (mkErrorInfo ValidationFailed "File size exceeds maximum allowed size"))
  else
  row ← query (init_lookup command);
  let '(folder_path, filename_count) := (row : option string * Z) in
  if negb (ic_parent_id command =? 0)%Z && bool_decide (folder_path = None) then
    mret (Err (err FolderNotFound))
  else if (0 <? filename_count)%Z then mret (Err (err FileAlreadyExists))
  else
  existing_content ← FindByMd5 (ic_file_hash command);
  existing_task ← FindActiveByUserAndHash (ic_user_id command) (ic_file_hash command);
  let existing_content : option ContentMetadata := existing_content in
  let existing_task : option (string * UploadTaskRow) := existing_task in
  let init_decision := DecideInitFlow (bool_decide (is_Some existing_content))
                         (default "" (fst <$> existing_task)) in
  match id_type init_decision, existing_content, existing_task with
  | InstantUpload, Some content, _ => instant_upload command content
  | ResumeUpload, _, Some (task_id, task) =>
      let* expired := ExpireInProgressUpload task_id in
      (if (expired : bool) then start_new_upload command [task_id]
       else resume_outcome task_id task [])
  | _, _, _ => start_new_upload command []
  end.

(** ** Completing *)

(** A failed assembly whose chunks do not match is reported, and a scan of the
    staging area scheduled; neither may fail the request. *)
Definition TriggerStagingReconciliationBestEffort (session : UploadStagingSession)
    (command : CompleteUploadCommand) (state_version : Z) : M Database unit :=
  let scan_id := "upload-integrity-" ++
                 String.substring 0 32 (HashSha256 (cc_upload_id command)) in
  let details := JObject
    [("scan_id", JString scan_id);
     ("staging_backend", JString (BackendToStorageValue (ss_backend session)));
     ("state_version", JInt state_version);
     ("error_code", JInt (ToInt ChunkVerifyFailed));
     ("lease_owner", JString (cc_lease_owner command))] in
  _ ← catch_all
        (RecordFinding (mkReconciliationFinding kUploadStagingMismatchFindingType
           (cc_upload_id command) (Some (ss_prefix session)) Critical Manual details))
        (mret tt);
  match BuildStorageReconcileJob HashSha256
          (mkReconciliationPageRequest scan_id Staging 0 "" kMaxObjectReconciliationPageSize) with
  | Unexpected _ => mret tt
  | Value job => catch_all (_ ← EnqueueOrRearmSucceeded job; mret tt) (mret tt)
  end.

(** A task whose result was already committed: its file is looked up again. *)
Definition replay_completed (command : CompleteUploadCommand) (completed_file_id : option Z)
  : M Database (Result CompleteUploadOutcome) :=
  match completed_file_id with
  | None => mret (internal "Completed upload result is unavailable")
  | Some file_id =>
      catch_all
        (completed_file ← FindCompletedFile file_id (cc_user_id command);
         mret (match (completed_file : option LifecycleFileItem) with
               | None => internal "Completed upload result is unavailable"
               | Some file => Ok (mkCompleteUploadOutcome (Some file)
                   (invalidate [cc_upload_id command] [li_parent_id file]))
               end))
        (mret (internal "Failed to load completed upload result"))
  end.

(** The transaction that turns a promoted blob into a file. *)
Definition finalize_body (command : CompleteUploadCommand) (upload_task : UploadTaskRow)
    (staging_session : UploadStagingSession) (state_version : Z) (content : NewContent)
    (existing_content_id : option Z) : M Database (Result file_row) :=
  let* transaction_state_version := RenewLeaseFor command state_version in
  let* acquired := AcquireReference content existing_content_id in
  let* parent_location := ResolveOwnedFolderLocation (t_folder_id upload_task)
                            (cc_user_id command) in
  let* file := InsertFileRecord (cc_user_id command) (cm_id acquired) (t_folder_id upload_task)
                 (t_filename upload_task) (ExtractFileExtension (t_filename upload_task))
                 (t_file_size upload_task) ""
                 (BuildFilePath (fl_path parent_location) (t_filename upload_task)) in
  (_ ← (if (0 <? t_folder_id upload_task)%Z
        then ApplyItemCountDelta (t_folder_id upload_task) (cc_user_id command) 1 Date_now
        else mret false);
   let* _ := CommitReservedToUsed (cc_user_id command) (t_file_size upload_task) in
   (finalize_success ← MarkCompletedIfLeaseOwned (cc_upload_id command) (cc_user_id command)
                         (cc_lease_owner command) transaction_state_version file.1;
    if negb finalize_success then
      mret (Err (mkErrorInfo ResourceConflict "Upload finalization lease changed before commit"))
    else
    (_ ← Enqueue (BuildStagingCleanupJob staging_session);
     _ ← DeleteChunks (cc_upload_id command);
     mret (Ok file)))).

(** From the second renewal of the lease to the answer. *)
Definition commit_upload (command : CompleteUploadCommand) (upload_task : UploadTaskRow)
    (staging_session : UploadStagingSession) (state_version : Z) (content : NewContent)
    (existing_content_id : option Z) : M Database (Result CompleteUploadOutcome) :=
  let* state_version := RenewLeaseFor command state_version in
  (tx_result ← Run (err InternalError)
     (finalize_body command upload_task staging_session state_version content
        existing_content_id);
   match (tx_result : Result file_row) with
   | Err e => fail_completion command state_version e
   | Ok file =>
       mret (Ok (mkCompleteUploadOutcome
         (Some (ToLifecycleFileItem file (nc_hash_md5 content)))
         (invalidate [cc_upload_id command] [f_folder_id file.2])))
   end).

Section finalize.
Context (command : CompleteUploadCommand) (upload_task : UploadTaskRow)
  (staging_session : UploadStagingSession) (storage : UploadStagingStorage).

Definition discard (assembled : UploadStagingAssembly) : M Database (Result unit) :=
  call_storage (CallDiscardAssembly staging_session assembled)
    (λ h, DiscardAssembly storage h staging_session assembled).

(** Where the content of the file lives: the blob of an identical content, or the
    assembled object promoted to its final place. *)
Definition place_content (state_version : Z) (assembled : UploadStagingAssembly)
    (existing_content : option ContentMetadata) : M Database (Result CompleteUploadOutcome) :=
  let matching_content := c ← existing_content;
    if (cm_hash_sha256 c =? sa_sha256_hash assembled) &&
       (cm_size c =? sa_size_bytes assembled)%Z
    then Some c else None in
  let decision := DecideFinalizeStorage (cm_id <$> matching_content) in
  let content storage_path := mkNewContent (sa_md5_hash assembled) (sa_sha256_hash assembled)
                                (u64 (t_file_size upload_task)) storage_path "" in
  match fs_type decision, matching_content with
  | ReuseExistingContent, Some c =>
      commit_upload command upload_task staging_session state_version
        (content (cm_storage_path c)) (fs_existing_content_id decision)
  | _, _ =>
      match m_blob_store with
      | None =>
          _ ← discard assembled;
          fail_completion command state_version
            (mkErrorInfo InternalError "Blob store is not configured")
      | Some blob_store =>
          promoted ← call_storage (CallPromoteToFinal assembled (sa_sha256_hash assembled))
                       (λ h, PromoteToFinal blob_store h assembled (sa_sha256_hash assembled));
          match (promoted : Result string) with
          | Err e => fail_completion command state_version e
          | Ok path =>
              commit_upload command upload_task staging_session state_version (content path)
                (fs_existing_content_id decision)
          end
      end
  end.

(** Whether the assembled object is the file that was announced. *)
Definition integrity_ok (assembled : UploadStagingAssembly) : bool :=
  (sa_size_bytes assembled =? u64 (t_file_size upload_task))%Z &&
  (sa_md5_hash assembled =? t_file_hash upload_task).

(** The lookups before the storage decision; the second one may fail. *)
Definition finalize_lookup (final_hash : string)
  : M Database (option ContentMetadata * bool) :=
  existing_content ← FindByMd5 final_hash;
  filename_exists ← catch_db
    (query (λ d, exists_row (file_named (cc_user_id command) (t_folder_id upload_task)
                               (t_filename upload_task)) (files d)))
    (mret false);
  mret (existing_content, filename_exists).

(** From the renewal after assembly on: a lost lease, a corrupt object and a taken
    name discard the assembly. *)
Definition verify_assembly (state_version : Z) (assembled : UploadStagingAssembly)
  : M Database (Result CompleteUploadOutcome) :=
  renewed ← RenewLeaseFor command state_version;
  match (renewed : Result Z) with
  | Err e => _ ← discard assembled; mret (Err e)
  | Ok state_version =>
      if negb (integrity_ok assembled) then
        _ ← discard assembled;
        fail_completion command state_version
          (mkErrorInfo ChunkVerifyFailed "File hash verification failed")
      else
        lookup ← finalize_lookup (sa_md5_hash assembled);
        let '(existing_content, filename_exists) := (lookup : option ContentMetadata * bool) in
        if (filename_exists : bool) then
          _ ← discard assembled;
          fail_completion command state_version (err FileAlreadyExists)
        else place_content state_version assembled existing_content
  end.

Definition assemble (state_version : Z) (chunks : list UploadStagingChunk)
  : M Database (Result CompleteUploadOutcome) :=
  let total_chunks := u32 (t_total_chunks upload_task) in
  assemble_result ← call_storage
    (CallAssembleChunks staging_session state_version total_chunks chunks)
    (λ h, AssembleChunks storage h staging_session state_version total_chunks chunks);
  match (assemble_result : Result UploadStagingAssembly) with
  | Err e =>
      _ ← RecordFinalizeErrorBestEffort command state_version (code e);
      _ ← (if decide (code e = ChunkVerifyFailed)
           then TriggerStagingReconciliationBestEffort staging_session command state_version
           else mret tt);
      mret (Err e)
  | Ok assembled => verify_assembly state_version assembled
  end.
End finalize.

(** The load of the metadata of a claimed task. *)
Definition finalize_upload (command : CompleteUploadCommand) (state_version : Z)
  : M Database (Result CompleteUploadOutcome) :=
  task ← FindByIdForUser (cc_upload_id command) (cc_user_id command);
  match (task : option UploadTaskRow) with
  | None => mret (internal "Failed to load claimed upload task")
  | Some upload_task =>
      session ← catch_all (FindStagingSessionForUser (cc_upload_id command) (cc_user_id command))
                  (mret None);
      match (session : option UploadStagingSession) with
      | None => fail_completion command state_version
                  (mkErrorInfo InternalError "Failed to load upload staging session")
      | Some staging_session =>
          chunks ← catch_all (l ← ListChunksForAssembly (cc_upload_id command); mret (Some l))
                     (mret None);
          match (chunks : option (list UploadStagingChunk)), m_upload_staging_storage with
          | None, _ => fail_completion command state_version
                         (mkErrorInfo InternalError "Failed to load upload chunk descriptors")
          | Some _, None =>
              fail_completion command state_version
                (mkErrorInfo InternalError "Upload staging storage is not configured")
          | Some chunks, Some storage =>
              assemble command upload_task staging_session storage state_version chunks
          end
      end
  end.

Definition CompleteUpload (command : CompleteUploadCommand)
  : M Database (Result CompleteUploadOutcome) :=
  let* claim_result := catch_all
    (c ← ClaimFinalizeLease (cc_upload_id command) (cc_user_id command)
           (cc_lease_owner command) (cc_lease_duration_seconds command);
     mret (Ok c))
    (mret (internal "Failed to claim upload finalize lease")) in
  match fc_disposition claim_result with
  | Acquired => finalize_upload command (fc_state_version claim_result)
  | IncompleteChunks => mret (Err (mkErrorInfo ValidationFailed "Not all chunks uploaded"))
  | LeaseHeld => mret (Err LeaseConflictError)
  | CompletedReplay => replay_completed command (fc_completed_file_id claim_result)
  | Terminal | NotFound => mret (Err (err UploadTaskNotFound))
  end.
End service.

(** ** The transactions only touch the database through statements *)

Ltac unfold_repository :=
  unfold ResolveOwnedFolderLocation, ApplyItemCountDelta, IsFilenameExists, InsertFileRecord,
    RenewLeaseFor, RenewFinalizeLease, ValidateLeaseArguments, MarkCompletedIfLeaseOwned,
    DeleteChunks, MarkCancelledIfInProgressReturning, MarkExpiredIfInProgressReturning,
    transition_record, ToUploadTaskCleanupRecord, AcquireUploadInitLock,
    FindActiveByUserAndHash, Create.

#[export] Instance tx_body_location f u : TxBody (ResolveOwnedFolderLocation f u).
Proof. unfold_repository. solve_tx_body. Qed.
#[export] Instance tx_body_item_count f u n t : TxBody (ApplyItemCountDelta f u n t).
Proof. unfold_repository. solve_tx_body. Qed.
#[export] Instance tx_body_filename f n u : TxBody (IsFilenameExists f n u).
Proof. unfold_repository. solve_tx_body. Qed.
#[export] Instance tx_body_insert_file u c f n x s m p : TxBody (InsertFileRecord u c f n x s m p).
Proof. unfold_repository. solve_tx_body. Qed.
#[export] Instance tx_body_renew command v : TxBody (RenewLeaseFor command v).
Proof. unfold_repository. solve_tx_body. Qed.
#[export] Instance tx_body_mark_completed i u o v f : TxBody (MarkCompletedIfLeaseOwned i u o v f).
Proof. unfold_repository. solve_tx_body. Qed.
#[export] Instance tx_body_delete_chunks i : TxBody (DeleteChunks i).
Proof. unfold_repository. solve_tx_body. Qed.
#[export] Instance tx_body_transition i r : TxBody (transition_record i r).
Proof. unfold_repository. solve_tx_body. Qed.
#[export] Instance tx_body_mark_cancelled i u r :
  TxBody (MarkCancelledIfInProgressReturning i u r).
Proof. unfold MarkCancelledIfInProgressReturning. solve_tx_body. Qed.
#[export] Instance tx_body_mark_expired i r : TxBody (MarkExpiredIfInProgressReturning i r).
Proof. unfold MarkExpiredIfInProgressReturning. solve_tx_body. Qed.
#[export] Instance tx_body_create t s n : TxBody (Create t s n).
Proof. unfold_repository. solve_tx_body. Qed.
#[export] Instance tx_body_find_active u h : TxBody (FindActiveByUserAndHash u h).
Proof. unfold_repository. solve_tx_body. Qed.
#[export] Instance tx_body_init_lock u h : TxBody (AcquireUploadInitLock u h).
Proof. unfold_repository. solve_tx_body. Qed.
#[export] Instance tx_body_release n u : TxBody (ReleaseReservedStorageChecked u n).
Proof. exact (tx_body_account (Account.Release n) u). Qed.
#[export] Instance tx_body_commit n u : TxBody (CommitReservedToUsed u n).
Proof. exact (tx_body_account (Account.CommitRes n) u). Qed.
#[export] Instance tx_body_consume n u : TxBody (ConsumeUsedStorage u n).
Proof. exact (tx_body_account (Account.Consume n) u). Qed.
#[export] Instance tx_body_reserve n u : TxBody (ReserveStorage u n).
Proof. exact (tx_body_account (Account.Reserve n) u). Qed.

#[export] Instance tx_body_release_upload i u r : TxBody (release_upload i u r).
Proof. unfold release_upload. solve_tx_body. Qed.
#[export] Instance tx_body_cancel_body i u : TxBody (cancel_body i u).
Proof. unfold cancel_body. solve_tx_body. Qed.
#[export] Instance tx_body_expire_body i : TxBody (expire_body i).
Proof. unfold expire_body. solve_tx_body. Qed.
#[export] Instance tx_body_instant_body t c i m : TxBody (instant_body t c i m).
Proof. unfold instant_body. solve_tx_body. Qed.
#[export] Instance tx_body_create_body c t s : TxBody (create_body c t s).
Proof. unfold create_body. solve_tx_body. Qed.
#[export] Instance tx_body_finalize_body n c t s v k e : TxBody (finalize_body n c t s v k e).
Proof. unfold finalize_body. solve_tx_body. Qed.
