(* ===== verification/Cleanup.v ===== *)
(** * Cleaning up on demand

    [src/src/services/CleanupService.cpp]: an administrator expires the trash and the uploads at
    once, with the operations of [Trash.v] and [Lifecycle.v] that the worker runs page by page. *)

From S2P Require Import Prelude Errors Storage Db UploadState Json Schema Trash Lifecycle.

Local Open Scope Z_scope.

Section cleanup.
(** The texts of real numbers. *)
Context (real_text : Z → Z → string).

Definition kUploadTaskCleanupBatchSize : Z := 100.
Definition kTrashFetchBatchSize : Z := 100.
Definition kMaxTrashBatchesPerRun : Z := 20.

Record CleanupRunResult := mkCleanupRunResult {
  cl_expired_trash_deleted : Z;
  cl_expired_upload_tasks_cleaned : Z
}.

Definition CleanupExpiredTrash : M Database (Result Z) :=
  CleanupExpiredTrashItems real_text kTrashFetchBatchSize kMaxTrashBatchesPerRun.

Definition CleanupExpiredUploadTasks : M Database (Result Z) :=
  catch_all
    (let* cleanup_result := ExpireInProgressUploads kUploadTaskCleanupBatchSize in
     mret (Ok (i32 (eb_expired cleanup_result))))
    (mret (Err (mkErrorInfo InternalError "Failed to clean expired upload tasks"))).

Definition RunExpiredCleanupOnce : M Database (Result CleanupRunResult) :=
  trash_result ← CleanupExpiredTrash;
  upload_result ← CleanupExpiredUploadTasks;
  mret (t ← (trash_result : Result Z); u ← (upload_result : Result Z); Ok (mkCleanupRunResult t u)).

(** A handler that turns every exception into an answer. *)
Lemma catch_all_answers {A} (m : M Database A) (a : A) e :
  ∃ r e', catch_all m (mret a) e = (Ret r, e').
Proof. unfold catch_all, catch. destruct (m e) as [[r|x] e']; by eexists _, _. Qed.

(** The trash stage answers with an error where it fails. *)
Lemma expire_pages_answers n size : ∀ after deleted e,
  ∃ r e', expire_pages real_text n size after deleted e = (Ret r, e').
Proof.
  induction n as [|n IH]; intros after deleted e; cbn [expire_pages]; [by eexists _, _|].
  unfold bind_result, mbind at 1, M_bind at 1.
  assert (∃ r e', CleanupExpiredTrashPage real_text after size e = (Ret r, e')) as (r & e' & ->).
  { unfold CleanupExpiredTrashPage. case_match; [by eexists _, _|].
    apply catch_all_answers. }
  destruct r as [page|er]; [|by eexists _, _]. cbv zeta. repeat case_match; [by eexists _, _..|apply IH].
Qed.

(** Uploads are expired although the trash could not be, and the request is always answered. *)
Lemma cleanup_runs_both e : ∃ t e1 u e2, CleanupExpiredTrash e = (Ret t, e1) ∧
  CleanupExpiredUploadTasks e1 = (Ret u, e2) ∧
  RunExpiredCleanupOnce e = (Ret (match t, u with
    | Err er, _ => Err er
    | _, Err er => Err er
    | Ok deleted, Ok cleaned => Ok (mkCleanupRunResult deleted cleaned)
    end), e2).
Proof.
  assert (∃ t e1, CleanupExpiredTrash e = (Ret t, e1)) as (t & e1 & Ht) by apply expire_pages_answers.
  assert (∃ u e2, CleanupExpiredUploadTasks e1 = (Ret u, e2)) as (u & e2 & Hu)
    by apply catch_all_answers.
  exists t, e1, u, e2. split_and!; [done..|]. unfold RunExpiredCleanupOnce.
  rewrite (bind_Ret _ _ _ _ _ Ht), (bind_Ret _ _ _ _ _ Hu). by destruct t, u.
Qed.
End cleanup.
