(* ===== verification/StorageJobWorker.v ===== *)
(** * The worker

    [src/src/services/StorageJobWorker.cpp]: claims jobs of the queue, runs the handler
    of each while a heartbeat renews its lease, and records the outcome. *)

From S2P Require Import Prelude Errors Storage Db UploadState Json Schema Batch Names UploadTasks.
From S2P Require Import StorageJobs Content JobContract MultipartJournal Files Trash Reconciliation.
From S2P Require Import ReconcileScans Lifecycle.

Local Open Scope string_scope.

(** ** Data *)

Record StorageJobWorkerOptions := mkStorageJobWorkerOptions {
  wo_batch_size : Z;
  wo_lease_duration_seconds : Z;
  wo_retry_base_seconds : Z;
  wo_retry_cap_seconds : Z
}.

Record JobExecutionResult := mkJobExecutionResult {
  je_succeeded : bool;
  je_retryable : bool;
  je_outcome_persisted : bool;
  je_error : string
}.

Record StorageJobRunResult := mkStorageJobRunResult {
  jr_claimed : Z;
  jr_succeeded : Z;
  jr_retried : Z;
  jr_dead_lettered : Z;
  jr_ownership_lost : Z
}.

Inductive PersistDisposition := DispSucceeded | DispRetried | DispDeadLettered | DispOwnershipLost.

Definition PermanentFailure (error : string) : JobExecutionResult :=
  mkJobExecutionResult false false false error.
Definition RetryableFailure (error : string) : JobExecutionResult :=
  mkJobExecutionResult false true false error.
Definition JobDone : JobExecutionResult := mkJobExecutionResult true false false "".

(** The failure of a service or a store: retried unless the request was at fault. *)
Definition service_failure (e : ErrorInfo) (error : string) : JobExecutionResult :=
  mkJobExecutionResult false
    (negb (bool_decide (code e = InvalidParameter)) && negb (bool_decide (code e = ValidationFailed)))
    false error.

(** ** Retry delays *)

Definition EffectiveWorkerClaimBatchSize (configured_batch_size concurrency : Z) : Z :=
  Z.min configured_batch_size concurrency.

Definition MixRetrySeed (value : Z) : Z :=
  let value := u64 (value + 0x9e3779b97f4a7c15) in
  let value := u64 (Z.lxor value (Z.shiftr value 30) * 0xbf58476d1ce4e5b9) in
  let value := u64 (Z.lxor value (Z.shiftr value 27) * 0x94d049bb133111eb) in
  Z.lxor value (Z.shiftr value 31).

(** The loop that doubles the delay, at most [exponent] times and up to the cap. *)
Fixpoint double_delay (exponent : nat) (cap_seconds delay : Z) : Z :=
  match exponent with
  | O => delay
  | S exponent =>
      if (delay <? cap_seconds)%Z
      then double_delay exponent cap_seconds (Z.min (u64 (delay * 2)) cap_seconds) else delay
  end.

Definition jitter (job_id attempts delay jitter_window : Z) : Z :=
  if (0 <? jitter_window)%Z then
    let seed := Z.lxor job_id (u64 (Z.shiftl attempts 32)) in
    u64 (delay + MixRetrySeed seed mod (jitter_window + 1))
  else delay.

Definition retry_delay (job_id attempts base_seconds cap_seconds : Z) : Z :=
  let exponent := Z.min (if (0 <? attempts)%Z then attempts - 1 else 0) 31 in
  let delay := double_delay (Z.to_nat exponent) cap_seconds base_seconds in
  let remaining := u64 (cap_seconds - delay) in
  u32 (jitter job_id attempts delay (Z.min (delay / 4) remaining)).

Definition ComputeRetryDelaySeconds (job_id attempts base_seconds cap_seconds : Z)
  : M Database Z :=
  if ((base_seconds =? 0) || (cap_seconds <? base_seconds))%Z
  then raise (InvalidArgument "Storage job retry delay bounds are invalid")
  else mret (retry_delay job_id attempts base_seconds cap_seconds).

(** ** Payloads *)

(** Non-empty strings. *)
Fixpoint require_fields (payload : json) (job_type : string) (fields : list string)
  : expected unit :=
  match fields with
  | [] => Value tt
  | field :: fields =>
      _ ← guard_expected (isString (json_get payload field) &&
                          negb (str_empty (asString (json_get payload field))))
            (job_type ++ " payload requires non-empty string field: " ++ field);
      require_fields payload job_type fields
  end.

Definition ParseStagingSession (job : StorageJob) : expected UploadStagingSession :=
  let payload := sj_payload job in
  _ ← guard_expected (isObject payload) "staging_cleanup payload must be a JSON object";
  _ ← require_fields payload "staging_cleanup" ["upload_id"; "backend"; "prefix"];
  let upload_id := asString (json_get payload "upload_id") in
  _ ← guard_expected (upload_id =? sj_aggregate_id job)
        "staging_cleanup aggregate_id does not match upload_id";
  match ParseUploadStagingBackend (asString (json_get payload "backend")) with
  | None => Unexpected "staging_cleanup payload contains an unsupported backend"
  | Some backend =>
      Value (mkUploadStagingSession upload_id backend (asString (json_get payload "prefix")))
  end.

Record BlobGcCandidate := mkBlobGcCandidate { gc_content_id : Z; gc_storage_path : string }.

Definition ParseBlobGcCandidate (job : StorageJob) : expected BlobGcCandidate :=
  let payload := sj_payload job in
  _ ← guard_expected (isObject payload) "blob_gc payload must be a JSON object";
  let content_id := asUInt64 (json_get payload "content_id") in
  _ ← guard_expected (isUInt64 (json_get payload "content_id") && negb (content_id =? 0)%Z)
        "blob_gc payload requires a positive uint64 content_id";
  let storage_path := asString (json_get payload "storage_path") in
  _ ← guard_expected (isString (json_get payload "storage_path") && negb (str_empty storage_path))
        "blob_gc payload requires a non-empty storage_path";
  _ ← guard_expected (sj_aggregate_id job =? to_string content_id)
        "blob_gc aggregate_id does not match content_id";
  Value (mkBlobGcCandidate content_id storage_path).

(** ** The collection of a blob *)

(** What the transaction reads of a content: path, count, and whether a file and a trash
    entry name it. *)
Definition gc_content (content_id : Z) (d : Database) : option (string * Z * bool * bool) :=
  c ← file_contents d !! content_id;
  Some (c_storage_path c, c_ref_count c,
        exists_row (λ _ f, f_content_id f =? content_id)%Z (files d),
        exists_row (λ _ x, opt_eqb (x_content_id x) content_id) (trash d)).

(** [DELETE ... WHERE id = ... AND ref_count = 0 AND NOT EXISTS ... RETURNING id]. *)
Definition gc_delete (content_id : Z) (d : Database) : option (Z * Database) :=
  match gc_content content_id d with
  | Some (_, 0%Z, false, false) =>
      Some (1%Z, d <| file_contents := delete content_id (file_contents d) |>)
  | _ => Some (0%Z, d)
  end.

(** How the body of the transaction ends: with the commit, or rolled back with a result. *)
Inductive gc_end := GcCommit | GcStop (result : JobExecutionResult).

Section worker.
(** The digest function, the text of a real number, the two stores and the cleaner of
    uploads in parts (absent when null), the worker's name and options, and the jobs whose
    heartbeat finds the lease lost. *)
Context (HashSha256 : string → string) (real_text : Z → Z → string)
  (m_staging_storage : option UploadStagingStorage) (m_blob_store : option IBlobStore)
  (m_multipart_upload_cleaner : option IMultipartUploadCleaner)
  (m_instance_id : string) (m_options : StorageJobWorkerOptions)
  (heartbeat_lost : StorageJob → bool).

(** The constructor: the arguments it refuses. *)
Definition worker_arguments : option string :=
  if str_empty m_instance_id || (128 <? strlen m_instance_id)%Z
  then Some "Storage job worker instance ID must contain 1 to 128 characters"
  else if ((wo_batch_size m_options =? 0) || (1000 <? wo_batch_size m_options))%Z
  then Some "Storage job worker batch size must be in range 1-1000"
  else if (wo_lease_duration_seconds m_options <? 3)%Z
  then Some "Storage job worker lease duration must be at least 3 seconds"
  else if ((wo_retry_base_seconds m_options =? 0) ||
           (wo_retry_cap_seconds m_options <? wo_retry_base_seconds m_options))%Z
  then Some "Storage job worker retry delay bounds are invalid"
  else None.

Definition ParseMultipartUpload (job : StorageJob) : expected MultipartUploadDescriptor :=
  let payload := sj_payload job in
  _ ← guard_expected (isObject payload) "multipart_abort payload must be a JSON object";
  _ ← require_fields payload "multipart_abort" ["backend"; "key"; "upload_id"];
  _ ← guard_expected (asString (json_get payload "backend") =? "s3")
        "multipart_abort payload contains an unsupported backend";
  let descriptor := mkMultipartUploadDescriptor (asString (json_get payload "key"))
                      (asString (json_get payload "upload_id")) in
  _ ← guard_expected (sj_aggregate_id job =? BuildMultipartUploadRecoveryId HashSha256 descriptor)
        "multipart_abort aggregate_id does not match payload";
  _ ← guard_expected
        (sj_dedupe_key job =? BuildMultipartUploadRecoveryDedupeKey HashSha256 descriptor)
        "multipart_abort dedupe_key does not match payload";
  Value descriptor.

(** ** Handlers *)

Definition ExecuteStagingCleanup (job : StorageJob) : M Database JobExecutionResult :=
  match ParseStagingSession job with
  | Unexpected error => mret (PermanentFailure error)
  | Value session =>
      match m_staging_storage with
      | None => mret (RetryableFailure "Upload staging storage is not configured")
      | Some store =>
          cleanup_result ← call_storage (CallCleanupSession session)
                             (λ h, CleanupSession store h session);
          mret (match (cleanup_result : Result unit) with
                | Ok _ => JobDone
                | Err e => service_failure e "staging_cleanup failed"
                end)
      end
  end.

Definition ExecuteMultipartAbort (job : StorageJob) : M Database JobExecutionResult :=
  match ParseMultipartUpload job with
  | Unexpected error => mret (PermanentFailure error)
  | Value descriptor =>
      match m_multipart_upload_cleaner with
      | None => mret (RetryableFailure "Multipart upload cleaner is not configured")
      | Some cleaner =>
          abort_result ← call_storage (CallAbortMultipartUpload descriptor)
                           (λ h, AbortMultipartUpload cleaner h descriptor);
          mret (match (abort_result : Result unit) with
                | Ok _ => JobDone
                | Err e => service_failure e "multipart_abort failed"
                end)
      end
  end.

(** [complete_transaction], but for the commit. *)
Definition gc_complete (job : StorageJob) (candidate : BlobGcCandidate) : M Database gc_end :=
  _ ← ResolveFinding kZeroReferenceContent (to_string (gc_content_id candidate));
  persisted ← MarkSucceeded (sj_id job) m_instance_id;
  mret (if (persisted : bool) then GcCommit
        else GcStop (RetryableFailure "blob_gc ownership changed before commit")).

Definition gc_collect (store : IBlobStore) (job : StorageJob) (candidate : BlobGcCandidate)
  : M Database gc_end :=
  delete_result ← call_storage (CallDeleteBlob (gc_storage_path candidate))
                    (λ h, DeleteBlob store h (gc_storage_path candidate));
  match (delete_result : Result unit) with
  | Err e => mret (GcStop (service_failure e "blob_gc storage deletion failed"))
  | Ok _ =>
      deleted ← exec (gc_delete (i64 (gc_content_id candidate)));
      if negb (deleted =? 1)%Z
      then mret (GcStop (RetryableFailure "blob_gc content row changed before deletion"))
      else gc_complete job candidate
  end.

Definition gc_body (store : IBlobStore) (job : StorageJob) (candidate : BlobGcCandidate)
  : M Database gc_end :=
  content ← query (gc_content (i64 (gc_content_id candidate)));
  match (content : option (string * Z * bool * bool)) with
  | None => gc_complete job candidate
  | Some (persisted_path, ref_count, has_file_ref, has_trash_ref) =>
      if negb (persisted_path =? gc_storage_path candidate)
      then mret (GcStop (PermanentFailure "blob_gc storage_path does not match file_contents"))
      else if (0 <? ref_count)%Z then gc_complete job candidate
      else if (ref_count <? 0)%Z || has_file_ref || has_trash_ref
      then mret (GcStop (PermanentFailure "blob_gc found inconsistent content references"))
      else gc_collect store job candidate
  end.

Definition gc_thrown (x : exn) : JobExecutionResult :=
  RetryableFailure (match x with
                    | DbException => "blob_gc database failure"
                    | _ => "blob_gc handler failure"
                    end).

(** The transaction of the collection. *)
Definition gc_transaction (body : M Database gc_end) : M Database JobExecutionResult := λ e,
  match Begin e with
  | (Raise x, e) => (Ret (gc_thrown x), rollbackQuietly e)
  | (Ret _, e) =>
      match body e with
      | (Raise x, e) => (Ret (gc_thrown x), rollbackQuietly e)
      | (Ret (GcStop result), e) => (Ret result, rollbackQuietly e)
      | (Ret GcCommit, e) =>
          match Commit e with
          | (true, e) => (Ret (mkJobExecutionResult true false true ""), e)
          | (false, e) => (Ret (RetryableFailure "blob_gc transaction commit failed"),
                           rollbackQuietly e)
          end
      end
  end.

Definition ExecuteBlobGc (job : StorageJob) : M Database JobExecutionResult :=
  match ParseBlobGcCandidate job with
  | Unexpected error => mret (PermanentFailure error)
  | Value candidate =>
      match m_blob_store with
      | None => mret (RetryableFailure "Blob store is not configured")
      | Some store => gc_transaction (gc_body store job candidate)
      end
  end.

(** The job of the next page is enqueued. *)
Definition enqueue_next (next_job : expected NewStorageJob) : M Database JobExecutionResult :=
  match next_job with
  | Unexpected error => mret (PermanentFailure error)
  | Value next_job => _ ← Enqueue next_job; mret JobDone
  end.

Definition ExecuteExpireUploads (job : StorageJob) : M Database JobExecutionResult :=
  match ParseExpireUploadsJob job with
  | Unexpected error => mret (PermanentFailure error)
  | Value request =>
      expiration ← ExpireInProgressUploads (eu_limit request);
      match (expiration : Result UploadExpirationBatchResult) with
      | Err e => mret (service_failure e "expire_uploads failed")
      | Ok expiration =>
          if ShouldContinueExpirationScan (eb_candidates expiration) (eu_limit request)
          then enqueue_next (BuildExpireUploadsJob
                 (mkExpireUploadsPageRequest (eu_scan_id request) (u64 (eu_page request + 1))
                    (eu_limit request)))
          else mret JobDone
      end
  end.

Definition ExecuteExpireTrash (job : StorageJob) : M Database JobExecutionResult :=
  match ParseExpireTrashJob job with
  | Unexpected error => mret (PermanentFailure error)
  | Value request =>
      page ← CleanupExpiredTrashPage real_text (et_after_id request) (et_limit request);
      match (page : Result ExpiredTrashCleanupPageResult) with
      | Err e => mret (service_failure e "expire_trash failed")
      | Ok page =>
          if ep_has_more page then
            if (ep_next_after_id page <=? et_after_id request)%Z
            then mret (PermanentFailure "expire_trash continuation cursor did not advance")
            else enqueue_next (BuildExpireTrashJob
                   (mkExpireTrashPageRequest (et_scan_id request) (ep_next_after_id page)
                      (et_limit request)))
          else mret JobDone
      end
  end.

(** Whether a page of a scan moved its cursor. *)
Definition cursor_advanced (request next_request : ReconciliationPageRequest) : bool :=
  if bool_decide (rp_scope request = Contents ∨ rp_scope request = Users)
  then (rp_after_id request <? rp_after_id next_request)%Z
  else negb (str_empty (rp_continuation_token next_request)) &&
       negb (rp_continuation_token next_request =? rp_continuation_token request).

Definition ExecuteStorageReconcile (job : StorageJob) : M Database JobExecutionResult :=
  match ParseStorageReconcileJob HashSha256 job with
  | Unexpected error => mret (PermanentFailure error)
  | Value request =>
      page ← RunPage HashSha256 m_staging_storage m_blob_store request;
      match (page : Result ReconciliationPageResult) with
      | Err e => mret (service_failure e "storage_reconcile failed")
      | Ok page =>
          if pr_has_more page then
            let next_request :=
              mkReconciliationPageRequest (rp_scan_id request) (rp_scope request)
                (pr_next_after_id page) (pr_next_continuation_token page) (rp_limit request) in
            if negb (cursor_advanced request next_request)
            then mret (PermanentFailure "storage_reconcile continuation cursor did not advance")
            else enqueue_next (BuildStorageReconcileJob HashSha256 next_request)
          else mret JobDone
      end
  end.

(** The handlers by job type. *)
Definition ExecuteJob (job : StorageJob) : M Database JobExecutionResult :=
  if sj_job_type job =? kStagingCleanupJobType then ExecuteStagingCleanup job
  else if sj_job_type job =? kMultipartAbortJobType then ExecuteMultipartAbort job
  else if sj_job_type job =? kBlobGcJobType then ExecuteBlobGc job
  else if sj_job_type job =? kExpireUploadsJobType then ExecuteExpireUploads job
  else if sj_job_type job =? kExpireTrashJobType then ExecuteExpireTrash job
  else if sj_job_type job =? kStorageReconcileJobType then ExecuteStorageReconcile job
  else mret (PermanentFailure "Unsupported storage job type").

(** ** Running claimed jobs *)

(** The outcome is recorded, unless the job is no longer the worker's. *)
Definition persist_outcome (job : StorageJob) (execution : JobExecutionResult)
  : M Database PersistDisposition :=
  if je_succeeded execution then
    persisted ← MarkSucceeded (sj_id job) m_instance_id;
    mret (if (persisted : bool) then DispSucceeded else DispOwnershipLost)
  else
    retry_delay ← ComputeRetryDelaySeconds (sj_id job) (sj_attempts job)
                    (wo_retry_base_seconds m_options) (wo_retry_cap_seconds m_options);
    persisted ← MarkFailed (sj_id job) m_instance_id (je_error execution)
                  (je_retryable execution) retry_delay;
    mret (match (persisted : option StorageJobStatus) with
          | None => DispOwnershipLost
          | Some Retry => DispRetried
          | Some _ => DispDeadLettered
          end).

Definition ProcessClaimedJob (job : StorageJob) : M Database PersistDisposition :=
  renewed ← catch_all
    (RenewLease (sj_id job) m_instance_id (wo_lease_duration_seconds m_options))
    (mret false);
  if negb (renewed : bool) then mret DispOwnershipLost
  else
    execution ← catch_all (ExecuteJob job)
                  (mret (RetryableFailure "Storage job handler failed"));
    let execution : JobExecutionResult := execution in
    if je_outcome_persisted execution then mret DispSucceeded
    else if heartbeat_lost job then mret DispOwnershipLost
    else catch_all (persist_outcome job execution) (mret DispOwnershipLost).

Definition tally (result : StorageJobRunResult) (disposition : PersistDisposition)
  : StorageJobRunResult :=
  let '(mkStorageJobRunResult claimed succeeded retried dead_lettered ownership_lost) := result in
  match disposition with
  | DispSucceeded =>
      mkStorageJobRunResult claimed (succeeded + 1) retried dead_lettered ownership_lost
  | DispRetried =>
      mkStorageJobRunResult claimed succeeded (retried + 1) dead_lettered ownership_lost
  | DispDeadLettered =>
      mkStorageJobRunResult claimed succeeded retried (dead_lettered + 1) ownership_lost
  | DispOwnershipLost =>
      mkStorageJobRunResult claimed succeeded retried dead_lettered (ownership_lost + 1)
  end.

Fixpoint process_jobs (jobs : list StorageJob) (result : StorageJobRunResult)
  : M Database StorageJobRunResult :=
  match jobs with
  | [] => mret result
  | job :: jobs =>
      disposition ← ProcessClaimedJob job; process_jobs jobs (tally result disposition)
  end.

Definition RunOnce : M Database (Result StorageJobRunResult) :=
  jobs ← catch_all
    (jobs ← ClaimReadyBatch m_instance_id (wo_batch_size m_options)
              (wo_lease_duration_seconds m_options);
     mret (Ok jobs))
    (mret (Err (mkErrorInfo InternalError "Failed to claim storage jobs")));
  match (jobs : Result (list StorageJob)) with
  | Err e => mret (Err e)
  | Ok jobs =>
      result ← process_jobs jobs
                 (mkStorageJobRunResult (Z.of_nat (length jobs)) 0 0 0 0);
      mret (Ok result)
  end.
End worker.

(** ** Retry delays *)

Local Close Scope string_scope.
Local Open Scope Z_scope.

Lemma double_delay_exact n cap delay : 0 <= delay <= cap → cap < 2 ^ 32 →
  double_delay n cap delay = Z.min cap (delay * 2 ^ Z.of_nat n).
Proof.
  revert delay. induction n as [|n IH]; intros delay Hd Hcap; cbn [double_delay].
  - change (2 ^ Z.of_nat 0) with 1. lia.
  - pose proof (Z.pow_pos_nonneg 2 (Z.of_nat n) ltac:(lia) ltac:(lia)) as Hp.
    rewrite Nat2Z.inj_succ, Z.pow_succ_r by lia. destruct (Z.ltb_spec delay cap) as [Hlt|Hge].
    + rewrite u64_small by lia. rewrite IH by lia.
      destruct (Z.min_spec (delay * 2) cap) as [[? ->]|[? ->]]; nia.
    + nia.
Qed.

(** C30: the delay before a job is retried grows exponentially up to a cap.  With base
    [base] and cap [cap], before the retry after attempt [n] a worker waits at least
    [base * 2 ^ (n - 1)] seconds, cut at the cap (and at 31 doublings), at most a quarter
    more, and never more than the cap: no computation on the way wraps around. *)
Theorem retry_delay_bounds job_id attempts base cap :
  0 < base <= cap → cap < 2 ^ 32 → 1 <= attempts < 2 ^ 32 →
  let backoff := Z.min cap (base * 2 ^ Z.min (attempts - 1) 31) in
  backoff <= retry_delay job_id attempts base cap <= Z.min cap (backoff + backoff / 4).
Proof.
  intros Hbase Hcap Hn backoff. unfold retry_delay.
  destruct (Z.ltb_spec 0 attempts) as [_|]; [|lia].
  rewrite double_delay_exact by lia. rewrite Z2Nat.id by lia. fold backoff.
  assert (0 < backoff <= cap) as Hb.
  { subst backoff. pose proof (Z.pow_pos_nonneg 2 (Z.min (attempts - 1) 31) ltac:(lia) ltac:(lia)). nia. }
  rewrite (u64_small (cap - backoff)) by lia. unfold jitter.
  pose proof (Z.div_pos backoff 4 ltac:(lia) ltac:(lia)).
  set (window := Z.min (backoff / 4) (cap - backoff)).
  destruct (Z.ltb_spec 0 window) as [Hw|Hw].
  - pose proof (Z.mod_pos_bound
      (MixRetrySeed (Z.lxor job_id (u64 (Z.shiftl attempts 32)))) (window + 1) ltac:(lia)).
    rewrite u64_small by lia. rewrite u32_small by lia. lia.
  - rewrite u32_small by lia. lia.
Qed.

Lemma retry_delay_bounds_witness : 40 <= retry_delay 17 4 5 3600 <= 50 ∧
  retry_delay 17 32 5 3600 = 3600.
Proof.
  split; [|vm_compute; reflexivity].
  apply (retry_delay_bounds 17 4 5 3600); lia.
Defined.

(** ** Every claimed job is accounted for *)

Definition tallied (result : StorageJobRunResult) : Z :=
  jr_succeeded result + jr_retried result + jr_dead_lettered result + jr_ownership_lost result.

Lemma tally_claimed result disposition : jr_claimed (tally result disposition) = jr_claimed result ∧
  tallied (tally result disposition) = tallied result + 1.
Proof. destruct result, disposition; unfold tallied; cbn; lia. Qed.

Section run.
Context (HashSha256 : string → string) (real_text : Z → Z → string)
  (m_staging_storage : option UploadStagingStorage) (m_blob_store : option IBlobStore)
  (m_multipart_upload_cleaner : option IMultipartUploadCleaner)
  (m_instance_id : string) (m_options : StorageJobWorkerOptions)
  (heartbeat_lost : StorageJob → bool).
Notation RunOnce := (RunOnce HashSha256 real_text m_staging_storage m_blob_store
  m_multipart_upload_cleaner m_instance_id m_options heartbeat_lost).
Notation ProcessClaimedJob := (ProcessClaimedJob HashSha256 real_text m_staging_storage m_blob_store
  m_multipart_upload_cleaner m_instance_id m_options heartbeat_lost).
Notation process_jobs := (process_jobs HashSha256 real_text m_staging_storage m_blob_store
  m_multipart_upload_cleaner m_instance_id m_options heartbeat_lost).

Lemma catch_all_returns {A} (m : M Database A) (a : A) : returns (catch_all m (mret a)).
Proof.
  intros e. unfold catch_all, catch. destruct (m e) as [[b|x] e']; [by exists b|]. by exists a.
Qed.

Lemma process_returns job : returns (ProcessClaimedJob job).
Proof.
  intros e. unfold StorageJobWorker.ProcessClaimedJob, mbind at 1, M_bind at 1.
  destruct (catch_all _ _ e) as [r e1] eqn:E.
  assert (∃ b, r = Ret b) as [b ->].
  { destruct (catch_all_returns (RenewLease (sj_id job) m_instance_id
      (wo_lease_duration_seconds m_options)) false e) as [b Hb]. rewrite E in Hb. by exists b. }
  destruct b; cbn [negb]; [|by eexists]. unfold mbind, M_bind. clear E.
  destruct (catch_all _ _ e1) as [r e2] eqn:E.
  assert (∃ x, r = Ret x) as [x ->].
  { destruct (catch_all_returns (ExecuteJob HashSha256 real_text m_staging_storage m_blob_store
      m_multipart_upload_cleaner m_instance_id job) (RetryableFailure "Storage job handler failed") e1)
      as [x Hx]. rewrite E in Hx. by exists x. }
  cbv zeta. destruct (je_outcome_persisted x); [by eexists|].
  destruct (heartbeat_lost job); [by eexists|]. apply catch_all_returns.
Qed.

Lemma process_jobs_tally jobs result e : ∃ t, (process_jobs jobs result e).1 = Ret t ∧
  jr_claimed t = jr_claimed result ∧ tallied t = tallied result + Z.of_nat (length jobs).
Proof.
  revert result e. induction jobs as [|job jobs IH]; intros result e; cbn [process_jobs length].
  - exists result. split_and!; [done|done|lia].
  - cbn [StorageJobWorker.process_jobs]. unfold mbind, M_bind.
    destruct (process_returns job e) as [d Hd]. destruct (ProcessClaimedJob job e) as [r e1].
    cbn in Hd. subst r. destruct (IH (tally result d) e1) as (t & Ht & Hc & Hn).
    exists t. destruct (tally_claimed result d) as [Ec En]. split_and!; [done|congruence|lia].
Qed.

(** C29: a run of the worker always answers and accounts for every job it claimed: each
    counts as exactly one of succeeded, retried, dead-lettered and lost, whatever the
    handlers, the stores and the database do. *)
Theorem run_accounts_for_every_job e : ∃ r, (RunOnce e).1 = Ret r ∧
  ∀ t, r = Ok t → jr_claimed t = tallied t.
Proof.
  unfold StorageJobWorker.RunOnce, mbind at 1, M_bind at 1.
  destruct (catch_all_returns (jobs ← ClaimReadyBatch m_instance_id (wo_batch_size m_options)
      (wo_lease_duration_seconds m_options); mret (Ok jobs))
    (Err (mkErrorInfo InternalError "Failed to claim storage jobs")) e) as [r Hr].
  destruct (catch_all _ _ e) as [o e1]. cbn in Hr. subst o. destruct r as [jobs|er].
  - unfold mbind, M_bind.
    destruct (process_jobs_tally jobs (mkStorageJobRunResult (Z.of_nat (length jobs)) 0 0 0 0) e1)
      as (t & Ht & Hc & Hn).
    destruct (process_jobs _ _ e1) as [o e2]. cbn in Ht. subst o. exists (Ok t).
    split; [done|]. intros ? [= <-]. rewrite Hc, Hn. unfold tallied. cbn. lia.
  - by eexists.
Qed.
End run.
