(* ===== verification/Accounting.v ===== *)
(** * Accounting of the upload lifecycle

    What the handlers of [src/src/services/UploadLifecycleService.cpp] do to the
    books the storage reconciliation checks: the reserved bytes of a user are those
    of the uploads under way, the used bytes those of the files and trash entries,
    and the reference count of a content is the number of references to it.  The
    books are allowed to be off by a known amount inside a transaction; every
    handler as a whole keeps them exact, whatever fails and whoever interferes. *)

From S2P Require Import Prelude Errors Storage Db UploadState Json Schema Quota UploadTasks.
From S2P Require Import StorageJobs Content JobContract Files Folders Reconciliation Lifecycle.

(** ** The books *)

(** The totals the reconciliation computes, written out. *)
Definition reserved_of (user : Z) (d : Database) : Z :=
  sum_rows (λ _ t, if (t_user_id t =? user) && active t then t_reserved_bytes t else 0)
    (upload_tasks d).

Definition used_of (user : Z) (d : Database) : Z :=
  sum_rows (λ _ f, if f_user_id f =? user then f_size f else 0) (files d) +
  sum_rows (λ _ x, if x_user_id x =? user then x_item_size x else 0) (trash d).

(** What the identifier of an upload stands for: its user and its size.  A registry
    assigns it to every identifier, used or not yet used. *)
Record UploadIdentity := mkUploadIdentity { ui_user_id : Z; ui_bytes : Z }.

Section books.
(** The references a trash entry holds depend on its kind and its snapshot. *)
Context (registry : string → UploadIdentity) (refs_held : TrashRow → Z → Z).

Definition refs_of (content : Z) (d : Database) : Z :=
  sum_rows (λ _ f, if f_content_id f =? content then 1 else 0) (files d) +
  sum_rows (λ _ x, refs_held x content) (trash d).

Definition registered (id : string) (t : UploadTaskRow) : Prop :=
  t_user_id t = ui_user_id (registry id) ∧ t_file_size t = ui_bytes (registry id) ∧
  t_reserved_bytes t = ui_bytes (registry id).

(** A user never has two uploads of one file under way. *)
Definition one_active (d : Database) : Prop :=
  ∀ id id' t t', upload_tasks d !! id = Some t → upload_tasks d !! id' = Some t' →
    active t = true → active t' = true → t_user_id t = t_user_id t' →
    t_file_hash t = t_file_hash t' → id = id'.

(** Tasks are the registered ones, keys are handed out by the sequences. *)
Definition well_keyed (d : Database) : Prop :=
  ((∀ id t, upload_tasks d !! id = Some t → registered id t) ∧ one_active d) ∧
  (∀ i f, files d !! i = Some f → i < files_id_seq d) ∧
  (∀ c row, file_contents d !! c = Some row → bigint c = Some c ∧ c < file_contents_id_seq d).

Definition stored_refs (content : Z) (d : Database) : Z :=
  from_option c_ref_count 0 (file_contents d !! content).

(** The books are off by [r] reserved bytes, [v] used bytes and [c] references. *)
Definition off (r v c : Z → Z) (d : Database) : Prop :=
  well_keyed d ∧
  (∀ user a, users d !! user = Some a →
     u_storage_reserved a = reserved_of user d + r user ∧
     u_storage_used a = used_of user d + v user) ∧
  (∀ content, stored_refs content d = refs_of content d + c content).

Definition zero : Z → Z := λ _, 0.
Definition add (f : Z → Z) (k n : Z) : Z → Z := λ x, f x + if x =? k then n else 0.

(** The books are exact. *)
Definition ledger : Database → Prop := off zero zero zero.

(** ** How statements move the books *)

Lemma off_ext r v c r' v' c' d : off r v c d →
  (∀ x, r x = r' x) → (∀ x, v x = v' x) → (∀ x, c x = c' x) → off r' v' c' d.
Proof.
  intros (Hk & Hu & Hc) Hr Hv Hx. split; [done|]. split.
  - intros user a Ha. rewrite <- Hr, <- Hv. by apply Hu.
  - intros x. by rewrite <- Hx.
Qed.

(** Other tables do not matter. *)
Lemma off_frame r v c d d' : off r v c d →
  users d' = users d → file_contents d' = file_contents d → files d' = files d →
  upload_tasks d' = upload_tasks d → trash d' = trash d →
  files_id_seq d <= files_id_seq d' → file_contents_id_seq d <= file_contents_id_seq d' →
  off r v c d'.
Proof.
  intros (((? & ?) & Hk2 & Hk3) & Hu & Hc) E1 E2 E3 E4 E5 L1 L2.
  unfold off, well_keyed, one_active, stored_refs, reserved_of, used_of, refs_of in *.
  rewrite E1, E2, E3, E4, E5. split_and!; try done.
  - intros i f Hf. specialize (Hk2 _ _ Hf). lia.
  - intros i f Hf. destruct (Hk3 _ _ Hf). split; [done|lia].
Qed.

(** Reference counts that change and nothing else. *)
Lemma off_contents r v c k d d' : off r v c d →
  users d' = users d → files d' = files d → upload_tasks d' = upload_tasks d →
  trash d' = trash d → files_id_seq d' = files_id_seq d →
  file_contents_id_seq d' = file_contents_id_seq d →
  (∀ id, is_Some (file_contents d' !! id) → is_Some (file_contents d !! id)) →
  (∀ id, stored_refs id d' = stored_refs id d + k id) →
  off r v (λ x, c x + k x) d'.
Proof.
  intros (((? & ?) & Hk2 & Hk3) & Hu & Hc) E1 E2 E3 E4 E5 E6 Hin Hk.
  unfold off, well_keyed, one_active, reserved_of, used_of, refs_of in *.
  rewrite E1, E2, E3, E4, E5, E6. split_and!; try done.
  - intros i row Hrow. destruct (Hin i) as [row' Hrow']; [eauto|]. by apply (Hk3 _ row').
  - intros x. rewrite Hk, Hc. unfold refs_of. lia.
Qed.

(** The bytes an account operation adds to the reserved and used totals. *)
Definition reserves (o : Account.op) : Z :=
  match o with
  | Account.Reserve n => n
  | Account.Release n | Account.CommitRes n => - n
  | _ => 0
  end.
Definition uses (o : Account.op) : Z :=
  match o with Account.CommitRes n | Account.Consume n => n | _ => 0 end.

Lemma account_apply_moves o a a' : (∀ n, o ≠ Account.Adjust n) → Account.apply o a = Some a' →
  u_storage_reserved a' = u_storage_reserved a + reserves o ∧
  u_storage_used a' = u_storage_used a + uses o.
Proof.
  intros Ho. unfold Account.apply.
  destruct (Z.eqb_spec (Account.amount o) 0) as [Hn|_].
  - intros [= <-]. destruct o; simpl in *; lia.
  - destruct o; simpl; repeat case_match; intros; simplify_eq/=; try lia;
      by destruct (Ho delta).
Qed.

Lemma off_account o user snap s s' r v c : (∀ n, o ≠ Account.Adjust n) →
  runs (Account.run o user) snap s (Ok tt) s' → off r v c s →
  off (add r user (reserves o)) (add v user (uses o)) c s'.
Proof.
  intros Ho [[Hn ->]|(a & a' & Ha & Happ & ->)]%runs_account (Hk & Hu & Hc).
  - split_and!; [done| |done]. intros x b Hb. destruct (Hu x b Hb). unfold add.
    assert (reserves o = 0 ∧ uses o = 0) as [-> ->].
    { destruct o; simpl in *; lia. }
    by case_match; split; lia.
  - destruct (account_apply_moves _ _ _ Ho Happ) as [Hr' Hv'].
    split_and!; [done| |done]. intros x b.
    change (users (put_account user a' s)) with (<[user:=a']> (users s)).
    change (reserved_of x (put_account user a' s)) with (reserved_of x s).
    change (used_of x (put_account user a' s)) with (used_of x s). unfold add.
    destruct (Z.eqb_spec x user) as [->|Hne].
    + rewrite lookup_insert_eq. intros [= <-]. destruct (Hu _ _ Ha). lia.
    + rewrite lookup_insert_ne by done. intros Hb. destruct (Hu _ _ Hb). lia.
Qed.

Lemma same_identity_registered id t t' : same_identity t t' → registered id t →
  registered id t'.
Proof.
  intros (E1 & _ & _ & E2 & _ & _ & _ & E3 & _). unfold registered. by rewrite E1, E2, E3.
Qed.

(** The reservations held after one task changed. *)
Lemma reserved_of_put id t t' d user : upload_tasks d !! id = Some t → same_identity t t' →
  reserved_of user (put_task id t' d) = reserved_of user d +
    (if user =? t_user_id t
     then (if active t' then t_reserved_bytes t else 0) -
          (if active t then t_reserved_bytes t else 0) else 0).
Proof.
  intros Ht (E1 & _ & _ & _ & _ & _ & _ & E3 & _). unfold reserved_of. cbn.
  rewrite (sum_rows_update _ _ _ _ _ Ht), E1, E3, (Z.eqb_sym user).
  destruct (t_user_id t =? user); simpl; [|lia]. lia.
Qed.

Lemma one_active_put id t t' d : upload_tasks d !! id = Some t → same_identity t t' →
  (active t' = true → active t = true) → one_active d → one_active (put_task id t' d).
Proof.
  intros Ht (E1 & _ & _ & _ & E2 & _) Ha H i j ti tj. rewrite !put_task_lookup.
  case_decide; case_decide; subst; intros Hi Hj Hai Haj Hu Hh; simplify_eq; try done.
  - by eapply (H _ _ t tj); eauto; congruence.
  - by eapply (H _ _ ti t); eauto; congruence.
  - by eapply (H _ _ ti tj).
Qed.

Lemma off_put_task id t t' d r v c : upload_tasks d !! id = Some t → same_identity t t' →
  (active t' = true → active t = true) → off r v c d →
  off (add r (t_user_id t) ((if active t then t_reserved_bytes t else 0) -
                            (if active t' then t_reserved_bytes t else 0))) v c
    (put_task id t' d).
Proof.
  intros Ht Hi Hact (((Hk1 & Hone) & Hk2 & Hk3) & Hu & Hc). split_and!.
  - split; [|done]. split; [|by eapply one_active_put].
    intros i t0. rewrite put_task_lookup. case_decide; [|apply Hk1].
    intros [= <-]. subst i. by eapply same_identity_registered, Hk1.
  - intros user a Ha. rewrite (reserved_of_put _ _ _ _ _ Ht Hi). unfold add.
    destruct (Hu _ _ Ha) as [? ?]. split; [|done]. destruct (user =? t_user_id t); lia.
  - exact Hc.
Qed.

(** Statements on one task, by whether it still holds its reservation after. *)
Lemma off_task_stays id guard set d res d' r v c :
  (∀ t t', guard t = true → set t = Some t' → same_identity t t' ∧ active t' = active t) →
  update_task id guard set d = Some (res, d') → off r v c d → off r v c d'.
Proof.
  intros Hs [[_ ->]|(t & t' & Ht & Hg & Hset & _ & _ & ->)]%update_task_Some Hoff; [done|].
  destruct (Hs _ _ Hg Hset) as [Hi Ha].
  eapply off_ext; [eapply off_put_task; [done..|by rewrite Ha|done]| |done|done].
  intros x. unfold add. rewrite Ha.
  case_match; lia.
Qed.

Lemma off_task_ends id guard set d res d' r v c :
  (∀ t t', guard t = true → set t = Some t' →
     same_identity t t' ∧ active t = true ∧ active t' = false) →
  update_task id guard set d = Some (res, d') → off r v c d →
  match res with
  | None => d' = d
  | Some t' => off (add r (t_user_id t') (t_reserved_bytes t')) v c d' ∧ registered id t'
  end.
Proof.
  intros Hs [[-> ->]|(t & t' & Ht & Hg & Hset & _ & -> & ->)]%update_task_Some Hoff; [done|].
  destruct (Hs _ _ Hg Hset) as (Hi & Ha & Ha').
  pose proof Hi as (E1 & _ & _ & _ & _ & _ & _ & E3 & _). rewrite E1, E3.
  split; [|eapply same_identity_registered; [done|]; by apply Hoff].
  eapply off_ext; [eapply off_put_task; [done..|by rewrite Ha'|done]| |done|done].
  intros x. unfold add. rewrite Ha, Ha'.
  case_match; lia.
Qed.

Lemma off_create task session n d t d' r v c :
  create_statement task session n d = Some (t, d') →
  nt_user_id task = ui_user_id (registry (nt_id task)) →
  nt_file_size task = ui_bytes (registry (nt_id task)) →
  nt_reserved_bytes task = nt_file_size task → nt_status task = UploadToStorageValue InProgress →
  (∀ id t, upload_tasks d !! id = Some t →
     active_task (nt_user_id task) (nt_file_hash task) t = false) →
  off r v c d → off (add r (nt_user_id task) (- nt_reserved_bytes task)) v c d'.
Proof.
  unfold create_statement. intros H E1 E2 E3 E4 Hnone (((Hk1 & Hone) & Hk2 & Hk3) & Hu & Hc).
  destruct (upload_tasks d !! nt_id task) eqn:Hid; [done|].
  destruct (users d !! nt_user_id task) eqn:Huser; [|done].
  destruct (check_upload_task _ && _); [|done]. injection H as <- <-.
  split_and!; [split; [split|done]| |exact Hc].
  - intros i t0. cbn. intros [[<- <-]|[_ Hi]]%lookup_insert_Some; [|by apply Hk1].
    unfold registered. cbn. rewrite E1, E3, E2. done.
  - assert (∀ i t, upload_tasks d !! i = Some t → active t = true →
      nt_user_id task = t_user_id t → nt_file_hash task = t_file_hash t → False) as Hno.
    { intros i t0 Hi Ha Eu Eh. specialize (Hnone _ _ Hi). unfold active_task in Hnone.
      rewrite Eu, Eh, Z.eqb_refl, String.eqb_refl in Hnone. simpl in Hnone.
      unfold active in Ha. congruence. }
    intros i j ti tj. cbn.
    intros [[<- <-]|[_ Hi]]%lookup_insert_Some [[<- <-]|[_ Hj]]%lookup_insert_Some; cbn;
      intros ? ? Eu Eh; [done|by destruct (Hno j tj)|by destruct (Hno i ti)|].
    by eapply (Hone _ _ ti tj).
  - intros x a Ha. destruct (Hu _ _ Ha) as [Hr Hv]. split; [|done]. unfold add.
    unfold reserved_of in *. cbn [upload_tasks set]. cbn -[sum_rows active].
    rewrite sum_rows_insert by done. unfold active at 1. cbn -[sum_rows active].
    rewrite E4, (Z.eqb_sym _ x). cbn. destruct (x =? nt_user_id task); simpl; lia.
Qed.

Lemma off_insert_file f d res d' r v c :
  insert_file_statement f d = Some (res, d') → off r v c d →
  match res with
  | None => off r v c d'
  | Some (i, g) => g = f ∧ is_Some (file_contents d !! f_content_id f) ∧
      off r (add v (f_user_id f) (- f_size f)) (add c (f_content_id f) (-1)) d'
  end.
Proof.
  unfold insert_file_statement. intros (id & [-> Hid]%bigint_Some & H)%bind_Some Hoff.
  cbv zeta in H. destruct (check_file f); [|done].
  destruct (exists_row _ _); simpl in H.
  - injection H as <- <-. eapply off_frame; [done|..]; cbn; try done. lia.
  - destruct (bool_decide (is_Some (users d !! _))); [|done].
    destruct (bool_decide_reflect (is_Some (file_contents d !! f_content_id f))); [|done].
    injection H as <- <-. split_and!; [done|done|].
    destruct Hoff as ((Hk1 & Hk2 & Hk3) & Hu & Hc).
    assert (files d !! files_id_seq d = None) as Hfresh.
    { apply eq_None_not_Some. intros [g Hg]. specialize (Hk2 _ _ Hg). lia. }
    split_and!.
    + split; [done|]. split; [|done]. intros j g. cbn.
      intros [[<- _]|[_ Hj]]%lookup_insert_Some; [lia|]. specialize (Hk2 _ _ Hj). lia.
    + intros x a Ha. destruct (Hu _ _ Ha) as [Hr Hv]. split; [done|]. unfold add, used_of in *.
      cbn -[sum_rows]. rewrite sum_rows_insert by done. rewrite (Z.eqb_sym _ x).
      destruct (x =? f_user_id f); lia.
    + intros x. unfold add. specialize (Hc x). unfold refs_of, stored_refs in *.
      cbn -[sum_rows]. rewrite sum_rows_insert by done. rewrite (Z.eqb_sym _ x).
      destruct (x =? f_content_id f); lia.
Qed.

Lemma off_put_content id row d r v c :
  bigint id = Some id → id < file_contents_id_seq d → off r v c d →
  off r v (add c id (c_ref_count row - stored_refs id d)) (put_content id row d).
Proof.
  intros Hb Hid ((Hk1 & Hk2 & Hk3) & Hu & Hc). split_and!; [|done|].
  - split; [done|]. split; [done|]. intros j g. cbn.
    intros [[<- _]|[_ Hj]]%lookup_insert_Some; [done|by eapply Hk3].
  - intros x. specialize (Hc x). unfold add.
    change (refs_of x (put_content id row d)) with (refs_of x d).
    destruct (Z.eqb_spec x id) as [->|Hne]; unfold stored_refs in *; cbn.
    + rewrite lookup_insert_eq. simpl. lia.
    + rewrite lookup_insert_ne by done. lia.
Qed.

Lemma off_acquire_statement content d res d' r v c :
  acquire_statement content d = Some (res, d') → off r v c d →
  match res with
  | None => off r v c d'
  | Some m => off r v (add c (cm_id m) 1) d'
  end.
Proof.
  unfold acquire_statement. intros (id & Hid & H)%bind_Some Hoff.
  pose proof Hid as [-> Hb]%bigint_Some. cbv zeta in H.
  set (next := d <| file_contents_id_seq := file_contents_id_seq d + 1 |>) in *.
  assert (off r v c next) as Hnext.
  { eapply off_frame; [done|..]; cbn; try done. lia. }
  destruct Hoff as ((_ & _ & Hk3) & _ & _).
  destruct (find_content_by_hashes _ _ d) as [[id row]|] eqn:Hf.
  - apply find_row_Some in Hf as [Hrow _].
    destruct (_ =? _); [|by simplify_eq]. apply bind_Some in H as (n & [-> _]%int4_Some & H).
    injection H as <- <-. cbn [cm_id ToMetadata]. destruct (Hk3 _ _ Hrow) as [Hbig Hlt].
    eapply off_ext; [apply (off_put_content id); [done| |exact Hnext]|done|done|].
    + cbn. lia.
    + intros x. unfold add, stored_refs. cbn. rewrite Hrow. cbn. by case_match; lia.
  - injection H as <- <-. cbn [cm_id ToMetadata].
    eapply off_ext; [apply (off_put_content (file_contents_id_seq d)); [done| |exact Hnext]|done|done|].
    + cbn. lia.
    + intros x. unfold add, stored_refs. cbn.
      destruct (file_contents d !! file_contents_id_seq d) as [row|] eqn:Hrow; cbn; [|done].
      destruct (Hk3 _ _ Hrow). lia.
Qed.

(** ** How the steps of a transaction move the books *)

Lemma runs_gate id snap s u s' : runs (CheckReferenceGate id) snap s (Ok u) s' → s' = s.
Proof.
  unfold CheckReferenceGate. intros [H|(t & [? _]%runs_ret)]%runs_catch_all;
    [|done|solve_tx_body..].
  unfold CheckBlobGcReferenceGate in H. run_bind H gate t H1.
  assert (s' = t) as ->. { destruct gate; by apply runs_ret in H as [? ->]. }
  run_bind H1 row t' H2. apply runs_query in H2 as [_ ->].
  destruct row as [[i j]|]; [|by apply runs_ret in H1 as [_ ->]].
  destruct (_ || _); [by apply runs_raise in H1|].
  destruct (ParseStorageJobStatus _); [by apply runs_ret in H1 as [_ ->]|by apply runs_raise in H1].
Qed.

Lemma runs_acquire content e snap s m s' :
  runs (AcquireReference content e) snap s (Ok m) s' →
  acquire_statement content s = Some (Some m, s').
Proof.
  unfold AcquireReference. rewrite runs_catch_db by solve_tx_body. intros H.
  run_bind H existing t H1. apply runs_query in H1 as [-> ->]. cbv zeta in H.
  set (existing := find_content_by_hashes _ _ _) in H.
  destruct (unexpected_content e _); [by apply runs_ret in H as [? _]|].
  run_bind_result H u t H1.
  assert (t = s) as ->.
  { destruct existing as [[id row]|]; [|by apply runs_ret in H1 as [_ ->]].
    destruct (negb _); [by apply runs_ret in H1 as [? _]|by apply runs_gate in H1]. }
  run_bind H res t H2. apply runs_exec in H2.
  destruct res as [m'|]; [|by apply runs_ret in H as [? _]].
  destruct (unexpected_content e _); [by apply runs_ret in H as [? _]|].
  run_bind_result H w t' H3. apply runs_ret in H as [[= ->] ->].
  assert (t' = t) as ->; [|done].
  destruct existing; [by apply runs_ret in H3 as [_ ->]|by apply runs_gate in H3].
Qed.

Lemma off_acquire content e snap s m s' r v c :
  runs (AcquireReference content e) snap s (Ok m) s' → off r v c s →
  off r v (add c (cm_id m) 1) s'.
Proof. intros H%runs_acquire Hoff. by eapply off_acquire_statement in H. Qed.

Lemma off_increment id snap s u s' r v c :
  runs (IncrementRefCount id 1) snap s (Ok u) s' → off r v c s →
  off r v (add c (i64 id) 1) s'.
Proof.
  unfold IncrementRefCount. simpl (1 =? 0). cbv iota. rewrite runs_catch_db by solve_tx_body.
  intros H Hoff. run_bind H locked t H1. apply runs_query in H1 as [-> ->].
  destruct (negb _) eqn:Hl; [by apply runs_ret in H as [? _]|]. case_bools.
  run_bind_result H w t H1. apply runs_gate in H1 as ->.
  run_bind H rows t H2. apply runs_exec in H2. simpl in H2. destruct Hl as [row Hrow].
  rewrite Hrow in H2. apply bind_Some in H2 as (n & [-> _]%int4_Some & [= <- <-]).
  apply runs_ret in H as [_ ->].
  pose proof Hoff as ((_ & _ & Hk) & _ & _). destruct (Hk _ _ Hrow) as [Hb Hlt].
  eapply off_ext; [apply (off_put_content (i64 id)); done|done|done|].
  intros x. unfold add, stored_refs. rewrite Hrow. cbn. change (i32 1) with 1.
  by case_match; lia.
Qed.

(** Updates of folders, jobs and chunks leave the books alone. *)
Lemma off_item_count f u n t snap s b s' r v c :
  runs (ApplyItemCountDelta f u n t) snap s b s' → off r v c s → off r v c s'.
Proof.
  intros H%runs_exec Hoff. unfold update_folder in H.
  destruct (owned_folder f u s) as [[i g]|]; [|by simplify_eq].
  apply bind_Some in H as (g' & _ & H). destruct (check_folder g' && _); [|done].
  injection H as _ <-. by eapply off_frame.
Qed.

Lemma off_location f u snap s l s' r v c :
  runs (ResolveOwnedFolderLocation f u) snap s (Ok l) s' → off r v c s → off r v c s'.
Proof.
  unfold ResolveOwnedFolderLocation. destruct (f =? 0); [by intros [_ ->]%runs_ret|].
  rewrite runs_catch_db by solve_tx_body. intros H ?. run_bind H x t H1.
  apply runs_query in H1 as [_ ->]. by apply runs_ret in H as [_ ->].
Qed.

Lemma off_insert_record user content folder name ext size mime path snap s file s' r v c :
  runs (InsertFileRecord user content folder name ext size mime path) snap s (Ok file) s' →
  off r v c s →
  is_Some (file_contents s !! content) ∧
  off r (add v user (- size)) (add c content (-1)) s'.
Proof.
  unfold InsertFileRecord. intros H Hoff. run_bind H res t H1. apply runs_exec in H1.
  apply runs_ret in H as [E ->]. destruct res as [[i g]|]; [|done]. injection E as ->.
  by destruct (off_insert_file _ _ _ _ _ _ _ H1 Hoff) as (_ & ? & ?).
Qed.

Lemma insert_job_tables row oc d id d' : insert_job row oc d = Some (id, d') →
  users d' = users d ∧ file_contents d' = file_contents d ∧ files d' = files d ∧
  upload_tasks d' = upload_tasks d ∧ trash d' = trash d ∧ files_id_seq d' = files_id_seq d ∧
  file_contents_id_seq d' = file_contents_id_seq d.
Proof.
  intros H. destruct (insert_job_Some _ _ _ _ _ H)
    as [_ [(_ & _ & ->)|(? & ? & _ & [(_ & _ & ->)|(? & _ & _ & _ & ->)])]]; done.
Qed.

Lemma off_insert_job row oc d id d' r v c :
  insert_job row oc d = Some (id, d') → off r v c d → off r v c d'.
Proof.
  intros (?&?&?&?&?&E1&E2)%insert_job_tables ?. eapply off_frame; [done|..]; try done; lia.
Qed.

Lemma off_enqueue job snap s b s' r v c :
  runs (Enqueue job) snap s b s' → off r v c s → off r v c s'.
Proof.
  unfold Enqueue. intros H Hoff. run_bind H u t H1. apply runs_ValidateNewJob in H1 as ->.
  run_bind H jid t H1. apply runs_exec in H1. apply runs_ret in H as [_ ->].
  by eapply off_insert_job.
Qed.

Lemma off_delete_chunks id snap s u s' r v c :
  runs (DeleteChunks id) snap s u s' → off r v c s → off r v c s'.
Proof.
  intros H%runs_exec Hoff. unfold delete_chunks_statement in H. injection H as _ <-.
  by eapply off_frame.
Qed.

Lemma active_status t : active t = true ↔
  t_status t = UploadToStorageValue InProgress ∨ t_status t = UploadToStorageValue Finalizing.
Proof. unfold active. by rewrite orb_true_iff, !is_status_true. Qed.

Lemma off_renew_statement id u o n k d res d' r v c :
  renew_statement id u o n k d = Some (res, d') → off r v c d → off r v c d'.
Proof.
  apply off_task_stays. intros t t' _ H. inv_set. by repeat split.
Qed.

Lemma off_claim_statement id u o n d res d' r v c :
  claim_statement id u o n d = Some (res, d') → off r v c d → off r v c d'.
Proof.
  apply off_task_stays. intros t t' Hg H.
  destruct (sound_claim u o n id d t t' Hg H) as [Hi _]. split; [done|].
  inv_set. transitivity true; [by apply active_status; right|]. symmetry. apply active_status.
  rewrite <- !is_status_true. destruct (is_status InProgress t); [by left|].
  destruct (is_status Finalizing t); [by right|]. by rewrite !andb_false_r in Hg.
Qed.

Lemma off_record_error_statement id u o n k d res d' r v c :
  record_error_statement id u o n k d = Some (res, d') → off r v c d → off r v c d'.
Proof. apply off_task_stays. intros t t' _ H. inv_set. by repeat split. Qed.

Lemma runs_ValidateLease o n snap s u s' : runs (ValidateLeaseArguments o n) snap s u s' → s' = s.
Proof.
  unfold ValidateLeaseArguments. destruct (_ || _); [by intros ?%runs_raise|].
  destruct (_ =? _); [by intros ?%runs_raise|by intros [_ ->]%runs_ret].
Qed.

#[local] Instance tx_body_validate_lease o n : TxBody (ValidateLeaseArguments o n).
Proof. unfold ValidateLeaseArguments. solve_tx_body. Qed.

#[local] Instance tx_body_renew_lease i u o v n : TxBody (RenewFinalizeLease i u o v n).
Proof. unfold RenewFinalizeLease. solve_tx_body. Qed.

Lemma runs_renew command n snap s k s' : runs (RenewLeaseFor command n) snap s (Ok k) s' →
  ∃ t, renew_statement (cc_upload_id command) (cc_user_id command) (cc_lease_owner command) n
         (cc_lease_duration_seconds command) s = Some (Some t, s') ∧ k = t_state_version t.
Proof.
  unfold RenewLeaseFor. intros [H|(t & [? _]%runs_ret)]%runs_catch_all; [|done|solve_tx_body..].
  run_bind H res t H1. apply runs_ret in H as [H ->].
  unfold RenewFinalizeLease in H1. run_bind H1 u t' H2. apply runs_ValidateLease in H2 as ->.
  run_bind H1 row t' H2. apply runs_exec in H2. apply runs_ret in H1 as [-> ->].
  destruct row as [row|]; [|done]. injection H as ->. eauto.
Qed.

Lemma off_renew command n snap s k s' r v c :
  runs (RenewLeaseFor command n) snap s (Ok k) s' → off r v c s → off r v c s'.
Proof. intros (t & H & _)%runs_renew. by eapply off_renew_statement. Qed.

(** Ending an upload takes its reservation out of the books of its user. *)
Lemma off_finish_statement id guard st reason d d0 res d' r v c :
  (∀ t, guard t = true → t_status t = UploadToStorageValue InProgress) →
  st = Cancelled ∨ st = Expired →
  update_task id guard (finish_unclaimed st reason d0) d = Some (res, d') → off r v c d →
  match res with
  | None => d' = d
  | Some t' => off (add r (t_user_id t') (t_reserved_bytes t')) v c d' ∧ registered id t'
  end.
Proof.
  intros Hg Hst. apply off_task_ends. intros t t' Ht%Hg H. unfold finish_unclaimed in H. inv_set.
  split; [by repeat split|]. split; [apply active_status; by left|].
  by destruct Hst as [-> | ->].
Qed.

Lemma off_complete_statement id u o n f d res d' r v c :
  complete_statement id u o n f d = Some (res, d') → off r v c d →
  match res with
  | None => d' = d
  | Some t' => off (add r (t_user_id t') (t_reserved_bytes t')) v c d' ∧ registered id t'
  end.
Proof.
  apply off_task_ends. intros t t' (_ & Ht & _)%lease_owned_true H. inv_set.
  split; [by repeat split|]. split; [apply active_status; by right|done].
Qed.

(** ** The transactions keep the books exact *)

Lemma runs_transition_record id row snap s res s' :
  runs (transition_record id row) snap s res s' → s' = s ∧
  match row, res with
  | None, None => True
  | Some t, Some record =>
      cr_user_id (tr_cleanup record) = t_user_id t ∧
      cr_reserved_bytes (tr_cleanup record) = t_reserved_bytes t ∧
      tr_state_version record = t_state_version t
  | _, _ => False
  end.
Proof.
  unfold transition_record. destruct row as [t|].
  - intros H. assert (TxBody (ToUploadTaskCleanupRecord id t)).
    { unfold ToUploadTaskCleanupRecord. solve_tx_body. }
    run_bind H x s1 H1. apply runs_ret in H as [-> ->].
    unfold ToUploadTaskCleanupRecord in H1. destruct (ParseUploadStagingBackend _);
      [|by apply runs_raise in H1]. by apply runs_ret in H1 as [-> ->].
  - by intros [-> ->]%runs_ret.
Qed.

Lemma off_release_upload id user record snap s k s' r v c :
  runs (release_upload id user record) snap s (Ok k) s' → off r v c s →
  off (add r user (- cr_reserved_bytes (tr_cleanup record))) v c s'.
Proof.
  unfold release_upload. cbv zeta. intros H Hoff. run_bind_result H u t H1. destruct u.
  change (ReleaseReservedStorageChecked user (cr_reserved_bytes (tr_cleanup record)))
    with (Account.run (Account.Release (cr_reserved_bytes (tr_cleanup record))) user) in H1.
  apply (off_account _ _ _ _ _ r v c) in H1; [|done|done]. simpl in H1.
  run_bind H b t1 H2. eapply off_enqueue in H2; [|exact H1].
  run_bind H u t2 H3. eapply off_delete_chunks in H3; [|exact H2].
  apply runs_ret in H as [_ ->].
  eapply off_ext; [exact H3|done| |done]. intros x. unfold add. case_match; lia.
Qed.

Lemma cancel_body_ledger id user s k s' :
  runs (cancel_body id user) s s (Ok k) s' → ledger s → ledger s'.
Proof.
  unfold cancel_body, MarkCancelledIfInProgressReturning. intros H Hl.
  run_bind H res t H1. run_bind H1 row t1 H2. apply runs_exec in H2.
  apply runs_transition_record in H1 as [-> Hrec].
  assert (t_user_id <$> row = Some user ∨ row = None) as Huser.
  { destruct (update_task_Some _ _ _ _ _ _ H2) as [[-> _]|(t0 & t' & _ & Hg & Hs & _ & -> & _)];
      [by right|left]. unfold finish_unclaimed in Hs. inv_set. case_bools. by f_equal. }
  apply (off_finish_statement _ _ _ _ _ _ _ _ zero zero zero) in H2; [|..|exact Hl];
    [|intros t0 Hg; case_bools; by apply is_status_true|by left].
  destruct row as [row|], res as [record|]; try done.
  - destruct H2 as [H2 _], Hrec as (_ & Hres & _), Huser as [[= Huser]|]; [|done].
    eapply off_release_upload in H; [|exact H2].
    eapply off_ext; [exact H| |done|done]. intros x. unfold add, zero.
    rewrite Hres, Huser. case_match; lia.
  - subst. by apply runs_ret in H as [_ ->].
Qed.

Lemma expire_body_ledger id s k s' :
  runs (expire_body id) s s (Ok k) s' → ledger s → ledger s'.
Proof.
  unfold expire_body, MarkExpiredIfInProgressReturning. intros H Hl.
  run_bind H res t H1. run_bind H1 row t1 H2. apply runs_exec in H2.
  apply runs_transition_record in H1 as [-> Hrec].
  apply (off_finish_statement _ _ _ _ _ _ _ _ zero zero zero) in H2; [|..|exact Hl];
    [|intros t0 Hg; case_bools; by apply is_status_true|by right].
  destruct row as [row|], res as [record|]; try done.
  - destruct H2 as [H2 _], Hrec as (Huser & Hres & _).
    eapply off_release_upload in H; [|exact H2].
    eapply off_ext; [exact H| |done|done]. intros x. unfold add, zero.
    rewrite Hres, Huser. case_match; lia.
  - subst. by apply runs_ret in H as [_ ->].
Qed.

Lemma instant_body_ledger date command content_id mime s file s' :
  runs (instant_body date command content_id mime) s s (Ok file) s' → ledger s → ledger s'.
Proof.
  unfold instant_body. intros H Hl. run_bind H b t H1.
  unfold IsFilenameExists in H1. rewrite runs_catch_db in H1 by solve_tx_body.
  apply runs_query in H1 as [_ ->]. destruct b; [by apply runs_ret in H as [? _]|].
  run_bind_result H u t H1. destruct u.
  change (ConsumeUsedStorage (ic_user_id command) (ic_file_size command))
    with (Account.run (Account.Consume (ic_file_size command)) (ic_user_id command)) in H1.
  apply (off_account _ _ _ _ _ zero zero zero) in H1; [|done|done].
  run_bind_result H u t1 H2. eapply off_increment in H2; [|exact H1].
  run_bind_result H loc t2 H3. eapply off_location in H3; [|exact H2].
  run_bind_result H file' t3 H4. pose proof H4 as Hins.
  eapply off_insert_record in H4 as [[row Hrow] H4]; [|exact H3].
  run_bind H w t4 H5. apply runs_ret in H as [_ ->].
  assert (off (add zero (ic_user_id command) 0) (add (add zero (ic_user_id command)
    (ic_file_size command)) (ic_user_id command) (- ic_file_size command))
    (add (add zero (i64 content_id) 1) content_id (-1)) t4) as Ht4.
  { case_match; [by eapply off_item_count|]. by apply runs_ret in H5 as [_ ->]. }
  pose proof H3 as ((_ & _ & Hk) & _ & _). destruct (Hk _ _ Hrow) as [[_ Hb]%bigint_Some _].
  rewrite (i64_small content_id) in Ht4 by done.
  eapply off_ext; [exact Ht4|..]; intros x; unfold add, zero; repeat case_match; lia.
Qed.

Lemma no_active_task user hash (d : Database) :
  head (select_rows (λ _, active_task user hash)
    (λ a b, lex_leb (t_created_at a.2) (t_created_at b.2) (String.leb a.1 b.1))
    (upload_tasks d)) = None →
  ∀ id t, upload_tasks d !! id = Some t → active_task user hash t = false.
Proof.
  intros Hnone%head_None id t Ht. apply not_true_iff_false. intros Ha.
  assert ((id, t) ∈ @nil (string * UploadTaskRow)) as []%elem_of_nil.
  rewrite <- Hnone. by apply elem_of_select_rows.
Qed.

Lemma create_body_ledger command task session s res s' :
  runs (create_body command task session) s s (Ok res) s' →
  nt_user_id task = ic_user_id command → nt_file_size task = ic_file_size command →
  nt_reserved_bytes task = ic_file_size command →
  nt_file_hash task = ic_file_hash command →
  nt_status task = UploadToStorageValue InProgress →
  registry (nt_id task) = mkUploadIdentity (ic_user_id command) (ic_file_size command) →
  ledger s → ledger s'.
Proof.
  unfold create_body. intros H E1 E2 E3 Eh E4 Hreg Hl.
  run_bind H u t H1. apply runs_query in H1 as [_ ->].
  run_bind H found t H1. apply runs_query in H1 as [Hfound ->].
  destruct found as [p|]; [by apply runs_ret in H as [_ ->]|].
  symmetry in Hfound. pose proof (no_active_task _ _ _ Hfound) as Hnone.
  run_bind_result H w t H1. destruct w.
  change (ReserveStorage (ic_user_id command) (ic_file_size command))
    with (Account.run (Account.Reserve (ic_file_size command)) (ic_user_id command)) in H1.
  assert (upload_tasks t = upload_tasks s) as Et.
  { by destruct (runs_account _ _ _ _ _ H1) as [[_ ->]|(? & ? & _ & _ & ->)]. }
  apply (off_account _ _ _ _ _ zero zero zero) in H1; [|done|done].
  run_bind H row t1 H2. apply runs_ret in H as [_ ->].
  unfold Create in H2. destruct (negb _); [by apply runs_raise in H2|].
  destruct (str_empty _); [by apply runs_raise in H2|]. apply runs_exec in H2.
  eapply off_create in H2; [..|exact H1]; rewrite ?Hreg, ?E1, ?E2, ?E3, ?Eh, ?Et; [|done..].
  eapply off_ext; [exact H2|..]; intros x; unfold add, zero; simpl; repeat case_match; lia.
Qed.

Lemma finalize_body_ledger date command task session n content e s file s' :
  runs (finalize_body date command task session n content e) s s (Ok file) s' →
  registered (cc_upload_id command) task → t_user_id task = cc_user_id command →
  ledger s → ledger s'.
Proof.
  unfold finalize_body. intros H (Ru & Rs & Rr) Hu Hl.
  run_bind_result H v t H1. eapply off_renew in H1; [|exact Hl].
  run_bind_result H m t1 H2. eapply off_acquire in H2; [|exact H1].
  run_bind_result H loc t2 H3. eapply off_location in H3; [|exact H2].
  run_bind_result H file' t3 H4. eapply off_insert_record in H4 as [_ H4]; [|exact H3].
  run_bind H w t4 H5.
  assert (off zero (add zero (cc_user_id command) (- t_file_size task))
    (add (add zero (cm_id m) 1) (cm_id m) (-1)) t4) as Ht4.
  { case_match; [by eapply off_item_count|]. by apply runs_ret in H5 as [_ ->]. }
  run_bind_result H u t5 H6. destruct u.
  change (CommitReservedToUsed (cc_user_id command) (t_file_size task))
    with (Account.run (Account.CommitRes (t_file_size task)) (cc_user_id command)) in H6.
  eapply off_account in H6; [|done|exact Ht4]. simpl in H6.
  run_bind H ok t6 H7. unfold MarkCompletedIfLeaseOwned in H7.
  run_bind H7 row t7 H8. apply runs_exec in H8. apply runs_ret in H7 as [-> ->].
  pose proof H8 as Hcompleted. eapply off_complete_statement in H8; [|exact H6].
  destruct row as [row|]; simpl in H; [|by apply runs_ret in H as [? _]].
  destruct H8 as [H8 (Ru' & _ & Rr')].
  run_bind H b t8 H9. eapply off_enqueue in H9; [|exact H8].
  run_bind H w' t9 H10. eapply off_delete_chunks in H10; [|exact H9].
  apply runs_ret in H as [_ ->].
  rewrite Ru', Rr', <- Ru, <- Rs, Hu in H10.
  eapply off_ext; [exact H10|..]; intros x; unfold add, zero; repeat case_match; lia.
Qed.

(** ** Outside transactions *)

#[local] Hint Resolve off_renew_statement off_claim_statement off_record_error_statement : core.

#[export] Instance preserves_validate_lease o n : Preserves ledger (ValidateLeaseArguments o n).
Proof. unfold ValidateLeaseArguments. solve_preserves. Qed.

#[export] Instance preserves_claim i u o n : Preserves ledger (ClaimFinalizeLease i u o n).
Proof.
  unfold ClaimFinalizeLease. apply preserves_bind; [apply _|]. intros _.
  apply preserves_bind; [|intros; solve_preserves].
  apply preserves_exec. intros s0 x0 s' Hs Hq. by eapply off_claim_statement.
Qed.

#[export] Instance preserves_renew command n : Preserves ledger (RenewLeaseFor command n).
Proof.
  unfold RenewLeaseFor, RenewFinalizeLease.
  repeat (apply preserves_catch_all || apply preserves_bind || intros); try apply _.
  apply preserves_exec. intros s0 x0 s' Hs Hq. by eapply off_renew_statement.
Qed.

#[export] Instance preserves_record_error command n k :
  Preserves ledger (RecordFinalizeErrorBestEffort command n k).
Proof.
  unfold RecordFinalizeErrorBestEffort, RecordFinalizeErrorIfLeaseOwned.
  repeat (apply preserves_catch_all || apply preserves_bind || intros); try apply _.
  apply preserves_exec. intros s0 x0 s' Hs Hq. by eapply off_record_error_statement.
Qed.

#[export] Instance preserves_fail {A} command n e :
  Preserves ledger (fail_completion (A:=A) command n e).
Proof. unfold fail_completion. solve_preserves. Qed.

#[export] Instance preserves_rearm job : Preserves ledger (EnqueueOrRearmSucceeded job).
Proof.
  unfold EnqueueOrRearmSucceeded, ValidateNewJob, ValidateBoundedValue.
  repeat (apply preserves_bind || intros || case_match); try apply _.
  apply preserves_exec. intros s0 x0 s' Hs Hq. by eapply off_insert_job.
Qed.

#[export] Instance preserves_finding f : Preserves ledger (RecordFinding f).
Proof.
  unfold RecordFinding. case_match; [apply _|]. apply preserves_exec.
  intros s0 x0 s' Hs Hq. unfold finding_statement in Hq. apply bind_Some in Hq as (row & _ & Hq).
  injection Hq as _ <-. by eapply off_frame.
Qed.

(** ** The handlers *)

Lemma preserves_cancel id u : Preserves ledger (CancelInProgressUpload id u).
Proof.
  unfold CancelInProgressUpload, FindCancellationStateByIdForUser.
  apply preserves_bind_result; [|intros []; solve_preserves].
  apply preserves_Run; [apply _|]. intros s k s' Hs H. by eapply cancel_body_ledger.
Qed.

#[export] Instance preserves_expire id : Preserves ledger (ExpireInProgressUpload id).
Proof.
  unfold ExpireInProgressUpload. apply preserves_bind_result; [|intros; apply _].
  apply preserves_Run; [apply _|]. intros s k s' Hs H. by eapply expire_body_ledger.
Qed.

Lemma preserves_expire_batch limit : Preserves ledger (ExpireInProgressUploads limit).
Proof.
  unfold ExpireInProgressUploads. case_match; [apply _|].
  apply preserves_bind.
  - unfold FindExpiredInProgressBatch. apply preserves_bind; [apply _|]. intros rows.
    induction rows as [|row rows IH]; simpl; [apply _|].
    apply preserves_bind; [unfold ToUploadTaskCleanupRecord; solve_preserves|]. intros record.
    apply preserves_bind; [exact IH|]. intros; apply _.
  - intros tasks. apply preserves_bind_result; [|intros; apply _].
    generalize 0. induction tasks as [|task tasks IH]; intros n; simpl; [apply _|].
    apply preserves_bind_result; [apply _|]. intros b. apply IH.
Qed.

Section handlers.
Context (sha : string → string) (uuid : string) (date : Z) (backend : UploadStagingBackend)
  (prefix : string) (staging : option UploadStagingStorage) (blobs : option IBlobStore).

Lemma preserves_FindByMd5 h : Preserves ledger (FindByMd5 h).
Proof. unfold FindByMd5. solve_preserves. Qed.
#[local] Existing Instance preserves_FindByMd5.

Lemma preserves_resume id task pending : Preserves ledger (resume_outcome id task pending).
Proof. unfold resume_outcome, ListUploadedChunkIndices. solve_preserves. Qed.
#[local] Existing Instance preserves_resume.

Lemma preserves_start_new command pending :
  registry uuid = mkUploadIdentity (ic_user_id command) (ic_file_size command) →
  Preserves ledger (start_new_upload uuid backend prefix staging command pending).
Proof.
  intros Hreg. unfold start_new_upload. repeat (case_match; [apply _|]).
  apply preserves_bind_result; [|solve_preserves].
  apply preserves_Run; [apply _|]. intros s k s' Hs Hrun. by eapply create_body_ledger.
Qed.

Lemma preserves_initialize command :
  registry uuid = mkUploadIdentity (ic_user_id command) (ic_file_size command) →
  Preserves ledger (InitializeUpload uuid date backend prefix staging command).
Proof.
  intros Hreg. pose proof (preserves_start_new command) as Hnew.
  unfold InitializeUpload, FindActiveByUserAndHash. case_match; [apply _|].
  apply preserves_bind; [apply _|]. intros [path n].
  repeat (case_match; [apply _|]).
  apply preserves_bind; [apply _|]. intros content.
  apply preserves_bind; [apply _|]. intros task. cbv zeta.
  assert (∀ pending, Preserves ledger
    (start_new_upload uuid backend prefix staging command pending)) by auto.
  repeat case_match; try apply _.
  - unfold instant_upload. apply preserves_bind_result; [|intros; apply _].
    apply preserves_Run; [apply _|]. intros s k s' Hs H'. by eapply instant_body_ledger.
  - apply preserves_bind_result; [apply _|]. intros []; apply _.
Qed.

Section complete.
Context (command : CompleteUploadCommand) (task : UploadTaskRow)
  (Htask : registered (cc_upload_id command) task ∧ t_user_id task = cc_user_id command).

Lemma preserves_commit session n content e :
  Preserves ledger (commit_upload date command task session n content e).
Proof.
  unfold commit_upload. apply preserves_bind_result; [apply _|]. intros v.
  apply preserves_bind; [|intros []; apply _]. apply preserves_Run; [apply _|].
  intros s k s' Hs H. by eapply finalize_body_ledger; [|apply Htask..|].
Qed.
#[local] Existing Instance preserves_commit.

Lemma preserves_place session storage n a c :
  Preserves ledger (place_content date blobs command task session storage n a c).
Proof. unfold place_content, discard. cbv zeta. solve_preserves. Qed.
#[local] Existing Instance preserves_place.

Lemma preserves_verify session storage n a :
  Preserves ledger (verify_assembly date blobs command task session storage n a).
Proof. unfold verify_assembly, finalize_lookup, discard. solve_preserves. Qed.
#[local] Existing Instance preserves_verify.

Lemma preserves_assemble session storage n chunks :
  Preserves ledger (assemble sha date blobs command task session storage n chunks).
Proof.
  unfold assemble, TriggerStagingReconciliationBestEffort. cbv zeta. solve_preserves.
Qed.
End complete.

Lemma preserves_complete command :
  Preserves ledger (CompleteUpload sha date staging blobs command).
Proof.
  unfold CompleteUpload. apply preserves_bind_result.
  { apply preserves_catch_all; [|apply _]. apply preserves_bind; [apply _|]. intros; apply _. }
  intros claim. destruct (fc_disposition claim); try apply _.
  - unfold finalize_upload.
    apply (preserves_bind_post _ (λ task : option UploadTaskRow, match task with
      | Some t => registered (cc_upload_id command) t ∧ t_user_id t = cc_user_id command
      | None => True end)).
    + unfold FindByIdForUser. solve_preserves.
    + intros e task e' Htx HI Hst. unfold FindByIdForUser, catch_db, catch.
      destruct (query _ e) as [[row|[]] e1] eqn:E; intros [= <- <-]; [|done].
      destruct (query_answer _ _ _ _ _ Htx HI Hst E) as (s & Hs & ->).
      destruct (upload_tasks s !! cc_upload_id command) as [t|] eqn:Ht; simpl; [|done].
      destruct (Z.eqb_spec (t_user_id t) (cc_user_id command)); [|done].
      split; [|done]. by apply Hs.
    + intros [task|] Htask; [|apply _].
      pose proof (preserves_assemble command task Htask).
      unfold FindStagingSessionForUser, ListChunksForAssembly. solve_preserves.
  - unfold replay_completed, FindCompletedFile. solve_preserves.
Qed.
End handlers.
End books.

(** ** The scan of exact books *)

Lemma resolve_works kind resource d cs : ∃ g,
  ResolveFinding kind resource (mkEnv d [] AutoCommit cs) =
    (Ret tt, mkEnv (d <| storage_reconciliation_findings := g |>) [] AutoCommit cs).
Proof.
  unfold ResolveFinding.
  destruct (storage_reconciliation_findings d !! (kind, resource)) as [g|] eqn:E;
    [destruct (g_resolved_at g) eqn:E'|].
  2: { eexists. apply exec_works. rewrite E, E'. reflexivity. }
  all: exists (storage_reconciliation_findings d); apply exec_works; rewrite E, ?E'; by destruct d.
Qed.

Lemma check_account_quiet scan row d cs :
  ar_storage_used row = ar_active_file_bytes row + ar_trash_item_bytes row →
  ar_storage_reserved row = ar_active_upload_reserved_bytes row →
  ar_storage_used row <= u64_max → ∃ g,
  check_account scan row (mkEnv d [] AutoCommit cs) =
    (Ret 0, mkEnv (d <| storage_reconciliation_findings := g |>) [] AutoCommit cs).
Proof.
  intros E1 E2 Hmax. unfold check_account. cbv zeta.
  rewrite (bind_Ret _ _ _ (ar_storage_used row) (mkEnv d [] AutoCommit cs));
    [|unfold AddWithoutOverflow; rewrite (proj2 (Z.ltb_ge _ _)) by lia; by rewrite E1].
  rewrite <- E2, !Z.eqb_refl.
  unfold record_or_resolve. simpl negb. cbv iota.
  set (f1 := account_finding kQuotaUsedMismatch _ _).
  set (f2 := account_finding kQuotaReservedMismatch _ _).
  destruct (resolve_works (rf_finding_type f1) (rf_resource_id f1) d cs) as [g1 H1].
  destruct (resolve_works (rf_finding_type f2) (rf_resource_id f2)
    (d <| storage_reconciliation_findings := g1 |>) cs) as [g2 H2].
  exists g2.
  rewrite (bind_Ret _ _ _ 0 (mkEnv (d <| storage_reconciliation_findings := g1 |>) [] AutoCommit cs))
    by (by rewrite (bind_Ret _ _ _ _ _ H1)).
  rewrite (bind_Ret _ _ _ 0 (mkEnv (d <| storage_reconciliation_findings := g2 |>) [] AutoCommit cs))
    by (by rewrite (bind_Ret _ _ _ _ _ H2)).
  done.
Qed.

Lemma check_accounts_quiet scan rows n next d cs :
  Forall (λ row, ar_storage_used row = ar_active_file_bytes row + ar_trash_item_bytes row ∧
    ar_storage_reserved row = ar_active_upload_reserved_bytes row ∧
    ar_storage_used row <= u64_max) rows → ∃ g next',
  check_accounts scan rows n next (mkEnv d [] AutoCommit cs) =
    (Ret (n, next'), mkEnv (d <| storage_reconciliation_findings := g |>) [] AutoCommit cs).
Proof.
  intros H. revert n next d. induction H as [|row rows (E1 & E2 & E3) _ IH]; intros n next d.
  - exists (storage_reconciliation_findings d), next. by destruct d.
  - destruct (check_account_quiet scan row d cs E1 E2 E3) as [g H1].
    destruct (IH (n + 0) (ar_id row) (d <| storage_reconciliation_findings := g |>))
      as (g' & next' & H2).
    exists g', next'. simpl. rewrite (bind_Ret _ _ _ _ _ H1), H2. by rewrite Z.add_0_r.
Qed.

(** ** Properties *)

(** C1: the upload lifecycle keeps the books.  Suppose every user's reserved bytes
    are those of the uploads under way, the used bytes those of the files and the
    trash, every reference count the number of references, and no user has two
    uploads of one file under way.  Then initializing, completing, cancelling and
    expiring uploads leave it so, whichever requests fail, whichever replies are
    lost, whatever the object stores answer, and whatever the other sessions do in
    between, as long as they keep the books too. *)
Theorem uploads_keep_books registry refs_held sha uuid date backend prefix staging blobs :
  let I := ledger registry refs_held in
  (∀ command,
     registry uuid = mkUploadIdentity (ic_user_id command) (ic_file_size command) →
     Preserves I (InitializeUpload uuid date backend prefix staging command)) ∧
  (∀ command, Preserves I (CompleteUpload sha date staging blobs command)) ∧
  (∀ upload_id user_id, Preserves I (CancelInProgressUpload upload_id user_id)) ∧
  (∀ limit, Preserves I (ExpireInProgressUploads limit)).
Proof.
  cbv zeta. split_and!.
  - intros. by apply preserves_initialize.
  - apply preserves_complete.
  - apply preserves_cancel.
  - apply preserves_expire_batch.
Qed.

(** The reconciliation scan of the accounts raises no false alarm: on exact books
    a page of the scan succeeds, records no finding and only touches the findings
    table. *)
Lemma exact_books_raise_no_alarm registry refs_held d request cs :
  ledger registry refs_held d →
  (∀ user a, users d !! user = Some a → u_storage_used a <= u64_max) →
  ∃ page g, RunUserPage request (mkEnv d [] AutoCommit cs) =
      (Ret (Ok page), mkEnv (d <| storage_reconciliation_findings := g |>) [] AutoCommit cs) ∧
    pr_findings_recorded page = 0.
Proof.
  intros (_ & Hu & _) Hmax. unfold RunUserPage.
  rewrite (bind_Ret _ _ _ _ _ (query_works _ _ _)).
  destruct (check_accounts_quiet (rp_scan_id request)
    (account_rows (rp_after_id request) (rp_limit request) d) 0 0 d cs) as (g & next & H).
  - unfold account_rows. apply Forall_fmap, Forall_take, Forall_forall.
    intros [user a] [Ha _]%elem_of_select_rows. unfold compose. simpl.
    destruct (Hu _ _ Ha) as [Hr Hv]. rewrite Hr, Hv. unfold zero.
    specialize (Hmax _ _ Ha). rewrite Hv in Hmax. unfold zero in Hmax.
    change (used_of user d) with (active_file_bytes user d + trash_item_bytes user d) in *.
    change (reserved_of user d) with (active_upload_reserved_bytes user d).
    split_and!; lia.
  - rewrite (bind_Ret _ _ _ _ _ H). by eexists _, g.
Qed.

(** ** Witnesses *)

Definition example_upload : UploadTaskRow :=
  mkUploadTaskRow 7 0 "a.txt" 10 "hash" 4 3 10 "up-1" "local" (Some "up-1") 0 0 None None 0
    None None None 500 None None 100.

(** One user with one upload of ten bytes under way. *)
Definition example_books : Database :=
  (empty_db 200) <| users := {[ 7 := mkUserRow 100 0 10 ]} |>
                 <| upload_tasks := {[ "up-1"%string := example_upload ]} |>.

Definition example_registry : string → UploadIdentity := λ _, mkUploadIdentity 7 10.

Lemma example_user u a :
  users example_books !! u = Some a → 7 = u ∧ mkUserRow 100 0 10 = a.
Proof.
  intros H. change (({[ 7 := mkUserRow 100 0 10 ]} : gmap _ _) !! u = Some a) in H.
  by apply lookup_singleton_Some in H.
Qed.

Lemma example_ledger : ledger example_registry (λ _ _, 0) example_books.
Proof.
  assert (∀ id t, upload_tasks example_books !! id = Some t →
    "up-1"%string = id ∧ example_upload = t) as Htask.
  { intros id t H.
    change (({[ "up-1"%string := example_upload ]} : gmap _ _) !! id = Some t) in H.
    by apply lookup_singleton_Some in H. }
  pose proof example_user as Huser.
  split_and!.
  - split; [split|split].
    + intros id t [_ <-]%Htask. done.
    + intros i j t t' [<- _]%Htask [<- _]%Htask. done.
    + intros i f Hf. change ((∅ : gmap Z FileRow) !! i = Some f) in Hf.
      by apply lookup_empty_Some in Hf.
    + intros i f Hf. change ((∅ : gmap Z ContentRow) !! i = Some f) in Hf.
      by apply lookup_empty_Some in Hf.
  - intros user a [<- <-]%Huser. split; reflexivity.
  - intros content. reflexivity.
Qed.

Lemma uploads_keep_books_witness :
  ledger example_registry (λ _ _, 0)
    (db (CancelInProgressUpload "up-1" 7 (mkEnv example_books [alone Works; alone Fails]
      AutoCommit [])).2).
Proof.
  destruct (uploads_keep_books example_registry (λ _ _, 0) (λ s, s) "u"%string 0 StagingLocal
    ""%string None None) as (_ & _ & H & _).
  apply (H "up-1"%string 7 (mkEnv example_books [alone Works; alone Fails] AutoCommit [])).
  - reflexivity.
  - exact example_ledger.
  - do 2 (apply Forall_cons_2; [intros s Hs; exact Hs|]). apply Forall_nil_2.
Defined.

Lemma exact_books_raise_no_alarm_witness :
  ∃ page g, RunUserPage (mkReconciliationPageRequest "scan" Users 0 "" 10)
      (mkEnv example_books [] AutoCommit []) =
      (Ret (Ok page), mkEnv (example_books <| storage_reconciliation_findings := g |>) []
        AutoCommit []) ∧
    pr_findings_recorded page = 0.
Proof.
  apply (exact_books_raise_no_alarm example_registry (λ _ _, 0) example_books
    (mkReconciliationPageRequest "scan" Users 0 "" 10) [] example_ledger).
  intros user a [<- <-]%example_user. done.
Defined.
