(* ===== verification/BlobCollector.v ===== *)
(** * The collector of blobs

    What the [blob_gc] job of [StorageJobWorker.v] does to the database and the blob
    store, whatever fails. *)

From S2P Require Import Prelude Errors Storage Db Rely UploadState Json Schema Batch Names Quota.
From S2P Require Import UploadTasks StorageJobs Content JobContract Files Reconciliation ReconcileScans.
From S2P Require Import Lifecycle Accounting StorageJobWorker.

Local Open Scope Z_scope.

#[export] Instance tx_body_ResolveFinding ty id : TxBody (ResolveFinding ty id).
Proof. unfold ResolveFinding. solve_tx_body. Qed.

#[export] Instance tx_body_MarkSucceeded id w : TxBody (MarkSucceeded id w).
Proof. unfold MarkSucceeded, ValidateBoundedValue. solve_tx_body. Qed.

#[export] Instance tx_body_gc_complete w job c : TxBody (gc_complete w job c).
Proof. unfold gc_complete. solve_tx_body. Qed.

(** ** The transaction *)

(** What follows the body. *)
Definition gc_finish (r : outcome gc_end * Env Database)
  : outcome JobExecutionResult * Env Database :=
  match r with
  | (Raise x, e) => (Ret (gc_thrown x), rollbackQuietly e)
  | (Ret (GcStop result), e) => (Ret result, rollbackQuietly e)
  | (Ret GcCommit, e) =>
      match Commit e with
      | (true, e) => (Ret (mkJobExecutionResult true false true ""), e)
      | (false, e) => (Ret (RetryableFailure "blob_gc transaction commit failed"), rollbackQuietly e)
      end
  end.

(** The end of a transaction that began on [s0]: back in auto-commit mode, having called
    the stores [l] times, on [s0] or on the state a fault-free run of [m] leads to. *)
Definition gc_ends (m : M Database gc_end) (s0 : Database) (sch : list (Step Database))
    (cs l : list StorageCall) (res : outcome JobExecutionResult * Env Database) : Prop :=
  ∃ r s' sch', res = (Ret r, mkEnv s' sch' AutoCommit (cs ++ l)%list) ∧ sch' `suffix_of` sch ∧
    (s' = s0 ∨ runs m s0 s0 GcCommit s').

Lemma gc_ends_suffix m s0 sch sch' cs l res : sch' `suffix_of` sch →
  gc_ends m s0 sch' cs l res → gc_ends m s0 sch cs l res.
Proof. intros Hs (r & s' & sch1 & -> & H & Ho). exists r, s', sch1. split_and!; [done|by etrans|done]. Qed.

(** A tail of the body that calls no store. *)
Lemma gc_tail (m : M Database gc_end) `{!TxBody m} s0 sch cs :
  gc_ends m s0 sch cs [] (gc_finish (m (mkEnv s0 sch (InTx s0 false) cs))).
Proof.
  unfold gc_ends. rewrite app_nil_r.
  destruct (tx_body_clean (m:=m) s0 sch s0 cs) as (o & s' & sch' & ab & -> & H2 & Hc).
  destruct o as [[|result]|x]; cbn;
    [|by exists result, s0, sch'; split_and!; [|done|left]|
      by exists (gc_thrown x), s0, sch'; split_and!; [|done|left]].
  assert (∀ st f, sch' = st :: f → f `suffix_of` sch) as H4
    by (intros st f ->; etrans; [|done]; by apply suffix_cons_r).
  assert (ab = false → runs m s0 s0 GcCommit s') as Hr.
  { intros Hab. destruct (Hc Hab) as [_ H]. exact H. }
  unfold Commit, next_step. cbn. destruct sch' as [|[g []] sch']; destruct ab; cbn;
    (eexists _, _, _; split_and!; [reflexivity|eauto using suffix_nil|]);
    first [by left | right; by apply Hr].
Qed.

(** What is left of the collection once the blob is deleted. *)
Definition gc_tail_body (w : string) (job : StorageJob) (c : BlobGcCandidate) : M Database gc_end :=
  deleted ← exec (gc_delete (i64 (gc_content_id c)));
  if negb (deleted =? 1)%Z
  then mret (GcStop (RetryableFailure "blob_gc content row changed before deletion"))
  else gc_complete w job c.

#[export] Instance tx_body_gc_tail_body w job c : TxBody (gc_tail_body w job c).
Proof. unfold gc_tail_body. solve_tx_body. Qed.

(** The content is gone, or has references. *)
Definition gc_idle (id : Z) (d : Database) : Prop :=
  ∀ row, file_contents d !! id = Some row → 0 < c_ref_count row.

(** The two ways a collection goes: without touching the blob, or by deleting it. *)
Definition gc_outcome (w : string) (job : StorageJob) (c : BlobGcCandidate) (s0 s' : Database)
    (l : list StorageCall) : Prop :=
  (l = [] ∧ (s' = s0 ∨ gc_idle (i64 (gc_content_id c)) s0 ∧ runs (gc_complete w job c) s0 s0 GcCommit s')) ∨
  (l = [CallDeleteBlob (gc_storage_path c)] ∧
   gc_content (i64 (gc_content_id c)) s0 = Some (gc_storage_path c, 0, false, false) ∧
   (s' = s0 ∨ runs (gc_tail_body w job c) s0 s0 GcCommit s')).

Lemma query_in_tx {A} (q : Database → A) s sch snap cs : ∃ sch', sch' `suffix_of` sch ∧
  (query q (mkEnv s sch (InTx snap false) cs) = (Ret (q s), mkEnv s sch' (InTx snap false) cs) ∨
   query q (mkEnv s sch (InTx snap false) cs) = (Raise DbException, mkEnv s sch' (InTx snap true) cs)).
Proof.
  unfold query, exec, next_step. destruct sch as [|[g []] sch]; cbn; eexists;
    (split; [|first [by left|by right]]); [done|apply suffix_cons_r..]; done.
Qed.

Lemma gc_body_outcome store w job c s0 sch cs : ∃ r s' sch' l,
  gc_finish (gc_body w store job c (mkEnv s0 sch (InTx s0 false) cs)) =
    (Ret r, mkEnv s' sch' AutoCommit (cs ++ l)%list) ∧ sch' `suffix_of` sch ∧
  gc_outcome w job c s0 s' l.
Proof.
  unfold gc_body, mbind at 1, M_bind at 1.
  destruct (query_in_tx (gc_content (i64 (gc_content_id c))) s0 sch s0 cs)
    as (sch1 & H1 & [-> | ->]).
  2: { exists (gc_thrown DbException), s0, sch1, []. rewrite app_nil_r.
       split_and!; [done|done|]. left. by split; [|left]. }
  assert (∀ result, ∃ r s' sch' l,
    gc_finish (Ret (GcStop result), mkEnv s0 sch1 (InTx s0 false) cs) =
      (Ret r, mkEnv s' sch' AutoCommit (cs ++ l)%list) ∧ sch' `suffix_of` sch ∧
    gc_outcome w job c s0 s' l) as Hstop.
  { intros result. exists result, s0, sch1, []. rewrite app_nil_r. split_and!; [done|done|].
    left. by split; [|left]. }
  assert (gc_idle (i64 (gc_content_id c)) s0 → ∃ r s' sch' l,
    gc_finish (gc_complete w job c (mkEnv s0 sch1 (InTx s0 false) cs)) =
      (Ret r, mkEnv s' sch' AutoCommit (cs ++ l)%list) ∧ sch' `suffix_of` sch ∧
    gc_outcome w job c s0 s' l) as Hcomplete.
  { intros Hidle. destruct (gc_tail (gc_complete w job c) s0 sch1 cs) as (r & s' & sch' & -> & H2 & Ho).
    exists r, s', sch', []. split_and!; [done|by etrans|]. left. split; [done|]. naive_solver. }
  destruct (gc_content _ s0) as [[[[path n] a] b]|] eqn:E.
  2: { apply Hcomplete. intros row Hrow. unfold gc_content in E. by rewrite Hrow in E. }
  destruct (String.eqb_spec path (gc_storage_path c)) as [->|]; cbn [negb]; [|apply Hstop].
  destruct (Z.ltb_spec 0 n) as [Hn|Hn].
  { apply Hcomplete. intros row Hrow. unfold gc_content in E. rewrite Hrow in E. simpl in E.
    injection E as _ <- _ _. done. }
  destruct (Z.ltb_spec n 0) as [|Hn0]; [apply Hstop|]. assert (n = 0) as -> by lia.
  destruct a; [apply Hstop|]. destruct b; [apply Hstop|]. cbn [orb].
  unfold gc_collect, mbind at 1, M_bind at 1, call_storage. cbn [calls db schedule tx].
  set (cs1 := (cs ++ [CallDeleteBlob (gc_storage_path c)])%list).
  destruct (DeleteBlob store cs (gc_storage_path c)) as [u|er].
  - destruct (gc_tail (gc_tail_body w job c) s0 sch1 cs1) as (r & s' & sch' & Er & H2 & Ho).
    exists r, s', sch', [CallDeleteBlob (gc_storage_path c)].
    split_and!; [|by etrans|by right; split_and!].
    rewrite app_nil_r in Er. exact Er.
  - eexists _, s0, sch1, [CallDeleteBlob (gc_storage_path c)]. split_and!; [reflexivity|done|].
    right. split_and!; [done|done|by left].
Qed.

(** The whole collection. *)
Lemma collection_outcome store w job c s sch cs :
  ∃ r s' sch' l, gc_transaction (gc_body w store job c) (mkEnv s sch AutoCommit cs) =
    (Ret r, mkEnv s' sch' AutoCommit (cs ++ l)%list) ∧ sch' `suffix_of` sch ∧
  gc_outcome w job c (arrive sch s) s' l.
Proof.
  assert (∀ sch1, sch1 `suffix_of` sch → ∃ r s' sch' l,
    gc_finish (gc_body w store job c (mkEnv (arrive sch s) sch1 (InTx (arrive sch s) false) cs)) =
      (Ret r, mkEnv s' sch' AutoCommit (cs ++ l)%list) ∧ sch' `suffix_of` sch ∧
    gc_outcome w job c (arrive sch s) s' l) as Hbody.
  { intros sch1 H1. destruct (gc_body_outcome store w job c (arrive sch s) sch1 cs)
      as (r & s' & sch' & l & ? & ? & ?). exists r, s', sch', l. split_and!; [done|by etrans|done]. }
  unfold gc_transaction, Begin, next_step. unfold gc_finish in Hbody.
  destruct sch as [|[g []] sch]; cbn in *; [by apply Hbody|apply Hbody; by apply suffix_cons_r|..];
    (eexists _, _, _, []; rewrite app_nil_r; split_and!; [reflexivity|by apply suffix_cons_r|];
     left; by split; [|left]).
Qed.

(** ** What is committed *)

Definition with_findings (g : gmap (string * string) FindingRow) (s : Database) : Database :=
  s <| storage_reconciliation_findings := g |>.

Lemma runs_resolve_finding ty id snap s u s' : runs (ResolveFinding ty id) snap s u s' →
  ∃ g, s' = with_findings g s.
Proof.
  intros H%runs_exec. injection H as _ <-.
  destruct (storage_reconciliation_findings s !! _) as [f|];
    [destruct (g_resolved_at f)|]; eexists; try reflexivity;
    (instantiate (1 := storage_reconciliation_findings s); by destruct s).
Qed.

(** The job of a committed collection was the worker's and is now done. *)
Lemma gc_complete_effect w job c snap s s' : runs (gc_complete w job c) snap s GcCommit s' →
  ∃ g j j', storage_jobs s !! sj_id job = Some j ∧ job_is Running j = true ∧
    j_dedupe_key j' = j_dedupe_key j ∧
    succeed_statement (sj_id job) w (with_findings g s) = Some (Some j', s') ∧
    s' = put_job (sj_id job) j' (with_findings g s).
Proof.
  unfold gc_complete. intros H. run_bind H u t H1. apply runs_resolve_finding in H1 as [g ->].
  run_bind H persisted t H1. destruct persisted; apply runs_ret in H as [E ->]; [|done].
  unfold MarkSucceeded in H1. assert (TxBody (ValidateBoundedValue w kMaxInstanceIdLength
    "Storage job instance ID")) by (unfold ValidateBoundedValue; solve_tx_body).
  run_bind H1 v t1 H2. run_bind H1 r t2 H3. apply runs_ret in H1 as [Hr ->].
  assert (t1 = with_findings g s) as ->.
  { unfold ValidateBoundedValue in H2. case_match; [by apply runs_raise in H2|].
    by apply runs_ret in H2 as [_ ->]. }
  apply runs_exec in H3. pose proof H3 as Hst. unfold succeed_statement in H3.
  apply update_job_Some in H3 as [[-> _]|(j & j' & Hj & Hg & Hset & _ & -> & ->)]; [done|].
  exists g, j, j'. injection Hset as Hset. split_and!; [exact Hj| |by rewrite <- Hset|exact Hst|done].
  unfold held_by in Hg. by apply andb_true_iff in Hg as [? _].
Qed.

(** A content nobody refers to has its collector scheduled, so the reference gate keeps
    it from being referred to again. *)
Definition zero_refs_gated (d : Database) : Prop :=
  ∀ id row, file_contents d !! id = Some row → c_ref_count row = 0 → gc_scheduled id d.

(** The job a worker holds is the row of its content in the queue. *)
Definition job_recorded (job : StorageJob) (d : Database) : Prop :=
  ∃ j, storage_jobs d !! sj_id job = Some j ∧
    j_dedupe_key j = ("blob-gc:" ++ sj_aggregate_id job)%string.

Lemma gc_scheduled_with_findings g id d : gc_scheduled id (with_findings g d) ↔ gc_scheduled id d.
Proof. done. Qed.

Lemma gc_scheduled_put_job id i j j' d : queue_ok (put_job i j' d) →
  storage_jobs d !! i = Some j → j_dedupe_key j' = j_dedupe_key j →
  j_dedupe_key j ≠ blob_gc_dedupe_key id → gc_scheduled id d → gc_scheduled id (put_job i j' d).
Proof.
  intros Hq Hj Hk Hne (i1 & j1 & Hf & Hrest). apply find_job_Some in Hf as [Hi1 Hk1].
  assert (i1 ≠ i) by (intros ->; congruence).
  exists i1, j1. split; [|done]. rewrite <- Hk1. apply find_job_unique; [done|].
  rewrite put_job_lookup. by case_decide.
Qed.

Section collector.
Context (registry : string → UploadIdentity) (refs_held : TrashRow → Z → Z).
Notation ledger := (ledger registry refs_held).
Notation refs_of := (refs_of refs_held).

(** What a collection relies on and keeps. *)
Definition collectable (job : StorageJob) (d : Database) : Prop :=
  ledger d ∧ queue_ok d ∧ zero_refs_gated d ∧ job_recorded job d.

(** Finishing the job keeps everything, once its content is gone or referred to. *)
Lemma gc_complete_keeps w job c snap s s' : collectable job s →
  sj_aggregate_id job = to_string (gc_content_id c) → gc_idle (i64 (gc_content_id c)) s →
  runs (gc_complete w job c) snap s GcCommit s' →
  collectable job s' ∧ file_contents s' = file_contents s ∧ files s' = files s ∧ trash s' = trash s.
Proof.
  intros (Hl & Hq & Hz & (j0 & Hj0 & Hk0)) Hagg Hidle Hr.
  apply gc_complete_effect in Hr as (g & j & j' & Hj & Hrun & Hk & Hst & ->).
  assert (j0 = j) as -> by congruence.
  set (t := with_findings g s) in *.
  assert (queue_ok (put_job (sj_id job) j' t)) as Hq'.
  { apply (execute_job_queue_ok (JSucceed (sj_id job) w) t); [exact Hq|].
    unfold execute_job. by rewrite Hst. }
  split; [|done]. split_and!; [by eapply off_frame|done| |].
  - intros id row Hrow Hzero. change (file_contents _) with (file_contents s) in Hrow.
    eapply (gc_scheduled_put_job id (sj_id job) j); [done|exact Hj|done| |by eapply (Hz id)].
    rewrite Hk0, Hagg. unfold blob_gc_dedupe_key. intros E.
    apply (inj (String.append "blob-gc:")) in E. apply (inj pretty) in E. subst id.
    destruct Hl as ((_ & _ & Hb) & _). destruct (Hb _ _ Hrow) as [Hb' _].
    apply bigint_Some in Hb' as [_ Hb']. specialize (Hidle row).
    rewrite i64_small in Hidle by done. specialize (Hidle Hrow). lia.
  - exists j'. split; [|by rewrite Hk]. rewrite put_job_lookup. by rewrite decide_True.
Qed.

(** Deleting a content without references keeps the books. *)
Lemma gc_delete_effect id d n d' : gc_delete id d = Some (n, d') → n = 1 →
  d' = d <| file_contents := delete id (file_contents d) |> ∧
  ∃ row, file_contents d !! id = Some row ∧ c_ref_count row = 0.
Proof.
  unfold gc_delete, gc_content. destruct (file_contents d !! id) as [row|]; simpl; [|naive_solver].
  intros H Hn. destruct (c_ref_count row) eqn:E; [|naive_solver..].
  repeat case_match; simplify_eq. eauto.
Qed.

Lemma delete_content_keeps job d id row : collectable job d →
  file_contents d !! id = Some row → c_ref_count row = 0 →
  collectable job (d <| file_contents := delete id (file_contents d) |>).
Proof.
  intros (Hl & Hq & Hz & Hj) Hrow Hn. split_and!; [|done| |done].
  - eapply off_ext; [eapply (off_contents _ _ zero zero zero zero d); try done| | |]; cbn; try done.
    + intros x [r Hr]. cbn in Hr. apply lookup_delete_Some in Hr as [_ ?]. eauto.
    + intros x. unfold stored_refs, zero. cbn. destruct (decide (x = id)) as [->|].
      * rewrite lookup_delete_eq, Hrow. simpl. lia.
      * rewrite lookup_delete_ne by done. lia.
  - intros x r Hr. cbn in Hr. apply lookup_delete_Some in Hr as [_ Hr]. by apply Hz.
Qed.

Lemma gc_tail_keeps w job c snap s s' : collectable job s →
  sj_aggregate_id job = to_string (gc_content_id c) →
  runs (gc_tail_body w job c) snap s GcCommit s' →
  collectable job s' ∧ file_contents s' !! i64 (gc_content_id c) = None ∧
  files s' = files s ∧ trash s' = trash s.
Proof.
  intros Hc Hagg H. unfold gc_tail_body in H. run_bind H deleted t H1. apply runs_exec in H1.
  destruct (Z.eqb_spec deleted 1) as [->|]; cbn [negb] in H; [|by apply runs_ret in H as [? _]].
  destruct (gc_delete_effect _ _ _ _ H1 eq_refl) as (-> & row & Hrow & Hn).
  pose proof (delete_content_keeps _ _ _ _ Hc Hrow Hn) as Hc'.
  apply gc_complete_keeps in H as (? & E & ? & ?); [|done|done|].
  - split_and!; [done| |done|done]. rewrite E. apply lookup_delete_eq.
  - intros r Hr. cbn in Hr. by rewrite lookup_delete_eq in Hr.
Qed.

Lemma ParseBlobGcCandidate_aggregate job c : ParseBlobGcCandidate job = Value c →
  sj_aggregate_id job = to_string (gc_content_id c).
Proof.
  unfold ParseBlobGcCandidate. intros H. inv_expected. injection H as <-.
  repeat match goal with H : (_ && _) = true |- _ => clear H end. by case_bools.
Qed.

(** C5: the collector deletes only blobs nobody refers to.  Let the database be
    [collectable] and the other sessions keep it so: the books are exact, the queue of jobs is
    well-formed, every content without references has its collector job scheduled and not
    finished, and the job at hand is recorded in the queue.  Then, whatever statement or reply
    fails and whatever the blob store answers, [ExecuteBlobGc] answers and leaves the database
    [collectable]; and a blob it deletes is that of a content, as the transaction finds it, to
    which no file and no trash entry refers, and which is afterwards gone or still has its
    collector scheduled, so that nobody can refer to it again. *)
Theorem collector_spares_referenced_blobs store w job d sch cs :
  collectable job d → stable (collectable job) sch →
  ∃ r d' sch' l, ExecuteBlobGc (Some store) w job (mkEnv d sch AutoCommit cs) =
    (Ret r, mkEnv d' sch' AutoCommit (cs ++ l)%list) ∧ collectable job d' ∧
    ∀ p, CallDeleteBlob p ∈ l → ∃ id row, file_contents (arrive sch d) !! id = Some row ∧
      c_storage_path row = p ∧ refs_of id d' = 0 ∧
      (file_contents d' !! id = None ∨ gc_scheduled id d').
Proof.
  intros Hd Hst. unfold ExecuteBlobGc. destruct (ParseBlobGcCandidate job) as [c|er] eqn:Ep.
  2: { exists (PermanentFailure er), d, sch, []. rewrite app_nil_r. split_and!; [done|done|].
       intros p Hp. by apply elem_of_nil in Hp. }
  apply ParseBlobGcCandidate_aggregate in Ep as Hagg.
  destruct (collection_outcome store w job c d sch cs) as (r & s' & sch' & l & -> & _ & Ho).
  pose proof (stable_arrive _ _ _ Hd Hst) as Ha. set (s0 := arrive sch d) in *.
  exists r, s', sch', l. split; [done|].
  destruct Ho as [[-> [->|[Hidle Hr]]]|(-> & Hg & Hr)].
  - split; [done|]. intros p Hp. by apply elem_of_nil in Hp.
  - destruct (gc_complete_keeps _ _ _ _ _ _ Ha Hagg Hidle Hr) as [? _]. split; [done|].
    intros p Hp. by apply elem_of_nil in Hp.
  - unfold gc_content in Hg. destruct (file_contents s0 !! _) as [row|] eqn:Hrow; [|done].
    injection Hg as Hp Hn _ _.
    assert (refs_of (i64 (gc_content_id c)) s0 = 0) as Hrefs.
    { destruct Ha as ((_ & _ & Hc) & _). specialize (Hc (i64 (gc_content_id c))).
      unfold stored_refs, zero in Hc. rewrite Hrow in Hc. simpl in Hc. lia. }
    assert (collectable job s' ∧ refs_of (i64 (gc_content_id c)) s' = 0 ∧
      (file_contents s' !! i64 (gc_content_id c) = None ∨ gc_scheduled (i64 (gc_content_id c)) s'))
      as (? & ? & ?).
    { destruct Hr as [->|Hr]; [split_and!; [done|done|right]; by eapply Ha|].
      destruct (gc_tail_keeps _ _ _ _ _ _ Ha Hagg Hr) as (? & ? & Ef & Et).
      split_and!; [done| |by left]. unfold refs_of, Accounting.refs_of. rewrite Ef, Et. exact Hrefs. }
    split; [done|]. intros p [= ->]%list_elem_of_singleton. eauto 7.
Qed.
End collector.

(** ** Witness *)

Definition collector_blobs : IBlobStore := {|
  PromoteToFinal _ _ _ := Err (mkErrorInfo InternalError "");
  OpenBlobRangeForRead _ _ _ _ := Err (mkErrorInfo FileReadError "");
  BlobExists _ _ := Ok true;
  GetLocalBlobPathForDownload _ := None;
  GetBlobSize _ _ := Ok 10;
  DeleteBlob _ _ := Ok tt;
  ListFinalObjects _ _ _ := Err (mkErrorInfo InternalError "")
|}.

Definition collector_payload : json :=
  JObject [("content_id"%string, JInt 7); ("storage_path"%string, JString "p/7")].

(** Content 7 has no references, and the worker ["w"] has claimed its collector. *)
Definition collector_db : Database :=
  (empty_db 100) <| file_contents := {[7 := mkContentRow "m7" "s7" 10 "p/7" "" 0]} |>
    <| file_contents_id_seq := 8 |>
    <| storage_jobs := {[1 := mkJobRow "blob_gc" "7" "blob-gc:7" collector_payload 1 1 8 90
                                (Some "w"%string) (Some 200) None None 50]} |>
    <| storage_jobs_id_seq := 2 |>.

Definition collector_job : StorageJob :=
  mkStorageJob 1 "blob_gc" "7" "blob-gc:7" collector_payload Running 1 8 "w" false.

Lemma collector_db_collectable :
  collectable (λ _, mkUploadIdentity 0 0) (λ _ _, 0) collector_job collector_db.
Proof.
  assert (∀ i j, storage_jobs collector_db !! i = Some j → i = 1 ∧
    j = mkJobRow "blob_gc" "7" "blob-gc:7" collector_payload 1 1 8 90
          (Some "w"%string) (Some 200) None None 50) as Hj.
  { intros i j H. cbn in H. apply lookup_singleton_Some in H as [<- <-]. done. }
  assert (∀ c row, file_contents collector_db !! c = Some row → c = 7 ∧ c_ref_count row = 0) as Hc.
  { intros c row H. cbn in H. apply lookup_singleton_Some in H as [<- <-]. done. }
  split_and!.
  - split_and!; try done. split; [split|split]; try done.
    + intros c row [-> _]%Hc. done.
    + intros c. unfold stored_refs. destruct (file_contents collector_db !! c) as [row|] eqn:E; [|done].
      destruct (Hc _ _ E) as [_ Hz]. simpl. by rewrite Hz.
  - split_and!.
    + by intros i i' j j' [-> _]%Hj [-> _]%Hj _.
    + by intros i j [-> _]%Hj.
    + intros i j [_ ->]%Hj. split; [done|]. cbn. lia.
  - intros c row [-> _]%Hc _. exists 1. eexists. by split_and!.
  - eexists. by split.
Qed.

Lemma collector_spares_referenced_blobs_witness :
  ∃ r d' l, ExecuteBlobGc (Some collector_blobs) "w" collector_job
      (mkEnv collector_db [] AutoCommit []) = (Ret r, mkEnv d' [] AutoCommit l) ∧
    l = [CallDeleteBlob "p/7"] ∧ file_contents d' !! 7 = None ∧ refs_of (λ _ _, 0) 7 d' = 0.
Proof.
  destruct (collector_spares_referenced_blobs (λ _, mkUploadIdentity 0 0) (λ _ _, 0)
    collector_blobs "w" collector_job collector_db [] [] collector_db_collectable)
    as (r & d' & sch' & l & E & _ & Hp); [by constructor|].
  assert (∃ r1 d1, ExecuteBlobGc (Some collector_blobs) "w" collector_job
    (mkEnv collector_db [] AutoCommit []) = (Ret r1, mkEnv d1 [] AutoCommit [CallDeleteBlob "p/7"]) ∧
    file_contents d1 !! 7 = None) as (r1 & d1 & E1 & Hd1).
  { eexists _, _. split; [vm_compute; reflexivity|vm_compute; reflexivity]. }
  rewrite E1 in E. injection E as <- <- <- <-. exists r1, d1, [CallDeleteBlob "p/7"].
  split_and!; [exact E1|done|done|].
  destruct (Hp "p/7"%string) as (id & row & Hrow & _ & Hrefs & _); [by apply list_elem_of_here|].
  cbn in Hrow. apply lookup_singleton_Some in Hrow as [<- _]. exact Hrefs.
Defined.
