(* ===== verification/TrashBooks.v ===== *)
(** * The books and the trash

    The operations of [src/src/services/TrashService.cpp] keep the books of
    [Accounting.v]: moving items to the trash, restoring them and deleting them for
    good, whatever fails and whoever interferes.  Items to delete are read before
    the transaction that deletes them, so the proof relies on trash entries never
    being changed and their identifiers never being reused. *)

From S2P Require Import Prelude Errors Storage Db Rely UploadState Json Schema Batch Names Quota.
From S2P Require Import UploadTasks StorageJobs Content JobContract Files Folders DeletePlans.
From S2P Require Import Trash TrashMoves Reconciliation Lifecycle Accounting.

Local Open Scope Z_scope.

(** ** Trash entries never change *)

(** Entries may disappear and new ones appear, under new identifiers. *)
Definition trash_evolves (d d' : Database) : Prop :=
  trash_id_seq d <= trash_id_seq d' ∧
  ∀ i x, i < trash_id_seq d → trash d' !! i = Some x → trash d !! i = Some x.

#[export] Instance trash_evolves_preorder : PreOrder trash_evolves.
Proof.
  split; [by intros d; split|]. intros d1 d2 d3 [H1 H1'] [H2 H2']. split; [lia|].
  intros i x Hi Hx. apply H1'; [done|]. apply H2'; [lia|done].
Qed.

Lemma trash_evolves_same d d' :
  trash d' = trash d → trash_id_seq d' = trash_id_seq d → trash_evolves d d'.
Proof. intros E1 E2. split; [lia|]. intros i x _. by rewrite E1. Qed.

Section books.
Context (registry : string → UploadIdentity) (real_text : Z → Z → string).

(** ** References held by the trash *)

(** The contents of the files in the snapshot of a folder. *)
Definition snapshot_files (item_data : json) : list SnapshotFile :=
  default [] (parse_files real_text (json_elements (json_get item_data "files"))).

Definition item_refs (type : string) (content_id : option Z) (item_data : json) (c : Z) : Z :=
  if (type =? "file")%string then
    match ResolveRequiredContentId content_id item_data with
    | Ok r => if rc_value r =? c then 1 else 0
    | Err _ => 0
    end
  else occurrences c (sn_content_id <$> snapshot_files item_data).

Definition refs_held (x : TrashRow) : Z → Z :=
  item_refs (x_item_type x) (x_content_id x) (x_item_data x).

(** A folder in the trash can be read back, and its size is that of its files. *)
Definition tree_ok (item_data : json) (item_size : Z) : Prop :=
  (∀ o, ParseFolderTreeSnapshot real_text item_data = Some o → is_Some o) ∧
  isArray (json_get item_data "files") = true ∧
  is_Some (parse_files real_text (json_elements (json_get item_data "files"))) ∧
  zsum ((λ f, i64 (sn_size f)) <$> snapshot_files item_data) = item_size ∧
  Forall (λ f, 0 <= i64 (sn_size f) ∧ 0 <= i32 (sn_download_count f)) (snapshot_files item_data).

Definition entry_ok (x : TrashRow) : Prop :=
  0 <= x_item_size x < 2 ^ 63 ∧ x_item_name x ≠ ""%string ∧
  (x_item_type x = "folder"%string → tree_ok (x_item_data x) (x_item_size x)).

(** Rows are in range and identifiers positive. *)
Record rows_ok (d : Database) : Prop := {
  ro_seqs : 0 < files_id_seq d ∧ 0 < folders_id_seq d;
  ro_files : ∀ i f, files d !! i = Some f →
    0 < i < 2 ^ 63 ∧ 0 < f_content_id f < 2 ^ 63 ∧ f_name f ≠ ""%string ∧
    0 <= f_size f < 2 ^ 63 ∧ 0 <= f_download_count f < 2 ^ 31;
  ro_folders : ∀ i g, folders d !! i = Some g → 0 < i < 2 ^ 63 ∧ d_name g ≠ ""%string;
  ro_trash : ∀ i x, trash d !! i = Some x → i < trash_id_seq d ∧ entry_ok x;
  ro_users : ∀ u a, users d !! u = Some a → u_storage_used a < 2 ^ 63;
  ro_contents : ∀ c row, file_contents d !! c = Some row → c_ref_count row < 2 ^ 31
}.

Notation off := (off registry refs_held).
Notation ledger := (ledger registry refs_held).

Definition books (d : Database) : Prop := ledger d ∧ rows_ok d.

Lemma refs_held_nonneg x c : 0 <= refs_held x c.
Proof.
  unfold refs_held, item_refs. destruct (_ =? _)%string; [|apply occurrences_nonneg].
  destruct (ResolveRequiredContentId _ _); [|done]. by destruct (_ =? _).
Qed.

(** ** Moving rows *)

(** The books after rows of the files and the trash changed. *)
Lemma off_rows r v c dv dc d d' : off r v c d →
  users d' = users d → file_contents d' = file_contents d → upload_tasks d' = upload_tasks d →
  files_id_seq d <= files_id_seq d' → file_contents_id_seq d <= file_contents_id_seq d' →
  (∀ i f, files d' !! i = Some f → i < files_id_seq d') →
  (∀ u, used_of u d' = used_of u d + dv u) →
  (∀ x, refs_of refs_held x d' = refs_of refs_held x d + dc x) →
  off r (λ u, v u - dv u) (λ x, c x - dc x) d'.
Proof.
  intros (((? & ?) & _ & Hk3) & Hu & Hc) E1 E2 E3 L1 L2 Hk Hv Hx.
  unfold off, well_keyed, one_active, stored_refs, reserved_of in *. rewrite E1, E2, E3.
  split_and!; try done.
  - intros i f Hf. destruct (Hk3 _ _ Hf). split; [done|lia].
  - intros u a Ha. destruct (Hu _ _ Ha). rewrite Hv. split; [done|lia].
  - intros x. rewrite Hx. specialize (Hc x). lia.
Qed.

(** Rows only disappear or keep what matters. *)
Lemma rows_ok_shrink d d' : rows_ok d →
  files_id_seq d <= files_id_seq d' → folders_id_seq d <= folders_id_seq d' →
  trash_id_seq d <= trash_id_seq d' →
  (∀ i f, files d' !! i = Some f → files d !! i = Some f) →
  (∀ i g, folders d' !! i = Some g → ∃ h, folders d !! i = Some h ∧ d_name g = d_name h) →
  (∀ i x, trash d' !! i = Some x → trash d !! i = Some x) →
  (∀ u a, users d' !! u = Some a → ∃ b, users d !! u = Some b ∧ u_storage_used a <= u_storage_used b) →
  (∀ i row, file_contents d' !! i = Some row → ∃ row', file_contents d !! i = Some row' ∧
     c_ref_count row <= c_ref_count row') → rows_ok d'.
Proof.
  intros [Hs Hf Hg Ht Hu Hc] L1 L2 L3 F G T U C. split.
  - lia.
  - intros i f H. by apply F, Hf in H.
  - intros i g (h & H & E)%G. apply Hg in H as [? ?]. split; [done|congruence].
  - intros i x H. apply T, Ht in H as [? ?]. split; [lia|done].
  - intros u a (b & H & ?)%U. apply Hu in H. lia.
  - intros i row (row' & H & ?)%C. apply Hc in H. lia.
Qed.

(** ** Moving to the trash *)

Definition item_ok (item : TrashInsertItem) : Prop :=
  0 <= ti_item_size item < 2 ^ 63 ∧ ti_item_name item ≠ ""%string ∧
  (ti_item_type item = "folder"%string → tree_ok (ti_item_data item) (ti_item_size item)).

Definition refs_of_item (item : TrashInsertItem) : Z → Z :=
  item_refs (ti_item_type item) (ti_content_id item) (ti_item_data item).

Lemma off_put_trash r v c d id x : off r v c d → rows_ok d → id = trash_id_seq d → entry_ok x →
  let d' := put_trash id x (d <| trash_id_seq := id + 1 |>) in
  off r (λ u, v u - if u =? x_user_id x then x_item_size x else 0) (λ y, c y - refs_held x y) d' ∧
  rows_ok d' ∧ trash_evolves d d'.
Proof.
  intros Hoff Hok -> Hx d'.
  assert (trash d !! trash_id_seq d = None) as Hfresh.
  { apply eq_None_not_Some. intros [y Hy]. destruct (ro_trash _ Hok _ _ Hy). lia. }
  split_and!.
  - eapply off_rows; [exact Hoff|..]; try done.
    + apply Hoff.
    + intros u. unfold used_of. cbn -[sum_rows]. rewrite sum_rows_insert by done.
      rewrite (Z.eqb_sym u). lia.
    + intros y. unfold refs_of. cbn -[sum_rows refs_held]. rewrite sum_rows_insert by done. lia.
  - destruct Hok as [Hs Hf Hg Ht Hu Hc]. split; [done..| |done|done].
    intros i y. cbn. intros [[<- <-]|[_ Hy]]%lookup_insert_Some; [split; [lia|done]|].
    apply Ht in Hy as [? ?]. split; [lia|done].
  - split; [cbn; lia|]. intros i y Hi. cbn. rewrite lookup_insert_ne by lia. done.
Qed.

Lemma insert_trash_books user items d d' r v c :
  insert_trash user items d = Some (tt, d') → off r v c d → rows_ok d →
  (∀ item, item ∈ items → is_Some (users d !! user) →
     - 2 ^ 63 <= ti_item_size item < 2 ^ 63 → item_ok item) →
  off r (λ u, v u - if u =? user then zsum (ti_item_size <$> items) else 0)
    (λ y, c y - zsum ((λ item, refs_of_item item y) <$> items)) d' ∧
  rows_ok d' ∧ trash_evolves d d' ∧
  d' = d <| trash := trash d' |> <| trash_id_seq := trash_id_seq d' |> ∧
  (items ≠ [] → is_Some (users d !! user)).
Proof.
  revert d v c. induction items as [|item items IH]; intros d v c; cbn [insert_trash].
  - intros [= <-] Hoff Hok _. split_and!; try done; [|by destruct d].
    eapply off_ext; [exact Hoff|..]; intros; simpl; repeat case_match; lia.
  - intros (id & [-> _]%bigint_Some & H)%bind_Some Hoff Hok Hitems.
    destruct (check_trash _ d) eqn:Hchk; [|done]. unfold check_trash in Hchk. cbn in Hchk.
    case_bools. match goal with H : bigint _ = Some _ |- _ => apply bigint_Some in H as [_ Hb] end.
    match goal with H : is_Some (users d !! user) |- _ => rename H into Huser end.
    destruct (Hitems item) as (Hsz & Hn & Htree); [by left|done|done|].
    destruct (off_put_trash r v c d (trash_id_seq d) (trash_row user item d) Hoff Hok eq_refl)
      as (Hoff1 & Hok1 & Hev1); [exact (conj Hsz (conj Hn Htree))|].
    set (d1 := put_trash _ _ _) in *.
    destruct (IH _ _ _ H Hoff1 Hok1) as (Hoff2 & Hok2 & Hev2 & Heq & _).
    { intros it Hit. apply Hitems. by right. }
    split_and!; [|done|by etrans|by rewrite Heq|done].
    eapply off_ext; [exact Hoff2|done|..].
    + intros u. rewrite fmap_cons, zsum_cons. cbn [x_user_id x_item_size trash_row].
      destruct (u =? user); lia.
    + intros y. rewrite fmap_cons, zsum_cons.
      change (refs_held (trash_row user item d) y) with (refs_of_item item y). lia.
Qed.

Lemma off_quiet r v c d d' : quiet d d' → off r v c d → off r v c d'.
Proof. intros [? ? ? ? ? (?&?&?&?) _] ?. eapply off_frame; [done|..]; try done; lia. Qed.

Lemma rows_ok_quiet d d' : quiet d d' → rows_ok d → rows_ok d'.
Proof.
  intros [E1 E2 E3 _ E5 (?&?&?&?) Hf] Hok. eapply rows_ok_shrink; [exact Hok|..]; try lia;
    rewrite ?E1, ?E2, ?E3, ?E5; eauto using Z.le_refl.
  intros i g Hg. specialize (Hf i). rewrite Hg in Hf.
  destruct (folders d !! i) as [h|]; [|done]. exists h. split; [done|]. by injection Hf.
Qed.

Lemma evolves_quiet d d' : quiet d d' → trash_evolves d d'.
Proof. intros [? ? ? ? ? (?&?&?&?) _]. by apply trash_evolves_same. Qed.

(** The books do not read which file an upload has become. *)
Lemma off_forget r v c d ids : off r v c d →
  off r v c (d <| upload_tasks ::= fmap (forget_completed ids) |>).
Proof.
  assert (∀ t, let t' := forget_completed ids t in
    t_user_id t' = t_user_id t ∧ t_file_size t' = t_file_size t ∧
    t_reserved_bytes t' = t_reserved_bytes t ∧ t_file_hash t' = t_file_hash t ∧
    active t' = active t) as Hsame.
  { intros t. unfold forget_completed. by repeat case_match. }
  intros (((Hreg & Hone) & Hk2 & Hk3) & Hu & Hc).
  split; [split; [split|by split]|split; [|exact Hc]].
  - intros id t. cbn. rewrite lookup_fmap_Some. intros (t0 & <- & Ht%Hreg).
    unfold registered. by destruct (Hsame t0) as (-> & -> & -> & _).
  - intros id id' t t'. cbn. rewrite !lookup_fmap_Some. intros (t0 & <- & Ht) (t1 & <- & Ht').
    destruct (Hsame t0) as (-> & _ & _ & -> & ->), (Hsame t1) as (-> & _ & _ & -> & ->). eauto.
  - intros user a Ha. destruct (Hu user a Ha) as [-> ->]. split; [|done]. f_equal.
    unfold reserved_of. cbn -[sum_rows active]. rewrite sum_rows_fmap. apply sum_rows_ext.
    intros _ t _. by destruct (Hsame t) as (-> & _ & -> & _ & ->).
Qed.

(** Files deleted: their bytes and references are no longer accounted for. *)
Lemma off_delete_files r v c d ids (l : list file_row) : off r v c d →
  NoDup l.*1 → (∀ i f, (i, f) ∈ l → files d !! i = Some f) → (∀ i, i ∈ ids ↔ i ∈ l.*1) →
  off r (λ u, v u + zsum ((λ f : file_row, if f_user_id f.2 =? u then f_size f.2 else 0) <$> l))
    (λ y, c y + occurrences y ((λ f : file_row, f_content_id f.2) <$> l))
    (d <| files := (delete_rows ids (files d)).2 |>).
Proof.
  intros Hoff Hnd Hl Hids.
  assert (∀ k, (delete_rows ids (files d)).2 !! k =
    if decide (k ∈ l.*1) then None else files d !! k) as Hm.
  { intros k. rewrite delete_rows_lookup. specialize (Hids k). repeat case_decide; tauto. }
  eapply off_ext; [eapply off_rows with
      (dv := λ u, - zsum ((λ f : file_row, if f_user_id f.2 =? u then f_size f.2 else 0) <$> l))
      (dc := λ y, - occurrences y ((λ f : file_row, f_content_id f.2) <$> l));
    [exact Hoff|..]| | |]; try done.
  - intros i f. cbn. rewrite Hm. case_decide; [done|]. apply Hoff.
  - intros u. unfold used_of. cbn -[sum_rows].
    rewrite (sum_rows_split _ l (files d) _ Hnd Hl Hm). lia.
  - intros y. unfold refs_of, occurrences. cbn -[sum_rows]. rewrite <- list_fmap_compose.
    rewrite (sum_rows_split _ l (files d) _ Hnd Hl Hm). unfold compose. lia.
  - intros u. simpl. lia.
  - intros y. simpl. lia.
Qed.

Lemma rows_ok_delete_files d ids : rows_ok d →
  rows_ok (d <| files := (delete_rows ids (files d)).2 |>).
Proof.
  intros Hok. eapply rows_ok_shrink; [exact Hok|..]; cbn; try lia; eauto using Z.le_refl.
  intros i f. rewrite delete_rows_lookup. by case_decide.
Qed.

Lemma rows_ok_forget d ids : rows_ok d →
  rows_ok (d <| upload_tasks ::= fmap (forget_completed ids) |>).
Proof. intros [? ? ? ? ? ?]. by split. Qed.

Lemma off_delete_folders r v c d t : off r v c d → off r v c (d <| folders := t |>).
Proof. intros ?. by eapply off_frame. Qed.

Lemma rows_ok_delete_folders d t : rows_ok d →
  (∀ i g, t !! i = Some g → folders d !! i = Some g) → rows_ok (d <| folders := t |>).
Proof.
  intros Hok Ht. eapply rows_ok_shrink; [exact Hok|..]; cbn; try lia; eauto using Z.le_refl.
Qed.

Section moving.
(** The items of a deletion hold the bytes and references of its files. *)
Context (iteration : list Z → list Z) (toDbStringLocal : Z → string) (date : Z).

Definition ranged (f : file_row) : Prop :=
  0 < f.1 < 2 ^ 63 ∧ 0 < f_content_id f.2 < 2 ^ 63 ∧ f_name f.2 ≠ ""%string ∧
  0 <= f_size f.2 < 2 ^ 63 ∧ 0 <= f_download_count f.2 < 2 ^ 31.

Lemma rows_ranged d f : rows_ok d → files d !! f.1 = Some f.2 → ranged f.
Proof. intros Hok Hf. by apply (ro_files _ Hok). Qed.

Lemma resolve_column c data : 0 < c →
  ResolveRequiredContentId (Some c) data = Ok (mkResolvedContentId c Column).
Proof. intros Hc. unfold ResolveRequiredContentId. by rewrite (proj2 (Z.ltb_lt 0 c)). Qed.

Lemma file_item_ok f : ranged f → item_ok (file_item f) ∧
  ti_item_size (file_item f) = f_size f.2 ∧
  ∀ y, refs_of_item (file_item f) y = occurrences y [f_content_id f.2].
Proof.
  intros (_ & Hc & Hn & Hs & _). unfold file_item, refs_of_item, item_refs, item_ok. cbn -[u64 ResolveRequiredContentId].
  rewrite !u64_small by lia. split_and!; try done; try lia.
  intros y. rewrite resolve_column by lia. unfold occurrences. simpl. case_match; lia.
Qed.

(** The size of a plan, when it does not overflow. *)
Lemma plan_size (l : list file_row) n : Forall ranged l →
  0 <= n → n + zsum ((λ f : file_row, f_size f.2) <$> l) < 2 ^ 63 →
  foldl (λ n (f : file_row), u64 (n + u64 (f_size f.2))) n l =
    n + zsum ((λ f : file_row, f_size f.2) <$> l).
Proof.
  intros Hl. revert n. induction Hl as [|f l Hf Hl IH]; intros n Hn Hb; cbn [foldl]; [simpl; lia|].
  rewrite fmap_cons, zsum_cons in *. destruct Hf as (_ & _ & _ & Hs & _).
  assert (0 <= zsum ((λ f : file_row, f_size f.2) <$> l)).
  { apply zsum_nonneg, Forall_fmap. eapply Forall_impl; [exact Hl|]. intros g (_ & _ & _ & ? & _).
    unfold compose. lia. }
  rewrite !u64_small; [|lia..|rewrite u64_small; lia]. rewrite IH; lia.
Qed.

Lemma parse_folder_root f p : 0 < f.1 < 2 ^ 63 →
  parse_folder real_text (folder_json toDbStringLocal f) = Some p →
  sd_id p = f.1 ∧ sd_name p = d_name f.2.
Proof.
  intros Hf. unfold parse_folder, folder_json, json_member, json_find.
  cbn -[json_to_unsigned u64]. unfold json_asUInt64, json_asUInt, u64_max. rewrite (u64_small f.1) by lia.
  rewrite (unsigned_ok _ f.1) by lia. cbn -[json_to_unsigned u64].
  intros (a & _ & H)%bind_Some. apply bind_Some in H as (b & _ & H).
  apply bind_Some in H as (c & _ & [= <-]). done.
Qed.

Lemma folder_item_ok d p l : rows_ok d → pl_files p = l →
  (∃ i, pl_root p = (i, (pl_root p).2) ∧ folders d !! i = Some (pl_root p).2) →
  Forall good_file l → pl_item_size p = zsum ((λ f : file_row, f_size f.2) <$> l) →
  0 <= pl_item_size p < 2 ^ 63 →
  item_ok (folder_item toDbStringLocal p) ∧
  ti_item_size (folder_item toDbStringLocal p) = zsum ((λ f : file_row, f_size f.2) <$> l) ∧
  ∀ y, refs_of_item (folder_item toDbStringLocal p) y =
       occurrences y ((λ f : file_row, f_content_id f.2) <$> l).
Proof.
  intros Hok El (i & Ei & Hi) Hgood Hsize Hrange.
  pose proof (ro_folders _ Hok _ _ Hi) as [Hid Hname].
  assert (snapshot_files (BuildFolderSnapshot toDbStringLocal p) = snapshot_file <$> l) as Hsnap.
  { unfold snapshot_files, BuildFolderSnapshot. cbn -[parse_files file_json].
    by rewrite El, parse_files_json. }
  split_and!; [|done|].
  - split; [cbn; lia|]. split; [done|]. intros _. cbn [ti_item_data ti_item_size folder_item].
    split_and!.
    + intros o. unfold ParseFolderTreeSnapshot, BuildFolderSnapshot, json_member, json_find,
        json_isMember. cbn -[parse_folder folder_json parse_folders parse_files file_json].
      intros (b & Hb & H)%bind_Some. assert (b = true) as -> by (cbn in Hb; by simplify_eq).
      cbn [negb] in H. apply bind_Some in H as (pr & Hpr & H). apply bind_Some in H as (ds & _ & H).
      apply bind_Some in H as (fs & _ & [= <-]).
      apply parse_folder_root in Hpr as [-> ->]; [|rewrite Ei; simpl; lia].
      rewrite (proj2 (Z.eqb_neq _ 0)) by (rewrite Ei; simpl; lia).
      rewrite str_empty_false by done. simpl. eauto.
    + done.
    + unfold BuildFolderSnapshot. cbn -[parse_files file_json].
      rewrite El, parse_files_json by done. eauto.
    + rewrite Hsnap, Hsize, <- list_fmap_compose. apply zsum_ext. intros f Hf.
      unfold compose. simpl. rewrite Forall_forall in Hgood.
      destruct (Hgood f Hf) as (_ & _ & _ & _ & ? & _). rewrite i64_small; lia.
    + rewrite Hsnap. apply Forall_fmap. eapply Forall_impl; [exact Hgood|].
      intros f (_ & _ & _ & _ & ? & ?). unfold compose. simpl.
      rewrite i64_small, i32_small; lia.
  - intros y. unfold refs_of_item, item_refs. cbn [folder_item ti_item_type ti_item_data].
    simpl (String.eqb _ _). cbv iota. rewrite Hsnap, <- list_fmap_compose. done.
Qed.

(** The plans of a deletion, as items. *)
Lemma plan_item_ok d u ids plans l r p : books d → plan_shape ids u d plans →
  NoDup l.*1 → (∀ f : file_row, f ∈ l → files d !! f.1 = Some f.2 ∧ f_user_id f.2 = u) →
  is_Some (users d !! u) → plans !! r = Some p →
  item_ok (folder_item toDbStringLocal (refill l p)) ∧
  ti_item_size (folder_item toDbStringLocal (refill l p)) =
    zsum ((λ f : file_row, f_size f.2) <$> pl_files (refill l p)) ∧
  ∀ y, refs_of_item (folder_item toDbStringLocal (refill l p)) y =
    occurrences y ((λ f : file_row, f_content_id f.2) <$> pl_files (refill l p)).
Proof.
  intros [Hled Hok] Hshape Hnd Hl [a Ha] Hp.
  pose proof (Hshape r) as Hr. rewrite Hp in Hr. destruct Hr as (_ & Hroot & _ & Hf).
  apply Hf in Hroot as [Hroot _].
  set (fl := pl_files (refill l p)).
  assert (∀ f, f ∈ fl → f ∈ l ∧ f_folder_id f.2 ∈ folder_ids_of p) as Hfl.
  { intros f H. unfold fl, refill in H. cbn in H.
    by rewrite list_elem_of_In, List.filter_In, <- list_elem_of_In, bool_decide_eq_true in H. }
  assert (Forall ranged fl) as Hrg.
  { apply Forall_forall. intros f [H _]%Hfl. apply Hl in H as [H _]. by eapply rows_ranged. }
  assert (zsum ((λ f : file_row, f_size f.2) <$> fl) < 2 ^ 63) as Hb.
  { destruct Hled as (_ & Hu & _). destruct (Hu _ _ Ha) as [_ Hused].
    pose proof (ro_users _ Hok _ _ Ha). unfold zero in Hused.
    assert (zsum ((λ f : file_row, f_size f.2) <$> fl) <= used_of u d); [|lia].
    unfold used_of.
    assert (0 <= sum_rows (λ (_ : Z) x, if x_user_id x =? u then x_item_size x else 0) (trash d)).
    { apply sum_rows_nonneg. intros i x Hx. destruct (ro_trash _ Hok _ _ Hx) as [_ [? _]].
      case_match; lia. }
    pose proof (sum_rows_ge (λ (_ : Z) f, if f_user_id f =? u then f_size f else 0) fl (files d))
      as Hge. cbn [fst snd] in Hge. rewrite (zsum_ext _ (λ f : file_row, f_size f.2)) in Hge.
    - enough (zsum ((λ f : file_row, f_size f.2) <$> fl) <=
        sum_rows (λ (_ : Z) f, if f_user_id f =? u then f_size f else 0) (files d)) by lia.
      apply Hge.
      + apply NoDup_fmap_2_strong.
        * intros f g [Hf1 _]%Hfl [Hg1 _]%Hfl. by apply (locked_fst l).
        * unfold fl, refill. cbn. apply NoDup_ListNoDup, List.NoDup_filter, NoDup_ListNoDup.
          by eapply NoDup_fmap_1.
      + intros i f [Hx _]%Hfl. by apply Hl in Hx as [? _].
      + intros i f Hx. destruct (ro_files _ Hok _ _ Hx) as (_ & _ & _ & ? & _). case_match; lia.
    - intros f [Hx _]%Hfl. apply Hl in Hx as [_ E]. by rewrite E, Z.eqb_refl. }
  assert (0 <= zsum ((λ f : file_row, f_size f.2) <$> fl)) as H0.
  { apply zsum_nonneg, Forall_fmap. eapply Forall_impl; [exact Hrg|].
    intros g (_ & _ & _ & ? & _). unfold compose. lia. }
  assert (pl_item_size (refill l p) = zsum ((λ f : file_row, f_size f.2) <$> fl)) as Hsz.
  { unfold refill. cbn [pl_item_size set]. cbn -[foldl zsum u64]. fold (pl_files (refill l p)).
    change (foldl (λ n (f : file_row), u64 (n + u64 (f_size f.2))) 0 fl =
      zsum ((λ f : file_row, f_size f.2) <$> fl)). rewrite plan_size; [lia|done..]. }
  apply (folder_item_ok d (refill l p) fl Hok eq_refl).
  - exists (pl_root p).1. cbn. split; [by destruct (pl_root p)|done].
  - rewrite Forall_forall in Hrg |- *. intros f Hfin. destruct (Hfl f Hfin) as [_ Hfold].
    destruct (Hrg f Hfin) as (? & ? & ? & ? & ?).
    apply (plan_shape_ids _ _ _ _ _ _ Hshape Hp) in Hfold as [[g Hg] _].
    destruct (ro_folders _ Hok _ _ Hg). unfold good_file. split_and!; done || lia.
  - done.
  - by rewrite Hsz.
Qed.

(** Sums over the items of a deletion are sums over its files. *)
Lemma deletion_sums fs ds u d plans l (Fi : TrashInsertItem → Z) (Ff : file_row → Z) :
  NoDup fs → NoDup ds → plan_shape ds u d plans → NoDup l.*1 →
  (∀ f, f ∈ l → Fi (file_item f) = Ff f) →
  (∀ r p, plans !! r = Some p →
     Fi (folder_item toDbStringLocal (refill l p)) = zsum (Ff <$> pl_files (refill l p))) →
  let dl := deletion fs l (FilterCoveredFolderIds ds plans) plans in
  zsum (Fi <$> trash_items toDbStringLocal dl) = zsum (Ff <$> deleted_files fs ds l plans).
Proof.
  intros Hfs Hds Hs Hl Hfile Hfolder dl. unfold trash_items, deleted_files.
  rewrite !fmap_app, !zsum_app, <- !list_fmap_compose. f_equal.
  - apply zsum_ext. intros f Hf. apply Hfile. by apply (elem_of_explicit fs ds l plans) in Hf as [? _].
  - fold dl. unfold dl. rewrite (deletion_plans fs ds l plans Hds), <- list_fmap_compose.
    rewrite zsum_bind, <- list_fmap_compose. apply zsum_ext. intros p Hp. unfold compose.
    unfold plans_of in Hp. apply list_elem_of_omap in Hp as (r & _ & Hp). by eapply Hfolder.
Qed.

Lemma move_body_books fs ds u s dl s' : NoDup fs → NoDup ds →
  runs (move_body iteration toDbStringLocal date fs ds u) s s (Ok dl) s' →
  books s → books s' ∧ trash_evolves s s'.
Proof.
  intros Hfs Hds H Hbooks. apply runs_move_body in H as (plans & l & t & t' & M).
  destruct M as [Hshape _ Hl Hrows -> Hne Hins Hq ->].
  set (dl0 := deletion fs l (FilterCoveredFolderIds ds plans) plans) in *.
  set (rows := deleted_files fs ds l plans).
  assert (∀ f : file_row, f ∈ l → files s !! f.1 = Some f.2 ∧ f_user_id f.2 = u) as Hl'.
  { intros f Hf%Hrows. tauto. }
  assert (∀ f : file_row, f ∈ rows → f ∈ l) as Hsub by (intros f; by apply (deleted_files_locked fs ds l plans)).
  destruct Hbooks as [Hled Hok].
  pose proof (λ f Hf, file_item_ok f (rows_ranged s f Hok (proj1 (Hl' f Hf)))) as Hfile.
  pose proof (λ Hu r p Hp,
    plan_item_ok s u ds plans l r p (conj Hled Hok) Hshape Hl Hl' Hu Hp) as Hfolder.
  destruct (insert_trash_books _ _ _ _ _ _ _ Hins Hled Hok) as (Hoff & Hok1 & Hev1 & Heq1 & Huser).
  { intros item Hitem Hu _. unfold trash_items in Hitem.
    apply elem_of_app in Hitem as [Hitem|Hitem]; apply list_elem_of_fmap in Hitem as (z & -> & Hz).
    - apply (elem_of_explicit fs ds l plans) in Hz as [Hz _]; [|done..]. by apply Hfile.
    - unfold dl0 in Hz. rewrite (deletion_plans fs ds l plans Hds) in Hz.
      apply list_elem_of_fmap in Hz as (p & -> & Hp). unfold plans_of in Hp.
      apply list_elem_of_omap in Hp as (r & _ & Hp). by eapply Hfolder. }
  specialize (Huser Hne).
  pose proof (deletion_sums fs ds u s plans l) as Hsums. cbv zeta in Hsums. fold dl0 rows in Hsums.
  rewrite (Hsums _ (λ f : file_row, f_size f.2)) in Hoff; [|done..| |].
  2: { intros f Hf. by apply Hfile. } 2: { intros r p Hp. by eapply Hfolder. }
  pose proof (off_quiet _ _ _ _ _ Hq Hoff) as Hoff2.
  eapply (off_delete_files _ _ _ _ (file_ids_to_delete dl0) rows) in Hoff2.
  - apply (off_forget _ _ _ _ (file_ids_to_delete dl0)) in Hoff2. split.
    + split.
      2: { apply rows_ok_delete_folders.
        - apply rows_ok_forget, rows_ok_delete_files, (rows_ok_quiet _ _ Hq), Hok1.
        - intros i g. rewrite delete_rows_lookup. by case_decide. }
      eapply off_ext; [apply off_delete_folders; exact Hoff2|done|..].
      * intros x. unfold zero. rewrite (Z.eqb_sym x).
        assert (∀ f, f ∈ rows → (if f_user_id f.2 =? x then f_size f.2 else 0) =
          if u =? x then f_size f.2 else 0) as E.
        { intros f Hf%Hsub. by destruct (Hl' _ Hf) as [_ ->]. }
        rewrite (zsum_ext _ _ _ E). destruct (u =? x); [lia|].
        assert (∀ k : list file_row, zsum ((λ _, 0) <$> k) = 0) as -> by (by induction k). lia.
      * intros y. unfold zero, occurrences. rewrite <- list_fmap_compose.
        rewrite (Hsums _ (λ f : file_row, if f_content_id f.2 =? y then 1 else 0)); [|done..| |].
        -- unfold compose. lia.
        -- intros f Hf. destruct (Hfile f Hf) as (_ & _ & ->). unfold occurrences. simpl. lia.
        -- intros r p Hp. destruct (Hfolder Huser r p Hp) as (_ & _ & ->). unfold occurrences.
           by rewrite <- list_fmap_compose.
    + etrans; [exact Hev1|]. etrans; [by apply evolves_quiet|]. by apply trash_evolves_same.
  - by apply (deleted_files_NoDup fs ds u s l plans).
  - intros i f Hf%Hsub. rewrite (qu_files _ _ Hq). rewrite Heq1. cbn.
    by destruct (Hl' _ Hf).
  - intros i. apply elem_of_files_to_delete.
Qed.

End moving.

(** ** Deleting for good *)

(** Only the accounts of existing users matter. *)
Lemma off_ext_users r v c v' d : off r v c d →
  (∀ u, is_Some (users d !! u) → v u = v' u) → off r v' c d.
Proof.
  intros (Hk & Hu & Hc) Hv. split; [done|]. split; [|done]. intros u a Ha.
  rewrite <- Hv by eauto. by apply Hu.
Qed.

Definition item_contents (item : TrashLifecycleRecord) : list Z :=
  if (tr_item_type item =? "file")%string then
    match ResolveRequiredContentId (tr_content_id item) (tr_item_data item) with
    | Ok r => [rc_value r] | Err _ => []
    end
  else default [] (ExtractSnapshotContentIds real_text (tr_item_data item)).

(** Items a deletion for good skips: files without a usable content. *)
Definition refundable (item : TrashLifecycleRecord) : bool :=
  negb (tr_item_type item =? "file")%string ||
  is_ok (ResolveRequiredContentId (tr_content_id item) (tr_item_data item)).

Definition refund_of (r : Refund) (items : list TrashLifecycleRecord) : Refund :=
  foldl (λ r item, refund_item r item (item_contents item)) r items.

Lemma runs_collect_refund items req r0 snap s r s' :
  runs (collect_refund real_text items req r0) snap s r s' →
  s' = s ∧ r = refund_of r0 (List.filter refundable items) ∧
  ∀ item, item ∈ List.filter refundable items →
    tr_item_type item = "file"%string ∨
    (tr_item_type item = "folder"%string ∧
     is_Some (ExtractSnapshotContentIds real_text (tr_item_data item))).
Proof.
  revert r0. induction items as [|item items IH]; intros r0; cbn [collect_refund].
  - intros [-> ->]%runs_ret. split_and!; [done..|]. by intros item ?%elem_of_nil.
  - cbn [List.filter]. destruct (refundable item) eqn:Er; unfold refundable in Er;
    revert Er.
    + destruct (String.eqb_spec (tr_item_type item) "file") as [Ety|_]; cbn [negb orb].
      * destruct (ResolveRequiredContentId _ _) as [c|e] eqn:E; [intros _|done].
        intros (-> & -> & Hin)%IH. split; [done|]. split.
        { unfold refund_of. cbn [foldl].
          assert (item_contents item = [rc_value c]) as ->; [|done].
          unfold item_contents. by rewrite Ety, E. }
        intros it [->|?]%elem_of_cons; [by left|by apply Hin].
      * intros _. destruct (String.eqb_spec (tr_item_type item) "folder") as [Ety|_];
          [|by intros ?%runs_raise].
        destruct (ExtractSnapshotContentIds _ _) as [ids|] eqn:E; [|by intros ?%runs_raise].
        intros (-> & -> & Hin)%IH. split; [done|]. split.
        { unfold refund_of. cbn [foldl].
          assert (item_contents item = ids) as ->; [|done].
          unfold item_contents. by rewrite Ety, E. }
        intros it [->|?]%elem_of_cons; [right; by rewrite E|by apply Hin].
    + destruct (String.eqb_spec (tr_item_type item) "file") as [Ety|_]; cbn [negb orb]; [|done].
      destruct (ResolveRequiredContentId _ _) as [c|e] eqn:E; [done|intros _].
      destruct req; [by intros ?%runs_raise|]. apply IH.
Qed.

(** What the fields of a refund hold. *)
Lemma refund_ids r items :
  rf_trash_ids (refund_of r items) = (rf_trash_ids r ++ (tr_id <$> items))%list.
Proof.
  revert r. induction items as [|item items IH]; intros r; [by rewrite app_nil_r|].
  unfold refund_of in *. cbn [foldl]. rewrite IH. cbn. by rewrite <- app_assoc.
Qed.

Lemma u64_add_l a b : u64 (u64 a + b) = u64 (a + b).
Proof. unfold u64. by rewrite Zplus_mod_idemp_l. Qed.

Lemma i64_sub_l a b : i64 (i64 a - b) = i64 (a - b).
Proof.
  unfold i64. rewrite <- (Zplus_mod_idemp_l (a - b)).
  replace ((a + 2 ^ 63) mod 2 ^ 64 - 2 ^ 63 - b + 2 ^ 63) with ((a + 2 ^ 63) mod 2 ^ 64 - b) by lia.
  rewrite Zminus_mod_idemp_l, Zplus_mod_idemp_l. f_equal. f_equal. lia.
Qed.

Lemma i64_idem a : i64 (i64 a) = i64 a.
Proof. pose proof (i64_sub_l a 0) as H. by rewrite !Z.sub_0_r in H. Qed.

Lemma count_references m l c :
  default 0 (foldl count_reference m l !! c) =
    if decide (c ∈ l) then u64 (default 0 (m !! c) + occurrences c l) else default 0 (m !! c).
Proof.
  revert m. induction l as [|a l IH]; intros m; cbn [foldl].
  - by rewrite decide_False by set_solver.
  - rewrite IH. unfold count_reference, occurrences. rewrite fmap_cons, zsum_cons.
    fold (occurrences c l). destruct (decide (a = c)) as [->|Hne].
    + rewrite lookup_insert_eq, (decide_True (P := c ∈ c :: l)) by (by left). cbn [default].
      rewrite Z.eqb_refl. case_decide as Hin.
      * simpl. rewrite u64_add_l. f_equal. lia.
      * simpl. f_equal. assert (occurrences c l = 0) as ->; [|lia].
        clear -Hin. induction l as [|b l IH]; [done|]. unfold occurrences.
        rewrite fmap_cons, zsum_cons. fold (occurrences c l).
        rewrite IH by set_solver. rewrite (proj2 (Z.eqb_neq b c)) by set_solver. done.
    + rewrite lookup_insert_ne, (proj2 (Z.eqb_neq a c)) by done.
      repeat case_decide; try set_solver.
Qed.

Lemma refund_decrements r items :
  rf_content_ref_decrements (refund_of r items) =
    foldl count_reference (rf_content_ref_decrements r) (items ≫= item_contents).
Proof.
  revert r. induction items as [|item items IH]; intros r; [done|].
  change ((item :: items) ≫= item_contents)
    with (item_contents item ++ (items ≫= item_contents))%list.
  rewrite foldl_app. unfold refund_of in *. cbn [foldl]. by rewrite IH.
Qed.

Lemma not_in_occurrences c l : c ∉ l → occurrences c l = 0.
Proof.
  induction l as [|b l IH]; intros Hin; [done|]. unfold occurrences.
  rewrite fmap_cons, zsum_cons. fold (occurrences c l). rewrite IH by set_solver.
  by rewrite (proj2 (Z.eqb_neq b c)) by set_solver.
Qed.

Lemma refund_decrement items c :
  delta_of (rf_content_ref_decrements (refund_of no_refund items)) c =
    u64 (occurrences c (items ≫= item_contents)).
Proof.
  rewrite refund_decrements. unfold delta_of.
  change (rf_content_ref_decrements no_refund) with (∅ : gmap Z Z).
  rewrite count_references, lookup_empty.
  case_decide as Hin; [simpl; f_equal; lia|]. by rewrite not_in_occurrences.
Qed.

(** The bytes of a user among the items. *)
Definition bytes_of (items : list TrashLifecycleRecord) (u : Z) : Z :=
  zsum ((λ item, if tr_user_id item =? u then i64 (tr_item_size item) else 0) <$> items).

Lemma refund_delta r items u :
  i64 (default 0 (rf_user_storage_delta r !! u)) = default 0 (rf_user_storage_delta r !! u) →
  default 0 (rf_user_storage_delta (refund_of r items) !! u) =
    i64 (default 0 (rf_user_storage_delta r !! u) - bytes_of items u) ∧
  (rf_user_storage_delta (refund_of r items) !! u = None → bytes_of items u = 0).
Proof.
  revert r. induction items as [|item items IH]; intros r Hr.
  - unfold bytes_of. simpl. split; [|done]. by rewrite Z.sub_0_r.
  - unfold refund_of. cbn [foldl]. fold (refund_of (refund_item r item (item_contents item)) items).
    destruct (IH (refund_item r item (item_contents item))) as [IH1 IH2].
    + cbn. destruct (decide (tr_user_id item = u)) as [<-|Hne].
      * rewrite lookup_insert_eq. simpl. apply i64_idem.
      * by rewrite lookup_insert_ne.
    + unfold bytes_of in *. rewrite fmap_cons, zsum_cons. rewrite IH1. cbn.
      destruct (Z.eqb_spec (tr_user_id item) u) as [<-|Hne].
      * rewrite lookup_insert_eq. simpl. split; [rewrite i64_sub_l; f_equal; lia|].
        intros Hnone. exfalso. clear -Hnone.
        assert (∀ r items u, is_Some (rf_user_storage_delta r !! u) →
          is_Some (rf_user_storage_delta (refund_of r items) !! u)) as Hkeep.
        { clear. intros r items u. revert r. induction items as [|it items IH]; intros r Hr; [done|].
          unfold refund_of. cbn [foldl]. apply IH. cbn. apply lookup_insert_is_Some'. by right. }
        destruct (Hkeep (refund_item r item (item_contents item)) items (tr_user_id item))
          as [z Hz]; [cbn; rewrite lookup_insert_eq; eauto|]. congruence.
      * rewrite lookup_insert_ne by done. split; [f_equal; lia|]. intros Hnone. by rewrite IH2.
Qed.

(** The enqueued jobs do not concern the books. *)
Lemma enqueue_gc_frame l snap s u s' : runs (enqueue_gc l) snap s u s' →
  s' = s <| storage_jobs := storage_jobs s' |> <| storage_jobs_id_seq := storage_jobs_id_seq s' |>.
Proof.
  revert s. induction l as [|[id path] l IH]; intros s; simpl.
  - intros [_ ->]%runs_ret. by destruct s.
  - intros H. run_bind H b t H1. apply IH in H. rewrite H. clear H IH.
    unfold EnqueueOrRearmSucceeded in H1. run_bind H1 w t1 H2. apply runs_ValidateNewJob in H2 as ->.
    run_bind H1 jid t2 H2. apply runs_exec in H2.
    assert (t2 = s <| storage_jobs := storage_jobs t2 |>
                   <| storage_jobs_id_seq := storage_jobs_id_seq t2 |>) as E.
    { destruct (insert_job_Some _ _ _ _ _ H2)
        as [_ [(_ & _ & ->)|(? & ? & _ & [(_ & _ & ->)|(? & _ & _ & _ & ->)])]]; by destruct s. }
    assert (t = t2) as ->; [|by rewrite E]. clear -H1.
    destruct jid; [by apply runs_ret in H1 as [_ ->]|].
    run_bind H1 found t3 H2. apply runs_query in H2 as [_ ->].
    repeat case_match; first [by apply runs_ret in H1 as [_ ->]|by apply runs_raise in H1].
Qed.

Lemma update_ref_counts_None f ids d rows d' : update_ref_counts f ids d = Some (rows, d') →
  ∀ id, file_contents d !! id = None → file_contents d' !! id = None.
Proof.
  revert d rows. induction ids as [|i ids IH]; intros d rows; simpl; [by intros [= _ <-]|].
  destruct (file_contents d !! i) as [row|] eqn:Hrow; [|by apply IH].
  intros (n & _ & ([k d1] & H & [= _ <-])%bind_Some)%bind_Some id Hid. eapply IH; [exact H|].
  cbn. rewrite lookup_insert_ne; [done|]. intros ->. congruence.
Qed.

Lemma runs_decrement decs snap s n s' :
  runs (DecrementRefCountsAndEnqueueGc decs) snap s (Ok n) s' →
  (s' = s <| file_contents := file_contents s' |> <| storage_jobs := storage_jobs s' |>
          <| storage_jobs_id_seq := storage_jobs_id_seq s' |>) ∧
  ∀ id, match file_contents s !! id with
        | Some row => file_contents s' !! id = Some row ∧ delta_of decs id = 0 ∨
            file_contents s' !! id =
              Some (row <| c_ref_count := Z.max (c_ref_count row - i32 (delta_of decs id)) 0 |>)
        | None => file_contents s' !! id = None
        end.
Proof.
  unfold DecrementRefCountsAndEnqueueGc. case_decide as E.
  - intros [_ ->]%runs_ret. split; [by destruct s|]. intros id.
    destruct (file_contents s !! id); [left|done]. split; [done|]. unfold delta_of.
    destruct (decs !! id) as [k|] eqn:Hk; [|done]. simpl. destruct (decide (k = 0)); [done|].
    pose proof (CollectContentIds_elem _ _ _ Hk n0) as Hin. rewrite E in Hin.
    by apply elem_of_nil in Hin.
  - intros [H|(x & q & t & [= <-] & [[=] _]%runs_ret)]%runs_catch;
      [|solve_tx_body|by intros x q [= <-]; apply _].
    run_bind H rows d1 Hu. apply runs_exec in Hu.
    destruct (update_ref_counts_Some _ _ _ _ _ (CollectContentIds_NoDup decs) Hu)
      as (Hframe & Hout & Hupd).
    run_bind H zs d2 Hz. apply runs_query in Hz as [-> ->].
    run_bind H w d3 Hgc. apply runs_ret in H as [_ ->]. apply enqueue_gc_frame in Hgc.
    assert (file_contents d3 = file_contents d1) as Ec by (by rewrite Hgc).
    split; [rewrite Hgc, Hframe; by destruct s|]. intros id. rewrite Ec.
    destruct (decide (id ∈ CollectContentIds decs)) as [Hin|Hni].
    + destruct (file_contents s !! id) as [row|] eqn:Hrow.
      * destruct (Hupd id row Hin Hrow) as (m & Hm & Hid). right. rewrite Hid.
        apply bind_Some in Hm as (m' & [-> _]%int4_Some & [= <-]). done.
      * by apply (update_ref_counts_None _ _ _ _ _ Hu).
    + rewrite Hout by done. destruct (file_contents s !! id) as [row|]; [left|done].
      split; [done|]. unfold delta_of. destruct (decs !! id) as [k|] eqn:Hk; [|done]. simpl.
      destruct (decide (k = 0)); [done|]. by destruct Hni; eapply CollectContentIds_elem.
Qed.

(** Entries deleted: their bytes and references are no longer accounted for. *)
Lemma off_delete_trash r v c d ids (l : list (Z * TrashRow)) : off r v c d →
  NoDup l.*1 → (∀ i x, (i, x) ∈ l → trash d !! i = Some x) → (∀ i, i ∈ ids ↔ i ∈ l.*1) →
  off r (λ u, v u + zsum ((λ x : Z * TrashRow, if x_user_id x.2 =? u then x_item_size x.2 else 0) <$> l))
    (λ y, c y + zsum ((λ x : Z * TrashRow, refs_held x.2 y) <$> l))
    (d <| trash := (delete_rows ids (trash d)).2 |>).
Proof.
  intros Hoff Hnd Hl Hids.
  assert (∀ k, (delete_rows ids (trash d)).2 !! k =
    if decide (k ∈ l.*1) then None else trash d !! k) as Hm.
  { intros k. rewrite delete_rows_lookup. specialize (Hids k). repeat case_decide; tauto. }
  eapply off_ext; [eapply off_rows with
      (dv := λ u, - zsum ((λ x : Z * TrashRow, if x_user_id x.2 =? u then x_item_size x.2 else 0) <$> l))
      (dc := λ y, - zsum ((λ x : Z * TrashRow, refs_held x.2 y) <$> l));
    [exact Hoff|..]| | |]; try done.
  - apply Hoff.
  - intros u. unfold used_of. cbn -[sum_rows].
    rewrite (sum_rows_split _ l (trash d) _ Hnd Hl Hm). lia.
  - intros y. unfold refs_of. cbn -[sum_rows refs_held].
    rewrite (sum_rows_split _ l (trash d) _ Hnd Hl Hm). lia.
  - intros u. simpl. lia.
  - intros y. simpl. lia.
Qed.

Lemma rows_ok_delete_trash d t : rows_ok d → (∀ i x, t !! i = Some x → trash d !! i = Some x) →
  rows_ok (d <| trash := t |>).
Proof.
  intros Hok Ht. eapply rows_ok_shrink; [exact Hok|..]; cbn; try lia; eauto using Z.le_refl.
Qed.

Lemma used_of_nonneg d u : rows_ok d → 0 <= used_of u d.
Proof.
  intros Hok. unfold used_of. apply Z.add_nonneg_nonneg; apply sum_rows_nonneg.
  - intros i f Hf. destruct (ro_files _ Hok _ _ Hf) as (_ & _ & _ & ? & _). case_match; lia.
  - intros i x Hx. destruct (ro_trash _ Hok _ _ Hx) as (_ & ? & _). case_match; lia.
Qed.

(** Every account gets back the bytes it is owed. *)
Lemma return_bytes_books l snap s w s' r v c :
  runs (return_bytes l) snap s w s' → NoDup l.*1 → off r v c s → rows_ok s →
  (∀ u delta a, (u, delta) ∈ l → users s !! u = Some a → delta = - v u ∧ 0 <= v u) →
  off r (λ u, if decide (u ∈ l.*1) then 0 else v u) c s' ∧ rows_ok s' ∧
  s' = s <| users := users s' |> ∧ (∀ u, is_Some (users s' !! u) ↔ is_Some (users s !! u)).
Proof.
  revert s v. induction l as [|[u delta] l IH]; intros s v; cbn [return_bytes].
  - intros [_ ->]%runs_ret _ Hoff Hok _. split_and!; [|done|by destruct s|done].
    eapply off_ext; [exact Hoff|done| |done]. intros u. by rewrite decide_False by set_solver.
  - intros H Hnd Hoff Hok Hl. rewrite fmap_cons in Hnd. apply NoDup_cons in Hnd as [Hu Hnd].
    cbn [fst] in Hu. run_bind H z t H1.
    assert (off r (λ x, if x =? u then 0 else v x) c t ∧ rows_ok t ∧ t = s <| users := users t |> ∧
      (∀ u, is_Some (users t !! u) ↔ is_Some (users s !! u)))
      as (Hoff1 & Hok1 & Eq1 & Hus1).
    { destruct (Z.eqb_spec delta 0) as [->|Hd].
      - apply runs_ret in H1 as [_ ->]. split_and!; [|done|by destruct s|done].
        eapply off_ext_users; [exact Hoff|]. intros x [a Ha]. destruct (Z.eqb_spec x u) as [->|]; [|done].
        destruct (Hl u 0 a) as [? _]; [by left|done|]. lia.
      - unfold or_throw in H1. run_bind H1 res t1 H2.
        destruct res as [[]|e]; [|by apply runs_raise in H1]. apply runs_ret in H1 as [_ ->].
        apply (runs_account (Account.Adjust delta)) in H2 as [[E _]|(a & a' & Ha & Happ & ->)];
          [simpl in E; lia|].
        destruct (Hl u delta a) as [Hdelta Hv]; [by left|done|].
        assert (a' = a <| u_storage_used := u_storage_used a + delta |>) as ->.
        { unfold Account.apply in Happ. simpl in Happ.
          rewrite (proj2 (Z.eqb_neq (Z.abs delta) 0)), (proj2 (Z.ltb_lt delta 0)) in Happ by lia.
          injection Happ as <-. destruct Hoff as (_ & Hacc & _). destruct (Hacc u a Ha) as [_ Hused].
          pose proof (used_of_nonneg s u Hok). by rewrite Z.max_l by lia. }
        split_and!.
        + destruct Hoff as (Hk & Hacc & Hc). split; [done|]. split; [|done].
          intros x b. change (users (put_account u (a <| u_storage_used := u_storage_used a + delta |>) s))
            with (<[u:=a <| u_storage_used := u_storage_used a + delta |>]> (users s)).
          change (reserved_of x (put_account u ?y s)) with (reserved_of x s).
          change (used_of x (put_account u ?y s)) with (used_of x s).
          destruct (Z.eqb_spec x u) as [->|Hne].
          * rewrite lookup_insert_eq. intros [= <-]. destruct (Hacc _ _ Ha). cbn. lia.
          * rewrite lookup_insert_ne by done. intros Hb. apply (Hacc _ _ Hb).
        + eapply rows_ok_shrink; [exact Hok|..]; cbn; try lia; eauto using Z.le_refl.
          intros x b. intros [[<- <-]|[_ Hb]]%lookup_insert_Some; [|eauto using Z.le_refl].
          exists a. split; [done|]. cbn. lia.
        + done.
        + intros x. cbn. rewrite lookup_insert_is_Some'. split; [intros [<-|?]; eauto|by right]. }
    destruct (IH t (λ x, if x =? u then 0 else v x)) as (Hoff2 & Hok2 & Eq2 & Hus2); try done.
    { intros x dx a Hin Ha. destruct (Z.eqb_spec x u) as [->|].
      - destruct Hu. apply list_elem_of_fmap. by exists (u, dx).
      - destruct (proj1 (Hus1 x)) as [b Hb]; [eauto|]. apply (Hl x dx b); [by right|done]. }
    split_and!; [|done|rewrite Eq2, Eq1; by destruct s|intros x; by rewrite Hus2].
    eapply off_ext; [exact Hoff2|done| |done]. intros x. cbn beta. rewrite fmap_cons. cbn [fst].
    destruct (Z.eqb_spec x u) as [->|].
    + rewrite (decide_True (P := u ∈ u :: l.*1)) by (by left). by case_decide.
    + repeat case_decide; set_solver.
Qed.

(** What a record read from the trash says about it, for good. *)
Definition known (item : TrashLifecycleRecord) (d : Database) : Prop :=
  tr_id item < trash_id_seq d ∧
  ∀ x, trash d !! tr_id item = Some x → item = MapLifecycleRecord (tr_id item, x).

Lemma known_lasting item : lasting trash_evolves (known item).
Proof.
  intros d d' [Hlt Hk] [Hle Hev]. split; [lia|]. intros x Hx. apply Hk. by apply Hev.
Qed.

Lemma parse_snapshot_files data o : isArray (json_get data "files") = true →
  ParseFolderTreeSnapshot real_text data = Some (Some o) → ft_files o = snapshot_files data.
Proof.
  intros Harr. unfold ParseFolderTreeSnapshot, snapshot_files. intros (ty & _ & H)%bind_Some.
  destruct (negb _); [done|]. destruct (negb (isObject _)); [done|].
  apply bind_Some in H as (m & _ & H). destruct (negb m); [done|].
  apply bind_Some in H as (r & _ & H). apply bind_Some in H as (ds & _ & H).
  rewrite Harr in H. apply bind_Some in H as (fs & -> & H). destruct (_ || _); [done|].
  by injection H as <-.
Qed.

(** The references a deletion for good gives back are those the entry held. *)
Lemma item_contents_held i x y : entry_ok x →
  x_item_type x = "file"%string ∨ (x_item_type x = "folder"%string ∧
     is_Some (ExtractSnapshotContentIds real_text (x_item_data x))) →
  occurrences y (item_contents (MapLifecycleRecord (i, x))) = refs_held x y.
Proof.
  intros (_ & _ & Htree) Hty. unfold item_contents, refs_held, item_refs. cbn [MapLifecycleRecord
    tr_item_type tr_content_id tr_item_data].
  destruct Hty as [-> | [E [ids Hids]]].
  - simpl (String.eqb _ _). cbv iota. destruct (ResolveRequiredContentId _ _) as [r|e]; [|done].
    unfold occurrences. simpl. case_match; lia.
  - rewrite E. simpl (String.eqb _ _). cbv iota. rewrite Hids. simpl. f_equal.
    destruct (Htree E) as (Hsome & Harr & _). unfold ExtractSnapshotContentIds in Hids.
    apply bind_Some in Hids as (o & Ho & [= <-]). destruct (Hsome _ Ho) as [sn ->].
    by rewrite (parse_snapshot_files _ _ Harr Ho).
Qed.

Lemma known_rows items d : (∀ item, item ∈ items → known item d ∧ is_Some (trash d !! tr_id item)) →
  ∃ l : list (Z * TrashRow), items = MapLifecycleRecord <$> l ∧ tr_id <$> items = l.*1 ∧
    ∀ i x, (i, x) ∈ l → trash d !! i = Some x.
Proof.
  induction items as [|item items IH]; intros H.
  - exists []. split_and!; [done..|]. by intros i x ?%elem_of_nil.
  - destruct IH as (l & -> & E & Hl); [intros it Hit; apply H; by right|].
    destruct (H item) as [[_ Hk] [x Hx]]; [by left|]. exists ((tr_id item, x) :: l).
    split_and!.
    + rewrite fmap_cons. f_equal. by apply Hk.
    + rewrite !fmap_cons. by f_equal.
    + intros i y [[= -> ->]|Hin]%elem_of_cons; [done|by apply Hl].
Qed.

(** Among the rows of the trash, what some of them hold is a part of the whole. *)
Section held.
Context (l : list (Z * TrashRow)) (d : Database).
Hypothesis Hok : rows_ok d.
Hypothesis Hnd : NoDup l.*1.
Hypothesis Hl : ∀ i x, (i, x) ∈ l → trash d !! i = Some x.

Definition bytes_in (u : Z) : Z :=
  zsum ((λ x : Z * TrashRow, if x_user_id x.2 =? u then x_item_size x.2 else 0) <$> l).

Definition refs_in (y : Z) : Z := zsum ((λ x : Z * TrashRow, refs_held x.2 y) <$> l).

Lemma held_entry_ok i x : (i, x) ∈ l → entry_ok x.
Proof. intros Hx%Hl. by destruct (ro_trash _ Hok _ _ Hx). Qed.

Lemma bytes_in_bound u : 0 <= bytes_in u <= used_of u d.
Proof.
  assert (∀ i x, trash d !! i = Some x → 0 <= if x_user_id x =? u then x_item_size x else 0) as Hx.
  { intros i x Hx. destruct (ro_trash _ Hok _ _ Hx) as [_ [? _]]. case_match; lia. }
  split.
  - apply zsum_nonneg, Forall_fmap, Forall_forall. intros [i x] Hin. by apply (Hx i), Hl.
  - pose proof (sum_rows_ge (λ (_ : Z) x, if x_user_id x =? u then x_item_size x else 0)
      l (trash d) Hnd Hl Hx) as Hge. cbn beta in Hge. unfold used_of.
    assert (0 <= sum_rows (λ (_ : Z) f, if f_user_id f =? u then f_size f else 0) (files d)).
    { apply sum_rows_nonneg. intros i f Hf. destruct (ro_files _ Hok _ _ Hf) as (_&_&_&?&_).
      case_match; lia. }
    unfold bytes_in. lia.
Qed.

Lemma refs_in_bound y : 0 <= refs_in y <= refs_of refs_held y d.
Proof.
  split.
  - apply zsum_nonneg, Forall_fmap, Forall_forall. intros x _. apply refs_held_nonneg.
  - pose proof (sum_rows_ge (λ (_ : Z) x, refs_held x y) l (trash d) Hnd Hl
      ltac:(intros; apply refs_held_nonneg)) as Hge. cbn beta in Hge. unfold refs_of, refs_in.
    assert (0 <= sum_rows (λ (_ : Z) f, if f_content_id f =? y then 1 else 0) (files d)); [|lia].
    apply sum_rows_nonneg. intros i f _. by destruct (f_content_id f =? y).
Qed.

(** A record read back from each of them asks for exactly what they hold. *)
Lemma refund_bytes u : bytes_of (MapLifecycleRecord <$> l) u = bytes_in u.
Proof.
  unfold bytes_of, bytes_in. rewrite <- list_fmap_compose. apply zsum_ext.
  intros [i x] Hx. unfold compose. cbn. destruct (held_entry_ok _ _ Hx) as [? _].
  by rewrite u64_small, i64_small by lia.
Qed.

Lemma refund_refs y :
  (∀ item, item ∈ MapLifecycleRecord <$> l → tr_item_type item = "file"%string ∨
    (tr_item_type item = "folder"%string ∧
     is_Some (ExtractSnapshotContentIds real_text (tr_item_data item)))) →
  occurrences y ((MapLifecycleRecord <$> l) ≫= item_contents) = refs_in y.
Proof.
  intros Hty. unfold occurrences, refs_in. rewrite zsum_bind, <- list_fmap_compose.
  apply zsum_ext. intros [i x] Hx. unfold compose.
  apply item_contents_held; [by eapply held_entry_ok|].
  apply (Hty (MapLifecycleRecord (i, x))). by apply list_elem_of_fmap_2.
Qed.

Lemma refund_deltas u : default 0 (rf_user_storage_delta
  (refund_of no_refund (MapLifecycleRecord <$> l)) !! u) = i64 (- bytes_in u).
Proof.
  destruct (refund_delta no_refund (MapLifecycleRecord <$> l) u eq_refl) as [-> _].
  rewrite refund_bytes. done.
Qed.
End held.

(** References counted back as many times as they are held no more. *)
Definition counted_back (decs : gmap Z Z) (s t : Database) : Prop :=
  t = s <| file_contents := file_contents t |> <| storage_jobs := storage_jobs t |>
        <| storage_jobs_id_seq := storage_jobs_id_seq t |> ∧
  ∀ id, match file_contents s !! id with
        | Some row => file_contents t !! id = Some row ∧ delta_of decs id = 0 ∨
            file_contents t !! id =
              Some (row <| c_ref_count := Z.max (c_ref_count row - i32 (delta_of decs id)) 0 |>)
        | None => file_contents t !! id = None
        end.

Lemma runs_refund_contents decs snap s n t :
  runs (if decide (decs = ∅) then mret 0 else or_throw (DecrementRefCountsAndEnqueueGc decs))
    snap s n t → counted_back decs s t.
Proof.
  case_decide as E.
  - intros [_ ->]%runs_ret. split; [by destruct s|]. intros id.
    destruct (file_contents s !! id); [left|done]. split; [done|]. by rewrite E.
  - unfold or_throw. intros H. run_bind H rr t3 Hd. destruct rr as [m|e];
      [|by apply runs_raise in H]. apply runs_ret in H as [_ ->]. by apply runs_decrement in Hd.
Qed.

Lemma counted_back_books decs refs s t : books s → counted_back decs s t →
  (∀ y, delta_of decs y = u64 (refs y)) → (∀ y, 0 <= refs y <= refs_of refs_held y s) →
  off zero zero (λ y, - refs y) t ∧ rows_ok t.
Proof.
  intros [Hled Hok] [Ef Hdecs] Hdelta Hrefs.
  assert (∀ y, 0 <= refs y <= stored_refs y s) as Hst.
  { intros y. destruct Hled as (_ & _ & Hc). rewrite (Hc y). by rewrite Z.add_0_r. }
  assert (∀ y, delta_of decs y = refs y ∧ i32 (refs y) = refs y) as Hd.
  { intros y. specialize (Hst y). rewrite Hdelta. assert (stored_refs y s < 2 ^ 31).
    { unfold stored_refs. destruct (file_contents s !! y) as [row|] eqn:E; simpl; [|lia].
      by apply (ro_contents _ Hok) in E. }
    split; [rewrite u64_small|rewrite i32_small]; lia. }
  split.
  - eapply off_ext; [eapply (off_contents _ _ _ _ _ (λ y, - refs y)); [exact Hled|..]| | |];
      try (by rewrite Ef); try done.
    + intros id [row Hrow]. specialize (Hdecs id). destruct (file_contents s !! id); [eauto|congruence].
    + intros id. specialize (Hdecs id). specialize (Hst id). destruct (Hd id) as [E1 E2].
      unfold stored_refs in *. destruct (file_contents s !! id) as [row|]; simpl in *.
      * destruct Hdecs as [[-> E]| ->]; simpl; [lia|]. rewrite E1, E2. lia.
      * rewrite Hdecs. simpl. lia.
  - eapply rows_ok_shrink; [exact Hok|..]; try (rewrite Ef; cbn; eauto using Z.le_refl; lia).
    intros id row Hrow. specialize (Hdecs id). specialize (Hst id). destruct (Hd id) as [E1 E2].
    unfold stored_refs in *. destruct (file_contents s !! id) as [row'|]; [|congruence].
    exists row'. split; [done|]. destruct Hdecs as [[Hrow' _]|Hrow']; rewrite Hrow in Hrow';
      injection Hrow' as ->; cbn in *; [lia|]. rewrite E1, E2. lia.
Qed.

(** What a deletion for good reads of the items is what the rows hold. *)
Lemma refunded_rows items s k tab :
  (∀ item, item ∈ items → known item s) →
  delete_rows (tr_id <$> items) (trash s) = (k, tab) → k = Z.of_nat (length (tr_id <$> items)) →
  ∃ l : list (Z * TrashRow), items = MapLifecycleRecord <$> l ∧ tr_id <$> items = l.*1 ∧ NoDup l.*1 ∧
    ∀ i x, (i, x) ∈ l → trash s !! i = Some x.
Proof.
  intros Hknown Edel Hk. pose proof (delete_rows_count (tr_id <$> items) (trash s)) as [_ Hall].
  rewrite Edel in Hall. destruct (Hall Hk) as [Hnd Hin].
  destruct (known_rows items s) as (l & El & El1 & Hl).
  { intros item Hitem. split; [by apply Hknown|]. apply Hin. by apply list_elem_of_fmap_2. }
  exists l. split_and!; try done. by rewrite <- El1.
Qed.

Lemma permanent_body_books items req s res s' :
  runs (permanent_delete_body real_text items req) s s (Some res) s' → books s →
  (∀ item, item ∈ items → known item s) → books s' ∧ trash_evolves s s'.
Proof.
  intros H Hbooks Hknown. unfold permanent_delete_body in H.
  run_bind H r t H1. apply runs_collect_refund in H1 as (-> & -> & Htypes). cbv zeta in H.
  set (items' := List.filter refundable items) in *.
  assert (rf_trash_ids (refund_of no_refund items') = tr_id <$> items') as Eids
    by (rewrite refund_ids; done).
  rewrite Eids in H. case_decide; [by apply runs_ret in H as [? _]|].
  run_bind H n t1 Hdec. apply runs_refund_contents in Hdec.
  run_bind H rows t2 Hdel. apply runs_exec in Hdel.
  unfold delete_trash in Hdel. destruct (delete_rows _ (trash t1)) as [k tab] eqn:Edel.
  injection Hdel as <- <-. run_bind H z t2 Hcount.
  destruct (Z.eqb_spec k (Z.of_nat (length (tr_id <$> items')))) as [Hk|];
    [|by apply runs_raise in Hcount]. apply runs_ret in Hcount as [_ ->].
  run_bind H w t2 Hret. apply runs_ret in H as [_ ->].
  assert (trash t1 = trash s ∧ users t1 = users s ∧ trash_id_seq t1 = trash_id_seq s)
    as (Et & Eu & Es) by (by rewrite (proj1 Hdec)).
  rewrite Et in Edel. destruct (refunded_rows items' s k tab) as (l & El & El1 & Hnd & Hl);
    [|done..|].
  { intros item Hitem. apply Hknown. unfold items' in Hitem.
    by rewrite list_elem_of_In, List.filter_In, <- list_elem_of_In in Hitem; destruct Hitem. }
  clearbody items'. subst items'. rewrite El1 in *. pose proof (proj2 Hbooks) as Hok.
  destruct (counted_back_books _ (refs_in l) _ _ Hbooks Hdec) as [Hoff1 Hok1].
  { intros y. by rewrite refund_decrement, (refund_refs l s Hok Hl y Htypes). }
  { intros y. by apply refs_in_bound. }
  eapply (off_delete_trash _ _ _ _ l.*1 l) in Hoff1 as Hoff2; [|done|by rewrite Et|done].
  rewrite Et, Edel in Hoff2. cbn [snd] in Hoff2. set (t3 := t1 <| trash := tab |>) in *.
  assert (∀ i x, tab !! i = Some x → trash s !! i = Some x) as Htab.
  { intros i x Hx. pose proof (delete_rows_lookup l.*1 (trash s) i) as E. rewrite Edel in E.
    cbn [snd] in E. rewrite Hx in E. by case_decide. }
  eapply return_bytes_books in Hret as (Hoff4 & Hok4 & E4 & _);
    [|apply NoDup_fst_map_to_list|exact Hoff2|by apply rows_ok_delete_trash; [|rewrite Et]|].
  2: { intros u delta a Hu Ha. replace (users t3) with (users s) in Ha by (by rewrite <- Eu).
    apply elem_of_map_to_list in Hu. pose proof (refund_deltas l s Hok Hl u) as Hd.
    rewrite Hu in Hd. cbn in Hd. pose proof (bytes_in_bound l s Hok Hnd Hl u) as Hb.
    destruct Hbooks as [(_ & Hacc & _) _]. destruct (Hacc u a Ha) as [_ Hused].
    pose proof (ro_users _ Hok _ _ Ha). unfold zero in *. fold (bytes_in l u).
    rewrite Hd, i64_small by lia. lia. }
  split; [split; [|exact Hok4]|].
  - eapply off_ext; [exact Hoff4|done|..].
    + intros u. cbn beta. case_decide as Hu; [done|]. unfold zero. fold (bytes_in l u).
      rewrite <- (refund_bytes l s Hok Hl u).
      apply (refund_delta no_refund _ u eq_refl), eq_None_not_Some. intros [x Hx]. apply Hu.
      apply list_elem_of_fmap. exists (u, x). split; [done|by apply elem_of_map_to_list].
    + intros y. unfold zero. fold (refs_in l y). lia.
  - split; rewrite E4; cbn; rewrite ?Es; [lia|]. intros i x _. apply Htab.
Qed.
End books.
