(* ===== verification/TrashRestore.v ===== *)
(** * The books and restoring from the trash

    Restoring a file or a folder keeps the books of [TrashBooks.v], and with moving and
    deleting this gives the property of the whole trash service: whatever the request,
    whatever fails and whoever interferes, its operations keep the books. *)

From S2P Require Import Prelude Errors Storage Db Rely UploadState Json Schema Batch Names Quota.
From S2P Require Import UploadTasks StorageJobs Content JobContract Files Folders DeletePlans.
From S2P Require Import Trash TrashMoves Reconciliation Lifecycle Accounting TrashBooks.

Local Open Scope Z_scope.

Lemma i64_range z : - 2 ^ 63 <= i64 z < 2 ^ 63.
Proof. unfold i64. pose proof (Z.mod_pos_bound (z + 2 ^ 63) (2 ^ 64) eq_refl). lia. Qed.

(** The trash is as it was. *)
Definition same_trash (d d' : Database) : Prop :=
  trash d' = trash d ∧ trash_id_seq d' = trash_id_seq d ∧ users d' = users d.

#[export] Instance same_trash_preorder : PreOrder same_trash.
Proof.
  split; [by intros d|]. intros d1 d2 d3 (?&?&?) (?&?&?). split_and!; congruence.
Qed.

(** ** Restored names *)

Lemma str_app_nonempty a b : b ≠ ""%string → (a ++ b)%string ≠ ""%string.
Proof. by destruct a. Qed.

Lemma restored_file_name_nonempty name k :
  name ≠ ""%string → restored_file_name name k ≠ ""%string.
Proof.
  intros Hn. unfold restored_file_name. destruct (0 <? k); [|done].
  cbv zeta. apply str_app_nonempty. done.
Qed.

Lemma restored_folder_name_nonempty name k :
  name ≠ ""%string → restored_folder_name name k ≠ ""%string.
Proof.
  intros Hn. unfold restored_folder_name. destruct (0 <? k); [|done].
  apply str_app_nonempty. done.
Qed.

Lemma resolved_positive col data r : ResolveRequiredContentId col data = Ok r → 0 < rc_value r.
Proof.
  unfold ResolveRequiredContentId.
  assert (∀ r', (if negb (isObject data) then Err MissingContentId
    else if negb (isUInt64 (json_get data "content_id")) then Err MissingContentId
    else if asUInt64 (json_get data "content_id") =? 0 then Err MissingContentId
    else Ok (mkResolvedContentId (asUInt64 (json_get data "content_id")) ItemData)) = Ok r' →
    0 < rc_value r') as Hlegacy.
  { intros r'. destruct (negb _); [done|].
    unfold isUInt64, asUInt64. destruct (json_integral _) as [n|]; [|done].
    destruct (Z.leb_spec 0 n); [|done]. destruct (n <=? u64_max); [|done]. cbn [andb negb].
    destruct (Z.eqb_spec n 0); [done|]. intros [= <-]. simpl. lia. }
  destruct col as [k|]; [|apply Hlegacy]. destruct (Z.ltb_spec 0 k); [|apply Hlegacy].
  intros [= <-]. done.
Qed.

Section restore.
Context (registry : string → UploadIdentity) (real_text : Z → Z → string) (date : Z).
Notation refs_held := (refs_held real_text).
Notation off := (off registry refs_held).
Notation rows_ok := (rows_ok real_text).
Notation books := (books registry real_text).

(** ** Rows inserted *)

Definition storable (f : FileRow) : Prop :=
  0 < f_content_id f ∧ f_name f ≠ ""%string ∧ 0 <= f_size f < 2 ^ 63 ∧
  0 <= f_download_count f < 2 ^ 31.

Lemma inserted_file f d row d' r v c :
  insert_file f d = Some (row, d') → off r v c d → rows_ok d → storable f →
  off r (λ u, v u - if f_user_id f =? u then f_size f else 0)
    (λ y, c y - if f_content_id f =? y then 1 else 0) d' ∧
  rows_ok d' ∧ same_trash d d'.
Proof.
  unfold insert_file. intros ([res d1] & H & Hres)%bind_Some Hoff Hok (Hc & Hn & Hs & Hd).
  destruct res as [[i g]|]; [|done]. injection Hres as <- ->.
  pose proof (off_insert_file registry refs_held _ _ _ _ _ _ _ H Hoff) as (-> & [k Hk] & Hoff').
  split.
  { eapply off_ext; [exact Hoff'|done|..]; intros y; unfold add;
      rewrite (Z.eqb_sym y); case_match; lia. }
  assert (0 < f_content_id f < 2 ^ 63) as Hc'.
  { destruct Hoff as ((_ & _ & Hkey) & _). destruct (Hkey _ _ Hk) as [Hb _].
    apply bigint_Some in Hb as [_ Hb]. lia. }
  unfold insert_file_statement in H. apply bind_Some in H as (id & [-> Hid]%bigint_Some & H).
  cbv zeta in H. destruct (check_file f); [|done]. destruct (exists_row _ _); [done|].
  destruct (_ && _); [|done]. injection H as <- <-. split; [|done].
  destruct Hok as [Hseq Hf Hg Ht Hu Hcs]. split; cbn; try done.
  - destruct Hseq. split; lia.
  - intros j h [[<- <-]|[_ Hj]]%lookup_insert_Some; [|by apply Hf].
    destruct Hseq. split_and!; try done; lia.
Qed.

Lemma inserted_folder f d row d' r v c :
  insert_folder f d = Some (row, d') → off r v c d → rows_ok d → d_name f ≠ ""%string →
  off r v c d' ∧ rows_ok d' ∧ same_trash d d'.
Proof.
  unfold insert_folder. intros ([res d1] & H & Hres)%bind_Some Hoff Hok Hn.
  destruct res as [[i g]|]; [|done]. injection Hres as <- ->.
  unfold insert_folder_statement in H. apply bind_Some in H as (id & [-> Hid]%bigint_Some & H).
  cbv zeta in H. destruct (check_folder f); [|done]. destruct (exists_row _ _); [done|].
  destruct (bool_decide _); [|done]. injection H as <- <- <-.
  split; [eapply off_frame; [exact Hoff|..]; done|]. split; [|done].
  destruct Hok as [Hseq Hf Hg Ht Hu Hcs]. split; cbn; try done.
  - destruct Hseq. split; lia.
  - intros j h [[<- <-]|[_ Hj]]%lookup_insert_Some; [|by apply Hg].
    destruct Hseq. split; [lia|done].
Qed.

(** ** The tree of a folder *)

Definition named (f : SnapshotFolder) : Prop := sd_name f ≠ ""%string.

Lemma restore_pass_books u fd rd l m snap s x s' r v c :
  runs (restore_pass date u fd rd l m) snap s x s' → Forall named l →
  off r v c s → rows_ok s →
  off r v c s' ∧ rows_ok s' ∧ same_trash s s' ∧ Forall named x.1.
Proof.
  intros H Hl. revert m s x s' H. induction Hl as [|f l Hf Hl IH]; intros m s x s' H Hoff Hok;
    cbn [restore_pass] in H.
  - by apply runs_ret in H as [-> ->].
  - destruct (m !! sd_parent_id f) as [parent|].
    + run_bind H row t H1. apply runs_exec in H1.
      eapply inserted_folder in H1 as (Hoff1 & Hok1 & Ht1); [|done..].
      destruct (IH _ _ _ _ H Hoff1 Hok1) as (? & ? & ? & ?). split_and!; try done. by etrans.
    + run_bind H y t H1. destruct y as [waiting m'].
      destruct (IH _ _ _ _ H1 Hoff Hok) as (? & ? & ? & ?).
      apply runs_ret in H as [-> ->]. split_and!; try done. by constructor.
Qed.

Lemma restore_folders_books n u fd rd l m snap s x s' r v c :
  runs (restore_folders date n u fd rd l m) snap s x s' → Forall named l →
  off r v c s → rows_ok s → off r v c s' ∧ rows_ok s' ∧ same_trash s s'.
Proof.
  revert l m s. induction n as [|n IH]; intros [|f l] m s; cbn [restore_folders]; intros H Hl Hoff Hok;
    try (by apply runs_ret in H as [_ ->]).
  run_bind H y t H1. destruct y as [waiting m'].
  eapply restore_pass_books in H1 as (Hoff1 & Hok1 & Ht1 & Hw); [|done..].
  destruct (Nat.eqb _ _); [by apply runs_ret in H as [_ ->]|].
  destruct (IH _ _ _ H Hw Hoff1 Hok1) as (? & ? & ?). split_and!; try done. by etrans.
Qed.

Definition restorable (f : SnapshotFile) : Prop :=
  0 < sn_content_id f ∧ sn_name f ≠ ""%string ∧ 0 <= i64 (sn_size f) ∧
  0 <= i32 (sn_download_count f).

Lemma restorable_row u parent f : restorable f → storable (restored_file_row date u parent f).
Proof.
  intros (? & ? & ? & ?). unfold storable. cbn. pose proof (i64_range (sn_size f)).
  pose proof (i32_range (sn_download_count f)). split_and!; try done; lia.
Qed.

Lemma restore_files_books u l m snap s s' r v c :
  runs (restore_files date u l m) snap s (Ok tt) s' → Forall restorable l →
  off r v c s → rows_ok s →
  off r (λ x, v x - if u =? x then zsum ((λ f, i64 (sn_size f)) <$> l) else 0)
    (λ y, c y - occurrences y (sn_content_id <$> l)) s' ∧
  rows_ok s' ∧ same_trash s s'.
Proof.
  intros H Hl. revert s v c H. induction Hl as [|f l Hf Hl IH]; intros s v c H Hoff Hok;
    cbn [restore_files] in H.
  - apply runs_ret in H as [_ ->]. split_and!; try done.
    eapply off_ext; [exact Hoff|done|..]; intros; unfold occurrences; simpl; repeat case_match; lia.
  - destruct (m !! sn_folder_id f) as [parent|]; [|by apply runs_ret in H as [? _]].
    run_bind H row t H1. apply runs_exec in H1.
    eapply inserted_file in H1 as (Hoff1 & Hok1 & Ht1); [|done|done|by apply restorable_row].
    destruct (IH _ _ _ H Hoff1 Hok1) as (Hoff2 & ? & ?). split_and!; [|done|by etrans].
    eapply off_ext; [exact Hoff2|done|..].
    + intros x. cbn beta. rewrite fmap_cons, zsum_cons.
      cbn [f_user_id f_size restored_file_row]. destruct (u =? x); lia.
    + intros y. cbn beta. unfold occurrences. rewrite !fmap_cons, zsum_cons.
      cbn [f_content_id restored_file_row]. lia.
Qed.

(** ** Restoring *)

Lemma runs_restore_target f u snap s r s' : runs (restore_target f u) snap s r s' → s' = s.
Proof.
  unfold restore_target, FindOwnedFolder. destruct (0 <? f).
  - intros H. run_bind H o t H1. apply runs_query in H1 as [_ ->]. by apply runs_ret in H as [_ ->].
  - by intros [_ ->]%runs_ret.
Qed.

Lemma runs_lock_target lock f u n snap s r s' :
  (∀ a b c, TxBody (lock a b c)) →
  (∀ a b c snap s y s', runs (lock a b c) snap s y s' → s' = s) →
  runs (lock_target lock f u n) snap s r s' → s' = s.
Proof.
  intros Htx Hlock. unfold lock_target, FindOwnedFolderForUpdate. destruct (0 <? f).
  - intros H. run_bind H o t H1. apply runs_query in H1 as [_ ->].
    destruct (o : option folder) as [[i g]|]; [by apply runs_ret in H as [_ ->]|].
    run_bind H y t H1. apply Hlock in H1 as ->. by apply runs_ret in H as [_ ->].
  - by intros [_ ->]%runs_ret.
Qed.

(** The last step of a restore gives up the entry. *)
Lemma finish_restore_books failed target u i x ty snap s s' r v c :
  runs (finish_restore date failed target u i ty) snap s (Ok tt) s' →
  trash s !! i = Some x → x_user_id x = u → x_item_type x = ty →
  off r v c s → rows_ok s →
  off r (λ y, v y + if u =? y then x_item_size x else 0) (λ y, c y + refs_held x y) s' ∧
  rows_ok s' ∧ trash_evolves s s'.
Proof.
  intros H Hx Hu Hty Hoff Hok. unfold finish_restore in H. run_bind_result H w t H1.
  assert (quiet s t) as Hq.
  { case_match; [|by apply runs_ret in H1 as [_ ->]]. run_bind H1 b t1 H2.
    apply quiet_item_count in H2. by apply runs_ret in H1 as [_ ->]. }
  run_bind H n t1 H2. apply runs_exec in H2. unfold delete_trash_item in H2.
  rewrite (qu_trash _ _ Hq), Hx, Hu, Hty, Z.eqb_refl, String.eqb_refl in H2. cbn in H2.
  rewrite <- (qu_trash _ _ Hq) in H2, Hx.
  injection H2 as <- <-. apply runs_ret in H as [_ ->].
  pose proof (off_quiet _ _ _ _ _ _ _ Hq Hoff) as Hoff1.
  pose proof (rows_ok_quiet _ _ _ Hq Hok) as Hok1.
  assert (∀ j z, (j, z) ∈ [(i, x)] → trash t !! j = Some z) as Hin
    by (by intros j z [= -> ->]%list_elem_of_singleton).
  epose proof (off_delete_trash _ _ _ _ _ t [i] [(i, x)] Hoff1 (NoDup_singleton i) Hin
    (λ j, iff_refl _)) as Hoff2.
  split; [|split].
  - eapply off_ext; [exact Hoff2|done|..]; intros y; simpl; rewrite ?Hu; lia.
  - apply rows_ok_delete_trash; [done|]. intros j z. rewrite lookup_delete_Some. tauto.
  - etrans; [by apply evolves_quiet|]. split; [done|]. intros j z _.
    cbn. rewrite lookup_delete_Some. tauto.
Qed.

Lemma runs_fetch_for_update i u snap s o s' :
  runs (FetchLifecycleRowForUpdate i u) snap s o s' →
  s' = s ∧ match o with
           | Some item => ∃ x, trash s !! i = Some x ∧ x_user_id x = u ∧
                              item = MapLifecycleRecord (i, x)
           | None => True
           end.
Proof.
  intros [-> ->]%runs_query. split; [done|]. destruct (trash s !! i) as [x|]; [|done]. simpl.
  destruct (Z.eqb_spec (x_user_id x) u); [|done]. by exists x.
Qed.

Lemma restore_file_body_books i u k s r s' :
  runs (restore_file_body real_text date i u k) s s (Ok r) s' → books s →
  books s' ∧ trash_evolves s s'.
Proof.
  intros H [Hled Hok]. unfold restore_file_body in H. run_bind H o t H1.
  apply runs_fetch_for_update in H1 as [-> Hitem].
  destruct (o : option TrashLifecycleRecord) as [item|]; [|by apply runs_ret in H as [? _]].
  destruct Hitem as (x & Hx & Hu & ->). cbn -[u64 i64 ResolveRequiredContentId] in H.
  destruct (String.eqb_spec (x_item_type x) "file") as [Hty|]; cbn [negb] in H;
    [|by apply runs_ret in H as [? _]].
  destruct (ResolveRequiredContentId _ _) as [rc|e] eqn:Erc; [|by apply runs_ret in H as [? _]].
  run_bind H tgt t H1. apply runs_restore_target in H1 as ->.
  run_bind H w t H1. apply runs_query in H1 as [_ ->].
  run_bind H loc t H1. apply runs_lock_target in H1 as ->;
    [|intros; unfold Files.AcquireNameLock; apply _|by intros ? ? ? ? ? ? ? [_ ->]%runs_query].
  destruct loc as [target parent].
  run_bind H occ t H1. apply runs_query in H1 as [_ ->].
  destruct (occ : bool); [by apply runs_ret in H as [? _]|].
  destruct (json_member _ _ _ ≫= _) as [mime|]; [|by apply runs_raise in H].
  run_bind H row t H1. apply runs_exec in H1.
  destruct (ro_trash _ _ Hok _ _ Hx) as [_ (Hsize & Hname & _)].
  rewrite u64_small, i64_small in H1 by lia.
  eapply inserted_file in H1 as (Hoff1 & Hok1 & Ht1 & Hs1 & _); [|exact Hled|done|].
  2: { unfold storable. cbn -[restored_file_name]. split_and!; try done; try lia;
         [by eapply resolved_positive|by apply restored_file_name_nonempty]. }
  run_bind_result H w2 t2 H2. destruct w2. apply runs_ret in H as [_ ->].
  eapply finish_restore_books in H2 as (Hoff2 & Hok2 & Hev);
    [|by rewrite Ht1|done|done|exact Hoff1|done].
  split; [split; [|done]|].
  - eapply off_ext; [exact Hoff2|done|..]; intros y; cbn beta; cbn [f_user_id f_size f_content_id].
    + unfold zero. case_match; lia.
    + unfold TrashBooks.refs_held, item_refs, zero. rewrite Hty, Erc. simpl. case_match; lia.
  - etrans; [|exact Hev]. by apply trash_evolves_same.
Qed.

Lemma tree_parsed data size o : tree_ok real_text data size →
  ParseFolderTreeSnapshot real_text data = Some o →
  ∃ tree, o = Some tree ∧ Forall named (ft_folders tree) ∧ Forall restorable (ft_files tree) ∧
    zsum ((λ f, i64 (sn_size f)) <$> ft_files tree) = size ∧
    ∀ y, occurrences y (sn_content_id <$> ft_files tree) =
         occurrences y (sn_content_id <$> snapshot_files real_text data).
Proof.
  intros (Hsome & Harr & [fs Hfs] & Hsize & Hrange) Ho.
  destruct (Hsome _ Ho) as [tree ->]. exists tree. split; [done|].
  rewrite (parse_snapshot_files _ _ _ Harr Ho). split_and!; try done.
  - unfold ParseFolderTreeSnapshot in Ho. apply bind_Some in Ho as (ty & _ & Ho).
    destruct (negb _); [done|]. destruct (negb (isObject _)); [done|].
    apply bind_Some in Ho as (m & _ & Ho). destruct (negb m); [done|].
    apply bind_Some in Ho as (root & _ & Ho). apply bind_Some in Ho as (ds & Hds & Ho).
    apply bind_Some in Ho as (fs' & _ & Ho). destruct (_ || _); [done|]. injection Ho as <-.
    cbn [ft_folders]. rewrite order_by_perm. destruct (isArray (json_get data "folders")).
    + apply parse_folders_usable in Hds. eapply Forall_impl; [exact Hds|]. by intros f [_ ?].
    + by injection Hds as <-.
  - unfold snapshot_files in *. rewrite Hfs in *. simpl in *. apply parse_files_usable in Hfs.
    rewrite Forall_forall in *. intros f Hf. destruct (Hfs f Hf) as (_ & _ & ? & ?).
    by destruct (Hrange f Hf).
Qed.

Lemma restore_folder_body_books i u k s r s' :
  runs (restore_folder_body real_text date i u k) s s (Ok r) s' → books s →
  books s' ∧ trash_evolves s s'.
Proof.
  intros H [Hled Hok]. unfold restore_folder_body in H. run_bind H o t H1.
  apply runs_fetch_for_update in H1 as [-> Hitem].
  destruct (o : option TrashLifecycleRecord) as [item|]; [|by apply runs_ret in H as [? _]].
  destruct Hitem as (x & Hx & Hu & ->). cbn -[u64 i64 u32 i32 ParseFolderTreeSnapshot] in H.
  destruct (String.eqb_spec (x_item_type x) "folder") as [Hty|]; cbn [negb] in H;
    [|by apply runs_ret in H as [? _]].
  destruct (ParseFolderTreeSnapshot _ _) as [snapshot|] eqn:Eps; [|by apply runs_raise in H].
  destruct (ro_trash _ _ Hok _ _ Hx) as [_ (_ & Hname & Htree)].
  eapply tree_parsed in Eps as (tree & -> & Hnamed & Hfiles & Hsize & Hrefs); [|by apply Htree].
  run_bind H tgt t H1. apply runs_restore_target in H1 as ->.
  run_bind H w t H1. apply runs_query in H1 as [_ ->].
  run_bind H loc t H1. apply runs_lock_target in H1 as ->;
    [|intros; unfold Folders.AcquireNameLock; apply _|by intros ? ? ? ? ? ? ? [_ ->]%runs_query].
  destruct loc as [target parent].
  run_bind H occ t H1. apply runs_query in H1 as [_ ->].
  destruct (occ : bool); [by apply runs_ret in H as [? _]|].
  run_bind H row t H1. apply runs_exec in H1.
  eapply inserted_folder in H1 as (Hoff1 & Hok1 & Ht1);
    [|exact Hled|done|by apply restored_folder_name_nonempty].
  run_bind_result H w1 t1 H1. unfold restore_tree in H1. run_bind_result H1 m t2 H2.
  eapply restore_folders_books in H2 as (Hoff2 & Hok2 & Ht2); [|done|exact Hoff1|done].
  destruct w1. eapply restore_files_books in H1 as (Hoff3 & Hok3 & Ht3); [|done|exact Hoff2|done].
  run_bind_result H w2 t3 H2. destruct w2. apply runs_ret in H as [_ ->].
  assert (same_trash s t1) as Ht by (by do 2 (etrans; [eassumption|])).
  eapply finish_restore_books in H2 as (Hoff4 & Hok4 & Hev);
    [|by rewrite (proj1 Ht)|done|done|exact Hoff3|done].
  split; [split; [|done]|].
  - eapply off_ext; [exact Hoff4|done|..]; intros y; cbn beta; unfold zero.
    + rewrite Hsize. case_match; lia.
    + unfold TrashBooks.refs_held, item_refs. rewrite Hty, Hrefs. simpl. lia.
  - etrans; [|exact Hev]. destruct Ht as (? & ? & _). by apply trash_evolves_same.
Qed.
End restore.

(** ** The services *)

Section services.
Context (registry : string → UploadIdentity) (real_text : Z → Z → string).
Context (iteration : list Z → list Z) (toDbStringLocal : Z → string) (date : Z).
Notation books := (books registry real_text).
Notation Respects := (Respects trash_evolves).

(** Every record of the list is what is known of an entry. *)
Definition all_known (items : list TrashLifecycleRecord) (d : Database) : Prop :=
  ∀ item, item ∈ items → known item d.

Lemma all_known_lasting items : lasting trash_evolves (all_known items).
Proof. intros d d' H Hev item Hitem. eapply known_lasting; [|done]. by apply H. Qed.

Lemma all_known_sub items items' d : items' ⊆ items → all_known items d → all_known items' d.
Proof. intros Hsub H item Hitem. by apply H, Hsub. Qed.

Lemma rows_known P d : books d → all_known (trash_rows P d) d.
Proof.
  intros [_ Hok] item Hitem. unfold trash_rows in Hitem.
  apply list_elem_of_fmap in Hitem as ([i x] & -> & [Hx _]%elem_of_select_rows).
  split; [by apply (ro_trash _ _ Hok _ _ Hx)|]. intros y Hy. cbn in Hx, Hy. by simplify_eq.
Qed.

#[local] Instance respects_prefetch I chunks : Respects I (Prefetch_loop chunks).
Proof. induction chunks; simpl; solve_respects. Qed.

Lemma prefetch_known (I : Database → Prop) chunks : (∀ d, I d → books d) →
  yields trash_evolves I (Prefetch_loop chunks) all_known.
Proof.
  revert I. induction chunks as [|chunk chunks IH]; intros I HI; simpl.
  - apply yields_ret. by intros s _ item ?%elem_of_nil.
  - eapply yields_bind with (Q := all_known); [apply _|..|apply all_known_lasting|].
    + apply yields_query; [apply _|]. intros s Hs. by apply rows_known, HI.
    + intros rows. eapply yields_bind with (Q := all_known); [apply _|..|apply all_known_lasting|].
      * apply IH. intros d [Hd _]. by apply HI.
      * intros rest. apply yields_ret. intros s [[_ H1] H2] item [?|?]%elem_of_app; auto.
Qed.

(** Deleting items that are known for good. *)
Lemma respects_permanent items items' req : items' ⊆ items →
  Respects (λ d, books d ∧ all_known items d) (PermanentlyDeleteTrashItems real_text items' req).
Proof.
  intros Hsub. unfold PermanentlyDeleteTrashItems. destruct items' as [|item items']; [apply _|].
  apply respects_in_transaction; [apply _..|]. intros s a s' [Hb Hk] H.
  apply (permanent_body_books registry) in H as [Hb' Hev]; [|done|by eapply all_known_sub].
  split_and!; [done|by eapply all_known_lasting|done].
Qed.

Lemma batch_item_elem items u i item : batch_item items u i = Some item → item ∈ items.
Proof.
  unfold batch_item. intros (it & Hf & H)%bind_Some. apply List.find_some in Hf as [Hf _].
  destruct (_ =? _); [|done]. injection H as <-.
  by rewrite <- in_rev, <- list_elem_of_In in Hf.
Qed.

Lemma respects_delete_one items u i :
  Respects (λ d, books d ∧ all_known items d) (delete_one real_text items u i).
Proof.
  unfold delete_one. destruct (batch_item items u i) as [item|] eqn:E; [|apply _].
  apply batch_item_elem in E. cbv zeta.
  pose proof (respects_permanent items [item] true) as Hp.
  assert ([item] ⊆ items) as Hsub by (by intros j ->%list_elem_of_singleton).
  specialize (Hp Hsub). solve_respects.
Qed.

Lemma respects_for_batch I one l : (∀ i, Respects I (one i)) → Respects I (for_batch one l).
Proof. intros H. induction l; simpl; solve_respects. Qed.

(** A batch acts on what it has read. *)
Lemma respects_batch ids failed one :
  (∀ items i, Respects (λ d, books d ∧ all_known items d) (one items i)) →
  Respects books (batch ids failed one).
Proof.
  intros Hone. unfold batch, PrefetchLifecycleRowsByIds.
  eapply respects_bind_post with
    (Q := λ o d, match o with Some items => all_known items d | None => True end).
  - apply _.
  - solve_respects.
  - apply yields_catch_db_ret; [solve_respects| |done].
    eapply yields_bind with (Q := all_known); [apply _|..|apply all_known_lasting|].
    + by apply prefetch_known.
    + intros items. apply yields_ret. by intros s [_ ?].
  - intros [items|]; [apply all_known_lasting|by intros ?].
  - intros [items|]; [|apply _]. apply respects_bind; [apply _|..|solve_respects].
    by apply respects_for_batch.
Qed.

Lemma respects_delete_chunks items chunks r : concat chunks ⊆ items →
  Respects (λ d, books d ∧ all_known items d) (delete_chunks real_text chunks r).
Proof.
  revert r. induction chunks as [|chunk chunks IH]; intros r Hsub; simpl in *; [apply _|].
  apply respects_bind; [apply _|..].
  - apply respects_catch_all; [apply _|..]; [|apply _]. apply respects_bind; [apply _|..|apply _].
    apply respects_permanent. set_solver.
  - intros. apply IH. set_solver.
Qed.

Lemma respects_expire_chunks items chunks page : concat chunks ⊆ items →
  Respects (λ d, books d ∧ all_known items d) (expire_chunks real_text chunks page).
Proof.
  revert page. induction chunks as [|chunk chunks IH]; intros page Hsub; simpl in *; [apply _|].
  apply respects_bind; [apply _|..].
  - apply respects_permanent. set_solver.
  - intros. case_match; [apply _|]. apply IH. set_solver.
Qed.

(** What is done with rows read from the trash may rely on what they say. *)
Lemma respects_rows {B} (q : Database → list TrashLifecycleRecord) (f : _ → M Database B) :
  (∀ d, books d → all_known (q d) d) →
  (∀ items, Respects (λ d, books d ∧ all_known items d) (f items)) →
  Respects books (query q ≫= f).
Proof.
  intros Hq Hf. eapply respects_bind_post with (Q := all_known); [apply _|apply _|..|done].
  - apply yields_query; [apply _|done].
  - apply all_known_lasting.
Qed.

Lemma respects_DeleteAll u : Respects books (DeleteAll real_text u).
Proof.
  unfold DeleteAll, FetchLifecycleRowsForUser. apply respects_catch_all; [apply _|..]; [|apply _].
  apply respects_rows; [intros d; apply rows_known|]. intros items.
  apply respects_bind; [apply _|..|solve_respects]. apply respects_delete_chunks.
  by rewrite Chunks_concat.
Qed.

Lemma respects_expire_page after limit :
  Respects books (CleanupExpiredTrashPage real_text after limit).
Proof.
  unfold CleanupExpiredTrashPage, FetchExpiredLifecycleBatchAfterId. case_match; [apply _|].
  apply respects_catch_all; [apply _|..]; [|apply _]. apply respects_rows.
  - intros d Hd. eapply all_known_sub; [|by apply rows_known]. intros item. apply subseteq_take.
  - intros items. cbv zeta. destruct (last items); [|apply _]. apply respects_expire_chunks.
    by rewrite Chunks_concat.
Qed.

Lemma respects_expire n size :
  Respects books (CleanupExpiredTrashItems real_text size n).
Proof.
  unfold CleanupExpiredTrashItems. case_match; [apply _|]. generalize 0 at 1 as after.
  generalize 0 as deleted. induction (Z.to_nat n) as [|k IH]; intros deleted after; simpl; [apply _|].
  apply respects_bind_result; [apply _|apply respects_expire_page|]. intros page.
  repeat case_match; solve_respects.
Qed.

Lemma respects_try_candidates P failed occupied body l : lasting trash_evolves P →
  (∀ k, TxBody (body k)) →
  (∀ k s r s', runs (body k) s s (Ok r) s' → books s → books s' ∧ trash_evolves s s') →
  Respects (λ d, books d ∧ P d) (try_candidates failed occupied body l).
Proof.
  intros HP Htx Hbody. induction l as [|k l IH]; simpl; [apply _|].
  apply respects_bind; [apply _|..|solve_respects]. apply respects_Run; [apply _..|].
  intros s a s' [Hs HPs] H.
  apply (proj1 (clean_runs _ _ _ _)) in H. apply Hbody in H as [? Hev]; [|done].
  split_and!; [done|by eapply HP|done].
Qed.

Lemma respects_restore_one items u i :
  Respects (λ d, books d ∧ all_known items d) (restore_one real_text date items u i).
Proof.
  pose proof (all_known_lasting items) as HP. unfold restore_one. destruct (batch_item items u i); [|apply _].
  case_match; [|case_match; [|apply _]].
  - apply respects_bind; [apply _|..|solve_respects]. apply respects_try_candidates; [done|apply _|].
    intros. by eapply restore_file_body_books.
  - apply respects_bind; [apply _|..|solve_respects]. apply respects_try_candidates; [done|apply _|].
    intros. by eapply restore_folder_body_books.
Qed.

Lemma respects_move request u :
  Respects books (MoveToTrash iteration toDbStringLocal date request u).
Proof.
  unfold MoveToTrash. cbv zeta. apply respects_bind; [apply _|..|solve_respects].
  apply respects_Run; [apply _..|]. intros s a s' Hs H.
  apply (proj1 (clean_runs _ _ _ _)) in H. eapply move_body_books; [..|exact H|exact Hs];
    apply sort_unique_NoDup.
Qed.

(** C2: the trash service keeps the books.  Suppose every user's used bytes are those
    of the files and of the trash, every reference count the number of files and trash
    entries (files in the snapshots of folders included) that refer to the content, and
    the rows are in range.  Then moving files and folders to the trash, restoring
    them, deleting entries for good, emptying the trash and expiring it leave it so,
    and never change an entry nor give its identifier to another, whatever fails and
    whatever the other sessions do in between, as long as they respect the same. *)
Theorem trash_keeps_books :
  (∀ request user_id,
     Respects books (MoveToTrash iteration toDbStringLocal date request user_id)) ∧
  (∀ user_id trash_ids, Respects books (Restore real_text date user_id trash_ids)) ∧
  (∀ user_id trash_ids, Respects books (Delete real_text user_id trash_ids)) ∧
  (∀ user_id, Respects books (DeleteAll real_text user_id)) ∧
  (∀ fetch_batch_size max_batches_per_run,
     Respects books (CleanupExpiredTrashItems real_text fetch_batch_size max_batches_per_run)).
Proof.
  split_and!; intros.
  - apply respects_move.
  - apply respects_batch. intros. apply respects_restore_one.
  - apply respects_batch. intros. apply respects_delete_one.
  - apply respects_DeleteAll.
  - apply respects_expire.
Qed.
End services.

(** ** Witnesses *)

(** One user with a folder that holds one file of ten bytes. *)
Definition example_file : FileRow :=
  mkFileRow 7 9 1 "a.txt" "txt" 10 "text/plain" "/docs/a.txt" 0 0 100 100.

Definition example_folder : FolderRow := mkFolderRow 7 0 "docs" "/docs/" 1 1 100 100.

Definition example_trash_db : Database :=
  (empty_db 200) <| users := {[ 7 := mkUserRow 100 10 0 ]} |>
    <| file_contents := {[ 9 := mkContentRow "h" "" 10 "k" "text/plain" 1 ]} |>
    <| folders := {[ 1 := example_folder ]} |> <| files := {[ 4 := example_file ]} |>
    <| files_id_seq := 5 |> <| folders_id_seq := 2 |> <| file_contents_id_seq := 10 |>.

Definition no_registry : string → UploadIdentity := λ _, mkUploadIdentity 0 0.

Lemma example_trash_books : books no_registry (λ _ _, ""%string) example_trash_db.
Proof.
  assert (∀ {V} (m : gmap Z V) i (v : V) k w, m = {[ i := v ]} → m !! k = Some w → i = k ∧ v = w)
    as Hone by (by intros V m i v k w -> ?%lookup_singleton_Some).
  pose proof (λ i, Hone _ (files example_trash_db) 4 example_file i) as Hfile.
  pose proof (λ i, Hone _ (folders example_trash_db) 1 example_folder i) as Hfolder.
  pose proof (λ i, Hone _ (users example_trash_db) 7 (mkUserRow 100 10 0) i) as Huser.
  pose proof (λ i, Hone _ (file_contents example_trash_db) 9
    (mkContentRow "h" "" 10 "k" "text/plain" 1) i) as Hcontent.
  split; [split_and!|split].
  - split; [split|split].
    + intros i t Ht. change ((∅ : gmap string UploadTaskRow) !! i = Some t) in Ht. done.
    + intros i j t t' Ht. change ((∅ : gmap string UploadTaskRow) !! i = Some t) in Ht. done.
    + intros i f Hf. by apply Hfile in Hf as [<- _].
    + intros c row Hc. by apply Hcontent in Hc as [<- _].
  - intros u a Ha. apply Huser in Ha as [<- <-]; [|done]. split; reflexivity.
  - intros c. unfold stored_refs. change (file_contents example_trash_db)
      with ({[ 9 := mkContentRow "h" "" 10 "k" "text/plain" 1 ]} : gmap Z ContentRow).
    unfold refs_of. change (files example_trash_db) with ({[ 4 := example_file ]} : gmap Z FileRow).
    change (trash example_trash_db) with (∅ : gmap Z TrashRow).
    destruct (decide (c = 9)) as [->|Hne]; [reflexivity|].
    rewrite lookup_singleton_ne by done. rewrite <- insert_empty, sum_rows_insert by done.
    cbn [f_content_id example_file]. rewrite (proj2 (Z.eqb_neq 9 c)) by done. reflexivity.
  - done.
  - intros i f Hf. apply Hfile in Hf as [<- <-]; [|done]. by cbn.
  - intros i g Hg. apply Hfolder in Hg as [<- <-]; [|done]. by cbn.
  - intros i x Hx. change ((∅ : gmap Z TrashRow) !! i = Some x) in Hx. done.
  - intros u a Ha. by apply Huser in Ha as [<- <-].
  - intros c row Hc. by apply Hcontent in Hc as [<- <-].
Qed.

Lemma trash_keeps_books_witness :
  books no_registry (λ _ _, ""%string)
    (db (MoveToTrash (λ ids, ids) (λ _, ""%string) 300 (mkMoveToTrashRequest [] [1]) 7
      (mkEnv example_trash_db [alone Works; alone Works] AutoCommit [])).2).
Proof.
  destruct (trash_keeps_books no_registry (λ _ _, ""%string) (λ ids, ids) (λ _, ""%string) 300)
    as [H _].
  apply (H (mkMoveToTrashRequest [] [1]) 7
    (mkEnv example_trash_db [alone Works; alone Works] AutoCommit [])).
  - reflexivity.
  - exact example_trash_books.
  - do 2 (apply Forall_cons_2; [intros s Hs; split; [exact Hs|reflexivity]|]). apply Forall_nil_2.
Defined.
