(* ===== verification/ScanRepairs.v ===== *)
(** * What the scan of contents finds and repairs

    The content scan of [ReconcileScans.v] schedules the collector of every content it
    reads without references, and what it counts differs from the exact books of
    [TrashRestore.v] by the references of folders in the trash. *)

From S2P Require Import Prelude Errors Storage Db Rely UploadState Json Schema Batch UploadTasks.
From S2P Require Import StorageJobs Content JobContract Files Folders DeletePlans Trash Reconciliation.
From S2P Require Import ReconcileScans Lifecycle Accounting TrashBooks TrashRestore.

Local Open Scope Z_scope.

(** ** Jobs while a page is scanned *)

(** Jobs are never removed, never change hands, and no collector finishes. *)
Definition jobs_last (d d' : Database) : Prop :=
  ∀ i j, storage_jobs d !! i = Some j → ∃ j', storage_jobs d' !! i = Some j' ∧
    j_dedupe_key j' = j_dedupe_key j ∧ j_job_type j' = j_job_type j ∧
    j_aggregate_id j' = j_aggregate_id j ∧
    (j_job_type j = kBlobGcJobType → job_is Succeeded j = false → job_is Succeeded j' = false).

#[export] Instance jobs_last_preorder : PreOrder jobs_last.
Proof.
  split; [intros d i j Hj; eauto 10|]. intros d1 d2 d3 H1 H2 i j Hj.
  destruct (H1 i j Hj) as (j2 & Hj2 & ? & E & ? & ?).
  destruct (H2 i j2 Hj2) as (j3 & Hj3 & ? & ? & ? & ?). exists j3.
  split_and!; [done|congruence..|]. intros Ht Hs. apply H7; [congruence|auto].
Qed.

Notation Scans := (Respects jobs_last queue_ok).
Notation finds := (yields jobs_last queue_ok).

(** Statements on other tables. *)
Lemma scans_other {A} (q : Database → option (A * Database)) :
  (∀ s a s', q s = Some (a, s') →
     storage_jobs s' = storage_jobs s ∧ storage_jobs_id_seq s' = storage_jobs_id_seq s) →
  Scans (exec q).
Proof.
  intros Hq. apply respects_exec; [apply _|]. intros s a s' Hs H. apply Hq in H as [E1 E2].
  unfold queue_ok, unique_dedupe_keys, fresh_job_ids, jobs_last in *. rewrite E1, E2.
  split; [done|]. eauto 10.
Qed.

#[export] Instance scans_record finding : Scans (RecordFinding finding).
Proof.
  unfold RecordFinding. case_match; [apply respects_raise; apply _|]. apply scans_other.
  intros s a s' E. unfold finding_statement in E. repeat case_match; simplify_option_eq; done.
Qed.

#[export] Instance scans_resolve ty id : Scans (ResolveFinding ty id).
Proof. unfold ResolveFinding. apply scans_other. intros s a s' E. repeat case_match; by simplify_eq. Qed.

#[export] Instance scans_storage {A} c (f : list StorageCall → A) : Scans (call_storage c f).
Proof. intros e Ht HI _. unfold call_storage. by split_and!. Qed.

Lemma rearm_jobs_last job d r d' : queue_ok d → rearm_statement job d = Some (r, d') →
  queue_ok d' ∧ jobs_last d d'.
Proof.
  intros Hd H. split; [apply (execute_job_queue_ok (JRearm job) d); [done|]; cbn; by rewrite H|].
  destruct Hd as (_ & Hfresh & _). intros i j Hj.
  destruct (insert_job_Some _ _ _ _ _ H)
    as [_ [(_ & _ & ->)|(i' & j1 & Hf & [(_ & _ & ->)|(j2 & Hre & _ & _ & ->)])]].
  - exists j. split_and!; [|done..]. cbn -[put_job]. rewrite put_job_lookup, decide_False; [done|].
    intros ->. specialize (Hfresh _ _ Hj). lia.
  - eauto 10.
  - cbn -[put_job]. apply find_job_Some in Hf as [Hf Hk]. rewrite put_job_lookup.
    case_decide; [|eauto 10]. subst i'. assert (j1 = j) as -> by congruence.
    unfold rearm in Hre. case_match eqn:E; [|done]. injection Hre as <-. case_bools.
    exists ((new_job_row job d) <| j_created_at := j_created_at j |>). by split_and!.
Qed.

#[export] Instance scans_rearm job : Scans (EnqueueOrRearmSucceeded job).
Proof.
  unfold EnqueueOrRearmSucceeded, ValidateNewJob, ValidateBoundedValue.
  repeat first
    [ apply respects_exec; [apply _|by intros; eapply rearm_jobs_last]
    | apply respects_ret; apply _ | apply respects_raise; apply _ | apply respects_query; apply _
    | apply respects_bind; [apply _|..|intros ?] | case_match ].
Qed.

(** ** Scheduling a collector *)

(** What the queue holds under a key, whichever way an enqueue went. *)
Definition gc_job_kept (job : NewStorageJob) (d : Database) : Prop :=
  ∃ i j, storage_jobs d !! i = Some j ∧ j_dedupe_key j = nj_dedupe_key job ∧
    (j_job_type j = nj_job_type job → j_aggregate_id j = nj_aggregate_id job →
     job_is Succeeded j = false).

Lemma gc_job_kept_lasts job : nj_job_type job = kBlobGcJobType → lasting jobs_last (gc_job_kept job).
Proof.
  intros Ht d d' (i & j & Hj & Hk & Hs) H. destruct (H i j Hj) as (j' & Hj' & ? & E1 & E2 & Hl).
  exists i, j'. split_and!; [done|congruence|]. rewrite E1, E2. intros Et Ea.
  apply Hl; [congruence|auto].
Qed.

Definition gc_job_ready (job : NewStorageJob) (d : Database) : Prop :=
  ∃ i j, storage_jobs d !! i = Some j ∧ j_dedupe_key j = nj_dedupe_key job ∧
    j_job_type j = nj_job_type job ∧ j_aggregate_id j = nj_aggregate_id job ∧
    job_is Succeeded j = false.

Lemma gc_job_ready_lasts job : nj_job_type job = kBlobGcJobType → lasting jobs_last (gc_job_ready job).
Proof.
  intros Ht d d' (i & j & Hj & ? & ? & ? & Hs) Hev.
  destruct (Hev i j Hj) as (j' & Hj' & ? & ? & ? & Hl).
  exists i, j'. split_and!; [done|congruence..|]. apply Hl; [congruence|done].
Qed.

Lemma rearm_kept job d r d' : queue_ok d → rearm_statement job d = Some (r, d') →
  gc_job_kept job d' ∧ (is_Some r → gc_job_ready job d').
Proof.
  intros Hd H. destruct (insert_job_Some _ _ _ _ _ H)
    as [_ [(_ & -> & ->)|(i & j & Hf & [(Hre & -> & ->)|(j2 & ->%rearm_Some & _ & -> & ->)])]].
  - assert (gc_job_ready job (next_job_id (put_job (storage_jobs_id_seq d) (new_job_row job d) d)))
      as Hr by (exists (storage_jobs_id_seq d), (new_job_row job d); cbn -[put_job];
                by rewrite put_job_lookup, decide_True).
    split; [|done]. destruct Hr as (i & j & ? & ? & _ & _ & ?). by exists i, j.
  - split; [|by intros []]. apply find_job_Some in Hf as [Hf Hk]. exists i, j. split_and!; [done..|].
    intros Et Ea. apply not_true_iff_false. intros Es. unfold rearm in Hre.
    apply job_is_true in Es. rewrite Es, Et, Ea in Hre. cbn -[String.eqb] in Hre.
    by rewrite !String.eqb_refl in Hre.
  - set (row := (new_job_row job d) <| j_created_at := j_created_at j |>).
    assert (gc_job_ready job (next_job_id (put_job i row d))) as Hr
      by (exists i, row; cbn -[put_job]; by rewrite put_job_lookup, decide_True).
    split; [|done]. destruct Hr as (i1 & j1 & ? & ? & _ & _ & ?). by exists i1, j1.
Qed.

(** An enqueue that answers leaves the collector in the queue, not yet finished. *)
Lemma finds_rearm job : nj_job_type job = kBlobGcJobType →
  finds (EnqueueOrRearmSucceeded job) (λ _, gc_job_ready job).
Proof.
  intros Ht. unfold EnqueueOrRearmSucceeded.
  assert (∀ d u, Scans (ValidateNewJob d) ∧ finds (ValidateNewJob d) (λ _ _, u = ()))
    as Hv.
  { intros d []. split; [|by intros ? ? ?]. unfold ValidateNewJob, ValidateBoundedValue.
    repeat first [apply respects_ret; apply _|apply respects_raise; apply _
      |apply respects_bind; [apply _|..|intros ?]|case_match]. }
  destruct (Hv job ()) as [Hv1 Hv2].
  eapply yields_bind with (Q := λ _ _, () = ()); [apply _|exact Hv2|by intros ? ? ?|].
  intros []. eapply yields_bind with
    (Q := λ r d, gc_job_kept job d ∧ (is_Some r → gc_job_ready job d)).
  - apply respects_exec; [apply _|]. intros s a s' [Hs _] H.
    destruct (rearm_jobs_last _ _ _ _ Hs H). by split_and!.
  - apply yields_exec; [apply _|]. intros s a s' [Hs _] H. by eapply rearm_kept.
  - intros r d d' [H1 H2] Hl. split; [by eapply gc_job_kept_lasts|]. intros Hr.
    eapply gc_job_ready_lasts; eauto.
  - intros [r|].
    + apply yields_ret. intros s [_ [_ H]]. by apply H.
    + eapply yields_bind with (Q := λ f d, ∀ i j, f = Some (i, j) →
        j_job_type j = nj_job_type job → j_aggregate_id j = nj_aggregate_id job →
        gc_job_ready job d); [apply _|..].
      * apply yields_query; [apply _|]. intros s [[Hs _] [(i & j & Hj & Hk & Hn) _]] i' j' Hf Et Ea.
        rewrite <- Hk, (find_job_unique _ _ _ Hs Hj) in Hf. injection Hf as <- <-.
        exists i, j. split_and!; auto.
      * intros f d d' H Hl i j E ? ?. eapply gc_job_ready_lasts; eauto.
      * intros [[i j]|]; [|apply yields_raise]. case_match eqn:E; [apply yields_raise|].
        apply orb_false_iff in E as [E1 E2]. apply negb_false_iff in E1, E2. case_bools.
        apply yields_ret. intros s [_ H]. by eapply H.
Qed.

(** ** A page of the scan *)

Lemma query_autocommit {A} (q : Database → A) s sch cs : ∃ sch', sch' `suffix_of` sch ∧
  (query q (mkEnv s sch AutoCommit cs) =
     (Ret (q (arrive sch s)), mkEnv (arrive sch s) sch' AutoCommit cs) ∨
   query q (mkEnv s sch AutoCommit cs) =
     (Raise DbException, mkEnv (arrive sch s) sch' AutoCommit cs)).
Proof.
  unfold query, exec, next_step. destruct sch as [|[g []] sch]; cbn; eexists;
    (split; [|first [by left|by right]]); [done|apply suffix_cons_r..]; done.
Qed.

Section scan.
Context (m_blob_store : option IBlobStore) (scan_id : string).

#[export] Instance scans_record_or_resolve alarm finding : Scans (record_or_resolve alarm finding).
Proof. unfold record_or_resolve. destruct alarm; apply _. Qed.

Ltac solve_scans :=
  repeat first
    [ apply _ | apply respects_bind; [apply _|..|intros ?] | case_match ].

#[export] Instance scans_check_blob row n : Scans (check_blob m_blob_store scan_id row n).
Proof. unfold check_blob, missing_blob, check_blob_size. cbv zeta. solve_scans. Qed.

#[export] Instance scans_check_content row : Scans (check_content m_blob_store scan_id row).
Proof. unfold check_content. cbv zeta. solve_scans. Qed.

#[export] Instance scans_check_contents rows f r n :
  Scans (check_contents m_blob_store scan_id rows f r n).
Proof.
  revert f r n. induction rows as [|row rows IH]; intros f r n; simpl; [apply _|].
  apply respects_bind_result; [apply _..|]. intros c. apply IH.
Qed.

Definition gc_job_of (row : ContentScanRow) : NewStorageJob :=
  MakeBlobGcJob (cn_id row) (cn_storage_path row).

(** A content without references has its collector in the queue. *)
Definition repaired (row : ContentScanRow) (d : Database) : Prop :=
  cn_ref_count row = 0 → cn_actual_ref_count row = 0 → gc_job_ready (gc_job_of row) d.

Lemma repaired_lasts row : lasting jobs_last (repaired row).
Proof. intros d d' H Hl ? ?. eapply (gc_job_ready_lasts (gc_job_of row)); eauto. Qed.

Lemma finds_check_content row :
  finds (check_content m_blob_store scan_id row) (λ _, repaired row).
Proof.
  unfold check_content. cbv zeta. apply yields_then; [apply _|]. intros n.
  destruct (ShouldEnqueueBlobGc _ _) eqn:E.
  - apply yields_then; [apply _|]. intros _.
    eapply yields_bind with (Q := λ _, gc_job_ready (gc_job_of row)); [apply _|by apply finds_rearm|..].
    + intros _. by apply gc_job_ready_lasts.
    + intros b. apply yields_ret. by intros s [_ H] _ _.
  - intros e a e' _ _ _ _ H1 H2. unfold ShouldEnqueueBlobGc in E. by rewrite H1, H2 in E.
Qed.

Definition all_repaired (rows : list ContentScanRow) (d : Database) : Prop :=
  Forall (λ row, repaired row d) rows.

Lemma finds_check_contents rows f r n :
  finds (check_contents m_blob_store scan_id rows f r n)
    (λ res d, is_ok res = true → all_repaired rows d).
Proof.
  revert f r n. induction rows as [|row rows IH]; intros f r n.
  { apply yields_ret. intros s _ _. constructor. }
  cbn [check_contents]. unfold bind_result.
  eapply yields_both with (Q := λ _, repaired row)
    (Q' := λ res d, is_ok res = true → all_repaired rows d);
    [apply _|apply finds_check_content|intros _; apply repaired_lasts|..].
  - intros [c|er]; apply _.
  - intros [c|er]; [apply IH|by apply yields_ret].
  - intros _ res s H1 H2 Hok. constructor; [done|]. by apply H2.
Qed.

(** The content scan schedules the collector of what nobody refers to.  When a page
    of the scan answers, every content it read without references, neither stored nor
    counted, has its collector in the queue, not yet finished, so that the reference gate
    is closed and a worker will delete the blob; whatever fails and whatever the stores
    answer, as long as the other sessions keep the queue in order and finish no
    collector meanwhile. *)
Lemma content_scan_schedules_collectors request d sch cs page e :
  queue_ok d → relies jobs_last queue_ok sch → rp_scan_id request = scan_id →
  RunContentPage m_blob_store request (mkEnv d sch AutoCommit cs) = (Ret (Ok page), e) →
  queue_ok (db e) ∧
  ∀ id row, (id, row) ∈ take (Z.to_nat (rp_limit request))
      (select_rows (λ id _, (rp_after_id request <? id)) (λ a b, (a.1 <=? b.1))
         (file_contents (arrive sch d))) →
    c_ref_count row = 0 → actual_ref_count id (arrive sch d) = 0 → gc_scheduled id (db e).
Proof.
  intros Hd Hst Hscan Hrun.
  destruct (arrive_relies jobs_last queue_ok sch d Hd Hst) as [Ha _].
  unfold RunContentPage in Hrun. rewrite Hscan in Hrun. unfold mbind at 1, M_bind at 1 in Hrun.
  destruct (query_autocommit (content_rows (rp_after_id request) (rp_limit request)) d sch cs)
    as (sch1 & Hs1 & [Eq|Eq]); rewrite Eq in Hrun; clear Eq; [|done].
  unfold bind_result in Hrun. set (rows := content_rows _ _ _) in *.
  destruct (scans_check_contents rows 0 0 0 (mkEnv (arrive sch d) sch1 AutoCommit cs))
    as (_ & HI & _ & _); [done|done|by eapply relies_suffix|].
  pose proof (finds_check_contents rows 0 0 0 (mkEnv (arrive sch d) sch1 AutoCommit cs)) as Hf.
  unfold mbind, M_bind in Hrun. destruct (check_contents _ _ _ _ _ _ _) as [[[c|er]|x] e1] eqn:E; try done.
  destruct c as [[f r] n]. injection Hrun as _ <-. split; [exact HI|].
  specialize (Hf _ _ eq_refl Ha (relies_suffix _ _ _ _ Hs1 Hst) eq_refl eq_refl).
  intros id row Hin Hz Hact.
  assert (content_scan_row (arrive sch d) (id, row) ∈ rows) as Hrow
    by (apply list_elem_of_fmap; eauto).
  eapply Forall_forall in Hf; [|exact Hrow].
  destruct (Hf Hz Hact) as (i & j & Hj & Hk & Ht & Hagg & Hn). exists i, j.
  split_and!; [|done..]. change (blob_gc_dedupe_key id) with (nj_dedupe_key (gc_job_of
    (content_scan_row (arrive sch d) (id, row)))). rewrite <- Hk. by apply find_job_unique.
Qed.
End scan.

Definition scan_request : ReconciliationPageRequest :=
  mkReconciliationPageRequest "scan" Contents 0 "" 10.

(** Content 7 has no references. *)
Definition scan_db : Database :=
  (empty_db 100) <| file_contents := {[7 := mkContentRow "m7" "s7" 10 "p/7" "" 0]} |>
    <| file_contents_id_seq := 8 |>.

Lemma content_scan_schedules_collectors_witness : ∃ page e,
  RunContentPage None scan_request (mkEnv scan_db [] AutoCommit []) = (Ret (Ok page), e) ∧
  pr_repairs_enqueued page = 1 ∧ gc_scheduled 7 (db e).
Proof.
  assert (∃ page e, RunContentPage None scan_request (mkEnv scan_db [] AutoCommit []) =
    (Ret (Ok page), e) ∧ pr_repairs_enqueued page = 1) as (page & e & E & Hn).
  { eexists _, _. split; [vm_compute; reflexivity|reflexivity]. }
  exists page, e. split_and!; [exact E|exact Hn|].
  destruct (content_scan_schedules_collectors None "scan" scan_request scan_db [] [] page e)
    as [_ H]; [apply empty_queue_ok|constructor|reflexivity|exact E|].
  apply (H 7 (mkContentRow "m7" "s7" 10 "p/7" "" 0)); [|reflexivity|vm_compute; reflexivity].
  apply list_elem_of_In. vm_compute. by left.
Defined.

(** ** Folders in the trash *)

Lemma sum_rows_plus {K V} `{Countable K} (f g : K → V → Z) (m : gmap K V) :
  sum_rows (λ k v, f k v + g k v) m = sum_rows f m + sum_rows g m.
Proof.
  induction m as [|k v m Hk IH] using map_ind; [by rewrite !sum_rows_empty|].
  rewrite !sum_rows_insert by done. lia.
Qed.

(** The references a trash entry holds beyond those the scan counts. *)
Definition uncounted (real_text : Z → Z → string) (x : TrashRow) (content_id : Z) : Z :=
  refs_held real_text x content_id -
  (if opt_eqb (x_content_id x) content_id && (x_item_type x =? "file")%string then 1 else 0).

(** The content scan raises a false alarm for what is in a trashed folder.  On exact
    books the stored count of a content exceeds the one the scan computes by the
    references that trash entries hold and the scan does not count; and a user who moves
    a folder with one file to the trash keeps the books exact, yet the next scan records
    a critical mismatch of the file's content. *)
Lemma trashed_folder_raises_alarm real_text registry :
  (∀ d id row, ledger registry (refs_held real_text) d → file_contents d !! id = Some row →
     c_ref_count row = actual_ref_count id d + sum_rows (λ _ x, uncounted real_text x id) (trash d)) ∧
  let d := db (MoveToTrash (λ ids, ids) (λ _, ""%string) 300 (mkMoveToTrashRequest [] [1]) 7
             (mkEnv example_trash_db [] AutoCommit [])).2 in
  ∃ page e g, books no_registry (λ _ _, ""%string) d ∧
    RunPage (λ s, s) None None scan_request (mkEnv d [] AutoCommit []) =
      (Ret (Ok page), e) ∧
    storage_reconciliation_findings (db e) !! (kContentRefCountMismatch, "9"%string) = Some g ∧
    g_severity g = SeverityValue Critical ∧ g_resolved_at g = None ∧ g_occurrences g = 1.
Proof.
  split.
  - intros d id row (_ & _ & Hc) Hrow. specialize (Hc id). unfold stored_refs, zero in Hc.
    rewrite Hrow in Hc. simpl in Hc. rewrite Hc. unfold refs_of, actual_ref_count.
    rewrite (sum_rows_ext (λ _ x, refs_held real_text x id) (λ _ x,
      (if opt_eqb (x_content_id x) id && (x_item_type x =? "file")%string then 1 else 0) +
      uncounted real_text x id)) by (intros i x _; unfold uncounted; lia).
    rewrite sum_rows_plus. lia.
  - intros d.
    assert (books no_registry (λ _ _, ""%string) d) as Hb.
    { destruct (respects_move no_registry (λ _ _, ""%string) (λ ids, ids) (λ _, ""%string) 300
        (mkMoveToTrashRequest [] [1]) 7 (mkEnv example_trash_db [] AutoCommit [])) as (_ & H & _);
        [reflexivity|exact example_trash_books|constructor|exact H]. }
    assert (∃ page e g, RunPage (λ s, s) None None scan_request (mkEnv d [] AutoCommit []) =
        (Ret (Ok page), e) ∧
      storage_reconciliation_findings (db e) !! (kContentRefCountMismatch, "9"%string) = Some g ∧
      g_severity g = SeverityValue Critical ∧ g_resolved_at g = None ∧ g_occurrences g = 1)
      as (page & e & g & H).
    { eexists _, _, _. split; [vm_compute; reflexivity|]. split; [vm_compute; reflexivity|done]. }
    exists page, e, g. by split.
Qed.
