(* ===== verification/UploadOutcomes.v ===== *)
(** * What the upload handlers promise their callers

    The answers of the handlers of [src/src/services/UploadLifecycleService.cpp] and
    what they leave behind, beyond the books of [Accounting.v]. *)

From S2P Require Import Prelude Errors Storage Db UploadState Json Schema Quota UploadTasks.
From S2P Require Import StorageJobs Content JobContract Files Folders Reconciliation Lifecycle Accounting.

(** ** Chunks *)

(** The bytes of a file of [file_size] bytes that chunk [i] carries. *)
Definition chunk_length (file_size chunk_size i : Z) : Z :=
  Z.min chunk_size (file_size - i * chunk_size).

Lemma total_chunks_ceil fs cs : 0 < fs < 2 ^ 63 → 0 < cs →
  total_chunks_u64 fs cs = (fs - 1) / cs + 1.
Proof.
  intros Hf Hc. unfold total_chunks_u64. rewrite !u64_small; [done|lia|].
  rewrite u64_small by lia. pose proof (Z.div_pos (fs - 1) cs).
  pose proof (Z.div_le_upper_bound (fs - 1) cs (fs - 1)). nia.
Qed.

Lemma foldr_add_snoc l z : foldr Z.add 0 (l ++ [z]) = foldr Z.add 0 l + z.
Proof. induction l as [|x l IH]; cbn; lia. Qed.

Lemma chunk_lengths_sum fs cs (k : nat) : 0 < cs → Z.of_nat k * cs <= fs →
  foldr Z.add 0 (chunk_length fs cs <$> seqZ 0 (Z.of_nat k)) = Z.of_nat k * cs.
Proof.
  intros Hc. induction k as [|k IH]; intros Hk; [done|].
  rewrite seqZ_S, fmap_app. cbn. rewrite foldr_add_snoc, IH by lia. unfold chunk_length. lia.
Qed.

(** ** Calls to the stores while an upload completes *)

Section stores.
Context (HashSha256 : string → string) (Date_now : Z)
  (staging : option UploadStagingStorage) (blobs : option IBlobStore).
Context (command : CompleteUploadCommand) (task : UploadTaskRow)
  (session : UploadStagingSession) (storage : UploadStagingStorage).

#[export] Instance silent_claim i u o n : Silent (ClaimFinalizeLease i u o n).
Proof. unfold ClaimFinalizeLease, ValidateLeaseArguments. solve_silent. Qed.
#[export] Instance silent_renew v : Silent (RenewLeaseFor command v).
Proof. unfold RenewLeaseFor, RenewFinalizeLease, ValidateLeaseArguments. solve_silent. Qed.
#[export] Instance silent_record_error v c : Silent (RecordFinalizeErrorBestEffort command v c).
Proof.
  unfold RecordFinalizeErrorBestEffort, RecordFinalizeErrorIfLeaseOwned. solve_silent.
Qed.
#[export] Instance silent_fail {A} v e : Silent (fail_completion (A:=A) command v e).
Proof. unfold fail_completion. solve_silent. Qed.
#[export] Instance silent_replay c : Silent (replay_completed command c).
Proof. unfold replay_completed, FindCompletedFile. solve_silent. Qed.
#[export] Instance silent_trigger v :
  Silent (TriggerStagingReconciliationBestEffort HashSha256 session command v).
Proof.
  unfold TriggerStagingReconciliationBestEffort, RecordFinding, EnqueueOrRearmSucceeded,
    ValidateNewJob, ValidateBoundedValue. solve_silent.
Qed.
#[export] Instance silent_lookup h : Silent (finalize_lookup command task h).
Proof. unfold finalize_lookup, FindByMd5. solve_silent. Qed.
#[export] Instance silent_commit v c k :
  Silent (commit_upload Date_now command task session v c k).
Proof. unfold commit_upload. solve_silent. Qed.

(** An assembled object that is the announced file. *)
Definition matches (size : Z) (hash : string) (a : UploadStagingAssembly) : Prop :=
  sa_size_bytes a = u64 size ∧ sa_md5_hash a = hash.

Definition failed {A} (o : outcome (Result A)) : Prop := ∃ er, o = Ret (Err er).

(** What may follow the assembly of an object. *)
Definition after_assembly (size : Z) (hash : string) (session : UploadStagingSession)
    (a : UploadStagingAssembly) (l : list StorageCall)
    (o : outcome (Result CompleteUploadOutcome)) : Prop :=
  (l = [CallDiscardAssembly session a] ∧ failed o) ∨
  (matches size hash a ∧ (l = [] ∨ l = [CallPromoteToFinal a (sa_sha256_hash a)])).

Lemma fail_fails {A} v e env : failed (fail_completion (A:=A) command v e env).1.
Proof.
  unfold fail_completion, RecordFinalizeErrorBestEffort, catch_all, catch, failed.
  unfold mbind, M_bind, mret, M_ret. repeat case_match; simplify_eq/=; eauto.
Qed.

Lemma emits_discard_fail h a v e :
  emits h (_ ← discard session storage a; fail_completion command v e)
    (after_assembly (t_file_size task) (t_file_hash task) session a).
Proof.
  apply emits_bind_call. intros env He. exists []. rewrite silent, He, app_nil_r.
  split; [done|]. left. split; [done|apply fail_fails].
Qed.

Lemma emits_place h v a existing : integrity_ok task a = true →
  emits h (place_content Date_now blobs command task session storage v a existing)
    (after_assembly (t_file_size task) (t_file_hash task) session a).
Proof.
  intros Hi. assert (matches (t_file_size task) (t_file_hash task) a) as Hm.
  { unfold integrity_ok in Hi. case_bools. done. }
  assert (∀ v c k, emits h (commit_upload Date_now command task session v c k)
    (after_assembly (t_file_size task) (t_file_hash task) session a)) as Hc.
  { intros. apply emits_silent; [apply _|]. right; auto. }
  assert (∀ v k, emits h (fail_completion command v k)
    (after_assembly (t_file_size task) (t_file_hash task) session a)) as Hf.
  { intros. apply emits_silent; [apply _|]. right; auto. }
  unfold place_content.
  set (content := mkNewContent _ _ _). set (matching := existing ≫= _).
  assert (emits h match blobs with
      | None => _ ← discard session storage a;
                fail_completion command v (mkErrorInfo InternalError "Blob store is not configured")
      | Some blob_store =>
          promoted ← call_storage (CallPromoteToFinal a (sa_sha256_hash a))
            (λ h, PromoteToFinal blob_store h a (sa_sha256_hash a));
          match (promoted : Result string) with
          | Err e => fail_completion command v e
          | Ok path => commit_upload Date_now command task session v (content path "")
                         (fs_existing_content_id (DecideFinalizeStorage (cm_id <$> matching)))
          end
      end (after_assembly (t_file_size task) (t_file_hash task) session a)) as Hp.
  { destruct blobs as [blob_store|]; [|apply emits_discard_fail].
    apply emits_bind_call. destruct (PromoteToFinal blob_store h a _);
      (apply emits_silent; [apply _|]; intros; right; auto). }
  destruct matching; cbn; [apply Hc|apply Hp].
Qed.

Lemma emits_verify h v a :
  emits h (verify_assembly Date_now blobs command task session storage v a)
    (after_assembly (t_file_size task) (t_file_hash task) session a).
Proof.
  assert (∀ e : ErrorInfo, emits h (_ ← discard session storage a; mret (Err e))
    (after_assembly (t_file_size task) (t_file_hash task) session a)) as Hd.
  { intros e. apply emits_bind_call, emits_ret. left. split; [done|]. by eexists. }
  unfold verify_assembly. apply emits_bind_returns; [apply _|apply returns_catch_all|].
  intros [v'|e]; [|apply Hd].
  destruct (integrity_ok task a) eqn:Hi; cbn [negb]; [|apply emits_discard_fail].
  apply emits_bind_silent; [apply _| |].
  - intros [existing []]; [apply emits_discard_fail|by apply emits_place].
  - intros x. right. unfold integrity_ok in Hi. case_bools. split; [done|by left].
Qed.

(** What completing a task under way may ask of the stores. *)
Definition assembling (h : list StorageCall) (size : Z) (hash : string) (storage : UploadStagingStorage)
    (l : list StorageCall) (o : outcome (Result CompleteUploadOutcome)) : Prop :=
  ∃ session v n chunks l', l = CallAssembleChunks session v n chunks :: l' ∧
    match AssembleChunks storage h session v n chunks with
    | Err er => l' = [] ∧ o = Ret (Err er)
    | Ok a => after_assembly size hash session a l' o
    end.

Lemma emits_assemble h v chunks :
  emits h (assemble HashSha256 Date_now blobs command task session storage v chunks)
    (assembling h (t_file_size task) (t_file_hash task) storage).
Proof.
  unfold assemble. apply emits_bind_call.
  destruct (AssembleChunks storage h session v _ chunks) as [a|er] eqn:Ha.
  - eapply emits_weaken; [apply emits_verify|]. intros l o Ho.
    eexists _, _, _, _, _. split; [done|]. by rewrite Ha.
  - apply emits_bind_returns; [apply _|apply returns_catch_all|]. intros [].
    apply emits_bind_returns.
    + case_decide; apply _.
    + case_decide; [|by eexists]. intros env.
      unfold TriggerStagingReconciliationBestEffort, mbind, M_bind.
      match goal with |- context [ catch_all ?m (mret tt) env ] =>
        destruct (returns_catch_all m tt env) as [? Hx];
        destruct (catch_all m (mret tt) env) as [o1 e1]; cbn in Hx; subst end.
      destruct (BuildStorageReconcileJob _ _); [apply returns_catch_all|by eexists].
    + intros _. apply emits_ret. eexists _, _, _, _, _. split; [done|]. by rewrite Ha.
Qed.
End stores.

Section completion.
Context (HashSha256 : string → string) (Date_now : Z)
  (staging : option UploadStagingStorage) (blobs : option IBlobStore).
Context (command : CompleteUploadCommand).

(** The upload, whoever looks it up, is the one announced with this size and hash. *)
Definition announced (size : Z) (hash : string) (d : Database) : Prop :=
  ∀ t, upload_tasks d !! cc_upload_id command = Some t → t_user_id t = cc_user_id command →
    t_file_size t = size ∧ t_file_hash t = hash.

Lemma announced_claim size hash u o n d r d' :
  claim_statement (cc_upload_id command) u o n d = Some (r, d') →
  announced size hash d → announced size hash d'.
Proof.
  intros [[_ ->]|(t & t' & Ht & Hg & Hs & _ & _ & ->)]%update_task_Some Ha; [done|].
  destruct (sound_claim _ _ _ _ _ _ _ Hg Hs) as [(E1 & _ & _ & E2 & E3 & _) _].
  intros t1. rewrite put_task_lookup, decide_True by done. intros [= <-]. rewrite E1, E2, E3.
  by apply Ha.
Qed.

#[export] Instance preserves_claim size hash :
  Preserves (announced size hash) (ClaimFinalizeLease (cc_upload_id command)
    (cc_user_id command) (cc_lease_owner command) (cc_lease_duration_seconds command)).
Proof.
  unfold ClaimFinalizeLease, ValidateLeaseArguments.
  assert (∀ u o n, Preserves (announced size hash)
    (exec (claim_statement (cc_upload_id command) u o n))).
  { intros. apply preserves_exec. eauto using announced_claim. }
  solve_preserves.
Qed.

Lemma bind_cases {A B} (P : outcome B * Env Database → Prop) (m : M Database A) f e :
  match m e with (Ret a, e') => P (f a e') | (Raise x, e') => P (Raise x, e') end →
  P ((m ≫= f) e).
Proof. unfold mbind, M_bind. by destruct (m e) as [[]]. Qed.

(** What completing the upload may ask of the stores after the calls [h]. *)
Definition completing (h : list StorageCall) (size : Z) (hash : string) (l : list StorageCall)
    (o : outcome (Result CompleteUploadOutcome)) : Prop :=
  l = [] ∨ ∃ storage, staging = Some storage ∧ assembling h size hash storage l o.

(** From the loaded task on. *)
Lemma emits_load h task v :
  emits h
    (session ← catch_all (FindStagingSessionForUser (cc_upload_id command) (cc_user_id command))
                 (mret None);
     match (session : option UploadStagingSession) with
     | None => fail_completion command v
                 (mkErrorInfo InternalError "Failed to load upload staging session")
     | Some staging_session =>
         chunks ← catch_all (l ← ListChunksForAssembly (cc_upload_id command); mret (Some l))
                    (mret None);
         match (chunks : option (list UploadStagingChunk)), staging with
         | None, _ => fail_completion command v
                        (mkErrorInfo InternalError "Failed to load upload chunk descriptors")
         | Some _, None => fail_completion command v
                        (mkErrorInfo InternalError "Upload staging storage is not configured")
         | Some chunks, Some storage =>
             assemble HashSha256 Date_now blobs command task staging_session storage v chunks
         end
     end) (completing h (t_file_size task) (t_file_hash task)).
Proof.
  assert (∀ e : ErrorInfo, emits h (fail_completion command v e)
    (completing h (t_file_size task) (t_file_hash task))) as Hf.
  { intros e. apply emits_silent; [apply _|by left]. }
  apply emits_bind_silent; [unfold FindStagingSessionForUser; solve_silent| |by left].
  intros [session|]; [|apply Hf].
  apply emits_bind_silent; [unfold ListChunksForAssembly; solve_silent| |by left].
  intros [chunks|]; [|apply Hf]. destruct staging as [storage|] eqn:Hst; [|apply Hf].
  eapply emits_weaken; [apply emits_assemble|]. intros l o Ho. right. eauto.
Qed.

Lemma FindByIdForUser_answer (I : Database → Prop) id u e t e' :
  tx e = AutoCommit → I (db e) → stable I (schedule e) →
  FindByIdForUser id u e = (Ret (Some t), e') →
  calls e' = calls e ∧ ∃ d, I d ∧ upload_tasks d !! id = Some t ∧ t_user_id t = u.
Proof.
  intros Ht HI Hst. unfold FindByIdForUser, catch_db, catch.
  set (q := λ d : Database, _).
  pose proof (silent (m := query q) e). pose proof (query_answer I q e) as Ha.
  destruct (query q e) as [[o|[]] e1]; intros Hr; simplify_eq/=. split; [done|].
  destruct (Ha _ _ Ht HI Hst eq_refl) as (d & Hd & Hq). exists d. split; [done|]. subst q.
  cbn in Hq. destruct (upload_tasks d !! id) as [t0|]; [|done]. cbn in Hq.
  destruct (Z.eqb_spec (t_user_id t0) u); by simplify_eq.
Qed.

Lemma finalize_calls size hash v e :
  tx e = AutoCommit → announced size hash (db e) → stable (announced size hash) (schedule e) →
  let r := finalize_upload HashSha256 Date_now staging blobs command v e in
  ∃ l, calls r.2 = (calls e ++ l)%list ∧ completing (calls e) size hash l r.1.
Proof.
  intros Ht Ha Hst. unfold finalize_upload. cbn zeta.
  apply (bind_cases (λ r, ∃ l, calls r.2 = (calls e ++ l)%list ∧
    completing (calls e) size hash l r.1)).
  pose proof (FindByIdForUser_answer (announced size hash) (cc_upload_id command) (cc_user_id command) e)
    as Hfound.
  assert (Silent (FindByIdForUser (cc_upload_id command) (cc_user_id command))) as Hs
    by (unfold FindByIdForUser; solve_silent).
  specialize (Hs e).
  destruct (FindByIdForUser _ _ e) as [[[task|]|x] e'] eqn:Hf; cbn in Hs;
    [|exists []; rewrite app_nil_r; by split; [|left]..].
  destruct (Hfound _ _ Ht Ha Hst eq_refl) as (_ & d & Hd & Htask & Hu).
  destruct (Hd _ Htask Hu) as [<- <-]. rewrite <- Hs. by apply emits_load.
Qed.

Lemma complete_calls size hash e :
  tx e = AutoCommit → announced size hash (db e) → stable (announced size hash) (schedule e) →
  let r := CompleteUpload HashSha256 Date_now staging blobs command e in
  ∃ l, calls r.2 = (calls e ++ l)%list ∧ completing (calls e) size hash l r.1.
Proof.
  intros Ht Ha Hst. unfold CompleteUpload, bind_result. cbn zeta.
  apply (bind_cases (λ r, ∃ l, calls r.2 = (calls e ++ l)%list ∧
    completing (calls e) size hash l r.1)).
  set (claim := catch_all _ _).
  assert (Silent claim) as Hs by (subst claim; solve_silent).
  assert (Preserves (announced size hash) claim) as Hp by (subst claim; solve_preserves).
  specialize (Hs e). specialize (Hp e Ht Ha Hst).
  destruct (claim e) as [[[r|er]|x] e']; cbn in Hs, Hp;
    [|exists []; rewrite app_nil_r; by split; [|left]..].
  destruct Hp as (Ht' & Ha' & Hst'). rewrite <- Hs.
  assert (∀ m : M Database (Result CompleteUploadOutcome), Silent m →
    ∃ l, calls (m e').2 = (calls e' ++ l)%list ∧ completing (calls e') size hash l (m e').1)
    as Hq.
  { intros m Hm. exists []. rewrite Hm, app_nil_r. by split; [|left]. }
  destruct (fc_disposition r); try (apply Hq, _). by apply finalize_calls.
Qed.
End completion.

(** ** What a committed completion leaves *)

Section commit.
Context (command : CompleteUploadCommand) (md5 : string) (file : file_row).

(** The file is there, of the user, with a content of the announced hash. *)
Definition file_stored (d : Database) : Prop :=
  files d !! file.1 = Some file.2 ∧ f_user_id file.2 = cc_user_id command ∧
  ∃ c, file_contents d !! f_content_id file.2 = Some c ∧ c_hash_md5 c = md5.

(** And the task records it as its result. *)
Definition result_recorded (d : Database) : Prop :=
  file_stored d ∧ ∃ t, upload_tasks d !! cc_upload_id command = Some t ∧
    t_user_id t = cc_user_id command ∧ t_status t = UploadToStorageValue Completed ∧
    t_completed_file_id t = Some file.1.

Lemma file_stored_frame d d' : files d' = files d → file_contents d' = file_contents d →
  file_stored d → file_stored d'.
Proof. unfold file_stored. by intros -> ->. Qed.

Lemma result_recorded_frame d d' : files d' = files d → file_contents d' = file_contents d →
  upload_tasks d' = upload_tasks d → result_recorded d → result_recorded d'.
Proof. intros Hf Hc Ht [H1 H2]. split; [by eapply file_stored_frame|]. by rewrite Ht. Qed.
End commit.

Lemma runs_item_count f u n t snap s b s' : runs (ApplyItemCountDelta f u n t) snap s b s' →
  files s' = files s ∧ file_contents s' = file_contents s ∧ upload_tasks s' = upload_tasks s.
Proof.
  intros H%runs_exec. unfold update_folder in H.
  destruct (owned_folder f u s) as [[i g]|]; [|by simplify_eq].
  apply bind_Some in H as (g' & _ & H). destruct (check_folder g' && _); [|done].
  by injection H as _ <-.
Qed.

Lemma runs_location f u snap s l s' :
  runs (ResolveOwnedFolderLocation f u) snap s (Ok l) s' → s' = s.
Proof.
  unfold ResolveOwnedFolderLocation. destruct (f =? 0); [by intros [_ ->]%runs_ret|].
  rewrite runs_catch_db by solve_tx_body. intros H. run_bind H x t H1.
  apply runs_query in H1 as [_ ->]. by apply runs_ret in H as [_ ->].
Qed.

Lemma runs_insert_record user content folder name ext size mime path snap s file s' :
  runs (InsertFileRecord user content folder name ext size mime path) snap s (Ok file) s' →
  files s' !! file.1 = Some file.2 ∧ f_user_id file.2 = user ∧ f_content_id file.2 = content ∧
  file_contents s' = file_contents s.
Proof.
  unfold InsertFileRecord. intros H. run_bind H res t H1. apply runs_exec in H1.
  apply runs_ret in H as [E ->]. destruct res as [[i g]|]; [|done]. injection E as ->.
  unfold insert_file_statement in H1. apply bind_Some in H1 as (id & _ & H1). cbv zeta in H1.
  destruct (check_file _); [|done]. destruct (exists_row _ _); [done|]. simpl in H1.
  destruct (_ && _); [|done]. injection H1 as <- <- <-. split_and!; try done.
  apply lookup_insert_eq.
Qed.

Lemma acquire_statement_content content s m s' :
  acquire_statement content s = Some (Some m, s') →
  ∃ c, file_contents s' !! cm_id m = Some c ∧ c_hash_md5 c = nc_hash_md5 content.
Proof.
  unfold acquire_statement. intros (id & _ & H)%bind_Some. cbv zeta in H.
  destruct (find_content_by_hashes _ _ s) as [[i row]|] eqn:Hf.
  - unfold find_content_by_hashes in Hf. apply find_row_Some in Hf as [_ Hm].
    destruct (_ =? _); [|by simplify_eq]. apply bind_Some in H as (n & _ & [= <- <-]).
    eexists. split; [apply lookup_insert_eq|]. cbn. by case_bools.
  - injection H as <- <-. eexists. split; [apply lookup_insert_eq|done].
Qed.

Lemma runs_mark_completed i u o v f snap s b s' :
  runs (MarkCompletedIfLeaseOwned i u o v f) snap s b s' →
  files s' = files s ∧ file_contents s' = file_contents s ∧
  (b = true → ∃ t, upload_tasks s' !! i = Some t ∧ t_user_id t = u ∧
     t_status t = UploadToStorageValue Completed ∧ t_completed_file_id t = Some f).
Proof.
  unfold MarkCompletedIfLeaseOwned. intros H. run_bind H row t1 H1. apply runs_exec in H1.
  apply runs_ret in H as [-> ->]. unfold complete_statement in H1.
  apply update_task_Some in H1 as [[-> ->]|(t & t' & Ht & Hg & Hs & _ & -> & ->)]; [done|].
  split_and!; [done..|]. intros _. exists t'. rewrite put_task_lookup, decide_True by done.
  apply lease_owned_true in Hg as (Hu & _). inv_set. done.
Qed.

Lemma runs_enqueue job snap s b s' : runs (Enqueue job) snap s b s' →
  files s' = files s ∧ file_contents s' = file_contents s ∧ upload_tasks s' = upload_tasks s.
Proof.
  unfold Enqueue. intros H. run_bind H u t H1. apply runs_ValidateNewJob in H1 as ->.
  run_bind H jid t H1. apply runs_exec in H1. apply runs_ret in H as [_ ->].
  by apply insert_job_tables in H1 as (_ & ? & ? & ? & _).
Qed.

Lemma finalize_body_records date command task session v content e s file s' :
  runs (finalize_body date command task session v content e) s s (Ok file) s' →
  result_recorded command (nc_hash_md5 content) file s'.
Proof.
  unfold finalize_body. intros H.
  run_bind_result H w t H1. clear H1.
  run_bind_result H m t1 H2. apply runs_acquire, acquire_statement_content in H2 as (c & Hc & Hmd5).
  run_bind_result H loc t2 H3. apply runs_location in H3 as ->.
  run_bind_result H file' t3 H4. apply runs_insert_record in H4 as (Hf & Hu & Hfc & Hct).
  assert (file_stored command (nc_hash_md5 content) file' t3) as Hst.
  { split; [done|]. split; [done|]. exists c. by rewrite Hfc, Hct. }
  run_bind H w' t4 H5.
  assert (file_stored command (nc_hash_md5 content) file' t4) as Hst4.
  { destruct (0 <? t_folder_id task); [|by apply runs_ret in H5 as [_ ->]].
    apply runs_item_count in H5 as (E1 & E2 & _). by eapply file_stored_frame. }
  run_bind_result H u t5 H6. destruct u.
  assert (file_stored command (nc_hash_md5 content) file' t5) as Hst5.
  { apply (runs_account (Account.CommitRes (t_file_size task))) in H6
      as [[_ ->]|(? & ? & _ & _ & ->)]; exact Hst4. }
  run_bind H ok t6 H7. apply runs_mark_completed in H7 as (E1 & E2 & Hok).
  destruct ok; [|by apply runs_ret in H as [? _]]. cbn [negb] in H.
  assert (result_recorded command (nc_hash_md5 content) file' t6) as Hst6.
  { split; [by eapply file_stored_frame|]. by apply Hok. }
  run_bind H b t7 H8. apply runs_enqueue in H8 as (E3 & E4 & E5).
  run_bind H w'' t8 H9. apply runs_exec in H9. injection H9 as _ <-.
  apply runs_ret in H as [[= ->] ->].
  eapply result_recorded_frame; [..|exact Hst6]; done.
Qed.

(** A recorded result is replayed. *)
Lemma recorded_replays sha date staging blobs command md5 file owner n d cs :
  result_recorded command md5 file d → valid_lease_args owner n →
  CompleteUpload sha date staging blobs
    (mkCompleteUploadCommand (cc_upload_id command) (cc_user_id command) owner n)
    (mkEnv d [] AutoCommit cs) =
  (Ret (Ok (mkCompleteUploadOutcome (Some (ToLifecycleFileItem file md5))
     (invalidate [cc_upload_id command] [f_folder_id file.2]))), mkEnv d [] AutoCommit cs).
Proof.
  intros ((Hf & Hu & c & Hc & Hmd5) & t & Ht & Htu & Hs & Hr) Hargs.
  assert (claim_statement (cc_upload_id command) (cc_user_id command) owner n d = Some (None, d))
    as Hclaim.
  { apply update_task_skip. intros t' Ht'. simplify_eq. unfold is_status. rewrite Hs. cbn.
    by rewrite andb_false_r. }
  assert (ClaimFinalizeLease (cc_upload_id command) (cc_user_id command) owner n
      (mkEnv d [] AutoCommit cs) =
    (Ret (mkFinalizeClaimResult CompletedReplay (t_state_version t) (Some file.1)),
     mkEnv d [] AutoCommit cs)) as Hcl.
  { unfold ClaimFinalizeLease.
    rewrite (bind_Ret _ _ _ _ _ (ValidateLeaseArguments_valid owner n _ Hargs)).
    rewrite (bind_Ret _ _ _ _ _ (exec_works _ _ _ _ cs Hclaim)).
    rewrite (bind_Ret _ _ _ _ _ (query_works _ d cs)).
    unfold current_statement. rewrite Ht. cbn. rewrite Htu, Z.eqb_refl, Hs, Hr. reflexivity. }
  unfold CompleteUpload, bind_result.
  erewrite bind_Ret; [|unfold catch_all, catch; by rewrite (bind_Ret _ _ _ _ _ Hcl)].
  cbn. unfold catch_all, catch, FindCompletedFile.
  rewrite (bind_Ret _ _ _ _ _ (query_works _ d cs)), Hf. cbn. rewrite Hu, Z.eqb_refl, Hc. cbn.
  by rewrite Hmd5.
Qed.

(** ** Properties *)

(** The chunks of an upload tile its file.  Of a file of at least one byte the
    server accepts, for exactly the indices below the number of chunks it announced,
    a body of one size: the chunk size, or what is left for the last chunk, which is
    not empty.  The accepted bodies have together the size of the file. *)
Lemma chunks_tile_the_file fs cs : 0 < fs < 2 ^ 63 → 0 < cs < 2 ^ 32 →
  let total := total_chunks_u64 fs cs in
  (∀ i size, 0 <= i →
     (∃ x, ValidateChunkAcceptance i size fs cs total = inl x) ↔
     i < total ∧ size = chunk_length fs cs i) ∧
  (∀ i, 0 <= i < total → 0 < chunk_length fs cs i <= cs) ∧
  foldr Z.add 0 (chunk_length fs cs <$> seqZ 0 total) = fs.
Proof.
  intros Hf Hc total. subst total. rewrite total_chunks_ceil by lia.
  pose proof (Z.div_mod (fs - 1) cs ltac:(lia)) as Hd.
  pose proof (Z.mod_pos_bound (fs - 1) cs ltac:(lia)).
  set (q := (fs - 1) / cs) in *.
  assert (0 <= q) by (apply Z.div_pos; lia).
  assert (∀ i, 0 <= i < q + 1 → 0 <= i * cs < fs) as Hi.
  { intros i ?. assert (i * cs <= q * cs) by (apply Z.mul_le_mono_nonneg_r; lia).
    split; [apply Z.mul_nonneg_nonneg; lia|]. rewrite Z.mul_comm in Hd. lia. }
  split_and!.
  - intros i size Hi0. unfold ValidateChunkAcceptance, chunk_length.
    destruct (Z.leb_spec (q + 1) i); [naive_solver lia|].
    specialize (Hi i ltac:(lia)).
    rewrite (u64_small (i * cs)), (u64_small (fs - i * cs)) by lia.
    destruct (Z.eqb_spec size (Z.min cs (fs - i * cs))); naive_solver.
  - intros i Hi'. specialize (Hi i Hi'). unfold chunk_length. lia.
  - pose proof (chunk_lengths_sum fs cs (Z.to_nat q)) as Hs.
    rewrite Z2Nat.id in Hs by done. specialize (Hs ltac:(lia) ltac:(lia)).
    replace (q + 1) with (Z.of_nat (S (Z.to_nat q))) by lia.
    rewrite seqZ_S, fmap_app. cbn. rewrite foldr_add_snoc, Z2Nat.id, Hs by done.
    unfold chunk_length. lia.
Qed.

(** C19: completing an upload uses the object stores safely.  Whatever fails and
    whatever the other sessions do, as long as no upload changes the size and hash it
    announced, a completion asks for at most one assembly and then for at most one of
    discarding the assembled object and promoting it.  It promotes only an object of
    the announced size and hash; when it discards the object, or when the assembly
    failed, the completion fails; and an object neither discarded nor promoted has
    the announced size and hash too. *)
Theorem completion_promotes_the_announced_file sha date staging blobs command size hash e :
  tx e = AutoCommit → announced command size hash (db e) →
  stable (announced command size hash) (schedule e) →
  let r := CompleteUpload sha date staging blobs command e in
  ∃ l, calls r.2 = (calls e ++ l)%list ∧
    (l = [] ∨
     ∃ storage session v n chunks l', staging = Some storage ∧
       l = CallAssembleChunks session v n chunks :: l' ∧
       match AssembleChunks storage (calls e) session v n chunks with
       | Err er => l' = [] ∧ r.1 = Ret (Err er)
       | Ok a =>
           (l' = [CallDiscardAssembly session a] ∧ failed r.1) ∨
           ((sa_size_bytes a = u64 size ∧ sa_md5_hash a = hash) ∧
            (l' = [] ∨ l' = [CallPromoteToFinal a (sa_sha256_hash a)]))
       end).
Proof.
  intros Ht Ha Hst r. destruct (complete_calls sha date staging blobs command size hash e Ht Ha Hst)
    as (l & Hl & [->|(storage & Hs & session & v & n & chunks & l' & -> & H)]).
  - exists []. auto.
  - eexists. split; [exact Hl|]. right. exists storage, session, v, n, chunks, l'. auto.
Qed.

(** Completing is exactly once, as the client sees it.  Whatever the database does to the
    transaction that makes the file, either nothing changed and an error is reported,
    or the file is there and, whether the commit was confirmed or its reply lost, any
    later request to complete the upload answers with that file and changes
    nothing. *)
Lemma committed_completion_is_replayed sha date date' staging blobs command task session v
    content e d0 s sch cs owner n :
  valid_lease_args owner n →
  let r := Run d0 (finalize_body date command task session v content e)
             (mkEnv s sch AutoCommit cs) in
  (db r.2 = arrive sch s ∧ ∃ er, r.1 = Ret (Err er)) ∨
  ∃ file, (r.1 = Ret (Ok file) ∨ r.1 = Ret (Err d0)) ∧
    ∀ cs', CompleteUpload sha date' staging blobs
        (mkCompleteUploadCommand (cc_upload_id command) (cc_user_id command) owner n)
        (mkEnv (db r.2) [] AutoCommit cs') =
      (Ret (Ok (mkCompleteUploadOutcome
         (Some (ToLifecycleFileItem file (nc_hash_md5 content)))
         (invalidate [cc_upload_id command] [f_folder_id file.2]))),
       mkEnv (db r.2) [] AutoCommit cs').
Proof.
  intros Hargs r.
  destruct (Run_spec d0 (finalize_body date command task session v content e) s sch cs _)
    as (o & s' & sch' & Hr & _ & Ho).
  subst r. rewrite Hr. cbn. destruct Ho as [[-> Hk]|(file & Ho & Hc)].
  - left. split; [done|]. destruct o; [done|]. by eexists.
  - right. exists file. split; [by destruct Ho as [-> | ->]; [left|right]|]. intros cs'.
    apply clean_runs, finalize_body_records in Hc. by apply recorded_replays.
Qed.

(** ** Witnesses *)

Lemma chunks_tile_the_file_witness :
  total_chunks_u64 10 4 = 3 ∧
  foldr Z.add 0 (chunk_length 10 4 <$> seqZ 0 (total_chunks_u64 10 4)) = 10.
Proof. split; [reflexivity|]. apply (chunks_tile_the_file 10 4); lia. Defined.

(** A store that assembles whatever it is given into an object of the hash of
    [example_task], and a blob store that promotes it. *)
Definition example_storage : UploadStagingStorage := {|
  EnsureUploadSession := λ _ _, Ok tt;
  WriteChunk := λ _ _ i md5 key, Ok (mkUploadStagingChunk i 0 md5 key "");
  AssembleChunks := λ _ s _ _ chunks, Ok (mkUploadStagingAssembly (ss_backend s)
    (ss_prefix s +:+ "/assembled") (foldr Z.add 0 (sc_size_bytes <$> chunks))
    "5d41402abc4b2a76b9719d911017c592" "sha256");
  DiscardAssembly := λ _ _ _, Ok tt;
  CleanupSession := λ _ _, Ok tt;
  ListStagingObjects := λ _ _ _, Ok (mkStorageInventoryPage [] "" false)
|}.

Definition example_blobs : IBlobStore := {|
  PromoteToFinal := λ _ _ sha, Ok ("blobs/" +:+ sha)%string;
  OpenBlobRangeForRead := λ _ _ _ _, Err (mkErrorInfo FileReadError "");
  BlobExists := λ _ _, Ok true;
  GetLocalBlobPathForDownload := λ _, None;
  GetBlobSize := λ _ b, Ok (bd_size b);
  DeleteBlob := λ _ _, Ok tt;
  ListFinalObjects := λ _ _ _, Ok (mkStorageInventoryPage [] "" false)
|}.

Definition example_command : CompleteUploadCommand :=
  mkCompleteUploadCommand "up-1" 7 "server-a" 30.

Definition example_hash : string := "5d41402abc4b2a76b9719d911017c592".

Lemma example_announced : announced example_command 10 example_hash example_db.
Proof.
  intros t Ht. change (({["up-1"%string := example_task]} : gmap _ _) !! "up-1"%string = Some t) in Ht.
  by apply lookup_singleton_Some in Ht as [_ <-].
Qed.

Definition example_completion : outcome (Result CompleteUploadOutcome) * Env Database :=
  CompleteUpload (λ s, s) 1000 (Some example_storage) (Some example_blobs) example_command
    (mkEnv example_db [] AutoCommit []).

Lemma completion_promotes_the_announced_file_witness :
  length (calls example_completion.2) = 2%nat ∧
  ∃ c a, calls example_completion.2 = [c; CallPromoteToFinal a (sa_sha256_hash a)] ∧
    sa_size_bytes a = 10 ∧ sa_md5_hash a = example_hash.
Proof.
  assert (length (calls example_completion.2) = 2%nat) as Hlen by (vm_compute; reflexivity).
  assert (is_ok (match example_completion.1 with Ret r => r | Raise _ => Err (err InternalError) end)
    = true) as Hok by (vm_compute; reflexivity).
  split; [exact Hlen|].
  destruct (completion_promotes_the_announced_file (λ s, s) 1000 (Some example_storage)
    (Some example_blobs) example_command 10 example_hash (mkEnv example_db [] AutoCommit [])
    eq_refl example_announced (Forall_nil_2 _)) as (l & Hl & Hcases).
  change (CompleteUpload _ _ _ _ _ _) with example_completion in *.
  revert Hlen Hok Hl Hcases. generalize example_completion. intros r Hlen Hok Hl Hcases.
  cbn [calls app] in Hl. rewrite Hl in *.
  destruct Hcases as [->|(st & session & v & n & chunks & l' & _ & -> & Hcases)]; [done|].
  destruct (AssembleChunks st _ _ _ _ _) as [a|]; [|by destruct Hcases as [-> _]].
  destruct Hcases as [[-> [er Her]]|[[Hs Hh] [-> | ->]]]; [by rewrite Her in Hok|done|].
  eexists _, a. by split.
Defined.

(** The task of [example_db] in the hands of a finalizer. *)
Definition example_finalize (sch : list (Step Database)) :=
  Run (err InternalError)
    (finalize_body 1000 example_command example_task
       (mkUploadStagingSession "up-1" StagingLocal "up-1") 1
       (mkNewContent example_hash "sha256" 10 "blobs/sha256" "") None)
    (mkEnv example_claimed sch AutoCommit []).

(** The reply to the commit is lost; the retry gets the file. *)
Definition example_lossy : outcome (Result file_row) * Env Database :=
  example_finalize (replicate 10 (alone Works) ++ [alone LostReply]).

Lemma committed_completion_is_replayed_witness :
  is_ok (match example_lossy.1 with Ret r => r | Raise _ => Err (err InternalError) end) = false ∧
  ∃ outcome, CompleteUpload (λ s, s) 2000 None None
      (mkCompleteUploadCommand "up-1" 7 "server-b" 30)
      (mkEnv (db example_lossy.2) [] AutoCommit []) =
    (Ret (Ok outcome), mkEnv (db example_lossy.2) [] AutoCommit []).
Proof.
  assert (is_ok (match example_lossy.1 with Ret r => r | Raise _ => Err (err InternalError) end)
    = false) as Hlost by (vm_compute; reflexivity).
  assert (t_status <$> upload_tasks (db example_lossy.2) !! "up-1"%string = Some 1) as Hdone
    by (vm_compute; reflexivity).
  assert (t_status <$> upload_tasks example_claimed !! "up-1"%string = Some 4) as Hbefore
    by (vm_compute; reflexivity).
  split; [exact Hlost|].
  destruct (committed_completion_is_replayed (λ s, s) 1000 2000 None None example_command
    example_task (mkUploadStagingSession "up-1" StagingLocal "up-1") 1
    (mkNewContent example_hash "sha256" 10 "blobs/sha256" "") None (err InternalError)
    example_claimed (replicate 10 (alone Works) ++ [alone LostReply]) [] "server-b" 30)
    as [[H _]|(file & _ & H)].
  - by split_and!.
  - change (db example_lossy.2 = example_claimed) in H. rewrite H in Hdone. congruence.
  - eexists. apply H.
Defined.
