(* ===== verification/UploadService.v ===== *)
(** * The upload service

    [src/src/services/UploadService.cpp]: the requests of an upload, around the lifecycle
    of [Lifecycle.v], and the process-wide cache of task metadata that spares a chunk the
    queries for its task.  The cache is a value: a request is given the cache it finds and
    answers with the edits it makes to it, since other requests edit it in between. *)

From S2P Require Import Prelude Errors Storage Db Rely UploadState Schema Quota UploadTasks.
From S2P Require Import Lifecycle.

Local Open Scope string_scope.

(** ** The cache *)

Record UploadTaskCacheEntry := mkUploadTaskCacheEntry {
  ce_user_id : Z;
  ce_file_size : Z;
  ce_chunk_size : Z;
  ce_total_chunks : Z;
  ce_staging_session : UploadStagingSession;
  ce_cache_expires_at : Z
}.

Definition UploadTaskCache : Type := gmap string UploadTaskCacheEntry.

(** Seconds on the steady clock, counted in nanoseconds. *)
Definition UPLOAD_TASK_CACHE_TTL : Z := 60 * 1000000000.

Definition BuildUploadTaskCacheEntry (now : Z) (task : UploadTaskRow)
    (staging_session : UploadStagingSession) : UploadTaskCacheEntry :=
  mkUploadTaskCacheEntry (u64 (t_user_id task)) (u64 (t_file_size task))
    (u32 (t_chunk_size task)) (u32 (t_total_chunks task)) staging_session
    (now + UPLOAD_TASK_CACHE_TTL).

Definition cache_live (now : Z) (entry : UploadTaskCacheEntry) : bool :=
  (now <? ce_cache_expires_at entry)%Z.

(** The edits: an entry is erased, erased if it has expired, or stored. *)
Inductive CacheEdit :=
  | EraseEntry (upload_id : string)
  | EraseExpired (upload_id : string) (now : Z)
  | StoreEntry (upload_id : string) (entry : UploadTaskCacheEntry).

Definition apply_edit (edit : CacheEdit) (cache : UploadTaskCache) : UploadTaskCache :=
  match edit with
  | EraseEntry upload_id => delete upload_id cache
  | EraseExpired upload_id now =>
      match cache !! upload_id with
      | Some entry => if cache_live now entry then cache else delete upload_id cache
      | None => cache
      end
  | StoreEntry upload_id entry => <[upload_id := entry]> cache
  end.

Definition apply_edits (edits : list CacheEdit) (cache : UploadTaskCache) : UploadTaskCache :=
  fold_left (λ c edit, apply_edit edit c) edits cache.

(** [TryGetUploadTaskCacheEntry]: the entry found, and the edit of an expired one. *)
Definition TryGetUploadTaskCacheEntry (now : Z) (cache : UploadTaskCache) (upload_id : string)
    (user_id : Z) : option UploadTaskCacheEntry * list CacheEdit :=
  match cache !! upload_id with
  | None => (None, [])
  | Some entry =>
      if cache_live now entry && (ce_user_id entry =? user_id)%Z then (Some entry, [])
      else if cache_live now entry then (None, [])
      else (None, [EraseExpired upload_id now])
  end.

Definition CacheUploadTaskEntry (upload_id : string) (entry : UploadTaskCacheEntry)
  : list CacheEdit := [StoreEntry upload_id entry].

Definition InvalidateUploadTaskCache (upload_id : string) : list CacheEdit :=
  [EraseEntry upload_id].

Definition EvictExpiredUploadTaskCacheEntries (now : Z) (cache : UploadTaskCache)
  : UploadTaskCache := filter (λ kv, cache_live now kv.2 = true) cache.

(** ** Requests and responses *)

Record InitUploadRequest := mkInitUploadRequest {
  iu_filename : string;
  iu_file_size : Z;
  iu_file_hash : string;
  iu_parent_id : Z
}.

Record UploadChunkResponse := mkUploadChunkResponse {
  uc_chunk_index : Z;
  uc_uploaded : bool
}.

Record FileItem := mkFileItem {
  fi_id : Z;
  fi_name : string;
  fi_size : Z;
  fi_hash : string;
  fi_mime_type : string;
  fi_parent_id : Z;
  fi_created_at : Z
}.

Definition ToFileItem (file : LifecycleFileItem) : FileItem :=
  mkFileItem (li_id file) (li_name file) (li_size file) (li_hash file) (li_mime_type file)
    (li_parent_id file) (li_created_at file).

(** A value-initialised [FileItem], its date being empty. *)
Definition no_file : FileItem := mkFileItem 0 "" 0 "" "" 0 0.

Record InitUploadResponse := mkInitUploadResponse {
  ir_upload_id : string;
  ir_chunk_size : Z;
  ir_total_chunks : Z;
  ir_uploaded_chunks : list Z;
  ir_instant_upload : bool;
  ir_file : option FileItem
}.

Definition ToInitUploadResponse (outcome : InitUploadOutcome) : InitUploadResponse :=
  mkInitUploadResponse (io_upload_id outcome) (io_chunk_size outcome)
    (io_total_chunks outcome) (io_uploaded_chunks outcome) (io_instant_upload outcome)
    (ToFileItem <$> io_file outcome).

(** The settings of [ConfigMgr] the requests read. *)
Record UploadConfig := mkUploadConfig {
  GetMaxFileSize : Z;
  GetChunkSize : Z;
  GetUploadTaskExpirySeconds : Z;
  GetUploadTaskCreationEnabled : bool;
  GetInstanceId : string;
  GetUploadFinalizeLeaseSeconds : Z
}.

(** ** Queries *)

Definition FindUploadTask (upload_id : string) (user_id : Z)
  : M Database (Result UploadTaskRow) :=
  task ← FindUnexpiredByIdForUser upload_id user_id;
  mret (match (task : option UploadTaskRow) with
        | None => Err (err UploadTaskNotFound)
        | Some task => Ok task
        end).

Definition FindUploadStagingSession (upload_id : string) (user_id : Z)
  : M Database (Result UploadStagingSession) :=
  catch_all
    (session ← FindStagingSessionForUser upload_id user_id;
     mret (match (session : option UploadStagingSession) with
           | None => Err (err UploadTaskNotFound)
           | Some session => Ok session
           end))
    (mret (internal "Failed to load upload staging session")).

(** ** Handlers *)

Definition NoLongerAccepts : ErrorInfo :=
  mkErrorInfo ResourceConflict "Upload task no longer accepts chunks".

Section service.
(** [HashMd5] is the digest function, [config] the settings, [m_upload_staging_storage] the
    staging store (absent when null). *)
Context (HashMd5 : string → string) (config : UploadConfig)
  (m_upload_staging_storage : option UploadStagingStorage).

(** The task of a chunk that is not in the cache, as the entry that is then cached. *)
Definition load_task (loaded_at : Z) (upload_id : string) (user_id : Z)
  : M Database (Result UploadTaskCacheEntry) :=
  let* task := FindUploadTask upload_id user_id in
  if negb (t_status task =? UploadToStorageValue InProgress)%Z then mret (Err NoLongerAccepts)
  else
  let* staging_session := FindUploadStagingSession upload_id user_id in
  mret (Ok (BuildUploadTaskCacheEntry loaded_at task staging_session)).

(** From the checks of a chunk against its task to the record of it. *)
Definition store_chunk (task : UploadTaskCacheEntry) (upload_id : string) (chunk_index : Z)
    (chunk_hash chunk_data : string) (user_id : Z)
  : M Database (list CacheEdit * Result UploadChunkResponse) :=
  match ValidateChunkAcceptance chunk_index (strlen chunk_data) (ce_file_size task)
          (ce_chunk_size task) (ce_total_chunks task) with
  | inr acceptance_error => mret ([], Err (ca_error acceptance_error))
  | inl _ =>
      let actual_hash := HashMd5 chunk_data in
      if negb (actual_hash =? chunk_hash) then
        mret ([], Err (mkErrorInfo ChunkVerifyFailed "Chunk hash mismatch"))
      else
      match m_upload_staging_storage with
      | None => mret ([], internal "Upload staging storage is not configured")
      | Some storage =>
          write_result ← call_storage
            (CallWriteChunk (ce_staging_session task) chunk_index actual_hash)
            (λ h, WriteChunk storage h (ce_staging_session task) chunk_index actual_hash
                    chunk_data);
          match (write_result : Result UploadStagingChunk) with
          | Err e => mret ([], Err e)
          | Ok written =>
              catch_db
                (record_disposition ← RecordChunkIfInProgress upload_id user_id chunk_index
                   (sc_size_bytes written) (sc_md5_hash written) (sc_object_key written)
                   (sc_etag written);
                 mret (match record_disposition with
                       | TaskRejected =>
                           (InvalidateUploadTaskCache upload_id, Err NoLongerAccepts)
                       | MetadataConflict =>
                           ([], Err (mkErrorInfo ResourceConflict
                                  "Chunk index already contains different content"))
                       | Accepted => ([], Ok (mkUploadChunkResponse chunk_index true))
                       end))
                (mret ([], internal "Failed to record chunk upload"))
          end
      end
  end.

(** [UploadChunk]: the clock is read when the cache is consulted and when a task has been
    loaded. *)
Definition UploadChunk (cache : UploadTaskCache) (steady_now loaded_at : Z) (upload_id : string)
    (chunk_index : Z) (chunk_hash chunk_data : string) (user_id : Z)
  : M Database (list CacheEdit * Result UploadChunkResponse) :=
  let '(cached_task, found) := TryGetUploadTaskCacheEntry steady_now cache upload_id user_id in
  match cached_task with
  | Some task =>
      '(edits, r) ← store_chunk task upload_id chunk_index chunk_hash chunk_data user_id;
      mret ((found ++ edits)%list, r)
  | None =>
      loaded ← load_task loaded_at upload_id user_id;
      match (loaded : Result UploadTaskCacheEntry) with
      | Err e => mret (found, Err e)
      | Ok task =>
          '(edits, r) ← store_chunk task upload_id chunk_index chunk_hash chunk_data user_id;
          mret ((found ++ CacheUploadTaskEntry upload_id task ++ edits)%list, r)
      end
  end.

(** The other requests call the lifecycle and drop what the cache holds about the tasks
    they changed. *)
Context (HashSha256 : string → string) (getUuid : string) (Date_now : Z)
  (GetUploadStagingBackend : UploadStagingBackend) (s3_staging_prefix : string)
  (m_blob_store : option IBlobStore).

Definition InitUploadCommandOf (request : InitUploadRequest) (user_id : Z) : InitUploadCommand :=
  mkInitUploadCommand (iu_filename request) (iu_file_size request) (iu_file_hash request)
    (iu_parent_id request) user_id (GetMaxFileSize config) (GetChunkSize config)
    (GetUploadTaskExpirySeconds config) (GetUploadTaskCreationEnabled config).

Definition invalidated (invalidation : UploadCacheInvalidation) : list CacheEdit :=
  concat (InvalidateUploadTaskCache <$> ci_upload_task_ids invalidation).

Definition InitUpload (request : InitUploadRequest) (user_id : Z)
  : M Database (list CacheEdit * Result InitUploadResponse) :=
  lifecycle_result ← InitializeUpload getUuid Date_now GetUploadStagingBackend s3_staging_prefix
                       m_upload_staging_storage (InitUploadCommandOf request user_id);
  mret (match (lifecycle_result : Result InitUploadOutcome) with
        | Err e => ([], Err e)
        | Ok outcome => (invalidated (io_invalidation outcome), Ok (ToInitUploadResponse outcome))
        end).

Definition CompleteUpload (upload_id : string) (user_id : Z)
  : M Database (list CacheEdit * Result FileItem) :=
  lifecycle_result ← Lifecycle.CompleteUpload HashSha256 Date_now m_upload_staging_storage
                       m_blob_store
                       (mkCompleteUploadCommand upload_id user_id (GetInstanceId config)
                          (GetUploadFinalizeLeaseSeconds config));
  mret (match (lifecycle_result : Result CompleteUploadOutcome) with
        | Err e => ([], Err e)
        | Ok outcome =>
            (invalidated (co_invalidation outcome),
             Ok (from_option ToFileItem no_file (co_file outcome)))
        end).

Definition CancelUpload (upload_id : string) (user_id : Z)
  : M Database (list CacheEdit * Result Z) :=
  cancel_result ← CancelInProgressUpload upload_id user_id;
  mret (match (cancel_result : Result Z) with
        | Err e => ([], Err e)
        | Ok state_version => (InvalidateUploadTaskCache upload_id, Ok state_version)
        end).
End service.
