(* ===== verification/UploadPlans.v ===== *)
(** * The plan of an upload is kept

    A task fixes, when it is created, how its file is cut into chunks.  This file shows
    that every request of the upload service keeps the plans and records only chunks that
    fit them, so that the chunks of a claimed task tile its file; and that the cache of
    [UploadService.v] may be trusted for what it is used for. *)

From S2P Require Import Prelude Errors Storage Db Rely UploadState Json Schema Quota UploadTasks.
From S2P Require Import StorageJobs Content JobContract Files Folders Reconciliation Lifecycle.
From S2P Require Import UploadOutcomes UploadService.

(** ** Plans *)

(** The task cuts a file of at least one byte into chunks of one size, as announced. *)
Definition planned (t : UploadTaskRow) : Prop :=
  0 <= t_user_id t < 2 ^ 63 ∧ 0 < t_file_size t < 2 ^ 63 ∧ 0 < t_chunk_size t < 2 ^ 31 ∧
  t_total_chunks t = total_chunks_u64 (t_file_size t) (t_chunk_size t) ∧
  t_total_chunks t < 2 ^ 31.

Definition task_chunk_length (t : UploadTaskRow) (i : Z) : Z :=
  chunk_length (t_file_size t) (t_chunk_size t) i.

(** A recorded chunk is one of the plan, of its size. *)
Definition fits (t : UploadTaskRow) (i : Z) (k : ChunkRow) : Prop :=
  0 <= i < t_total_chunks t ∧ k_size_bytes k = Some (task_chunk_length t i).

Definition plans_kept (d : Database) : Prop :=
  map_Forall (λ _ t, planned t) (upload_tasks d) ∧
  ∀ id i k, upload_task_chunks d !! (id, i) = Some k →
    ∃ t, upload_tasks d !! id = Some t ∧ fits t i k.

(** Tasks stay, and stay what they are. *)
Definition tasks_stay (d d' : Database) : Prop :=
  ∀ id t, upload_tasks d !! id = Some t →
    ∃ t', upload_tasks d' !! id = Some t' ∧ same_identity t t'.

#[export] Instance tasks_stay_preorder : PreOrder tasks_stay.
Proof.
  split.
  - intros d id t Ht. exists t. by repeat split.
  - intros d1 d2 d3 H1 H2 id t Ht. destruct (H1 _ _ Ht) as (t1 & Ht1 & E1).
    destruct (H2 _ _ Ht1) as (t2 & Ht2 & E2). exists t2. split; [done|].
    unfold same_identity in *. intuition congruence.
Qed.

Lemma planned_identity t t' : same_identity t t' → planned t → planned t'.
Proof. unfold same_identity, planned. intros (-> & _ & _ & -> & _ & -> & -> & _). done. Qed.

Lemma fits_identity t t' i k : same_identity t t' → fits t i k → fits t' i k.
Proof.
  unfold same_identity, fits, task_chunk_length. intros (_ & _ & _ & -> & _ & -> & -> & _). done.
Qed.

(** A step that changes neither tasks nor chunks. *)
Lemma plans_frame d d' : plans_kept d → upload_tasks d' = upload_tasks d →
  upload_task_chunks d' = upload_task_chunks d → plans_kept d' ∧ tasks_stay d d'.
Proof.
  intros [Hp Hc] Et Ec. split.
  - split; [by rewrite Et|]. intros id i k. rewrite Ec, Et. apply Hc.
  - intros id t Ht. exists t. rewrite Et. by repeat split.
Qed.

(** A step that takes tasks along and leaves chunks, or drops some. *)
Lemma plans_along d d' : plans_kept d → tasks_stay d d' →
  (∀ id t', upload_tasks d' !! id = Some t' →
     (∃ t, upload_tasks d !! id = Some t) ∨ planned t') →
  upload_task_chunks d' ⊆ upload_task_chunks d → plans_kept d' ∧ tasks_stay d d'.
Proof.
  intros [Hp Hc] Hs Hnew Hsub. split; [|done]. split.
  - intros id t' Ht'. destruct (Hnew _ _ Ht') as [[t Ht]|]; [|done].
    destruct (Hs _ _ Ht) as (t2 & Ht2 & E). simplify_eq. by eapply planned_identity, Hp.
  - intros id i k Hk. eapply lookup_weaken in Hk; [|done]. destruct (Hc _ _ _ Hk) as (t & Ht & Hf).
    destruct (Hs _ _ Ht) as (t' & Ht' & E). exists t'. split; [done|]. by eapply fits_identity.
Qed.

(** A statement that updates one task, soundly. *)
Lemma plans_update id guard set d r d' :
  update_task id guard set d = Some (r, d') → plans_kept d → tasks_stay d d' →
  plans_kept d' ∧ tasks_stay d d'.
Proof.
  intros H Hp Hs. apply update_task_Some in H as [[-> ->]|(t & t' & Ht & _ & _ & _ & _ & ->)];
    [done|]. apply plans_along; [done..| |done].
  intros i t2. rewrite put_task_lookup. case_decide; subst; intros; [left|left]; by eexists.
Qed.

(** The statements of the repository that neither create a task nor record a chunk. *)
Definition keeps_plans (st : task_statement) : bool :=
  match st with SCreate _ _ _ | SRecordChunk _ _ _ _ => false | _ => true end.

Lemma plans_statement st d d' : keeps_plans st = true → execute st d = Some d' →
  plans_kept d → plans_kept d' ∧ tasks_stay d d'.
Proof.
  intros Hst He Hp. assert (tasks_stay d d') as Hs.
  { intros id t Ht. destruct (task_step_evolves d d' id t) as (t' & ? & ? & _); [by econstructor|done|].
    by exists t'. }
  destruct st; try done; unfold execute in He; apply fmap_Some in He as ([r d1] & He & ->);
    try (by eapply plans_update).
  unfold delete_chunks_statement in He. simplify_eq/=. apply plans_along; [done..| |].
  - intros i t Ht. left. by exists t.
  - apply map_filter_subseteq.
Qed.

Lemma plans_create task session n d t d' : create_statement task session n d = Some (t, d') →
  planned t → plans_kept d → plans_kept d' ∧ tasks_stay d d'.
Proof.
  unfold create_statement. intros H Ht Hp.
  destruct (upload_tasks d !! nt_id task) eqn:Hid; [done|].
  destruct (users d !! _); [|done]. cbv zeta in H. destruct (check_upload_task _ && _); [|done].
  injection H as Et <-. rewrite Et. apply plans_along; [done|..|done].
  - intros id t' Ht'. exists t'. split; [|by repeat split]. cbn.
    rewrite lookup_insert_ne; [done|congruence].
  - intros id t' Ht'. cbn in Ht'. apply lookup_insert_Some in Ht' as [[_ <-]|[_ ?]]; [by right|].
    left. by exists t'.
Qed.

Lemma plans_record id u i x t d r d' : record_chunk_statement id u i x d = Some (r, d') →
  upload_tasks d !! id = Some t → fits t i x → plans_kept d → plans_kept d' ∧ tasks_stay d d'.
Proof.
  intros H Ht Hfit Hp. destruct r as [acc comp].
  assert ((acc, comp) = (true, true) ∨ d' = d) as [[= -> ->]| ->]; [|
    |split; [done|reflexivity]].
  { unfold record_chunk_statement in H. repeat case_match; simplify_eq; by (left + right). }
  apply record_chunk_accepted in H as (k & -> & _ & _ & _ & _ & Hsize & _).
  destruct Hfit as [Hi Hk]. destruct Hp as [Hp Hc]. split.
  - split; [done|]. intros id' i' k'. cbn. intros [[[= <- <-] <-]|[_ ?]]%lookup_insert_Some.
    + exists t. split; [done|]. split; [done|]. rewrite Hsize; [done|]. by rewrite Hk.
    + by apply Hc.
  - intros id' t' Ht'. exists t'. by repeat split.
Qed.

(** ** The requests *)

Notation Plans := (Moves tasks_stay plans_kept).

Lemma plans_exec {A} (q : Database → option (A * Database)) :
  (∀ d a d', q d = Some (a, d') → upload_tasks d' = upload_tasks d ∧
     upload_task_chunks d' = upload_task_chunks d) → Plans (exec q).
Proof. intros Hq. apply moves_exec; [apply _|]. intros d a d' Hp [? ?]%Hq. by apply plans_frame. Qed.

Lemma plans_exec_task st {A} (q : Database → option (A * Database)) :
  keeps_plans st = true → (∀ d, execute st d = snd <$> q d) → Plans (exec q).
Proof.
  intros Hst Hq. apply moves_exec; [apply _|]. intros d a d' Hp E.
  apply (plans_statement st); [done| |done]. by rewrite Hq, E.
Qed.

Ltac frame_statement :=
  apply plans_exec; let Hq := fresh in intros ? ? ? Hq; cbv zeta in Hq;
  repeat (case_match || (apply bind_Some in Hq as (? & _ & Hq))); by simplify_eq/=.

#[export] Instance plans_user user guard set : Plans (exec (update_user user guard set)).
Proof. unfold update_user. frame_statement. Qed.

#[export] Instance plans_job row oc : Plans (exec (λ d, insert_job (row d) (oc d) d)).
Proof. unfold insert_job. frame_statement. Qed.

#[export] Instance plans_rearm job : Plans (EnqueueOrRearmSucceeded job).
Proof.
  unfold EnqueueOrRearmSucceeded, ValidateNewJob, ValidateBoundedValue, rearm_statement. solve_moves.
Qed.

#[export] Instance plans_enqueue job : Plans (Enqueue job).
Proof. unfold Enqueue, ValidateNewJob, ValidateBoundedValue, enqueue_statement. solve_moves. Qed.

#[export] Instance plans_finding f : Plans (RecordFinding f).
Proof.
  unfold RecordFinding. case_match; [apply _|]. unfold finding_statement. frame_statement.
Qed.

#[export] Instance plans_refs f ids : Plans (exec (update_ref_counts f ids)).
Proof.
  apply plans_exec. induction ids as [|id ids IH]; intros d a d' Hq; simpl in Hq; [by simplify_eq|].
  destruct (file_contents d !! id); [|by eapply IH].
  apply bind_Some in Hq as (n & _ & Hq). apply bind_Some in Hq as ([m d1] & Hq & [= <- <-]).
  apply IH in Hq. by destruct Hq as [-> ->].
Qed.

#[export] Instance plans_gate id : Plans (CheckReferenceGate id).
Proof. unfold CheckReferenceGate, CheckBlobGcReferenceGate. solve_moves. Qed.

#[export] Instance plans_acquire content e : Plans (AcquireReference content e).
Proof.
  unfold AcquireReference. solve_moves. unfold acquire_statement. frame_statement.
Qed.

#[export] Instance plans_increment id n : Plans (IncrementRefCount id n).
Proof. unfold IncrementRefCount. solve_moves. Qed.

#[export] Instance plans_location f u : Plans (ResolveOwnedFolderLocation f u).
Proof. unfold ResolveOwnedFolderLocation. solve_moves. Qed.

#[export] Instance plans_insert_file u c f n x s m p : Plans (InsertFileRecord u c f n x s m p).
Proof.
  unfold InsertFileRecord. solve_moves. unfold insert_file_statement. frame_statement.
Qed.

#[export] Instance plans_item_count f u n t : Plans (ApplyItemCountDelta f u n t).
Proof. unfold ApplyItemCountDelta, update_folder. frame_statement. Qed.

(** The account. *)
#[export] Instance plans_reserve u n : Plans (ReserveStorage u n).
Proof. unfold ReserveStorage, guarded_update. solve_moves. Qed.
#[export] Instance plans_release u n : Plans (ReleaseReservedStorageChecked u n).
Proof. unfold ReleaseReservedStorageChecked, guarded_update. solve_moves. Qed.
#[export] Instance plans_commit u n : Plans (CommitReservedToUsed u n).
Proof. unfold CommitReservedToUsed, guarded_update. solve_moves. Qed.
#[export] Instance plans_consume u n : Plans (ConsumeUsedStorage u n).
Proof. unfold ConsumeUsedStorage, guarded_update. solve_moves. Qed.

(** The task. *)
#[export] Instance plans_validate o n : Plans (ValidateLeaseArguments o n).
Proof. unfold ValidateLeaseArguments. solve_moves. Qed.
#[export] Instance plans_claim id u o n : Plans (ClaimFinalizeLease id u o n).
Proof.
  unfold ClaimFinalizeLease. solve_moves. by apply (plans_exec_task (SClaim id u o n)).
Qed.
#[export] Instance plans_renew command n : Plans (RenewLeaseFor command n).
Proof.
  unfold RenewLeaseFor, RenewFinalizeLease. solve_moves.
  by apply (plans_exec_task (SRenew (cc_upload_id command) (cc_user_id command)
    (cc_lease_owner command) n (cc_lease_duration_seconds command))).
Qed.
#[export] Instance plans_completed id u o v f : Plans (MarkCompletedIfLeaseOwned id u o v f).
Proof.
  unfold MarkCompletedIfLeaseOwned. solve_moves. by apply (plans_exec_task (SComplete id u o v f)).
Qed.
#[export] Instance plans_record_error command n k :
  Plans (RecordFinalizeErrorBestEffort command n k).
Proof.
  unfold RecordFinalizeErrorBestEffort, RecordFinalizeErrorIfLeaseOwned. solve_moves.
  by apply (plans_exec_task (SRecordError (cc_upload_id command) (cc_user_id command)
    (cc_lease_owner command) n (ToInt k))).
Qed.
#[export] Instance plans_fail {A} command n e : Plans (fail_completion (A:=A) command n e).
Proof. unfold fail_completion. solve_moves. Qed.
#[export] Instance plans_transition id r : Plans (transition_record id r).
Proof. unfold transition_record, ToUploadTaskCleanupRecord. solve_moves. Qed.
#[export] Instance plans_cancelled id u r : Plans (MarkCancelledIfInProgressReturning id u r).
Proof.
  unfold MarkCancelledIfInProgressReturning. solve_moves.
  by apply (plans_exec_task (SCancel id u r)).
Qed.
#[export] Instance plans_expired id r : Plans (MarkExpiredIfInProgressReturning id r).
Proof.
  unfold MarkExpiredIfInProgressReturning. solve_moves. by apply (plans_exec_task (SExpire id r)).
Qed.
#[export] Instance plans_delete_chunks id : Plans (DeleteChunks id).
Proof. by apply (plans_exec_task (SDeleteChunks id)). Qed.
#[export] Instance plans_release_upload id u r : Plans (release_upload id u r).
Proof. unfold release_upload. solve_moves. Qed.

(** ** The handlers *)

Notation Keeps := (Respects tasks_stay plans_kept).
#[local] Existing Instance moves_respects.

Lemma keeps_cancel id u : Keeps (CancelInProgressUpload id u).
Proof.
  unfold CancelInProgressUpload, FindCancellationStateByIdForUser. apply respects_bind_result;
    [apply _| |solve_respects]. apply moves_Run; [apply _|]. unfold cancel_body. solve_moves.
Qed.

#[export] Instance keeps_expire id : Keeps (ExpireInProgressUpload id).
Proof.
  unfold ExpireInProgressUpload. apply respects_bind_result; [apply _| |solve_respects].
  apply moves_Run; [apply _|]. unfold expire_body. solve_moves.
Qed.

Section handlers.
Context (sha : string → string) (uuid : string) (date : Z) (backend : UploadStagingBackend)
  (prefix : string) (staging : option UploadStagingStorage) (blobs : option IBlobStore).

Definition task_planned (task : NewUploadTask) : Prop :=
  0 <= nt_user_id task < 2 ^ 63 ∧ 0 < nt_file_size task < 2 ^ 63 ∧
  0 < nt_chunk_size task < 2 ^ 31 ∧
  nt_total_chunks task = total_chunks_u64 (nt_file_size task) (nt_chunk_size task) ∧
  nt_total_chunks task < 2 ^ 31.

Lemma plans_Create task session n : task_planned task → Plans (Create task session n).
Proof.
  intros Ht. unfold Create. do 2 (case_match; [apply _|]). apply moves_exec; [apply _|].
  intros d t d' Hp Hq. eapply plans_create; [exact Hq| |done]. unfold create_statement in Hq.
  destruct (upload_tasks d !! _); [done|]. destruct (users d !! _); [|done]. cbv zeta in Hq.
  destruct (check_upload_task _ && _); [|done]. by injection Hq as <- _.
Qed.

(** What the configuration, the token and the checks of a request guarantee. *)
Definition command_ok (command : InitUploadCommand) : Prop :=
  0 <= ic_user_id command < 2 ^ 63 ∧ 0 < ic_file_size command ∧
  ic_max_file_size command < 2 ^ 63 ∧ 0 <= ic_chunk_size command < 2 ^ 31 ∧
  ic_max_file_size command <= (2 ^ 31 - 1) * ic_chunk_size command.

Lemma new_task_planned command id : command_ok command →
  ic_file_size command <= ic_max_file_size command → ic_chunk_size command ≠ 0 →
  let total := total_chunks_u64 (ic_file_size command) (ic_chunk_size command) in
  task_planned (new_task command id total).
Proof.
  intros (Hu & Hf & Hm & Hc & Hmax) Hle Hne total.
  assert (total = (ic_file_size command - 1) / ic_chunk_size command + 1) as E
    by (apply total_chunks_ceil; lia).
  assert (0 <= (ic_file_size command - 1) / ic_chunk_size command < 2 ^ 31 - 1).
  { split; [apply Z.div_pos; lia|]. apply Z.div_lt_upper_bound; lia. }
  unfold task_planned, new_task. cbn.
  rewrite (i32_small (ic_chunk_size command)), (i32_small total) by lia.
  fold total. split_and!; lia.
Qed.

Lemma keeps_resume id task pending : Keeps (resume_outcome id task pending).
Proof. unfold resume_outcome, ListUploadedChunkIndices. solve_respects. Qed.
#[local] Existing Instance keeps_resume.

Lemma keeps_start_new command pending : command_ok command →
  ic_file_size command <= ic_max_file_size command →
  Keeps (start_new_upload uuid backend prefix staging command pending).
Proof.
  intros Hok Hle. unfold start_new_upload. case_match; [apply _|].
  destruct (Z.eqb_spec (ic_chunk_size command) 0); [apply _|]. cbv zeta.
  case_match; [apply _|]. apply respects_bind_result; [apply _| |solve_respects].
  apply moves_Run; [apply _|]. unfold create_body, AcquireUploadInitLock, FindActiveByUserAndHash.
  pose proof (plans_Create _ (new_staging_session backend prefix uuid)
    (u32 (ic_expiry_seconds command)) (new_task_planned command uuid Hok Hle ltac:(done))).
  solve_moves.
Qed.

Lemma keeps_initialize command : command_ok command →
  Keeps (InitializeUpload uuid date backend prefix staging command).
Proof.
  intros Hok. unfold InitializeUpload, FindActiveByUserAndHash, FindByMd5.
  destruct (Z.ltb_spec (ic_max_file_size command) (ic_file_size command)); [apply _|].
  assert (∀ pending, Keeps (start_new_upload uuid backend prefix staging command pending))
    by (intros; by apply keeps_start_new).
  assert (∀ content, Keeps (instant_upload date command content)).
  { intros content. unfold instant_upload. apply respects_bind_result; [apply _| |solve_respects].
    apply moves_Run; [apply _|]. unfold instant_body, IsFilenameExists. solve_moves. }
  solve_respects.
Qed.

Lemma keeps_commit command task session n content e :
  Keeps (commit_upload date command task session n content e).
Proof.
  unfold commit_upload. apply respects_bind_result; [apply _..|]. intros v.
  apply respects_bind; [apply _| |intros []; apply _]. apply moves_Run; [apply _|].
  unfold finalize_body. solve_moves.
Qed.
#[local] Existing Instance keeps_commit.

Lemma keeps_place command task session storage n a c :
  Keeps (place_content date blobs command task session storage n a c).
Proof. unfold place_content, discard. cbv zeta. solve_respects. Qed.
#[local] Existing Instance keeps_place.

Lemma keeps_verify command task session storage n a :
  Keeps (verify_assembly date blobs command task session storage n a).
Proof. unfold verify_assembly, finalize_lookup, discard, FindByMd5. solve_respects. Qed.
#[local] Existing Instance keeps_verify.

Lemma keeps_complete command : Keeps (Lifecycle.CompleteUpload sha date staging blobs command).
Proof.
  unfold Lifecycle.CompleteUpload, replay_completed, FindCompletedFile, finalize_upload, assemble,
    TriggerStagingReconciliationBestEffort, ListChunksForAssembly, FindByIdForUser,
    FindStagingSessionForUser. solve_respects.
Qed.
End handlers.

(** ** The cache *)

(** What an entry of the cache says about the database. *)
Definition known (id : string) (entry : UploadTaskCacheEntry) (d : Database) : Prop :=
  ∃ t backend, upload_tasks d !! id = Some t ∧ ce_user_id entry = t_user_id t ∧
    ce_file_size entry = t_file_size t ∧ ce_chunk_size entry = t_chunk_size t ∧
    ce_total_chunks entry = t_total_chunks t ∧
    ParseUploadStagingBackend (t_staging_backend t) = Some backend ∧
    ce_staging_session entry = mkUploadStagingSession id backend (staging_prefix_of t).

Definition coherent (cache : UploadTaskCache) (d : Database) : Prop :=
  map_Forall (λ id entry, known id entry d) cache.

Lemma entry_known_lasting id entry : lasting tasks_stay (known id entry).
Proof.
  intros d d' (t & b & Ht & E) Hs. destruct (Hs _ _ Ht) as (t' & Ht' & Hid). exists t', b.
  split; [done|]. unfold same_identity in Hid. intuition congruence.
Qed.

Lemma coherent_lasting cache : lasting tasks_stay (coherent cache).
Proof. intros d d' Hc Hs id entry He. by eapply entry_known_lasting; [apply Hc|]. Qed.

(** Edits that only store what is known. *)
Definition known_edits (edits : list CacheEdit) (d : Database) : Prop :=
  Forall (λ edit, match edit with StoreEntry id entry => known id entry d | _ => True end) edits.

Lemma known_edits_coherent edits cache d : known_edits edits d → coherent cache d →
  coherent (apply_edits edits cache) d.
Proof.
  intros He. revert cache. induction He as [|edit edits Hedit _ IH]; intros cache Hc; [done|].
  apply IH. destruct edit as [id|id n|id entry]; simpl.
  - by apply map_Forall_delete.
  - destruct (cache !! id) as [entry|]; [|done]. destruct (cache_live n entry); [done|].
    by apply map_Forall_delete.
  - by apply map_Forall_insert_2.
Qed.

Lemma try_get_coherent now cache id u entry edits d : coherent cache d →
  TryGetUploadTaskCacheEntry now cache id u = (entry, edits) →
  known_edits edits d ∧ (∀ e, entry = Some e → known id e d ∧ ce_user_id e = u).
Proof.
  intros Hc. unfold TryGetUploadTaskCacheEntry. destruct (cache !! id) as [e|] eqn:He.
  - destruct (cache_live now e), (Z.eqb_spec (ce_user_id e) u); intros [= <- <-];
      (split; [by repeat constructor|]); [|done..]. intros e' [= <-]. split; [by apply Hc|done].
  - intros [= <- <-]. split; [constructor|done].
Qed.

(** ** Loading a task *)

Notation answers := (yields tasks_stay plans_kept).

Definition task_of (id : string) (u : Z) (t : UploadTaskRow) (d : Database) : Prop :=
  ∃ t', upload_tasks d !! id = Some t' ∧ same_identity t t' ∧ t_user_id t = u ∧ planned t.

Lemma task_of_lasting id u t : lasting tasks_stay (task_of id u t).
Proof.
  intros d d' (t' & Ht' & E & ? & ?) Hs. destruct (Hs _ _ Ht') as (t2 & Ht2 & E2).
  exists t2. split_and!; [done| |done..]. unfold same_identity in *. intuition congruence.
Qed.

Definition session_of (id : string) (s : UploadStagingSession) (d : Database) : Prop :=
  ∃ t backend, upload_tasks d !! id = Some t ∧
    ParseUploadStagingBackend (t_staging_backend t) = Some backend ∧
    s = mkUploadStagingSession id backend (staging_prefix_of t).

Lemma session_of_lasting id s : lasting tasks_stay (session_of id s).
Proof.
  intros d d' (t & b & Ht & E) Hs. destruct (Hs _ _ Ht) as (t' & Ht' & Hid). exists t', b.
  split; [done|]. unfold same_identity in Hid. intuition congruence.
Qed.

(** What holds of the value an answer carries. *)
Definition of_ok {A} (Q : A → Database → Prop) (r : Result A) (d : Database) : Prop :=
  match r with Ok a => Q a d | Err _ => True end.

Definition of_some {A} (Q : A → Database → Prop) (r : option A) (d : Database) : Prop :=
  match r with Some a => Q a d | None => True end.

Lemma of_some_lasting {A} (Q : A → Database → Prop) r :
  (∀ a, lasting tasks_stay (Q a)) → lasting tasks_stay (of_some Q r).
Proof. intros HQ d d'. destruct r; [apply HQ|done]. Qed.

Lemma of_ok_lasting {A} (Q : A → Database → Prop) r :
  (∀ a, lasting tasks_stay (Q a)) → lasting tasks_stay (of_ok Q r).
Proof. intros HQ d d'. destruct r; [apply HQ|done]. Qed.

Lemma find_task_answers id u : answers (FindUploadTask id u) (of_ok (task_of id u)).
Proof.
  unfold FindUploadTask, FindUnexpiredByIdForUser.
  eapply yields_bind with (Q := of_some (task_of id u)); [apply _|..|intros; apply of_some_lasting,
    task_of_lasting|].
  - apply yields_query; [apply _|]. intros d [Hp _].
    destruct (upload_tasks d !! id) as [t|] eqn:Ht; [|done]. simpl.
    destruct (_ && _) eqn:E; [|done]. case_bools. exists t.
    split_and!; [done|by repeat split|done|by eapply Hp].
  - intros [t|]; apply yields_ret; [by intros d [_ ?]|done].
Qed.

Lemma find_session_answers I id u :
  yields tasks_stay I (FindUploadStagingSession id u) (of_ok (session_of id)).
Proof.
  unfold FindUploadStagingSession, FindStagingSessionForUser.
  apply yields_catch_all_ret; [solve_respects| |done].
  eapply yields_bind with (Q := of_some (session_of id)); [solve_respects| |
    intros; apply of_some_lasting, session_of_lasting|].
  - eapply yields_bind with (Q := of_some (λ t d, ∃ t', upload_tasks d !! id = Some t' ∧
      same_identity t t')); [apply _|..].
    + apply yields_query; [apply _|]. intros d _.
      destruct (upload_tasks d !! id) as [t|] eqn:Ht; [|done]. simpl. case_match; [|done].
      exists t. split; [done|by repeat split].
    + intros r. apply of_some_lasting. intros t d d' (t' & Ht' & E) Hs.
      destruct (Hs _ _ Ht') as (t2 & Ht2 & E2). exists t2. split; [done|].
      unfold same_identity in *. intuition congruence.
    + intros [t|]; [|by apply yields_ret].
      destruct (ParseUploadStagingBackend _) as [b|] eqn:Hb; [|apply yields_raise].
      apply yields_ret. intros d [_ (t' & Ht' & E)]. exists t', b.
      unfold same_identity in E. split; [done|]. intuition congruence.
  - intros [s|]; apply yields_ret; [by intros d [_ ?]|done].
Qed.

Lemma planned_range t : planned t → 0 <= t_total_chunks t.
Proof.
  intros (_ & Hf & Hc & -> & _). rewrite total_chunks_ceil by lia.
  pose proof (Z.div_pos (t_file_size t - 1) (t_chunk_size t)). lia.
Qed.

(** The loaded task is known, and its user's. *)
Lemma load_task_answers n id u : answers (load_task n id u)
  (of_ok (λ entry d, known id entry d ∧ ce_user_id entry = u)).
Proof.
  unfold load_task, bind_result.
  eapply yields_bind with (Q := of_ok (task_of id u)); [unfold FindUploadTask,
    FindUnexpiredByIdForUser; solve_respects|apply find_task_answers|
    intros; apply of_ok_lasting, task_of_lasting|].
  intros [t|er]; [|by apply yields_ret]. case_match; [by apply yields_ret|].
  eapply yields_bind with (Q := of_ok (session_of id)); [unfold FindUploadStagingSession,
    FindStagingSessionForUser; solve_respects|apply find_session_answers|
    intros; apply of_ok_lasting, session_of_lasting|].
  intros [s|]; apply yields_ret; [|done].
  intros d [[_ (t' & Ht' & E & <- & Hp)] (t2 & b & Ht2 & Hb & ->)].
  rewrite Ht' in Ht2. injection Ht2 as <-. simpl.
  pose proof (planned_range _ Hp). destruct Hp as (? & ? & ? & _ & ?).
  unfold BuildUploadTaskCacheEntry, known. simpl. rewrite !u64_small, !u32_small by lia.
  split; [|done]. exists t', b. unfold same_identity in E. intuition congruence.
Qed.

(** A chunk that passes the checks against what is known of its task fits the plan. *)
Lemma accepted_fits id entry t d i data x k : known id entry d → plans_kept d →
  upload_tasks d !! id = Some t → 0 <= i →
  ValidateChunkAcceptance i (strlen data) (ce_file_size entry) (ce_chunk_size entry)
    (ce_total_chunks entry) = inl x →
  k_size_bytes k = Some (i64 (strlen data)) → i32 i = i ∧ fits t i k.
Proof.
  intros (t' & b & Ht & _ & Ef & Ec & Et & _) [Hp _] Ht' Hi Hv Hk. rewrite Ht in Ht'.
  injection Ht' as <-. rewrite Ef, Ec, Et in Hv. specialize (Hp _ _ Ht).
  destruct Hp as (_ & Hf & Hc & Hn & Hlt). rewrite Hn in Hv, Hlt.
  destruct (chunks_tile_the_file (t_file_size t') (t_chunk_size t') Hf ltac:(lia))
    as (Haccept & Hlen & _). cbv zeta in *.
  apply (ex_intro (λ x, _ = inl x)), Haccept in Hv as [Hin Hs]; [|done].
  specialize (Hlen i ltac:(lia)). split; [rewrite i32_small; lia|]. split; [lia|].
  rewrite Hk, Hs. unfold task_chunk_length. f_equal. apply i64_small. lia.
Qed.

Section chunks.
Context (HashMd5 : string → string) (storage : UploadStagingStorage).

(** Documented of [WriteChunk]: it describes the object written. *)
Definition honest : Prop := ∀ h session i md5 data chunk,
  WriteChunk storage h session i md5 data = Ok chunk →
  sc_size_bytes chunk = strlen data ∧ sc_md5_hash chunk = md5.

Lemma keeps_store_chunk entry id i h data u : honest → 0 <= i < 2 ^ 32 →
  Respects tasks_stay (λ d, plans_kept d ∧ known id entry d)
    (store_chunk HashMd5 (Some storage) entry id i h data u).
Proof.
  intros Hhonest Hi. unfold store_chunk. destruct (ValidateChunkAcceptance _ _ _ _ _) as [x|] eqn:Hv;
    [|apply _]. cbv zeta. case_match; [apply _|].
  apply (respects_bind_post _ _ (λ r _, ∀ c, r = Ok c → sc_size_bytes c = strlen data)).
  - apply _.
  - intros e r e' _ _ _ [= <- _] c Hw. by eapply Hhonest.
  - by intros r d d' ?.
  - intros [written|er]; [|apply _]. unfold RecordChunkIfInProgress.
    apply respects_catch_db; [apply _| |apply _].
    apply respects_bind; [apply _| |intros; apply _]. apply respects_bind; [apply _| |intros; apply _].
    apply respects_exec; [apply _|]. intros d r d' [[Hp Hk] Hw] Hq.
    specialize (Hw _ eq_refl). pose proof Hk as (t & b & Ht & _).
    destruct (accepted_fits id entry t d i data x (mkChunkRow (Some (i64 (strlen data)))
      (Some (sc_md5_hash written)) (nullif_empty (sc_object_key written))
      (nullif_empty (sc_etag written)) (now d)) Hk Hp Ht ltac:(lia) Hv eq_refl) as [Ei Hfit].
    rewrite Hw, Ei in Hq. destruct (plans_record _ _ _ _ _ _ _ _ Hq Ht Hfit Hp) as [Hp' Hs].
    split; [|done]. split; [split; [done|by eapply entry_known_lasting]|by intros c [= <-]].
Qed.

(** Storing a chunk stores nothing in the cache. *)
Definition only_erases (edits : list CacheEdit) : Prop :=
  Forall (λ edit, match edit with StoreEntry _ _ => False | _ => True end) edits.

Lemma only_erases_known edits d : only_erases edits → known_edits edits d.
Proof. intros H. eapply Forall_impl; [exact H|]. by intros []. Qed.

Lemma store_chunk_edits staging entry id i h data u e edits r e' :
  store_chunk HashMd5 staging entry id i h data u e = (Ret (edits, r), e') → only_erases edits.
Proof.
  unfold store_chunk. destruct (ValidateChunkAcceptance _ _ _ _ _); [|by intros [= <- _ _]; constructor].
  cbv zeta. destruct (negb _); [by intros [= <- _ _]; constructor|].
  destruct staging as [store|]; [|by intros [= <- _ _]; constructor].
  unfold mbind at 1, M_bind at 1, call_storage. destruct (WriteChunk _ _ _ _ _ _) as [w|];
    [|by intros [= <- _ _]; constructor].
  unfold catch_db, catch, RecordChunkIfInProgress, mbind, M_bind, mret, M_ret.
  destruct (exec _ _) as [[[acc comp]|[]] e2]; [|intros [= <- _ _]; constructor|done..].
  destruct acc, comp; intros [= <- _ _]; by repeat constructor.
Qed.
End chunks.

(** ** The service *)

(** A request, given the cache it finds, keeps the plans and the tasks, and what it stores
    in the cache, whatever the other requests have made of it, is true of the database. *)
Definition keeps_upload_plans {A} (m : UploadTaskCache → M Database (list CacheEdit * A)) : Prop :=
  ∀ cache e, tx e = AutoCommit → plans_kept (db e) → coherent cache (db e) →
    relies tasks_stay plans_kept (schedule e) →
    plans_kept (db (m cache e).2) ∧ tasks_stay (db e) (db (m cache e).2) ∧
    ∀ edits r cache', (m cache e).1 = Ret (edits, r) → coherent cache' (db (m cache e).2) →
      coherent (apply_edits edits cache') (db (m cache e).2).

(** A request that only erases. *)
Lemma keeps_plans_erasing {A} (m : M Database (list CacheEdit * A)) : Keeps m →
  (∀ e edits r e', m e = (Ret (edits, r), e') → only_erases edits) →
  keeps_upload_plans (λ _, m).
Proof.
  intros Hm He cache e Ht Hp Hc Hst. destruct (Hm e Ht Hp Hst) as (_ & Hp' & Hs & _).
  split_and!; [done..|]. intros edits r cache' Hr Hc'. apply known_edits_coherent; [|done].
  apply only_erases_known. destruct (m e) as [o e'] eqn:E. simpl in Hr. subst. by eapply He.
Qed.

Section service.
Context (HashMd5 : string → string) (staging : option UploadStagingStorage).
Hypothesis Hstaging : ∀ storage, staging = Some storage → honest storage.

Lemma keeps_store entry id i h data u : 0 <= i < 2 ^ 32 →
  Respects tasks_stay (λ d, plans_kept d ∧ known id entry d)
    (store_chunk HashMd5 staging entry id i h data u).
Proof.
  intros Hi. destruct staging as [storage|]; [by apply keeps_store_chunk; [apply Hstaging|]|].
  unfold store_chunk. destruct (ValidateChunkAcceptance _ _ _ _ _); [|apply _].
  cbv zeta. case_match; apply _.
Qed.

(** Storing a chunk of a known task, from wherever the task is known. *)
Lemma store_known entry id i h data u e : 0 <= i < 2 ^ 32 → tx e = AutoCommit →
  plans_kept (db e) → known id entry (db e) → relies tasks_stay plans_kept (schedule e) →
  let run := store_chunk HashMd5 staging entry id i h data u e in
  plans_kept (db run.2) ∧ tasks_stay (db e) (db run.2) ∧
  ∀ edits r, run.1 = Ret (edits, r) → known_edits edits (db run.2).
Proof.
  intros Hi Ht Hp Hk Hst run.
  destruct (keeps_store entry id i h data u Hi e Ht (conj Hp Hk)) as (_ & [? ?] & ? & _).
  { apply relies_also; [apply entry_known_lasting|done]. }
  split_and!; [done..|]. intros edits r Hr. apply only_erases_known. unfold run in Hr.
  destruct (store_chunk _ _ _ _ _ _ _ _ e) as [o e'] eqn:E. simpl in Hr. subst.
  by eapply store_chunk_edits.
Qed.

Lemma keeps_chunk now loaded id i h data u : 0 <= i < 2 ^ 32 →
  keeps_upload_plans (λ cache, UploadChunk HashMd5 staging cache now loaded id i h data u).
Proof.
  intros Hi cache e Ht Hp Hc Hst. unfold UploadChunk.
  destruct (TryGetUploadTaskCacheEntry now cache id u) as [entry found] eqn:Hget.
  destruct (try_get_coherent _ _ _ _ _ _ _ Hc Hget) as [Hfound Hentry].
  assert (∀ d', known_edits found d') as Hfound'.
  { intros d'. unfold TryGetUploadTaskCacheEntry in Hget.
    repeat case_match; simplify_eq; by repeat constructor. }
  destruct entry as [entry|].
  - destruct (Hentry _ eq_refl) as [Hk _].
    destruct (store_known entry id i h data u e Hi Ht Hp Hk Hst) as (? & ? & Hed).
    unfold mbind, M_bind. destruct (store_chunk _ _ _ _ _ _ _ _ e) as [[[edits r]|x] e'];
      (split_and!; [done..|]); [|done]. intros ? ? cache' [= <- <-] Hc'. simpl in *.
    apply known_edits_coherent; [|done]. apply Forall_app_2; [apply Hfound'|by eapply Hed].
  - pose proof (load_task_answers loaded id u) as Hload.
    assert (Keeps (load_task loaded id u)) as Hkeeps.
    { unfold load_task, FindUploadTask, FindUnexpiredByIdForUser, FindUploadStagingSession,
        FindStagingSessionForUser. solve_respects. }
    destruct (Hkeeps e Ht Hp Hst) as (Ht1 & Hp1 & Hs1 & Hsch1). unfold mbind, M_bind.
    destruct (load_task loaded id u e) as [[[entry|er]|x] e1] eqn:E; simpl in *;
      [|split_and!; [exact Hp1|exact Hs1|]|split_and!; [exact Hp1|exact Hs1|done]].
    2: { intros ? ? cache' [= <- <-] Hc'. by apply known_edits_coherent. }
    destruct (Hload e _ e1 Ht Hp Hst E) as [Hk _].
    destruct (store_known entry id i h data u e1 Hi Ht1 Hp1 Hk) as (? & Hs2 & Hed);
      [by eapply relies_suffix|].
    destruct (store_chunk _ _ _ _ _ _ _ _ e1) as [[[edits r]|x] e2]; simpl in *;
      (split_and!; [done|by etrans|]); [|done]. intros ? ? cache' [= <- <-] Hc'.
    apply known_edits_coherent; [|done]. apply Forall_app_2; [apply Hfound'|].
    constructor; [by eapply entry_known_lasting|by eapply Hed].
Qed.
End service.

Lemma init_erases uuid date backend prefix staging config request u e edits r e' :
  InitUpload config staging uuid date backend prefix request u e = (Ret (edits, r), e') →
  only_erases edits.
Proof.
  unfold InitUpload, mbind, M_bind, mret, M_ret. destruct (InitializeUpload _ _ _ _ _ _ e) as [[a|] e1];
    [|done]. intros [= H _]. revert H. destruct a as [outcome|er]; intros [= <- _]; [|constructor].
  unfold invalidated. induction (ci_upload_task_ids _); simpl; [constructor|]. by constructor.
Qed.

Lemma complete_erases sha date staging blobs config id u e edits r e' :
  UploadService.CompleteUpload config staging sha date blobs id u e = (Ret (edits, r), e') →
  only_erases edits.
Proof.
  unfold UploadService.CompleteUpload, mbind, M_bind, mret, M_ret.
  destruct (Lifecycle.CompleteUpload _ _ _ _ _ e) as [[a|] e1]; [|done].
  intros [= H _]. revert H. destruct a as [outcome|er]; intros [= <- _]; [|constructor].
  unfold invalidated. induction (ci_upload_task_ids _); simpl; [constructor|]. by constructor.
Qed.

Lemma cancel_erases id u e edits r e' :
  CancelUpload id u e = (Ret (edits, r), e') → only_erases edits.
Proof.
  unfold CancelUpload, mbind, M_bind, mret, M_ret. destruct (CancelInProgressUpload id u e) as [[a|] e1];
    [|done]. intros [= H _]. revert H. destruct a; intros [= <- _]; by repeat constructor.
Qed.

Lemma exec_Ret {A} (q : Database → option (A * Database)) e a e' :
  exec q e = (Ret a, e') → ∃ d, q d = Some (a, db e').
Proof.
  unfold exec, next_step. destruct e as [d [|[g []] sch] [|snap []] cs]; cbn; intros;
    repeat case_match; simplify_eq/=; eauto.
Qed.

(** What a chunk that is answered with success has left. *)
Definition chunk_recorded (md5 : string → string) (staging : option UploadStagingStorage)
    (id : string) (i : Z) (data : string) (user : Z) (d' : Database) : Prop :=
  ∃ d k written, chunk_accepting id user d = true ∧ d' = put_chunk id (i32 i) k d ∧
    (∃ storage h session, staging = Some storage ∧
       WriteChunk storage h session i (md5 data) data = Ok written) ∧
    k_size_bytes k = Some (i64 (sc_size_bytes written)) ∧
    k_hash_md5 k = Some (sc_md5_hash written).

Lemma store_chunk_recorded md5 staging entry id i hash data user e edits r e' :
  store_chunk md5 staging entry id i hash data user e = (Ret (edits, Ok r), e') →
  md5 data = hash ∧ r = mkUploadChunkResponse i true ∧
  chunk_recorded md5 staging id i data user (db e').
Proof.
  unfold store_chunk. destruct (ValidateChunkAcceptance _ _ _ _ _); [|done].
  cbv zeta. destruct (negb _) eqn:Hmd5; [done|]. case_bools.
  destruct staging as [store|]; [|done].
  unfold mbind at 1, M_bind at 1, call_storage. destruct (WriteChunk _ _ _ _ _ _) as [w|] eqn:Hw;
    [|done].
  unfold catch_db, catch, RecordChunkIfInProgress, mbind, M_bind, mret, M_ret.
  destruct (exec _ _) as [[[acc comp]|[]] e2] eqn:Hexec; [|done..].
  destruct acc, comp; intros [= <- <- <-].
  apply exec_Ret in Hexec as [d Hd].
  apply record_chunk_accepted in Hd as (k & -> & _ & Hacc & _ & _ & Hs & Hh).
  split_and!; [done|done|]. exists d, k, w. split_and!; [done|done| |by apply Hs|by apply Hh].
  subst. by eexists store, _, _.
Qed.

Lemma store_chunk_returns md5 staging entry id i hash data user e :
  ∃ edits r e', store_chunk md5 staging entry id i hash data user e = (Ret (edits, r), e').
Proof.
  unfold store_chunk. destruct (ValidateChunkAcceptance _ _ _ _ _); [|by eexists _, _, _].
  cbv zeta. destruct (negb _); [by eexists _, _, _|]. destruct staging; [|by eexists _, _, _].
  unfold mbind at 1, M_bind at 1, call_storage. destruct (WriteChunk _ _ _ _ _ _); [|by eexists _, _, _].
  unfold catch_db, catch, RecordChunkIfInProgress, mbind, M_bind, mret, M_ret.
  match goal with |- context [exec ?q ?e0] => destruct (exec q e0) as [[[acc comp]|x] e2] eqn:Hexec end.
  - destruct acc, comp; by eexists _, _, _.
  - assert (x = DbException) as ->; [|by eexists _, _, _].
    unfold exec, next_step in Hexec. cbn in Hexec. repeat case_match; by simplify_eq.
Qed.

(** A chunk is stored from the geometry and the session of its entry. *)
Lemma store_chunk_same md5 staging entry entry' id i hash data user :
  ce_file_size entry = ce_file_size entry' → ce_chunk_size entry = ce_chunk_size entry' →
  ce_total_chunks entry = ce_total_chunks entry' →
  ce_staging_session entry = ce_staging_session entry' →
  store_chunk md5 staging entry id i hash data user =
  store_chunk md5 staging entry' id i hash data user.
Proof. unfold store_chunk. by intros -> -> -> ->. Qed.

(** An accepting task is loaded as what is known of it. *)
Lemma load_task_known n id user entry d cs : plans_kept d → known id entry d →
  chunk_accepting id user d = true →
  ∃ entry', load_task n id user (mkEnv d [] AutoCommit cs) =
      (Ret (Ok entry'), mkEnv d [] AutoCommit cs) ∧
    ce_file_size entry = ce_file_size entry' ∧ ce_chunk_size entry = ce_chunk_size entry' ∧
    ce_total_chunks entry = ce_total_chunks entry' ∧
    ce_staging_session entry = ce_staging_session entry'.
Proof.
  intros [Hp _] (t & b & Ht & _ & -> & -> & -> & Hb & ->). unfold chunk_accepting. rewrite Ht.
  intros Hacc. case_bools. subst. specialize (Hp _ _ Ht). pose proof (planned_range _ Hp).
  unfold is_status in *. case_bools. destruct Hp as (? & ? & ? & _ & ?).
  eexists. split.
  - unfold load_task, FindUploadTask, FindUnexpiredByIdForUser, FindUploadStagingSession,
      FindStagingSessionForUser, bind_result, catch_all, catch, mbind, M_bind, query, exec, next_step.
    cbn. rewrite Ht. cbn. rewrite Z.eqb_refl, (proj2 (Z.leb_le (now d) _)) by done. cbn.
    rewrite (proj2 (Z.eqb_eq (t_status t) 0)) by done. cbn. rewrite Ht. cbn. rewrite Z.eqb_refl. cbn.
    rewrite Hb. reflexivity.
  - unfold BuildUploadTaskCacheEntry. cbn. by rewrite u64_small, !u32_small by lia.
Qed.

Lemma load_task_returns n id user d cs : ∃ r,
  load_task n id user (mkEnv d [] AutoCommit cs) = (Ret r, mkEnv d [] AutoCommit cs).
Proof.
  unfold load_task, FindUploadTask, FindUnexpiredByIdForUser, FindUploadStagingSession,
    FindStagingSessionForUser, bind_result, catch_all, catch, mbind, M_bind, query, exec, next_step.
  cbn. destruct (upload_tasks d !! id) as [t|] eqn:Ht; cbn; [|by eexists].
  destruct (_ && _) eqn:E; [|by eexists]. destruct (negb _); [by eexists|]. cbn. rewrite Ht. cbn.
  destruct (t_user_id t =? user); [|by eexists]. cbn.
  destruct (ParseUploadStagingBackend _); by eexists.
Qed.

(** ** Properties *)

(** C6: the requests of the upload service keep the plans of the uploads.  Whatever
    fails and whatever the other sessions do, as long as they keep the plans too: no task
    changes owner, file size or chunk geometry; every recorded chunk has an index of its
    plan and exactly the size planned for it; and the cache of the process, shared with all
    other requests, only ever holds what is true of the tasks in the database, so that a
    chunk checked against a cached task is checked against the task.  The staging store is
    assumed to report the size of what it wrote.  A chunk index is any 32-bit number.  A new
    upload must be [command_ok]: the user's identifier fits BIGINT, the file has at least one
    byte, and the configured chunk size and largest file size (both signed numbers of their
    columns) allow at most 2^31 - 1 chunks; without the last condition the claim is false
    ([chunk_count_overflows]). *)
Theorem upload_requests_keep_plans md5 sha uuid date backend prefix staging blobs config :
  (∀ storage, staging = Some storage → honest storage) →
  (∀ now loaded id i hash data user, 0 <= i < 2 ^ 32 →
     keeps_upload_plans (λ cache, UploadChunk md5 staging cache now loaded id i hash data user)) ∧
  (∀ request user, command_ok (InitUploadCommandOf config request user) →
     keeps_upload_plans (λ _, InitUpload config staging uuid date backend prefix request user)) ∧
  (∀ id user, keeps_upload_plans (λ _,
     UploadService.CompleteUpload config staging sha date blobs id user)) ∧
  (∀ id user, keeps_upload_plans (λ _, CancelUpload id user)).
Proof.
  intros Hstaging. split_and!.
  - intros. by apply keeps_chunk.
  - intros request user Hok. apply keeps_plans_erasing; [|apply init_erases].
    apply respects_bind; [apply _|by apply keeps_initialize|intros; apply _].
  - intros id user. apply keeps_plans_erasing; [|apply complete_erases].
    apply respects_bind; [apply _|apply keeps_complete|intros; apply _].
  - intros id user. apply keeps_plans_erasing; [|apply cancel_erases].
    apply respects_bind; [apply _|apply keeps_cancel|intros; apply _].
Qed.

(** The rows of a task, read as descriptors. *)
Lemma listed_sizes id t d : plans_kept d → upload_tasks d !! id = Some t →
  Forall (λ kv, default 0 (k_size_bytes kv.2) = task_chunk_length t kv.1.2) (chunk_rows id d).
Proof.
  intros [_ Hc] Ht. apply Forall_forall. intros [[id' i] k] [Hk Hid]%elem_of_select_rows.
  case_bools. cbn in *. subst. destruct (Hc _ _ _ Hk) as (t' & Ht' & _ & Hs). simplify_eq.
  by rewrite Hs.
Qed.

Lemma planned_indices id t d : plans_kept d → upload_tasks d !! id = Some t →
  chunks_complete id (t_total_chunks t) d = true → chunk_indices id d = seqZ 0 (t_total_chunks t).
Proof.
  intros [_ Hc] Ht Hall. unfold chunks_complete in Hall. case_bools.
  apply initial_segment; [apply chunk_indices_NoDup|apply chunk_indices_sorted| |done|done].
  apply Forall_forall. intros i [k Hk]%chunk_indices_elem.
  destruct (Hc _ _ _ Hk) as (t' & Ht' & [? _] & _). simplify_eq. lia.
Qed.

(** The chunks of the tasks under finalization stay recorded. *)
Definition finalizing_complete (d : Database) : Prop :=
  ∀ id t, upload_tasks d !! id = Some t → t_status t = UploadToStorageValue Finalizing →
    ∀ i, 0 <= i < t_total_chunks t → is_Some (upload_task_chunks d !! (id, i)).

(** The statement does not delete the chunks of a task that is being finalized.  The program
    deletes chunks after the statement that ended their task, in the same transaction. *)
Definition spares_finalizing (st : task_statement) (d : Database) : Prop :=
  match st with
  | SDeleteChunks id => ∀ t, upload_tasks d !! id = Some t →
      t_status t ≠ UploadToStorageValue Finalizing
  | _ => True
  end.

Lemma complete_indices id t d : plans_kept d → upload_tasks d !! id = Some t →
  (∀ i, 0 <= i < t_total_chunks t → is_Some (upload_task_chunks d !! (id, i))) →
  chunk_indices id d = seqZ 0 (t_total_chunks t).
Proof.
  intros [_ Hc] Ht Hall.
  assert (∀ i, i ∈ chunk_indices id d ↔ 0 <= i < t_total_chunks t) as Hin.
  { intros i. rewrite chunk_indices_elem. split; [|apply Hall].
    intros [k Hk]. destruct (Hc _ _ _ Hk) as (t' & Ht' & [? _]). by simplify_eq. }
  apply (Sorted_unique Z.le); [apply chunk_indices_sorted|apply seqZ_sorted|].
  apply NoDup_Permutation; [apply chunk_indices_NoDup|apply NoDup_seqZ|].
  intros i. rewrite Hin, elem_of_seqZ. lia.
Qed.

(** What a task under finalization was before a statement. *)
Definition was_finalizing (id : string) (t' : UploadTaskRow) (d : Database) : Prop :=
  ∃ t, upload_tasks d !! id = Some t ∧ t_total_chunks t' = t_total_chunks t ∧
    (t_status t = UploadToStorageValue Finalizing ∨ chunks_complete id (t_total_chunks t) d = true).

Lemma update_finalizing i guard set d r d' id t' : update_task i guard set d = Some (r, d') →
  (∀ t0 t1, guard t0 = true → set t0 = Some t1 → t_total_chunks t1 = t_total_chunks t0 ∧
     (t_status t1 = UploadToStorageValue Finalizing →
      t_status t0 = UploadToStorageValue Finalizing ∨ chunks_complete i (t_total_chunks t0) d = true)) →
  upload_tasks d' !! id = Some t' → t_status t' = UploadToStorageValue Finalizing →
  was_finalizing id t' d ∧ upload_task_chunks d' = upload_task_chunks d.
Proof.
  intros [[_ ->]|(t & t1 & Ht & Hg & Hs & _ & _ & ->)]%update_task_Some Hset.
  { intros Ht' Hst. split; [|done]. exists t'. eauto. }
  rewrite put_task_lookup. destruct (Hset _ _ Hg Hs) as [E Hfin].
  case_decide; intros Ht' Hst; simplify_eq; (split; [|done]); eexists; eauto.
Qed.

Lemma finalizing_statement st d d' id t' : execute st d = Some d' → spares_finalizing st d →
  upload_tasks d' !! id = Some t' → t_status t' = UploadToStorageValue Finalizing →
  was_finalizing id t' d ∧
  ∀ i, is_Some (upload_task_chunks d !! (id, i)) → is_Some (upload_task_chunks d' !! (id, i)).
Proof.
  intros He Hsp Ht' Hst.
  assert (was_finalizing id t' d ∧ upload_task_chunks d' = upload_task_chunks d ∨
    was_finalizing id t' d ∧ ∀ i, is_Some (upload_task_chunks d !! (id, i)) →
      is_Some (upload_task_chunks d' !! (id, i))) as [[? ->]|]; [|by split|done].
  destruct st; unfold execute in He; apply fmap_Some in He as ([r d1] & He & ->); cbn [snd] in *.
  2-7: left; eapply update_finalizing; [exact He| |done|done]; intros t0 t1 Hg Hs;
    unfold finish_unclaimed in Hs; inv_set; (split; [done|]); try done; try tauto.
  - left. unfold create_statement in He. destruct (upload_tasks d !! nt_id task) eqn:Hid; [done|].
    destruct (users d !! _); [|done]. cbv zeta in He.
    destruct (check_upload_task _) eqn:Hck; [|done]. destruct (task_texts_fit _ _); [|done].
    injection He as _ <-. split; [|done]. cbn in Ht'.
    apply lookup_insert_Some in Ht' as [[_ <-]|[_ Ht']]; [|by exists t'; eauto].
    apply check_upload_task_true in Hck. cbn in *. naive_solver.
  - intros _. apply andb_true_iff in Hg as [_ [Hg|Hg]%orb_true_iff];
      unfold is_status in Hg; case_bools; [by right|by left].
  - right. unfold record_chunk_statement in He. repeat case_match; simplify_eq/=;
      (split; [exists t'; eauto|intros i Hi; cbn; try done]).
    all: apply lookup_insert_is_Some; destruct (decide ((upload_id, chunk_index) = (id, i))); eauto.
  - right. unfold delete_chunks_statement in He. injection He as _ <-. cbn in *.
    split; [exists t'; eauto|]. intros i [k Hk]. exists k. apply map_lookup_filter_Some.
    split; [done|]. cbn. intros ->. by eapply Hsp.
Qed.

Lemma finalizing_complete_kept st d d' : execute st d = Some d' → spares_finalizing st d →
  plans_kept d → finalizing_complete d → finalizing_complete d'.
Proof.
  intros He Hsp Hp Hf id t' Ht' Hst i Hi.
  destruct (finalizing_statement _ _ _ _ _ He Hsp Ht' Hst) as [(t & Ht & E & Hor) Hkept].
  rewrite E in Hi. apply Hkept. destruct Hor as [Hor|Hor]; [by eapply Hf|].
  apply chunk_indices_elem. rewrite (planned_indices id t d Hp Ht Hor). apply elem_of_seqZ. lia.
Qed.

(** C7: the chunks a finalizer finds tile the file.  Let the plans be kept and the chunks of
    the tasks under finalization be recorded; every statement of the repository keeps the
    latter, but for one that deletes the chunks of a task before it is finished.  Then a server
    that gets the finalize lease, of a task in progress or of one whose last finalizer let its
    lease run out, lists, for the assembly, exactly the chunks of the plan in order, each with
    the size planned for it, and their sizes add up to the size of the file that was
    announced. *)
Theorem claimed_chunks_tile_the_file :
  (∀ st d d', execute st d = Some d' → spares_finalizing st d →
     plans_kept d → finalizing_complete d → finalizing_complete d') ∧
  ∀ id u o n d t t' d' cs,
  plans_kept d → finalizing_complete d → upload_tasks d !! id = Some t →
  claim_statement id u o n d = Some (Some t', d') →
  ∃ chunks, ListChunksForAssembly id (mkEnv d' [] AutoCommit cs) =
      (Ret chunks, mkEnv d' [] AutoCommit cs) ∧
    sc_chunk_index <$> chunks = seqZ 0 (t_total_chunks t) ∧
    sc_size_bytes <$> chunks = task_chunk_length t <$> seqZ 0 (t_total_chunks t) ∧
    foldr Z.add 0 (sc_size_bytes <$> chunks) = t_file_size t.
Proof.
  split; [apply finalizing_complete_kept|]. intros id u o n d t t' d' cs Hp Hfin Ht Hc.
  assert (chunk_indices id d = seqZ 0 (t_total_chunks t) ∧ d' = put_task id t' d) as [Hi ->].
  { destruct (claim_statement_Some _ _ _ _ _ _ _ Hc)
      as (t0 & Ht0 & _ & -> & _ & _ & _ & _ & [(_ & _ & Hcomp)|[Hst' _]]); simplify_eq.
    - split; [by apply planned_indices|done].
    - split; [|done]. apply complete_indices; [done..|]. by apply Hfin. }
  eexists. split; [apply query_works|].
  change (chunk_rows id (put_task id t' d)) with (chunk_rows id d). unfold chunk_indices in Hi.
  pose proof (listed_sizes id t d Hp Ht) as Hl.
  pose proof (proj1 Hp _ _ Ht) as Hplan. pose proof (planned_range _ Hplan) as Hn.
  destruct Hplan as (_ & Hf & Hcs & Etot & Hlt).
  assert (∀ i, i ∈ seqZ 0 (t_total_chunks t) → u32 i = i) as Hu.
  { intros i ?%elem_of_seqZ. apply u32_small. lia. }
  assert (Forall (λ kv : (string * Z) * ChunkRow, u32 kv.1.2 = kv.1.2) (chunk_rows id d)) as Hrow.
  { apply Forall_forall. intros kv Hkv. apply Hu. rewrite <- Hi. apply list_elem_of_fmap. eauto. }
  rewrite <- !list_fmap_compose.
  match goal with |- ?A ∧ ?B ∧ ?C => assert B as Hsizes end.
  { rewrite <- Hi, <- list_fmap_compose. by apply Forall_fmap_ext_1. }
  split_and!; [rewrite <- Hi; by apply Forall_fmap_ext_1|exact Hsizes|].
  rewrite Hsizes, Etot.
  destruct (chunks_tile_the_file (t_file_size t) (t_chunk_size t) Hf ltac:(lia)) as (_ & _ & E).
  exact E.
Qed.

(** C20: an accepted chunk was verified and recorded.  Whatever the cache holds, true or
    not, and whatever the other sessions do: when a chunk is answered with success, its data
    has the hash it was announced with, and its record was the last change: the statement
    found the task of that id owned by the user, in progress and unexpired, and left a
    chunk with that hash and the size the store reports.  A lookup in the cache never
    grants the permission to write. *)
Theorem accepted_chunk_is_recorded md5 staging cache now loaded id i hash data user e edits r e' :
  UploadChunk md5 staging cache now loaded id i hash data user e = (Ret (edits, Ok r), e') →
  md5 data = hash ∧ r = mkUploadChunkResponse i true ∧
  chunk_recorded md5 staging id i data user (db e').
Proof.
  unfold UploadChunk. destruct (TryGetUploadTaskCacheEntry now cache id user) as [[entry|] found];
    unfold mbind, M_bind, mret, M_ret.
  - destruct (store_chunk _ _ _ _ _ _ _ _ e) as [[[edits' r']|x] e1] eqn:E; [|done].
    intros [= <- -> <-]. by eapply store_chunk_recorded.
  - destruct (load_task _ _ _ _) as [[[entry|er]|x] e1]; [|done..].
    destruct (store_chunk _ _ _ _ _ _ _ _ e1) as [[[edits' r']|x] e2] eqn:E; [|done].
    intros [= <- -> <-]. by eapply store_chunk_recorded.
Qed.

(** C21: the cache changes nothing but the number of queries.  Where the cache holds only
    what is true of the database, a chunk for a task that accepts chunks gets the same
    answer with it as with an empty cache, makes the same calls to the store and leaves the
    same database. *)
Theorem cache_is_transparent md5 staging cache now loaded id i hash data user d cs :
  plans_kept d → coherent cache d → chunk_accepting id user d = true →
  ∃ edits edits' r e',
    UploadChunk md5 staging cache now loaded id i hash data user (mkEnv d [] AutoCommit cs) =
      (Ret (edits, r), e') ∧
    UploadChunk md5 staging ∅ now loaded id i hash data user (mkEnv d [] AutoCommit cs) =
      (Ret (edits', r), e').
Proof.
  intros Hp Hc Hacc. unfold UploadChunk. change (TryGetUploadTaskCacheEntry now ∅ id user)
    with (@None UploadTaskCacheEntry, @nil CacheEdit).
  destruct (TryGetUploadTaskCacheEntry now cache id user) as [[entry|] found] eqn:E.
  - destruct (try_get_coherent _ _ _ _ _ _ _ Hc E) as [_ Hentry].
    destruct (Hentry _ eq_refl) as [Hk _].
    destruct (load_task_known loaded id user entry d cs Hp Hk Hacc) as (entry' & Hl & ? & ? & ? & ?).
    unfold mbind, M_bind. rewrite Hl.
    rewrite (store_chunk_same md5 staging entry entry') by done.
    destruct (store_chunk_returns md5 staging entry' id i hash data user (mkEnv d [] AutoCommit cs))
      as (edits & r & e' & ->). by eexists _, _, _, _.
  - destruct (load_task_returns loaded id user d cs) as [[entry|er] El];
      unfold mbind, M_bind; rewrite El; [|by eexists _, _, _, _].
    destruct (store_chunk_returns md5 staging entry id i hash data user (mkEnv d [] AutoCommit cs))
      as (edits & r & e' & ->). by eexists _, _, _, _.
Qed.

(** ** Witnesses *)

Lemma example_plans : plans_kept example_db.
Proof.
  split.
  - intros id t Ht. cbn in Ht. apply lookup_singleton_Some in Ht as [_ <-].
    unfold planned. cbn. split_and!; lia || reflexivity.
  - intros id i k Hk. unfold example_db in Hk. cbn in Hk.
    apply lookup_insert_Some in Hk as [[[= <- <-] <-]|[_ Hk]];
      [|apply lookup_insert_Some in Hk as [[[= <- <-] <-]|[_ Hk]];
        [|apply lookup_singleton_Some in Hk as [[= <- <-] <-]]];
      exists example_task; (split; [reflexivity|split; [cbn; lia|reflexivity]]).
Qed.

(** The task before its second chunk arrives, and what a cache may hold about it. *)
Definition example_uploading : Database :=
  example_db <| upload_task_chunks := {[ ("up-1", 0) := example_chunk 4 ]} |>.

Definition example_entry : UploadTaskCacheEntry :=
  mkUploadTaskCacheEntry 7 10 4 3 (mkUploadStagingSession "up-1" StagingLocal "up-1") 900.

Definition example_cache : UploadTaskCache := {["up-1" := example_entry]}.

Lemma example_uploading_plans : plans_kept example_uploading.
Proof.
  split; [apply example_plans|]. intros id i k Hk. cbn in Hk.
  apply lookup_singleton_Some in Hk as [[= <- <-] <-]. exists example_task.
  split; [reflexivity|split; [cbn; lia|reflexivity]].
Qed.

Lemma example_cache_coherent : coherent example_cache example_uploading.
Proof.
  intros id entry Hentry. unfold example_cache in Hentry.
  apply lookup_singleton_Some in Hentry as [<- <-].
  exists example_task, StagingLocal. repeat split.
Qed.

(** A staging store that describes what it is given. *)
Definition honest_storage : UploadStagingStorage := {|
  EnsureUploadSession := λ _ _, Ok tt;
  WriteChunk := λ _ _ i md5 data, Ok (mkUploadStagingChunk i (strlen data) md5 "key" "");
  AssembleChunks := λ _ _ _ _ _, Err (err InternalError);
  DiscardAssembly := λ _ _ _, Ok tt;
  CleanupSession := λ _ _, Ok tt;
  ListStagingObjects := λ _ _ _, Ok (mkStorageInventoryPage [] "" false)
|}.

Definition example_md5 (data : string) : string := "5d41402abc4b2a76b9719d911017c592".

Definition example_config : UploadConfig := mkUploadConfig 1000 4 3600 true "server-a" 30.

Definition example_chunk_request (cache : UploadTaskCache) :=
  UploadChunk example_md5 (Some honest_storage) cache 100 100 "up-1" 1
    "5d41402abc4b2a76b9719d911017c592" "abcd" 7.

Lemma upload_requests_keep_plans_witness :
  plans_kept (db (example_chunk_request example_cache (mkEnv example_uploading [] AutoCommit [])).2).
Proof.
  destruct (upload_requests_keep_plans example_md5 example_md5 "up-2" 0 StagingLocal "staging"
    (Some honest_storage) None example_config) as (Hchunk & _).
  - intros storage [= <-] h session i md5 data chunk [= <-]. done.
  - apply (Hchunk 100 100 "up-1"%string 1 "5d41402abc4b2a76b9719d911017c592"%string "abcd"%string 7
      ltac:(lia) example_cache (mkEnv example_uploading [] AutoCommit []) eq_refl
      example_uploading_plans example_cache_coherent). constructor.
Defined.

Definition example_abandoned : Database :=
  match claim_statement "up-1" 7 "server-a" 30 example_db with
  | Some (_, d) => d <| now := now d + seconds 31 |>
  | None => example_db
  end.

(** The first server claims the upload and stops; when its lease is over a second one takes
    over. *)
Lemma claimed_chunks_tile_the_file_witness : ∃ t2 d2 chunks e,
  claim_statement "up-1" 7 "server-b" 30 example_abandoned = Some (Some t2, d2) ∧
  ListChunksForAssembly "up-1" (mkEnv d2 [] AutoCommit []) = (Ret chunks, e) ∧
  foldr Z.add 0 (sc_size_bytes <$> chunks) = 10.
Proof.
  destruct (updated_true (claim_statement "up-1" 7 "server-a" 30 example_db))
    as (t1 & d1 & Hc1); [by vm_compute|].
  assert (finalizing_complete example_db) as Hf0.
  { intros id t Ht. cbn in Ht. by apply lookup_singleton_Some in Ht as [_ <-]. }
  assert (execute (SClaim "up-1" 7 "server-a" 30) example_db = Some d1) as He1.
  { unfold execute. by rewrite Hc1. }
  destruct claimed_chunks_tile_the_file as [Hkept Htile].
  pose proof (Hkept _ _ _ He1 I example_plans Hf0) as Hf1.
  destruct (plans_statement (SClaim "up-1" 7 "server-a" 30) _ _ eq_refl He1 example_plans) as [Hp1 _].
  destruct (updated_true (claim_statement "up-1" 7 "server-b" 30 example_abandoned))
    as (t2 & d2 & Hc2); [by vm_compute|].
  assert (example_abandoned = d1 <| now := now d1 + seconds 31 |>) as Eab.
  { unfold example_abandoned. by rewrite Hc1. }
  destruct (task_step_evolves example_db d1 "up-1" example_task) as (t0 & Ht0 & Hid & _);
    [by econstructor|reflexivity|].
  assert (t_file_size t0 = 10) as Esize by apply Hid.
  assert (plans_kept example_abandoned ∧ finalizing_complete example_abandoned ∧
    upload_tasks example_abandoned !! "up-1"%string = Some t0) as (Hp & Hf & Ht).
  { rewrite Eab. split_and!; [exact Hp1|exact Hf1|exact Ht0]. }
  destruct (Htile _ _ _ _ _ _ _ _ [] Hp Hf Ht Hc2) as (chunks & Hl & _ & _ & Hs).
  exists t2, d2, chunks, (mkEnv d2 [] AutoCommit []).
  split; [exact Hc2|]. split; [exact Hl|]. by rewrite Hs.
Defined.

(** With chunks of one byte a file of 2^31 bytes passes the check of the number of chunks,
    which allows 2^32 - 1 of them, and is stored with a negative number of chunks. *)
Lemma chunk_count_overflows :
  let config := mkUploadConfig (2 ^ 40) 1 3600 true "server-a" 30 in
  let d := (empty_db 100) <| users := {[ 7 := mkUserRow (2 ^ 40) 0 0 ]} |> in
  let result := InitUpload config (Some honest_storage) "up-2" 0 StagingLocal "staging"
    (mkInitUploadRequest "big.bin" (2 ^ 31) "5d41402abc4b2a76b9719d911017c592" 0) 7
    (mkEnv d [] AutoCommit []) in
  (is_ok ∘ snd <$> match result.1 with Ret r => Some r | Raise _ => None end) = Some true ∧
  t_total_chunks <$> upload_tasks (db result.2) !! "up-2"%string = Some (- 2 ^ 31).
Proof. split; vm_compute; reflexivity. Qed.

Lemma accepted_chunk_is_recorded_witness :
  chunk_recorded example_md5 (Some honest_storage) "up-1" 1 "abcd" 7
    (db (example_chunk_request ∅ (mkEnv example_uploading [] AutoCommit [])).2).
Proof.
  assert (∃ edits r e', example_chunk_request ∅ (mkEnv example_uploading [] AutoCommit []) =
    (Ret (edits, Ok r), e')) as (edits & r & e' & E) by (eexists _, _, _; vm_compute; reflexivity).
  rewrite E. by apply (accepted_chunk_is_recorded example_md5 (Some honest_storage) ∅ 100 100
    "up-1" 1 "5d41402abc4b2a76b9719d911017c592" "abcd" 7
    (mkEnv example_uploading [] AutoCommit []) edits r e').
Defined.

Lemma cache_is_transparent_witness : ∃ edits edits' r e',
  example_chunk_request example_cache (mkEnv example_uploading [] AutoCommit []) =
    (Ret (edits, r), e') ∧
  example_chunk_request ∅ (mkEnv example_uploading [] AutoCommit []) = (Ret (edits', r), e').
Proof.
  apply (cache_is_transparent example_md5 (Some honest_storage) example_cache 100 100 "up-1" 1
    "5d41402abc4b2a76b9719d911017c592" "abcd" 7 example_uploading []);
    [exact example_uploading_plans|exact example_cache_coherent|vm_compute; reflexivity].
Defined.
