(* ===== verification/Cancellation.v ===== *)
(** * Uploads that end without a file

    What [CancelInProgressUpload] and [ExpireInProgressUpload] of
    [src/src/services/UploadLifecycleService.cpp] do when the database works: the
    answer of a request to cancel, and what an upload gives back when it is
    cancelled or expires. *)

From S2P Require Import Prelude Errors Storage Db UploadState Json Schema Names Quota UploadTasks.
From S2P Require Import StorageJobs Content JobContract Files Folders Reconciliation Lifecycle Accounting.

Local Open Scope string_scope.

(** ** Specification *)

(** The upload a user can still cancel. *)
Definition cancellable (upload_id : string) (user_id : Z) (d : Database) : option UploadTaskRow :=
  t ← upload_tasks d !! upload_id;
  if (t_user_id t =? user_id)%Z && (t_status t =? UploadToStorageValue InProgress)%Z &&
     (now d <=? t_expires_at t)%Z
  then Some t else None.

(** The answer to a request to cancel. *)
Definition cancel_spec (upload_id : string) (user_id : Z) (d : Database) : Result Z :=
  match upload_tasks d !! upload_id with
  | None => Err (err UploadTaskNotFound)
  | Some t =>
      if negb (t_user_id t =? user_id)%Z then Err (err UploadTaskNotFound)
      else match UploadTaskStatusFromStorage (t_status t) with
           | Some InProgress =>
               if (now d <=? t_expires_at t)%Z then Ok (t_state_version t + 1)%Z
               else Err (err UploadTaskNotFound)
           | Some Cancelled => Ok (t_state_version t)
           | Some Finalizing | Some Completed => Err CannotCancel
           | _ => Err (err UploadTaskNotFound)
           end
  end.

(** What the end of an upload leaves: its reservation is given back, its chunks are
    forgotten, a job will clean its staging area, and files and contents are as
    before. *)
Record given_back (upload_id : string) (t : UploadTaskRow) (a : UserRow) (d d' : Database) : Prop := {
  gb_account : users d' = <[t_user_id t :=
    a <| u_storage_reserved := (u_storage_reserved a - t_reserved_bytes t)%Z |>]> (users d);
  gb_chunks : ∀ i, upload_task_chunks d' !! (upload_id, i) = None;
  gb_cleanup : ∃ i j, find_job_by_dedupe_key ("staging-cleanup:" ++ upload_id) d' = Some (i, j);
  gb_files : files d' = files d;
  gb_contents : file_contents d' = file_contents d
}.

(** ** Lemmas *)

(** The identifiers [upload_tasks.id] holds. *)
Definition valid_upload_id (id : string) : Prop := id ≠ "" ∧ (strlen id <= 64)%Z.

Lemma cleanup_job_valid session :
  valid_upload_id (ss_upload_id session) → valid_new_job (BuildStagingCleanupJob session).
Proof.
  intros [Hne Hlen]. unfold valid_new_job, BuildStagingCleanupJob, new_job. cbn [nj_job_type
    nj_aggregate_id nj_dedupe_key nj_max_attempts]. rewrite strlen_app.
  split_and!; try done; unfold kMaxAggregateIdLength, kMaxDedupeKeyLength;
    [lia|change (strlen "staging-cleanup:") with 16%Z; lia].
Qed.

Lemma Enqueue_live job d st cs : live st → valid_new_job job →
  ∃ b r d', Enqueue job (mkEnv d [] st cs) = (Ret b, mkEnv d' [] st cs) ∧
    enqueue_statement job d = Some (r, d').
Proof.
  intros Hst Hjob. unfold Enqueue.
  rewrite (bind_Ret _ _ _ _ _ (ValidateNewJob_valid job _ Hjob)).
  destruct (enqueue_statement_total job d Hjob) as (r & d' & Hq & _).
  rewrite (bind_Ret _ _ _ _ _ (exec_live _ _ _ cs _ _ Hst Hq)). eexists _, r, d'. by split.
Qed.

Lemma release_upload_works id user record t a d st cs :
  live st → valid_upload_id id → users d !! user = Some a → Account.sane a →
  ss_upload_id (cr_staging_session (tr_cleanup record)) = id →
  t_user_id t = user → cr_reserved_bytes (tr_cleanup record) = t_reserved_bytes t →
  (0 < t_reserved_bytes t <= u_storage_reserved a)%Z →
  ∃ d', release_upload id user record (mkEnv d [] st cs) =
      (Ret (Ok (Some (tr_state_version record))), mkEnv d' [] st cs) ∧
    given_back id t a d d' ∧ upload_tasks d' = upload_tasks d.
Proof.
  intros Hst Hid Ha Hsane Hss <- Hres Hb. unfold release_upload. cbv zeta. rewrite Hres.
  set (n := t_reserved_bytes t) in *. set (job := BuildStagingCleanupJob _).
  assert (valid_new_job job) as Hjob by (apply cleanup_job_valid; by rewrite Hss).
  assert (Account.apply (Account.Release n) a = Some (Account.move a 0 (- n))) as Happ.
  { unfold Account.apply. simpl. rewrite (proj2 (Z.eqb_neq _ _)), (proj2 (Z.leb_le _ _)) by lia.
    done. }
  pose proof (account_run_works (Account.Release n) (t_user_id t) d a st cs Hst Ha Hsane) as Hrun.
  unfold account_effect in Hrun. rewrite Happ in Hrun. simpl Account.run in Hrun.
  unfold bind_result.
  rewrite (bind_Ret _ _ _ _ _ (Hrun ltac:(destruct Hsane as (?&?&?); simpl; lia))). cbn [Account.answer].
  set (d1 := put_account _ _ d).
  destruct (Enqueue_live job d1 st cs Hst Hjob) as (b & r & d2 & He & Hq).
  rewrite (bind_Ret _ _ _ _ _ He).
  destruct (insert_job_tables _ _ _ _ _ Hq) as (Eu & Ec & Ef & Et & _).
  set (d3 := d2 <| upload_task_chunks := filter (λ kv, kv.1.1 ≠ id) (upload_task_chunks d2) |>).
  assert (delete_chunks_statement id d2 = Some (tt, d3)) as Hd by done.
  unfold DeleteChunks. rewrite (bind_Ret _ _ _ _ _ (exec_live _ _ _ cs _ _ Hst Hd)).
  exists d3. split; [done|]. split; [|done]. split.
  - change (users d3) with (users d2). rewrite Eu. subst d1 n. unfold put_account, Account.move.
    cbn. f_equal. apply UserRow_ext; cbn; lia.
  - intros i. apply map_lookup_filter_None. right. intros k _. cbn. by intros [].
  - change (storage_jobs d3) with (storage_jobs d2).
    destruct (enqueue_statement_finds _ _ _ _ Hq) as (i & j & Hf). exists i, j.
    unfold job in Hf. cbn in Hf. rewrite Hss in Hf. exact Hf.
  - change (files d3) with (files d2). by rewrite Ef.
  - change (file_contents d3) with (file_contents d2). by rewrite Ec.
Qed.

(** Exact books cover the reservation of an upload under way. *)
Lemma ledger_covers registry refs_held d id t a : ledger registry refs_held d →
  (∀ i t, upload_tasks d !! i = Some t → check_upload_task t = true) →
  upload_tasks d !! id = Some t → active t = true → users d !! t_user_id t = Some a →
  (t_reserved_bytes t <= u_storage_reserved a)%Z.
Proof.
  intros (_ & Hu & _) Hcheck Ht Ha Hus. destruct (Hu _ _ Hus) as [-> _]. unfold zero, reserved_of.
  rewrite (sum_rows_delete _ _ _ _ Ht). cbn beta. rewrite Z.eqb_refl, Ha. simpl.
  assert (0 <= sum_rows (λ _ t0, if (t_user_id t0 =? t_user_id t)%Z && active t0
    then t_reserved_bytes t0 else 0) (delete id (upload_tasks d)))%Z; [|lia].
  apply sum_rows_nonneg. intros k v [_ Hk]%lookup_delete_Some. case_match; [|done].
  apply Hcheck in Hk. by apply check_upload_task_true in Hk as (_ & _ & ? & _).
Qed.

Section cancel.
Context (registry : string → UploadIdentity) (refs_held : TrashRow → Z → Z) (d : Database).
Context (id : string) (t : UploadTaskRow) (a : UserRow).
Context (Hledger : ledger registry refs_held d)
  (Hcheck : ∀ i t, upload_tasks d !! i = Some t → check_upload_task t = true)
  (Hid : valid_upload_id id) (Ht : upload_tasks d !! id = Some t)
  (Hstatus : t_status t = UploadToStorageValue InProgress) (Hroom : counters_room t)
  (Ha : users d !! t_user_id t = Some a) (Hsane : Account.sane a) (Hres : (0 < t_reserved_bytes t)%Z).

(** The task after the transition that ends it. *)
Definition finished (st : UploadTaskStatus) (reason : string) : UploadTaskRow :=
  t <| t_status := UploadToStorageValue st |>
    <| t_finalized_at := Some (now d) |>
    <| t_fail_reason := Some reason |>
    <| t_state_version := (t_state_version t + 1)%Z |>.

Lemma finish_works st reason (guard : UploadTaskRow → bool) :
  st = Cancelled ∨ st = Expired → guard t = true →
  update_task id guard (finish_unclaimed st reason d) d =
    Some (Some (finished st reason), put_task id (finished st reason) d).
Proof.
  intros Hst Hg. rewrite (update_task_total id guard _ d t (finished st reason) Ht).
  - by rewrite Hg.
  - intros _. unfold finish_unclaimed, next_version. pose proof (Hcheck _ _ Ht) as Hc.
    apply check_upload_task_true in Hc as (_ & ? & ? & ? & ? & ? & _ & Hl & Hcf).
    destruct Hroom as [Hv _]. rewrite bigint_ok by lia. split; [done|].
    assert (t_status t ≠ 4%Z) as Hne by (by rewrite Hstatus).
    assert (t_completed_file_id t = None) as Hnone.
    { destruct (t_completed_file_id t); [|done]. rewrite Hstatus in Hcf. by discriminate Hcf. }
    destruct (Hl Hne) as [Hlo Hle].
    apply check_upload_task_true. unfold finished. cbn. rewrite Hlo, Hle, Hnone.
    destruct Hst as [-> | ->]; cbn; split_and!; (done || lia).
Qed.

(** The record of the transition, and what follows it in the same transaction. *)
Lemma end_works st reason s cs :
  live s → st = Cancelled ∨ st = Expired →
  ∃ record d', transition_record id (Some (finished st reason))
      (mkEnv (put_task id (finished st reason) d) [] s cs) =
      (Ret (Some record), mkEnv (put_task id (finished st reason) d) [] s cs) ∧
    cr_user_id (tr_cleanup record) = t_user_id t ∧
    release_upload id (t_user_id t) record
      (mkEnv (put_task id (finished st reason) d) [] s cs) =
      (Ret (Ok (Some (t_state_version t + 1)%Z)), mkEnv d' [] s cs) ∧
    given_back id t a d d' ∧
    upload_tasks d' = <[id := finished st reason]> (upload_tasks d).
Proof.
  intros Hs Hst.
  pose proof (Hcheck _ _ Ht) as (_ & Hb & _)%check_upload_task_true.
  assert (∃ b, ParseUploadStagingBackend (t_staging_backend t) = Some b) as [b Hpb].
  { destruct Hb as [-> | ->]; by eexists. }
  set (record := mkTransitionRecord
    (mkUploadTaskCleanupRecord id (t_user_id t) (t_reserved_bytes t)
       (mkUploadStagingSession id b (staging_prefix_of t))) (t_state_version t + 1)%Z).
  destruct (release_upload_works id (t_user_id t) record t a (put_task id (finished st reason) d)
    s cs Hs Hid Ha Hsane eq_refl eq_refl eq_refl) as (d' & Hr & Hg & Htasks).
  { split; [done|]. eapply ledger_covers; [done..| |done].
    apply active_status. by left. }
  exists record, d'. split_and!; [|done|done| |done].
  - unfold transition_record, ToUploadTaskCleanupRecord, mbind, M_bind.
    change (t_staging_backend (finished st reason)) with (t_staging_backend t).
    rewrite Hpb. done.
  - by destruct Hg.
Qed.
End cancel.

Lemma cancel_guard id user d t : upload_tasks d !! id = Some t →
  (t_user_id t =? user)%Z && is_status InProgress t && (now d <=? t_expires_at t)%Z =
  match cancellable id user d with Some _ => true | None => false end.
Proof.
  intros Ht. unfold cancellable. rewrite Ht. cbn. unfold is_status. cbn. by destruct (_ && _).
Qed.

Lemma cancellable_Some id user d t : cancellable id user d = Some t ↔
  upload_tasks d !! id = Some t ∧ t_user_id t = user ∧
  t_status t = UploadToStorageValue InProgress ∧ (now d <= t_expires_at t)%Z.
Proof.
  unfold cancellable. rewrite bind_Some. split.
  - intros (t0 & Ht & H). case_match; simplify_eq. by case_bools.
  - intros (Ht & <- & Hs & Hn). exists t. split; [done|].
    by rewrite Z.eqb_refl, Hs, Z.eqb_refl, (proj2 (Z.leb_le _ _) Hn).
Qed.

(** What a request to cancel learns of an upload it cannot cancel. *)
Lemma cancel_answer_spec id user d : cancellable id user d = None →
  cancel_answer (t ← upload_tasks d !! id;
    if (t_user_id t =? user)%Z
    then Some (mkUploadTaskCancellationState (t_status t) (t_state_version t)
                 (t_expires_at t <? now d)%Z)
    else None) = cancel_spec id user d.
Proof.
  unfold cancellable, cancel_spec. destruct (upload_tasks d !! id) as [t|]; [|done]. cbn.
  destruct (t_user_id t =? user)%Z; [|done]. cbn.
  unfold cancel_answer, DecideCancelRequest. cbn [cs_task_expired cs_status cs_state_version].
  destruct (UploadTaskStatusFromStorage (t_status t)) as [st|] eqn:Hst.
  - apply from_storage_Some in Hst. rewrite Hst.
    destruct st; cbn; rewrite ?andb_false_r; try done.
    rewrite Z.leb_antisym. by destruct (t_expires_at t <? now d)%Z.
  - destruct (Z.eqb_spec (t_status t) 0) as [E|_].
    + by rewrite E in Hst.
    + by rewrite andb_false_r.
Qed.

(** ** Properties *)

(** Cancelling an upload answers and acts as specified.  On exact books, when
    the database works, the answer is the one of [cancel_spec].  An upload under way
    that has not expired becomes cancelled and gives back what it holds; in every
    other case nothing changes. *)
Lemma cancel_outcome registry refs_held d id user cs :
  ledger registry refs_held d →
  (∀ i t, upload_tasks d !! i = Some t → check_upload_task t = true) →
  valid_upload_id id →
  (∀ t, cancellable id user d = Some t → counters_room t ∧ (0 < t_reserved_bytes t)%Z ∧
     ∃ a, users d !! user = Some a ∧ Account.sane a) →
  ∃ d', CancelInProgressUpload id user (mkEnv d [] AutoCommit cs) =
      (Ret (cancel_spec id user d), mkEnv d' [] AutoCommit cs) ∧
    match cancellable id user d with
    | None => d' = d
    | Some t => ∃ a, users d !! user = Some a ∧ given_back id t a d d' ∧
        upload_tasks d' = <[id := finished d t Cancelled "用户取消"]> (upload_tasks d)
    end.
Proof.
  intros Hledger Hcheck Hid Hroom. unfold CancelInProgressUpload.
  assert (live (InTx d false)) as Hlive by (intros ?; discriminate).
  destruct (cancellable id user d) as [t|] eqn:Hc.
  - destruct (Hroom t eq_refl) as (Hcount & Hres & a & Ha & Hsane).
    pose proof Hc as (Ht & <- & Hst & Hnow)%cancellable_Some.
    destruct (end_works registry refs_held d id t a Hledger Hcheck Hid Ht Hst Ha Hsane Hres
      Cancelled "用户取消" (InTx d false) cs Hlive (or_introl eq_refl))
      as (record & d' & Hrec & _ & Hrel & Hg & Htasks).
    exists d'. split; [|by exists a].
    assert (cancel_statement id (t_user_id t) "用户取消" d = Some (Some (finished d t Cancelled
      "用户取消"), put_task id (finished d t Cancelled "用户取消") d)) as Hq.
    { apply finish_works; [done..|by left|]. rewrite (cancel_guard _ _ _ _ Ht), Hc. done. }
    unfold bind_result. erewrite bind_Ret; [|apply Run_works; unfold cancel_body,
      MarkCancelledIfInProgressReturning;
      erewrite bind_Ret; [|rewrite (bind_Ret _ _ _ _ _ (exec_live _ _ _ cs _ _ Hlive Hq)); exact Hrec];
      exact Hrel].
    unfold cancel_spec. rewrite Ht, Z.eqb_refl, Hst, from_storage_value. cbn [negb].
    by rewrite (proj2 (Z.leb_le _ _) Hnow).
  - exists d. split; [|done].
    assert (cancel_statement id user "用户取消" d = Some (None, d)) as Hq.
    { apply update_task_skip. intros t Ht. by rewrite (cancel_guard _ _ _ _ Ht), Hc. }
    unfold bind_result. erewrite bind_Ret; [|apply Run_works; unfold cancel_body,
      MarkCancelledIfInProgressReturning;
      erewrite bind_Ret; [|rewrite (bind_Ret _ _ _ _ _ (exec_live _ _ _ cs _ _ Hlive Hq)); reflexivity];
      reflexivity].
    unfold FindCancellationStateByIdForUser.
    rewrite (bind_Ret _ _ _ _ _ (query_works _ d cs)). unfold mret, M_ret. do 2 f_equal.
    by apply cancel_answer_spec.
Qed.

(** The upload an expiration pass ends. *)
Definition expirable (upload_id : string) (d : Database) : option UploadTaskRow :=
  t ← upload_tasks d !! upload_id;
  if (t_status t =? UploadToStorageValue InProgress)%Z && (t_expires_at t <? now d)%Z
  then Some t else None.

Lemma expire_guard id d t : upload_tasks d !! id = Some t →
  is_status InProgress t && (t_expires_at t <? now d)%Z =
  match expirable id d with Some _ => true | None => false end.
Proof.
  intros Ht. unfold expirable. rewrite Ht. cbn. unfold is_status. cbn. by destruct (_ && _).
Qed.

Lemma expirable_Some id d t : expirable id d = Some t ↔
  upload_tasks d !! id = Some t ∧ t_status t = UploadToStorageValue InProgress ∧
  (t_expires_at t < now d)%Z.
Proof.
  unfold expirable. rewrite bind_Some. split.
  - intros (t0 & Ht & H). case_match; simplify_eq. by case_bools.
  - intros (Ht & Hs & Hn). exists t. split; [done|].
    by rewrite Hs, Z.eqb_refl, (proj2 (Z.ltb_lt _ _) Hn).
Qed.

(** Expiring is for uploads whose time is over and nothing else.  On exact books,
    when the database works, an upload under way past its deadline becomes expired,
    gives back what it holds to the user it belongs to, and is reported as expired;
    any other upload, be it cancelled, completed or in the hands of a finalizer, is
    left alone and not reported. *)
Lemma expire_outcome registry refs_held d id cs :
  ledger registry refs_held d →
  (∀ i t, upload_tasks d !! i = Some t → check_upload_task t = true) →
  valid_upload_id id →
  (∀ t, expirable id d = Some t → counters_room t ∧ (0 < t_reserved_bytes t)%Z ∧
     ∃ a, users d !! t_user_id t = Some a ∧ Account.sane a) →
  ∃ d', ExpireInProgressUpload id (mkEnv d [] AutoCommit cs) =
      (Ret (Ok (bool_decide (is_Some (expirable id d)))), mkEnv d' [] AutoCommit cs) ∧
    match expirable id d with
    | None => d' = d
    | Some t => ∃ a, users d !! t_user_id t = Some a ∧ given_back id t a d d' ∧
        upload_tasks d' = <[id := finished d t Expired "任务过期"]> (upload_tasks d)
    end.
Proof.
  intros Hledger Hcheck Hid Hroom. unfold ExpireInProgressUpload.
  assert (live (InTx d false)) as Hlive by (intros ?; discriminate).
  destruct (expirable id d) as [t|] eqn:Hc.
  - destruct (Hroom t eq_refl) as (Hcount & Hres & a & Ha & Hsane).
    pose proof Hc as (Ht & Hst & Hnow)%expirable_Some.
    destruct (end_works registry refs_held d id t a Hledger Hcheck Hid Ht Hst Ha Hsane Hres
      Expired "任务过期" (InTx d false) cs Hlive (or_intror eq_refl))
      as (record & d' & Hrec & Hu & Hrel & Hg & Htasks).
    rewrite <- Hu in Hrel. exists d'. split; [|by exists a].
    assert (expire_statement id "任务过期" d = Some (Some (finished d t Expired "任务过期"),
      put_task id (finished d t Expired "任务过期") d)) as Hq.
    { apply finish_works; [done..|by right|]. rewrite (expire_guard _ _ _ Ht), Hc. done. }
    unfold bind_result. erewrite bind_Ret; [|apply Run_works; unfold expire_body,
      MarkExpiredIfInProgressReturning;
      erewrite bind_Ret; [|rewrite (bind_Ret _ _ _ _ _ (exec_live _ _ _ cs _ _ Hlive Hq)); exact Hrec];
      exact Hrel].
    done.
  - exists d. split; [|done].
    assert (expire_statement id "任务过期" d = Some (None, d)) as Hq.
    { apply update_task_skip. intros t Ht. by rewrite (expire_guard _ _ _ Ht), Hc. }
    unfold bind_result. erewrite bind_Ret; [|apply Run_works; unfold expire_body,
      MarkExpiredIfInProgressReturning;
      erewrite bind_Ret; [|rewrite (bind_Ret _ _ _ _ _ (exec_live _ _ _ cs _ _ Hlive Hq)); reflexivity];
      reflexivity].
    done.
Qed.

(** ** Witnesses *)

Lemma example_upload_only id t :
  upload_tasks example_books !! id = Some t → "up-1" = id ∧ example_upload = t.
Proof.
  intros H. change (({[ "up-1" := example_upload ]} : gmap _ _) !! id = Some t) in H.
  by apply lookup_singleton_Some in H.
Qed.

Lemma cancel_outcome_witness :
  ∃ d', CancelInProgressUpload "up-1" 7 (mkEnv example_books [] AutoCommit []) =
      (Ret (Ok 1%Z), mkEnv d' [] AutoCommit []) ∧
    users d' !! 7%Z = Some (mkUserRow 100 0 0) ∧ upload_task_chunks d' !! ("up-1", 0%Z) = None.
Proof.
  destruct (cancel_outcome example_registry (λ _ _, 0%Z) example_books "up-1" 7 []) as (d' & Hr & Hd).
  - exact example_ledger.
  - intros i t [_ <-]%example_upload_only. reflexivity.
  - split; [done|vm_compute; discriminate].
  - intros t [[_ <-]%example_upload_only _]%cancellable_Some. split; [split; cbn; lia|].
    split; [reflexivity|]. exists (mkUserRow 100 0 10). split; [reflexivity|].
    unfold Account.sane. cbn. lia.
  - exists d'. split; [exact Hr|].
    change (cancellable "up-1" 7 example_books) with (Some example_upload) in Hd.
    destruct Hd as (a & Ha & Hg & _). apply example_user in Ha as [_ <-].
    split; [by rewrite (gb_account _ _ _ _ _ Hg)|apply (gb_chunks _ _ _ _ _ Hg)].
Defined.

Lemma expire_outcome_witness :
  ∃ d', ExpireInProgressUpload "up-1" (mkEnv (example_books <| now := 501%Z |>) [] AutoCommit []) =
      (Ret (Ok true), mkEnv d' [] AutoCommit []) ∧
    users d' !! 7%Z = Some (mkUserRow 100 0 0).
Proof.
  destruct (expire_outcome example_registry (λ _ _, 0%Z) (example_books <| now := 501%Z |>) "up-1" [])
    as (d' & Hr & Hd).
  - eapply off_frame; [exact example_ledger|..]; reflexivity.
  - intros i t [_ <-]%example_upload_only. reflexivity.
  - split; [done|vm_compute; discriminate].
  - intros t [[_ <-]%example_upload_only _]%expirable_Some. split; [split; cbn; lia|].
    split; [reflexivity|]. exists (mkUserRow 100 0 10). split; [reflexivity|].
    unfold Account.sane. cbn. lia.
  - exists d'. change (expirable "up-1" (example_books <| now := 501%Z |>))
      with (Some example_upload) in Hr, Hd.
    split; [exact Hr|]. destruct Hd as (a & Ha & Hg & _). apply example_user in Ha as [_ <-].
    by rewrite (gb_account _ _ _ _ _ Hg).
Defined.
