(* ===== verification/Completion.v ===== *)
(** * An upload whose chunks are all there completes

    The path of [CompleteUpload] ([src/src/services/UploadLifecycleService.cpp]) on
    which nothing goes wrong: the lease is taken and renewed, the stores assemble and
    promote the announced file, and the transaction that makes the file commits. *)

From S2P Require Import Prelude Errors Storage Db UploadState Json Schema Names Quota UploadTasks.
From S2P Require Import StorageJobs Content JobContract Files Folders Reconciliation Lifecycle Accounting.
From S2P Require Import UploadOutcomes Cancellation.

Local Open Scope string_scope.

Lemma put_task_put id t t' d : put_task id t' (put_task id t d) = put_task id t' d.
Proof. unfold put_task. destruct d. cbn. rewrite insert_insert_eq. done. Qed.

Lemma put_task_eq id t d : upload_tasks (put_task id t d) !! id = Some t.
Proof. by rewrite put_task_lookup, decide_True. Qed.

(** ** Holding the lease *)

Section lease.
Context (command : CompleteUploadCommand) (d : Database) (t : UploadTaskRow).
Context (Hargs : valid_lease_args (cc_lease_owner command) (cc_lease_duration_seconds command))
  (Hduration : (0 < cc_lease_duration_seconds command < 2 ^ 31)%Z).

Notation id := (cc_upload_id command).

(** The row of an upload this finalizer holds, at version [v]. *)
Definition leased (v : Z) (t' : UploadTaskRow) : Prop :=
  same_identity t t' ∧ t_user_id t' = cc_user_id command ∧
  t_status t' = UploadToStorageValue Finalizing ∧
  t_lease_owner t' = Some (cc_lease_owner command) ∧ t_state_version t' = v ∧
  ts_gt (t_lease_expires_at t') (now d) = true ∧ check_upload_task t' = true.

Lemma lease_lasts : (now d < now_plus (cc_lease_duration_seconds command) d)%Z.
Proof. unfold now_plus, seconds. rewrite i32_small by lia. lia. Qed.

Lemma claim_works :
  upload_tasks d !! id = Some t → t_user_id t = cc_user_id command →
  t_status t = UploadToStorageValue InProgress → (now d <= t_expires_at t)%Z →
  chunks_complete id (t_total_chunks t) d = true →
  check_upload_task t = true → counters_room t →
  ∃ t', leased (t_state_version t + 1) t' ∧ ∀ cs,
    ClaimFinalizeLease id (cc_user_id command) (cc_lease_owner command)
      (cc_lease_duration_seconds command) (mkEnv d [] AutoCommit cs) =
    (Ret (mkFinalizeClaimResult Acquired (t_state_version t + 1) None),
     mkEnv (put_task id t' d) [] AutoCommit cs).
Proof.
  intros Ht Hu Hst Hnow Hchunks Hcheck Hroom.
  destruct (claim_update_valid (cc_lease_owner command) (cc_lease_duration_seconds command) d t
    Hcheck Hroom (or_introl Hst)) as (t' & Hset & Hc').
  exists t'. pose proof lease_lasts as Hl. split.
  - inv_set. split_and!; try done. cbn. by apply Z.ltb_lt.
  - intros cs. unfold ClaimFinalizeLease.
    rewrite (bind_Ret _ _ _ _ _ (ValidateLeaseArguments_valid _ _ _ Hargs)).
    assert (claim_statement id (cc_user_id command) (cc_lease_owner command)
      (cc_lease_duration_seconds command) d = Some (Some t', put_task id t' d)) as Hq.
    { unfold claim_statement. rewrite (update_task_total id _ _ d t t' Ht).
      - by rewrite Hu, Z.eqb_refl, (proj2 (is_status_true _ _) Hst), (proj2 (Z.leb_le _ _) Hnow),
          Hchunks.
      - done. }
    rewrite (bind_Ret _ _ _ _ _ (exec_works _ _ _ _ cs Hq)). inv_set. done.
Qed.

Lemma leased_guard v t' : leased v t' →
  lease_owned (cc_user_id command) (cc_lease_owner command) v (now d) t' = true.
Proof. intros (_ & ? & ? & ? & ? & ? & _). by apply lease_owned_true. Qed.

Lemma renew_works v t' : leased v t' → (v < 2 ^ 63 - 1)%Z →
  ∃ t'', leased (v + 1) t'' ∧ ∀ st cs, live st →
    RenewLeaseFor command v (mkEnv (put_task id t' d) [] st cs) =
    (Ret (Ok (v + 1)%Z), mkEnv (put_task id t'' d) [] st cs).
Proof.
  intros Hl Hv. pose proof Hl as (Hsame & Hu & Hst & Ho & Hver & _ & Hc).
  pose proof Hc as (Hs & Hb & ? & ? & ? & Hp & _ & _ & Hcf)%check_upload_task_true.
  set (t'' := t' <| t_lease_expires_at := Some (now_plus (cc_lease_duration_seconds command) d) |>
                 <| t_state_version := (v + 1)%Z |>).
  assert (check_upload_task t'' = true) as Hc''.
  { apply check_upload_task_true. unfold t''. cbn. rewrite Ho.
    split_and!; (done || lia). }
  exists t''. pose proof lease_lasts. split.
  - split_and!; try done. cbn. by apply Z.ltb_lt.
  - intros st cs Hlive. unfold RenewLeaseFor, RenewFinalizeLease, catch_all, catch.
    unfold mbind at 1, M_bind at 1.
    rewrite (bind_Ret _ _ _ _ _ (ValidateLeaseArguments_valid _ _ _ Hargs)).
    assert (renew_statement id (cc_user_id command) (cc_lease_owner command) v
      (cc_lease_duration_seconds command) (put_task id t' d) =
      Some (Some t'', put_task id t'' d)) as Hq.
    { unfold renew_statement.
      rewrite (update_task_total id _ _ _ t' t'' (put_task_eq _ _ _)).
      - change (now (put_task id t' d)) with (now d). by rewrite leased_guard, put_task_put.
      - intros _. unfold next_version. rewrite Hver, bigint_ok by lia. done. }
    by rewrite (bind_Ret _ _ _ _ _ (exec_live _ _ _ cs _ _ Hlive Hq)).
Qed.

Lemma complete_works v file t' s st cs : leased v t' → (v < 2 ^ 63 - 1)%Z → live st →
  upload_tasks s !! id = Some t' → now s = now d →
  MarkCompletedIfLeaseOwned id (cc_user_id command) (cc_lease_owner command) v file
    (mkEnv s [] st cs) =
  (Ret true, mkEnv (put_task id (t' <| t_status := UploadToStorageValue Completed |>
     <| t_completed_file_id := Some file |> <| t_finalized_at := Some (now d) |>
     <| t_lease_owner := None |> <| t_lease_expires_at := None |>
     <| t_state_version := (v + 1)%Z |>) s) [] st cs).
Proof.
  intros Hl Hv Hlive Ht Hnow. pose proof Hl as (_ & _ & _ & _ & Hver & _ & Hc).
  apply check_upload_task_true in Hc as (_ & ? & ? & ? & ? & ? & _).
  set (t'' := t' <| t_status := _ |> <| t_completed_file_id := _ |> <| t_finalized_at := _ |>
    <| t_lease_owner := _ |> <| t_lease_expires_at := _ |> <| t_state_version := _ |>).
  assert (complete_statement id (cc_user_id command) (cc_lease_owner command) v file s =
    Some (Some t'', put_task id t'' s)) as Hq.
  { unfold complete_statement. rewrite (update_task_total id _ _ s t' t'' Ht).
    - by rewrite Hnow, leased_guard.
    - intros _. unfold next_version. rewrite Hver, bigint_ok, Hnow by lia. split; [done|].
      apply check_upload_task_true. unfold t''. cbn. split_and!; (done || lia). }
  unfold MarkCompletedIfLeaseOwned. by rewrite (bind_Ret _ _ _ _ _ (exec_live _ _ _ cs _ _ Hlive Hq)).
Qed.
End lease.

(** ** The steps of the transaction that makes the file *)

(** A content nobody has stored yet, under an identifier no collector is after. *)
Definition fresh_content (md5 : string) (d : Database) : Prop :=
  (∀ i c, file_contents d !! i = Some c → c_hash_md5 c ≠ md5) ∧
  (- 2 ^ 63 <= file_contents_id_seq d < 2 ^ 63)%Z ∧
  find_job_by_dedupe_key (blob_gc_dedupe_key (file_contents_id_seq d)) d = None.

Lemma fresh_hashes md5 sha256 d : fresh_content md5 d → find_content_by_hashes md5 sha256 d = None.
Proof.
  intros (H & _). apply find_row_None. intros k c Hc. apply andb_false_iff. left.
  apply String.eqb_neq. by eapply H.
Qed.

Lemma acquire_works content d st cs : live st → fresh_content (nc_hash_md5 content) d →
  let i := file_contents_id_seq d in
  let c := mkContentRow (nc_hash_md5 content) (nc_hash_sha256 content) (nc_size content)
             (nc_storage_path content) (nc_mime_type content) 1 in
  AcquireReference content None (mkEnv d [] st cs) =
    (Ret (Ok (ToMetadata i c)),
     mkEnv (put_content i c (d <| file_contents_id_seq := (i + 1)%Z |>)) [] st cs).
Proof.
  intros Hlive Hf i c. pose proof (fresh_hashes _ (nc_hash_sha256 content) _ Hf) as Hnone.
  destruct Hf as (_ & Hseq & Hjob).
  assert (acquire_statement content d = Some (Some (ToMetadata i c),
    put_content i c (d <| file_contents_id_seq := (i + 1)%Z |>))) as Hq.
  { unfold acquire_statement. rewrite bigint_ok by done. cbn. by rewrite Hnone. }
  assert (CheckReferenceGate i (mkEnv (put_content i c (d <| file_contents_id_seq := (i + 1)%Z |>))
    [] st cs) = (Ret (Ok tt), mkEnv (put_content i c (d <| file_contents_id_seq := (i + 1)%Z |>))
    [] st cs)) as Hgate.
  { unfold CheckReferenceGate. apply catch_Ret.
    erewrite bind_Ret; [|unfold CheckBlobGcReferenceGate;
      rewrite (bind_Ret _ _ _ _ _ (query_live _ _ _ cs Hlive));
      change (find_job_by_dedupe_key ?k (put_content _ _ _)) with (find_job_by_dedupe_key k d);
      unfold i; rewrite Hjob; reflexivity].
    done. }
  unfold AcquireReference. apply catch_Ret.
  rewrite (bind_Ret _ _ _ _ _ (query_live _ _ _ cs Hlive)), Hnone. cbn.
  erewrite bind_result_Ok by reflexivity.
  rewrite (bind_Ret _ _ _ _ _ (exec_live _ _ _ cs _ _ Hlive Hq)). cbn [unexpected_content].
  by erewrite bind_result_Ok by exact Hgate.
Qed.

(** A name that is free in its folder, in a row the table can hold. *)
Definition insertable (f : FileRow) (d : Database) : Prop :=
  check_file f = true ∧ (- 2 ^ 63 <= files_id_seq d < 2 ^ 63)%Z ∧
  exists_row (file_named (f_user_id f) (f_folder_id f) (f_name f)) (files d) = false.

Lemma insert_works user content folder name ext size mime path d st cs :
  let f := mkFileRow user content folder name ext size mime path 0 0 (now d) (now d) in
  live st → insertable f d → is_Some (users d !! user) → is_Some (file_contents d !! content) →
  InsertFileRecord user content folder name ext size mime path (mkEnv d [] st cs) =
    (Ret (Ok (files_id_seq d, f)),
     mkEnv (put_file (files_id_seq d) f (d <| files_id_seq := (files_id_seq d + 1)%Z |>)) [] st cs).
Proof.
  intros f Hlive (Hc & Hseq & Hfree) Hu Hk.
  assert (insert_file_statement f d = Some (Some (files_id_seq d, f),
    put_file (files_id_seq d) f (d <| files_id_seq := (files_id_seq d + 1)%Z |>))) as Hq.
  { unfold insert_file_statement. rewrite bigint_ok by done. cbn -[check_file].
    rewrite Hc. cbn in Hfree. cbn. rewrite Hfree.
    rewrite (bool_decide_eq_true_2 _ Hu), (bool_decide_eq_true_2 _ Hk). done. }
  unfold InsertFileRecord.
  by erewrite bind_Ret by (apply exec_live; [exact Hlive|exact Hq]).
Qed.

(** The folder an upload goes to: the root, or a folder of the user that can count
    one more item. *)
Definition parent_ready (folder user : Z) (d : Database) (path : string) : Prop :=
  (folder = 0 ∧ path = "/")%Z ∨
  (0 < folder)%Z ∧ ∃ g, folders d !! folder = Some g ∧ d_user_id g = user ∧ path = d_path g ∧
    check_folder g = true ∧ (- 2 ^ 31 <= d_item_count g + 1 < 2 ^ 31)%Z ∧
    exists_row (λ i h, negb (i =? folder)%Z &&
      folder_named (d_user_id g) (d_parent_id g) (d_name g) i h) (folders d) = false.

Lemma location_works folder user d path st cs : live st → parent_ready folder user d path →
  ∃ loc, fl_path loc = path ∧
    ResolveOwnedFolderLocation folder user (mkEnv d [] st cs) =
      (Ret (Ok loc), mkEnv d [] st cs).
Proof.
  intros Hlive [[-> ->]|(Hf & g & Hg & Hu & -> & _)].
  - by exists root_location.
  - exists (mkFolderLocation (d_path g) (d_depth g)). split; [done|].
    unfold ResolveOwnedFolderLocation. rewrite (proj2 (Z.eqb_neq _ _)) by lia.
    apply catch_Ret. rewrite (bind_Ret _ _ _ _ _ (query_live _ _ _ cs Hlive)).
    unfold owned_folder. rewrite Hg. cbn. by rewrite Hu, Z.eqb_refl.
Qed.

Lemma item_count_works folder user d path date : parent_ready folder user d path →
  ∃ b fs, ∀ st cs, live st →
    (if (0 <? folder)%Z then ApplyItemCountDelta folder user 1 date else mret false)
      (mkEnv d [] st cs) = (Ret b, mkEnv (d <| folders := fs |>) [] st cs).
Proof.
  intros [[-> ->]|(Hf & g & Hg & Hu & -> & Hc & Hn & Hx)].
  - exists false, (folders d). intros. by destruct d.
  - rewrite (proj2 (Z.ltb_lt _ _) Hf).
    set (g' := modified_folder d
      (g <| d_item_count := Z.max (d_item_count g + 1) 0 |> <| d_updated_at := date |>)).
    exists true, (<[folder := g']> (folders d)). intros st cs Hlive.
    apply exec_live; [done|]. unfold update_folder, owned_folder. rewrite Hg. cbn.
    rewrite Hu, Z.eqb_refl. cbn -[check_folder exists_row int4].
    rewrite int4_ok by done. cbn -[check_folder exists_row]. fold g'.
    change (check_folder g') with (check_folder g). rewrite Hc. cbn [andb]. rewrite Hx. done.
Qed.

(** ** The transaction that makes the file *)

Section transaction.
Context (command : CompleteUploadCommand) (d : Database) (task : UploadTaskRow) (a : UserRow).
Context (content : NewContent) (session : UploadStagingSession) (path : string) (date : Z).

(** The row of the file. *)
Definition new_file : FileRow :=
  mkFileRow (cc_user_id command) (file_contents_id_seq d) (t_folder_id task) (t_filename task)
    (ExtractFileExtension (t_filename task)) (t_file_size task) ""
    (BuildFilePath path (t_filename task)) 0 0 (now d) (now d).

(** The account after it is charged for the file. *)
Definition charged : UserRow :=
  a <| u_storage_used := (u_storage_used a + t_file_size task)%Z |>
    <| u_storage_reserved := (u_storage_reserved a - t_file_size task)%Z |>.

Context (Hargs : valid_lease_args (cc_lease_owner command) (cc_lease_duration_seconds command))
  (Hduration : (0 < cc_lease_duration_seconds command < 2 ^ 31)%Z)
  (Hid : valid_upload_id (cc_upload_id command))
  (Hsession : ss_upload_id session = cc_upload_id command)
  (Ha : users d !! cc_user_id command = Some a) (Hsane : Account.sane a)
  (Hsize : (0 < t_file_size task <= u_storage_reserved a)%Z)
  (Hfresh : fresh_content (nc_hash_md5 content) d)
  (Hparent : parent_ready (t_folder_id task) (cc_user_id command) d path)
  (Hinsert : insertable new_file d).

Lemma charge_works s st cs : live st → users s = users d →
  CommitReservedToUsed (cc_user_id command) (t_file_size task) (mkEnv s [] st cs) =
    (Ret (Ok tt), mkEnv (put_account (cc_user_id command) charged s) [] st cs).
Proof.
  intros Hlive Hu.
  pose proof (account_run_works (Account.CommitRes (t_file_size task)) (cc_user_id command) s a st cs
    Hlive) as Hrun. rewrite Hu in Hrun. specialize (Hrun Ha Hsane).
  assert (Account.apply (Account.CommitRes (t_file_size task)) a = Some charged) as Happ.
  { unfold Account.apply. simpl. rewrite (proj2 (Z.eqb_neq _ _)), (proj2 (Z.leb_le _ _)) by lia.
    done. }
  unfold account_effect in Hrun. rewrite Happ in Hrun.
  apply Hrun. destruct Hsane as (? & ? & ?). simpl. lia.
Qed.

Lemma finalize_body_works v t3 :
  leased command d task v t3 → (v + 1 < 2 ^ 63 - 1)%Z →
  ∃ d', (∀ st cs, live st →
      finalize_body date command task session v content None
        (mkEnv (put_task (cc_upload_id command) t3 d) [] st cs) =
      (Ret (Ok (files_id_seq d, new_file)), mkEnv d' [] st cs)) ∧
    users d' = <[cc_user_id command := charged]> (users d) ∧
    files d' = <[files_id_seq d := new_file]> (files d) ∧
    (∀ i, upload_task_chunks d' !! (cc_upload_id command, i) = None) ∧
    ∃ i j, find_job_by_dedupe_key ("staging-cleanup:" ++ cc_upload_id command) d' = Some (i, j).
Proof.
  intros Hl Hv.
  destruct (renew_works command d task Hargs Hduration v t3 Hl ltac:(lia)) as (t4 & Hl4 & Hrenew).
  set (s4 := put_task (cc_upload_id command) t4 d) in *.
  set (c := mkContentRow (nc_hash_md5 content) (nc_hash_sha256 content) (nc_size content)
             (nc_storage_path content) (nc_mime_type content) 1).
  set (i := file_contents_id_seq d).
  set (s5 := put_content i c (s4 <| file_contents_id_seq := (i + 1)%Z |>)).
  assert (∀ st cs, live st → AcquireReference content None (mkEnv s4 [] st cs) =
    (Ret (Ok (ToMetadata i c)), mkEnv s5 [] st cs)) as Hacquire.
  { intros. by apply acquire_works. }
  set (s6 := put_file (files_id_seq d) new_file (s5 <| files_id_seq := (files_id_seq d + 1)%Z |>)).
  assert (∀ st cs, live st → InsertFileRecord (cc_user_id command) i (t_folder_id task)
      (t_filename task) (ExtractFileExtension (t_filename task)) (t_file_size task) ""
      (BuildFilePath path (t_filename task)) (mkEnv s5 [] st cs) =
    (Ret (Ok (files_id_seq d, new_file)), mkEnv s6 [] st cs)) as Hins.
  { intros st cs Hst. apply (insert_works _ _ _ _ _ _ _ _ s5 st cs Hst); [exact Hinsert| |].
    - change (users s5) with (users d). by rewrite Ha.
    - unfold s5, put_content. cbn. by rewrite lookup_insert_eq. }
  destruct (item_count_works (t_folder_id task) (cc_user_id command) s6 path date Hparent)
    as (b & fs & Hcount).
  set (s7 := s6 <| folders := fs |>) in *.
  set (s8 := put_account (cc_user_id command) charged s7).
  set (s9 := put_task (cc_upload_id command) (t4 <| t_status := UploadToStorageValue Completed |>
     <| t_completed_file_id := Some (files_id_seq d) |> <| t_finalized_at := Some (now d) |>
     <| t_lease_owner := None |> <| t_lease_expires_at := None |>
     <| t_state_version := (v + 1 + 1)%Z |>) s8).
  assert (valid_new_job (BuildStagingCleanupJob session)) as Hjob
    by (apply cleanup_job_valid; by rewrite Hsession).
  destruct (enqueue_statement_total _ s9 Hjob) as (r & s10 & Hq & _).
  set (s11 := s10 <| upload_task_chunks :=
    filter (λ kv, kv.1.1 ≠ cc_upload_id command) (upload_task_chunks s10) |>).
  destruct (insert_job_tables _ _ _ _ _ Hq) as (Eu & _ & Ef & _).
  exists s11. split_and!.
  - intros st cs Hst. unfold finalize_body.
    rewrite (bind_result_Ok _ _ _ _ _ (Hrenew st cs Hst)).
    rewrite (bind_result_Ok _ _ _ _ _ (Hacquire st cs Hst)).
    destruct (location_works (t_folder_id task) (cc_user_id command) s5 path st cs Hst Hparent)
      as (loc & <- & Hloc).
    rewrite (bind_result_Ok _ _ _ _ _ Hloc).
    rewrite (bind_result_Ok _ _ _ _ _ (Hins st cs Hst)).
    rewrite (bind_Ret _ _ _ _ _ (Hcount st cs Hst)).
    rewrite (bind_result_Ok _ _ _ _ _ (charge_works s7 st cs Hst eq_refl)).
    rewrite (bind_Ret _ _ _ _ _ (complete_works command d task (v + 1) (files_id_seq d) t4 s8 st cs
      Hl4 ltac:(lia) Hst (put_task_eq _ _ _) eq_refl)). cbn [negb].
    fold s9.
    erewrite bind_Ret; [|unfold Enqueue; rewrite (bind_Ret _ _ _ _ _ (ValidateNewJob_valid _ _ Hjob));
      rewrite (bind_Ret _ _ _ _ _ (exec_live _ _ _ cs _ _ Hst Hq)); reflexivity].
    assert (delete_chunks_statement (cc_upload_id command) s10 = Some (tt, s11)) as Hd by done.
    unfold DeleteChunks. by rewrite (bind_Ret _ _ _ _ _ (exec_live _ _ _ cs _ _ Hst Hd)).
  - change (users s11) with (users s10). by rewrite Eu.
  - change (files s11) with (files s10). by rewrite Ef.
  - intros k. apply map_lookup_filter_None. right. intros x _. cbn. by intros [].
  - change (storage_jobs s11) with (storage_jobs s10).
    destruct (enqueue_statement_finds _ _ _ _ Hq) as (x & y & Hf). exists x, y.
    cbn in Hf. rewrite Hsession in Hf. exact Hf.
Qed.
End transaction.

Lemma find_one_none {K V} `{Countable K} (P : K → V → bool) (m : gmap K V) :
  (∀ k v, m !! k = Some v → P k v = false) → find_one P m = None.
Proof.
  intros HP. unfold find_one. destruct (List.filter _ _) as [|[k v] l] eqn:E; [done|].
  assert (List.In (k, v) (List.filter (λ kv, P kv.1 kv.2) (map_to_list m))) as Hin
    by (rewrite E; by left).
  apply List.filter_In in Hin as [Hin Hp]. apply list_elem_of_In, elem_of_map_to_list, HP in Hin.
  cbn in Hp. congruence.
Qed.

(** ** The whole request *)

(** The staging area and the chunks of an upload, as the assembler gets them. *)
Definition session_of (id : string) (t : UploadTaskRow) : UploadStagingSession :=
  mkUploadStagingSession id
    (default StagingLocal (ParseUploadStagingBackend (t_staging_backend t))) (staging_prefix_of t).

Definition chunk_descriptors (id : string) (d : Database) : list UploadStagingChunk :=
  (λ kv, mkUploadStagingChunk (u32 kv.1.2) (default 0%Z (k_size_bytes kv.2))
           (default "" (k_hash_md5 kv.2)) (default "" (k_object_key kv.2))
           (default "" (k_etag kv.2))) <$> chunk_rows id d.

(** The calls of a completion that goes well. *)
Definition assemble_call (id : string) (t : UploadTaskRow) (d : Database) : StorageCall :=
  CallAssembleChunks (session_of id t) (t_state_version t + 1) (u32 (t_total_chunks t))
    (chunk_descriptors id d).

(** An upload that can be completed: it is under way with all its chunks, its books are
    in order, its name is free in a folder of the user, its content is not stored
    yet, and the stores do their part. *)
Record completable (registry : string → UploadIdentity) (refs_held : TrashRow → Z → Z)
    (storage : UploadStagingStorage) (blobs : IBlobStore) (command : CompleteUploadCommand)
    (d : Database) (cs : list StorageCall) (t : UploadTaskRow) (a : UserRow)
    (assembled : UploadStagingAssembly) (path blob : string) : Prop := {
  cp_lease : valid_lease_args (cc_lease_owner command) (cc_lease_duration_seconds command) ∧
    (0 < cc_lease_duration_seconds command < 2 ^ 31)%Z;
  cp_books : ledger registry refs_held d ∧
    (∀ i t, upload_tasks d !! i = Some t → check_upload_task t = true);
  cp_id : valid_upload_id (cc_upload_id command);
  cp_task : upload_tasks d !! cc_upload_id command = Some t ∧ t_user_id t = cc_user_id command ∧
    t_status t = UploadToStorageValue InProgress ∧ (now d <= t_expires_at t)%Z;
  cp_chunks : chunks_complete (cc_upload_id command) (t_total_chunks t) d = true;
  cp_counters : (t_state_version t + 4 < 2 ^ 63 - 1)%Z ∧ (t_finalize_attempts t < 2 ^ 31 - 1)%Z;
  cp_account : users d !! cc_user_id command = Some a ∧ Account.sane a ∧ (0 < t_file_size t)%Z;
  cp_assembled : AssembleChunks storage cs (session_of (cc_upload_id command) t)
    (t_state_version t + 1) (u32 (t_total_chunks t))
    (chunk_descriptors (cc_upload_id command) d) = Ok assembled ∧
    sa_size_bytes assembled = u64 (t_file_size t) ∧ sa_md5_hash assembled = t_file_hash t;
  cp_promoted : PromoteToFinal blobs (cs ++ [assemble_call (cc_upload_id command) t d])%list
    assembled (sa_sha256_hash assembled) = Ok blob;
  cp_content : fresh_content (t_file_hash t) d;
  cp_parent : parent_ready (t_folder_id t) (cc_user_id command) d path;
  cp_name : insertable (new_file command d t path) d
}.

Section completion.
Context (registry : string → UploadIdentity) (refs_held : TrashRow → Z → Z)
  (storage : UploadStagingStorage) (blobs : IBlobStore) (command : CompleteUploadCommand)
  (d : Database) (cs : list StorageCall) (t : UploadTaskRow) (a : UserRow)
  (assembled : UploadStagingAssembly) (path blob : string) (sha : string → string) (date : Z).
Context (H : completable registry refs_held storage blobs command d cs t a assembled path blob).

Notation id := (cc_upload_id command).

(** What a completion that goes well leaves and answers. *)
Definition completes (m : M Database (Result CompleteUploadOutcome)) (e : Env Database)
    (more : list StorageCall) : Prop :=
  ∃ d', m e = (Ret (Ok (mkCompleteUploadOutcome
        (Some (ToLifecycleFileItem (files_id_seq d, new_file command d t path) (t_file_hash t)))
        (invalidate [id] [t_folder_id t]))),
      mkEnv d' [] AutoCommit (calls e ++ more)%list) ∧
    users d' = <[cc_user_id command := charged t a]> (users d) ∧
    files d' = <[files_id_seq d := new_file command d t path]> (files d) ∧
    (∀ i, upload_task_chunks d' !! (id, i) = None) ∧
    (∃ i j, find_job_by_dedupe_key ("staging-cleanup:" ++ id) d' = Some (i, j)) ∧
    result_recorded command (t_file_hash t) (files_id_seq d, new_file command d t path) d'.

Lemma same_file task : same_identity t task → new_file command d task path = new_file command d t path.
Proof. intros (_ & E1 & E2 & E3 & _). unfold new_file. by rewrite E1, E2, E3. Qed.

Lemma same_charge task : same_identity t task → charged task a = charged t a.
Proof. intros (_ & _ & _ & E & _). unfold charged. by rewrite E. Qed.

Lemma reservation_covers : (0 < t_file_size t <= u_storage_reserved a)%Z.
Proof.
  destruct H as [_ [Hledger Hcheck] _ (Ht & Hu & Hst & _) _ _ (Ha & _ & Hsize) _ _ _ _ _].
  split; [done|]. rewrite <- Hu in Ha.
  pose proof Hledger as (((Hk & _) & _) & _). destruct (Hk _ _ Ht) as (_ & E1 & E2).
  rewrite E1, <- E2. eapply ledger_covers; [done..| |done]. apply active_status. by left.
Qed.

Lemma live_auto : live (S:=Database) AutoCommit.
Proof. by intros ?. Qed.

Lemma live_tx (s : Database) : live (InTx s false).
Proof. by intros ?. Qed.

Lemma commit_completes task v t2 h :
  same_identity t task → leased command d task v t2 → (v + 2 < 2 ^ 63 - 1)%Z →
  completes (commit_upload date command task (session_of id t) v
    (mkNewContent (sa_md5_hash assembled) (sa_sha256_hash assembled) (u64 (t_file_size task)) blob "")
    None) (mkEnv (put_task id t2 d) [] AutoCommit h) [].
Proof.
  intros Hsame Hl Hv. pose proof reservation_covers as Hcovers. destruct H as
    [[Hargs Hdur] _ Hid _ _ _ (Ha & Hsane & _) (_ & _ & Hmd5) _ Hfresh Hparent Hname].
  set (content := mkNewContent _ _ _ _ _).
  destruct (renew_works command d task Hargs Hdur v t2 Hl ltac:(lia)) as (t3 & Hl3 & Hrenew).
  rewrite <- Hmd5 in Hfresh. pose proof Hsame as (_ & E1 & _ & E3 & _).
  rewrite <- E3 in Hcovers. rewrite <- E1 in Hparent. rewrite <- (same_file task Hsame) in Hname.
  destruct (finalize_body_works command d task a content (session_of id t) path date Hargs Hdur Hid
    eq_refl Ha Hsane Hcovers Hfresh Hparent Hname (v + 1) t3 Hl3 ltac:(lia))
    as (d' & Hbody & Hus & Hf & Hch & Hjob).
  rewrite (same_file task Hsame) in Hbody, Hf. rewrite (same_charge task Hsame) in Hus.
  exists d'. split_and!; [|done..|].
  - unfold commit_upload. rewrite (bind_result_Ok _ _ _ _ _ (Hrenew AutoCommit h live_auto)).
    erewrite bind_Ret by (apply Run_works, Hbody, live_tx). cbn [calls]. by rewrite app_nil_r, <- Hmd5.
  - rewrite <- Hmd5. apply (finalize_body_records date command task (session_of id t) (v + 1) content
      None (put_task id t3 d)). apply Hbody, live_tx.
Qed.

Lemma place_completes task v t2 h :
  same_identity t task → leased command d task v t2 → (v + 2 < 2 ^ 63 - 1)%Z →
  PromoteToFinal blobs h assembled (sa_sha256_hash assembled) = Ok blob →
  completes (place_content date (Some blobs) command task (session_of id t) storage v assembled None)
    (mkEnv (put_task id t2 d) [] AutoCommit h)
    [CallPromoteToFinal assembled (sa_sha256_hash assembled)].
Proof.
  intros Hsame Hl Hv Hp. unfold place_content. cbn.
  destruct (commit_completes task v t2 (h ++ [CallPromoteToFinal assembled (sa_sha256_hash assembled)])
    Hsame Hl Hv) as (d' & Hr & Hrest).
  exists d'. split; [|done].
  erewrite bind_Ret by reflexivity. cbn [calls]. rewrite Hp. cbn [calls] in Hr.
  rewrite app_nil_r in Hr. exact Hr.
Qed.

(** The lookups before the blob is placed find no such content and no such file. *)
Lemma lookup_completes task t2 h : same_identity t task →
  finalize_lookup command task (sa_md5_hash assembled)
    (mkEnv (put_task id t2 d) [] AutoCommit h) =
  (Ret (None, false), mkEnv (put_task id t2 d) [] AutoCommit h).
Proof.
  intros (_ & E1 & E2 & _). destruct H as
    [_ _ _ _ _ _ _ (_ & _ & Hmd5) _ (Hfresh & _) _ (_ & _ & Hname)].
  unfold finalize_lookup.
  erewrite bind_Ret; [|unfold FindByMd5; apply catch_Ret;
    rewrite (bind_Ret _ _ _ _ _ (query_works _ _ h)); reflexivity].
  erewrite bind_Ret; [|apply catch_Ret, query_works].
  change (files (put_task id t2 d)) with (files d).
  change (file_contents (put_task id t2 d)) with (file_contents d).
  rewrite find_one_none by (intros k c Hc; apply String.eqb_neq; rewrite Hmd5; by eapply Hfresh).
  rewrite E1, E2. change (exists_row (file_named (cc_user_id command) (t_folder_id t) (t_filename t))
    (files d) = false) in Hname. by rewrite Hname.
Qed.

Lemma verify_completes task v t1 h :
  same_identity t task → leased command d task v t1 → (v + 3 < 2 ^ 63 - 1)%Z →
  PromoteToFinal blobs h assembled (sa_sha256_hash assembled) = Ok blob →
  completes (verify_assembly date (Some blobs) command task (session_of id t) storage v assembled)
    (mkEnv (put_task id t1 d) [] AutoCommit h)
    [CallPromoteToFinal assembled (sa_sha256_hash assembled)].
Proof.
  intros Hsame Hl Hv Hp. pose proof (cp_lease _ _ _ _ _ _ _ _ _ _ _ _ H) as [Hargs Hdur].
  pose proof (cp_assembled _ _ _ _ _ _ _ _ _ _ _ _ H) as (_ & Hs & Hm).
  destruct (renew_works command d task Hargs Hdur v t1 Hl ltac:(lia)) as (t2 & Hl2 & Hrenew).
  destruct (place_completes task (v + 1) t2 h Hsame Hl2 ltac:(lia) Hp) as (d' & Hr & Hrest).
  exists d'. split; [|done]. unfold verify_assembly.
  rewrite (bind_Ret _ _ _ _ _ (Hrenew AutoCommit h live_auto)).
  assert (integrity_ok task assembled = true) as ->.
  { destruct Hsame as (_ & _ & _ & E3 & E4 & _). unfold integrity_ok.
    by rewrite E3, E4, Hs, Hm, Z.eqb_refl, String.eqb_refl. }
  cbn [negb]. by rewrite (bind_Ret _ _ _ _ _ (lookup_completes task t2 h Hsame)).
Qed.

Lemma assemble_completes task v t1 :
  same_identity t task → leased command d task v t1 → v = (t_state_version t + 1)%Z →
  completes (assemble sha date (Some blobs) command task (session_of id t) storage v
      (chunk_descriptors id d))
    (mkEnv (put_task id t1 d) [] AutoCommit cs)
    [assemble_call id t d; CallPromoteToFinal assembled (sa_sha256_hash assembled)].
Proof.
  intros Hsame Hl ->.
  pose proof (cp_assembled _ _ _ _ _ _ _ _ _ _ _ _ H) as (Ha & _).
  pose proof (cp_counters _ _ _ _ _ _ _ _ _ _ _ _ H) as [Hv _].
  pose proof Hsame as (_ & _ & _ & _ & _ & _ & E & _).
  destruct (verify_completes task (t_state_version t + 1) t1 (cs ++ [assemble_call id t d]) Hsame Hl
    ltac:(lia) (cp_promoted _ _ _ _ _ _ _ _ _ _ _ _ H)) as (d' & Hr & Hrest).
  exists d'. split; [|done]. unfold assemble. rewrite E.
  erewrite bind_Ret by reflexivity. cbn [calls]. rewrite Ha. cbn [calls] in Hr.
  rewrite <- app_assoc in Hr. exact Hr.
Qed.

Lemma finalize_completes t1 :
  leased command d t1 (t_state_version t + 1) t1 → same_identity t t1 →
  completes (finalize_upload sha date (Some storage) (Some blobs) command (t_state_version t + 1))
    (mkEnv (put_task id t1 d) [] AutoCommit cs)
    [assemble_call id t d; CallPromoteToFinal assembled (sa_sha256_hash assembled)].
Proof.
  intros Hl Hsame. destruct (assemble_completes t1 _ t1 Hsame Hl eq_refl) as (d' & Hr & Hrest).
  exists d'. split; [|done]. unfold finalize_upload.
  pose proof Hl as (_ & Hu & _ & _ & _ & _ & Hc).
  assert ((x ← upload_tasks (put_task id t1 d) !! id;
    if (t_user_id x =? cc_user_id command)%Z then Some x else None) = Some t1) as Hfind.
  { rewrite put_task_eq. cbn. by rewrite Hu, Z.eqb_refl. }
  erewrite bind_Ret; [|unfold FindByIdForUser; apply catch_Ret, query_works].
  rewrite Hfind. cbv beta iota.
  assert (FindStagingSessionForUser id (cc_user_id command)
      (mkEnv (put_task id t1 d) [] AutoCommit cs) =
    (Ret (Some (session_of id t)), mkEnv (put_task id t1 d) [] AutoCommit cs)) as Hsession.
  { unfold FindStagingSessionForUser. rewrite (bind_Ret _ _ _ _ _ (query_works _ _ cs)), Hfind.
    apply check_upload_task_true in Hc as (_ & Hb & _).
    destruct Hsame as (_ & _ & _ & _ & _ & _ & _ & _ & E1 & E2 & _).
    unfold session_of. rewrite <- E1, <- E2. by destruct Hb as [-> | ->]. }
  erewrite bind_Ret by (apply catch_Ret, Hsession). cbv beta iota.
  erewrite bind_Ret; [|apply catch_Ret; unfold ListChunksForAssembly;
    rewrite (bind_Ret _ _ _ _ _ (query_works _ _ cs)); reflexivity].
  exact Hr.
Qed.

Lemma leased_refl v t1 : leased command d t v t1 → leased command d t1 v t1.
Proof. intros (_ & ?). split; [by repeat split|done]. Qed.

Lemma request_completes :
  completes (CompleteUpload sha date (Some storage) (Some blobs) command) (mkEnv d [] AutoCommit cs)
    [assemble_call id t d; CallPromoteToFinal assembled (sa_sha256_hash assembled)].
Proof.
  destruct H as [[Hargs Hdur] [_ Hcheck] _ (Ht & Hu & Hst & Hnow) Hchunks [Hv Hf] _ _ _ _ _ _].
  destruct (claim_works command d t Hargs Hdur Ht Hu Hst Hnow Hchunks (Hcheck _ _ Ht))
    as (t1 & Hl & Hclaim); [split; lia|].
  destruct (finalize_completes t1 (leased_refl _ _ Hl) (proj1 Hl)) as (d' & Hr & Hrest).
  exists d'. split; [|done]. unfold CompleteUpload.
  erewrite bind_result_Ok; [|unfold catch_all; apply catch_Ret;
    rewrite (bind_Ret _ _ _ _ _ (Hclaim cs)); reflexivity].
  exact Hr.
Qed.
End completion.

(** ** Properties *)

(** C18: an upload that is [completable] completes.  That is: lease arguments and upload
    identifier are valid; the books are exact and the tasks satisfy their constraints; the task
    is the user's, in progress, unexpired, not empty, with all chunks recorded; counters, totals
    and the next identifiers stay in range; no content with its hash is stored yet and no
    collector job waits under the new content's identifier; the folder is the root or a folder
    of the user with a valid row, alone under its name, that can count one item more; the file's
    name is free there and its row valid; the stores assemble the announced size and hash and
    promote it.  Run while no other session interferes and no statement fails, the request
    answers with the new file after one assembly and one promotion; the user is charged its
    size out of the reservation, the task is completed with that file as its result, its chunks
    are gone and a job will clean the staging area. *)
Theorem complete_uploads_complete registry refs_held storage blobs command d cs t a assembled path
    blob sha date :
  completable registry refs_held storage blobs command d cs t a assembled path blob →
  let file := new_file command d t path in
  ∃ d', CompleteUpload sha date (Some storage) (Some blobs) command (mkEnv d [] AutoCommit cs) =
      (Ret (Ok (mkCompleteUploadOutcome
         (Some (ToLifecycleFileItem (files_id_seq d, file) (t_file_hash t)))
         (invalidate [cc_upload_id command] [t_folder_id t]))),
       mkEnv d' [] AutoCommit (cs ++ [assemble_call (cc_upload_id command) t d;
         CallPromoteToFinal assembled (sa_sha256_hash assembled)])%list) ∧
    users d' = <[cc_user_id command := charged t a]> (users d) ∧
    files d' = <[files_id_seq d := file]> (files d) ∧
    (∀ i, upload_task_chunks d' !! (cc_upload_id command, i) = None) ∧
    (∃ i j, find_job_by_dedupe_key ("staging-cleanup:" ++ cc_upload_id command) d' = Some (i, j)) ∧
    ∃ t', upload_tasks d' !! cc_upload_id command = Some t' ∧
      t_status t' = UploadToStorageValue Completed ∧ t_completed_file_id t' = Some (files_id_seq d).
Proof.
  intros H file. destruct (request_completes _ _ _ _ _ _ _ _ _ _ _ _ sha date H)
    as (d' & Hr & Hu & Hf & Hc & Hj & _ & t' & Ht & _ & Hs & Hres).
  exists d'. split; [exact Hr|]. split_and!; try done. by exists t'.
Qed.

(** ** Witnesses *)

Definition example_assembled : UploadStagingAssembly :=
  mkUploadStagingAssembly StagingLocal "up-1/assembled" 10 example_hash "sha256".

Lemma example_task_only id t :
  upload_tasks example_db !! id = Some t → "up-1" = id ∧ example_task = t.
Proof.
  intros H. change (({["up-1" := example_task]} : gmap _ _) !! id = Some t) in H.
  by apply lookup_singleton_Some in H.
Qed.

Lemma example_db_ledger : ledger example_registry (λ _ _, 0%Z) example_db.
Proof.
  split_and!.
  - split; [split|split].
    + intros id t [_ <-]%example_task_only. done.
    + intros i j t t' [<- _]%example_task_only [<- _]%example_task_only. done.
    + intros i f Hf. change ((∅ : gmap Z FileRow) !! i = Some f) in Hf.
      by apply lookup_empty_Some in Hf.
    + intros i f Hf. change ((∅ : gmap Z ContentRow) !! i = Some f) in Hf.
      by apply lookup_empty_Some in Hf.
  - intros user a Ha. change (({[ 7%Z := mkUserRow 100 0 10 ]} : gmap _ _) !! user = Some a) in Ha.
    apply lookup_singleton_Some in Ha as [<- <-]. split; reflexivity.
  - intros content. reflexivity.
Qed.

Lemma example_completable : completable example_registry (λ _ _, 0%Z) example_storage example_blobs
  example_command example_db [] example_task (mkUserRow 100 0 10) example_assembled "/"
  "blobs/sha256".
Proof.
  split.
  - split; [|done]. split_and!; done.
  - split; [exact example_db_ledger|]. intros i t [_ <-]%example_task_only. reflexivity.
  - split; [done|vm_compute; discriminate].
  - split_and!; (reflexivity || vm_compute; discriminate).
  - vm_compute. reflexivity.
  - cbn. lia.
  - split_and!; [reflexivity|unfold Account.sane; cbn; lia|reflexivity].
  - split_and!; vm_compute; reflexivity.
  - reflexivity.
  - split_and!; [|vm_compute; discriminate|reflexivity|reflexivity].
    intros i c Hc. change ((∅ : gmap Z ContentRow) !! i = Some c) in Hc.
    by apply lookup_empty_Some in Hc.
  - by left.
  - split_and!; (vm_compute; (reflexivity || discriminate)).
Qed.

Lemma complete_uploads_complete_witness :
  ∃ outcome d', CompleteUpload (λ s, s) 1000 (Some example_storage) (Some example_blobs)
      example_command (mkEnv example_db [] AutoCommit []) =
    (Ret (Ok outcome), mkEnv d' [] AutoCommit
      [assemble_call "up-1" example_task example_db; CallPromoteToFinal example_assembled "sha256"]) ∧
    users d' !! 7%Z = Some (mkUserRow 100 10 0).
Proof.
  destruct (complete_uploads_complete _ _ _ _ _ _ _ _ _ _ _ _ (λ s, s) 1000%Z example_completable)
    as (d' & Hr & Hu & _).
  eexists _, d'. split; [exact Hr|]. rewrite Hu. vm_compute. reflexivity.
Defined.
