(* ===== verification/CopyBooks.v ===== *)
(** * The books and copies

    [FileMutationService::Copy] reserves the size of everything it is going to copy,
    and accounts for it piece by piece.  While it runs the reserved bytes of the user
    exceed those of the uploads under way by what is still to come; when it is done
    the books of [Accounting.v] are exact. *)

From S2P Require Import Prelude Errors Storage Db Rely UploadState Json Schema Batch Names Quota.
From S2P Require Import StorageJobs Content Files Folders DeletePlans FolderService Trash.
From S2P Require Import FileMutations FileCopies Accounting.

Local Open Scope Z_scope.

(** ** Sizes *)

Definition zsize (files : list file_row) : Z := zsum ((λ f : file_row, f_size f.2) <$> files).

Definition sized (files : list file_row) : Prop := Forall (λ f : file_row, 0 <= f_size f.2) files.

Lemma zsize_nonneg files : sized files → 0 <= zsize files.
Proof. intros H. apply zsum_nonneg, Forall_fmap. exact H. Qed.

Lemma zsize_cons f files : zsize (f :: files) = f_size f.2 + zsize files.
Proof. done. Qed.

Lemma zsize_app l k : zsize (l ++ k)%list = zsize l + zsize k.
Proof. unfold zsize. by rewrite fmap_app, zsum_app. Qed.

Lemma add_sizes_exact t files : sized files → 0 <= t → t + zsize files < 2 ^ 64 →
  add_sizes t files = t + zsize files.
Proof.
  intros H. revert t. induction H as [|f files Hf H IH]; intros t Ht Hlt.
  - unfold zsize. simpl. lia.
  - rewrite zsize_cons in *. pose proof (zsize_nonneg _ H).
    unfold add_sizes. simpl. rewrite u64_small by lia. fold (add_sizes (t + f_size f.2) files).
    rewrite IH by lia. lia.
Qed.

(** The items picked and those skipped make up the whole. *)
Lemma pick_items_exact occupied files k items skipped : sized files → 0 <= k →
  k + zsize files < 2 ^ 64 → pick_items occupied files k = (items, skipped) →
  sublist items files ∧ skipped = k + zsize files - zsize items ∧ 0 <= zsize items ∧ k <= skipped.
Proof.
  intros H. revert occupied k items skipped.
  induction H as [|f files Hf H IH]; intros occupied k items skipped Hk Hlt; simpl.
  - intros [= <- <-]. unfold zsize. simpl. split_and!; [constructor|lia..].
  - rewrite zsize_cons in *. pose proof (zsize_nonneg _ H). case_bool_decide.
    + rewrite u64_small by lia. intros Hp.
      apply IH in Hp as (? & -> & ? & ?); [|lia..]. split_and!; [by constructor|lia..].
    + destruct (pick_items _ files k) as [items' skipped'] eqn:E. intros [= <- <-].
      apply IH in E as (? & -> & ? & ?); [|lia..].
      rewrite zsize_cons. split_and!; [by constructor|lia..].
Qed.

Lemma sized_sublist l k : sublist l k → sized k → sized l.
Proof.
  induction 1 as [|x l k Hs IH|x l k Hs IH]; [done|..]; intros [? ?]%Forall_cons.
  - constructor; [done|by apply IH].
  - by apply IH.
Qed.

(** Filtering splits the size. *)
Lemma zsize_filter (b : file_row → bool) files :
  zsize (List.filter b files) + zsize (List.filter (λ f, negb (b f)) files) = zsize files.
Proof.
  induction files as [|f files IH]; [done|]. simpl. destruct (b f); simpl;
    rewrite !zsize_cons; rewrite <- IH; lia.
Qed.

Lemma filter_sublist {A} (b : A → bool) l : sublist (List.filter b l) l.
Proof. induction l; simpl; [constructor|]. by case_match; constructor. Qed.

Lemma filter_full {A} (b : A → bool) l : length (List.filter b l) = length l →
  ∀ x, x ∈ l → b x = true.
Proof.
  induction l as [|y l IH]; simpl; [by intros _ ? ?%elem_of_nil|].
  pose proof (List.filter_length_le b l). destruct (b y) eqn:E; simpl; [|lia].
  intros [= Hl] x [->|Hx]%elem_of_cons; [done|by apply IH].
Qed.

(** The references of a list of files, by content. *)
Definition content_ids (files : list file_row) : list Z := (λ f : file_row, f_content_id f.2) <$> files.

Lemma occurrences_ids x f files : occurrences x (content_ids (f :: files)) =
  (if f_content_id f.2 =? x then 1 else 0) + occurrences x (content_ids files).
Proof. done. Qed.

Lemma content_refs_from (refs : gmap Z Z) files c :
  Z.of_nat (length files) + default 0 (refs !! c) < 2 ^ 64 → (∀ c, 0 <= default 0 (refs !! c)) →
  default 0 (foldl (λ (refs : gmap Z Z) (f : file_row),
    <[f_content_id f.2 := u64 (default 0 (refs !! f_content_id f.2) + 1)]> refs) refs files !! c) =
  default 0 (refs !! c) + occurrences c (content_ids files).
Proof.
  revert refs. induction files as [|f files IH]; intros refs Hlt Hpos; cbn [foldl].
  - unfold occurrences. simpl. lia.
  - rewrite occurrences_ids. rewrite length_cons in Hlt.
    destruct (Z.eqb_spec (f_content_id f.2) c) as [<-|Hne].
    + pose proof (Hpos (f_content_id f.2)).
      rewrite IH; rewrite ?lookup_insert_eq; simpl; rewrite ?u64_small by lia; [lia|lia|].
      intros c. destruct (decide (c = f_content_id f.2)) as [->|].
      * rewrite lookup_insert_eq. simpl. lia.
      * by rewrite lookup_insert_ne.
    + rewrite IH; rewrite ?lookup_insert_ne by done; [lia|lia|].
      intros c'. destruct (decide (c' = f_content_id f.2)) as [->|].
      * rewrite lookup_insert_eq. simpl. apply Z.mod_pos_bound. lia.
      * by rewrite lookup_insert_ne.
Qed.

Lemma content_refs_exact files c : Z.of_nat (length files) < 2 ^ 64 →
  delta_of (content_refs files) c = occurrences c (content_ids files).
Proof.
  intros H. unfold delta_of, content_refs. rewrite content_refs_from.
  - rewrite lookup_empty. simpl. lia.
  - rewrite lookup_empty. simpl. lia.
  - intros c'. by rewrite lookup_empty.
Qed.

(** ** Reservations held by a copy *)

Section books.
Context (registry : string → UploadIdentity) (refs_held : TrashRow → Z → Z) (u : Z).
Notation off := (off registry refs_held).

(** The books, but for [n] bytes the copy has reserved. *)
Definition held (n : Z) : Database → Prop := off (add zero u n) zero zero.

Lemma held_exact s : held 0 s ↔ ledger registry refs_held s.
Proof.
  unfold held, ledger. split; intros H; (eapply off_ext; [exact H|..]); try done;
    intros x; unfold add, zero; by case_match.
Qed.

(** The references are counted. *)
Lemma off_increments incs existing snap s ids s' r v c :
  runs (IncrementRefCountsChecked incs existing) snap s (Ok ids) s' → off r v c s →
  off r v (λ x, c x + if decide (x ∈ ids) then delta_of incs x else 0) s'.
Proof.
  unfold IncrementRefCountsChecked. destruct (decide _) as [E|E].
  - intros [[= ->] ->]%runs_ret H. eapply off_ext; [exact H|done|done|].
    intros x. rewrite decide_False by set_solver. lia.
  - rewrite runs_catch_db by solve_tx_body. intros H Hoff. run_bind H locked t H1.
    apply runs_query in H1 as [-> ->]. destruct (negb _) eqn:Hn; [by apply runs_ret in H as [? _]|].
    run_bind_result H w t H1.
    assert (t = s) as ->.
    { clear -H1. revert s w H1. induction (valid_content_ids incs existing) as [|i l IH]; intros s w;
        simpl; [by intros [_ ->]%runs_ret|].
      intros H. run_bind_result H y t' H1. apply runs_gate in H1 as ->. by eapply IH. }
    run_bind H rows t H2. apply runs_exec in H2.
    destruct (negb (rows =? _)); [by apply runs_ret in H as [? _]|]. apply runs_ret in H as [[= ->] ->].
    assert (NoDup (valid_content_ids incs existing)) as Hnd.
    { unfold valid_content_ids. rewrite order_by_perm. apply NoDup_ListNoDup, List.NoDup_filter,
        NoDup_ListNoDup, CollectContentIds_NoDup. }
    destruct (update_ref_counts_Some _ _ _ _ _ Hnd H2) as (Hframe & Hout & Hin).
    assert (∀ id, id ∈ valid_content_ids incs existing → is_Some (file_contents s !! id)) as Hreal.
    { apply negb_false_iff, Z.eqb_eq, Nat2Z.inj in Hn. intros id Hid.
      pose proof (filter_full _ _ Hn id Hid) as Hb. by apply bool_decide_eq_true in Hb. }
    eapply off_contents; [exact Hoff|by rewrite Hframe..| |].
    + intros id [row Hrow]. destruct (decide (id ∈ valid_content_ids incs existing)) as [Hi|Hi];
        [by apply Hreal|]. rewrite Hout in Hrow by done. eauto.
    + intros id. unfold stored_refs. destruct (decide (id ∈ _)) as [Hi|Hi].
      * apply elem_of_list_to_set in Hi. destruct (Hreal _ Hi) as [row Hrow].
        destruct (Hin _ _ Hi Hrow) as (m & [-> _]%int4_Some & ->). rewrite Hrow. done.
      * rewrite elem_of_list_to_set in Hi. rewrite Hout by done. lia.
Qed.

(** Rows are inserted. *)
Lemma off_insert_row f s row s' r v c : insert_file f s = Some (row, s') → off r v c s →
  off r (add v (f_user_id f) (- f_size f)) (add c (f_content_id f) (-1)) s'.
Proof.
  unfold insert_file. intros ([res t] & H & Hres)%bind_Some Hoff. destruct res as [[i g]|]; [|done].
  injection Hres as _ <-. by destruct (off_insert_file _ _ _ _ _ _ _ _ _ H Hoff) as (_ & _ & ?).
Qed.

(** The files [files] of the user are no longer missing from the books. *)
Definition entered (v c : Z → Z) (files : list file_row) : (Z → Z) * (Z → Z) :=
  (λ x, v x - if x =? u then zsize files else 0, λ x, c x - occurrences x (content_ids files)).

Lemma off_entered_cons r v c f files s :
  off r (add v u (- f_size f.2)) (add c (f_content_id f.2) (-1)) s →
  (∀ s', off r (add v u (- f_size f.2)) (add c (f_content_id f.2) (-1)) s →
    off r (entered (add v u (- f_size f.2)) (add c (f_content_id f.2) (-1)) files).1
      (entered (add v u (- f_size f.2)) (add c (f_content_id f.2) (-1)) files).2 s' →
    off r (entered v c (f :: files)).1 (entered v c (f :: files)).2 s').
Proof.
  intros _ s' _ H. eapply off_ext; [exact H|done|..]; intros x; unfold entered, add; cbn [fst snd].
  - rewrite zsize_cons. destruct (x =? u); lia.
  - rewrite occurrences_ids, (Z.eqb_sym x). destruct (_ =? x); lia.
Qed.

Lemma off_insert_copies target path files s ids s' r v c :
  insert_copies u target path files s = Some (ids, s') → off r v c s →
  length ids = length files ∧ off r (entered v c files).1 (entered v c files).2 s'.
Proof.
  revert s ids v c. induction files as [|f files IH]; intros s ids v c; cbn [insert_copies].
  - intros [= <- <-] H. split; [done|]. eapply off_ext; [exact H|done|..]; intros x; simpl.
    + unfold zsize. simpl. by case_match; lia.
    + unfold occurrences. simpl. lia.
  - intros ([row t] & Hrow & H)%bind_Some Hoff. apply bind_Some in H as ([ids' t'] & H & [= <- <-]).
    apply (off_insert_row _ _ _ _ _ _ _ Hrow) in Hoff. cbn in Hoff.
    destruct (IH _ _ _ _ H Hoff) as [El Hoff']. split; [simpl; by rewrite El|].
    by eapply off_entered_cons.
Qed.

Lemma off_copy_files date files copied maps snap s maps' s' r v c :
  runs (copy_files date u files copied maps) snap s maps' s' → off r v c s →
  off r (entered v c files).1 (entered v c files).2 s'.
Proof.
  revert s maps v c. induction files as [|f files IH]; intros s maps v c; cbn [copy_files].
  - intros [_ ->]%runs_ret H. eapply off_ext; [exact H|done|..]; intros x; simpl.
    + unfold zsize. simpl. by case_match; lia.
    + unfold occurrences. simpl. lia.
  - destruct (copied !! _) as [[i path]|]; [|by intros ?%runs_raise].
    intros H Hoff. run_bind H row t H1. apply runs_exec in H1.
    apply (off_insert_row _ _ _ _ _ _ _ H1) in Hoff. cbn in Hoff.
    eapply off_entered_cons; [exact Hoff..|]. by eapply IH.
Qed.

Lemma off_insert_folder f s row s' r v c : insert_folder f s = Some (row, s') → off r v c s →
  off r v c s'.
Proof.
  unfold insert_folder, insert_folder_statement. intros ([res t] & H & Hres)%bind_Some Hoff.
  apply bind_Some in H as (i & _ & H). destruct (negb _); [done|]. destruct (exists_row _ _).
  - by injection H as <- <-.
  - destruct (bool_decide _); [|done]. injection H as <- <-. injection Hres as _ <-. by eapply off_frame.
Qed.

Lemma off_copy_folders date k root rows copied maps snap s res s' r v c :
  runs (copy_folders date u k root rows copied maps) snap s res s' → off r v c s → off r v c s'.
Proof.
  revert s copied maps. induction rows as [|f rows IH]; intros s copied maps; cbn [copy_folders].
  - by intros [_ ->]%runs_ret.
  - destruct (f.1 =? root.1); [by apply IH|].
    destruct (copied !! _) as [[i path]|]; [|by intros ?%runs_raise].
    intros H Hoff. run_bind H row t H1. apply runs_exec in H1.
    eapply IH; [exact H|]. by eapply off_insert_folder.
Qed.

Lemma off_count_copies date target n snap s w s' r v c :
  runs (count_copies date target u n) snap s (Ok w) s' → off r v c s → off r v c s'.
Proof.
  unfold count_copies. destruct (_ && _); [|by intros [_ ->]%runs_ret].
  intros H Hoff. run_bind H b t H1. apply runs_ret in H as [_ ->]. by eapply off_item_count.
Qed.

Lemma runs_lock_copy_target target l snap s l' s' :
  runs (lock_target_folder target u l) snap s (Ok l') s' → s' = s.
Proof.
  unfold lock_target_folder. destruct (0 <? target); [|by intros [_ ->]%runs_ret].
  intros H. run_bind H o t H1. apply runs_query in H1 as [-> ->]. by apply runs_ret in H as [_ ->].
Qed.

Lemma off_insert_copied target items snap s maps s' r v c :
  runs (InsertCopiedFiles u target items) snap s (Ok maps) s' → off r v c s →
  off r (entered v c items).1 (entered v c items).2 s'.
Proof.
  unfold InsertCopiedFiles. destruct (decide (items = [])) as [->|_].
  - intros [_ ->]%runs_ret H. eapply off_ext; [exact H|done|..]; intros x; simpl.
    + unfold zsize. simpl. by case_match; lia.
    + unfold occurrences. simpl. lia.
  - intros H Hoff. run_bind_result H l t H1. apply (off_location _ _ _ _ _ _ _ _ _ _ _ H1) in Hoff.
    rewrite runs_catch_db in H by solve_tx_body. run_bind H ids t' H2. apply runs_exec in H2.
    destruct (negb _); apply runs_ret in H as [E ->]; [done|].
    by eapply off_insert_copies in H2 as [_ ?].
Qed.

(** What is counted is what is entered. *)
Lemma counted_entered items incremented existing snap s t c :
  Z.of_nat (length items) < 2 ^ 64 →
  runs (IncrementRefCountsChecked (content_refs items) existing) snap s (Ok incremented) t →
  content_missing incremented items = false → ∀ x,
  c x + (if decide (x ∈ incremented) then delta_of (content_refs items) x else 0) -
    occurrences x (content_ids items) = c x.
Proof.
  intros Hlen _ Hmiss x. rewrite content_refs_exact by done.
  case_decide as Hx; [lia|]. assert (occurrences x (content_ids items) = 0) as ->; [|lia].
  unfold content_missing in Hmiss.
  assert (∀ f : file_row, f ∈ items → f_content_id f.2 ∈ incremented) as Hall.
  { intros f Hf. apply not_true_iff_false in Hmiss. destruct (decide (f_content_id f.2 ∈ incremented)); [done|].
    exfalso. apply Hmiss, List.existsb_exists. exists f.
    unfold content_exists. by rewrite <- list_elem_of_In, bool_decide_eq_false_2. }
  clear Hmiss Hlen. induction items as [|f items IH]; [done|].
  rewrite occurrences_ids, IH; [|intros; apply Hall; by right].
  destruct (Z.eqb_spec (f_content_id f.2) x) as [<-|]; [|lia].
  destruct Hx. apply Hall. by left.
Qed.

(** A chunk of files settles its share of the reservation. *)
Lemma chunk_body_settles date target valid existing snap s maps s' n : sized valid →
  zsize valid < 2 ^ 64 → Z.of_nat (length valid) < 2 ^ 64 → held (zsize valid + n) s →
  runs (copy_chunk_body date u target valid existing) snap s (Ok maps) s' → held n s'.
Proof.
  intros Hsized Hsize Hlen Hs H. unfold copy_chunk_body in H. cbv zeta in H.
  run_bind H x t H1. apply runs_name_locks in H1 as ->; [|apply _|by intros ???? [_ ->]%runs_query].
  run_bind_result H l t H1. apply runs_lock_copy_target in H1 as ->.
  run_bind H occupied t H1. apply runs_occupied_names in H1 as ->.
  destruct (pick_items occupied valid 0) as [items skipped] eqn:Ep.
  apply pick_items_exact in Ep as (Hsub & Hskipped & Hitems & Hskip0); [|done|lia..].
  run_bind_result H incremented t1 Hinc. destruct (content_missing _ _) eqn:Hm; [by apply runs_ret in H as []|].
  pose proof (off_increments _ _ _ _ _ _ _ _ _ Hinc Hs) as Hoff.
  run_bind_result H ids t2 H2. apply (off_insert_copied _ _ _ _ _ _ _ _ _ H2) in Hoff.
  run_bind_result H w t3 H3. apply (off_count_copies _ _ _ _ _ _ _ _ _ _ H3) in Hoff.
  assert (sized items) as Hsi by (by eapply sized_sublist).
  rewrite (add_sizes_exact 0 items Hsi) in H by lia.
  run_bind_result H w1 t4 H4. destruct w1.
  apply (off_account registry refs_held (Account.CommitRes (0 + zsize items)) u) with (2 := H4) in Hoff; [|done].
  run_bind_result H w2 t5 H5. destruct w2. apply runs_ret in H as [_ ->].
  apply (off_account registry refs_held (Account.Release skipped) u) with (2 := H5) in Hoff; [|done].
  eapply off_ext; [exact Hoff|..]; intros y; unfold add, zero, entered; cbn [fst snd reserves uses].
  - destruct (y =? u); lia.
  - destruct (y =? u); lia.
  - rewrite (counted_entered items incremented existing snap s t1 (λ _, 0)); [done| |done|done].
    apply sublist_length in Hsub. lia.
Qed.

(** So does a folder. *)
Lemma plan_body_settles date target l p existing snap s maps s' n : sized (pl_files p) →
  zsize (pl_files p) = pl_item_size p → Z.of_nat (length (pl_files p)) < 2 ^ 64 →
  held (pl_item_size p + n) s →
  runs (copy_plan_body date u target l p existing) snap s (Ok maps) s' → held n s'.
Proof.
  intros Hsized Hsize Hlen Hs H. unfold copy_plan_body in H. cbv zeta in H.
  run_bind H x t H1. apply runs_query in H1 as [_ ->].
  run_bind_result H l' t H1. apply runs_lock_copy_target in H1 as ->.
  run_bind H occupied t H1. apply runs_occupied_folders in H1 as ->.
  case_bool_decide as Ho.
  { run_bind_result H w t H1. destruct w. apply runs_ret in H as [_ ->].
    apply (off_account registry refs_held (Account.Release (pl_item_size p)) u) with (2 := H1) in Hs; [|done].
    eapply off_ext; [exact Hs|..]; intros y; unfold add, zero; cbn [reserves uses];
      destruct (y =? u); lia. }
  run_bind_result H incremented t1 Hinc. destruct (content_missing _ _) eqn:Hm; [by apply runs_ret in H as []|].
  pose proof (off_increments _ _ _ _ _ _ _ _ _ Hinc Hs) as Hoff. unfold copy_tree in H.
  run_bind H row t2 H2. apply runs_exec in H2. apply (off_insert_folder _ _ _ _ _ _ _ H2) in Hoff.
  run_bind H res t3 H3. destruct res as [copied fmaps].
  apply (off_copy_folders _ _ _ _ _ _ _ _ _ _ _ _ _ H3) in Hoff.
  run_bind H ids t4 H4. apply (off_copy_files _ _ _ _ _ _ _ _ _ _ _ H4) in Hoff.
  run_bind_result H w t5 H5. apply (off_count_copies _ _ _ _ _ _ _ _ _ _ H5) in Hoff.
  run_bind_result H w1 t6 H6. destruct w1. apply runs_ret in H as [_ ->].
  apply (off_account registry refs_held (Account.CommitRes (pl_item_size p)) u) with (2 := H6) in Hoff; [|done].
  eapply off_ext; [exact Hoff|..]; intros y; unfold add, zero, entered; cbn [fst snd reserves uses].
  - destruct (y =? u); lia.
  - destruct (y =? u); lia.
  - by rewrite (counted_entered (pl_files p) incremented existing snap s t1 (λ _, 0)).
Qed.
(** ** Steps that settle their share *)

(** No reply is lost, and the other sessions do not touch what the copy holds. *)
Definition steady (sch : list (Step Database)) : Prop :=
  Forall (λ st, fault_of st ≠ LostReply ∧
    ∀ n, 0 <= n → ∀ s, held n s → held n (interference st s)) sch.

(** [m] always answers; when it succeeds [n] reserved bytes have been settled, and
    when it fails some may be left. *)
Definition settles {A} (n : Z) (m : M Database (Result A)) : Prop :=
  ∀ e k, tx e = AutoCommit → 0 <= k → held (n + k) (db e) → steady (schedule e) →
    ∃ r e', m e = (Ret r, e') ∧ tx e' = AutoCommit ∧ steady (schedule e') ∧
      match r with
      | Ok _ => held k (db e')
      | Err _ => ∃ j, 0 <= j ∧ held j (db e')
      end.

(** A read that always answers. *)
Definition harmless {A} (m : M Database A) : Prop :=
  ∀ e n, tx e = AutoCommit → 0 <= n → held n (db e) → steady (schedule e) →
    ∃ a e', m e = (Ret a, e') ∧ tx e' = AutoCommit ∧ steady (schedule e') ∧ held n (db e').

Lemma held_eq n k s : held n s → n = k → held k s.
Proof. by intros ? <-. Qed.

Lemma steady_suffix sch sch' : sch' `suffix_of` sch → steady sch → steady sch'.
Proof. intros [pre ->] H. by apply Forall_app in H as [_ ?]. Qed.

Lemma steady_arrive sch n s : steady sch → 0 <= n → held n s → held n (arrive sch s).
Proof. intros H Hn Hs. destruct H as [|st sch [_ Hst] _]; simpl; [done|by apply Hst]. Qed.

Lemma settles_ret {A} (a : A) : settles 0 (mret (Ok a)).
Proof. intros e k Ht Hk Hs Hst. exists (Ok a), e. by split_and!. Qed.

Lemma settles_bind {A B} n k (m : M Database (Result A)) (f : A → M Database (Result B)) :
  0 <= k → settles n m → (∀ a, settles k (f a)) → settles (n + k) (bind_result m f).
Proof.
  intros Hk Hm Hf e j Ht Hj Hs Hst.
  destruct (Hm e (k + j) Ht ltac:(lia)) as (r & e' & E & Ht' & Hst' & Hr);
    [by eapply held_eq; [exact Hs|lia]|done|].
  unfold bind_result, mbind, M_bind. rewrite E. destruct r as [a|er].
  - by apply Hf.
  - exists (Err er), e'. by split_and!.
Qed.

Lemma settles_read {A B} n (m : M Database A) (f : A → M Database (Result B)) : 0 <= n →
  harmless m → (∀ a, settles n (f a)) → settles n (m ≫= f).
Proof.
  intros Hn Hm Hf e k Ht Hk Hs Hst.
  destruct (Hm e (n + k) Ht ltac:(lia) Hs Hst) as (a & e' & E & Ht' & Hst' & Hs').
  unfold mbind, M_bind. rewrite E. by apply Hf.
Qed.

(** A transaction that settles [n] bytes, with what follows its success and failure. *)
Lemma settles_tx {A B} n k d (func : M Database (Result A)) (f : Result A → M Database (Result B)) :
  TxBody func → 0 <= n → 0 <= k →
  (∀ s a s' j, 0 <= j → held (n + j) s → runs func s s (Ok a) s' → held j s') →
  (∀ a, settles k (f (Ok a))) → (∀ er, settles (n + k) (f (Err er))) →
  settles (n + k) (Run d func ≫= f).
Proof.
  intros Hb Hn Hk Hfunc Hok Herr [s sch t cs] j Ht Hj Hs Hst. cbn in *. subst t.
  assert (Forall (λ st, fault_of st ≠ LostReply) sch) as Hf.
  { eapply Forall_impl; [exact Hst|]. by intros st []. }
  destruct (Run_definite d func s sch cs Hb Hf) as (o & s' & sch' & E & Hsuf & Ho).
  unfold mbind, M_bind. rewrite E.
  assert (steady sch') as Hst' by (by eapply steady_suffix).
  pose proof (steady_arrive sch (n + k + j) s Hst ltac:(lia) Hs) as Harr. destruct o as [a|er].
  - apply (Hok a (mkEnv s' sch' AutoCommit cs)); [done|done| |done].
    apply (Hfunc _ _ _ (k + j) ltac:(lia)) in Ho; [done|]. eapply held_eq; [exact Harr|lia].
  - subst s'. by apply (Herr er (mkEnv _ sch' AutoCommit cs)).
Qed.

Lemma settles_release n : 0 <= n → settles n (release_copy_reservation u n).
Proof.
  intros Hn. unfold release_copy_reservation. destruct (Z.eqb_spec n 0) as [->|Hne].
  { apply settles_ret. }
  intros [s sch t cs] k Ht Hk Hs Hst. cbn in *. subst t.
  assert (Forall (λ st, fault_of st ≠ LostReply) sch) as Hf.
  { eapply Forall_impl; [exact Hst|]. by intros st []. }
  destruct (Run_definite (err InternalError) (ReleaseReservedStorageChecked u n) s sch cs _ Hf)
    as (o & s' & sch' & E & Hsuf & Ho).
  exists o, (mkEnv s' sch' AutoCommit cs). split_and!; [done|done|by eapply steady_suffix|].
  pose proof (steady_arrive sch (n + k) s Hst ltac:(lia) Hs) as Harr. destruct o as [[]|er]; cbn.
  - apply (proj1 (clean_runs _ _ _ _)) in Ho.
    apply (off_account registry refs_held (Account.Release n) u) with (2 := Ho) in Harr; [|done].
    eapply off_ext; [exact Harr|..]; intros y; unfold add, zero; cbn [reserves uses];
      destruct (y =? u); lia.
  - subst s'. exists (n + k). split; [lia|done].
Qed.

Lemma settles_abandon n p : 0 <= n → settles n (abandon u n p).
Proof.
  intros Hn. unfold abandon. replace n with (n + 0) at 1 by lia.
  apply settles_bind; [done|by apply settles_release|]. intros _. apply settles_ret.
Qed.

(** ** Reads *)

Definition any_change : Database → Database → Prop := λ _ _, True.
#[export] Instance any_change_preorder : PreOrder any_change.
Proof. by split. Qed.

Lemma harmless_try {A} (m : M Database A) : (∀ n, Respects any_change (held n) m) →
  (∀ e x e', m e = (Raise x, e') → x = DbException) → harmless (try_query m).
Proof.
  intros Hm Hx e n Ht Hn Hs Hst.
  assert (relies any_change (held n) (schedule e)) as Hrel.
  { eapply Forall_impl; [exact Hst|]. intros st [_ H] s Hs'. split; [by apply H|done]. }
  destruct (Hm n e Ht Hs Hrel) as (Ht' & Hs' & _ & Hsuf).
  unfold try_query, catch_db, catch, mbind, M_bind.
  destruct (m e) as [[a|x] e'] eqn:E; cbn in *.
  - exists (Some a), e'. split_and!; [done|done|by eapply steady_suffix|done].
  - rewrite (Hx _ _ _ E). exists None, e'. split_and!; [done|done|by eapply steady_suffix|done].
Qed.

Lemma query_raises {A} (q : Database → A) e x e' : query q e = (Raise x, e') → x = DbException.
Proof.
  unfold query, exec. destruct (next_step e) as [f e0].
  destruct (tx e0) as [|snap []], f; intros H; by simplify_eq.
Qed.

Lemma harmless_ret {A} (a : A) : harmless (mret a).
Proof. intros e n Ht Hn Hs Hst. exists a, e. by split_and!. Qed.

Lemma harmless_occupied target names : harmless (try_query (QueryOccupiedNames target u names)).
Proof.
  apply harmless_try; unfold QueryOccupiedNames; destruct (decide _); try apply _.
  - done.
  - intros e x e'. apply query_raises.
Qed.

Lemma harmless_occupied_folders target names :
  harmless (try_query (QueryOccupiedFolderNames target u names)).
Proof.
  apply harmless_try; unfold QueryOccupiedFolderNames; destruct (decide _); try apply _.
  - done.
  - intros e x e'. apply query_raises.
Qed.

Lemma harmless_contents refs : harmless (existing_contents refs).
Proof.
  unfold existing_contents. destruct (decide _); [apply harmless_ret|].
  apply harmless_try; unfold FindExistingIds; destruct (decide _); try apply _.
  - done.
  - intros e x e'. unfold catch_db, catch. destruct (query _ e) as [[a|y] e1] eqn:E; [done|].
    by rewrite (query_raises _ _ _ _ E).
Qed.
(** ** The pieces of a copy *)

Lemma settles_valid_items date target existing valid n k p : sized valid →
  zsize valid < 2 ^ 64 → Z.of_nat (length valid) < 2 ^ 64 → 0 <= k → n = zsize valid + k →
  settles n (copy_valid_items date u target existing valid n k p).
Proof.
  intros Hsized Hsize Hlen Hk ->. pose proof (zsize_nonneg _ Hsized).
  unfold copy_valid_items. destruct (decide _); [apply settles_abandon; lia|].
  apply settles_tx; [apply _|done|done|..].
  - intros s a s' j Hj Hs Hr. by eapply chunk_body_settles.
  - intros maps. destruct (Z.ltb_spec 0 k); [by apply settles_abandon|].
    assert (k = 0) as -> by lia. apply settles_ret.
  - intros er. apply settles_abandon. lia.
Qed.

Lemma settles_chunk date target chunk p : sized chunk → zsize chunk < 2 ^ 64 →
  Z.of_nat (length chunk) < 2 ^ 64 → settles (zsize chunk) (copy_chunk date u target chunk p).
Proof.
  intros Hsized Hsize Hlen. pose proof (zsize_nonneg _ Hsized). unfold copy_chunk. cbv zeta.
  rewrite add_sizes_exact by (done || lia).
  apply settles_read; [done|apply harmless_occupied|]. intros [occupied|].
  2: { apply settles_abandon. lia. }
  destruct (pick_items occupied chunk 0) as [pending skipped] eqn:Ep.
  apply pick_items_exact in Ep as (Hsub & Hskipped & Hpending & Hskip0); [|done|lia..].
  apply settles_read; [done|apply harmless_contents|]. intros [existing|].
  2: { apply settles_abandon. lia. }
  set (b := content_exists existing).
  pose proof (sized_sublist _ _ Hsub Hsized) as Hsp.
  pose proof (sized_sublist _ _ (filter_sublist b pending) Hsp) as Hv.
  pose proof (sized_sublist _ _ (filter_sublist (λ f, negb (b f)) pending) Hsp) as Hi.
  pose proof (zsize_filter b pending). pose proof (zsize_nonneg _ Hv). pose proof (zsize_nonneg _ Hi).
  rewrite (add_sizes_exact skipped _ Hi) by lia. rewrite Z.add_0_l.
  apply settles_valid_items; [done|lia| |lia|lia].
  pose proof (sublist_length _ _ Hsub). pose proof (List.filter_length_le b pending). lia.
Qed.

Lemma settles_chunks date target chunks p : sized (concat chunks) →
  zsize (concat chunks) < 2 ^ 64 → Z.of_nat (length (concat chunks)) < 2 ^ 64 →
  settles (zsize (concat chunks)) (copy_chunks date u target chunks p).
Proof.
  revert p. induction chunks as [|chunk chunks IH]; intros p; simpl; [intros; apply settles_ret|].
  intros [Hs1 Hs2]%Forall_app. rewrite zsize_app, length_app. intros Hsize Hlen.
  pose proof (zsize_nonneg _ Hs1). pose proof (zsize_nonneg _ Hs2).
  apply settles_bind; [done|apply settles_chunk; [done|lia..]|].
  intros p'. apply IH; [done|lia..].
Qed.

(** A plan whose size is that of its files. *)
Definition good_plan (p : FolderDeletePlan) : Prop :=
  sized (pl_files p) ∧ pl_item_size p = zsize (pl_files p) ∧
  Z.of_nat (length (pl_files p)) < 2 ^ 64.

Definition plans_size (plans : list FolderDeletePlan) : Z := zsum (pl_item_size <$> plans).

Lemma good_plan_nonneg p : good_plan p → 0 <= pl_item_size p.
Proof. intros (H & -> & _). by apply zsize_nonneg. Qed.

Lemma plans_size_nonneg plans : Forall good_plan plans → 0 <= plans_size plans.
Proof.
  intros H. apply zsum_nonneg, Forall_fmap. eapply Forall_impl; [exact H|].
  intros p. apply good_plan_nonneg.
Qed.

Lemma settles_folder date target l plan p : good_plan plan →
  settles (pl_item_size plan) (copy_folder date u target l plan p).
Proof.
  intros Hp. pose proof (good_plan_nonneg _ Hp). destruct Hp as (Hsized & Hsize & Hlen).
  unfold copy_folder.
  apply settles_read; [done|apply harmless_contents|]. intros [existing|].
  2: { by apply settles_abandon. }
  destruct (content_missing _ _); [by apply settles_abandon|].
  replace (pl_item_size plan) with (pl_item_size plan + 0) at 1 by lia.
  apply settles_tx; [apply _|done|done|..].
  - intros s a s' j Hj Hs Hr. by eapply plan_body_settles.
  - intros [fmaps maps]. apply settles_ret.
  - intros er. rewrite Z.add_0_r. by apply settles_abandon.
Qed.

Lemma settles_plans date target l plans occupied p : Forall good_plan plans →
  settles (plans_size plans) (copy_plans date u target l plans occupied p).
Proof.
  intros H. revert occupied p. induction H as [|plan plans Hp H IH]; intros occupied p; simpl.
  { apply settles_ret. }
  change (plans_size (plan :: plans)) with (pl_item_size plan + plans_size plans).
  pose proof (plans_size_nonneg _ H). pose proof (good_plan_nonneg _ Hp).
  destruct (_ || _); (apply settles_bind; [done| |intros; apply IH]).
  - by apply settles_abandon.
  - by apply settles_folder.
Qed.

Lemma settles_abandon_plans plans p : Forall good_plan plans →
  settles (plans_size plans) (abandon_plans u plans p).
Proof.
  intros H. revert p. induction H as [|plan plans Hp H IH]; intros p; simpl.
  { apply settles_ret. }
  change (plans_size (plan :: plans)) with (pl_item_size plan + plans_size plans).
  pose proof (plans_size_nonneg _ H). pose proof (good_plan_nonneg _ Hp).
  apply settles_bind; [done|by apply settles_abandon|]. intros. apply IH.
Qed.

Lemma settles_folder_plans date target l plans p : Forall good_plan plans →
  settles (plans_size plans) (copy_folder_plans date u target l plans p).
Proof.
  intros H. unfold copy_folder_plans. apply settles_read.
  - by apply plans_size_nonneg.
  - apply harmless_occupied_folders.
  - intros [occupied|]; [by apply settles_plans|by apply settles_abandon_plans].
Qed.

(** ** What the copy reads *)

(** The files of the user add up to at most [max]. *)
Definition modest (max : Z) (s : Database) : Prop :=
  (∀ k f, files s !! k = Some f → 0 <= f_size f) ∧
  sum_rows (λ _ f, if f_user_id f =? u then f_size f else 0) (files s) <= max ∧
  Z.of_nat (size (files s)) < 2 ^ 64.

(** Distinct rows of the user. *)
Lemma modest_rows max s rows : modest max s → NoDup rows.*1 →
  (∀ g : file_row, g ∈ rows → files s !! g.1 = Some g.2 ∧ f_user_id g.2 = u) →
  sized rows ∧ zsize rows <= max ∧ Z.of_nat (length rows) < 2 ^ 64.
Proof.
  intros (Hpos & Hmax & Hlen) Hnd Hrows. split_and!.
  - apply Forall_forall. intros g Hg. destruct (Hrows _ Hg). eauto.
  - etrans; [|exact Hmax]. etrans; [|apply (sum_rows_ge _ rows)].
    + unfold zsize. apply Z.eq_le_incl, zsum_ext. intros g Hg. destruct (Hrows _ Hg) as [_ ->].
      by rewrite Z.eqb_refl.
    + done.
    + intros k f Hg. by destruct (Hrows _ Hg).
    + intros k f Hf. case_match; [eauto|lia].
  - assert (length rows <= size (files s))%nat; [|lia].
    rewrite <- length_map_to_list, <- (length_fmap fst), <- (length_fmap fst (map_to_list _)).
    apply submseteq_length, NoDup_submseteq; [done|]. intros k (g & -> & Hg)%list_elem_of_fmap.
    destruct (Hrows _ Hg) as [Hf _]. apply list_elem_of_fmap. exists g. split; [done|].
    destruct g. by apply elem_of_map_to_list.
Qed.
(** The plans after files were given to them. *)
Definition plans_good (plans : gmap Z FolderDeletePlan) (bytes count : Z) : Prop :=
  (∀ r p, plans !! r = Some p → pl_item_size p = zsize (pl_files p) ∧ sized (pl_files p) ∧
     Z.of_nat (length (pl_files p)) <= count) ∧
  sum_rows (λ _ p, zsize (pl_files p)) plans <= bytes.

Lemma plans_good_bound plans bytes count r p : plans_good plans bytes count →
  plans !! r = Some p → 0 <= zsize (pl_files p) <= bytes.
Proof.
  intros [Hp Hsum] Hr. destruct (Hp _ _ Hr) as (_ & Hs & _). split; [by apply zsize_nonneg|].
  rewrite (sum_rows_delete _ _ _ _ Hr) in Hsum.
  assert (0 <= sum_rows (λ _ p, zsize (pl_files p)) (delete r plans)); [|lia].
  apply sum_rows_nonneg. intros k q [_ Hq]%lookup_delete_Some. apply zsize_nonneg.
  by destruct (Hp _ _ Hq) as (_ & ? & _).
Qed.

Lemma add_file_good it plans f bytes count : plans_good plans bytes count → 0 <= f_size f.2 →
  bytes + f_size f.2 < 2 ^ 64 →
  plans_good (add_file it plans f) (bytes + f_size f.2) (count + 1).
Proof.
  intros Hg Hf Hlt. pose proof Hg as [Hp Hsum].
  assert (plans_good plans (bytes + f_size f.2) (count + 1)) as Hsame.
  { split; [|lia]. intros r p Hr. destruct (Hp _ _ Hr) as (? & ? & ?). split_and!; done || lia. }
  unfold add_file. destruct (_ =? 0); [done|].
  destruct (plans !! matched_root it plans (f_folder_id f.2)) as [p|] eqn:Er; [|done].
  pose proof (plans_good_bound _ _ _ _ _ Hg Er).
  destruct (Hp _ _ Er) as (Esize & Hsized & Hlen).
  assert (zsize (pl_files p ++ [f])%list = zsize (pl_files p) + f_size f.2) as Eapp.
  { rewrite zsize_app, zsize_cons. unfold zsize at 2. simpl. lia. }
  split.
  - intros r q [[<- <-]|[_ Hr]]%lookup_insert_Some; [|by apply Hsame in Hr].
    cbn [pl_item_size pl_files set const].
    rewrite Eapp, length_app, Esize, (u64_small (f_size f.2)), u64_small by lia.
    split_and!; [done| |simpl; lia]. apply Forall_app. split; [done|]. by apply Forall_singleton.
  - rewrite (sum_rows_update _ _ _ _ _ Er). cbn [pl_item_size pl_files set const]. rewrite Eapp. lia.
Qed.

Lemma add_files_good it fs plans bytes count : sized fs → plans_good plans bytes count →
  bytes + zsize fs < 2 ^ 64 →
  plans_good (foldl (add_file it) plans fs) (bytes + zsize fs) (count + Z.of_nat (length fs)).
Proof.
  intros H. revert plans bytes count.
  induction H as [|f fs Hf H IH]; intros plans bytes count Hg Hlt.
  - unfold zsize. simpl. by rewrite !Z.add_0_r.
  - rewrite zsize_cons in *. pose proof (zsize_nonneg _ H). cbn [foldl length].
    replace (bytes + (f_size f.2 + zsize fs)) with ((bytes + f_size f.2) + zsize fs) by lia.
    replace (count + Z.of_nat (S (length fs))) with ((count + 1) + Z.of_nat (length fs)) by lia.
    apply IH; [|lia]. apply add_file_good; [done|done|lia].
Qed.

Lemma folders_good rows : plans_good (foldl add_folder ∅ rows) 0 0.
Proof.
  assert (∀ r p, foldl add_folder ∅ rows !! r = Some p → pl_files p = [] ∧ pl_item_size p = 0) as H.
  { intros r p. rewrite add_folder_lookup, lookup_empty.
    by destruct (rows_of r rows); intros [= <-]. }
  split.
  - intros r p Hr. destruct (H _ _ Hr) as [-> ->]. split_and!; [done|constructor|simpl; lia].
  - rewrite (sum_rows_ext _ (λ _ _, 0)).
    + apply Z.eq_le_incl. generalize (foldl add_folder ∅ rows). intros m.
      induction m as [|k v m Hk IH] using map_ind; [apply sum_rows_empty|].
      rewrite sum_rows_insert by done. lia.
    + intros r p Hr. by destruct (H _ _ Hr) as [-> _].
Qed.

(** The plans of distinct folders. *)
Lemma plans_of_size plans ids bytes count : plans_good plans bytes count → NoDup ids →
  count < 2 ^ 64 →
  Forall good_plan (plans_of ids plans) ∧ plans_size (plans_of ids plans) <= bytes.
Proof.
  intros [Hp Hsum] Hnd Hcount. split.
  - apply Forall_forall. intros p Hin. apply list_elem_of_omap in Hin as (r & _ & Hr).
    destruct (Hp _ _ Hr) as (? & ? & ?). split_and!; done || lia.
  - etrans; [|exact Hsum]. clear Hsum. revert plans Hp.
    induction Hnd as [|r ids Hr Hnd IH]; intros plans Hp.
    + apply sum_rows_nonneg. intros k p Hk. apply zsize_nonneg. by destruct (Hp _ _ Hk) as (_ & ? & _).
    + change (plans_of (r :: ids) plans) with
        (match plans !! r with Some p => p :: plans_of ids plans | None => plans_of ids plans end).
      destruct (plans !! r) as [p|] eqn:E; [|by apply IH].
      rewrite (sum_rows_delete _ _ _ _ E). destruct (Hp _ _ E) as (Es & _).
      change (plans_size (p :: plans_of ids plans)) with
        (pl_item_size p + plans_size (plans_of ids plans)).
      assert (plans_of ids plans = plans_of ids (delete r plans)) as ->.
      { unfold plans_of. clear -Hr. induction ids as [|i ids IH]; [done|].
        apply not_elem_of_cons in Hr as [Hne Hr]. cbn [omap list_omap].
        rewrite lookup_delete_ne by done. by rewrite (IH Hr). }
      rewrite Es. assert (plans_size (plans_of ids (delete r plans)) <=
        sum_rows (λ _ p, zsize (pl_files p)) (delete r plans)); [|lia].
      apply IH. intros k q [_ Hk]%lookup_delete_Some. by apply Hp in Hk.
Qed.

(** ** The reads before the reservation *)

Section reads.
Context (max : Z) (Hmax : 0 <= max < 2 ^ 64).
Notation yields := (yields any_change).
Implicit Types I : Database → Prop.

Lemma plans_good_mono plans bytes count bytes' count' : plans_good plans bytes count →
  bytes <= bytes' → count <= count' → plans_good plans bytes' count'.
Proof.
  intros [Hp Hsum] ??. split; [|lia]. intros r p Hr. destruct (Hp _ _ Hr) as (? & ? & ?).
  split_and!; done || lia.
Qed.

Lemma modest_files s ids : modest max s →
  let rows := files_in_folders ids u s in
  sized rows ∧ zsize rows <= max ∧ Z.of_nat (length rows) < 2 ^ 64.
Proof.
  intros Hs rows. apply (modest_rows max s); [done|..].
  - apply NoDup_fmap_fst; [|apply select_rows_NoDup].
    intros i g g' [Hg _]%elem_of_select_rows [Hg' _]%elem_of_select_rows. simpl in *. congruence.
  - intros [k g] [Hg Hb]%elem_of_select_rows. split; [done|].
    by apply andb_true_iff in Hb as [?%Z.eqb_eq _].
Qed.

Lemma modest_owned s ids : modest max s →
  let rows := omap (λ id, owned_file id u s) ids in
  sized rows ∧ zsize rows <= Z.of_nat (length ids) * max ∧ (length rows <= length ids)%nat.
Proof.
  intros Hs. induction ids as [|i ids (H1 & H2 & H3)]; cbn [omap list_omap length].
  { split_and!; [constructor|unfold zsize; simpl; lia|done]. }
  destruct (owned_file i u s) as [g|] eqn:E; [|split_and!; [done|lia|lia]].
  apply owned_file_Some in E as (Hi & Hg & Hu).
  destruct (modest_rows max s [g] Hs) as (Hg1 & Hg2 & _).
  { apply NoDup_singleton. }
  { intros h ->%list_elem_of_singleton. by rewrite Hi. }
  unfold zsize in Hg2. simpl in Hg2. split_and!.
  - by apply Forall_app_2 with (l1 := [g]).
  - change (zsize (g :: omap (λ id, owned_file id u s) ids) <= Z.of_nat (S (length ids)) * max).
    rewrite zsize_cons. lia.
  - simpl. cbn [omap list_omap] in H3. lia.
Qed.

Lemma yields_any {A} I (m : M Database A) : yields I m (λ _ _, True).
Proof. by intros e a e' _ _ _ _. Qed.

Lemma any_lasting (P : Prop) : lasting any_change (λ _ : Database, P).
Proof. by intros s s' ? _. Qed.

#[export] Instance respects_read {A} I (q : Database → option A) :
  Respects any_change I (read q).
Proof.
  apply respects_exec; [apply _|]. intros s a s' Hs (b & _ & [= _ <-])%bind_Some. done.
Qed.

Lemma yields_plans I it ids : (∀ s, I s → modest max s) →
  yields I (FetchBatchFolderDeletePlans it ids u)
    (λ plans _, ∃ count, count < 2 ^ 64 ∧ plans_good plans max count).
Proof.
  intros HI.
  assert (∀ rows, ∃ count, count < 2 ^ 64 ∧ plans_good (foldl add_folder ∅ rows) max count) as H0.
  { intros rows. exists 0. split; [done|]. eapply plans_good_mono; [apply folders_good|lia..]. }
  unfold FetchBatchFolderDeletePlans. destruct (decide _).
  { apply yields_ret. intros s _. apply (H0 []). }
  apply (yields_bind _ _ _ _ (λ _ _, True)); [apply _|apply yields_any|intros; apply any_lasting|].
  intros rows. cbv zeta. destruct (decide _); [apply yields_ret; intros; apply H0|].
  apply (yields_bind _ _ _ _ (λ fs _, sized fs ∧ zsize fs <= max ∧ Z.of_nat (length fs) < 2 ^ 64)).
  - unfold FetchFilesInFolders. case_match; apply _.
  - unfold FetchFilesInFolders. rewrite decide_False by done. apply yields_query; [apply _|].
    intros s [Hs _]. by apply modest_files, HI.
  - intros; apply any_lasting.
  - intros fs. apply yields_ret. intros s (_ & H1 & H2 & H3). exists (Z.of_nat (length fs)). split; [done|].
    eapply plans_good_mono; [apply (add_files_good it fs _ 0 0); [done|apply folders_good|]|..]; lia.
Qed.

Lemma yields_fetch I chunks : (∀ s, I s → modest max s) →
  yields I (fetch_files_to_copy u chunks) (λ l _, sized l ∧
    zsize l <= Z.of_nat (length (concat chunks)) * max ∧
    (length l <= length (concat chunks))%nat).
Proof.
  revert I. induction chunks as [|chunk chunks IH]; intros I HI; simpl.
  { apply yields_ret. intros _ _. split_and!; [constructor|unfold zsize; simpl; lia|done]. }
  set (Q (l : list file_row) (n : nat) := sized l ∧ zsize l <= Z.of_nat n * max ∧ (length l <= n)%nat).
  apply (yields_bind _ _ _ _ (λ o _, Q (default [] o) (length chunk))).
  - unfold try_query. apply _.
  - intros e o e' Ht He Hst. unfold try_query, catch_db, catch, mbind, M_bind.
    pose proof (yields_query any_change I (λ d, omap (λ id, owned_file id u d) chunk)
      (λ a _, Q a (length chunk)) (λ s Hs, modest_owned s chunk (HI s Hs)) e) as Hq.
    destruct (query _ e) as [[a|x] e1] eqn:E; cbn.
    + intros [= <- _]. by eapply Hq.
    + rewrite (query_raises _ _ _ _ E). intros [= <- _]. simpl.
      split_and!; [constructor|unfold zsize; simpl; lia|simpl; lia].
  - intros; apply any_lasting.
  - intros o. apply (yields_bind _ _ _ _ (λ l _, Q l (length (concat chunks)))).
    + clear. induction chunks; simpl; apply _.
    + apply IH. intros s [? _]. by apply HI.
    + intros; apply any_lasting.
    + intros l. apply yields_ret. intros _ [[_ (H1 & H2 & H3)] (H4 & H5 & H6)].
      rewrite zsize_app, !length_app. split_and!; [by apply Forall_app|lia|lia].
Qed.

#[export] Instance respects_fetch I chunks : Respects any_change I (fetch_files_to_copy u chunks).
Proof. induction chunks; simpl; unfold try_query; apply _. Qed.

#[export] Instance respects_plans I it ids :
  Respects any_change I (FetchBatchFolderDeletePlans it ids u).
Proof.
  unfold FetchBatchFolderDeletePlans, FetchFilesInFolders. case_match; [apply _|].
  apply respects_bind; [apply _..|]. intros rows. cbv zeta. repeat case_match; apply _.
Qed.

#[export] Instance respects_resolve I target :
  Respects any_change I (ResolveOwnedFolderLocation target u).
Proof.
  unfold ResolveOwnedFolderLocation. case_match; [apply _|].
  apply respects_catch_db; [apply _| |apply _]. apply respects_bind; [apply _..|].
  intros [[]|]; apply _.
Qed.
End reads.

(** ** The whole copy *)

(** The books at the end of a copy: exact when it succeeds. *)
Definition settled {A} (o : outcome (Result A) * Env Database) : Prop :=
  match o.1 with
  | Ret (Ok _) => held 0 (db o.2)
  | _ => ∃ n, 0 <= n ∧ held n (db o.2)
  end.

Definition undisturbed (I : Database → Prop) (e : Env Database) : Prop :=
  tx e = AutoCommit ∧ I (db e) ∧ relies any_change I (schedule e) ∧ steady (schedule e).

Lemma settles_settled {A} n (m : M Database (Result A)) e : settles n m → tx e = AutoCommit →
  held n (db e) → steady (schedule e) → settled (m e).
Proof.
  intros Hm Ht Hs Hst. destruct (Hm e 0 Ht) as (r & e' & -> & _ & _ & Hr); [lia| |done|].
  { eapply held_eq; [exact Hs|lia]. }
  by destruct r.
Qed.

Lemma settled_bind_result {A B} (m : M Database (Result A)) (f : A → M Database (Result B)) e :
  settled (m e) → (∀ a e', m e = (Ret (Ok a), e') → settled (f a e')) →
  settled (bind_result m f e).
Proof.
  unfold bind_result, mbind, M_bind. intros Hm Hf.
  destruct (m e) as [[[a|er]|x] e'] eqn:E; [by eapply Hf|exact Hm..].
Qed.

Section reading.
Context (I : Database → Prop) (HI : ∀ s, I s → held 0 s).

(** The reads leave the books alone. *)
Lemma settled_read {A B} (Q : A → Prop) (m : M Database A) (f : A → M Database (Result B)) e :
  Respects any_change I m → yields any_change I m (λ a _, Q a) → undisturbed I e →
  (∀ a e', Q a → undisturbed I e' → settled (f a e')) → settled ((m ≫= f) e).
Proof.
  intros Hm HQ (Ht & Hs & Hst & Hsteady) Hf. destruct (Hm e Ht Hs Hst) as (Ht' & Hs' & _ & Hsuf).
  unfold mbind, M_bind. destruct (m e) as [[a|x] e'] eqn:E; cbn in *.
  - apply Hf; [exact (HQ _ _ _ Ht Hs Hst E)|]. split_and!; [done|done|by eapply relies_suffix|by eapply steady_suffix].
  - exists 0. split; [done|]. by apply HI.
Qed.
End reading.

Lemma total_size plans t : Forall good_plan plans → 0 <= t → t + plans_size plans < 2 ^ 64 →
  foldl (λ total plan, u64 (total + pl_item_size plan)) t plans = t + plans_size plans.
Proof.
  intros H. revert t. induction H as [|p plans Hp H IH]; intros t Ht Hlt; cbn [foldl].
  { unfold plans_size. simpl. lia. }
  change (plans_size (p :: plans)) with (pl_item_size p + plans_size plans) in *.
  pose proof (good_plan_nonneg _ Hp). pose proof (plans_size_nonneg _ H).
  rewrite u64_small by lia. rewrite IH by lia. lia.
Qed.

Lemma sort_unique_length ids : (length (sort_unique ids) <= length ids)%nat.
Proof.
  apply submseteq_length, NoDup_submseteq; [apply sort_unique_NoDup|].
  intros i. by rewrite sort_unique_elem.
Qed.

(** What follows the reads: reserve, then copy the files and the folders. *)
Lemma settled_copy {A} date target l files plans (f : CopyProgress → A) max n e :
  sized files → Forall good_plan plans → zsize files <= Z.of_nat n * max →
  (length files <= n)%nat → plans_size plans <= max → 0 < max →
  (Z.of_nat n + 1) * max < 2 ^ 64 →
  tx e = AutoCommit → held 0 (db e) → steady (schedule e) →
  settled ((let total := foldl (λ total plan, u64 (total + pl_item_size plan))
                           (add_sizes 0 files) plans in
            let* _ := if 0 <? total then Run (err InternalError) (ReserveStorage u total)
                      else mret (Ok tt) in
            let* p := copy_chunks date u target (Chunks files) (mkCopyProgress [] []) in
            let* p := copy_folder_plans date u target l plans p in
            mret (Ok (f p))) e).
Proof.
  intros Hs Hp Hsize Hlen Hpsize Hmax Hlt Ht Hheld Hst.
  pose proof (zsize_nonneg _ Hs). pose proof (plans_size_nonneg _ Hp).
  rewrite add_sizes_exact by (done || lia). rewrite total_size by (done || lia). cbv zeta.
  set (total := 0 + zsize files + plans_size plans).
  assert (settles total (let* p := copy_chunks date u target (Chunks files) (mkCopyProgress [] []) in
     let* p := copy_folder_plans date u target l plans p in mret (Ok (f p)))) as Hrest.
  { replace total with (zsize files + plans_size plans) by lia. apply settles_bind; [done|..].
    - rewrite <- (Chunks_concat files) at 1. apply settles_chunks; rewrite Chunks_concat; [done|lia|nia].
    - intros p. replace (plans_size plans) with (plans_size plans + 0) by lia.
      apply settles_bind; [done|by apply settles_folder_plans|]. intros. apply settles_ret. }
  destruct (Z.ltb_spec 0 total) as [Hpos|Hzero].
  - unfold bind_result at 1, mbind at 1, M_bind. destruct e as [s sch t cs]. cbn in *. subst t.
    assert (Forall (λ st, fault_of st ≠ LostReply) sch) as Hf.
    { eapply Forall_impl; [exact Hst|]. by intros st []. }
    destruct (Run_definite (err InternalError) (ReserveStorage u total) s sch cs _ Hf)
      as (o & s' & sch' & -> & Hsuf & Ho).
    pose proof (steady_arrive sch 0 s Hst ltac:(lia) Hheld) as Harr. destruct o as [[]|er].
    + apply (settles_settled total); [done|done| |by eapply steady_suffix]. cbn.
      apply (proj1 (clean_runs _ _ _ _)) in Ho.
      apply (off_account registry refs_held (Account.Reserve total) u) with (2 := Ho) in Harr; [|done].
      eapply off_ext; [exact Harr|..]; intros y; unfold add, zero; cbn [reserves uses];
        destruct (y =? u); lia.
    + subst s'. by exists 0.
  - apply (settles_settled 0); [|done..]. replace 0 with total at 1 by lia. done.
Qed.

(** C3: a copy settles its reservation.  It reserves the size of all it is going to
    copy; whatever statements fail on the way, and whatever is skipped because its name
    is taken or its content gone, a copy that answers with success leaves the books
    exact: what was copied is charged, what was not is released.  A copy that fails
    leaves at most some reserved bytes too many.  This holds as long as no reply is
    lost, the other sessions keep the books and do not touch what the copy holds, and
    the sizes fit 64 bits. *)
Theorem copy_settles_its_reservation date it request max d sch cs :
  0 < max → (Z.of_nat (length (cy_file_ids request)) + 1) * max < 2 ^ 64 →
  let I s := ledger registry refs_held s ∧ modest max s in
  I d → stable I sch → steady sch →
  let (o, e) := Copy date it request u (mkEnv d sch AutoCommit cs) in
  match o with
  | Ret (Ok _) => ledger registry refs_held (db e)
  | _ => ∃ n, 0 <= n ∧ held n (db e)
  end.
Proof.
  intros Hmax Hlt I Hd Hsch Hst.
  assert (0 <= max < 2 ^ 64) as Hmax' by lia.
  assert (∀ s, I s → held 0 s) as HI by (intros s [? _]; by apply held_exact).
  assert (∀ s, I s → modest max s) as HIm by (by intros s [_ ?]).
  assert (relies any_change I sch) as Hrel.
  { eapply Forall_impl; [exact Hsch|]. intros st H s Hs. split; [by apply H|done]. }
  assert (settled (Copy date it request u (mkEnv d sch AutoCommit cs))) as H.
  2: { destruct (Copy _ _ _ _ _) as [[[r|er]|x] e]; cbn in H; [by apply held_exact|exact H..]. }
  unfold Copy. cbv zeta. apply (settled_read I HI (λ _, True)); [apply _|done|by split_and!|].
  intros [l|er] e1 _ H1; [|exists 0; split; [done|]; by apply HI, H1].
  apply (settled_read I HI (λ plans, ∃ count, count < 2 ^ 64 ∧ plans_good plans max count));
    [apply _|by apply yields_plans|done|].
  intros plans e2 (count & Hcount & Hplans) H2. cbv zeta.
  destruct (plans_of_size plans (FilterCoveredFolderIds (sort_unique (cy_folder_ids request)) plans)
    max count Hplans) as [Hgood Hsize]; [|done|].
  { apply NoDup_ListNoDup, List.NoDup_filter, NoDup_ListNoDup, sort_unique_NoDup. }
  set (explicit := List.filter _ (sort_unique (cy_file_ids request))).
  apply (settled_read I HI (λ l, sized l ∧ zsize l <= Z.of_nat (length explicit) * max ∧
    (length l <= length explicit)%nat)); [apply _| |done|].
  { pose proof (yields_fetch max Hmax' I (Chunks explicit) HIm) as Hf.
    by rewrite Chunks_concat in Hf. }
  intros fs e3 (Hfs & Hfsize & Hflen) (Ht & Hheld & _ & Hst3).
  apply (settled_copy _ _ _ _ _ _ max (length explicit)); try done.
  - assert (length explicit <= length (cy_file_ids request))%nat; [|nia].
    etrans; [apply List.filter_length_le|apply sort_unique_length].
  - by apply HI.
Qed.
End books.

(** ** Witnesses *)

(** One user with a file of ten bytes, and an upload of ten bytes under way. *)
Definition example_copy_db : Database :=
  example_books <| users := {[ 7 := mkUserRow 100 10 10 ]} |>
    <| file_contents := {[ 5 := mkContentRow "m" "s" 10 "p" "text/plain" 1 ]} |>
    <| folders := {[ 1 := mkFolderRow 7 0 "docs" "/docs/" 1 1 100 100 ]} |>
    <| files := {[ 3 := mkFileRow 7 5 1 "a.txt" "txt" 10 "text/plain" "/docs/a.txt" 0 0 100 100 ]} |>
    <| files_id_seq := 4 |> <| file_contents_id_seq := 6 |> <| folders_id_seq := 2 |>.

Definition to_root : CopyRequest := mkCopyRequest [3] [] 0.

Lemma example_copy_file k f : files example_copy_db !! k = Some f →
  3 = k ∧ mkFileRow 7 5 1 "a.txt" "txt" 10 "text/plain" "/docs/a.txt" 0 0 100 100 = f.
Proof. intros H. simpl in H. by apply lookup_singleton_Some in H. Qed.

Lemma example_copy_ledger : ledger example_registry (λ _ _, 0) example_copy_db.
Proof.
  pose proof example_ledger as (((Hk & Hu) & _) & _).
  split_and!.
  - split; [exact (conj Hk Hu)|split].
    + intros i f [<- <-]%example_copy_file. cbn. lia.
    + intros i c H. simpl in H. apply lookup_singleton_Some in H as [<- <-]. by split.
  - intros user a H. simpl in H. apply lookup_singleton_Some in H as [<- <-]. split; reflexivity.
  - intros content. unfold stored_refs, refs_of, zero. cbn [files file_contents trash example_copy_db].
    change (files example_copy_db) with (<[3 := mkFileRow 7 5 1 "a.txt" "txt" 10 "text/plain"
      "/docs/a.txt" 0 0 100 100]> (∅ : gmap Z FileRow)).
    change (trash example_copy_db) with (∅ : gmap Z TrashRow).
    change (file_contents example_copy_db) with
      (<[5 := mkContentRow "m" "s" 10 "p" "text/plain" 1]> (∅ : gmap Z ContentRow)).
    rewrite sum_rows_insert, !sum_rows_empty by apply lookup_empty. cbn [f_content_id].
    destruct (Z.eqb_spec 5 content) as [<-|Hne]; [by rewrite lookup_insert_eq|].
    by rewrite lookup_insert_ne, lookup_empty.
Qed.

Lemma copy_settles_its_reservation_witness :
  let copied := Copy 200 id to_root 7 (mkEnv example_copy_db [alone Works; alone Works] AutoCommit []) in
  ledger example_registry (λ _ _, 0) (db copied.2) ∧
  copied.1 = Ret (Ok (mkCopyResponse 1 1 0 [mkFileIdMapping 3 4] [])).
Proof.
  intros copied. assert (copied.1 = Ret (Ok (mkCopyResponse 1 1 0 [mkFileIdMapping 3 4] []))) as Eo
    by (vm_compute; reflexivity).
  split; [|exact Eo].
  assert (let (o, e) := copied in match o with
    | Ret (Ok _) => ledger example_registry (λ _ _, 0) (db e)
    | _ => ∃ n, 0 <= n ∧ held example_registry (λ _ _, 0) 7 n (db e) end) as H.
  { apply (copy_settles_its_reservation example_registry (λ _ _, 0) 7 200 id to_root 10
      example_copy_db [alone Works; alone Works] []).
    - lia.
    - vm_compute. reflexivity.
    - split; [exact example_copy_ledger|]. split_and!.
      + intros k f [_ <-]%example_copy_file. cbn. lia.
      + vm_compute. discriminate.
      + vm_compute. reflexivity.
    - do 2 (apply Forall_cons_2; [intros s Hs; exact Hs|]). apply Forall_nil_2.
    - do 2 (apply Forall_cons_2; [split; [discriminate|intros n Hn s Hs; exact Hs]|]).
      apply Forall_nil_2. }
  clearbody copied. destruct copied as [o e]. simpl in *. by subst o.
Defined.

(** A lost reply makes a copy release its reservation twice.  When the reply to the
    COMMIT that settles a chunk is lost, the copy takes the chunk for failed and
    releases bytes that are no longer reserved: of the ten bytes reserved for the upload
    under way none are left, though the books were exact before. *)
Lemma lost_commit_releases_twice :
  let copied := Copy 200 id to_root 7
    (mkEnv example_copy_db (replicate 14 (alone Works) ++ [alone LostReply])%list AutoCommit []) in
  ledger example_registry (λ _ _, 0) example_copy_db ∧
  copied.1 = Ret (Ok (mkCopyResponse 0 0 0 [] [])) ∧
  users (db copied.2) !! 7 = Some (mkUserRow 100 20 0) ∧
  reserved_of 7 (db copied.2) = 10 ∧
  f_name <$> files (db copied.2) !! 4 = Some "a.txt"%string.
Proof. split; [exact example_copy_ledger|]. split_and!; vm_compute; reflexivity. Qed.
