(* ===== verification/SaveBooks.v ===== *)
(** * The books and saved shares

    Saving a share charges the whole size of what it is going to copy, takes the
    references of what it copies and gives back the rest: the books of
    [Accounting.v] stay exact. *)

From S2P Require Import Prelude Errors Storage Db Rely UploadState Json Schema Batch Names Quota.
From S2P Require Import StorageJobs Content Files Folders DeletePlans FolderService Trash.
From S2P Require Import FileMutations FileCopies Accounting CopyBooks Like Shares ShareSaves.

Local Open Scope Z_scope.

(** A key survives the passage through [uint64_t]. *)
Lemma i64_u64 z : - 2 ^ 63 <= z < 2 ^ 63 → i64 (u64 z) = z.
Proof.
  intros Hz. unfold i64, u64. rewrite Zplus_mod_idemp_l. apply i64_small in Hz. exact Hz.
Qed.

Section books.
Context (registry : string → UploadIdentity) (refs_held : TrashRow → Z → Z) (u : Z).
Notation off := (off registry refs_held).

(** The books, but for [n] bytes charged to the user and not yet used. *)
Definition charged (n : Z) : Database → Prop := off zero (add zero u n) zero.

Lemma charged_eq n k s : charged n s → n = k → charged k s.
Proof. by intros ? <-. Qed.

Lemma charged_exact s : charged 0 s ↔ ledger registry refs_held s.
Proof.
  unfold charged, ledger. split; intros H; (eapply off_ext; [exact H|..]); try done;
    intros x; unfold add, zero; by case_match.
Qed.

(** ** Statements *)

(** An update of the account that adds [n] used bytes. *)
Lemma off_charge guard n set s rows s' r v c :
  (∀ a a', set a = Some a' → u_storage_reserved a' = u_storage_reserved a ∧
     u_storage_used a' = u_storage_used a + n) →
  update_user u guard set s = Some (rows, s') → rows ≠ 0 →
  off r v c s → off r (add v u n) c s'.
Proof.
  intros Hset [[-> _]|(a & a' & Ha & _ & Ha' & _ & ->)]%update_user_Some Hrows (Hk & Hu & Hc); [done|].
  destruct (Hset _ _ Ha') as [Hr Hv]. split_and!; [done| |done]. intros x b.
  change (users (put_account u a' s)) with (<[u:=a']> (users s)).
  change (reserved_of x (put_account u a' s)) with (reserved_of x s).
  change (used_of x (put_account u a' s)) with (used_of x s). unfold add.
  destruct (Z.eqb_spec x u) as [->|Hne].
  - rewrite lookup_insert_eq. intros [= <-]. destruct (Hu _ _ Ha). lia.
  - rewrite lookup_insert_ne by done. intros Hb. destruct (Hu _ _ Hb). lia.
Qed.

Lemma charge_charges total snap s w s' n : 0 <= total →
  runs (charge u total) snap s (Ok w) s' → charged n s → charged (n + total) s'.
Proof.
  intros Ht. unfold charge. destruct (Z.ltb_spec 0 total) as [_|Hz].
  - intros H Hs. run_bind H rows t H1. apply runs_exec in H1.
    destruct (Z.eqb_spec rows 0) as [->|Hne]; apply runs_ret in H as [E ->]; [done|].
    eapply off_ext; [eapply (off_charge _ total); [|exact H1|exact Hne|exact Hs]|done| |done].
    + intros a a' (k & [-> _]%bigint_Some & [= <-])%bind_Some. done.
    + intros x. unfold add, zero. case_match; lia.
  - intros [_ ->]%runs_ret Hs. eapply charged_eq; [exact Hs|lia].
Qed.

(** An account that does not exist is off by anything. *)
Lemma off_no_user n s r v c : users s !! u = None → off r v c s → off r (add v u n) c s.
Proof.
  intros Hno (Hk & Hu & Hc). split_and!; [done| |done]. intros x a Ha. unfold add.
  destruct (Z.eqb_spec x u) as [->|_]; [congruence|]. rewrite Z.add_0_r. by apply Hu.
Qed.

Lemma refund_refunds k j snap s w s' : 0 <= j <= k →
  runs (refund u k j) snap s w s' → charged (k - j) s → charged 0 s'.
Proof.
  intros Hj. unfold refund. destruct (Z.ltb_spec j k) as [Hlt|Hge].
  - intros H Hs. run_bind H rows t H1. apply runs_exec in H1. apply runs_ret in H as [_ ->].
    assert (off zero (add (add zero u (k - j)) u (- (k - j))) zero t) as H.
    { destruct (users s !! u) as [a|] eqn:Ha.
      - apply (off_charge (λ _, Some true) _ (λ u, v ← bigint_sub (u_storage_used u) (k - j);
          Some (u <| u_storage_used := v |>)) s rows); [|exact H1| |exact Hs].
        + intros b b' (x & [-> _]%bigint_Some & [= <-])%bind_Some. cbn. lia.
        + unfold refund_statement, update_user in H1. rewrite Ha in H1. simpl in H1.
          apply bind_Some in H1 as (? & _ & [= <- _]). done.
      - unfold refund_statement, update_user in H1. rewrite Ha in H1. injection H1 as _ <-.
        by apply off_no_user. }
    eapply off_ext; [exact H|done| |done]. intros x. unfold add, zero. case_match; lia.
  - intros [_ ->]%runs_ret Hs. eapply charged_eq; [exact Hs|lia].
Qed.

(** ** Files *)

Lemma save_file_enters date k path f snap s w s' n :
  runs (save_file date u k path f) snap s w s' → charged (n + f_size f) s → charged n s'.
Proof.
  unfold save_file. intros H Hs. run_bind H w1 t1 H1. run_bind H row t2 H2.
  apply runs_ret in H as [_ ->]. unfold take_reference in H1. run_bind H1 r t H0.
  destruct r as [[]|er]; [|by apply runs_raise in H1]. apply runs_ret in H1 as [_ ->].
  apply (off_increment _ _ _ _ _ _ _ _ _ _ H0) in Hs.
  apply runs_exec in H2. pose proof H2 as H3.
  unfold insert_file in H3. apply bind_Some in H3 as ([res t'] & H3 & Hres).
  destruct res as [[i g]|]; [|done].
  destruct (off_insert_file _ _ _ _ _ _ _ _ _ H3 Hs) as (_ & Hc & _). cbn in Hc.
  destruct Hc as [row' Hc]. pose proof Hs as ((_ & _ & Hk) & _).
  destruct (Hk _ _ Hc) as [Hb _].
  assert (i64 (u64 (f_content_id f)) = f_content_id f) as Ei.
  { apply bigint_Some in Hb as [_ Hb]. by apply i64_u64. }
  eapply off_insert_row in H2; [|exact Hs].
  eapply off_ext; [exact H2|done|..]; intros x; unfold add, zero; cbn; rewrite ?Ei;
    case_match; lia.
Qed.

Lemma file_saved_size f top p : 0 <= f_size f.2 → 0 <= sv_actual_size p →
  sv_actual_size p + f_size f.2 < 2 ^ 64 →
  sv_actual_size (file_saved f top p) = sv_actual_size p + f_size f.2.
Proof. intros. cbn. apply u64_small. lia. Qed.

(** The loops: what they have copied is no longer charged for nothing. *)
Definition saves (files : list file_row) (p p' : SaveProgress) (total : Z) (s : Database) : Prop :=
  sv_actual_size p <= sv_actual_size p' <= sv_actual_size p + zsize files ∧
  charged (total - sv_actual_size p') s.

Lemma saves_step f files top p p' total s : 0 <= f_size f.2 → 0 <= sv_actual_size p →
  sv_actual_size p + zsize (f :: files) < 2 ^ 64 → sized files →
  saves files (file_saved f top p) p' total s → saves (f :: files) p p' total s.
Proof.
  rewrite zsize_cons. intros Hf Hp Hlt Hs%zsize_nonneg [H1 H2]. split; [|done].
  rewrite file_saved_size in H1 by lia. rewrite zsize_cons. lia.
Qed.

Lemma saves_skip f files p p' total s : 0 <= f_size f.2 →
  saves files p p' total s → saves (f :: files) p p' total s.
Proof. intros Hf [H1 H2]. split; [|done]. rewrite zsize_cons. lia. Qed.

Lemma saves_none p total s : charged (total - sv_actual_size p) s → saves [] p p total s.
Proof. intros H. split; [|done]. unfold zsize. simpl. lia. Qed.

Lemma save_files_saves date t path files p snap s p' s' total : sized files →
  0 <= sv_actual_size p → sv_actual_size p + zsize files < 2 ^ 64 →
  runs (save_files date u t path files p) snap s p' s' →
  charged (total - sv_actual_size p) s → saves files p p' total s'.
Proof.
  intros Hsized. revert p s. induction Hsized as [|f files Hf Hsized IH]; intros p s Hp Hlt H Hs; simpl in H.
  - apply runs_ret in H as [-> ->]. by apply saves_none.
  - pose proof Hlt as Hlt'. rewrite zsize_cons in Hlt'. pose proof (zsize_nonneg _ Hsized).
    run_bind H conflict s1 H1. apply runs_query in H1 as [-> ->]. destruct (exists_row _ _).
    + apply saves_skip; [done|]. by apply (IH p s); [|lia|..].
    + run_bind H w s2 H2. apply (saves_step _ _ 1); [done..|].
      apply (IH _ s2); rewrite ?file_saved_size by lia; [lia|lia|done|].
      eapply save_file_enters; [exact H2|]. eapply charged_eq; [exact Hs|lia].
Qed.

Lemma save_plan_files_saves date copied files p snap s p' s' total : sized files →
  0 <= sv_actual_size p → sv_actual_size p + zsize files < 2 ^ 64 →
  runs (save_plan_files date u files copied p) snap s p' s' →
  charged (total - sv_actual_size p) s → saves files p p' total s'.
Proof.
  intros Hsized. revert p s. induction Hsized as [|f files Hf Hsized IH]; intros p s Hp Hlt H Hs; simpl in H.
  - apply runs_ret in H as [-> ->]. by apply saves_none.
  - pose proof Hlt as Hlt'. rewrite zsize_cons in Hlt'. pose proof (zsize_nonneg _ Hsized).
    destruct (copied !! _) as [[k path]|].
    + run_bind H w s2 H2. apply (saves_step _ _ 0); [done..|].
      apply (IH _ s2); rewrite ?file_saved_size by lia; [lia|lia|done|].
      eapply save_file_enters; [exact H2|]. eapply charged_eq; [exact Hs|lia].
    + apply saves_skip; [done|]. by apply (IH p s); [|lia|..].
Qed.

Lemma save_folders_keeps date k root rows copied p snap s res s' n :
  runs (save_folders date u k root rows copied p) snap s res s' → charged n s →
  charged n s' ∧ sv_actual_size res.2 = sv_actual_size p.
Proof.
  revert s copied p. induction rows as [|f rows IH]; intros s copied p; simpl.
  - intros [-> ->]%runs_ret Hs. done.
  - destruct (f.1 =? root.1); [by apply IH|].
    destruct (copied !! _) as [[i path]|]; [|by apply IH].
    intros H Hs. run_bind H row t H1. apply runs_exec in H1.
    apply (IH _ _ _ H). by eapply off_insert_folder.
Qed.

Lemma save_plan_saves date t l plan p snap s p' s' total : sized (fp_files plan) →
  0 <= sv_actual_size p → sv_actual_size p + zsize (fp_files plan) < 2 ^ 64 →
  runs (save_plan date u t l plan p) snap s p' s' →
  charged (total - sv_actual_size p) s → saves (fp_files plan) p p' total s'.
Proof.
  intros Hsized Hp Hlt H Hs. unfold save_plan in H. cbv zeta in H.
  run_bind H conflict s1 H1. apply runs_query in H1 as [-> ->]. destruct (exists_row _ _).
  - apply runs_ret in H as [-> ->]. split; [|done]. apply zsize_nonneg in Hsized. lia.
  - run_bind H row s1 H1. apply runs_exec in H1.
    eapply off_insert_folder in H1; [|exact Hs]. run_bind H res s2 H2.
    destruct res as [copied q]. eapply save_folders_keeps in H2 as [Hs2 Eq]; [|exact H1].
    cbn [snd] in Eq. change (sv_actual_size (folder_saved 1 p)) with (sv_actual_size p) in Eq.
    unfold saves. rewrite <- Eq in *. by eapply save_plan_files_saves.
Qed.

Lemma save_plans_saves date t l plans p snap s p' s' total : sized (plans ≫= fp_files) →
  0 <= sv_actual_size p → sv_actual_size p + zsize (plans ≫= fp_files) < 2 ^ 64 →
  runs (save_plans date u t l plans p) snap s p' s' →
  charged (total - sv_actual_size p) s → saves (plans ≫= fp_files) p p' total s'.
Proof.
  revert p s. induction plans as [|plan plans IH]; intros p s; cbn [save_plans].
  - intros _ _ _ [-> ->]%runs_ret Hs. by apply saves_none.
  - rewrite bind_cons. intros [Hs1 Hs2]%Forall_app Hp Hlt H Hs. rewrite zsize_app in Hlt.
    pose proof (zsize_nonneg _ Hs1). pose proof (zsize_nonneg _ Hs2).
    run_bind H q s1 Hrow. eapply save_plan_saves in Hrow as [Hq Hs']; [|done..|lia|exact Hs].
    eapply IH in H as [Hq' Hend]; [|done|lia|lia|exact Hs'].
    split; [|done]. rewrite zsize_app. lia.
Qed.

Lemma size_to_save_exact files plans : sized files → sized (plans ≫= fp_files) →
  zsize files + zsize (plans ≫= fp_files) < 2 ^ 64 →
  size_to_save files plans = zsize files + zsize (plans ≫= fp_files).
Proof.
  intros Hf Hp Hlt. pose proof (zsize_nonneg _ Hf) as Ht. pose proof (zsize_nonneg _ Hp).
  unfold size_to_save. rewrite add_sizes_exact by (done || lia). rewrite Z.add_0_l.
  revert Ht Hlt. generalize (zsize files). clear Hf H. intros t Ht Hlt.
  revert t Ht Hlt. induction plans as [|p plans IH]; intros t Ht Hlt.
  - unfold zsize. simpl. lia.
  - rewrite bind_cons in *. apply Forall_app in Hp as [Hp1 Hp2].
    pose proof (zsize_nonneg _ Hp1). pose proof (zsize_nonneg _ Hp2).
    rewrite zsize_app in *. cbn [foldl]. rewrite add_sizes_exact by (done || lia).
    rewrite IH by (done || lia). lia.
Qed.

Lemma count_saved_keeps date t n snap s w s' k :
  runs (count_saved date u t n) snap s w s' → charged k s → charged k s'.
Proof.
  unfold count_saved. destruct (_ && _); [|by intros [_ ->]%runs_ret].
  intros H Hs. run_bind H b s1 H1. apply runs_ret in H as [_ ->]. apply runs_exec in H1.
  unfold update_folder in H1. destruct (owned_folder _ _ _) as [[i g]|]; [|by simplify_eq].
  apply bind_Some in H1 as (g' & _ & H). destruct (check_folder g' && _); [|done].
  injection H as _ <-. by eapply off_frame.
Qed.

(** The transaction. *)
Lemma save_body_keeps date t l files plans snap s r s' : sized files →
  sized (plans ≫= fp_files) → zsize files + zsize (plans ≫= fp_files) < 2 ^ 63 →
  runs (save_body date u t l files plans) snap s (Ok r) s' →
  ledger registry refs_held s → ledger registry refs_held s'.
Proof.
  intros Hf Hp Hlt H Hs. rewrite <- charged_exact in *.
  pose proof (zsize_nonneg _ Hf). pose proof (zsize_nonneg _ Hp).
  unfold save_body in H. cbv zeta in H. rewrite size_to_save_exact in H by (done || lia).
  set (total := zsize files + zsize (plans ≫= fp_files)) in *.
  run_bind_result H w s1 Hcharge. apply charge_charges with (2 := Hcharge) in Hs; [|lia].
  run_bind H p s2 Hfiles.
  eapply (save_files_saves _ _ _ _ _ _ _ _ _ total) in Hfiles as [Hp1 Hs2];
    [|done|done|cbn; lia|eapply charged_eq; [exact Hs|cbn; lia]].
  run_bind H q s3 Hplans. cbn in Hp1.
  eapply (save_plans_saves _ _ _ _ _ _ _ _ _ total) in Hplans as [Hq Hs3]; [|done|lia|lia|exact Hs2].
  run_bind H w1 s4 Hcount. eapply count_saved_keeps in Hcount; [|exact Hs3].
  run_bind H w2 s5 Hrefund. apply runs_ret in H as [_ ->].
  rewrite !i64_small in Hrefund by lia. eapply refund_refunds; [|exact Hrefund|exact Hcount]. lia.
Qed.

(** ** What is read *)

(** The files of the drive add up to at most [max]. *)
Definition affordable (max : Z) (s : Database) : Prop :=
  (∀ k f, files s !! k = Some f → 0 <= f_size f) ∧ sum_rows (λ _ f, f_size f) (files s) <= max.

Lemma affordable_rows max s rows : affordable max s → NoDup rows.*1 →
  (∀ g : file_row, g ∈ rows → files s !! g.1 = Some g.2) → sized rows ∧ zsize rows <= max.
Proof.
  intros [Hpos Hmax] Hnd Hrows. split.
  - apply Forall_forall. intros g Hg. eapply Hpos, Hrows, Hg.
  - etrans; [|exact Hmax]. apply (sum_rows_ge (λ _ f, f_size f)); [done|..|done].
    intros k f Hg. by apply Hrows in Hg.
Qed.

Lemma affordable_file max s share_id id f : affordable max s →
  file_in_share share_id id s = Some f → sized [f] ∧ zsize [f] <= max.
Proof.
  intros Hs (g & Hg & H)%bind_Some. destruct (shared_file _ _ _); [|done]. injection H as <-.
  apply (affordable_rows max s); [done|apply NoDup_singleton|]. by intros ? ->%list_elem_of_singleton.
Qed.

Lemma affordable_below max s k path : affordable max s →
  sized (share_files_below k path s) ∧ zsize (share_files_below k path s) <= max.
Proof.
  intros Hs. apply (affordable_rows max s); [done|..].
  - apply NoDup_fmap_fst; [|apply select_rows_NoDup].
    intros i g g' [Hg _]%elem_of_select_rows [Hg' _]%elem_of_select_rows. simpl in *. congruence.
  - by intros [i g] [Hg _]%elem_of_select_rows.
Qed.

(** Reads throw database exceptions only. *)
Definition only_db {A} (m : M Database A) : Prop :=
  ∀ e x e', m e = (Raise x, e') → x = DbException.

Lemma only_db_query {A} (q : Database → A) : only_db (query q).
Proof. intros e x e'. apply query_raises. Qed.

Lemma only_db_ret {A} (a : A) : only_db (mret a).
Proof. by intros e x e'. Qed.

Lemma only_db_bind {A B} (m : M Database A) (f : A → M Database B) :
  only_db m → (∀ a, only_db (f a)) → only_db (m ≫= f).
Proof.
  intros Hm Hf e x e'. unfold mbind, M_bind. destruct (m e) as [[a|y] e1] eqn:E; [apply Hf|].
  intros [= <- _]. by eapply Hm.
Qed.

Lemma only_db_bind_result {A B} (m : M Database (Result A)) (f : A → M Database (Result B)) :
  only_db m → (∀ a, only_db (f a)) → only_db (bind_result m f).
Proof. intros Hm Hf. apply only_db_bind; [done|]. intros [a|er]; [done|apply only_db_ret]. Qed.

Create HintDb only_db.
#[local] Hint Resolve only_db_query only_db_ret only_db_bind only_db_bind_result : only_db.

Lemma only_db_files share_id ids : only_db (files_to_save share_id ids).
Proof.
  induction ids; simpl; [auto with only_db|]. apply only_db_bind; [auto with only_db|].
  intros []; auto with only_db.
Qed.

Lemma only_db_plans share_id ids : only_db (folder_plans share_id ids).
Proof.
  induction ids; simpl; [auto with only_db|]. apply only_db_bind; [auto with only_db|].
  intros []; unfold read_plan; auto 6 with only_db.
Qed.

Lemma only_db_target t : only_db (target_location t u).
Proof. unfold target_location. case_match; auto with only_db. Qed.

Section reading.
Context (I : Database → Prop) (max : Z) (HI : ∀ s, I s → affordable max s).
Notation reads m Q := (yields any_change I m (λ a _, Q a)).

(** Answers that say nothing about the database. *)
Lemma reads_bind {A B} (Q : A → Prop) (Q' : B → Prop) (m : M Database A) (f : A → M Database B) :
  Respects any_change I m → reads m Q → (∀ a, Q a → reads (f a) Q') → reads (m ≫= f) Q'.
Proof.
  intros Hm HQ Hf e b e' Ht Hs Hst. specialize (Hm e Ht Hs Hst). unfold mbind, M_bind.
  destruct (m e) as [[a|x] e1] eqn:E; [|done]. destruct Hm as (Ht' & Hs' & _ & Hsuf).
  apply (Hf a (HQ _ _ _ Ht Hs Hst E)); [done..|by eapply relies_suffix].
Qed.

Lemma reads_bind_result {A B} (Q : A → Prop) (Q' : B → Prop) (m : M Database (Result A))
    (f : A → M Database (Result B)) : Respects any_change I m →
  reads m (λ r, ∀ a, r = Ok a → Q a) → (∀ a, Q a → reads (f a) (λ r, ∀ b, r = Ok b → Q' b)) →
  reads (bind_result m f) (λ r, ∀ b, r = Ok b → Q' b).
Proof.
  intros Hm HQ Hf. eapply reads_bind; [done|exact HQ|]. intros [a|er] Ha; [by apply Hf, Ha|].
  apply yields_ret. by intros.
Qed.

#[export] Instance respects_files share_id ids : Respects any_change I (files_to_save share_id ids).
Proof. induction ids; simpl; [apply _|]. apply respects_bind; [apply _..|]. intros []; apply _. Qed.

#[export] Instance respects_plans share_id ids : Respects any_change I (folder_plans share_id ids).
Proof.
  induction ids; simpl; [apply _|]. apply respects_bind; [apply _..|].
  intros []; unfold read_plan; apply _.
Qed.

Definition within (n : nat) (files : list file_row) : Prop :=
  sized files ∧ zsize files <= Z.of_nat n * max.

Lemma within_app n k files files' : within n files → within k files' →
  within (n + k) (files ++ files').
Proof. intros [? ?] [? ?]. split; [by apply Forall_app|]. rewrite zsize_app. lia. Qed.

Lemma reads_files share_id ids :
  reads (files_to_save share_id ids) (λ r, ∀ fs, r = Ok fs → within (length ids) fs).
Proof.
  induction ids as [|i ids IH]; cbn [files_to_save length].
  - apply yields_ret. intros _ _ fs [= <-]. split; [constructor|]. unfold zsize. simpl. lia.
  - apply (reads_bind (λ o, ∀ f, o = Some f → within 1 [f])); [apply _| |].
    + apply yields_query; [apply _|]. intros s Hs f Hf.
      apply (affordable_file max) in Hf as [? ?]; [|by apply HI]. split; [done|lia].
    + intros [f|] Hf; [|by apply yields_ret].
      eapply reads_bind_result; [apply _|exact IH|]. intros fs Hfs.
      apply yields_ret. intros _ _ b [= <-]. by apply (within_app 1 _ [f]); [apply Hf|].
Qed.

Lemma reads_plans share_id ids :
  reads (folder_plans share_id ids) (λ r, ∀ plans, r = Ok plans →
    within (length ids) (plans ≫= fp_files)).
Proof.
  induction ids as [|i ids IH]; cbn [folder_plans length].
  - apply yields_ret. intros _ _ fs [= <-]. split; [constructor|]. unfold zsize. simpl. lia.
  - apply (reads_bind (λ _, True)); [apply _|by intros ? ? ? ? ? ? ?|].
    intros [root|] _; [|by apply yields_ret].
    apply (reads_bind (λ plan, within 1 (fp_files plan))); [unfold read_plan; apply _| |].
    + unfold read_plan. apply (reads_bind (λ _, True)); [apply _|by intros ? ? ? ? ? ? ?|].
      intros folders _. eapply reads_bind; [apply _| |intros files Hfiles; by apply yields_ret].
      apply yields_query; [apply _|]. intros s Hs.
      destruct (affordable_below max s (d_user_id root.2) (d_path root.2)); [by apply HI|].
      split; [done|lia].
    + intros plan Hplan. eapply reads_bind_result; [apply _|exact IH|]. intros plans Hplans.
      apply yields_ret. intros _ _ b [= <-]. rewrite bind_cons. by apply (within_app 1).
Qed.

(** ** The whole operation *)

(** The books are exact and nothing but a database exception was thrown. *)
Definition intact {A} (r : outcome A * Env Database) : Prop :=
  ledger registry refs_held (db r.2) ∧ ∀ x, r.1 = Raise x → x = DbException.

Definition quiet (e : Env Database) : Prop :=
  tx e = AutoCommit ∧ I (db e) ∧ relies any_change I (schedule e).

Lemma intact_read {A B} (Q : A → Prop) (m : M Database (Result A))
    (f : A → M Database (Result B)) e : (∀ s, I s → ledger registry refs_held s) →
  Respects any_change I m → only_db m → reads m (λ r, ∀ a, r = Ok a → Q a) → quiet e →
  (∀ a e', Q a → quiet e' → intact (f a e')) → intact (bind_result m f e).
Proof.
  intros HL Hm Hdb HQ (Ht & Hs & Hst) Hf. destruct (Hm e Ht Hs Hst) as (Ht' & Hs' & _ & Hsuf).
  unfold bind_result, mbind, M_bind. destruct (m e) as [[[a|er]|x] e'] eqn:E; cbn in *.
  - apply Hf; [by apply (HQ _ _ _ Ht Hs Hst E)|]. split_and!; [done..|by eapply relies_suffix].
  - split; [by apply HL|done].
  - split; [by apply HL|]. intros y [= <-]. by eapply Hdb.
Qed.
End reading.

(** C4: saving a share keeps the books.  Whatever is skipped because its name is taken
    or its folder is not copied, whatever statement fails and whichever reply is lost,
    after a save the used bytes of every account are those of its files and every
    reference count is the number of references, if they were before and the other
    sessions keep it so; and the save answers.  The sizes must fit 63 bits. *)
Theorem saving_keeps_books date request share_id max d sch cs :
  0 <= max →
  Z.of_nat (length (sq_file_ids request) + length (sq_folder_ids request)) * max < 2 ^ 63 →
  let I s := ledger registry refs_held s ∧ affordable max s in
  I d → stable I sch →
  let (o, e) := SaveToDrive date request share_id u (mkEnv d sch AutoCommit cs) in
  ledger registry refs_held (db e) ∧ ∃ r, o = Ret r.
Proof.
  intros Hmax Hlt I Hd Hsch.
  assert (quiet I (mkEnv d sch AutoCommit cs)) as He.
  { split_and!; [done..|]. eapply Forall_impl; [exact Hsch|]. intros st H s Hs. by split; [apply H|]. }
  revert He. generalize (mkEnv d sch AutoCommit cs). intros e He.
  unfold SaveToDrive, catch_db, catch.
  match goal with |- context [match ?m e with _ => _ end] => set (body := m) end.
  assert (intact (body e)) as Hbody.
  { assert (∀ s, I s → ledger registry refs_held s) as HL by (by intros s [? _]).
    assert (∀ s, I s → affordable max s) as HA by (by intros s [_ ?]).
    assert (∀ A (m : M Database A), yields any_change I m (λ _ _, True)) as Hany
      by (by intros ? ? ? ? ? ? ? ? ?).
    unfold body. apply (intact_read I (λ _, True)); [done|apply _|apply only_db_query|done|done|].
    intros _ e1 _ He1. apply (intact_read I (λ _, True)); [done| |apply only_db_target|done|done|].
    { unfold target_location. case_match; apply _. }
    intros l e2 _ He2. apply (intact_read I (within max (length (sq_file_ids request))));
      [done|apply _|apply only_db_files|by apply reads_files|done|].
    intros files e3 [Hf Hfs] He3.
    apply (intact_read I (λ plans, within max (length (sq_folder_ids request)) (plans ≫= fp_files)));
      [done|apply _|apply only_db_plans|by apply reads_plans|done|].
    intros plans [s sch' t cs'] [Hp Hps] (Ht & Hs & Hst). cbn in *. subst t.
    destruct (Run_spec SaveFailed (save_body date u (sq_target_folder_id request) l files plans)
      s sch' cs') as (o & s' & sch2 & -> & _ & Ho); [apply _|].
    destruct (arrive_relies any_change I _ _ Hs Hst) as [Hs' _].
    split; [|done]. cbn. destruct Ho as [[-> _]|(a & _ & Hc)]; [by apply HL|].
    apply (proj1 (clean_runs _ _ _ _)) in Hc. eapply save_body_keeps; [| | |exact Hc|by apply HL];
      [done|done|lia]. }
  destruct (body e) as [[r|x] e'], Hbody as [Hl Hx]; cbn in *; [by eauto|].
  rewrite (Hx x eq_refl). cbn. eauto.
Qed.
End books.

(** ** Witnesses *)

(** The user 7 shares the folder 1, whose file has ten bytes; the user 8 has a folder. *)
Definition example_saving : Database :=
  example_copy_db <| users := {[ 7 := mkUserRow 100 10 10; 8 := mkUserRow 100 0 0 ]} |>
    <| folders := {[ 1 := mkFolderRow 7 0 "docs" "/docs/" 1 1 100 100;
                     2 := mkFolderRow 8 0 "inbox" "/inbox/" 1 0 100 100 ]} |>
    <| folders_id_seq := 3 |>
    <| shares := {[ 5 := mkShareRow "Ab3" 7 None "download" 0 0 1 None 100 100 ]} |>
    <| share_files := {[ 6 := mkShareFileRow 5 "folder" 1 100 ]} |>.

Lemma example_saving_ledger : ledger example_registry (λ _ _, 0) example_saving.
Proof.
  pose proof example_copy_ledger as (Hk & _ & Hc). split_and!.
  - exact Hk.
  - intros user a H. change (users example_saving) with
      (<[7 := mkUserRow 100 10 10]> {[8 := mkUserRow 100 0 0]} : gmap Z UserRow) in H.
    apply lookup_insert_Some in H as [[<- <-]|[_ H]]; [split; reflexivity|].
    apply lookup_singleton_Some in H as [<- <-]. split; reflexivity.
  - exact Hc.
Qed.

Lemma example_saving_affordable : affordable 10 example_saving.
Proof.
  split; [|vm_compute; discriminate].
  intros k f [_ <-]%example_copy_file. cbn. lia.
Qed.

Definition to_inbox : SaveShareItemsRequest := mkSaveShareItemsRequest [3] [1] 2.

Lemma saving_keeps_books_witness :
  let saved := SaveToDrive 200 to_inbox 5 8
    (mkEnv example_saving [alone Works; alone Works] AutoCommit []) in
  ledger example_registry (λ _ _, 0) (db saved.2) ∧
  saved.1 = Ret (Ok (mkSaveShareItemsResponse 3 2 1)) ∧
  users (db saved.2) !! 8 = Some (mkUserRow 100 20 0).
Proof.
  intros saved.
  assert (saved.1 = Ret (Ok (mkSaveShareItemsResponse 3 2 1)) ∧
    users (db saved.2) !! 8 = Some (mkUserRow 100 20 0)) as [Eo Eu]
    by (split; vm_compute; reflexivity).
  assert (let (o, e) := saved in
    ledger example_registry (λ _ _, 0) (db e) ∧ ∃ r, o = Ret r) as H.
  { apply (saving_keeps_books example_registry (λ _ _, 0) 8 200 to_inbox 5 10
      example_saving [alone Works; alone Works] []).
    - lia.
    - vm_compute. reflexivity.
    - split; [exact example_saving_ledger|exact example_saving_affordable].
    - do 2 (apply Forall_cons_2; [intros s Hs; exact Hs|]). apply Forall_nil_2. }
  clearbody saved. destruct saved as [o e]. simpl in *. by destruct H.
Defined.

(** A share can be saved into a folder that is gone.  The target folder is read
    before the transaction and not locked, and nothing looks at the rows its count
    updates: when the folder is deleted in between, the save answers with success and
    leaves the file, charged to the user, in no folder. *)
Lemma save_into_missing_folder :
  let saved := SaveToDrive 200 (mkSaveShareItemsRequest [3] [] 2) 5 8
    (mkEnv example_saving [alone Works; alone Works;
       mkStep (λ s, s <| folders := delete 2 (folders s) |>) Works] AutoCommit []) in
  saved.1 = Ret (Ok (mkSaveShareItemsResponse 1 1 0)) ∧
  (λ f, (f_user_id f, f_folder_id f)) <$> files (db saved.2) !! 4 = Some (8, 2) ∧
  folders (db saved.2) !! 2 = None ∧
  users (db saved.2) !! 8 = Some (mkUserRow 100 10 0).
Proof. cbv zeta. split_and!; vm_compute; reflexivity. Qed.
